(* ===== verification/_CoqProject ===== *)
-Q . S2P
Prelude.v
Bitops.v
ListHead.v
Hlist.v
Addr.v
Slab.v
Kmalloc.v
Abi.v
Vma.v
Mmap.v
Paging.v
Demand.v
Rtc.v
Timer.v
Sig.v
Sched.v
Signal.v
Process.v
Flexbuf.v
Numstr.v
Vsprintf.v
Cstring.v
Vfs.v
Namei.v
Ramfs.v
Modfs.v
Super.v
Fileops.v
Descr.v
Pipe.v
Console.v
Tty.v
Time.v
Block.v
Ext2.v
Machine.v
Trap.v
Exec.v
Execfs.v
Dispatch.v
