(* ===== verification/Prelude.v ===== *)
(** * Telos: a verification of the kernel

    Telos is a small x86 kernel in C.  This development models its components as
    Rocq functions, one definition per C function, and proves what makes each of
    them correct.  File and function names below are those under src/.  A definition
    has the name of the function it models; loops of a function, and the fields a
    function stores at once, are helper definitions in front of it.

    ** The machine

    The target is i386: [int], [long] and pointers have 32 bits, [char] is signed.
    Machine integers are [Z] with the reductions [u32], [s32], ... written where the
    C code converts or may overflow.  Code that can go wrong returns [res]: [Ok], a
    [Fault] where the C code has undefined behaviour (a wild pointer, an index out of
    range, a call through [NULL]), or a [Panic].  Stateful code is in the monad [ST].
    Objects in memory are maps from addresses, tables are lists, and function
    pointers are numbers or entries of operation tables.

    ** The parts and where they are

    Base.  Prelude.v: integers, results, monads, lemmas and tactics.  Bitops.v:
    include/asm/bitops.h, include/kernel/bitops.h, bitmap.h, log2.h, hash.h.
    ListHead.v and Hlist.v: the lists of include/kernel/list.h and the hash tables of
    hashtable.h, at the level of pointers.  The other files use sequences where the C
    code uses lists; the refinement theorems of ListHead.v and Hlist.v justify this.
    Addr.v: page arithmetic.  Abi.v: error numbers.

    Memory.  Slab.v (kernel/slab.c) and Kmalloc.v (kernel/kmalloc.c) allocate from an
    interface of pages.  Vma.v (kernel/vma.c) keeps the areas of an address space;
    Mmap.v (kernel/mmap.c, dispatch/mem.c) builds mappings and the heap break on it.
    Paging.v (kernel/paging.c, and the copies between address spaces of kernel/vma.c)
    has physical frames, page tables and copy on write; Demand.v shows what mapping an
    absent page and copying a present one do to an address space.

    Time.  Rtc.v (kernel/rtc.c), Timer.v (kernel/timer.c), Time.v (dispatch/time.c).

    Processes.  Sched.v (include/kernel/process.h, wait.h, kernel/schedule.c) defines
    the state [kst] shared by the files below: the process table, queues, timers,
    context words, and an environment that each file instantiates.  Sig.v and
    Signal.v (dispatch/signal.c), Process.v (dispatch/process.c), Exec.v (execve and
    the ELF loader of dispatch/process.c), Dispatch.v (dispatch/dispatch.c).  Execfs.v
    shows that open modfs and ramfs files are what the loader's theorem asks of a file.

    Library.  Numstr.v (lib/kstrtox.c, lib/itoa.c), Vsprintf.v (lib/vsprintf.c),
    Cstring.v (lib/string.c), Flexbuf.v (kernel/flexbuf.c).

    Files.  Vfs.v (include/kernel/fs.h, fs/inode.c), Namei.v (fs/namei.c), Super.v
    (fs/filesystems.c, fs/devices.c, fs/super.c), Fileops.v (fs/open.c, read_write.c,
    stat.c, fcntl.c, ioctl.c) with its theorems in Descr.v, Pipe.v (fs/pipe.c).  The
    file systems are Ramfs.v (fs/ramfs/ramfs.c), Modfs.v (fs/modfs/modfs.c) and Ext2.v
    (fs/ext2).  They meet the file system layer through operation tables ([VfsOps])
    and laws ([VfsLaws], [NameiLaws]): the theorems on path names are proved from the
    laws, and Ramfs.v proves the laws.  The theorems on descriptors are proved from
    [FileLaws], which say that file operations keep an invariant of the file systems
    and the tables; Descr.v proves them of the operations of Ramfs.v.

    Devices.  Console.v (drivers/pc_console.c, lib/kbtoa.c), Tty.v (drivers/tty.c),
    Block.v (fs/buffer.c, drivers/block).

    Processor.  Machine.v (kernel/gdt.c, pic.c, kernel.c, the descriptor half of
    interrupt.c), Trap.v (the exception handlers of interrupt.c, with page faults on the
    page tables of Paging.v).

    ** What the theorems show

    Refinement: pointer lists and hash tables implement sequences, flexible buffers a
    queue of bytes, consoles ideal terminals, terminals an ideal line discipline, the
    buffer cache flat disks.  Allocation: what the slab and heap allocators return is
    free, disjoint from everything in use, and given back by freeing.  Address spaces:
    areas stay sorted and disjoint under creation, splitting and unmapping, file
    positions survive splitting, and copy on write keeps contents and counts.  Page
    faults: absent pages of areas are mapped, shared pages copied on a write, and
    everything else is answered by a signal.  Processes: numbers identify processes in
    every reachable state, fork and wait do what they promise, ready processes run in
    turn, sleepers wake and timers expire on time unless a signal comes first, and
    returning from a signal handler restores the context.  Programs: execve carries
    the arguments over and loads the image the file describes.  Files: path lookup
    conserves references, descriptor tables stay well formed, unopened descriptors are
    refused, files read back what was written, and ext2 files without holes read as
    the disk holds them.  Library: formatting terminates, stays in its buffer and
    prints the right digits, numbers survive printing and parsing, and [strtok] finds
    the tokens.  Start-up: vectors enter the right handler at the right level, and
    initialisers run in order.

    Where the code departs from what it means to do, the model follows the code, the
    theorems have the hypotheses under which it works, and a lemma shows the
    departure on an example or in general ([vm_verify_wrong_bound],
    [sigprocmask_blocks_sigstop], [ramfs_write_page_boundary], [reread_pins] and
    others, mostly under the heading "Where the code goes wrong").

    ** Bounds and fuel

    Recursion that is not structural takes fuel, and running out of it is a [Fault] or
    a result of its own.  Walks over linked lists need more fuel than there are nodes; the
    theorems quantify over any such fuel and show that the walk ends.  [format_fuel]
    is two turns per character of the format and three more, and [vsnprintf_terminates] shows
    that it suffices.  [sort_fuel] bounds the exchanges of the insertion sort, and
    [init_subsystems_order] shows that it suffices.  [dirent_fuel] is one turn per
    byte of a directory, enough whenever every entry has a length.  Loops of
    lib/string.c may run once more than there are mapped addresses.  Searches of page
    tables run over their 1024 entries.  Digit loops have at least one turn per digit,
    and path walks more than one per byte of the path.  Bounds in hypotheses (sizes
    below 2^31, counts that do not wrap) exclude wrap-around of the C types.

    ** Sleeping and interrupts

    A system call that sleeps is split where it calls the scheduler, into a part that
    returns what it keeps on its stack and a part that resumes.  Kernel
    code is modelled as not preempted, so interleavings are those of the parts.

    ** Not modelled

    kernel/entry.S apart from the range check of the system call entry, the stubs of
    include/telos/syscall.h: assembly; the frames they build are data of the models.
    The start-up function of kernel/paging.c, which carves physical memory from the
    boot loader's map and depends on linker symbols, and with it most of
    include/kernel/multiboot.h.  [page_attr_on] and [page_attr_off] of kernel/paging.c.
    The TLB.  Code that the configuration leaves out: the binary printf functions
    and the second algorithm of lib/vsprintf.c.  [realloc_descriptor] of
    kernel/flexbuf.c, which nothing calls.  [ktimer_create], which allocates and
    initialises.  The [test_and_] bit operations and the constant-folding macro of
    log2.h.  Loop macros of list.h that only combine a walk with [container_of].
    Start-up functions that only register a driver or file system.  Headers without
    code; the constants used are defined where they are used.  Timing of devices:
    the block driver of boot modules completes a request before it returns, and port
    reads are functions of the ports written. *)

From Stdlib Require Export ZArith Lia Bool.
From stdpp Require Export base numbers option list gmap.

#[global] Open Scope Z_scope.

Ltac Zify.zify_post_hook ::= Z.to_euclidean_division_equations.

(** ** Unsigned and signed machine integers *)

(** Reduction modulo [2^w]: what storing into an unsigned [w]-bit object does. *)
Definition uN (w z : Z) : Z := z mod 2 ^ w.

(** The two's complement reading of the low [w] bits. *)
Definition sN (w z : Z) : Z :=
  let u := uN w z in if u <? 2 ^ (w - 1) then u else u - 2 ^ w.

Abbreviation u8 := (uN 8).
Abbreviation u16 := (uN 16).
Abbreviation u32 := (uN 32).
Abbreviation u64 := (uN 64).
Abbreviation s8 := (sN 8).
Abbreviation s32 := (sN 32).
Abbreviation s64 := (sN 64).

Definition in_u32 (z : Z) : Prop := 0 <= z < 2 ^ 32.

Definition in_s32 (z : Z) : Prop := - 2 ^ 31 <= z < 2 ^ 31.

Declare Scope word_scope.
Delimit Scope word_scope with word.

Notation "x '+%' y" := (u32 (x + y)) (at level 50, left associativity) : word_scope.
Notation "x '-%' y" := (u32 (x - y)) (at level 50, left associativity) : word_scope.
Notation "x '*%' y" := (u32 (x * y)) (at level 40, left associativity) : word_scope.
Notation "'~%' x" := (u32 (Z.lnot x)) (at level 35, right associativity) : word_scope.

#[global] Open Scope word_scope.

Create HintDb machine.

Lemma uN_range (w z : Z) : 0 <= w -> 0 <= uN w z < 2 ^ w.
Proof. intros Hw. apply Z.mod_pos_bound. lia. Qed.

Lemma uN_id (w z : Z) : 0 <= z < 2 ^ w -> uN w z = z.
Proof. apply Z.mod_small. Qed.

Lemma uN_idem (w z : Z) : 0 <= w -> uN w (uN w z) = uN w z.
Proof. intros Hw. apply uN_id, uN_range, Hw. Qed.

Lemma u32_range (z : Z) : 0 <= u32 z < 2 ^ 32.
Proof. apply uN_range. lia. Qed.

Lemma sN_range (w z : Z) : 1 <= w -> - 2 ^ (w - 1) <= sN w z < 2 ^ (w - 1).
Proof.
  intros Hw. pose proof (uN_range w z ltac:(lia)) as Hr.
  assert (2 ^ w = 2 * 2 ^ (w - 1)) as E.
  { rewrite <- Z.pow_succ_r by lia. f_equal. lia. }
  unfold sN. cbv zeta. destruct (Z.ltb_spec (uN w z) (2 ^ (w - 1))); lia.
Qed.

Lemma sN_id (w z : Z) : 1 <= w -> - 2 ^ (w - 1) <= z < 2 ^ (w - 1) -> sN w z = z.
Proof.
  intros Hw Hz.
  assert (2 ^ w = 2 * 2 ^ (w - 1)) as E.
  { rewrite <- Z.pow_succ_r by lia. f_equal. lia. }
  unfold sN, uN. cbv zeta. destruct (Z.leb_spec 0 z).
  - rewrite Z.mod_small by lia. destruct (Z.ltb_spec z (2 ^ (w - 1))); lia.
  - rewrite <- (Z.mod_unique z (2 ^ w) (-1) (z + 2 ^ w)) by lia.
    destruct (Z.ltb_spec (z + 2 ^ w) (2 ^ (w - 1))); lia.
Qed.

Lemma s32_shift (z : Z) : exists q, s32 z = z + q * 4294967296.
Proof.
  unfold sN, uN. cbv zeta. change (2 ^ 32) with 4294967296.
  destruct (_ <? _); [exists (- (z / 4294967296)) | exists (- (z / 4294967296) - 1)]; lia.
Qed.

#[export] Hint Resolve u32_range uN_range sN_range : machine.

(** Closes goals on 32-bit sums and differences: the wrap is unfolded to [mod]
    by a constant, which [lia] eliminates. *)
Ltac word_lia :=
  unfold in_u32, in_s32, sN, uN in *; cbv zeta in *;
  change (2 ^ 32) with 4294967296 in *; change (2 ^ 31) with 2147483648 in *;
  change (2 ^ (32 - 1)) with 2147483648 in *;
  lia.

(** ** Results of kernel code

    [Panic] is the kernel's own [panic()] or a failed [assert]; [Fault] is an
    access the C program may not make (an invalid pointer, an index outside an
    object), whose effect the model does not give. *)
Inductive res (A : Type) : Type :=
| Ok (a : A)
| Panic
| Fault.

Arguments Ok {A} a.
Arguments Panic {A}.
Arguments Fault {A}.

Definition res_bind {A B : Type} (m : res A) (k : A -> res B) : res B :=
  match m with
  | Ok a => k a
  | Panic => Panic
  | Fault => Fault
  end.

Notation "'do' x <- m ; k" := (res_bind m (fun x => k))
  (at level 10, x name, m at level 100, k at level 200).
Notation "'do' ' p <- m ; k" := (res_bind m (fun p => k))
  (at level 10, p strict pattern, m at level 100, k at level 200).

Lemma res_bind_ok {A B : Type} (m : res A) (k : A -> res B) (b : B) :
  res_bind m k = Ok b <-> exists a, m = Ok a /\ k a = Ok b.
Proof.
  destruct m; simpl; split; intros H.
  - eauto.
  - destruct H as [? [[= ->] ?]]. assumption.
  - discriminate.
  - destruct H as [? [? ?]]. discriminate.
  - discriminate.
  - destruct H as [? [? ?]]. discriminate.
Qed.

(** ** Programs over a state

    Code that reads and writes one component's state through many calls is
    written in this monad, with stdpp's notations: [x ← m; k], [m ;; k] and
    [mret x]. *)
Definition ST (S A : Type) : Type := S -> res (A * S).

#[export] Instance st_ret (S : Type) : MRet (ST S) := fun A a s => Ok (a, s).

#[export] Instance st_bind (S : Type) : MBind (ST S) := fun A B k m s =>
  match m s with
  | Ok (a, s) => k a s
  | Panic => Panic
  | Fault => Fault
  end.

Definition gets {S A : Type} (f : S -> A) : ST S A := fun s => Ok (f s, s).

Definition modify {S : Type} (f : S -> S) : ST S unit := fun s => Ok (tt, f s).

Definition panic {S A : Type} : ST S A := fun _ => Panic.

Definition fault {S A : Type} : ST S A := fun _ => Fault.

Definition st_res {S A : Type} (m : res A) : ST S A := fun s =>
  do a <- m; Ok (a, s).

(** [for (x in l) f(x)] *)
Fixpoint for_each {S A : Type} (l : list A) (f : A -> ST S unit) : ST S unit :=
  match l with
  | [] => mret tt
  | x :: l => f x ;; for_each l f
  end.

(** The integers [lo], [lo + 1], ..., [lo + n - 1]. *)
Definition zseq (lo : Z) (n : nat) : list Z := (fun i => lo + Z.of_nat i) <$> seq 0 n.

Lemma zseq_NoDup (lo : Z) (n : nat) : NoDup (zseq lo n).
Proof. unfold zseq. apply NoDup_fmap; [intros ? ?; lia | apply NoDup_seq]. Qed.

Lemma elem_of_zseq (lo i : Z) (n : nat) : i ∈ zseq lo n <-> lo <= i < lo + Z.of_nat n.
Proof.
  unfold zseq. rewrite list_elem_of_fmap. split.
  - intros (k & -> & Hk). apply elem_of_seq in Hk. lia.
  - intros Hi. exists (Z.to_nat (i - lo)). rewrite elem_of_seq. lia.
Qed.

Lemma zseq_lookup (lo : Z) (n k : nat) : (k < n)%nat -> zseq lo n !! k = Some (lo + Z.of_nat k).
Proof. intros H. unfold zseq. rewrite list_lookup_fmap, lookup_seq_lt by exact H. reflexivity. Qed.

Lemma zseq_length (lo : Z) (n : nat) : length (zseq lo n) = n.
Proof. unfold zseq. rewrite length_fmap, length_seq. reflexivity. Qed.

Lemma zseq_cons (lo : Z) (n : nat) : zseq lo (S n) = lo :: zseq (lo + 1) n.
Proof.
  unfold zseq. cbn [seq]. rewrite fmap_cons, Z.add_0_r, <- fmap_S_seq, <- list_fmap_compose. f_equal.
  apply list_fmap_ext. intros j x _. unfold compose. lia.
Qed.

Lemma zseq_split (lo : Z) (n : nat) (done rest : list Z) (x : Z) :
  zseq lo n = done ++ x :: rest -> x = lo + Z.of_nat (length done) /\ (length done < n)%nat.
Proof.
  intros E. assert (length done < n)%nat as Hlt by (rewrite <- (zseq_length lo n), E, length_app; simpl; lia).
  split; [|exact Hlt]. pose proof (zseq_lookup lo n (length done) Hlt) as Hx.
  rewrite E, lookup_app_r, Nat.sub_diag in Hx by lia. injection Hx as ->. reflexivity.
Qed.

Lemma bind_ok {S A B : Type} (m : ST S A) (k : A -> ST S B) (s s' : S) (a : A) :
  m s = Ok (a, s') -> mbind k m s = k a s'.
Proof. intros H. unfold mbind, st_bind. rewrite H. reflexivity. Qed.

Lemma bind_inv {S A B : Type} (m : ST S A) (k : A -> ST S B) (s s'' : S) (b : B) :
  mbind k m s = Ok (b, s'') -> exists a s', m s = Ok (a, s') /\ k a s' = Ok (b, s'').
Proof.
  unfold mbind, st_bind. destruct (m s) as [[a s'] | |]; intros H; [eauto | discriminate..].
Qed.

(** Rule for loops: [P done s] holds before the loop with nothing done and each
    iteration carries it over one more element. *)
Lemma for_each_rule {S A : Type} (P : list A -> S -> Prop) (f : A -> ST S unit)
    (l : list A) (s : S) :
  P [] s ->
  (forall done x rest s, l = done ++ x :: rest -> P done s ->
     exists s', f x s = Ok (tt, s') /\ P (done ++ [x]) s') ->
  exists s', for_each l f s = Ok (tt, s') /\ P l s'.
Proof.
  intros H0 Hstep.
  enough (forall done rest s, l = done ++ rest -> P done s ->
            exists s', for_each rest f s = Ok (tt, s') /\ P l s') as Hgen
    by (apply (Hgen [] l s eq_refl H0)).
  intros done rest. revert done. induction rest as [| x rest IH]; intros done s1 E HP.
  - rewrite app_nil_r in E. subst. eauto.
  - destruct (Hstep done x rest s1 E HP) as (s2 & Hf & HP2). simpl.
    rewrite (bind_ok _ _ _ _ _ Hf). apply (IH (done ++ [x])); [|exact HP2].
    rewrite <- app_assoc. exact E.
Qed.

(** ** Arrays

    A C array as a list with bounds made explicit: an access outside the object
    is a [Fault]. *)
Definition aload {A : Type} (l : list A) (i : Z) : res A :=
  if i <? 0 then Fault
  else match l !! Z.to_nat i with
       | Some a => Ok a
       | None => Fault
       end.

Definition astore {A : Type} (l : list A) (i : Z) (a : A) : res (list A) :=
  if i <? 0 then Fault
  else if i <? Z.of_nat (length l) then Ok (<[Z.to_nat i := a]> l) else Fault.

Lemma aload_ok {A : Type} (l : list A) (i : Z) (a : A) :
  aload l i = Ok a <-> 0 <= i /\ l !! Z.to_nat i = Some a.
Proof.
  unfold aload. destruct (Z.ltb_spec i 0).
  - split; [discriminate | lia].
  - destruct (l !! Z.to_nat i); split; intros; destruct_and?; simplify_eq; auto.
Qed.

Lemma aload_lt {A : Type} (l : list A) (i : Z) :
  0 <= i < Z.of_nat (length l) -> exists a, aload l i = Ok a.
Proof.
  intros Hi. destruct (lookup_lt_is_Some_2 l (Z.to_nat i)) as [a Ha]; [lia|].
  exists a. apply aload_ok. auto with lia.
Qed.

Lemma astore_ok {A : Type} (l l' : list A) (i : Z) (a : A) :
  astore l i a = Ok l' <->
  0 <= i < Z.of_nat (length l) /\ l' = <[Z.to_nat i := a]> l.
Proof.
  unfold astore. destruct (Z.ltb_spec i 0), (Z.ltb_spec i (Z.of_nat (length l)));
    split; intros; destruct_and?; simplify_eq; auto with lia.
Qed.

Lemma astore_in {A : Type} (l : list A) (i : Z) (a : A) :
  0 <= i < Z.of_nat (length l) -> astore l i a = Ok (<[Z.to_nat i := a]> l).
Proof. intros H. apply astore_ok. auto. Qed.

(** ** Bits *)

Lemma testbit_uN (w z i : Z) :
  0 <= w -> 0 <= i -> Z.testbit (uN w z) i = (i <? w) && Z.testbit z i.
Proof.
  intros Hw Hi. unfold uN. destruct (Z.ltb_spec i w).
  - rewrite Z.mod_pow2_bits_low; auto.
  - rewrite Z.mod_pow2_bits_high; auto with lia.
Qed.

Lemma testbit_high (w z i : Z) : 0 <= z < 2 ^ w -> w <= i -> Z.testbit z i = false.
Proof.
  intros Hz Hi. destruct (Z.leb_spec 0 w).
  - rewrite <- (uN_id w z Hz), testbit_uN by lia.
    destruct (Z.ltb_spec i w); [lia | reflexivity].
  - rewrite Z.pow_neg_r in Hz; lia.
Qed.

Lemma bits_lt_pow2 (w z : Z) :
  0 <= w -> 0 <= z -> (forall i, w <= i -> Z.testbit z i = false) -> z < 2 ^ w.
Proof.
  intros Hw Hz Hb. assert (uN w z = z) as E.
  { apply Z.bits_inj'. intros i Hi. rewrite testbit_uN by lia.
    destruct (Z.ltb_spec i w); [reflexivity | rewrite Hb by lia; reflexivity]. }
  pose proof (uN_range w z Hw). lia.
Qed.

Lemma testbit_pow2 (n i : Z) : 0 <= n -> Z.testbit (2 ^ n) i = (i =? n).
Proof.
  intros Hn. rewrite Z.pow2_bits_eqb by lia. apply Z.eqb_sym.
Qed.

Lemma lor_u32 (a b : Z) : in_u32 a -> in_u32 b -> in_u32 (Z.lor a b).
Proof.
  intros Ha Hb. split; [apply Z.lor_nonneg; unfold in_u32 in *; lia|].
  apply bits_lt_pow2; [lia | apply Z.lor_nonneg; unfold in_u32 in *; lia |].
  intros i Hi. rewrite Z.lor_spec, (testbit_high 32 a), (testbit_high 32 b); auto.
Qed.

Lemma land_u32_l (a b : Z) : in_u32 a -> in_u32 (Z.land a b).
Proof.
  intros Ha. split; [apply Z.land_nonneg; unfold in_u32 in *; lia|].
  apply bits_lt_pow2; [lia | apply Z.land_nonneg; unfold in_u32 in *; lia |].
  intros i Hi. rewrite Z.land_spec, (testbit_high 32 a); auto.
Qed.

Lemma lxor_u32 (a b : Z) : in_u32 a -> in_u32 b -> in_u32 (Z.lxor a b).
Proof.
  intros Ha Hb. split; [apply Z.lxor_nonneg; unfold in_u32 in *; lia|].
  apply bits_lt_pow2; [lia | apply Z.lxor_nonneg; unfold in_u32 in *; lia |].
  intros i Hi. rewrite Z.lxor_spec, (testbit_high 32 a), (testbit_high 32 b); auto.
Qed.

#[export] Hint Resolve lor_u32 land_u32_l lxor_u32 : machine.

(** ** Counting *)

(** Number of [i < n] with [f i]. *)
Fixpoint cnt (f : Z -> bool) (n : nat) : Z :=
  match n with
  | O => 0
  | S n => cnt f n + (if f (Z.of_nat n) then 1 else 0)
  end.

Lemma cnt_bounds (f : Z -> bool) (n : nat) : 0 <= cnt f n <= Z.of_nat n.
Proof. induction n as [| n IH]; simpl cnt; [lia|]. destruct (f (Z.of_nat n)); lia. Qed.

Lemma cnt_ext (f g : Z -> bool) (n : nat) :
  (forall i, 0 <= i < Z.of_nat n -> f i = g i) -> cnt f n = cnt g n.
Proof.
  induction n as [| n IH]; intros H; simpl; [reflexivity|].
  rewrite IH, H by (intros; try apply H; lia). reflexivity.
Qed.

Lemma cnt_set (f g : Z -> bool) (n : nat) (k : Z) :
  0 <= k < Z.of_nat n -> f k = false -> g k = true ->
  (forall i, 0 <= i -> i <> k -> g i = f i) -> cnt g n = cnt f n + 1.
Proof.
  intros Hk Hf Hg Hne. induction n as [| n IH]; [lia|]. simpl.
  destruct (Z.eq_dec k (Z.of_nat n)) as [-> | Hkn].
  - rewrite Hf, Hg. rewrite (cnt_ext g f) by (intros; apply Hne; lia). lia.
  - rewrite IH, (Hne (Z.of_nat n)) by lia. lia.
Qed.

Lemma cnt_full (f : Z -> bool) (n : nat) :
  cnt f n = Z.of_nat n -> forall i, 0 <= i < Z.of_nat n -> f i = true.
Proof.
  induction n as [| n IH]; intros H i Hi; [lia|]. simpl in H.
  pose proof (cnt_bounds f n). destruct (f (Z.of_nat n)) eqn:E; [|lia].
  destruct (Z.eq_dec i (Z.of_nat n)) as [-> |]; [exact E|]. apply IH; lia.
Qed.

Lemma cnt_zero (f : Z -> bool) (n : nat) :
  cnt f n = 0 -> forall i, 0 <= i < Z.of_nat n -> f i = false.
Proof.
  induction n as [| n IH]; intros H i Hi; [lia|]. simpl in H.
  pose proof (cnt_bounds f n). destruct (f (Z.of_nat n)) eqn:E; [lia|].
  destruct (Z.eq_dec i (Z.of_nat n)) as [-> |]; [exact E|]. apply IH; lia.
Qed.

Lemma cnt_not_full (f : Z -> bool) (n : nat) :
  cnt f n < Z.of_nat n -> exists i, 0 <= i < Z.of_nat n /\ f i = false.
Proof.
  induction n as [| n IH]; intros H; [simpl in H; lia|]. simpl in H.
  destruct (f (Z.of_nat n)) eqn:E.
  - destruct IH as (i & Hi & Hf); [lia|]. exists i. split; [lia | exact Hf].
  - exists (Z.of_nat n). split; [lia | exact E].
Qed.

(** ** Storing a block into a list *)

(** [l] with [d] stored over the bytes from [x]. *)
Definition splice {A : Type} (x : nat) (d l : list A) : list A :=
  take x l ++ d ++ drop (x + length d) l.

Lemma splice_length {A : Type} (x : nat) (d l : list A) :
  (x + length d <= length l)%nat -> length (splice x d l) = length l.
Proof. intros H. unfold splice. rewrite !length_app, length_take, length_drop. lia. Qed.

Lemma splice_nil {A : Type} (x : nat) (l : list A) : splice x [] l = l.
Proof. unfold splice. simpl. rewrite Nat.add_0_r, take_drop. reflexivity. Qed.

Lemma splice_all {A : Type} (d l : list A) : length d = length l -> splice 0 d l = d.
Proof. intros H. unfold splice. rewrite drop_ge by lia. simpl. apply app_nil_r. Qed.

Lemma splice_app_r {A : Type} (x : nat) (d l1 l2 : list A) :
  splice (length l1 + x) d (l1 ++ l2) = l1 ++ splice x d l2.
Proof.
  unfold splice. rewrite take_app_ge, drop_app_ge by lia.
  replace (length l1 + x - length l1)%nat with x by lia.
  replace (length l1 + x + length d - length l1)%nat with (x + length d)%nat by lia.
  rewrite <- app_assoc. reflexivity.
Qed.

Lemma splice_app_l {A : Type} (x : nat) (d l1 l2 : list A) :
  (x + length d <= length l1)%nat -> splice x d (l1 ++ l2) = splice x d l1 ++ l2.
Proof.
  intros H. unfold splice. rewrite take_app_le, drop_app_le by lia. rewrite <- !app_assoc. reflexivity.
Qed.

Lemma lookup_splice {A : Type} (x : nat) (d l : list A) (k : nat) :
  (x + length d <= length l)%nat ->
  splice x d l !! k = if decide (x <= k < x + length d)%nat then d !! (k - x)%nat else l !! k.
Proof.
  intros H. unfold splice. assert (length (take x l) = x) as Hx by (rewrite length_take; lia).
  destruct (decide (x <= k < x + length d)%nat) as [Hk | Hk].
  - rewrite lookup_app_r, Hx, lookup_app_l by lia. reflexivity.
  - destruct (decide (k < x)%nat).
    + rewrite lookup_app_l, lookup_take_lt by lia. reflexivity.
    + rewrite lookup_app_r, Hx, lookup_app_r, lookup_drop by lia. f_equal. lia.
Qed.

(** Two adjacent stores are one. *)
Lemma splice_splice {A : Type} (x : nat) (d1 d2 l : list A) :
  (x + length d1 <= length l)%nat ->
  splice (x + length d1) d2 (splice x d1 l) = splice x (d1 ++ d2) l.
Proof.
  intros H. unfold splice at 2. rewrite app_assoc.
  replace (x + length d1)%nat with (length (take x l ++ d1) + 0)%nat
    by (rewrite length_app, length_take; lia).
  rewrite splice_app_r. unfold splice. simpl. rewrite drop_drop, <- !app_assoc.
  rewrite !length_app, length_take. do 4 f_equal. lia.
Qed.

Lemma take_join {A : Type} (k j x y n : nat) (l : list A) :
  (n = k + j)%nat -> (j = 0 \/ y = x + k)%nat ->
  take k (drop x l) ++ take j (drop y l) = take n (drop x l).
Proof.
  intros -> [-> | ->]; [rewrite take_0, app_nil_r, Nat.add_0_r; reflexivity|].
  rewrite <- drop_drop. apply take_take_drop.
Qed.

Lemma splice_join {A : Type} (k : nat) (d l : list A) (x y : nat) :
  (x + length d <= length l)%nat -> (length d <= k \/ y = x + k)%nat ->
  splice y (drop k d) (splice x (take k d) l) = splice x d l.
Proof.
  intros Hl [Hk | ->].
  - rewrite drop_ge, take_ge, splice_nil by lia. reflexivity.
  - destruct (le_lt_dec (length d) k); [rewrite drop_ge, take_ge, splice_nil by lia; reflexivity|].
    replace (x + k)%nat with (x + length (take k d))%nat by (rewrite length_take; lia).
    rewrite splice_splice, take_drop by (rewrite length_take; lia). reflexivity.
Qed.

Lemma take_splice {A : Type} (n o : nat) (d l : list A) :
  (o <= n)%nat -> (o + length d <= length l)%nat ->
  take (Nat.max n (o + length d)) (splice o d l) = splice o d (take n l).
Proof.
  intros Ho Hl. unfold splice. rewrite take_app_ge by (rewrite length_take; lia).
  rewrite length_take, take_app_ge, take_take, skipn_firstn_comm by lia.
  replace (Nat.min o n) with o by lia. do 2 f_equal. f_equal. lia.
Qed.

Lemma insert_splice {A : Type} (n : nat) (x : A) (l : list A) : (n < length l)%nat -> <[n := x]> l = splice n [x] l.
Proof. intros H. unfold splice. rewrite insert_take_drop, Nat.add_1_r by exact H. reflexivity. Qed.

(** Storing one more element after a block. *)
Lemma insert_splice_snoc {A : Type} (n : nat) (d l : list A) (x : A) :
  (n + length d < length l)%nat -> <[(n + length d)%nat := x]> (splice n d l) = splice n (d ++ [x]) l.
Proof. intros H. rewrite insert_splice, splice_splice; rewrite ?splice_length; lia || reflexivity. Qed.

(** ** Fresh addresses *)

(** An address above all those in use. *)
Definition above {A : Type} (m : gmap Z A) : Z := 1 + map_fold (fun k _ acc => Z.max k acc) 0 m.

Lemma above_spec {A : Type} (m : gmap Z A) : 0 < above m /\ forall k x, m !! k = Some x -> k < above m.
Proof.
  unfold above.
  enough (0 <= map_fold (fun k (_ : A) acc => Z.max k acc) 0 m /\
          forall k x, m !! k = Some x -> k <= map_fold (fun k (_ : A) acc => Z.max k acc) 0 m) as [H0 H]
    by (split; [lia | intros k x Hk; specialize (H k x Hk); lia]).
  apply (map_fold_weak_ind (fun r m => 0 <= r /\ forall k (x : A), m !! k = Some x -> k <= r)).
  - split; [lia | intros k x Hk; rewrite lookup_empty in Hk; discriminate].
  - intros i x m' r _ [Hr IH]. split; [lia|]. intros k y Hk. apply lookup_insert_Some in Hk as [[-> _] | [_ Hk]]; [lia|].
    specialize (IH k y Hk). lia.
Qed.

Lemma above_fresh {A : Type} (m : gmap Z A) : above m <> 0 /\ m !! above m = None.
Proof.
  destruct (above_spec m) as [H0 H]. split; [lia|]. destruct (m !! above m) as [x |] eqn:Ex; [|reflexivity].
  specialize (H _ _ Ex). lia.
Qed.
