(* ===== verification/Bitops.v ===== *)
(** * Bit operations, bitmaps, logarithms and hashing

    The bit primitives of include/asm/bitops.h and include/kernel/bitops.h, the
    bitmaps of include/kernel/bitmap.h on which the slab allocator is built, the
    power-of-two helpers of include/kernel/log2.h and the multiplicative hashes
    of include/kernel/hash.h.  Inline assembly is modelled by the effect of its
    instruction: [bsf] and [bsr] scan a 32-bit word for its lowest and highest
    set bit, [bts], [btr] and [btc] act on bit [nr] of a word array. *)

From S2P Require Import Prelude.

Definition BITS_PER_LONG : Z := 32.

Definition ULONG_MAX : Z := 4294967295.

(** ** Word primitives *)

Definition BIT (nr : Z) : Z := u32 (Z.shiftl 1 nr).

Fixpoint bsf_pos (p : positive) : Z :=
  match p with
  | xO q => 1 + bsf_pos q
  | _ => 0
  end.

(** [bsf]: index of the lowest set bit; [None] stands for the undefined
    destination when the source is zero. *)
Definition bsf (x : Z) : option Z :=
  match x with
  | Zpos p => Some (bsf_pos p)
  | _ => None
  end.

(** [bsr]: index of the highest set bit. *)
Definition bsr (x : Z) : option Z :=
  match x with
  | Zpos _ => Some (Z.log2 x)
  | _ => None
  end.

Definition __ffs (word : Z) : option Z := bsf word.

Definition ffz (word : Z) : option Z := bsf (~% word).

Definition __fls (word : Z) : option Z := bsr word.

(** The destination is set to -1 when the scan finds nothing. *)
Definition ffs (x : Z) : Z := default (-1) (bsf (u32 x)) + 1.

Definition fls (x : Z) : Z := default (-1) (bsr (u32 x)) + 1.

Definition fls64 (x : Z) : Z :=
  let h := u32 (Z.shiftr x 32) in
  if negb (h =? 0) then fls h + 32 else fls (u32 x).

Definition fls_long (l : Z) : Z := fls l.

Definition __ffs64 (word : Z) : option Z :=
  if u32 word =? 0
  then match __ffs (u32 (Z.shiftr word 32)) with
       | Some i => Some (i + 32)
       | None => None
       end
  else __ffs (u32 word).

Definition get_bitmask_order (count : Z) : Z := fls count.

Definition get_count_order (count : Z) : Z :=
  let order := fls count - 1 in
  if negb (Z.land count (count -% 1) =? 0) then order + 1 else order.

(** ** Rotations *)

Definition rol64 (word shift : Z) : Z :=
  Z.lor (u64 (Z.shiftl word shift)) (Z.shiftr word (64 - shift)).

Definition ror64 (word shift : Z) : Z :=
  Z.lor (Z.shiftr word shift) (u64 (Z.shiftl word (64 - shift))).

Definition rol32 (word shift : Z) : Z :=
  Z.lor (u32 (Z.shiftl word shift)) (Z.shiftr word (32 - shift)).

Definition ror32 (word shift : Z) : Z :=
  Z.lor (Z.shiftr word shift) (u32 (Z.shiftl word (32 - shift))).

(** The 16- and 8-bit operands are promoted to [int]; the result is narrowed
    when it is returned. *)
Definition rol16 (word shift : Z) : Z :=
  u16 (Z.lor (s32 (Z.shiftl word shift)) (Z.shiftr word (16 - shift))).

Definition ror16 (word shift : Z) : Z :=
  u16 (Z.lor (Z.shiftr word shift) (s32 (Z.shiftl word (16 - shift)))).

Definition rol8 (word shift : Z) : Z :=
  u8 (Z.lor (s32 (Z.shiftl word shift)) (Z.shiftr word (8 - shift))).

Definition ror8 (word shift : Z) : Z :=
  u8 (Z.lor (Z.shiftr word shift) (s32 (Z.shiftl word (8 - shift)))).

Definition sign_extend32 (value index : Z) : Z :=
  let shift := u8 (31 - index) in
  Z.shiftr (s32 (Z.shiftl value shift)) shift.

(** ** Bits of a word array *)

Definition set_bit (nr : Z) (addr : list Z) : res (list Z) :=
  do w <- aload addr (nr / 32); astore addr (nr / 32) (Z.lor w (BIT (nr mod 32))).

Definition clear_bit (nr : Z) (addr : list Z) : res (list Z) :=
  do w <- aload addr (nr / 32);
  astore addr (nr / 32) (Z.land w (~% (BIT (nr mod 32)))).

Definition test_bit (nr : Z) (addr : list Z) : res bool :=
  do w <- aload addr (nr / 32);
  Ok (negb (Z.land (BIT (nr mod 32)) w =? 0)).

(** ** Bitmaps (include/kernel/bitmap.h) *)

Definition bitmap_set (bitmap : list Z) (idx : Z) : res (list Z) :=
  do w <- aload bitmap (idx / BITS_PER_LONG);
  astore bitmap (idx / BITS_PER_LONG)
    (Z.lor w (u32 (Z.shiftl 1 (idx mod BITS_PER_LONG)))).

Definition bitmap_clear (bitmap : list Z) (idx : Z) : res (list Z) :=
  do w <- aload bitmap (idx / BITS_PER_LONG);
  astore bitmap (idx / BITS_PER_LONG)
    (Z.land w (~% (u32 (Z.shiftl 1 (idx mod BITS_PER_LONG))))).

Definition bitmap_change (bitmap : list Z) (idx : Z) : res (list Z) :=
  do w <- aload bitmap (idx / BITS_PER_LONG);
  astore bitmap (idx / BITS_PER_LONG)
    (Z.lxor w (u32 (Z.shiftl 1 (idx mod BITS_PER_LONG)))).

(** The loop over the first [len] words, [i] being the loop counter. *)
Fixpoint bitmap_ffz_from (bitmap : list Z) (i : Z) : Z :=
  match bitmap with
  | [] => -1
  | w :: rest =>
      if w =? ULONG_MAX then bitmap_ffz_from rest (i + 1)
      else default 0 (ffz w) + i * BITS_PER_LONG
  end.

Definition bitmap_ffz (bitmap : list Z) (len : Z) : res Z :=
  if Z.of_nat (length bitmap) <? len then Fault
  else Ok (bitmap_ffz_from (take (Z.to_nat len) bitmap) 0).

Fixpoint bitmap_ffs_from (bitmap : list Z) (i : Z) : Z :=
  match bitmap with
  | [] => -1
  | w :: rest =>
      if w =? 0 then bitmap_ffs_from rest (i + 1)
      else ffs w + i * BITS_PER_LONG
  end.

Definition bitmap_ffs (bitmap : list Z) (len : Z) : res Z :=
  if Z.of_nat (length bitmap) <? len then Fault
  else Ok (bitmap_ffs_from (take (Z.to_nat len) bitmap) 0).

(** ** Powers of two (include/kernel/log2.h) *)

Definition __ilog2_u32 (n : Z) : Z := fls n - 1.

Definition __ilog2_u64 (n : Z) : Z := fls64 n - 1.

Definition is_power_of_2 (n : Z) : bool :=
  negb (n =? 0) && (Z.land n (n -% 1) =? 0).

Definition __roundup_pow_of_two (n : Z) : Z := u32 (Z.shiftl 1 (fls_long (n -% 1))).

Definition __rounddown_pow_of_two (n : Z) : Z := u32 (Z.shiftl 1 (fls_long n - 1)).

(** ** Hashes (include/kernel/hash.h) *)

Definition GOLDEN_RATIO_PRIME_32 : Z := 2654404609.

Definition GOLDEN_RATIO_PRIME_64 : Z := 11400862456688148481.

Definition hash_64 (val bits : Z) : Z :=
  let hash := val in
  let n := hash in
  let n := u64 (Z.shiftl n 18) in let hash := u64 (hash - n) in
  let n := u64 (Z.shiftl n 33) in let hash := u64 (hash - n) in
  let n := u64 (Z.shiftl n 3) in let hash := u64 (hash + n) in
  let n := u64 (Z.shiftl n 3) in let hash := u64 (hash - n) in
  let n := u64 (Z.shiftl n 4) in let hash := u64 (hash + n) in
  let n := u64 (Z.shiftl n 2) in let hash := u64 (hash + n) in
  Z.shiftr hash (64 - bits).

Definition hash_32 (val bits : Z) : Z :=
  Z.shiftr (val *% GOLDEN_RATIO_PRIME_32) (32 - bits).

Definition hash_long (val bits : Z) : Z := hash_32 val bits.

Definition hash_ptr (ptr bits : Z) : Z := hash_long ptr bits.

Definition hash32_ptr (ptr : Z) : Z := u32 ptr.

(** ** Correctness of the scans *)

Lemma bsf_pos_spec (p : positive) :
  0 <= bsf_pos p /\ Z.testbit (Zpos p) (bsf_pos p) = true /\
  forall i, 0 <= i < bsf_pos p -> Z.testbit (Zpos p) i = false.
Proof.
  induction p as [p IH | p IH |]; simpl bsf_pos.
  - split; [lia|]. split; [reflexivity | intros; lia].
  - destruct IH as (Hge & Hset & Hclr). change (Zpos (xO p)) with (2 * Zpos p).
    split; [lia|]. split.
    + replace (1 + bsf_pos p) with (Z.succ (bsf_pos p)) by lia.
      rewrite Z.testbit_even_succ; auto.
    + intros i Hi. destruct (Z.eq_dec i 0) as [-> | Hi0]; [reflexivity|].
      replace i with (Z.succ (i - 1)) by lia.
      rewrite Z.testbit_even_succ by lia. apply Hclr. lia.
  - split; [lia|]. split; [reflexivity | intros; lia].
Qed.

Lemma bsf_spec (x i : Z) :
  bsf x = Some i ->
  0 <= i /\ Z.testbit x i = true /\ forall j, 0 <= j < i -> Z.testbit x j = false.
Proof.
  destruct x as [| p | p]; simpl; intros H; simplify_eq. apply bsf_pos_spec.
Qed.

Lemma bsf_pos_some (x : Z) : 0 < x -> exists i, bsf x = Some i.
Proof. destruct x; simpl; intros; [lia | eauto | lia]. Qed.

Lemma bsf_lt (w x i : Z) : 0 <= x < 2 ^ w -> bsf x = Some i -> i < w.
Proof.
  intros Hx H. apply bsf_spec in H as (Hi & Hset & _).
  destruct (Z.ltb_spec i w); [assumption|].
  rewrite (testbit_high w) in Hset by lia. discriminate.
Qed.

Lemma testbit_wnot (x i : Z) :
  0 <= i < 32 -> Z.testbit (~% x) i = negb (Z.testbit x i).
Proof.
  intros Hi. rewrite testbit_uN, Z.lnot_spec by lia.
  destruct (Z.ltb_spec i 32); [reflexivity | lia].
Qed.

(** [ffz] finds the lowest clear bit of a word that has one. *)
Lemma ffz_spec (w : Z) :
  in_u32 w -> w <> ULONG_MAX ->
  exists i, ffz w = Some i /\ 0 <= i < 32 /\ Z.testbit w i = false /\
            forall j, 0 <= j < i -> Z.testbit w j = true.
Proof.
  intros Hw Hne. assert (0 < ~% w < 2 ^ 32) as Hpos.
  { unfold ULONG_MAX, Z.lnot in *. word_lia. }
  destruct (bsf_pos_some (~% w)) as [i Hi]; [lia|].
  assert (i < 32) as Hlt by (eapply bsf_lt; [|exact Hi]; lia).
  pose proof (bsf_spec _ _ Hi) as (H0 & Hset & Hclr).
  exists i. split; [exact Hi|]. split; [lia|]. split.
  - rewrite testbit_wnot in Hset by lia. apply negb_true_iff. exact Hset.
  - intros j Hj. specialize (Hclr j Hj). rewrite testbit_wnot in Hclr by lia.
    apply negb_false_iff. exact Hclr.
Qed.

(** [fls] is one more than the index of the highest set bit, and 0 on 0. *)
Lemma fls_zero : fls 0 = 0.
Proof. reflexivity. Qed.

Lemma fls_log2 (x : Z) : 0 < x < 2 ^ 32 -> fls x = Z.log2 x + 1.
Proof.
  intros Hx. unfold fls. rewrite uN_id by lia.
  destruct x; simpl; [lia | reflexivity | lia].
Qed.

Lemma fls_spec (x : Z) :
  0 < x < 2 ^ 32 ->
  1 <= fls x <= 32 /\ Z.testbit x (fls x - 1) = true /\
  forall j, fls x <= j -> Z.testbit x j = false.
Proof.
  intros Hx. rewrite fls_log2 by lia.
  assert (Z.log2 x < 32) by (apply Z.log2_lt_pow2; lia).
  pose proof (Z.log2_nonneg x). split; [lia|]. split.
  - replace (Z.log2 x + 1 - 1) with (Z.log2 x) by lia. apply Z.bit_log2. lia.
  - intros j Hj. apply Z.bits_above_log2; lia.
Qed.

Lemma fls_nonneg (x : Z) : 0 <= fls x.
Proof.
  unfold fls. destruct (u32 x) as [| p | p]; [reflexivity | | reflexivity].
  change (0 <= Z.log2 (Zpos p) + 1). pose proof (Z.log2_nonneg (Zpos p)). lia.
Qed.

Lemma ffs_spec (x : Z) :
  0 < x < 2 ^ 32 ->
  1 <= ffs x <= 32 /\ Z.testbit x (ffs x - 1) = true /\
  forall j, 0 <= j < ffs x - 1 -> Z.testbit x j = false.
Proof.
  intros Hx. unfold ffs. rewrite uN_id by lia.
  destruct (bsf_pos_some x) as [i Hi]; [lia|]. rewrite Hi. simpl.
  assert (i < 32) by (eapply bsf_lt; [|exact Hi]; lia).
  apply bsf_spec in Hi as (H0 & Hset & Hclr).
  replace (i + 1 - 1) with i by lia. auto with lia.
Qed.

(** ** Bitmaps as sets of indices *)

(** Bit [i] of the bitmap. *)
Definition bm_test (bm : list Z) (i : Z) : bool :=
  match bm !! Z.to_nat (i / 32) with
  | Some w => Z.testbit w (i mod 32)
  | None => false
  end.

Definition bm_wf (bm : list Z) : Prop := Forall in_u32 bm.

Lemma bm_test_zero (n : nat) (i : Z) : bm_test (replicate n 0) i = false.
Proof.
  unfold bm_test. destruct (replicate n 0 !! _) as [w|] eqn:Hw; [|reflexivity].
  apply lookup_replicate in Hw as [-> _]. apply Z.bits_0.
Qed.

Lemma bit_u32 (k : Z) : 0 <= k < 32 -> u32 (Z.shiftl 1 k) = 2 ^ k.
Proof.
  intros Hk. rewrite Z.shiftl_1_l. apply uN_id. split; [lia|].
  apply Z.pow_lt_mono_r; lia.
Qed.

Lemma div_mod_inj (i j : Z) : i / 32 = j / 32 -> i mod 32 = j mod 32 -> i = j.
Proof. lia. Qed.

(** Every bitmap operation rewrites one word; its effect on the bits follows
    from the effect on that word. *)
Lemma bm_update (bm : list Z) (idx : Z) (w w' : Z) (f : bool -> bool) :
  0 <= idx -> bm !! Z.to_nat (idx / 32) = Some w ->
  (forall k, 0 <= k < 32 ->
     Z.testbit w' k = if k =? idx mod 32 then f (Z.testbit w k) else Z.testbit w k) ->
  forall j, 0 <= j ->
    bm_test (<[Z.to_nat (idx / 32) := w']> bm) j =
    if j =? idx then f (bm_test bm j) else bm_test bm j.
Proof.
  intros Hidx Hw Hk j Hj. unfold bm_test.
  destruct (decide (j / 32 = idx / 32)) as [E | E].
  - rewrite E, list_lookup_insert_eq by (eapply lookup_lt_Some; eauto).
    rewrite Hw, Hk by lia.
    destruct (Z.eqb_spec j idx) as [-> | Hne]; [rewrite Z.eqb_refl; reflexivity|].
    destruct (Z.eqb_spec (j mod 32) (idx mod 32)) as [E' | _]; [|reflexivity].
    destruct Hne. apply div_mod_inj; assumption.
  - rewrite list_lookup_insert_ne by lia.
    destruct (Z.eqb_spec j idx) as [-> | _]; [contradiction | reflexivity].
Qed.

Lemma bm_word (bm : list Z) (idx : Z) :
  bm_wf bm -> 0 <= idx < 32 * Z.of_nat (length bm) ->
  exists w, bm !! Z.to_nat (idx / 32) = Some w /\ in_u32 w /\
            aload bm (idx / 32) = Ok w.
Proof.
  intros Hwf Hidx. destruct (aload_lt bm (idx / 32)) as [w Hw]; [lia|].
  pose proof (proj1 (aload_ok _ _ _) Hw) as [_ Hl].
  exists w. split; [exact Hl|]. split; [|exact Hw].
  eapply Forall_lookup_1; eauto.
Qed.

(** What an operation that rewrites the word of [idx] to [w'] establishes. *)
Definition bm_updates (bm : list Z) (idx : Z) (f : bool -> bool) (r : res (list Z)) : Prop :=
  exists bm', r = Ok bm' /\ bm_wf bm' /\ length bm' = length bm /\
    forall j, 0 <= j ->
      bm_test bm' j = if j =? idx then f (bm_test bm j) else bm_test bm j.

Lemma bm_updates_intro (bm : list Z) (idx w w' : Z) (f : bool -> bool) :
  bm_wf bm -> 0 <= idx < 32 * Z.of_nat (length bm) ->
  bm !! Z.to_nat (idx / 32) = Some w -> in_u32 w' ->
  (forall k, 0 <= k < 32 ->
     Z.testbit w' k = if k =? idx mod 32 then f (Z.testbit w k) else Z.testbit w k) ->
  bm_updates bm idx f (astore bm (idx / 32) w').
Proof.
  intros Hwf Hidx Hl Hw' Hk. exists (<[Z.to_nat (idx / 32) := w']> bm).
  split; [apply astore_ok; split; [lia | reflexivity]|].
  split; [apply Forall_insert; assumption|].
  split; [apply length_insert|].
  apply (bm_update bm idx w); auto with lia.
Qed.

Lemma bitmap_set_spec (bm : list Z) (idx : Z) :
  bm_wf bm -> 0 <= idx < 32 * Z.of_nat (length bm) ->
  bm_updates bm idx (fun _ => true) (bitmap_set bm idx).
Proof.
  intros Hwf Hidx. destruct (bm_word bm idx Hwf Hidx) as (w & Hl & Hw & Ha).
  unfold bitmap_set, BITS_PER_LONG. rewrite Ha. simpl res_bind.
  apply (bm_updates_intro bm idx w); auto.
  - apply lor_u32; [exact Hw | apply u32_range].
  - intros k Hk. rewrite Z.lor_spec, bit_u32, testbit_pow2 by lia.
    destruct (k =? idx mod 32); [apply orb_true_r | apply orb_false_r].
Qed.

Lemma bitmap_clear_spec (bm : list Z) (idx : Z) :
  bm_wf bm -> 0 <= idx < 32 * Z.of_nat (length bm) ->
  bm_updates bm idx (fun _ => false) (bitmap_clear bm idx).
Proof.
  intros Hwf Hidx. destruct (bm_word bm idx Hwf Hidx) as (w & Hl & Hw & Ha).
  unfold bitmap_clear, BITS_PER_LONG. rewrite Ha. simpl res_bind.
  apply (bm_updates_intro bm idx w); auto.
  - apply land_u32_l. exact Hw.
  - intros k Hk. rewrite Z.land_spec, testbit_wnot, bit_u32, testbit_pow2 by lia.
    destruct (k =? idx mod 32); [apply andb_false_r | apply andb_true_r].
Qed.

Lemma bitmap_change_spec (bm : list Z) (idx : Z) :
  bm_wf bm -> 0 <= idx < 32 * Z.of_nat (length bm) ->
  bm_updates bm idx negb (bitmap_change bm idx).
Proof.
  intros Hwf Hidx. destruct (bm_word bm idx Hwf Hidx) as (w & Hl & Hw & Ha).
  unfold bitmap_change, BITS_PER_LONG. rewrite Ha. simpl res_bind.
  apply (bm_updates_intro bm idx w); auto.
  - apply lxor_u32; [exact Hw | apply u32_range].
  - intros k Hk. rewrite Z.lxor_spec, bit_u32, testbit_pow2 by lia.
    destruct (k =? idx mod 32); [apply xorb_true_r | apply xorb_false_r].
Qed.

(** The loop returns the lowest clear index, or -1 when every bit is set. *)
Lemma bitmap_ffz_from_spec (bm : list Z) (i : Z) :
  bm_wf bm -> 0 <= i ->
  (bitmap_ffz_from bm i = -1 /\
   forall j, 0 <= j < 32 * Z.of_nat (length bm) -> bm_test bm j = true) \/
  (exists k, bitmap_ffz_from bm i = 32 * i + k /\
     0 <= k < 32 * Z.of_nat (length bm) /\ bm_test bm k = false /\
     forall j, 0 <= j < k -> bm_test bm j = true).
Proof.
  intros Hwf. revert i. induction Hwf as [| w rest Hw Hrest IH]; intros i Hi.
  - left. split; [reflexivity | simpl; intros; lia].
  - assert (forall j, 0 <= j < 32 -> bm_test (w :: rest) j = Z.testbit w j) as Hhd.
    { intros j Hj. unfold bm_test. rewrite Z.div_small, Z.mod_small by lia. reflexivity. }
    assert (forall j, 32 <= j -> bm_test (w :: rest) j = bm_test rest (j - 32)) as Htl.
    { intros j Hj. unfold bm_test.
      replace (Z.to_nat (j / 32)) with (S (Z.to_nat ((j - 32) / 32))) by lia.
      replace (j mod 32) with ((j - 32) mod 32) by lia. reflexivity. }
    cbn [bitmap_ffz_from length].
    destruct (Z.eqb_spec w ULONG_MAX) as [-> | Hne].
    + assert (forall j, 0 <= j < 32 -> bm_test (ULONG_MAX :: rest) j = true) as Hall.
      { intros j Hj. rewrite Hhd by lia.
        change ULONG_MAX with (Z.ones 32). apply Z.ones_spec_low. lia. }
      destruct (IH (i + 1) ltac:(lia)) as [[E Hset] | (k & E & Hk & Hclr & Hset)].
      * left. split; [exact E|]. intros j Hj.
        destruct (Z.ltb_spec j 32); [auto with lia|]. rewrite Htl by lia.
        apply Hset. lia.
      * right. exists (k + 32). split; [lia|]. split; [lia|]. split.
        -- rewrite Htl by lia. replace (k + 32 - 32) with k by lia. exact Hclr.
        -- intros j Hj. destruct (Z.ltb_spec j 32); [auto with lia|].
           rewrite Htl by lia. apply Hset. lia.
    + right. destruct (ffz_spec w Hw Hne) as (k & E & Hk & Hclr & Hset).
      exists k. rewrite E. unfold BITS_PER_LONG. simpl default.
      split; [lia|]. split; [lia|]. split; [rewrite Hhd by lia; exact Hclr|].
      intros j Hj. rewrite Hhd by lia. auto.
Qed.

Lemma bitmap_ffz_full_spec (bm : list Z) :
  bm_wf bm ->
  exists r, bitmap_ffz bm (Z.of_nat (length bm)) = Ok r /\
    ((r = -1 /\ forall j, 0 <= j < 32 * Z.of_nat (length bm) -> bm_test bm j = true) \/
     (0 <= r < 32 * Z.of_nat (length bm) /\ bm_test bm r = false /\
      forall j, 0 <= j < r -> bm_test bm j = true)).
Proof.
  intros Hwf. unfold bitmap_ffz. rewrite Z.ltb_irrefl, Nat2Z.id, firstn_all.
  eexists. split; [reflexivity|].
  destruct (bitmap_ffz_from_spec bm 0 Hwf ltac:(lia)) as [? | (k & -> & H)]; [auto|].
  right. exact H.
Qed.

(** ** Powers of two *)

Lemma land_pred_pow2 (n : Z) :
  0 < n -> Z.land n (n - 1) = 0 <-> n = 2 ^ Z.log2 n.
Proof.
  intros Hn. pose proof (Z.log2_spec n Hn) as [Hlo Hhi].
  pose proof (Z.log2_nonneg n) as Hk. split; intros H.
  - destruct (Z.eq_dec n (2 ^ Z.log2 n)) as [| Hne]; [assumption|]. exfalso.
    assert (Z.testbit (Z.land n (n - 1)) (Z.log2 n) = true) as Hb.
    { rewrite Z.land_spec, Z.bit_log2 by lia.
      replace (Z.log2 n) with (Z.log2 (n - 1)); [apply Z.bit_log2; lia|].
      apply Z.log2_unique; lia. }
    rewrite H, Z.bits_0 in Hb. discriminate.
  - rewrite H at 1 2. rewrite Z.sub_1_r, <- Z.ones_equiv, Z.land_ones by lia.
    apply Z_mod_same_full.
Qed.

Lemma is_power_of_2_iff (n : Z) :
  in_u32 n -> is_power_of_2 n = true <-> exists k, 0 <= k < 32 /\ n = 2 ^ k.
Proof.
  intros Hn. unfold is_power_of_2. destruct (Z.eqb_spec n 0) as [-> | Hnz]; simpl.
  - split; [discriminate|]. intros (k & Hk & E). pose proof (Z.pow_pos_nonneg 2 k). lia.
  - assert (0 < n) by (unfold in_u32 in Hn; lia).
    rewrite uN_id by (unfold in_u32 in Hn; lia).
    rewrite Z.eqb_eq, land_pred_pow2 by assumption. split.
    + intros E. exists (Z.log2 n). split; [|exact E].
      split; [apply Z.log2_nonneg|]. apply Z.log2_lt_pow2; [lia | apply Hn].
    + intros (k & Hk & ->). rewrite Z.log2_pow2; lia.
Qed.

Lemma roundup_pow_of_two_log2_up (n : Z) :
  1 < n <= 2 ^ 31 -> __roundup_pow_of_two n = 2 ^ Z.log2_up n.
Proof.
  intros Hn. unfold __roundup_pow_of_two, fls_long.
  rewrite (uN_id 32 (n - 1)) by lia. rewrite fls_log2 by lia.
  assert (Z.log2_up n <= 31) as Hup by (apply Z.log2_up_le_pow2; lia).
  rewrite Z.log2_up_eqn in * by lia. replace (n - 1) with (Z.pred n) by lia.
  pose proof (Z.log2_nonneg (Z.pred n)). rewrite <- Z.add_1_r in *.
  apply bit_u32. lia.
Qed.

(** ** Hashes *)

Lemma u64_shiftl (a k : Z) : 0 <= k -> u64 (Z.shiftl (u64 a) k) = u64 (a * 2 ^ k).
Proof.
  intros Hk. rewrite Z.shiftl_mul_pow2 by lia. unfold uN.
  apply Zmult_mod_idemp_l.
Qed.

(** The shift-and-add sequence of [hash_64] multiplies by the golden ratio
    prime modulo [2^64]. *)
Lemma hash_64_mult (val bits : Z) :
  0 <= val < 2 ^ 64 ->
  hash_64 val bits = Z.shiftr (u64 (val * GOLDEN_RATIO_PRIME_64)) (64 - bits).
Proof.
  intros Hv. unfold hash_64. cbv zeta. f_equal.
  rewrite <- (uN_id 64 val Hv), !u64_shiftl by lia.
  unfold uN, GOLDEN_RATIO_PRIME_64. change (2 ^ 64) with 18446744073709551616. lia.
Qed.

Lemma hash_32_range (val bits : Z) : 0 <= bits <= 32 -> 0 <= hash_32 val bits < 2 ^ bits.
Proof.
  intros Hb. unfold hash_32. rewrite Z.shiftr_div_pow2 by lia.
  pose proof (u32_range (val * GOLDEN_RATIO_PRIME_32)) as Hr.
  pose proof (Z.pow_pos_nonneg 2 (32 - bits) ltac:(lia) ltac:(lia)).
  split; [apply Z.div_pos; lia|]. apply Z.div_lt_upper_bound; [lia|].
  rewrite <- Z.pow_add_r by lia. replace (32 - bits + bits) with 32 by lia. lia.
Qed.

(** ** Rotations *)

(** Bits of a left rotation, at any width. *)
Lemma rol_bits (w word shift i : Z) :
  0 <= word < 2 ^ w -> 0 < shift < w -> 0 <= i < w ->
  Z.testbit (Z.lor (uN w (Z.shiftl word shift)) (Z.shiftr word (w - shift))) i =
  Z.testbit word ((i - shift) mod w).
Proof.
  intros Hw Hs Hi.
  rewrite Z.lor_spec, testbit_uN, Z.shiftl_spec, Z.shiftr_spec by lia.
  destruct (Z.ltb_spec i w); [|lia]. simpl. destruct (Z.ltb_spec i shift).
  - rewrite (Z.testbit_neg_r word (i - shift)) by lia. simpl. f_equal.
    apply (Z.mod_unique_pos _ _ (-1)); lia.
  - rewrite (testbit_high w word (i + (w - shift))) by lia. rewrite orb_false_r.
    f_equal. symmetry. apply Z.mod_small. lia.
Qed.

Lemma ror_bits (w word shift i : Z) :
  0 <= word < 2 ^ w -> 0 < shift < w -> 0 <= i < w ->
  Z.testbit (Z.lor (Z.shiftr word shift) (uN w (Z.shiftl word (w - shift)))) i =
  Z.testbit word ((i + shift) mod w).
Proof.
  intros Hw Hs Hi. rewrite Z.lor_comm.
  replace shift with (w - (w - shift)) at 2 by lia.
  rewrite rol_bits by lia. f_equal.
  replace (i - (w - shift)) with (i + shift + (-1) * w) by lia.
  apply Z_mod_plus_full.
Qed.

Lemma rol_range (w word shift : Z) :
  0 <= word < 2 ^ w -> 0 < shift < w ->
  0 <= Z.lor (uN w (Z.shiftl word shift)) (Z.shiftr word (w - shift)) < 2 ^ w.
Proof.
  intros Hw Hs. pose proof (uN_range w (Z.shiftl word shift) ltac:(lia)) as Hr.
  assert (0 <= Z.shiftr word (w - shift)) by (apply Z.shiftr_nonneg; lia).
  assert (0 <= Z.lor (uN w (Z.shiftl word shift)) (Z.shiftr word (w - shift))) as Hn
    by (apply Z.lor_nonneg; lia).
  split; [exact Hn|]. apply bits_lt_pow2; [lia | exact Hn |]. intros i Hi.
  rewrite Z.lor_spec, Z.shiftr_spec, (testbit_high w), (testbit_high w word) by lia.
  reflexivity.
Qed.

Lemma rol_ror (w word shift : Z) :
  0 <= word < 2 ^ w -> 0 < shift < w ->
  Z.lor (Z.shiftr (Z.lor (uN w (Z.shiftl word shift)) (Z.shiftr word (w - shift))) shift)
    (uN w (Z.shiftl (Z.lor (uN w (Z.shiftl word shift)) (Z.shiftr word (w - shift)))
            (w - shift))) = word.
Proof.
  intros Hw Hs. pose proof (rol_range w word shift Hw Hs) as Hr.
  apply Z.bits_inj'. intros i Hi. destruct (Z.ltb_spec i w).
  - rewrite ror_bits, rol_bits by (try apply Z.mod_pos_bound; lia).
    rewrite Zminus_mod_idemp_l. f_equal. replace (i + shift - shift) with i by lia.
    apply Z.mod_small. lia.
  - rewrite (testbit_high w word) by lia.
    rewrite Z.lor_comm, (testbit_high w); [reflexivity | | lia].
    pose proof (rol_range w _ (w - shift) Hr ltac:(lia)) as Hr'.
    replace (w - (w - shift)) with shift in Hr' by lia. exact Hr'.
Qed.

Lemma rol64_ror64 (word shift : Z) :
  0 <= word < 2 ^ 64 -> 0 < shift < 64 -> ror64 (rol64 word shift) shift = word.
Proof. apply rol_ror. Qed.

Lemma rol32_ror32 (word shift : Z) :
  0 <= word < 2 ^ 32 -> 0 < shift < 32 -> ror32 (rol32 word shift) shift = word.
Proof. apply rol_ror. Qed.
