(* ===== verification/ListHead.v ===== *)
(** * Circular doubly linked lists (include/kernel/list.h)

    Every queue of the kernel (ready queue, wait queues, slab lists, VMA lists,
    timers, children lists, inode lists) is an intrusive circular list of
    [struct list_head].  This file models the list primitives at the level of
    pointers, on a memory of nodes, and proves that they implement the
    operations on sequences which the other component files use. *)

From S2P Require Import Prelude.

(** ** Memory of nodes *)

(** [struct list_head]: the two pointers. *)
Record list_head : Type := ListNode { next : Z; prev : Z }.

Abbreviation mem := (gmap Z list_head).

Definition LIST_POISON1 : Z := 1048832.

Definition LIST_POISON2 : Z := 2097664.

(** Reads and writes through a pointer; an address that holds no node faults. *)
Definition get_next (m : mem) (p : Z) : res Z :=
  match m !! p with Some n => Ok n.(next) | None => Fault end.

Definition get_prev (m : mem) (p : Z) : res Z :=
  match m !! p with Some n => Ok n.(prev) | None => Fault end.

Definition set_next (m : mem) (p v : Z) : res mem :=
  match m !! p with
  | Some n => Ok (<[p := ListNode v n.(prev)]> m)
  | None => Fault
  end.

Definition set_prev (m : mem) (p v : Z) : res mem :=
  match m !! p with
  | Some n => Ok (<[p := ListNode n.(next) v]> m)
  | None => Fault
  end.

(** ** Operations *)

Definition INIT_LIST_HEAD (m : mem) (list : Z) : res mem :=
  do m <- set_next m list list; set_prev m list list.

Definition __list_add (m : mem) (new prev next : Z) : res mem :=
  do m <- set_prev m next new;
  do m <- set_next m new next;
  do m <- set_prev m new prev;
  set_next m prev new.

Definition list_add (m : mem) (new head : Z) : res mem :=
  do n <- get_next m head; __list_add m new head n.

Definition list_add_tail (m : mem) (new head : Z) : res mem :=
  do p <- get_prev m head; __list_add m new p head.

Definition __list_del (m : mem) (prev next : Z) : res mem :=
  do m <- set_prev m next prev; set_next m prev next.

Definition __list_del_entry (m : mem) (entry : Z) : res mem :=
  do p <- get_prev m entry; do n <- get_next m entry; __list_del m p n.

Definition list_del (m : mem) (entry : Z) : res mem :=
  do p <- get_prev m entry;
  do n <- get_next m entry;
  do m <- __list_del m p n;
  do m <- set_next m entry LIST_POISON1;
  set_prev m entry LIST_POISON2.

(** [NULL] is [None]. *)
Definition __list_remove_head (m : mem) (head : Z) : res (option Z * mem) :=
  do ret <- get_next m head;
  if head =? ret then Ok (None, m)
  else do m <- list_del m ret; Ok (Some ret, m).

Definition list_replace (m : mem) (old new : Z) : res mem :=
  do on <- get_next m old;
  do m <- set_next m new on;
  do nn <- get_next m new;
  do m <- set_prev m nn new;
  do op <- get_prev m old;
  do m <- set_prev m new op;
  do np <- get_prev m new;
  set_next m np new.

Definition list_replace_init (m : mem) (old new : Z) : res mem :=
  do m <- list_replace m old new; INIT_LIST_HEAD m old.

Definition list_del_init (m : mem) (entry : Z) : res mem :=
  do m <- __list_del_entry m entry; INIT_LIST_HEAD m entry.

Definition list_move (m : mem) (list head : Z) : res mem :=
  do m <- __list_del_entry m list; list_add m list head.

Definition list_move_tail (m : mem) (list head : Z) : res mem :=
  do m <- __list_del_entry m list; list_add_tail m list head.

Definition list_is_last (m : mem) (list head : Z) : res bool :=
  do n <- get_next m list; Ok (n =? head).

Definition list_empty (m : mem) (head : Z) : res bool :=
  do n <- get_next m head; Ok (n =? head).

Definition list_empty_careful (m : mem) (head : Z) : res bool :=
  do n <- get_next m head;
  if n =? head then do p <- get_prev m head; Ok (n =? p) else Ok false.

Definition list_rotate_left (m : mem) (head : Z) : res mem :=
  do e <- list_empty m head;
  if negb e
  then do first <- get_next m head; list_move_tail m first head
  else Ok m.

Definition list_is_singular (m : mem) (head : Z) : res bool :=
  do e <- list_empty m head;
  if negb e
  then do n <- get_next m head; do p <- get_prev m head; Ok (n =? p)
  else Ok false.

Definition __list_cut_position (m : mem) (list head entry : Z) : res mem :=
  do new_first <- get_next m entry;
  do hn <- get_next m head;
  do m <- set_next m list hn;
  do ln <- get_next m list;
  do m <- set_prev m ln list;
  do m <- set_prev m list entry;
  do m <- set_next m entry list;
  do m <- set_next m head new_first;
  set_prev m new_first head.

Definition list_cut_position (m : mem) (list head entry : Z) : res mem :=
  do e <- list_empty m head;
  if e then Ok m
  else
    do s <- list_is_singular m head;
    do hn <- get_next m head;
    if s && (negb (hn =? entry) && negb (head =? entry)) then Ok m
    else if entry =? head then INIT_LIST_HEAD m list
    else __list_cut_position m list head entry.

Definition __list_splice (m : mem) (list prev next : Z) : res mem :=
  do first <- get_next m list;
  do last <- get_prev m list;
  do m <- set_prev m first prev;
  do m <- set_next m prev first;
  do m <- set_next m last next;
  set_prev m next last.

Definition list_splice (m : mem) (list head : Z) : res mem :=
  do e <- list_empty m list;
  if negb e then do n <- get_next m head; __list_splice m list head n else Ok m.

Definition list_splice_tail (m : mem) (list head : Z) : res mem :=
  do e <- list_empty m list;
  if negb e then do p <- get_prev m head; __list_splice m list p head else Ok m.

Definition list_splice_init (m : mem) (list head : Z) : res mem :=
  do e <- list_empty m list;
  if negb e
  then
    do n <- get_next m head;
    do m <- __list_splice m list head n;
    INIT_LIST_HEAD m list
  else Ok m.

Definition list_splice_tail_init (m : mem) (list head : Z) : res mem :=
  do e <- list_empty m list;
  if negb e
  then
    do p <- get_prev m head;
    do m <- __list_splice m list p head;
    INIT_LIST_HEAD m list
  else Ok m.

(** ** Iteration

    The cursor positions visited by the loop macros; [None] when [fuel]
    iterations do not reach the head again. *)
Fixpoint walk (get : mem -> Z -> res Z) (fuel : nat) (m : mem) (pos head : Z)
  : res (option (list Z)) :=
  if pos =? head then Ok (Some [])
  else match fuel with
       | O => Ok None
       | S fuel =>
           do n <- get m pos;
           do rest <- walk get fuel m n head;
           Ok (match rest with Some l => Some (pos :: l) | None => None end)
       end.

Definition list_for_each (fuel : nat) (m : mem) (head : Z) : res (option (list Z)) :=
  do pos <- get_next m head; walk get_next fuel m pos head.

Definition list_for_each_prev (fuel : nat) (m : mem) (head : Z) : res (option (list Z)) :=
  do pos <- get_prev m head; walk get_prev fuel m pos head.

(** ** Representation

    [path f l]: following [f] from each element of [l] leads to the next one. *)
Fixpoint path (f : Z -> option Z) (l : list Z) : Prop :=
  match l with
  | a :: t =>
      match t with
      | b :: _ => f a = Some b /\ path f t
      | [] => True
      end
  | [] => True
  end.

Definition nx (m : mem) (p : Z) : option Z := next <$> m !! p.

Definition pv (m : mem) (p : Z) : option Z := prev <$> m !! p.

(** The circular list headed by [h] holds the entries [xs], in this order:
    [next] leads through [xs] back to [h] and [prev] through [xs] reversed. *)
Definition ring (m : mem) (h : Z) (xs : list Z) : Prop :=
  NoDup (h :: xs) /\ path (nx m) (h :: xs ++ [h]) /\
  path (pv m) (h :: rev xs ++ [h]).

(** [g] is [f] except at [a], where it is [b]. *)
Definition upd (f : Z -> option Z) (a b : Z) : Z -> option Z :=
  fun x => if x =? a then Some b else f x.

Lemma path_ext (f g : Z -> option Z) (l : list Z) :
  (forall x, x ∈ l -> f x = g x) -> path f l -> path g l.
Proof.
  induction l as [| a [| b t] IH]; simpl; intros H; auto.
  intros [Hab Ht]. split; [rewrite <- H by set_solver; exact Hab|].
  apply IH; [|exact Ht]. intros x Hx. apply H. set_solver.
Qed.

Lemma path_upd_notin (f : Z -> option Z) (l : list Z) (a b : Z) :
  a ∉ l -> path f l -> path (upd f a b) l.
Proof.
  intros Ha. apply path_ext. intros x Hx. unfold upd.
  destruct (Z.eqb_spec x a); [set_solver | reflexivity].
Qed.

(** The link out of the last element is not part of a path. *)
Lemma path_upd_end (f : Z -> option Z) (s : list Z) (z a b : Z) :
  a ∉ s -> path f (s ++ [z]) -> path (upd f a b) (s ++ [z]).
Proof.
  induction s as [| c s IH]; [simpl; auto|]. intros Ha. destruct s as [| d s].
  - simpl. unfold upd. intros [Hc _]. split; [|exact I].
    destruct (Z.eqb_spec c a); [set_solver | exact Hc].
  - intros [Hc Hp]. split.
    + unfold upd. destruct (Z.eqb_spec c a); [set_solver | exact Hc].
    + apply IH; [set_solver | exact Hp].
Qed.

(** A path cut in two at the link out of the last element of [h :: l]. *)
Lemma path_cut (f : Z -> option Z) (h b : Z) (l s : list Z) :
  path f (h :: l ++ b :: s) <->
  path f (h :: l) /\ f (List.last l h) = Some b /\ path f (b :: s).
Proof.
  revert h. induction l as [| c l IH]; intros h; [simpl; tauto|].
  change (path f (h :: (c :: l) ++ b :: s)) with (f h = Some c /\ path f (c :: l ++ b :: s)).
  change (path f (h :: c :: l)) with (f h = Some c /\ path f (c :: l)).
  rewrite IH. replace (List.last (c :: l) h) with (List.last l c); [tauto|].
  clear IH. revert c. induction l as [| d l IH]; intros c; [reflexivity|].
  simpl in *. destruct l; [reflexivity | apply (IH c)].
Qed.

Lemma app_hd (h : Z) (l : list Z) : l ++ [h] = List.hd h l :: List.tl (l ++ [h]).
Proof. destruct l; reflexivity. Qed.

Lemma path_ring_cut (f : Z -> option Z) (h : Z) (l1 l2 : list Z) :
  path f (h :: (l1 ++ l2) ++ [h]) <->
  path f (h :: l1) /\ f (List.last l1 h) = Some (List.hd h l2) /\ path f (l2 ++ [h]).
Proof.
  rewrite <- (app_assoc l1 l2 [h]), (app_hd h l2). apply path_cut.
Qed.

Lemma last_in (h : Z) (l : list Z) : List.last l h ∈ h :: l.
Proof.
  induction l as [| a l IH] using rev_ind; [set_solver|].
  rewrite last_last. set_solver.
Qed.

Lemma hd_in (h : Z) (l : list Z) : List.hd h l ∈ h :: l.
Proof. destruct l; set_solver. Qed.

Lemma hd_rev (h : Z) (l : list Z) : List.hd h (rev l) = List.last l h.
Proof.
  induction l as [| a l _] using rev_ind; [reflexivity|].
  rewrite rev_unit, last_last. reflexivity.
Qed.

Lemma last_rev (h : Z) (l : list Z) : List.last (rev l) h = List.hd h l.
Proof. destruct l as [| a l]; [reflexivity|]. simpl. apply last_last. Qed.

Lemma path_upd_seg (f : Z -> option Z) (h b : Z) (l : list Z) :
  NoDup (h :: l) -> path f (h :: l) -> path (upd f (List.last l h) b) (h :: l).
Proof.
  intros Hnd Hp. destruct l as [| c l _] using rev_ind; [exact I|].
  rewrite last_last. apply (path_upd_end f (h :: l)); [|exact Hp].
  change (h :: l ++ [c]) with ((h :: l) ++ [c]) in Hnd.
  apply NoDup_app in Hnd as (_ & Hc & _). intros Hin. apply (Hc c Hin). set_solver.
Qed.

Lemma path_insert (f : Z -> option Z) (h c : Z) (l1 l2 : list Z) :
  NoDup (h :: l1 ++ l2) -> c ∉ h :: l1 ++ l2 ->
  path f (h :: (l1 ++ l2) ++ [h]) ->
  path (upd (upd f (List.last l1 h) c) c (List.hd h l2)) (h :: (l1 ++ c :: l2) ++ [h]).
Proof.
  intros Hnd Hc Hp. apply path_ring_cut in Hp as (H1 & Hl & H2).
  pose proof (last_in h l1) as Hin. apply path_ring_cut.
  assert (List.last l1 h ∉ l2) as Hl2.
  { change (h :: l1 ++ l2) with ((h :: l1) ++ l2) in Hnd.
    apply NoDup_app in Hnd as (_ & Hd & _). auto. }
  split; [|split].
  - apply path_upd_notin; [set_solver|]. apply path_upd_seg; [|exact H1].
    change (h :: l1 ++ l2) with ((h :: l1) ++ l2) in Hnd. apply NoDup_app in Hnd. tauto.
  - unfold upd. destruct (Z.eqb_spec (List.last l1 h) c) as [E|_]; [set_solver|].
    rewrite Z.eqb_refl. reflexivity.
  - simpl app. rewrite app_hd. split.
    + unfold upd. rewrite Z.eqb_refl. reflexivity.
    + rewrite <- app_hd. apply path_upd_end; [set_solver|].
      apply path_upd_end; assumption.
Qed.

Lemma path_remove (f : Z -> option Z) (h c : Z) (l1 l2 : list Z) :
  NoDup (h :: l1 ++ c :: l2) -> path f (h :: (l1 ++ c :: l2) ++ [h]) ->
  path (upd f (List.last l1 h) (List.hd h l2)) (h :: (l1 ++ l2) ++ [h]).
Proof.
  intros Hnd Hp. apply path_ring_cut in Hp as (H1 & Hl & H2).
  change (h :: l1 ++ c :: l2) with ((h :: l1) ++ c :: l2) in Hnd.
  apply NoDup_app in Hnd as (Hnd1 & Hd & Hnd2).
  pose proof (last_in h l1) as Hin. apply path_ring_cut. split; [|split].
  - apply path_upd_seg; assumption.
  - unfold upd. rewrite Z.eqb_refl. reflexivity.
  - apply path_upd_end; [intros Hin2; apply (Hd _ Hin); set_solver|].
    simpl app in H2. rewrite app_hd in H2. destruct H2 as [_ H2].
    rewrite <- app_hd in H2. exact H2.
Qed.

(** Splicing the non-empty sequence [ys], itself a path, at the cut. *)
Lemma path_splice (f : Z -> option Z) (h y : Z) (l1 l2 ys : list Z) :
  NoDup (h :: l1 ++ l2) -> NoDup (y :: ys) ->
  (forall x, x ∈ y :: ys -> x ∉ h :: l1 ++ l2) ->
  path f (h :: (l1 ++ l2) ++ [h]) -> path f (y :: ys) ->
  path (upd (upd f (List.last l1 h) y) (List.last ys y) (List.hd h l2))
    (h :: (l1 ++ (y :: ys) ++ l2) ++ [h]).
Proof.
  intros Hnd Hndy Hdisj Hp Hpy. apply path_ring_cut in Hp as (H1 & Hl & H2).
  pose proof (last_in h l1) as Hin. pose proof (last_in y ys) as Hiny.
  pose proof (Hdisj _ Hiny) as Hly.
  change (h :: l1 ++ l2) with ((h :: l1) ++ l2) in Hnd.
  apply NoDup_app in Hnd as (Hnd1 & Hd & Hnd2).
  apply path_ring_cut. split; [|split].
  - apply path_upd_notin; [set_solver|]. apply path_upd_seg; assumption.
  - unfold upd. destruct (Z.eqb_spec (List.last l1 h) (List.last ys y)) as [E|_].
    { rewrite E in Hin. set_solver. }
    rewrite Z.eqb_refl. reflexivity.
  - rewrite <- app_assoc, (app_hd h l2). apply (path_cut _ y _ ys). split; [|split].
    + apply path_upd_seg; [assumption|]. apply path_upd_notin; [|assumption].
      intros Hin2. apply (Hdisj _ Hin2). set_solver.
    + unfold upd. rewrite Z.eqb_refl. reflexivity.
    + rewrite <- app_hd. apply path_upd_end; [set_solver|].
      apply path_upd_end; [auto | assumption].
Qed.

(** ** Effects of the primitives *)

(** [p] points to a node. *)
Definition valid (m : mem) (p : Z) : Prop := is_Some (m !! p).

(** Nodes outside [l] are untouched, and no node disappears. *)
Definition frame (m m' : mem) (l : list Z) : Prop :=
  (forall q, q ∉ l -> m' !! q = m !! q) /\ (forall q, valid m q -> valid m' q).

(** [m'] has the pointers [N] and [P]. *)
Definition effect (m' : mem) (N P : Z -> option Z) : Prop :=
  (forall q, nx m' q = N q) /\ (forall q, pv m' q = P q).

Lemma valid_nx (m : mem) (p : Z) : valid m p <-> is_Some (nx m p).
Proof. unfold valid, nx. rewrite fmap_is_Some. reflexivity. Qed.

Lemma valid_pv (m : mem) (p : Z) : valid m p <-> is_Some (pv m p).
Proof. unfold valid, pv. rewrite fmap_is_Some. reflexivity. Qed.

Lemma lookup_nx_pv (m m' : mem) (q : Z) :
  nx m' q = nx m q -> pv m' q = pv m q -> m' !! q = m !! q.
Proof.
  unfold nx, pv. destruct (m !! q) as [[a b]|], (m' !! q) as [[a' b']|]; simpl;
    intros; simplify_eq; reflexivity.
Qed.

Lemma get_next_ok (m : mem) (p v : Z) : nx m p = Some v -> get_next m p = Ok v.
Proof. unfold nx, get_next. destruct (m !! p); simpl; congruence. Qed.

Lemma get_prev_ok (m : mem) (p v : Z) : pv m p = Some v -> get_prev m p = Ok v.
Proof. unfold pv, get_prev. destruct (m !! p); simpl; congruence. Qed.

Lemma set_next_ok (m : mem) (p v : Z) :
  valid m p ->
  exists m', set_next m p v = Ok m' /\ effect m' (upd (nx m) p v) (pv m).
Proof.
  intros [n Hn]. unfold set_next. rewrite Hn. eexists. split; [reflexivity|].
  split; intros q; unfold nx, pv, upd;
    destruct (Z.eqb_spec q p) as [-> | Hne]; try (rewrite lookup_insert_ne by congruence);
    rewrite ?lookup_insert_eq, ?Hn; reflexivity.
Qed.

Lemma set_prev_ok (m : mem) (p v : Z) :
  valid m p ->
  exists m', set_prev m p v = Ok m' /\ effect m' (nx m) (upd (pv m) p v).
Proof.
  intros [n Hn]. unfold set_prev. rewrite Hn. eexists. split; [reflexivity|].
  split; intros q; unfold nx, pv, upd;
    destruct (Z.eqb_spec q p) as [-> | Hne]; try (rewrite lookup_insert_ne by congruence);
    rewrite ?lookup_insert_eq, ?Hn; reflexivity.
Qed.

Lemma effect_valid (m' : mem) (N P : Z -> option Z) (q : Z) :
  effect m' N P -> is_Some (N q) -> valid m' q.
Proof. intros [HN _] H. apply valid_nx. rewrite HN. exact H. Qed.

Lemma upd_is_Some (f : Z -> option Z) (a b q : Z) :
  is_Some (f q) -> is_Some (upd f a b q).
Proof. unfold upd. destruct (q =? a); eauto. Qed.

(** Case analysis on every pointer comparison of an effect. *)
Ltac upd_cases :=
  unfold upd;
  repeat match goal with
         | |- context [?a =? ?b] => destruct (Z.eqb_spec a b); subst
         end;
  try congruence; try contradiction; auto.

(** Executes one primitive write of the goal and accumulates its effect. *)
Ltac exec_write lem m p v :=
  let m' := fresh "m" in let E := fresh "E" in
  let HN := fresh "HN" in let HP := fresh "HP" in
  destruct (lem m p v) as (m' & E & HN & HP);
  [ apply valid_nx;
    repeat match goal with
           | |- is_Some (upd _ _ _ _) => apply upd_is_Some
           | H : forall q, nx ?m q = _ |- is_Some (nx ?m _) => rewrite H
           end;
    apply valid_nx; assumption
  | rewrite E; simpl res_bind ].

Ltac exec_writes :=
  repeat match goal with
         | |- context [set_next ?m ?p ?v] => exec_write set_next_ok m p v
         | |- context [set_prev ?m ?p ?v] => exec_write set_prev_ok m p v
         end;
  eexists; split; [reflexivity|]; split; intros q;
  repeat match goal with
         | H : forall q, nx ?m q = _ |- context [nx ?m ?x] => rewrite (H x); unfold upd
         | H : forall q, pv ?m q = _ |- context [pv ?m ?x] => rewrite (H x); unfold upd
         end;
  upd_cases.

Lemma INIT_LIST_HEAD_effect (m : mem) (l : Z) :
  valid m l ->
  exists m', INIT_LIST_HEAD m l = Ok m' /\ effect m' (upd (nx m) l l) (upd (pv m) l l).
Proof. intros. unfold INIT_LIST_HEAD. exec_writes. Qed.

Lemma __list_add_effect (m : mem) (new p n : Z) :
  valid m new -> valid m p -> valid m n -> new <> p -> new <> n ->
  exists m', __list_add m new p n = Ok m' /\
    effect m' (upd (upd (nx m) p new) new n) (upd (upd (pv m) n new) new p).
Proof. intros. unfold __list_add. exec_writes. Qed.

Lemma __list_del_effect (m : mem) (p n : Z) :
  valid m p -> valid m n ->
  exists m', __list_del m p n = Ok m' /\ effect m' (upd (nx m) p n) (upd (pv m) n p).
Proof. intros. unfold __list_del. exec_writes. Qed.

(** ** Rings under the primitives *)

Lemma path_valid (f : Z -> option Z) (l : list Z) (z x : Z) :
  path f (l ++ [z]) -> x ∈ l -> is_Some (f x).
Proof.
  induction l as [| a l IH]; [set_solver|]. intros Hp Hx.
  assert (is_Some (f a) /\ path f (l ++ [z])) as [Ha Hl].
  { destruct l; simpl in *; destruct Hp; eauto. }
  apply elem_of_cons in Hx as [-> | Hx]; auto.
Qed.

Lemma ring_valid (m : mem) (h x : Z) (xs : list Z) :
  ring m h xs -> x ∈ h :: xs -> valid m x.
Proof.
  intros (_ & Hn & _) Hx. apply valid_nx. eapply (path_valid _ (h :: xs)); eauto.
Qed.

Lemma ring_links (m : mem) (h : Z) (l1 l2 : list Z) :
  ring m h (l1 ++ l2) ->
  nx m (List.last l1 h) = Some (List.hd h l2) /\
  pv m (List.hd h l2) = Some (List.last l1 h).
Proof.
  intros (_ & Hn & Hp). split.
  - apply path_ring_cut in Hn. tauto.
  - rewrite rev_app_distr in Hp. apply path_ring_cut in Hp as (_ & Hp & _).
    rewrite last_rev, hd_rev in Hp. exact Hp.
Qed.

Lemma ring_frame (m m' : mem) (h : Z) (xs l : list Z) :
  ring m h xs -> frame m m' l -> (forall x, x ∈ h :: xs -> x ∉ l) -> ring m' h xs.
Proof.
  intros (Hnd & Hn & Hp) Hf Hd. split; [exact Hnd|]. split.
  - apply (path_ext (nx m)); [|exact Hn]. intros x Hx. unfold nx.
    rewrite (proj1 Hf); [reflexivity|]. apply Hd. set_solver.
  - apply (path_ext (pv m)); [|exact Hp]. intros x Hx. unfold pv.
    rewrite (proj1 Hf); [reflexivity|]. apply Hd.
    assert (x ∈ rev xs -> x ∈ xs) by (rewrite !list_elem_of_In; apply in_rev). set_solver.
Qed.

Lemma effect_frame (m m' : mem) (N P : Z -> option Z) (l : list Z) :
  effect m' N P -> (forall q, is_Some (nx m q) -> is_Some (N q)) ->
  (forall q, q ∉ l -> N q = nx m q /\ P q = pv m q) -> frame m m' l.
Proof.
  intros [HN HP] Hv H. split.
  - intros q Hq. destruct (H q Hq). apply lookup_nx_pv; congruence.
  - intros q. rewrite !valid_nx, HN. apply Hv.
Qed.

Lemma frame_trans (m m1 m2 : mem) (l1 l2 l : list Z) :
  frame m m1 l1 -> frame m1 m2 l2 -> (forall q, q ∈ l1 -> q ∈ l) ->
  (forall q, q ∈ l2 -> q ∈ l) -> frame m m2 l.
Proof.
  intros [H1 V1] [H2 V2] Hl1 Hl2. split; [|auto].
  intros q Hq. rewrite H2, H1 by auto. reflexivity.
Qed.

Lemma frame_refl (m : mem) (l : list Z) : frame m m l.
Proof. split; auto. Qed.

Lemma frame_weaken (m m' : mem) (l l' : list Z) :
  frame m m' l -> (forall q, q ∈ l -> q ∈ l') -> frame m m' l'.
Proof. intros [H V] Hl. split; auto. Qed.

Lemma NoDup_insert_mid (h c : Z) (l1 l2 : list Z) :
  NoDup (h :: l1 ++ l2) -> c ∉ h :: l1 ++ l2 -> NoDup (h :: l1 ++ c :: l2).
Proof.
  intros Hnd Hc. rewrite <- Permutation_middle. rewrite perm_swap.
  constructor; assumption.
Qed.

Lemma NoDup_remove_mid (h c : Z) (l1 l2 : list Z) :
  NoDup (h :: l1 ++ c :: l2) -> NoDup (h :: l1 ++ l2) /\ c ∉ h :: l1 ++ l2.
Proof.
  rewrite <- Permutation_middle, perm_swap. intros Hnd. inversion Hnd; subst. auto.
Qed.

Lemma ring_init (m m' : mem) (h : Z) :
  effect m' (upd (nx m) h h) (upd (pv m) h h) -> ring m' h [].
Proof.
  intros [HN HP]. split; [apply NoDup_singleton|].
  simpl. rewrite HN, HP. unfold upd. rewrite Z.eqb_refl. auto.
Qed.

Lemma not_in_rev (x h : Z) (l1 l2 : list Z) :
  x ∉ h :: l1 ++ l2 -> x ∉ h :: rev l2 ++ rev l1.
Proof. rewrite !list_elem_of_In. simpl. rewrite !in_app_iff, <- !in_rev. tauto. Qed.

Lemma NoDup_rev_cut (h : Z) (l1 l2 : list Z) :
  NoDup (h :: l1 ++ l2) -> NoDup (h :: rev l2 ++ rev l1).
Proof.
  intros Hnd. rewrite <- rev_app_distr. rewrite <- Permutation_rev. exact Hnd.
Qed.

Lemma rev_mid (c : Z) (l1 l2 : list Z) : rev (l1 ++ c :: l2) = rev l2 ++ c :: rev l1.
Proof. rewrite rev_app_distr. simpl. rewrite <- app_assoc. reflexivity. Qed.

(** [__list_add] between the two entries at a cut inserts there. *)
Lemma __list_add_ring (m : mem) (h new : Z) (l1 l2 : list Z) :
  ring m h (l1 ++ l2) -> new ∉ h :: l1 ++ l2 -> valid m new ->
  exists m', __list_add m new (List.last l1 h) (List.hd h l2) = Ok m' /\
    ring m' h (l1 ++ new :: l2) /\ frame m m' (new :: h :: l1 ++ l2).
Proof.
  intros Hr Hnew Hv. pose proof (last_in h l1) as Hp. pose proof (hd_in h l2) as Hn.
  destruct (__list_add_effect m new (List.last l1 h) (List.hd h l2)) as (m' & E & Heff).
  1, 2, 3: eauto using ring_valid. all: try (intros ->; set_solver).
  1, 2: eapply ring_valid; [exact Hr | set_solver].
  exists m'. split; [exact E|]. destruct Hr as (Hnd & HN & HP). split.
  - split; [apply NoDup_insert_mid; assumption|]. split.
    + eapply path_ext; [|apply path_insert; eassumption]. intros. symmetry. apply Heff.
    + rewrite rev_app_distr in HP. rewrite rev_mid.
      eapply path_ext; [|apply path_insert;
        [apply NoDup_rev_cut, Hnd | apply not_in_rev, Hnew | exact HP]].
      intros. rewrite last_rev, hd_rev. symmetry. apply Heff.
  - eapply effect_frame; [exact Heff | auto using upd_is_Some |]. intros q Hq. unfold upd.
    destruct (Z.eqb_spec q new); [set_solver|].
    destruct (Z.eqb_spec q (List.last l1 h)); [set_solver|].
    destruct (Z.eqb_spec q (List.hd h l2)); [set_solver | auto].
Qed.

(** Linking the neighbours of [e] to each other removes [e]. *)
Lemma __list_del_ring (m : mem) (h e : Z) (l1 l2 : list Z) :
  ring m h (l1 ++ e :: l2) ->
  get_prev m e = Ok (List.last l1 h) /\ get_next m e = Ok (List.hd h l2) /\
  exists m', __list_del m (List.last l1 h) (List.hd h l2) = Ok m' /\
    ring m' h (l1 ++ l2) /\ frame m m' (h :: l1 ++ l2).
Proof.
  intros Hr. pose proof (last_in h l1) as Hp. pose proof (hd_in h l2) as Hn.
  destruct (ring_links m h l1 (e :: l2) Hr) as [_ Hpe].
  destruct (ring_links m h (l1 ++ [e]) l2) as [Hne _]; [rewrite <- app_assoc; exact Hr|].
  rewrite last_last in Hne. split; [apply get_prev_ok, Hpe|].
  split; [apply get_next_ok, Hne|].
  destruct (__list_del_effect m (List.last l1 h) (List.hd h l2)) as (m' & E & Heff).
  1, 2: eapply ring_valid; [exact Hr | set_solver].
  exists m'. split; [exact E|]. destruct Hr as (Hnd & HN & HP).
  destruct (NoDup_remove_mid _ _ _ _ Hnd) as [Hnd' _]. split.
  - split; [exact Hnd'|]. split.
    + eapply path_ext; [|eapply path_remove; eassumption]. intros. symmetry. apply Heff.
    + rewrite rev_mid in HP. rewrite rev_app_distr.
      assert (NoDup (h :: rev l2 ++ e :: rev l1)) as Hndr
        by (rewrite <- rev_mid, <- Permutation_rev; exact Hnd).
      eapply path_ext; [|eapply path_remove; [exact Hndr | exact HP]].
      intros. rewrite last_rev, hd_rev. symmetry. apply Heff.
  - eapply effect_frame; [exact Heff | auto using upd_is_Some |]. intros q Hq. unfold upd.
    destruct (Z.eqb_spec q (List.last l1 h)); [set_solver|].
    destruct (Z.eqb_spec q (List.hd h l2)); [set_solver | auto].
Qed.

Lemma ring_first (m : mem) (h : Z) (xs : list Z) :
  ring m h xs -> get_next m h = Ok (List.hd h xs).
Proof. intros Hr. apply get_next_ok, (ring_links m h [] xs Hr). Qed.

Lemma ring_last (m : mem) (h : Z) (xs : list Z) :
  ring m h xs -> get_prev m h = Ok (List.last xs h).
Proof.
  intros Hr. apply get_prev_ok. rewrite <- (app_nil_r xs) in Hr.
  apply (ring_links m h xs [] Hr).
Qed.

(** ** What each operation does to the sequence of entries *)

Lemma list_add_ring (m : mem) (h new : Z) (xs : list Z) :
  ring m h xs -> new ∉ h :: xs -> valid m new ->
  exists m', list_add m new h = Ok m' /\ ring m' h (new :: xs) /\
    frame m m' (new :: h :: xs).
Proof.
  intros Hr Hnew Hv. unfold list_add. rewrite (ring_first _ _ _ Hr). simpl res_bind.
  apply (__list_add_ring m h new [] xs); assumption.
Qed.

Lemma list_add_tail_ring (m : mem) (h new : Z) (xs : list Z) :
  ring m h xs -> new ∉ h :: xs -> valid m new ->
  exists m', list_add_tail m new h = Ok m' /\ ring m' h (xs ++ [new]) /\
    frame m m' (new :: h :: xs).
Proof.
  intros Hr Hnew Hv. unfold list_add_tail. rewrite (ring_last _ _ _ Hr). simpl res_bind.
  rewrite <- (app_nil_r xs) in Hr, Hnew.
  destruct (__list_add_ring m h new xs [] Hr Hnew Hv) as (m' & E & Hr' & Hf).
  rewrite app_nil_r in Hf. eauto.
Qed.

Lemma __list_del_entry_ring (m : mem) (h e : Z) (l1 l2 : list Z) :
  ring m h (l1 ++ e :: l2) ->
  exists m', __list_del_entry m e = Ok m' /\ ring m' h (l1 ++ l2) /\
    frame m m' (h :: l1 ++ l2).
Proof.
  intros Hr. destruct (__list_del_ring m h e l1 l2 Hr) as (Hp & Hn & Hd).
  unfold __list_del_entry. rewrite Hp, Hn. exact Hd.
Qed.

Lemma list_del_ring (m : mem) (h e : Z) (l1 l2 : list Z) :
  ring m h (l1 ++ e :: l2) ->
  exists m', list_del m e = Ok m' /\ ring m' h (l1 ++ l2) /\
    m' !! e = Some (ListNode LIST_POISON1 LIST_POISON2) /\
    frame m m' (e :: h :: l1 ++ l2).
Proof.
  intros Hr. destruct (__list_del_ring m h e l1 l2 Hr) as (Hp & Hn & m1 & E & Hr1 & Hf1).
  pose proof Hr as (Hnd & _). apply NoDup_remove_mid in Hnd as [_ He].
  unfold list_del. rewrite Hp, Hn. simpl res_bind. rewrite E. simpl res_bind.
  assert (valid m1 e) as [n Hne].
  { apply Hf1. eapply ring_valid; [exact Hr | set_solver]. }
  unfold set_next. rewrite Hne. simpl res_bind. unfold set_prev.
  rewrite lookup_insert_eq. simpl. rewrite insert_insert_eq.
  assert (frame m1 (<[e := ListNode LIST_POISON1 LIST_POISON2]> m1) [e]) as Hf2.
  { split; intros q; [intros Hq; apply lookup_insert_ne; set_solver|].
    unfold valid. rewrite lookup_insert. case_decide; eauto. }
  eexists. split; [reflexivity|]. split; [|split].
  - eapply ring_frame; [exact Hr1 | exact Hf2 | set_solver].
  - apply lookup_insert_eq.
  - eapply frame_trans; [exact Hf1 | exact Hf2 | set_solver | set_solver].
Qed.

Lemma __list_remove_head_ring (m : mem) (h : Z) (xs : list Z) :
  ring m h xs ->
  exists m', __list_remove_head m h = Ok (head xs, m') /\ ring m' h (tail xs) /\
    frame m m' (h :: xs).
Proof.
  intros Hr. unfold __list_remove_head. rewrite (ring_first _ _ _ Hr). simpl res_bind.
  destruct xs as [| x xs]; simpl.
  - rewrite Z.eqb_refl. exists m. repeat split; try apply Hr. auto.
  - destruct (Z.eqb_spec h x) as [-> |].
    { destruct Hr as (Hnd & _). inversion Hnd; subst. set_solver. }
    destruct (list_del_ring m h x [] xs Hr) as (m' & E & Hr' & _ & Hf).
    rewrite E. exists m'. split; [reflexivity|]. split; [exact Hr'|].
    eapply frame_weaken; [exact Hf | set_solver].
Qed.

Lemma list_empty_ring (m : mem) (h : Z) (xs : list Z) :
  ring m h xs -> list_empty m h = Ok (match xs with [] => true | _ => false end).
Proof.
  intros Hr. unfold list_empty. rewrite (ring_first _ _ _ Hr). simpl. f_equal.
  destruct xs as [| x xs]; simpl; [apply Z.eqb_refl|].
  apply Z.eqb_neq. intros ->. destruct Hr as (Hnd & _). inversion Hnd. set_solver.
Qed.

Lemma list_is_last_ring (m : mem) (h e : Z) (l1 l2 : list Z) :
  ring m h (l1 ++ e :: l2) ->
  list_is_last m e h = Ok (match l2 with [] => true | _ => false end).
Proof.
  intros Hr. destruct (__list_del_ring m h e l1 l2 Hr) as (_ & Hn & _).
  unfold list_is_last. rewrite Hn. simpl. f_equal.
  destruct l2 as [| x l2]; simpl; [apply Z.eqb_refl|].
  apply Z.eqb_neq. intros ->. destruct Hr as (Hnd & _).
  apply NoDup_cons in Hnd as [Hh _]. set_solver.
Qed.

Lemma list_is_singular_ring (m : mem) (h : Z) (xs : list Z) :
  ring m h xs ->
  list_is_singular m h = Ok (match xs with [_] => true | _ => false end).
Proof.
  intros Hr. unfold list_is_singular.
  rewrite (list_empty_ring _ _ _ Hr). simpl res_bind.
  rewrite (ring_first _ _ _ Hr), (ring_last _ _ _ Hr).
  destruct Hr as (Hnd & _). destruct xs as [| x xs]; [reflexivity|]. cbn [negb res_bind List.hd].
  destruct xs as [| y xs _] using rev_ind; [simpl; rewrite Z.eqb_refl; reflexivity|].
  change (x :: xs ++ [y]) with ((x :: xs) ++ [y]). rewrite last_last.
  destruct (Z.eqb_spec x y) as [-> |]; [|destruct xs; reflexivity].
  apply NoDup_cons in Hnd as [_ Hnd]. apply NoDup_cons in Hnd as [Hy _]. set_solver.
Qed.

Lemma list_del_init_ring (m : mem) (h e : Z) (l1 l2 : list Z) :
  ring m h (l1 ++ e :: l2) ->
  exists m', list_del_init m e = Ok m' /\ ring m' h (l1 ++ l2) /\ ring m' e [] /\
    frame m m' (e :: h :: l1 ++ l2).
Proof.
  intros Hr. destruct (__list_del_entry_ring m h e l1 l2 Hr) as (m1 & E & Hr1 & Hf1).
  pose proof Hr as (Hnd & _). apply NoDup_remove_mid in Hnd as [_ He].
  unfold list_del_init. rewrite E. simpl res_bind.
  destruct (INIT_LIST_HEAD_effect m1 e) as (m2 & E2 & Heff).
  { apply Hf1. eapply ring_valid; [exact Hr | set_solver]. }
  assert (frame m1 m2 [e]) as Hf2.
  { eapply effect_frame; [exact Heff | auto using upd_is_Some |]. intros q Hq. unfold upd.
    destruct (Z.eqb_spec q e); [set_solver | auto]. }
  exists m2. split; [exact E2|]. split; [|split].
  - eapply ring_frame; [exact Hr1 | exact Hf2 | set_solver].
  - eapply ring_init, Heff.
  - eapply frame_trans; [exact Hf1 | exact Hf2 | set_solver | set_solver].
Qed.

Lemma list_move_tail_ring (m : mem) (h e : Z) (l1 l2 : list Z) :
  ring m h (l1 ++ e :: l2) ->
  exists m', list_move_tail m e h = Ok m' /\ ring m' h (l1 ++ l2 ++ [e]) /\
    frame m m' (e :: h :: l1 ++ l2).
Proof.
  intros Hr. destruct (__list_del_entry_ring m h e l1 l2 Hr) as (m1 & E & Hr1 & Hf1).
  pose proof Hr as (Hnd & _). apply NoDup_remove_mid in Hnd as [_ He].
  unfold list_move_tail. rewrite E. simpl res_bind.
  destruct (list_add_tail_ring m1 h e (l1 ++ l2) Hr1 He) as (m2 & E2 & Hr2 & Hf2).
  { apply Hf1. eapply ring_valid; [exact Hr | set_solver]. }
  exists m2. rewrite app_assoc. split; [exact E2|]. split; [exact Hr2|].
  eapply frame_trans; [exact Hf1 | exact Hf2 | set_solver | set_solver].
Qed.

(** Moving an entry to the front of another list. *)
Lemma list_move_other_ring (m : mem) (h h' e : Z) (l1 l2 ys : list Z) :
  ring m h (l1 ++ e :: l2) -> ring m h' ys ->
  (forall x, x ∈ h' :: ys -> x ∉ h :: l1 ++ e :: l2) ->
  exists m', list_move m e h' = Ok m' /\ ring m' h (l1 ++ l2) /\ ring m' h' (e :: ys) /\
    frame m m' ((h :: l1 ++ e :: l2) ++ h' :: ys).
Proof.
  intros Hr Hr' Hd. destruct (__list_del_entry_ring m h e l1 l2 Hr) as (m1 & E & Hr1 & Hf1).
  pose proof Hr as (Hnd & _). apply NoDup_remove_mid in Hnd as [_ He].
  unfold list_move. rewrite E. simpl res_bind.
  assert (ring m1 h' ys) as Hr1'.
  { eapply ring_frame; [exact Hr' | exact Hf1 |]. intros x Hx Hin. apply (Hd x Hx). set_solver. }
  destruct (list_add_ring m1 h' e ys Hr1') as (m2 & E2 & Hr2 & Hf2).
  { intros Hin. apply (Hd e Hin). set_solver. }
  { apply Hf1. eapply ring_valid; [exact Hr | set_solver]. }
  exists m2. split; [exact E2|]. split; [|split; [exact Hr2|]].
  - eapply ring_frame; [exact Hr1 | exact Hf2 |].
    intros x Hx Hin. apply elem_of_cons in Hin as [-> | Hin]; [contradiction|].
    apply (Hd x Hin). set_solver.
  - eapply frame_trans; [exact Hf1 | exact Hf2 | set_solver | set_solver].
Qed.

Lemma list_rotate_left_ring (m : mem) (h : Z) (xs : list Z) :
  ring m h xs ->
  exists m', list_rotate_left m h = Ok m' /\
    ring m' h (match xs with [] => [] | x :: t => t ++ [x] end) /\ frame m m' (h :: xs).
Proof.
  intros Hr. unfold list_rotate_left. rewrite (list_empty_ring _ _ _ Hr). simpl res_bind.
  destruct xs as [| x xs]; simpl; [exists m; split; [reflexivity | split; [exact Hr | apply frame_refl]]|].
  rewrite (ring_first _ _ _ Hr). simpl res_bind.
  destruct (list_move_tail_ring m h x [] xs Hr) as (m' & E & Hr' & Hf).
  exists m'. split; [exact E|]. split; [exact Hr'|].
  eapply frame_weaken; [exact Hf | set_solver].
Qed.

Lemma list_replace_effect (m : mem) (old new p n : Z) :
  valid m old -> valid m new -> valid m p -> valid m n ->
  nx m old = Some n -> pv m old = Some p -> old <> n -> new <> n -> new <> old ->
  exists m', list_replace m old new = Ok m' /\
    effect m' (upd (upd (nx m) new n) p new) (upd (upd (pv m) n new) new p).
Proof.
  intros Ho Hnew Hp Hn HNo HPo ? ? ?. unfold list_replace.
  rewrite (get_next_ok _ _ _ HNo). simpl res_bind.
  destruct (set_next_ok m new n Hnew) as (m1 & E1 & HN1 & HP1). rewrite E1. simpl res_bind.
  rewrite (get_next_ok m1 new n) by (rewrite HN1; unfold upd; rewrite Z.eqb_refl; reflexivity).
  simpl res_bind.
  assert (valid m1 n) as Hn1 by (apply valid_pv; rewrite HP1; apply valid_pv, Hn).
  destruct (set_prev_ok m1 n new Hn1) as (m2 & E2 & HN2 & HP2). rewrite E2. simpl res_bind.
  rewrite (get_prev_ok m2 old p) by
    (rewrite HP2; unfold upd; destruct (Z.eqb_spec old n); [congruence | rewrite HP1; exact HPo]).
  simpl res_bind.
  assert (valid m2 new) as Hnew2.
  { apply valid_pv. rewrite HP2. apply upd_is_Some. rewrite HP1. apply valid_pv, Hnew. }
  destruct (set_prev_ok m2 new p Hnew2) as (m3 & E3 & HN3 & HP3). rewrite E3. simpl res_bind.
  rewrite (get_prev_ok m3 new p) by (rewrite HP3; unfold upd; rewrite Z.eqb_refl; reflexivity).
  simpl res_bind.
  assert (valid m3 p) as Hp3.
  { apply valid_nx. rewrite HN3, HN2, HN1. apply upd_is_Some, valid_nx, Hp. }
  destruct (set_next_ok m3 p new Hp3) as (m4 & E4 & HN4 & HP4).
  exists m4. split; [exact E4|]. split; intros q.
  - rewrite HN4. unfold upd. rewrite HN3, HN2, HN1. reflexivity.
  - rewrite HP4, HP3. unfold upd. rewrite HP2. unfold upd. rewrite HP1. reflexivity.
Qed.

Lemma list_replace_ring (m : mem) (h old new : Z) (l1 l2 : list Z) :
  ring m h (l1 ++ old :: l2) -> new ∉ h :: l1 ++ old :: l2 -> valid m new ->
  exists m', list_replace m old new = Ok m' /\ ring m' h (l1 ++ new :: l2) /\
    frame m m' (new :: h :: l1 ++ l2).
Proof.
  intros Hr Hnew Hv. pose proof (last_in h l1) as Hp. pose proof (hd_in h l2) as Hn.
  pose proof Hr as (Hnd & HN & HP). destruct (NoDup_remove_mid _ _ _ _ Hnd) as [Hnd' Ho].
  destruct (ring_links m h l1 (old :: l2) Hr) as [_ Hpo].
  destruct (ring_links m h (l1 ++ [old]) l2) as [Hno _]; [rewrite <- app_assoc; exact Hr|].
  rewrite last_last in Hno. simpl in Hpo.
  destruct (list_replace_effect m old new (List.last l1 h) (List.hd h l2)) as (m' & E & Heff);
    auto.
  1, 2, 3: eapply ring_valid; [exact Hr | set_solver].
  1, 2, 3: intros ->; set_solver.
  assert (new ∉ h :: l1 ++ l2) as Hnew' by set_solver.
  assert (forall a b c f q, upd (upd (upd f a b) a c) new b q = upd (upd f a c) new b q) as Hu
    by (intros; upd_cases).
  assert (new <> List.last l1 h) by (intros ->; set_solver).
  exists m'. split; [exact E|]. split; [split; [|split]|].
  - apply NoDup_insert_mid; assumption.
  - eapply path_ext; [|apply path_insert; [assumption | assumption |
      eapply path_remove; eassumption]].
    intros x _. rewrite Hu. destruct Heff as [-> _]. upd_cases.
  - rewrite rev_mid in HP |- *. eapply path_ext; [|apply path_insert;
      [apply NoDup_rev_cut, Hnd' | apply not_in_rev, Hnew' | eapply path_remove; [|exact HP]]].
    + intros x _. rewrite last_rev, hd_rev, Hu. destruct Heff as [_ ->]. reflexivity.
    + rewrite <- rev_mid, <- Permutation_rev. exact Hnd.
  - eapply effect_frame; [exact Heff | auto using upd_is_Some |]. intros q Hq.
    assert (q <> new /\ q <> List.last l1 h /\ q <> List.hd h l2) as (? & ? & ?)
      by (split; [|split]; intros ->; set_solver).
    split; upd_cases.
Qed.

Lemma __list_splice_effect (m : mem) (l p n first last : Z) :
  valid m first -> valid m last -> valid m p -> valid m n ->
  nx m l = Some first -> pv m l = Some last -> p <> last -> n <> first ->
  exists m', __list_splice m l p n = Ok m' /\
    effect m' (upd (upd (nx m) p first) last n) (upd (upd (pv m) n last) first p).
Proof.
  intros ? ? ? ? Hf Hl ? ?. unfold __list_splice.
  rewrite (get_next_ok _ _ _ Hf), (get_prev_ok _ _ _ Hl). simpl res_bind. exec_writes.
Qed.

Lemma path_inner (f : Z -> option Z) (l : Z) (ys : list Z) :
  path f (l :: ys ++ [l]) -> path f ys.
Proof.
  intros H. apply (path_cut f l l ys []) in H as (H & _).
  destruct ys; [exact I | apply H].
Qed.

(** Splicing the entries of a non-empty list at a cut of another list. *)
Lemma __list_splice_ring (m : mem) (h l y : Z) (l1 l2 ys : list Z) :
  ring m h (l1 ++ l2) -> ring m l (y :: ys) ->
  (forall x, x ∈ l :: y :: ys -> x ∉ h :: l1 ++ l2) ->
  exists m', __list_splice m l (List.last l1 h) (List.hd h l2) = Ok m' /\
    ring m' h (l1 ++ (y :: ys) ++ l2) /\ frame m m' ((y :: ys) ++ h :: l1 ++ l2).
Proof.
  intros Hr Hrl Hd. pose proof (last_in h l1) as Hp. pose proof (hd_in h l2) as Hn.
  pose proof (last_in y ys) as Hz.
  pose proof (ring_links m l [] (y :: ys) Hrl) as [Hfirst _]. simpl in Hfirst.
  pose proof Hrl as Hrl'. rewrite <- (app_nil_r (y :: ys)) in Hrl'.
  apply (ring_links m l (y :: ys) []) in Hrl' as [_ Hlast]. simpl List.hd in Hlast.
  assert (List.last (y :: ys) l = List.last ys y) as El.
  { destruct ys as [| w ys _] using rev_ind; [reflexivity|].
    change (y :: ys ++ [w]) with ((y :: ys) ++ [w]). rewrite !last_last. reflexivity. }
  rewrite El in Hlast.
  assert (forall a b, a ∈ h :: l1 ++ l2 -> b ∈ y :: ys -> a <> b) as Hne.
  { intros a b Ha Hb ->. apply (Hd b); set_solver. }
  destruct (__list_splice_effect m l (List.last l1 h) (List.hd h l2) y (List.last ys y))
    as (m' & E & Heff); auto.
  1, 2: eapply ring_valid; [exact Hrl | set_solver].
  1, 2: eapply ring_valid; [exact Hr | set_solver].
  1, 2: apply Hne; set_solver.
  exists m'. split; [exact E|]. destruct Hr as (Hnd & HN & HP), Hrl as (Hndl & HNl & HPl).
  apply NoDup_cons in Hndl as [_ Hndl]. split; [split; [|split]|].
  - rewrite (Permutation_app_swap_app l1), Permutation_middle. apply NoDup_app.
    split; [exact Hndl|]. split; [set_solver | exact Hnd].
  - eapply path_ext; [|apply path_splice; try eassumption].
    + intros. symmetry. apply Heff.
    + set_solver.
    + apply path_inner in HNl. exact HNl.
  - rewrite rev_app_distr in HP. apply path_inner in HPl.
    replace (rev (l1 ++ (y :: ys) ++ l2)) with (rev l2 ++ rev (y :: ys) ++ rev l1)
      by (rewrite (rev_app_distr l1), (rev_app_distr (y :: ys)), app_assoc; reflexivity).
    assert (rev (y :: ys) = List.last ys y :: List.tl (rev (y :: ys))) as Erev.
    { destruct ys as [| w ys _] using rev_ind; [reflexivity|].
      rewrite last_last. simpl. rewrite rev_unit. reflexivity. }
    assert (List.last (List.tl (rev (y :: ys))) (List.last ys y) = y) as Elast.
    { transitivity (List.last (rev (y :: ys)) (List.last ys y)); [|apply last_rev].
      rewrite Erev at 2. destruct (List.tl (rev (y :: ys))); reflexivity. }
    rewrite Erev in HPl |- *.
    eapply path_ext; [|apply path_splice; [apply NoDup_rev_cut, Hnd | | | exact HP | exact HPl]].
    + intros x _. rewrite last_rev, hd_rev, Elast. symmetry. apply Heff.
    + rewrite <- Erev, <- Permutation_rev. exact Hndl.
    + intros x Hx. rewrite <- Erev in Hx. apply not_in_rev, Hd.
      rewrite list_elem_of_In, <- in_rev, <- list_elem_of_In in Hx. set_solver.
  - eapply effect_frame; [exact Heff | auto using upd_is_Some |]. intros q Hq.
    assert (q <> y /\ q <> List.last ys y /\ q <> List.last l1 h /\ q <> List.hd h l2)
      as (? & ? & ? & ?) by (repeat split; intros ->; set_solver).
    split; upd_cases.
Qed.

(** [list_splice] puts the entries of [l] in front of those of [h],
    [list_splice_tail] behind them. *)
Lemma list_splice_ring (m : mem) (h l : Z) (xs ys : list Z) :
  ring m h xs -> ring m l ys -> (forall x, x ∈ l :: ys -> x ∉ h :: xs) ->
  exists m', list_splice m l h = Ok m' /\ ring m' h (ys ++ xs) /\
    frame m m' (ys ++ h :: xs).
Proof.
  intros Hr Hrl Hd. unfold list_splice. rewrite (list_empty_ring _ _ _ Hrl). simpl res_bind.
  destruct ys as [| y ys]; simpl negb; cbv iota.
  - exists m. split; [reflexivity|]. split; [exact Hr | apply frame_refl].
  - rewrite (ring_first _ _ _ Hr). simpl res_bind.
    apply (__list_splice_ring m h l y [] xs ys); assumption.
Qed.

Lemma list_splice_tail_ring (m : mem) (h l : Z) (xs ys : list Z) :
  ring m h xs -> ring m l ys -> (forall x, x ∈ l :: ys -> x ∉ h :: xs) ->
  exists m', list_splice_tail m l h = Ok m' /\ ring m' h (xs ++ ys) /\
    frame m m' (ys ++ h :: xs).
Proof.
  intros Hr Hrl Hd. unfold list_splice_tail.
  rewrite (list_empty_ring _ _ _ Hrl). simpl res_bind.
  destruct ys as [| y ys]; simpl negb; cbv iota.
  - exists m. rewrite app_nil_r. split; [reflexivity|].
    split; [exact Hr | apply frame_refl].
  - rewrite (ring_last _ _ _ Hr). simpl res_bind. rewrite <- (app_nil_r xs) in Hr, Hd.
    destruct (__list_splice_ring m h l y xs [] ys Hr Hrl Hd) as (m' & E & Hr' & Hf).
    rewrite !app_nil_r in Hr', Hf. eauto.
Qed.

(** ** Iteration visits exactly the entries, and terminates *)

Lemma walk_path (get : mem -> Z -> res Z) (f : Z -> option Z) (m : mem) (h : Z) :
  (forall p v, f p = Some v -> get m p = Ok v) ->
  forall (xs : list Z) (fuel : nat),
    h ∉ xs -> path f (xs ++ [h]) -> (length xs <= fuel)%nat ->
    walk get fuel m (List.hd h xs) h = Ok (Some xs).
Proof.
  intros Hget. induction xs as [| x xs IH]; intros fuel Hh Hp Hf; simpl List.hd.
  - destruct fuel; simpl; rewrite Z.eqb_refl; reflexivity.
  - destruct fuel as [| fuel]; simpl in Hf; [lia|]. simpl walk.
    destruct (Z.eqb_spec x h) as [-> |]; [set_solver|].
    simpl app in Hp. rewrite app_hd in Hp. destruct Hp as [Hx Hp]. rewrite <- app_hd in Hp.
    rewrite (Hget _ _ Hx). simpl res_bind. rewrite IH by (try set_solver; auto with lia).
    reflexivity.
Qed.

Lemma list_for_each_ring (m : mem) (h : Z) (xs : list Z) (fuel : nat) :
  ring m h xs -> (length xs <= fuel)%nat ->
  list_for_each fuel m h = Ok (Some xs) /\ list_for_each_prev fuel m h = Ok (Some (rev xs)).
Proof.
  intros Hr Hf. unfold list_for_each, list_for_each_prev.
  rewrite (ring_first _ _ _ Hr), (ring_last _ _ _ Hr), <- (hd_rev h xs). simpl res_bind.
  destruct Hr as (Hnd & HN & HP). apply NoDup_cons in Hnd as [Hh _].
  split.
  - apply (walk_path _ (nx m)); auto using get_next_ok.
    apply (path_ring_cut _ h [] xs). exact HN.
  - apply (walk_path _ (pv m)); auto using get_prev_ok.
    + rewrite list_elem_of_In, <- in_rev, <- list_elem_of_In. exact Hh.
    + apply (path_ring_cut _ h [] (rev xs)). exact HP.
    + rewrite length_rev. exact Hf.
Qed.

(** ** Refinement: a memory of rings implements a store of sequences

    [lop] is one call of a list primitive.  The abstract store maps each list
    head to its sequence of entries. *)
Inductive lop : Type :=
| OpAdd (new head : Z)
| OpAddTail (new head : Z)
| OpDel (entry : Z)
| OpDelInit (entry : Z)
| OpRemoveHead (head : Z)
| OpMoveTail (entry head : Z)
| OpReplace (old new : Z)
| OpRotateLeft (head : Z).

(** The call on the memory, with the value it returns. *)
Definition lop_run (m : mem) (o : lop) : res (option Z * mem) :=
  match o with
  | OpAdd new head => do m <- list_add m new head; Ok (None, m)
  | OpAddTail new head => do m <- list_add_tail m new head; Ok (None, m)
  | OpDel entry => do m <- list_del m entry; Ok (None, m)
  | OpDelInit entry => do m <- list_del_init m entry; Ok (None, m)
  | OpRemoveHead head => __list_remove_head m head
  | OpMoveTail entry head => do m <- list_move_tail m entry head; Ok (None, m)
  | OpReplace old new => do m <- list_replace m old new; Ok (None, m)
  | OpRotateLeft head => do m <- list_rotate_left m head; Ok (None, m)
  end.

Abbreviation lists := (gmap Z (list Z)).

Definition fresh (A : lists) (x : Z) : Prop :=
  forall h xs, A !! h = Some xs -> x ∉ h :: xs.

(** The same call on the abstract store. *)
Inductive lop_spec : lists -> lop -> option Z -> lists -> Prop :=
| spec_add A h xs new :
    A !! h = Some xs -> fresh A new ->
    lop_spec A (OpAdd new h) None (<[h := new :: xs]> A)
| spec_add_tail A h xs new :
    A !! h = Some xs -> fresh A new ->
    lop_spec A (OpAddTail new h) None (<[h := xs ++ [new]]> A)
| spec_del A h l1 e l2 :
    A !! h = Some (l1 ++ e :: l2) ->
    lop_spec A (OpDel e) None (<[h := l1 ++ l2]> A)
| spec_del_init A h l1 e l2 :
    A !! h = Some (l1 ++ e :: l2) ->
    lop_spec A (OpDelInit e) None (<[h := l1 ++ l2]> A)
| spec_remove_head A h xs :
    A !! h = Some xs -> lop_spec A (OpRemoveHead h) (head xs) (<[h := tail xs]> A)
| spec_move_tail A h l1 e l2 :
    A !! h = Some (l1 ++ e :: l2) ->
    lop_spec A (OpMoveTail e h) None (<[h := l1 ++ l2 ++ [e]]> A)
| spec_replace A h l1 old l2 new :
    A !! h = Some (l1 ++ old :: l2) -> fresh A new ->
    lop_spec A (OpReplace old new) None (<[h := l1 ++ new :: l2]> A)
| spec_rotate_left A h xs :
    A !! h = Some xs ->
    lop_spec A (OpRotateLeft h) None
      (<[h := match xs with [] => [] | x :: t => t ++ [x] end]> A).

(** Nodes an operation links into a list must exist. *)
Definition lop_node (o : lop) : option Z :=
  match o with
  | OpAdd new _ | OpAddTail new _ | OpReplace _ new => Some new
  | _ => None
  end.

Definition disjoint_lists (A : lists) : Prop :=
  forall h1 h2 xs1 xs2 x, A !! h1 = Some xs1 -> A !! h2 = Some xs2 ->
    x ∈ h1 :: xs1 -> x ∈ h2 :: xs2 -> h1 = h2.

(** Every list of the store is a ring of the memory, and no node is on two. *)
Definition represents (m : mem) (A : lists) : Prop :=
  (forall h xs, A !! h = Some xs -> ring m h xs) /\ disjoint_lists A.

(** An operation that rewrites the list of [h], touching only its nodes and
    nodes that are on no list. *)
Lemma represents_update (m m' : mem) (A : lists) (h : Z) (xs xs' l : list Z) :
  represents m A -> A !! h = Some xs -> ring m' h xs' -> frame m m' l ->
  (forall x, x ∈ l -> x ∈ h :: xs \/ fresh A x) ->
  (forall x, x ∈ xs' -> x ∈ xs \/ fresh A x) ->
  represents m' (<[h := xs']> A).
Proof.
  intros [Hring Hdisj] Hh Hr' Hf Hl Hxs'. split.
  - intros h1 xs1. rewrite lookup_insert. case_decide as E; intros H1; simplify_eq; auto.
    eapply ring_frame; [apply Hring, H1 | exact Hf |]. intros x Hx Hin.
    destruct (Hl x Hin) as [Hin' | Hfr]; [|exact (Hfr _ _ H1 Hx)].
    apply E. eapply Hdisj; eauto.
  - intros h1 h2 xs1 xs2 x. rewrite !lookup_insert.
    repeat case_decide; intros H1 H2 Hx1 Hx2; simplify_eq; auto; [| |eapply Hdisj; eauto].
    + apply elem_of_cons in Hx1 as [-> | Hx1]; [eapply Hdisj; eauto; set_solver|].
      destruct (Hxs' x Hx1) as [Hin | Hfr]; [|destruct (Hfr _ _ H2 Hx2)].
      eapply Hdisj; eauto. set_solver.
    + apply elem_of_cons in Hx2 as [-> | Hx2]; [eapply Hdisj; eauto; set_solver|].
      destruct (Hxs' x Hx2) as [Hin | Hfr]; [|destruct (Hfr _ _ H1 Hx1)].
      eapply Hdisj; eauto. set_solver.
Qed.

(** Every abstract step is matched by the call: it does not fault, returns the
    same value and leaves a memory that represents the new store. *)
Lemma lop_simulation (m : mem) (A A' : lists) (o : lop) (r : option Z) :
  represents m A -> lop_spec A o r A' ->
  (forall x, lop_node o = Some x -> valid m x) ->
  exists m', lop_run m o = Ok (r, m') /\ represents m' A' /\
    (forall q, valid m q -> valid m' q).
Proof.
  intros Hrep Hs Hn. pose proof (proj1 Hrep) as Hring.
  inversion Hs; subst; simpl lop_run; pose proof (Hring _ _ ltac:(eassumption)) as Hr.
  - destruct (list_add_ring m h new xs Hr) as (m' & -> & Hr' & Hf); [eauto | auto |].
    exists m'. split; [reflexivity|]. split; [|apply Hf].
    eapply represents_update; try eassumption; set_solver.
  - destruct (list_add_tail_ring m h new xs Hr) as (m' & -> & Hr' & Hf); [eauto | auto |].
    exists m'. split; [reflexivity|]. split; [|apply Hf].
    eapply represents_update; try eassumption; set_solver.
  - destruct (list_del_ring m h e l1 l2 Hr) as (m' & -> & Hr' & _ & Hf).
    exists m'. split; [reflexivity|]. split; [|apply Hf].
    eapply represents_update; try eassumption; set_solver.
  - destruct (list_del_init_ring m h e l1 l2 Hr) as (m' & -> & Hr' & _ & Hf).
    exists m'. split; [reflexivity|]. split; [|apply Hf].
    eapply represents_update; try eassumption; set_solver.
  - destruct (__list_remove_head_ring m h xs Hr) as (m' & -> & Hr' & Hf).
    exists m'. split; [reflexivity|]. split; [|apply Hf].
    eapply represents_update; try eassumption; [set_solver|].
    intros x Hx. left. destruct xs; set_solver.
  - destruct (list_move_tail_ring m h e l1 l2 Hr) as (m' & -> & Hr' & Hf).
    exists m'. split; [reflexivity|]. split; [|apply Hf].
    eapply represents_update; try eassumption; set_solver.
  - destruct (list_replace_ring m h old new l1 l2 Hr) as (m' & -> & Hr' & Hf);
      [eauto | auto |].
    exists m'. split; [reflexivity|]. split; [|apply Hf].
    eapply represents_update; try eassumption; set_solver.
  - destruct (list_rotate_left_ring m h xs Hr) as (m' & -> & Hr' & Hf).
    exists m'. split; [reflexivity|]. split; [|apply Hf].
    eapply represents_update; try eassumption; [set_solver|].
    intros x Hx. left. destruct xs; set_solver.
Qed.

(** Sequences of calls, with the values returned. *)
Fixpoint lops_run (m : mem) (ops : list lop) : res (list (option Z) * mem) :=
  match ops with
  | [] => Ok ([], m)
  | o :: ops =>
      do ' (r, m) <- lop_run m o;
      do ' (rs, m) <- lops_run m ops;
      Ok (r :: rs, m)
  end.

Inductive lops_spec : lists -> list lop -> list (option Z) -> lists -> Prop :=
| specs_nil A : lops_spec A [] [] A
| specs_cons A A1 A2 o ops r rs :
    lop_spec A o r A1 -> lops_spec A1 ops rs A2 ->
    lops_spec A (o :: ops) (r :: rs) A2.

(** C1: the pointer operations of list.h implement sequences.  Take any memory
    whose list heads represent a store of disjoint sequences, and any sequence
    of calls of list_add, list_add_tail, list_del, list_del_init,
    list_remove_head, list_move_tail, list_replace and list_rotate_left that is
    legal on the store (entries deleted or moved are on a list, entries added
    are existing nodes that are on none).  Then no call follows an invalid
    pointer, every call returns what it returns on sequences, and the final
    memory represents the final store: forward and backward links agree, and
    all other lists are untouched. *)
Theorem list_ops_refine (m : mem) (A A' : lists) (ops : list lop) (rs : list (option Z)) :
  represents m A -> lops_spec A ops rs A' ->
  (forall o x, o ∈ ops -> lop_node o = Some x -> valid m x) ->
  exists m', lops_run m ops = Ok (rs, m') /\ represents m' A'.
Proof.
  intros Hrep Hs. revert m Hrep.
  induction Hs as [A | A A1 A2 o ops r rs Ho Hs IH]; intros m Hrep Hn.
  - exists m. split; [reflexivity | exact Hrep].
  - destruct (lop_simulation m A A1 o r Hrep Ho) as (m1 & E1 & Hrep1 & Hv1).
    { intros x. apply Hn. set_solver. }
    destruct (IH m1 Hrep1) as (m2 & E2 & Hrep2).
    { intros o' x Ho' Hx. apply Hv1, (Hn o' x); [set_solver | exact Hx]. }
    exists m2. split; [|exact Hrep2]. simpl. rewrite E1. simpl. rewrite E2. reflexivity.
Qed.

(** An empty list headed at 16 and two unlinked nodes at 32 and 48. *)
Definition mem_example : mem :=
  <[16 := ListNode 16 16]> (<[32 := ListNode 0 0]> (<[48 := ListNode 0 0]> ∅)).

Lemma mem_example_represents : represents mem_example {[16 := []]}.
Proof.
  split.
  - intros h xs Hh. apply lookup_singleton_Some in Hh as [<- <-].
    split; [apply NoDup_singleton | split; repeat constructor].
  - intros h1 h2 xs1 xs2 x H1 H2 _ _.
    apply lookup_singleton_Some in H1 as [<- _].
    apply lookup_singleton_Some in H2 as [<- _]. reflexivity.
Qed.

(** Two entries are queued and the first is taken: first in, first out. *)
Lemma list_ops_refine_witness :
  exists m', lops_run mem_example [OpAddTail 32 16; OpAddTail 48 16; OpRemoveHead 16]
             = Ok ([None; None; Some 32], m') /\
    represents m' (<[16 := [48]]> (<[16 := [32; 48]]> (<[16 := [32]]> {[16 := []]}))).
Proof.
  apply (list_ops_refine mem_example {[16 := []]}).
  - exact mem_example_represents.
  - assert (fresh {[16 := []]} 32) as F1.
    { intros h xs Hh. apply lookup_singleton_Some in Hh as [<- <-]. set_solver. }
    assert (fresh (<[16 := [32]]> {[16 := []]}) 48) as F2.
    { intros h xs. rewrite insert_singleton_eq. intros Hh.
      apply lookup_singleton_Some in Hh as [<- <-]. set_solver. }
    eapply specs_cons; [apply (spec_add_tail _ 16 []); [reflexivity | exact F1]|].
    eapply specs_cons; [apply (spec_add_tail _ 16 [32]); [reflexivity | exact F2]|].
    eapply specs_cons; [apply (spec_remove_head _ 16 [32; 48]); reflexivity|].
    constructor.
  - intros o x Ho Hx. repeat (apply elem_of_cons in Ho as [-> | Ho]; [injection Hx as <- || discriminate Hx|]).
    all: try (eexists; reflexivity). set_solver.
Defined.
