(* ===== verification/Hlist.v ===== *)
(** * Hash chains and hash tables (include/kernel/list.h, include/kernel/hashtable.h)

    The inode table, the buffer cache and the table of POSIX timers are arrays of hash
    chains: lists with a single-pointer head, whose nodes point back to the pointer
    that points to them.  This file models the chain and table operations on a memory
    of words, where a pointer to a pointer may lead into a head or into a node, and
    proves that a table implements the sequence of nodes with their keys that the
    files of those components work with. *)

From S2P Require Import Prelude Bitops ListHead.

(** ** Memory *)

(** A word per address.  [struct hlist_head] is the word [first]; [struct hlist_node]
    at [n] has [next] at [n] and [pprev] at [n + 4]; [NULL] is 0. *)
Abbreviation wmem := (gmap Z Z).

Definition rd (m : wmem) (a : Z) : res Z := match m !! a with Some w => Ok w | None => Fault end.

Definition wr (m : wmem) (a w : Z) : res wmem := match m !! a with Some _ => Ok (<[a := w]> m) | None => Fault end.

Definition pprev (n : Z) : Z := n + 4.

(** ** Chains *)

Definition INIT_HLIST_HEAD (m : wmem) (h : Z) : res wmem := wr m h 0.

Definition INIT_HLIST_NODE (m : wmem) (h : Z) : res wmem := do m <- wr m h 0; wr m (pprev h) 0.

Definition hlist_unhashed (m : wmem) (h : Z) : res bool := do p <- rd m (pprev h); Ok (p =? 0).

Definition hlist_empty (m : wmem) (h : Z) : res bool := do f <- rd m h; Ok (f =? 0).

Definition __hlist_del (m : wmem) (n : Z) : res wmem :=
  do next <- rd m n;
  do pp <- rd m (pprev n);
  do m <- wr m pp next;
  if negb (next =? 0) then wr m (pprev next) pp else Ok m.

Definition hlist_del (m : wmem) (n : Z) : res wmem :=
  do m <- __hlist_del m n;
  do m <- wr m n LIST_POISON1;
  wr m (pprev n) LIST_POISON2.

Definition hlist_del_init (m : wmem) (n : Z) : res wmem :=
  do u <- hlist_unhashed m n;
  if negb u then do m <- __hlist_del m n; INIT_HLIST_NODE m n else Ok m.

Definition hlist_add_head (m : wmem) (n h : Z) : res wmem :=
  do first <- rd m h;
  do m <- wr m n first;
  do m <- (if negb (first =? 0) then wr m (pprev first) n else Ok m);
  do m <- wr m h n;
  wr m (pprev n) h.

Definition hlist_add_before (m : wmem) (n next : Z) : res wmem :=
  do p <- rd m (pprev next);
  do m <- wr m (pprev n) p;
  do m <- wr m n next;
  do m <- wr m (pprev next) n;
  do p <- rd m (pprev n);
  wr m p n.

Definition hlist_add_after (m : wmem) (n next : Z) : res wmem :=
  do nn <- rd m n;
  do m <- wr m next nn;
  do m <- wr m n next;
  do m <- wr m (pprev next) n;
  do nn <- rd m next;
  if negb (nn =? 0) then do nn <- rd m next; wr m (pprev nn) next else Ok m.

Definition hlist_add_fake (m : wmem) (n : Z) : res wmem := wr m (pprev n) n.

Definition hlist_move_list (m : wmem) (old new : Z) : res wmem :=
  do f <- rd m old;
  do m <- wr m new f;
  do nf <- rd m new;
  do m <- (if negb (nf =? 0) then do nf <- rd m new; wr m (pprev nf) new else Ok m);
  wr m old 0.

(** The loop of [hlist_for_each] and [hlist_for_each_entry] from [pos] on: the nodes
    visited, [None] out of fuel. *)
Fixpoint hlist_for_each (fuel : nat) (m : wmem) (pos : Z) : res (option (list Z)) :=
  match fuel with
  | O => Ok None
  | S fuel =>
      if pos =? 0 then Ok (Some [])
      else
        do next <- rd m pos;
        do r <- hlist_for_each fuel m next;
        Ok (cons pos <$> r)
  end.

(** The loop of [hlist_for_each_entry_safe] with a body: the successor is read before
    the body runs. *)
Fixpoint hlist_for_each_safe (fuel : nat) (body : wmem -> Z -> res wmem) (m : wmem) (pos : Z) : res (option wmem) :=
  match fuel with
  | O => Ok None
  | S fuel =>
      if pos =? 0 then Ok (Some m)
      else
        do n <- rd m pos;
        do m <- body m pos;
        hlist_for_each_safe fuel body m n
  end.

(** ** Tables *)

(** [name[1 << bits]] at address [ht]; the head of bucket [i]. *)
Definition head (ht i : Z) : Z := ht + 4 * i.

Definition HASH_SIZE (bits : Z) : nat := Z.to_nat (2 ^ bits).

(** Keys of at most four bytes; [hash_long] is the same function on this machine. *)
Definition hash_min (val bits : Z) : Z := hash_32 val bits.

Fixpoint hash_init_loop (n : nat) (m : wmem) (h : Z) : res wmem :=
  match n with
  | O => Ok m
  | S n => do m <- INIT_HLIST_HEAD m h; hash_init_loop n m (h + 4)
  end.

Definition __hash_init (m : wmem) (ht : Z) (sz : nat) : res wmem := hash_init_loop sz m ht.

Definition hash_add (m : wmem) (ht bits node key : Z) : res wmem :=
  hlist_add_head m node (head ht (hash_min key bits)).

Definition hash_hashed (m : wmem) (node : Z) : res bool := do u <- hlist_unhashed m node; Ok (negb u).

Fixpoint hash_empty_loop (n : nat) (m : wmem) (h : Z) : res bool :=
  match n with
  | O => Ok true
  | S n => do e <- hlist_empty m h; if negb e then Ok false else hash_empty_loop n m (h + 4)
  end.

Definition __hash_empty (m : wmem) (ht : Z) (sz : nat) : res bool := hash_empty_loop sz m ht.

Definition hash_del (m : wmem) (node : Z) : res wmem := hlist_del_init m node.

Definition hash_for_each_possible (fuel : nat) (m : wmem) (ht bits key : Z) : res (option (list Z)) :=
  do f <- rd m (head ht (hash_min key bits)); hlist_for_each fuel m f.

(** The buckets from head [h] on; a loop whose body does not leave ends with the
    cursor [NULL] in every bucket. *)
Fixpoint hash_for_each (n fuel : nat) (m : wmem) (h : Z) : res (option (list Z)) :=
  match n with
  | O => Ok (Some [])
  | S n =>
      do f <- rd m h;
      do r <- hlist_for_each fuel m f;
      match r with
      | None => Ok None
      | Some l => do r <- hash_for_each n fuel m (h + 4); Ok (app l <$> r)
      end
  end.

Fixpoint hash_for_each_safe (n fuel : nat) (body : wmem -> Z -> res wmem) (m : wmem) (h : Z) : res (option wmem) :=
  match n with
  | O => Ok (Some m)
  | S n =>
      do f <- rd m h;
      do r <- hlist_for_each_safe fuel body m f;
      match r with
      | None => Ok None
      | Some m => hash_for_each_safe n fuel body m (h + 4)
      end
  end.

(** ** Chains as sequences *)

(** The nodes [l] in order from the pointer at [a] on. *)
Fixpoint seg (m : wmem) (a : Z) (l : list Z) : Prop :=
  match l with
  | [] => True
  | x :: l => x <> 0 /\ m !! a = Some x /\ m !! pprev x = Some a /\ seg m x l
  end.

(** The address of the pointer behind [l]. *)
Fixpoint tail_of (a : Z) (l : list Z) : Z := match l with [] => a | x :: l => tail_of x l end.

(** The chain whose first pointer is the word at [a]. *)
Definition chain (m : wmem) (a : Z) (l : list Z) : Prop := seg m a l /\ m !! tail_of a l = Some 0.

(** Nodes apart from each other and from the heads. *)
Record apart (hs ns : list Z) : Prop := {
  apart_null p : p ∈ ns -> p <> 0;
  apart_nodes p q : p ∈ ns -> q ∈ ns -> pprev p <> q;
  apart_heads h p : h ∈ hs -> p ∈ ns -> h <> p /\ h <> pprev p;
}.

(** [m'] has the words of [m], and only those at [l] may differ. *)
Definition only (m m' : wmem) (l : list Z) : Prop :=
  (forall x, x ∉ l -> m' !! x = m !! x) /\ (forall x, is_Some (m !! x) -> is_Some (m' !! x)).

Lemma rd_ok (m : wmem) (a w : Z) : m !! a = Some w -> rd m a = Ok w.
Proof. unfold rd. intros ->. reflexivity. Qed.

Lemma wr_ok (m : wmem) (a w : Z) : is_Some (m !! a) -> wr m a w = Ok (<[a := w]> m).
Proof. unfold wr. intros [v ->]. reflexivity. Qed.

Lemma insert_some (m : wmem) (a w x : Z) : is_Some (m !! x) -> is_Some (<[a := w]> m !! x).
Proof. intros H. rewrite lookup_insert. case_decide; [eauto | exact H]. Qed.

#[local] Hint Resolve insert_some : core.

Lemma only_insert (m m' : wmem) (a w : Z) (l : list Z) : only m m' l -> a ∈ l -> only m (<[a := w]> m') l.
Proof.
  intros [H1 H2] Ha. split; [| auto]. intros x Hx. rewrite lookup_insert_ne by congruence. exact (H1 x Hx).
Qed.

Lemma only_refl (m : wmem) (l : list Z) : only m m l.
Proof. split; auto. Qed.

Lemma tail_of_app (a : Z) (l1 l2 : list Z) : tail_of a (l1 ++ l2) = tail_of (tail_of a l1) l2.
Proof. revert a. induction l1 as [| x l1 IH]; intros a; [reflexivity | apply IH]. Qed.

Lemma tail_of_in (a : Z) (l : list Z) : tail_of a l ∈ a :: l.
Proof. revert a. induction l as [| x l IH]; intros a; [left | right; apply IH]. Qed.

Lemma seg_app (m : wmem) (a : Z) (l1 l2 : list Z) : seg m a (l1 ++ l2) <-> seg m a l1 /\ seg m (tail_of a l1) l2.
Proof. revert a. induction l1 as [| x l1 IH]; intros a; simpl; [tauto|]. rewrite IH. tauto. Qed.

Lemma chain_app (m : wmem) (a : Z) (l1 l2 : list Z) : chain m a (l1 ++ l2) <-> seg m a l1 /\ chain m (tail_of a l1) l2.
Proof. unfold chain. rewrite seg_app, tail_of_app. tauto. Qed.

Lemma chain_cons (m : wmem) (a x : Z) (l : list Z) :
  chain m a (x :: l) <-> x <> 0 /\ m !! a = Some x /\ m !! pprev x = Some a /\ chain m x l.
Proof. unfold chain. simpl. tauto. Qed.

(** The first pointer of a chain. *)
Lemma chain_first (m : wmem) (a : Z) (l : list Z) : chain m a l -> m !! a = Some (List.hd 0 l).
Proof. destruct l; [intros [_ H]; exact H | intros [H _]; simpl in *; tauto]. Qed.

(** A segment does not depend on the pointer behind it. *)
Lemma seg_agree (m m' : wmem) (a : Z) (l : list Z) :
  seg m a l -> NoDup (a :: l) -> (forall y, y ∈ a :: l -> y <> tail_of a l -> m' !! y = m !! y) ->
  (forall x, x ∈ l -> m' !! pprev x = m !! pprev x) -> seg m' a l.
Proof.
  revert a. induction l as [| x l IH]; intros a; [auto|]. intros (H1 & H2 & H3 & H4) Hnd Hy Hp.
  pose proof Hnd as [Ha Hnd']%NoDup_cons. simpl. split; [exact H1|]. split; [| split].
  - rewrite Hy; [exact H2 | left |]. intros E. apply Ha. cbn [tail_of] in E. rewrite E. apply tail_of_in.
  - rewrite Hp; [exact H3 | left].
  - apply (IH x H4 Hnd'); [intros y Hin; apply Hy; right; exact Hin | intros y Hin; apply Hp; right; exact Hin].
Qed.

Lemma chain_agree (m m' : wmem) (a : Z) (l : list Z) :
  chain m a l -> m' !! a = m !! a -> (forall x, x ∈ l -> m' !! x = m !! x /\ m' !! pprev x = m !! pprev x) -> chain m' a l.
Proof.
  revert a. induction l as [| x l IH]; intros a; [unfold chain; simpl; intros [_ H] E _; split; [exact I | congruence]|].
  rewrite !chain_cons. intros (H1 & H2 & H3 & H4) Ha Hl. destruct (Hl x (list_elem_of_here _ _)) as [Hx Hp].
  rewrite Ha, Hp. repeat split; try assumption; apply (IH x H4 Hx); intros y Hy; apply Hl; right; exact Hy.
Qed.

Lemma chain_words (m : wmem) (a : Z) (l : list Z) (x : Z) : chain m a l -> x ∈ l -> is_Some (m !! x) /\ is_Some (m !! pprev x).
Proof.
  revert a. induction l as [| y l IH]; intros a Hc Hx; [apply not_elem_of_nil in Hx; destruct Hx|].
  apply chain_cons in Hc as (_ & _ & H3 & H4). apply elem_of_cons in Hx as [-> | Hx]; [| exact (IH y H4 Hx)].
  rewrite (chain_first _ _ _ H4), H3. eauto.
Qed.

Lemma hd_node (l : list Z) : l = [] \/ (List.hd 0 l ∈ l).
Proof. destruct l; [auto | right; left]. Qed.

(** ** What one operation does to a chain *)

Section ops.

(** The chain with its head [h] and the nodes around it. *)
Context (hs ns : list Z) (Hap : apart hs ns) (h : Z) (Hh : h ∈ hs).

Lemma head_not_node (p : Z) : p ∈ ns -> h <> p /\ h <> pprev p.
Proof. exact (apart_heads _ _ Hap h p Hh). Qed.

Lemma tail_not_pprev (l : list Z) (p : Z) : (forall x, x ∈ l -> x ∈ ns) -> p ∈ ns -> pprev p <> tail_of h l.
Proof.
  intros Hl Hp E. pose proof (tail_of_in h l) as Ht. rewrite <- E in Ht. apply elem_of_cons in Ht as [Ht | Ht].
  - destruct (head_not_node p Hp) as [_ H]. congruence.
  - exact (apart_nodes _ _ Hap p (pprev p) Hp (Hl _ Ht) eq_refl).
Qed.

(** Nodes around a place of the chain. *)
Record around (l1 l2 : list Z) : Prop := {
  around_l x : x ∈ l1 -> x ∈ ns;
  around_r x : x ∈ l2 -> x ∈ ns;
  around_lr x : x ∈ l1 -> x ∉ l2;
  around_nd : NoDup (h :: l1);
  around_nd2 : NoDup l2;
}.

Lemma around_app (l1 l2 : list Z) : (forall x, x ∈ l1 ++ l2 -> x ∈ ns) -> NoDup (l1 ++ l2) -> around l1 l2.
Proof.
  intros Hl Hnd. apply NoDup_app in Hnd as (H1 & H12 & H2). split; auto.
  - intros x Hx. apply Hl, elem_of_app. auto.
  - intros x Hx. apply Hl, elem_of_app. auto.
  - apply NoDup_cons. split; [| exact H1]. intros Hin. destruct (head_not_node h); [apply Hl, elem_of_app; auto | congruence].
Qed.

Lemma around_drop (l1 l2 : list Z) (n : Z) : around l1 (n :: l2) -> n ∈ ns /\ n ∉ l1 /\ n ∉ l2 /\ around l1 l2.
Proof.
  intros [A1 A2 A3 A4 A5]. apply NoDup_cons in A5 as [A5 A6]. split; [apply A2; left|].
  split; [intros Hn; exact (A3 n Hn (list_elem_of_here _ _))|]. split; [exact A5|]. split; auto.
  - intros x Hx. apply A2. right. exact Hx.
  - intros x Hx Hy. apply (A3 x Hx). right. exact Hy.
Qed.

Lemma around_tail (l1 l2 : list Z) (y : Z) : around l1 l2 -> (y ∈ l2 -> y <> tail_of h l1) /\ (y ∈ ns -> pprev y <> tail_of h l1).
Proof.
  intros A. split.
  - intros Hy E. pose proof (tail_of_in h l1) as Ht. rewrite <- E in Ht. apply elem_of_cons in Ht as [Ht | Ht].
    + destruct (head_not_node y (around_r _ _ A y Hy)). congruence.
    + exact (around_lr _ _ A y Ht Hy).
  - intros Hy. apply tail_not_pprev; [exact (around_l _ _ A) | exact Hy].
Qed.

(** Changing the pointer behind [l1] and the node words of others keeps [l1]. *)
Lemma seg_keep (m m' : wmem) (l1 l2 ys : list Z) :
  around l1 l2 -> seg m h l1 -> only m m' (tail_of h l1 :: ys) ->
  (forall y, y ∈ ys -> y ∉ h :: l1 /\ forall x, x ∈ l1 -> pprev x <> y) -> seg m' h l1.
Proof.
  intros A Hs [Ho _] Hys. apply (seg_agree m); [exact Hs | exact (around_nd _ _ A) | |].
  - intros y Hy Hne. apply Ho. intros Hin. apply elem_of_cons in Hin as [Hin | Hin]; [congruence|]. destruct (Hys y Hin). contradiction.
  - intros x Hx. apply Ho. intros Hin. apply elem_of_cons in Hin as [Hin | Hin].
    + exact (proj2 (around_tail _ _ x A) (around_l _ _ A x Hx) Hin).
    + exact (proj2 (Hys _ Hin) x Hx eq_refl).
Qed.

(** The back pointer of a node behind [l1] is no word of [l1]. *)
Lemma pprev_not_left (l1 : list Z) (y : Z) :
  (forall x, x ∈ l1 -> x ∈ ns) -> y ∈ ns -> y ∉ l1 -> pprev y ∉ h :: l1 /\ forall x, x ∈ l1 -> pprev x <> pprev y.
Proof.
  intros Hl Hy Hn. split.
  - intros Hin. apply elem_of_cons in Hin as [Hin | Hin]; [destruct (head_not_node y Hy); congruence|].
    exact (apart_nodes _ _ Hap y _ Hy (Hl _ Hin) eq_refl).
  - intros x Hx E. apply Hn. replace y with x by (unfold pprev in E; lia). exact Hx.
Qed.

(** Unlinking the node between [l1] and [l2]. *)
Lemma __hlist_del_chain (m : wmem) (n : Z) (l1 l2 : list Z) :
  around l1 (n :: l2) -> chain m h (l1 ++ n :: l2) ->
  exists m' ys, __hlist_del m n = Ok m' /\ chain m' h (l1 ++ l2) /\ only m m' (tail_of h l1 :: ys) /\ (forall y, y ∈ ys -> exists x, x ∈ l2 /\ y = pprev x).
Proof.
  intros An Hc. destruct (around_drop _ _ _ An) as (Hn & Hn1 & Hn2 & A).
  apply chain_app in Hc as [Hs Hc]. apply chain_cons in Hc as (Hn0 & Ht & Hpp & Hc). set (t := tail_of h l1) in *.
  unfold __hlist_del. rewrite (rd_ok _ _ _ (chain_first _ _ _ Hc)). cbn [res_bind]. rewrite (rd_ok _ _ _ Hpp). cbn [res_bind].
  rewrite wr_ok by eauto. cbn [res_bind]. destruct l2 as [| y l2].
  - cbn [List.hd negb Z.eqb]. exists (<[t := 0]> m), []. split; [reflexivity|].
    assert (only m (<[t := 0]> m) [t]) as Ho by (apply only_insert; [apply only_refl | left]).
    split; [| split; [exact Ho | intros y Hy; apply not_elem_of_nil in Hy; destruct Hy]].
    apply chain_app. fold t. split; [| split; [exact I | apply lookup_insert_eq]].
    apply (seg_keep m _ l1 [] [] A Hs Ho). intros y Hy. apply not_elem_of_nil in Hy. destruct Hy.
  - cbn [List.hd]. apply chain_cons in Hc as (Hy0 & Hny & Hyp & Hc). rewrite (proj2 (Z.eqb_neq y 0) Hy0). cbn [negb].
    rewrite wr_ok by eauto. destruct (around_drop _ _ _ A) as (Hy & Hy1 & Hy2 & A').
    set (m' := <[pprev y := t]> (<[t := y]> m)).
    assert (only m m' [t; pprev y]) as Ho by (repeat apply only_insert; [apply only_refl | left | right; left]).
    exists m', [pprev y]. split; [reflexivity|]. split; [| split; [exact Ho | intros z Hz; apply list_elem_of_singleton in Hz as ->; exists y; split; [left | reflexivity]]].
    pose proof (proj2 (around_tail _ _ y A) Hy) as Hyt. fold t in Hyt.
    apply chain_app. fold t. split.
    + apply (seg_keep m _ l1 (y :: l2) [pprev y] A Hs Ho). intros z Hz. apply list_elem_of_singleton in Hz as ->.
      apply pprev_not_left; [exact (around_l _ _ A) | exact Hy | exact Hy1].
    + apply chain_cons. unfold m' at 1 2. rewrite (lookup_insert_ne _ (pprev y) t) by exact Hyt. rewrite !lookup_insert_eq.
      split; [exact Hy0|]. split; [reflexivity|]. split; [reflexivity|]. apply (chain_agree m); [exact Hc | |].
      * apply Ho. rewrite !not_elem_of_cons. split; [apply (around_tail _ _ y A); left | split; [|apply not_elem_of_nil]].
        apply not_eq_sym, (apart_nodes _ _ Hap); exact Hy.
      * intros x Hx. pose proof (around_r _ _ A' x Hx) as Hxn. split; apply Ho; rewrite !not_elem_of_cons; (split; [| split; [| apply not_elem_of_nil]]).
        -- apply (around_tail _ _ x A'), Hx.
        -- apply not_eq_sym, (apart_nodes _ _ Hap); assumption.
        -- apply (around_tail _ _ x A'), Hxn.
        -- unfold pprev. intros E. apply Hy2. replace y with x by lia. exact Hx.
Qed.

(** The words that linking [n] between [l1] and [l2] changes. *)
Definition link_words (l1 l2 : list Z) (n : Z) : list Z :=
  tail_of h l1 :: n :: pprev n :: match l2 with [] => [] | y :: _ => [pprev y] end.

(** Linking [n] between [l1] and [l2]. *)
Lemma link_chain (m m' : wmem) (n : Z) (l1 l2 : list Z) :
  around l1 (n :: l2) -> chain m h (l1 ++ l2) -> only m m' (link_words l1 l2 n) ->
  m' !! tail_of h l1 = Some n -> m' !! pprev n = Some (tail_of h l1) -> m' !! n = Some (List.hd 0 l2) ->
  (forall y l, l2 = y :: l -> m' !! pprev y = Some n) -> chain m' h (l1 ++ n :: l2).
Proof.
  intros An Hc Ho Ht Hp Hn Hy. destruct (around_drop _ _ _ An) as (Hin & Hn1 & Hn2 & A).
  apply chain_app in Hc as [Hs Hc]. apply chain_app. split.
  - apply (seg_keep m _ l1 _ _ A Hs Ho). pose proof (pprev_not_left l1 n (around_l _ _ A) Hin Hn1) as Hpn.
    assert (n ∉ h :: l1) as Hnh by (rewrite not_elem_of_cons; split; [destruct (head_not_node n Hin); congruence | exact Hn1]).
    intros y Hy'. apply elem_of_cons in Hy' as [-> | Hy'].
    + split; [exact Hnh|]. intros x Hx. apply (apart_nodes _ _ Hap); [exact (around_l _ _ A x Hx) | exact Hin].
    + apply elem_of_cons in Hy' as [-> | Hy']; [exact Hpn|]. destruct l2 as [| z l2]; [apply not_elem_of_nil in Hy'; destruct Hy'|].
      apply list_elem_of_singleton in Hy' as ->. destruct (around_drop _ _ _ A) as (Hz & Hz1 & _ & _).
      exact (pprev_not_left l1 z (around_l _ _ A) Hz Hz1).
  - apply chain_cons. split; [exact (apart_null _ _ Hap n Hin)|]. split; [exact Ht|]. split; [exact Hp|].
    destruct l2 as [| y l2]; [split; [exact I | exact Hn]|]. apply chain_cons in Hc as (Hy0 & _ & _ & Hc).
    apply chain_cons. split; [exact Hy0|]. split; [exact Hn|]. split; [exact (Hy y l2 eq_refl)|].
    destruct (around_drop _ _ _ A) as (Hyin & Hy1 & Hy2 & A').
    assert (forall x, x ∈ y :: l2 -> m' !! x = m !! x) as Hw.
    { intros x Hx. pose proof (around_r _ _ A x Hx) as Hxn. apply Ho. unfold link_words. rewrite !not_elem_of_cons.
      split; [apply (around_tail _ _ x A), Hx|]. split; [congruence|].
      split; [| split; [| apply not_elem_of_nil]]; apply not_eq_sym, (apart_nodes _ _ Hap); assumption. }
    apply (chain_agree m); [exact Hc | apply Hw; left |]. intros x Hx. split; [apply Hw; right; exact Hx|].
    pose proof (around_r _ _ A' x Hx) as Hxn. apply Ho. unfold link_words. rewrite !not_elem_of_cons.
    split; [apply (around_tail _ _ x A), Hxn|]. split; [apply (apart_nodes _ _ Hap); assumption|].
    assert (x <> n) by (intros ->; apply Hn2; right; exact Hx). assert (x <> y) by congruence.
    split; [| split; [| apply not_elem_of_nil]]; unfold pprev; lia.
Qed.

(** Reads and writes at words known to differ. *)
Lemma node_neq (p q : Z) : p ∈ ns -> q ∈ ns -> pprev p <> q /\ q <> pprev p.
Proof. intros Hp Hq. pose proof (apart_nodes _ _ Hap p q Hp Hq). split; congruence. Qed.

Lemma hlist_add_head_chain (m : wmem) (n : Z) (l : list Z) :
  around [] (n :: l) -> chain m h l -> is_Some (m !! n) -> is_Some (m !! pprev n) ->
  exists m', hlist_add_head m n h = Ok m' /\ chain m' h (n :: l) /\ only m m' (link_words [] l n).
Proof.
  intros An Hc Hn Hpn. destruct (around_drop _ _ _ An) as (Hin & _ & Hnl & A). destruct (head_not_node n Hin) as [N1 N2].
  unfold hlist_add_head. pose proof (chain_first _ _ _ Hc) as Hf. rewrite (rd_ok _ _ _ Hf). cbn [res_bind].
  rewrite wr_ok by exact Hn. cbn [res_bind]. destruct (node_neq n n Hin Hin) as [N3 N4]. destruct l as [| y l].
  - cbn [List.hd Z.eqb negb res_bind]. rewrite wr_ok by eauto. cbn [res_bind]. rewrite wr_ok by auto. eexists. split; [reflexivity|].
    assert (only m (<[pprev n := h]> (<[h := n]> (<[n := 0]> m))) (link_words [] [] n)) as Ho
      by (repeat apply only_insert; [apply only_refl | right; left | left | right; right; left]).
    split; [| exact Ho]. apply (link_chain m _ n [] []); [exact An | exact Hc | exact Ho | | | |]; cbn [tail_of List.hd].
    + rewrite lookup_insert_ne by congruence. apply lookup_insert_eq.
    + apply lookup_insert_eq.
    + rewrite !lookup_insert_ne by congruence. apply lookup_insert_eq.
    + discriminate.
  - cbn [List.hd] in *. pose proof Hc as (Hy0 & _ & Hyp & Hc')%chain_cons. rewrite (proj2 (Z.eqb_neq y 0) Hy0). cbn [negb].
    destruct (around_drop _ _ _ A) as (Hy & _ & _ & _). destruct (head_not_node y Hy) as [Y1 Y2]. destruct (node_neq n y Hin Hy) as [Y3 Y4].
    destruct (node_neq y n Hy Hin) as [Y5 Y6]. assert (pprev y <> pprev n) as Y7 by (unfold pprev; intros E; apply Hnl; replace n with y by lia; left).
    rewrite wr_ok by eauto. cbn [res_bind]. rewrite wr_ok by eauto. cbn [res_bind]. rewrite wr_ok by auto. eexists. split; [reflexivity|].
    match goal with |- chain ?m' _ _ /\ _ => assert (only m m' (link_words [] (y :: l) n)) as Ho
      by (repeat apply only_insert; [apply only_refl | right; left | right; right; right; left | left | right; right; left]) end.
    split; [| exact Ho]. apply (link_chain m _ n [] (y :: l)); [exact An | exact Hc | exact Ho | | | |]; cbn [tail_of List.hd].
    + rewrite lookup_insert_ne by congruence. apply lookup_insert_eq.
    + apply lookup_insert_eq.
    + rewrite !lookup_insert_ne by congruence. apply lookup_insert_eq.
    + intros z l' [= <- <-]. rewrite !lookup_insert_ne by congruence. apply lookup_insert_eq.
Qed.

Lemma hlist_add_before_chain (m : wmem) (n next : Z) (l1 l2 : list Z) :
  around l1 (n :: next :: l2) -> chain m h (l1 ++ next :: l2) -> is_Some (m !! n) -> is_Some (m !! pprev n) ->
  exists m', hlist_add_before m n next = Ok m' /\ chain m' h (l1 ++ n :: next :: l2) /\ only m m' (link_words l1 (next :: l2) n).
Proof.
  intros An Hc Hn Hpn. destruct (around_drop _ _ _ An) as (Hin & Hn1 & Hnl & A). destruct (around_drop _ _ _ A) as (Hx & _ & _ & _).
  pose proof Hc as [_ (Hx0 & Ht & Hxp & _)%chain_cons]%chain_app. set (t := tail_of h l1) in *.
  destruct (node_neq n next Hin Hx) as [Y3 Y4]. destruct (node_neq next n Hx Hin) as [Y5 Y6]. destruct (node_neq n n Hin Hin) as [N3 N4].
  assert (pprev next <> pprev n) as Y7 by (unfold pprev; intros E; apply Hnl; replace n with next by lia; left).
  pose proof (proj2 (around_tail _ _ n A) Hin) as T1. pose proof (proj2 (around_tail _ _ next A) Hx) as T2.
  pose proof (proj1 (around_tail _ _ n An) (list_elem_of_here _ _)) as T3. fold t in T1, T2, T3.
  unfold hlist_add_before. rewrite (rd_ok _ _ _ Hxp). cbn [res_bind]. rewrite wr_ok by exact Hpn. cbn [res_bind].
  rewrite wr_ok by auto. cbn [res_bind]. rewrite wr_ok by eauto. cbn [res_bind].
  rewrite (rd_ok _ _ t) by (rewrite !lookup_insert_ne by congruence; apply lookup_insert_eq). cbn [res_bind]. rewrite wr_ok by eauto.
  eexists. split; [reflexivity|].
  match goal with |- chain ?m' _ _ /\ _ => assert (only m m' (link_words l1 (next :: l2) n)) as Ho
    by (repeat apply only_insert; [apply only_refl | right; right; left | right; left | right; right; right; left | left]) end.
  split; [| exact Ho]. apply (link_chain m); [exact An | exact Hc | exact Ho | | | |]; fold t; cbn [List.hd].
  + apply lookup_insert_eq.
  + rewrite !lookup_insert_ne by congruence. apply lookup_insert_eq.
  + rewrite !lookup_insert_ne by congruence. apply lookup_insert_eq.
  + intros z l' [= <- <-]. rewrite !lookup_insert_ne by congruence. apply lookup_insert_eq.
Qed.
End ops.

(** ** Tables as sequences *)

Section table.
Context (ht bits : Z) (Hbits : 0 <= bits <= 31) (ns : list Z).

Definition heads : list Z := head ht <$> zseq 0 (HASH_SIZE bits).

(** The nodes of bucket [i] of the table whose nodes and keys, the latest first, are [A]. *)
Definition bucket (i : Z) (A : list (Z * Z)) : list Z := (filter (fun x => hash_min x.2 bits = i) A).*1.

(** The nodes of [n] buckets from [i] on. *)
Definition each_from (n : nat) (i : Z) (A : list (Z * Z)) : list Z := mjoin ((fun j => bucket j A) <$> zseq i n).

Definition each (A : list (Z * Z)) : list Z := each_from (HASH_SIZE bits) 0 A.

(** The table holds [A]; [idle] are the nodes in no table, with whether the back
    pointer is known to be null. *)
Record table (m : wmem) (A : list (Z * Z)) (idle : gmap Z bool) : Prop := {
  tb_nodup : NoDup A.*1;
  tb_live p : p ∈ A.*1 -> p ∈ ns /\ idle !! p = None;
  tb_chain i : 0 <= i < 2 ^ bits -> chain m (head ht i) (bucket i A);
  tb_idle p b : idle !! p = Some b ->
    p ∈ ns /\ is_Some (m !! p) /\ exists w, m !! pprev p = Some w /\ (b = true -> w = 0);
}.

(** Operations of the code that uses a table. *)
Inductive hop : Type :=
| HInit (n : Z)
| HAdd (n k : Z)
| HDel (n : Z)
| HHashed (n : Z)
| HEmpty
| HPossible (k : Z)
| HEach
| HPurge (p : Z -> bool).

Inductive hout : Type :=
| HDone
| HBool (b : bool)
| HNodes (l : list Z).

(** What they do to memory; the loops get [fuel] turns. *)
Definition hop_run (fuel : nat) (m : wmem) (o : hop) : res (option (hout * wmem)) :=
  let done r := do m <- r; Ok (Some (HDone, m)) in
  let nodes r := do r <- r; Ok ((fun l => (HNodes l, m)) <$> r) in
  match o with
  | HInit n => done (INIT_HLIST_NODE m n)
  | HAdd n k => done (hash_add m ht bits n k)
  | HDel n => done (hash_del m n)
  | HHashed n => do b <- hash_hashed m n; Ok (Some (HBool b, m))
  | HEmpty => do b <- __hash_empty m ht (HASH_SIZE bits); Ok (Some (HBool b, m))
  | HPossible k => nodes (hash_for_each_possible fuel m ht bits k)
  | HEach => nodes (hash_for_each (HASH_SIZE bits) fuel m ht)
  | HPurge p =>
      do r <- hash_for_each_safe (HASH_SIZE bits) fuel (fun m n => if p n then hash_del m n else Ok m) m ht;
      Ok ((fun m => (HDone, m)) <$> r)
  end.

Definition drop_nodes (l : list Z) (A : list (Z * Z)) : list (Z * Z) := filter (fun x => x.1 ∉ l) A.

Definition clean (l : list Z) (idle : gmap Z bool) : gmap Z bool := foldl (fun d n => <[n := true]> d) idle l.

Definition is_live (A : list (Z * Z)) (n : Z) : bool := bool_decide (n ∈ A.*1).

(** What they do to the sequence; [None] for a call the code must not make. *)
Definition hop_spec (s : list (Z * Z) * gmap Z bool) (o : hop) : option (hout * (list (Z * Z) * gmap Z bool)) :=
  let '(A, idle) := s in
  let known n := is_live A n || bool_decide (idle !! n = Some true) in
  match o with
  | HInit n => if idle !! n then Some (HDone, (A, <[n := true]> idle)) else None
  | HAdd n k => if idle !! n then Some (HDone, ((n, k) :: A, delete n idle)) else None
  | HDel n => if known n then Some (HDone, (drop_nodes [n] A, <[n := true]> idle)) else None
  | HHashed n => if known n then Some (HBool (is_live A n), s) else None
  | HEmpty => Some (HBool (bool_decide (A = [])), s)
  | HPossible k => Some (HNodes (bucket (hash_min k bits) A), s)
  | HEach => Some (HNodes (each A), s)
  | HPurge p => Some (HDone, (filter (fun x => p x.1 = false) A, clean (filter (fun n => p n = true) (each A)) idle))
  end.

Context (Hap : apart heads ns) (Hht : 0 < ht).

Lemma heads_nonnull (i : Z) : 0 <= i < 2 ^ bits -> head ht i <> 0.
Proof. unfold head. lia. Qed.

Lemma heads_in (i : Z) : 0 <= i < 2 ^ bits -> head ht i ∈ heads.
Proof. intros Hi. apply list_elem_of_fmap. exists i. split; [reflexivity|]. apply elem_of_zseq. unfold HASH_SIZE. lia. Qed.

Lemma hash_range (k : Z) : 0 <= hash_min k bits < 2 ^ bits.
Proof. apply hash_32_range. lia. Qed.

Lemma bucket_elem (i : Z) (A : list (Z * Z)) (n : Z) : n ∈ bucket i A <-> exists k, (n, k) ∈ A /\ hash_min k bits = i.
Proof.
  unfold bucket. rewrite list_elem_of_fmap. split.
  - intros ([p k] & -> & [H1 H2]%list_elem_of_filter). exists k. auto.
  - intros (k & H1 & H2). exists (n, k). split; [reflexivity|]. apply list_elem_of_filter. auto.
Qed.

Lemma bucket_live (i : Z) (A : list (Z * Z)) (n : Z) : n ∈ bucket i A -> n ∈ A.*1.
Proof. intros (k & H & _)%bucket_elem. apply list_elem_of_fmap. exists (n, k). auto. Qed.

Lemma bucket_nodup (i : Z) (A : list (Z * Z)) : NoDup A.*1 -> NoDup (bucket i A).
Proof.
  intros H. apply (sublist_NoDup _ _ H). clear H. unfold bucket. induction A as [| [n k] A IH]; [constructor|]. rewrite filter_cons.
  destruct (decide _); constructor; exact IH.
Qed.

Lemma live_in_bucket (A : list (Z * Z)) (n : Z) : n ∈ A.*1 -> exists i, 0 <= i < 2 ^ bits /\ n ∈ bucket i A.
Proof.
  intros ([p k] & -> & H)%list_elem_of_fmap. exists (hash_min k bits). split; [apply hash_range|]. apply bucket_elem. exists k. auto.
Qed.

Lemma bucket_unique (i j : Z) (A : list (Z * Z)) (n : Z) : NoDup A.*1 -> n ∈ bucket i A -> n ∈ bucket j A -> i = j.
Proof.
  intros Hnd (k & H1 & <-)%bucket_elem (k' & H2 & <-)%bucket_elem. f_equal.
  apply list_elem_of_lookup in H1 as [a H1]. apply list_elem_of_lookup in H2 as [b H2].
  assert (a = b) as ->; [| congruence]. apply (proj1 (NoDup_alt _) Hnd a b n); rewrite list_lookup_fmap; [rewrite H1 | rewrite H2]; reflexivity.
Qed.

Lemma bucket_drop (i : Z) (l : list Z) (A : list (Z * Z)) : bucket i (drop_nodes l A) = filter (fun n => n ∉ l) (bucket i A).
Proof.
  unfold bucket, drop_nodes. induction A as [| [n k] A IH]; [reflexivity|]. rewrite !filter_cons. cbn [fst snd].
  destruct (decide (n ∉ l)) as [Hn | Hn], (decide (hash_min k bits = i)) as [Hk | Hk]; rewrite ?filter_cons; cbn [snd];
    rewrite ?(decide_True _ _ Hk), ?(decide_False _ _ Hk); cbn [fmap list_fmap fst]; rewrite ?filter_cons;
    rewrite ?(decide_True _ _ Hn), ?(decide_False _ _ Hn); cbn [fmap list_fmap fst]; rewrite IH; reflexivity.
Qed.

(** Words of heads and of nodes outside [l] only. *)
Definition foreign (hs : list Z) (l : list Z) (w : Z) : Prop :=
  w ∈ hs \/ exists q, q ∈ ns /\ q ∉ l /\ (w = q \/ w = pprev q).

Lemma foreign_keep (m m' : wmem) (W l : list Z) (x : Z) :
  only m m' W -> (forall w, w ∈ W -> foreign heads l w) -> (forall y, y ∈ l -> y ∈ ns) -> x ∈ l ->
  m' !! x = m !! x /\ m' !! pprev x = m !! pprev x.
Proof.
  intros [Ho _] HW Hl Hx. pose proof (Hl x Hx) as Hn. split; apply Ho; intros Hin; destruct (HW _ Hin) as [Hh | (q & Hq & Hql & E)].
  - destruct (apart_heads _ _ Hap _ x Hh Hn). congruence.
  - destruct E as [-> | E]; [contradiction|]. exact (apart_nodes _ _ Hap q x Hq Hn (eq_sym E)).
  - destruct (apart_heads _ _ Hap _ x Hh Hn). congruence.
  - destruct E as [E | E]; [exact (apart_nodes _ _ Hap x q Hn Hq E)|]. apply Hql. replace q with x by (unfold pprev in E; lia). exact Hx.
Qed.

Lemma foreign_chain (m m' : wmem) (W l : list Z) (b j : Z) :
  only m m' W -> (forall w, w ∈ W -> foreign [head ht b] l w) -> (forall y, y ∈ l -> y ∈ ns) ->
  0 <= b < 2 ^ bits -> 0 <= j < 2 ^ bits -> j <> b -> chain m (head ht j) l -> chain m' (head ht j) l.
Proof.
  intros Ho HW Hl Hb Hj Hne Hc. apply (chain_agree m); [exact Hc | |].
  - apply Ho. intros Hin. destruct (HW _ Hin) as [Hh | (q & Hq & _ & E)].
    + apply list_elem_of_singleton in Hh. unfold head in Hh. lia.
    + destruct (apart_heads _ _ Hap _ q (heads_in j Hj) Hq). destruct E; congruence.
  - intros x Hx. apply (foreign_keep m m' W l); try assumption. intros w Hw. destruct (HW w Hw) as [Hh | H]; [left | right; exact H].
    apply list_elem_of_singleton in Hh as ->. exact (heads_in b Hb).
Qed.

(** The nodes of a chain of the table around a place of it. *)
Lemma table_around (m : wmem) (A : list (Z * Z)) (idle : gmap Z bool) (i : Z) (l1 l2 : list Z) :
  table m A idle -> 0 <= i < 2 ^ bits -> bucket i A = l1 ++ l2 -> around ns (head ht i) l1 l2.
Proof.
  intros T Hi E. apply (around_app heads ns Hap _ (heads_in i Hi)).
  - intros x Hx. rewrite <- E in Hx. apply (tb_live _ _ _ T), (bucket_live i), Hx.
  - rewrite <- E. apply bucket_nodup, (tb_nodup _ _ _ T).
Qed.

(** A change of bucket [b] that leaves the other chains and idle nodes alone. *)
Lemma table_update (m m' : wmem) (A A' : list (Z * Z)) (idle idle' : gmap Z bool) (b : Z) (W : list Z) (n : Z) :
  table m A idle -> 0 <= b < 2 ^ bits -> n ∈ ns -> only m m' W ->
  (forall w, w ∈ W -> w = head ht b \/ exists q, (q = n \/ q ∈ bucket b A) /\ (w = q \/ w = pprev q)) ->
  NoDup A'.*1 -> (forall p, p ∈ A'.*1 -> p ∈ ns /\ idle' !! p = None) -> chain m' (head ht b) (bucket b A') ->
  (forall j, j <> b -> bucket j A' = bucket j A /\ n ∉ bucket j A) ->
  (forall p x, p <> n -> idle' !! p = Some x -> idle !! p = Some x) ->
  (forall x, idle' !! n = Some x -> is_Some (m' !! n) /\ exists w, m' !! pprev n = Some w /\ (x = true -> w = 0)) ->
  table m' A' idle'.
Proof.
  intros T Hb Hn Ho HW Hnd Hlive Hc Hother Hidle Hnew. split; [exact Hnd | exact Hlive | |].
  - intros j Hj. destruct (decide (j = b)) as [-> | Hne]; [exact Hc|]. destruct (Hother j Hne) as [-> Hnj].
    apply (foreign_chain m m' W _ b j); try assumption; [| | exact (tb_chain _ _ _ T j Hj)].
    + intros w Hw. destruct (HW w Hw) as [-> | (q & Hq & E)]; [left; left | right; exists q].
      destruct Hq as [-> | Hq]; [auto|]. split; [apply (tb_live _ _ _ T), (bucket_live b), Hq|]. split; [| exact E].
      intros Hqj. apply Hne. exact (bucket_unique j b A q (tb_nodup _ _ _ T) Hqj Hq).
    + intros y Hy. apply (tb_live _ _ _ T), (bucket_live j), Hy.
  - intros p x Hp. destruct (decide (p = n)) as [-> | Hne]; [split; [exact Hn | exact (Hnew x Hp)]|].
    apply Hidle in Hp; [| exact Hne]. destruct (tb_idle _ _ _ T p x Hp) as (Hpn & Hs & w & Hw & Hx).
    destruct (foreign_keep m m' W [p] p) as [E1 E2]; [exact Ho | | intros y Hy; apply list_elem_of_singleton in Hy as ->; exact Hpn | left |].
    + intros w' Hw'. destruct (HW w' Hw') as [-> | (q & Hq & E)]; [left; exact (heads_in b Hb) | right; exists q].
      split; [destruct Hq as [-> | Hq]; [exact Hn | apply (tb_live _ _ _ T), (bucket_live b), Hq]|]. split; [| exact E].
      rewrite list_elem_of_singleton. intros ->. destruct Hq as [Hq | Hq]; [congruence|].
      destruct (tb_live _ _ _ T p (bucket_live _ _ _ Hq)). congruence.
    + rewrite E1, E2. eauto.
Qed.

Lemma filter_keep {T : Type} (P : T -> Prop) `{forall x, Decision (P x)} (l : list T) : (forall x, x ∈ l -> P x) -> filter P l = l.
Proof.
  induction l as [| x l IH]; intros Hl; [reflexivity|]. rewrite filter_cons, decide_True by (apply Hl; left).
  f_equal. apply IH. intros y Hy. apply Hl. right. exact Hy.
Qed.

Lemma filter_same {T : Type} (P Q : T -> Prop) `{forall x, Decision (P x)} `{forall x, Decision (Q x)} (l : list T) :
  (forall x, x ∈ l -> P x <-> Q x) -> filter P l = filter Q l.
Proof.
  induction l as [| x l IH]; intros Hl; [reflexivity|]. rewrite !filter_cons, IH by (intros y Hy; apply Hl; right; exact Hy).
  rewrite (decide_ext _ (Q x)); [reflexivity | apply Hl; left].
Qed.

Lemma drop_nodes_sub (l : list Z) (A : list (Z * Z)) (p : Z) : p ∈ (drop_nodes l A).*1 <-> p ∉ l /\ p ∈ A.*1.
Proof.
  unfold drop_nodes. rewrite !list_elem_of_fmap. split.
  - intros ([q k] & -> & [H1 H2]%list_elem_of_filter). split; [exact H1|]. exists (q, k). auto.
  - intros (H1 & [q k] & -> & H2). exists (q, k). split; [reflexivity|]. apply list_elem_of_filter. auto.
Qed.

Lemma drop_nodes_nodup (l : list Z) (A : list (Z * Z)) : NoDup A.*1 -> NoDup (drop_nodes l A).*1.
Proof.
  intros H. apply (sublist_NoDup _ _ H). clear H. unfold drop_nodes. induction A as [| [n k] A IH]; [constructor|]. rewrite filter_cons.
  destruct (decide _); constructor; exact IH.
Qed.

Lemma drop_nodes_none (l : list Z) (A : list (Z * Z)) : (forall p, p ∈ l -> p ∉ A.*1) -> drop_nodes l A = A.
Proof. intros H. apply filter_keep. intros [q k] Hq Hl. apply (H q Hl), list_elem_of_fmap. exists (q, k). auto. Qed.

Lemma bucket_drop_one (i n : Z) (A : list (Z * Z)) (l1 l2 : list Z) :
  NoDup A.*1 -> bucket i A = l1 ++ n :: l2 -> bucket i (drop_nodes [n] A) = l1 ++ l2.
Proof.
  intros Hnd E. pose proof (bucket_nodup i A Hnd) as Hb. rewrite bucket_drop, E, filter_app, filter_cons, decide_False by set_solver.
  rewrite E in Hb. apply NoDup_app in Hb as (_ & H12 & [Hn _]%NoDup_cons).
  rewrite !filter_keep; [reflexivity | intros x Hx; rewrite list_elem_of_singleton; congruence |].
  intros x Hx. rewrite list_elem_of_singleton. intros ->. apply (H12 n Hx). left.
Qed.

Lemma bucket_drop_other (i : Z) (l : list Z) (A : list (Z * Z)) : (forall p, p ∈ l -> p ∉ bucket i A) -> bucket i (drop_nodes l A) = bucket i A.
Proof. intros H. rewrite bucket_drop. apply filter_keep. intros x Hx Hl. exact (H x Hl Hx). Qed.

Lemma hash_add_table (m : wmem) (A : list (Z * Z)) (idle : gmap Z bool) (n k : Z) :
  table m A idle -> is_Some (idle !! n) -> exists m', hash_add m ht bits n k = Ok m' /\ table m' ((n, k) :: A) (delete n idle).
Proof.
  intros T [x Hx]. set (b := hash_min k bits). pose proof (hash_range k) as Hb. fold b in Hb.
  destruct (tb_idle _ _ _ T n x Hx) as (Hn & Hs & w & Hw & _).
  assert (n ∉ A.*1) as HnA by (intros HA; destruct (tb_live _ _ _ T n HA); congruence).
  assert (bucket b ((n, k) :: A) = n :: bucket b A) as Eb by (unfold bucket; rewrite filter_cons, decide_True by reflexivity; reflexivity).
  destruct (hlist_add_head_chain heads ns Hap (head ht b) (heads_in b Hb) m n (bucket b A)) as (m' & E & Hc & Ho); [| exact (tb_chain _ _ _ T b Hb) | exact Hs | eauto |].
  { apply (around_app heads ns Hap _ (heads_in b Hb) []); cbn [app].
    - intros y Hy. apply elem_of_cons in Hy as [-> | Hy]; [exact Hn | apply (tb_live _ _ _ T), (bucket_live b), Hy].
    - apply NoDup_cons. split; [intros Hy; apply HnA, (bucket_live b), Hy | apply bucket_nodup, (tb_nodup _ _ _ T)]. }
  exists m'. split; [exact E|]. eapply (table_update m m' A _ idle _ b _ n T Hb Hn Ho).
  - intros v Hv. unfold link_words in Hv. cbn [tail_of] in Hv. apply elem_of_cons in Hv as [-> | Hv]; [left; reflexivity|].
    right. apply elem_of_cons in Hv as [-> | Hv]; [exists n; auto|]. apply elem_of_cons in Hv as [-> | Hv]; [exists n; auto|].
    destruct (bucket b A) as [| y l]; [apply not_elem_of_nil in Hv; destruct Hv|]. apply list_elem_of_singleton in Hv as ->. exists y. split; [right; left | auto].
  - apply NoDup_cons. split; [exact HnA | exact (tb_nodup _ _ _ T)].
  - intros p Hp. cbn [fmap list_fmap fst] in Hp. apply elem_of_cons in Hp as [-> | Hp]; [split; [exact Hn | apply lookup_delete_eq]|].
    destruct (tb_live _ _ _ T p Hp). split; [assumption|]. rewrite lookup_delete_ne; [assumption | congruence].
  - rewrite Eb. exact Hc.
  - intros j Hj. split; [unfold bucket; rewrite filter_cons, decide_False by (cbn [snd]; fold b; congruence); reflexivity|].
    intros Hj'. apply HnA, (bucket_live j), Hj'.
  - intros p y Hp. rewrite lookup_delete_ne by congruence. auto.
  - intros y. rewrite lookup_delete_eq. discriminate.
Qed.

Lemma init_node_ok (m : wmem) (n : Z) :
  n ∈ ns -> is_Some (m !! n) -> is_Some (m !! pprev n) ->
  exists m', INIT_HLIST_NODE m n = Ok m' /\ only m m' [n; pprev n] /\ m' !! n = Some 0 /\ m' !! pprev n = Some 0.
Proof.
  intros Hn H1 H2. unfold INIT_HLIST_NODE. rewrite wr_ok by exact H1. cbn [res_bind]. rewrite wr_ok by auto. eexists. split; [reflexivity|].
  split; [repeat apply only_insert; [apply only_refl | left | right; left]|]. split; [| apply lookup_insert_eq].
  rewrite lookup_insert_ne by exact (apart_nodes _ _ Hap n n Hn Hn). apply lookup_insert_eq.
Qed.

Lemma init_node_table (m : wmem) (A : list (Z * Z)) (idle : gmap Z bool) (n : Z) :
  table m A idle -> is_Some (idle !! n) -> exists m', INIT_HLIST_NODE m n = Ok m' /\ table m' A (<[n := true]> idle).
Proof.
  intros T [x Hx]. destruct (tb_idle _ _ _ T n x Hx) as (Hn & Hs & w & Hw & _).
  assert (n ∉ A.*1) as HnA by (intros HA; destruct (tb_live _ _ _ T n HA); congruence).
  destruct (init_node_ok m n Hn Hs ltac:(eauto)) as (m' & E & Ho & E1 & E2). exists m'. split; [exact E|].
  assert (0 <= 0 < 2 ^ bits) as H0 by lia.
  eapply (table_update m m' A A idle _ 0 _ n T H0 Hn Ho).
  - intros v Hv. right. exists n. apply elem_of_cons in Hv as [-> | Hv]; [auto|]. apply list_elem_of_singleton in Hv as ->. auto.
  - exact (tb_nodup _ _ _ T).
  - intros p Hp. destruct (tb_live _ _ _ T p Hp). split; [assumption|]. rewrite lookup_insert_ne; [assumption | congruence].
  - apply (chain_agree m); [exact (tb_chain _ _ _ T 0 H0) | |].
    + apply Ho. rewrite !not_elem_of_cons. destruct (apart_heads _ _ Hap _ n (heads_in 0 H0) Hn). split; [assumption|]. split; [assumption | apply not_elem_of_nil].
    + intros y Hy. apply (foreign_keep m m' [n; pprev n] (bucket 0 A)); [exact Ho | | intros z Hz; apply (tb_live _ _ _ T), (bucket_live 0), Hz | exact Hy].
      intros v Hv. right. exists n. split; [exact Hn|]. split; [intros Hb; apply HnA, (bucket_live 0), Hb|].
      apply elem_of_cons in Hv as [-> | Hv]; [auto|]. apply list_elem_of_singleton in Hv as ->. auto.
  - intros j _. split; [reflexivity|]. intros Hj. apply HnA, (bucket_live j), Hj.
  - intros p y Hp. rewrite lookup_insert_ne by congruence. auto.
  - intros y _. rewrite E1, E2. split; [eauto | exists 0; auto].
Qed.

(** A node known to be in the table or to be idle with a null back pointer. *)
Lemma hashed_table (m : wmem) (A : list (Z * Z)) (idle : gmap Z bool) (n : Z) :
  table m A idle -> n ∈ A.*1 \/ idle !! n = Some true -> hlist_unhashed m n = Ok (negb (is_live A n)).
Proof.
  intros T Hn. unfold hlist_unhashed, is_live. destruct Hn as [Hn | Hn].
  - rewrite bool_decide_eq_true_2 by exact Hn. destruct (live_in_bucket A n Hn) as (i & Hi & Hb).
    apply list_elem_of_split in Hb as (l1 & l2 & E). pose proof (tb_chain _ _ _ T i Hi) as Hc. rewrite E in Hc.
    apply chain_app in Hc as [_ (_ & _ & Hp & _)%chain_cons]. rewrite (rd_ok _ _ _ Hp). cbn [res_bind].
    assert (tail_of (head ht i) l1 <> 0) as Ht.
    { pose proof (tail_of_in (head ht i) l1) as Ht. apply elem_of_cons in Ht as [-> | Ht]; [exact (heads_nonnull i Hi)|].
      apply (apart_null _ _ Hap), (tb_live _ _ _ T), (bucket_live i). rewrite E. apply elem_of_app. left. exact Ht. }
    rewrite (proj2 (Z.eqb_neq _ 0) Ht). reflexivity.
  - destruct (tb_idle _ _ _ T n true Hn) as (_ & _ & w & Hw & Hz). rewrite (rd_ok _ _ _ Hw). cbn [res_bind]. rewrite Hz by reflexivity.
    rewrite bool_decide_eq_false_2; [reflexivity|]. intros HA. destruct (tb_live _ _ _ T n HA). congruence.
Qed.

Lemma hash_del_live (m : wmem) (A : list (Z * Z)) (idle : gmap Z bool) (n : Z) :
  table m A idle -> n ∈ A.*1 -> exists m', hash_del m n = Ok m' /\ table m' (drop_nodes [n] A) (<[n := true]> idle).
Proof.
  intros T HA. unfold hash_del, hlist_del_init. rewrite (hashed_table m A idle n T (or_introl HA)). cbn [res_bind].
  unfold is_live. rewrite bool_decide_eq_true_2 by exact HA. cbn [negb].
  destruct (live_in_bucket A n HA) as (b & Hb & Hin). pose proof (proj1 (tb_live _ _ _ T n HA)) as Hn.
  apply list_elem_of_split in Hin as (l1 & l2 & E). pose proof (tb_chain _ _ _ T b Hb) as Hc. rewrite E in Hc.
  pose proof (table_around m A idle b l1 (n :: l2) T Hb E) as Ar.
  destruct (__hlist_del_chain heads ns Hap _ (heads_in b Hb) m n l1 l2 Ar Hc) as (m1 & ys & E1 & Hc1 & Ho1 & Hys).
  rewrite E1. cbn [res_bind]. destruct (chain_words m _ _ n Hc) as [Hw1 Hw2]; [apply elem_of_app; right; left|].
  destruct (init_node_ok m1 n Hn (proj2 Ho1 _ Hw1) (proj2 Ho1 _ Hw2)) as (m2 & E2 & Ho2 & Z1 & Z2).
  exists m2. split; [exact E2|]. set (W := tail_of (head ht b) l1 :: ys ++ [n; pprev n]).
  assert (only m m2 W) as Ho.
  { split; [| intros x Hx; apply Ho2, Ho1, Hx]. intros x Hx. unfold W in Hx. rewrite not_elem_of_cons, not_elem_of_app in Hx. destruct Hx as (H1 & H2 & H3).
    rewrite (proj1 Ho2) by exact H3. apply Ho1. rewrite not_elem_of_cons. auto. }
  destruct (around_drop _ _ _ _ _ Ar) as (_ & Hn1 & Hn2 & _).
  assert (bucket b (drop_nodes [n] A) = l1 ++ l2) as Eb by exact (bucket_drop_one b n A l1 l2 (tb_nodup _ _ _ T) E).
  eapply (table_update m m2 A _ idle _ b W n T Hb Hn Ho).
  - intros w Hw. unfold W in Hw. apply elem_of_cons in Hw as [-> | Hw].
    + pose proof (tail_of_in (head ht b) l1) as Ht. apply elem_of_cons in Ht as [-> | Ht]; [left; reflexivity | right].
      exists (tail_of (head ht b) l1). split; [right; rewrite E; apply elem_of_app; left; exact Ht | auto].
    + right. apply elem_of_app in Hw as [Hw | Hw].
      * destruct (Hys w Hw) as (x & Hx & ->). exists x. split; [right; rewrite E; apply elem_of_app; right; right; exact Hx | auto].
      * exists n. split; [auto|]. apply elem_of_cons in Hw as [-> | Hw]; [auto | apply list_elem_of_singleton in Hw as ->; auto].
  - apply drop_nodes_nodup, (tb_nodup _ _ _ T).
  - intros p [Hp HpA]%drop_nodes_sub. rewrite list_elem_of_singleton in Hp. destruct (tb_live _ _ _ T p HpA).
    split; [assumption|]. rewrite lookup_insert_ne; [assumption | congruence].
  - rewrite Eb. apply (chain_agree m1); [exact Hc1 | |].
    + apply Ho2. rewrite !not_elem_of_cons. destruct (apart_heads _ _ Hap _ n (heads_in b Hb) Hn). repeat split; [assumption | assumption | apply not_elem_of_nil].
    + intros x Hx. apply (foreign_keep m1 m2 [n; pprev n] (l1 ++ l2)); [exact Ho2 | | | exact Hx].
      * intros w Hw. right. exists n. split; [exact Hn|]. split; [rewrite elem_of_app; tauto|].
        apply elem_of_cons in Hw as [-> | Hw]; [auto | apply list_elem_of_singleton in Hw as ->; auto].
      * intros y Hy. rewrite <- Eb in Hy. apply bucket_live, drop_nodes_sub in Hy as [_ Hy]. apply (tb_live _ _ _ T y Hy).
  - intros j Hj. assert (n ∉ bucket j A) as Hnj.
    { intros Hin. apply Hj. apply (bucket_unique j b A n (tb_nodup _ _ _ T) Hin). rewrite E. apply elem_of_app. right. left. }
    split; [| exact Hnj]. apply bucket_drop_other. intros p Hp. apply list_elem_of_singleton in Hp as ->. exact Hnj.
  - intros p x Hp. rewrite lookup_insert_ne by congruence. auto.
  - intros x _. rewrite Z1, Z2. split; [eauto | exists 0; auto].
Qed.

Lemma hash_del_table (m : wmem) (A : list (Z * Z)) (idle : gmap Z bool) (n : Z) :
  table m A idle -> n ∈ A.*1 \/ idle !! n = Some true ->
  exists m', hash_del m n = Ok m' /\ table m' (drop_nodes [n] A) (<[n := true]> idle).
Proof.
  intros T Hn. destruct (decide (n ∈ A.*1)) as [HA | HA]; [exact (hash_del_live m A idle n T HA)|].
  exists m. unfold hash_del, hlist_del_init. rewrite (hashed_table m A idle n T Hn). cbn [res_bind]. unfold is_live.
  rewrite bool_decide_eq_false_2 by exact HA. cbn [negb]. split; [reflexivity|].
  destruct Hn as [Hn | Hn]; [contradiction|]. rewrite drop_nodes_none by (intros p Hp; apply list_elem_of_singleton in Hp as ->; exact HA).
  rewrite insert_id by exact Hn. exact T.
Qed.

(** ** The loops *)

Lemma hlist_for_each_chain (m : wmem) (a : Z) (l : list Z) (fuel : nat) :
  chain m a l -> (length l < fuel)%nat -> hlist_for_each fuel m (List.hd 0 l) = Ok (Some l).
Proof.
  revert a fuel. induction l as [| x l IH]; intros a [| fuel] Hc Hf; cbn [length] in Hf; try lia; [reflexivity|].
  apply chain_cons in Hc as (Hx0 & _ & _ & Hc). cbn [hlist_for_each List.hd]. rewrite (proj2 (Z.eqb_neq x 0) Hx0).
  rewrite (rd_ok _ _ _ (chain_first _ _ _ Hc)). cbn [res_bind]. rewrite (IH x fuel Hc) by lia. reflexivity.
Qed.

Lemma bucket_length (i : Z) (A : list (Z * Z)) : (length (bucket i A) <= length A)%nat.
Proof. unfold bucket. rewrite length_fmap. apply length_filter. Qed.

Lemma each_from_S (n : nat) (i : Z) (A : list (Z * Z)) : each_from (S n) i A = bucket i A ++ each_from n (i + 1) A.
Proof. unfold each_from. rewrite zseq_cons. reflexivity. Qed.

Lemma head_succ (i : Z) : head ht i + 4 = head ht (i + 1).
Proof. unfold head. lia. Qed.

Lemma hash_for_each_table (m : wmem) (A : list (Z * Z)) (idle : gmap Z bool) (n fuel : nat) (i : Z) :
  table m A idle -> 0 <= i -> i + Z.of_nat n <= 2 ^ bits -> (length A < fuel)%nat ->
  hash_for_each n fuel m (head ht i) = Ok (Some (each_from n i A)).
Proof.
  intros T. revert i. induction n as [| n IH]; intros i Hi Hn Hf; [reflexivity|]. cbn [hash_for_each].
  pose proof (tb_chain _ _ _ T i ltac:(lia)) as Hc. rewrite (rd_ok _ _ _ (chain_first _ _ _ Hc)). cbn [res_bind].
  pose proof (bucket_length i A). rewrite (hlist_for_each_chain _ _ _ fuel Hc) by lia. cbn [res_bind].
  rewrite head_succ, IH by lia. rewrite each_from_S. reflexivity.
Qed.

Lemma hash_empty_table (m : wmem) (A : list (Z * Z)) (idle : gmap Z bool) (n : nat) (i : Z) :
  table m A idle -> 0 <= i -> i + Z.of_nat n <= 2 ^ bits ->
  hash_empty_loop n m (head ht i) = Ok (bool_decide (each_from n i A = [])).
Proof.
  intros T. revert i. induction n as [| n IH]; intros i Hi Hn; [reflexivity|]. cbn [hash_empty_loop].
  pose proof (tb_chain _ _ _ T i ltac:(lia)) as Hc. unfold hlist_empty. rewrite (rd_ok _ _ _ (chain_first _ _ _ Hc)). cbn [res_bind].
  rewrite each_from_S. destruct (bucket i A) as [| x l] eqn:E; cbn [List.hd].
  - rewrite head_succ, IH by lia. reflexivity.
  - apply chain_cons in Hc as (Hx & _). rewrite (proj2 (Z.eqb_neq x 0) Hx). reflexivity.
Qed.

Lemma each_from_elem (n : nat) (i : Z) (A : list (Z * Z)) (x : Z) :
  x ∈ each_from n i A <-> exists j, i <= j < i + Z.of_nat n /\ x ∈ bucket j A.
Proof.
  unfold each_from. rewrite list_elem_of_join. split.
  - intros (l & Hx & (j & -> & Hj)%list_elem_of_fmap). exists j. rewrite <- elem_of_zseq. auto.
  - intros (j & Hj & Hx). exists (bucket j A). split; [exact Hx|]. apply list_elem_of_fmap. exists j. rewrite elem_of_zseq. auto.
Qed.

(** A loop over the table visits exactly its nodes. *)
Lemma each_live (A : list (Z * Z)) (x : Z) : x ∈ each A <-> x ∈ A.*1.
Proof.
  unfold each. rewrite each_from_elem. unfold HASH_SIZE. rewrite Z2Nat.id by lia. split.
  - intros (j & _ & Hx). exact (bucket_live j A x Hx).
  - intros Hx. destruct (live_in_bucket A x Hx) as (j & Hj & Hb). exists j. split; [lia | exact Hb].
Qed.

Lemma each_nil (A : list (Z * Z)) : each A = [] <-> A = [].
Proof.
  split; [| intros ->].
  - intros E. destruct A as [| [n k] A]; [reflexivity|]. assert (n ∈ each ((n, k) :: A)) as H by (apply each_live; left).
    rewrite E in H. apply not_elem_of_nil in H. destruct H.
  - destruct (each []) as [| x l] eqn:E; [reflexivity|]. assert (x ∈ each []) as H by (rewrite E; left). apply each_live in H.
    apply not_elem_of_nil in H. destruct H.
Qed.

Section purge.
Context (p : Z -> bool).

Abbreviation gone := (filter (fun n => p n = true)).

Definition purge_body (m : wmem) (n : Z) : res wmem := if p n then hash_del m n else Ok m.

Lemma drop_nodes_app (l l' : list Z) (A : list (Z * Z)) : drop_nodes l' (drop_nodes l A) = drop_nodes (l ++ l') A.
Proof. unfold drop_nodes. rewrite list_filter_filter. apply filter_same. intros x _. rewrite not_elem_of_app. tauto. Qed.

(** Removing nodes of the chain while walking over it. *)
Lemma purge_chain (i : Z) (l2 l1 : list Z) (m : wmem) (A : list (Z * Z)) (idle : gmap Z bool) (fuel : nat) :
  table m A idle -> 0 <= i < 2 ^ bits -> bucket i A = l1 ++ l2 -> (length l2 < fuel)%nat ->
  exists m', hlist_for_each_safe fuel purge_body m (List.hd 0 l2) = Ok (Some m') /\
    table m' (drop_nodes (gone l2) A) (clean (gone l2) idle).
Proof.
  revert l1 m A idle fuel. induction l2 as [| x l2 IH]; intros l1 m A idle [| fuel] T Hi E Hf; cbn [length] in Hf; try lia.
  { exists m. split; [reflexivity|]. rewrite filter_nil, drop_nodes_none by (intros q Hq; apply not_elem_of_nil in Hq; destruct Hq). exact T. }
  pose proof (tb_chain _ _ _ T i Hi) as Hc. rewrite E in Hc. apply chain_app in Hc as [_ (Hx0 & _ & _ & Hc)%chain_cons].
  cbn [hlist_for_each_safe List.hd]. rewrite (proj2 (Z.eqb_neq x 0) Hx0), (rd_ok _ _ _ (chain_first _ _ _ Hc)). cbn [res_bind].
  unfold purge_body at 1. rewrite filter_cons. destruct (p x) eqn:Ep.
  - assert (x ∈ A.*1) as HA by (apply (bucket_live i); rewrite E; apply elem_of_app; right; left).
    destruct (hash_del_live m A idle x T HA) as (m1 & E1 & T1). rewrite E1. cbn [res_bind]. rewrite decide_True by reflexivity.
    destruct (IH l1 m1 _ _ fuel T1 Hi (bucket_drop_one i x A l1 l2 (tb_nodup _ _ _ T) E) ltac:(lia)) as (m2 & E2 & T2).
    exists m2. split; [exact E2|]. rewrite drop_nodes_app in T2. exact T2.
  - cbn [res_bind]. rewrite decide_False by discriminate. apply (IH (l1 ++ [x]) m A idle fuel T Hi); [rewrite <- app_assoc; exact E | lia].
Qed.

Lemma clean_app (l l' : list Z) (idle : gmap Z bool) : clean l' (clean l idle) = clean (l ++ l') idle.
Proof. unfold clean. rewrite foldl_app. reflexivity. Qed.

Lemma purge_table (n fuel : nat) (i : Z) (m : wmem) (A : list (Z * Z)) (idle : gmap Z bool) :
  table m A idle -> 0 <= i -> i + Z.of_nat n <= 2 ^ bits -> (length A < fuel)%nat ->
  exists m', hash_for_each_safe n fuel purge_body m (head ht i) = Ok (Some m') /\
    table m' (drop_nodes (gone (each_from n i A)) A) (clean (gone (each_from n i A)) idle).
Proof.
  revert i m A idle. induction n as [| n IH]; intros i m A idle T Hi Hn Hf.
  { exists m. split; [reflexivity|]. cbn. rewrite drop_nodes_none by (intros q Hq; apply not_elem_of_nil in Hq; destruct Hq). exact T. }
  cbn [hash_for_each_safe]. rewrite (rd_ok _ _ _ (chain_first _ _ _ (tb_chain _ _ _ T i ltac:(lia)))). cbn [res_bind].
  pose proof (bucket_length i A). destruct (purge_chain i (bucket i A) [] m A idle fuel T ltac:(lia) eq_refl ltac:(lia)) as (m1 & E1 & T1).
  rewrite E1. cbn [res_bind]. set (L := gone (bucket i A)) in *. assert (length (drop_nodes L A) <= length A)%nat by apply length_filter.
  rewrite head_succ. destruct (IH (i + 1) m1 _ _ T1 ltac:(lia) ltac:(lia) ltac:(lia)) as (m2 & E2 & T2). exists m2. split; [exact E2|].
  assert (each_from n (i + 1) (drop_nodes L A) = each_from n (i + 1) A) as Ee.
  { unfold each_from. f_equal. apply list_fmap_ext. intros _ j Hj%list_elem_of_lookup_2. apply elem_of_zseq in Hj.
    apply bucket_drop_other. intros q [_ Hq]%list_elem_of_filter Hqj. pose proof (bucket_unique i j A q (tb_nodup _ _ _ T) Hq Hqj). lia. }
  rewrite Ee, drop_nodes_app, clean_app in T2. rewrite each_from_S, filter_app. exact T2.
Qed.

Lemma purge_all (A : list (Z * Z)) : drop_nodes (gone (each A)) A = filter (fun x => p x.1 = false) A.
Proof.
  unfold drop_nodes. apply filter_same. intros [n k] Hx. rewrite list_elem_of_filter, each_live. cbn [fst].
  assert (n ∈ A.*1) by (apply list_elem_of_fmap; exists (n, k); auto). destruct (p n); intuition congruence.
Qed.
End purge.

(** ** The table implements the sequence *)

(** One operation. *)
Lemma hop_simulation (m : wmem) (A A' : list (Z * Z)) (idle idle' : gmap Z bool) (o : hop) (r : hout) (fuel : nat) :
  table m A idle -> (length A < fuel)%nat -> hop_spec (A, idle) o = Some (r, (A', idle')) ->
  exists m', hop_run fuel m o = Ok (Some (r, m')) /\ table m' A' idle'.
Proof.
  intros T Hf Hs. assert (0 + Z.of_nat (HASH_SIZE bits) <= 2 ^ bits) as Hsz by (unfold HASH_SIZE; lia).
  assert (ht = head ht 0) as H0 by (unfold head; lia).
  assert (forall n, is_live A n || bool_decide (idle !! n = Some true) = true -> n ∈ A.*1 \/ idle !! n = Some true) as Hk.
  { intros n [H | H]%orb_true_iff; apply bool_decide_eq_true in H; auto. }
  destruct o as [n | n k | n | n | | k | | p]; unfold hop_spec in Hs; cbn [hop_run].
  - destruct (idle !! n) eqn:E; [|discriminate]. injection Hs as <- <- <-.
    destruct (init_node_table m A idle n T ltac:(eauto)) as (m' & -> & T'). exists m'. split; [reflexivity | exact T'].
  - destruct (idle !! n) eqn:E; [|discriminate]. injection Hs as <- <- <-.
    destruct (hash_add_table m A idle n k T ltac:(eauto)) as (m' & -> & T'). exists m'. split; [reflexivity | exact T'].
  - destruct (_ || _) eqn:E; [|discriminate]. injection Hs as <- <- <-.
    destruct (hash_del_table m A idle n T (Hk n E)) as (m' & -> & T'). exists m'. split; [reflexivity | exact T'].
  - destruct (_ || _) eqn:E; [|discriminate]. injection Hs as <- <- <-. exists m. split; [| exact T].
    unfold hash_hashed. rewrite (hashed_table m A idle n T (Hk n E)). cbn [res_bind]. rewrite negb_involutive. reflexivity.
  - injection Hs as <- <- <-. exists m. split; [| exact T]. unfold __hash_empty. rewrite H0 at 1.
    rewrite (hash_empty_table m A idle _ 0 T ltac:(lia) Hsz). cbn [res_bind]. change (each_from _ 0 A) with (each A).
    rewrite (bool_decide_ext _ _ (each_nil A)). reflexivity.
  - injection Hs as <- <- <-. exists m. split; [| exact T]. unfold hash_for_each_possible.
    pose proof (tb_chain _ _ _ T _ (hash_range k)) as Hc. rewrite (rd_ok _ _ _ (chain_first _ _ _ Hc)). cbn [res_bind].
    pose proof (bucket_length (hash_min k bits) A). rewrite (hlist_for_each_chain _ _ _ fuel Hc) by lia. reflexivity.
  - injection Hs as <- <- <-. exists m. split; [| exact T]. rewrite H0 at 1.
    rewrite (hash_for_each_table m A idle _ fuel 0 T ltac:(lia) Hsz Hf). reflexivity.
  - injection Hs as <- <- <-. destruct (purge_table p (HASH_SIZE bits) fuel 0 m A idle T ltac:(lia) Hsz Hf) as (m' & E & T').
    exists m'. rewrite H0 at 1. change (fun m n => if p n then hash_del m n else Ok m) with (purge_body p). rewrite E. split; [reflexivity|].
    change (each_from _ 0 A) with (each A) in T'. rewrite purge_all in T'. exact T'.
Qed.

Fixpoint hops_run (fuel : nat) (m : wmem) (ops : list hop) : res (option (list hout * wmem)) :=
  match ops with
  | [] => Ok (Some ([], m))
  | o :: ops =>
      do r <- hop_run fuel m o;
      match r with
      | None => Ok None
      | Some (r, m) => do rs <- hops_run fuel m ops; Ok ((fun x => (r :: x.1, x.2)) <$> rs)
      end
  end.

Fixpoint hops_spec (s : list (Z * Z) * gmap Z bool) (ops : list hop) : option (list hout * (list (Z * Z) * gmap Z bool)) :=
  match ops with
  | [] => Some ([], s)
  | o :: ops =>
      match hop_spec s o with
      | None => None
      | Some (r, s) => (fun x => (r :: x.1, x.2)) <$> hops_spec s ops
      end
  end.

Lemma table_length (m : wmem) (A : list (Z * Z)) (idle : gmap Z bool) : table m A idle -> (length A <= length ns)%nat.
Proof.
  intros T. rewrite <- (length_fmap fst A). apply submseteq_length, NoDup_submseteq; [exact (tb_nodup _ _ _ T)|].
  intros p Hp. apply (tb_live _ _ _ T p Hp).
Qed.

Lemma hops_simulation (ops : list hop) (m : wmem) (s s' : list (Z * Z) * gmap Z bool) (rs : list hout) (fuel : nat) :
  table m s.1 s.2 -> (length ns < fuel)%nat -> hops_spec s ops = Some (rs, s') ->
  exists m', hops_run fuel m ops = Ok (Some (rs, m')) /\ table m' s'.1 s'.2.
Proof.
  revert m s rs. induction ops as [| o ops IH]; intros m [A idle] rs T Hf Hs; cbn [hops_spec hops_run] in *.
  - injection Hs as <- <-. exists m. auto.
  - destruct (hop_spec (A, idle) o) as [[r [A1 idle1]] |] eqn:E; [|discriminate]. pose proof (table_length _ _ _ T).
    destruct (hop_simulation m A A1 idle idle1 o r fuel T ltac:(cbn [fst snd] in *; lia) E) as (m1 & -> & T1). cbn [res_bind].
    destruct (hops_spec (A1, idle1) ops) as [[rs1 s1] |] eqn:E1; [|discriminate]. injection Hs as <- <-.
    destruct (IH m1 (A1, idle1) rs1 T1 Hf E1) as (m2 & -> & T2). exists m2. auto.
Qed.

(** The nodes before anything is known of them. *)
Definition raw : gmap Z bool := list_to_map ((fun n => (n, false)) <$> ns).

Lemma raw_lookup (p : Z) (b : bool) : raw !! p = Some b -> p ∈ ns /\ b = false.
Proof.
  intros H%elem_of_list_to_map_2. apply list_elem_of_fmap in H as (n & [= -> ->] & Hn). auto.
Qed.

Lemma hash_init_ok (n : nat) (m : wmem) (i : Z) :
  (forall j, i <= j < i + Z.of_nat n -> is_Some (m !! head ht j)) ->
  exists m', hash_init_loop n m (head ht i) = Ok m' /\ (forall j, i <= j < i + Z.of_nat n -> m' !! head ht j = Some 0) /\
    (forall x, (forall j, i <= j < i + Z.of_nat n -> x <> head ht j) -> m' !! x = m !! x).
Proof.
  revert m i. induction n as [| n IH]; intros m i Hm; cbn [hash_init_loop].
  { exists m. split; [reflexivity|]. split; [intros j Hj; lia | reflexivity]. }
  unfold INIT_HLIST_HEAD. rewrite wr_ok by (apply Hm; lia). cbn [res_bind]. rewrite head_succ.
  destruct (IH (<[head ht i := 0]> m) (i + 1)) as (m' & E & H1 & H2); [intros j Hj; apply insert_some, Hm; lia|].
  exists m'. split; [exact E|]. split.
  - intros j Hj. destruct (decide (j = i)) as [-> | Hne]; [| apply H1; lia].
    rewrite H2; [apply lookup_insert_eq|]. intros j Hj'. unfold head. lia.
  - intros x Hx. rewrite H2 by (intros j Hj'; apply Hx; lia). apply lookup_insert_ne, not_eq_sym, Hx. lia.
Qed.

Lemma hash_init_table (m : wmem) :
  (forall h, h ∈ heads -> is_Some (m !! h)) -> (forall p, p ∈ ns -> is_Some (m !! p) /\ is_Some (m !! pprev p)) ->
  exists m', __hash_init m ht (HASH_SIZE bits) = Ok m' /\ table m' [] raw.
Proof.
  intros Hh Hn. unfold __hash_init. assert (head ht 0 = ht) as H0 by (unfold head; lia).
  assert (Z.of_nat (HASH_SIZE bits) = 2 ^ bits) as Hsz by (unfold HASH_SIZE; lia).
  destruct (hash_init_ok (HASH_SIZE bits) m 0) as (m' & E & H1 & H2); [intros j Hj; apply Hh, heads_in; lia|]. rewrite H0 in E. exists m'. split; [exact E|].
  assert (forall x, (forall h, h ∈ heads -> h <> x) -> m' !! x = m !! x) as Hk.
  { intros x Hx. apply H2. intros j Hj. apply not_eq_sym, Hx, heads_in. lia. }
  split; [constructor | intros p Hp; apply not_elem_of_nil in Hp; destruct Hp | |].
  - intros i Hi. split; [exact I | apply H1; lia].
  - intros p b [Hp ->]%raw_lookup. destruct (Hn p Hp) as [S1 [w Hw]]. split; [exact Hp|].
    rewrite !Hk by (intros h Hh'; apply (apart_heads _ _ Hap h p Hh' Hp)). split; [exact S1|]. exists w. split; [exact Hw | discriminate].
Qed.
End table.

(** C2: hash tables.  An array of chain heads is initialised and then used by any
    sequence of calls that the kernel's rules allow: a node is added only when it is in
    no table, and removed or asked about only when it is in the table or its fields are
    initialised.  At the level of pointers every call returns without leaving the words
    of the table and its nodes, every loop ends, and the answers are those of a plain
    sequence of nodes with their keys: a lookup visits exactly the nodes in the bucket
    of the key, the latest first, a loop over the table visits every node once, and a
    loop that removes nodes as it meets them removes exactly the chosen ones. *)
Theorem hash_ops_refine (ht bits : Z) (ns : list Z) (m : wmem) (ops : list hop) (rs : list hout)
    (A : list (Z * Z)) (idle : gmap Z bool) (fuel : nat) :
  0 <= bits <= 31 -> 0 < ht -> apart (heads ht bits) ns ->
  (forall h, h ∈ heads ht bits -> is_Some (m !! h)) -> (forall p, p ∈ ns -> is_Some (m !! p) /\ is_Some (m !! pprev p)) ->
  (length ns < fuel)%nat -> hops_spec bits ([], raw ns) ops = Some (rs, (A, idle)) ->
  exists m0 m', __hash_init m ht (HASH_SIZE bits) = Ok m0 /\ hops_run ht bits fuel m0 ops = Ok (Some (rs, m')) /\
    table ht bits ns m' A idle.
Proof.
  intros Hb Hht Hap Hh Hn Hf Hs. destruct (hash_init_table ht bits Hb ns Hap m Hh Hn) as (m0 & E0 & T0).
  destruct (hops_simulation ht bits Hb ns Hap Hht ops m0 ([], raw ns) (A, idle) rs fuel T0 Hf Hs) as (m' & E & T).
  exists m0, m'. auto.
Qed.

(** Two buckets at address 64 and two nodes: both are added, one is looked up, one is
    purged. *)
Lemma hash_ops_refine_witness :
  exists m0 m', __hash_init (list_to_map ((fun a => (a, 7)) <$> [64; 68; 100; 104; 200; 204])) 64 2 = Ok m0 /\
    hops_run 64 1 3 m0 [HAdd 100 5; HAdd 200 5; HPossible 5; HPurge (Z.eqb 200); HHashed 200; HEach; HDel 100; HEmpty] =
      Ok (Some ([HDone; HDone; HNodes [200; 100]; HDone; HBool false; HNodes [100]; HDone; HBool true], m')).
Proof.
  set (m := list_to_map _). set (ops := [HAdd 100 5; _; _; _; _; _; _; _]).
  destruct (hash_ops_refine 64 1 [100; 200] m ops [HDone; HDone; HNodes [200; 100]; HDone; HBool false; HNodes [100]; HDone; HBool true]
    [] {[100 := true; 200 := true]} 3) as (m0 & m' & E & E' & _).
  - lia.
  - lia.
  - change (heads 64 1) with [64; 68]. unfold pprev. split; intros; repeat (match goal with H : _ ∈ _ :: _ |- _ => apply elem_of_cons in H as [-> | H] end);
      try match goal with H : _ ∈ [] |- _ => apply not_elem_of_nil in H; destruct H end; unfold pprev; lia.
  - change (heads 64 1) with [64; 68]. intros h Hh. repeat (apply elem_of_cons in Hh as [-> | Hh]; [vm_compute; eauto|]). apply not_elem_of_nil in Hh. destruct Hh.
  - intros p Hp. repeat (apply elem_of_cons in Hp as [-> | Hp]; [vm_compute; eauto|]). apply not_elem_of_nil in Hp. destruct Hp.
  - cbn. lia.
  - vm_compute. reflexivity.
  - exists m0, m'. auto.
Defined.
