(* ===== verification/Addr.v ===== *)
(** * Page arithmetic (include/kernel/mm/paging.h and the index helpers of
      kernel/paging.c)

    Alignment of 32-bit addresses, the number of pages a byte range touches,
    and the decomposition of a linear address into page directory index, page
    table index and offset. *)

From S2P Require Import Prelude.

Definition FRAME_SIZE : Z := 4096.

(** KERNEL_PAGE_OFFSET of sections.ld. *)
Definition kernel_base : Z := 3221225472.

Definition user_base : Z := 4096.

Definition pages_in_range (addr len : Z) : Z :=
  (Z.land addr 4095 +% (len -% 1)) / FRAME_SIZE +% 1.

Definition align_up (addr align : Z) : Z :=
  let mask := align -% 1 in
  if negb (Z.land addr mask =? 0) then Z.land (addr +% align) (~% mask) else addr.

Definition align_down (addr align : Z) : Z := Z.land addr (~% (align -% 1)).

Definition page_aligned (addr : Z) : bool := Z.land addr (FRAME_SIZE - 1) =? 0.

Definition page_align (n : Z) : Z := align_up n FRAME_SIZE.

Definition page_base (n : Z) : Z := align_down n FRAME_SIZE.

(** ** Arithmetic readings *)

Lemma land_low_mask (a k : Z) : 0 <= k -> Z.land a (2 ^ k - 1) = a mod 2 ^ k.
Proof. intros Hk. rewrite Z.sub_1_r, <- Z.ones_equiv. apply Z.land_ones. exact Hk. Qed.

Lemma land_high_mask (x k : Z) :
  in_u32 x -> 0 <= k <= 32 -> Z.land x (~% (2 ^ k - 1)) = x / 2 ^ k * 2 ^ k.
Proof.
  intros Hx Hk. rewrite <- Z.shiftr_div_pow2, <- Z.shiftl_mul_pow2 by lia.
  apply Z.bits_inj'. intros i Hi.
  rewrite Z.land_spec, testbit_uN, Z.lnot_spec, Z.sub_1_r, <- Z.ones_equiv by lia.
  rewrite Z.shiftl_spec by lia. destruct (Z.ltb_spec i k).
  - rewrite Z.ones_spec_low, (Z.testbit_neg_r _ (i - k)) by lia.
    rewrite andb_false_r. apply andb_false_r.
  - rewrite Z.ones_spec_high, Z.shiftr_spec by lia.
    replace (i - k + k) with i by lia. destruct (Z.ltb_spec i 32).
    + rewrite andb_true_r. reflexivity.
    + rewrite (testbit_high 32 x) by (auto; lia). reflexivity.
Qed.

Lemma align_up_eq (a k : Z) :
  in_u32 a -> 0 <= k < 32 ->
  align_up a (2 ^ k) = u32 ((a + 2 ^ k - 1) / 2 ^ k * 2 ^ k).
Proof.
  intros Ha Hk. unfold align_up. cbv zeta.
  assert (0 < 2 ^ k < 2 ^ 32) as Hp
    by (split; [apply Z.pow_pos_nonneg; lia | apply Z.pow_lt_mono_r; lia]).
  rewrite (uN_id 32 (2 ^ k - 1)) by lia.
  rewrite land_low_mask, land_high_mask by (try apply u32_range; lia).
  pose proof (Z.div_mod a (2 ^ k) ltac:(lia)) as Hdm.
  pose proof (Z.mod_pos_bound a (2 ^ k) ltac:(lia)) as Hm.
  destruct (Z.eqb_spec (a mod 2 ^ k) 0) as [E | E]; simpl negb; cbv iota.
  - replace ((a + 2 ^ k - 1) / 2 ^ k) with (a / 2 ^ k)
      by (apply (Z.div_unique_pos _ _ _ (2 ^ k - 1)); lia).
    rewrite uN_id; unfold in_u32 in Ha; lia.
  - replace ((a + 2 ^ k - 1) / 2 ^ k) with (a / 2 ^ k + 1)
      by (apply (Z.div_unique_pos _ _ _ (a mod 2 ^ k - 1)); lia).
    rewrite <- (Z.mul_comm (2 ^ k)).
    replace (2 ^ 32) with (2 ^ k * 2 ^ (32 - k)) in * by (rewrite <- Z.pow_add_r by lia; f_equal; lia).
    unfold uN. replace (2 ^ 32) with (2 ^ k * 2 ^ (32 - k))
      by (rewrite <- Z.pow_add_r by lia; f_equal; lia).
    pose proof (Z.pow_pos_nonneg 2 (32 - k) ltac:(lia) ltac:(lia)).
    rewrite (Z.mul_comm (a / 2 ^ k + 1)), Z.mul_mod_distr_l by lia.
    rewrite Z.rem_mul_r by lia.
    replace ((a + 2 ^ k) / 2 ^ k) with (a / 2 ^ k + 1)
      by (rewrite <- (Z.mul_1_l (2 ^ k)) at 2; rewrite Z.div_add; lia).
    rewrite (Z.mul_comm (2 ^ k) ((a / 2 ^ k + 1) mod _)), Z.div_add by lia.
    rewrite (Z.div_small ((a + 2 ^ k) mod 2 ^ k)) by (apply Z.mod_pos_bound; lia). lia.
Qed.

Lemma page_align_eq (a : Z) : in_u32 a -> page_align a = u32 ((a + 4095) / 4096 * 4096).
Proof.
  intros Ha. unfold page_align, FRAME_SIZE. change 4096 with (2 ^ 12) at 1.
  rewrite align_up_eq by (auto; lia). f_equal. change (2 ^ 12) with 4096. f_equal. f_equal. lia.
Qed.

Lemma page_base_eq (a : Z) : in_u32 a -> page_base a = a / 4096 * 4096.
Proof.
  intros Ha. unfold page_base, align_down, FRAME_SIZE.
  rewrite (uN_id 32 (4096 - 1)) by lia. apply (land_high_mask a 12 Ha). lia.
Qed.

Lemma page_aligned_eq (a : Z) : page_aligned a = (a mod 4096 =? 0).
Proof.
  unfold page_aligned, FRAME_SIZE. f_equal. apply (land_low_mask a 12). lia.
Qed.

Lemma pages_in_range_eq (a len : Z) :
  in_u32 a -> 0 < len < 2 ^ 32 - 4096 ->
  pages_in_range a len = (a mod 4096 + len - 1) / 4096 + 1.
Proof.
  intros Ha Hlen. unfold pages_in_range, FRAME_SIZE.
  change (Z.land a 4095) with (Z.land a (2 ^ 12 - 1)). rewrite land_low_mask by lia.
  change (2 ^ 12) with 4096. word_lia.
Qed.

(** Page alignment of addresses that do not wrap around. *)
Lemma page_align_ge (a : Z) :
  in_u32 a -> a <= 2 ^ 32 - 4096 ->
  a <= page_align a < a + 4096 /\ page_align a mod 4096 = 0.
Proof. intros Ha Hle. rewrite page_align_eq by assumption. word_lia. Qed.

Lemma page_align_id (a : Z) : in_u32 a -> a mod 4096 = 0 -> page_align a = a.
Proof. intros Ha Hle. rewrite page_align_eq by assumption. word_lia. Qed.

Lemma page_base_spec (a : Z) :
  in_u32 a -> page_base a <= a < page_base a + 4096 /\ page_base a mod 4096 = 0.
Proof. intros Ha. rewrite page_base_eq by assumption. lia. Qed.

(** ** Page directory and page table indices *)

Definition addr_to_pdi (addr : Z) : Z := Z.shiftr (Z.land addr 4290772992) 22.

Definition pdi_to_addr (pdi : Z) : Z := u32 (Z.shiftl pdi 22).

Definition addr_to_pti (addr : Z) : Z := Z.shiftr (Z.land addr 4190208) 12.

Definition pti_to_addr (pdi pti : Z) : Z := pdi_to_addr pdi +% u32 (Z.shiftl pti 12).

#[global] Arguments addr_to_pdi : simpl never.
#[global] Arguments addr_to_pti : simpl never.

Lemma land_shifted_mask (a k w : Z) :
  0 <= k -> 0 <= w ->
  Z.shiftr (Z.land a (Z.shiftl (2 ^ w - 1) k)) k = a / 2 ^ k mod 2 ^ w.
Proof.
  intros Hk Hw. rewrite Z.shiftr_land, Z.shiftr_shiftl_l by lia.
  rewrite Z.sub_diag, Z.shiftl_0_r, land_low_mask, Z.shiftr_div_pow2 by lia. reflexivity.
Qed.

Lemma addr_to_pdi_eq (a : Z) : in_u32 a -> addr_to_pdi a = a / 4194304.
Proof.
  intros Ha. unfold addr_to_pdi. change 4290772992 with (Z.shiftl (2 ^ 10 - 1) 22).
  rewrite land_shifted_mask by lia. change (2 ^ 22) with 4194304. change (2 ^ 10) with 1024.
  word_lia.
Qed.

Lemma addr_to_pti_eq (a : Z) : addr_to_pti a = a / 4096 mod 1024.
Proof.
  unfold addr_to_pti. change 4190208 with (Z.shiftl (2 ^ 10 - 1) 12).
  rewrite land_shifted_mask by lia. reflexivity.
Qed.

Lemma pti_to_addr_eq (pdi pti : Z) :
  0 <= pdi < 1024 -> 0 <= pti < 1024 ->
  pti_to_addr pdi pti = pdi * 4194304 + pti * 4096.
Proof.
  intros Hd Ht. unfold pti_to_addr, pdi_to_addr. rewrite !Z.shiftl_mul_pow2 by lia.
  change (2 ^ 22) with 4194304. change (2 ^ 12) with 4096. word_lia.
Qed.

(** The indices determine the page, and every pair of indices is that of the
    page it denotes. *)
Lemma pdi_pti_roundtrip (a : Z) :
  in_u32 a -> pti_to_addr (addr_to_pdi a) (addr_to_pti a) = page_base a.
Proof.
  intros Ha. rewrite addr_to_pdi_eq, addr_to_pti_eq, page_base_eq by assumption.
  rewrite pti_to_addr_eq by word_lia. word_lia.
Qed.

Lemma pti_to_addr_indices (pdi pti : Z) :
  0 <= pdi < 1024 -> 0 <= pti < 1024 ->
  addr_to_pdi (pti_to_addr pdi pti) = pdi /\ addr_to_pti (pti_to_addr pdi pti) = pti.
Proof.
  intros Hd Ht. rewrite pti_to_addr_eq by assumption.
  rewrite addr_to_pdi_eq by word_lia. rewrite addr_to_pti_eq. lia.
Qed.

(** ** Interface of the kernel page allocator

    [kalloc_pages] hands out runs of kernel pages; [mapped s i] says that
    kernel page number [i] is in use in allocator state [s].  The heap and the
    slab allocator are verified against these laws. *)
Class PageAllocator (P : Type) : Type := {
  kalloc_pages : P -> Z -> res (Z * P);
  mapped : P -> Z -> Prop;
}.

Class PageAllocatorLaws (P : Type) `{!PageAllocator P} : Prop := {
  kalloc_pages_fresh (s s' : P) (n a : Z) :
    0 < n -> kalloc_pages s n = Ok (a, s') ->
    0 < a /\ a mod FRAME_SIZE = 0 /\ a + n * FRAME_SIZE < 2 ^ 32 /\
    (forall i, a / FRAME_SIZE <= i < a / FRAME_SIZE + n -> ~ mapped s i) /\
    (forall i, mapped s' i <-> mapped s i \/ a / FRAME_SIZE <= i < a / FRAME_SIZE + n);
}.

(** A bump allocator meets the laws: pages are handed out in increasing order. *)
Definition bump_pages : PageAllocator Z := {|
  kalloc_pages s n :=
    if (0 <? s) && ((s + n) * FRAME_SIZE <? 2 ^ 32) then Ok (s * FRAME_SIZE, s + n)
    else Panic;
  mapped s i := i < s;
|}.

Lemma bump_pages_laws : @PageAllocatorLaws Z bump_pages.
Proof.
  constructor. intros s s' n a Hn. cbn [kalloc_pages mapped bump_pages]. unfold FRAME_SIZE.
  destruct (Z.ltb_spec 0 s); [|discriminate].
  destruct (Z.ltb_spec ((s + n) * 4096) (2 ^ 32)); [|discriminate].
  intros [= <- <-]. rewrite Z.div_mul by lia. split_and!; intros; lia.
Qed.
