(* ===== verification/Slab.v ===== *)
(** * The slab allocator (kernel/slab.c)

    A cache keeps its slabs on three lists.  A slab is one page: the descriptor,
    a bitmap of 256 bits and the objects.  The lists hold the slab descriptors
    themselves, in list order; a descriptor is identified by its address. *)

From S2P Require Import Prelude Bitops Addr.

(** ** Data *)

Record slab : Type := Slab {
  slab_addr : Z;
  in_use : Z;
  slab_mem : Z;
  bitmap : list Z;
}.

#[export] Instance slab_eq_decision : EqDecision slab.
Proof. solve_decision. Defined.

Record slab_cache : Type := SlabCache {
  full : list slab;
  partial : list slab;
  empty : list slab;
  pages_per_slab : Z;
  objs_per_slab : Z;
  obj_size : Z;
}.

(** [sizeof(struct slab)] without the flexible array: two pointers, a counter
    and a pointer. *)
Definition sizeof_slab : Z := 16.

Definition bitmap_length (cache : slab_cache) : Z :=
  cache.(pages_per_slab) *% (256 / BITS_PER_LONG).

Definition bitmap_size (cache : slab_cache) : Z := bitmap_length cache *% 4.

Definition slab_size (cache : slab_cache) : Z := cache.(pages_per_slab) *% FRAME_SIZE.

Definition slab_desc_size (cache : slab_cache) : Z := sizeof_slab +% bitmap_size cache.

Definition slab_mem_size (cache : slab_cache) : Z :=
  slab_size cache -% slab_desc_size cache.

(** ** Operations *)

(** [cache] is the address kmalloc returned for the descriptor. *)
Definition slab_cache_create (cache size : Z) : option slab_cache :=
  if cache =? 0 then None
  else
    let obj_size := if size <? 16 then 16 else size in
    let c := SlabCache [] [] [] 1 0 obj_size in
    Some (SlabCache [] [] [] 1 (slab_mem_size c / obj_size) obj_size).

(** All descriptors, and the one at an address. *)
Definition slabs (c : slab_cache) : list slab := c.(full) ++ c.(partial) ++ c.(empty).

Definition slab_at (c : slab_cache) (a : Z) : option slab :=
  List.find (fun s => s.(slab_addr) =? a) (slabs c).

(** Writing the fields of a descriptor leaves it on its list. *)
Definition put (s : slab) (l : list slab) : list slab :=
  map (fun t => if t.(slab_addr) =? s.(slab_addr) then s else t) l.

Definition slab_store (c : slab_cache) (s : slab) : slab_cache :=
  SlabCache (put s c.(full)) (put s c.(partial)) (put s c.(empty))
    c.(pages_per_slab) c.(objs_per_slab) c.(obj_size).

(** [list_del(&slab->chain)] takes the descriptor off the list it is on. *)
Definition del (a : Z) (l : list slab) : list slab :=
  List.filter (fun t => negb (t.(slab_addr) =? a)) l.

Definition slab_del (c : slab_cache) (a : Z) : slab_cache :=
  SlabCache (del a c.(full)) (del a c.(partial)) (del a c.(empty))
    c.(pages_per_slab) c.(objs_per_slab) c.(obj_size).

Definition add_full (s : slab) (c : slab_cache) : slab_cache :=
  SlabCache (s :: c.(full)) c.(partial) c.(empty)
    c.(pages_per_slab) c.(objs_per_slab) c.(obj_size).

Definition add_partial (s : slab) (c : slab_cache) : slab_cache :=
  SlabCache c.(full) (s :: c.(partial)) c.(empty)
    c.(pages_per_slab) c.(objs_per_slab) c.(obj_size).

Definition add_empty (s : slab) (c : slab_cache) : slab_cache :=
  SlabCache c.(full) c.(partial) (s :: c.(empty))
    c.(pages_per_slab) c.(objs_per_slab) c.(obj_size).

(** The list moves at the end of [slab_alloc] and of [slab_free]. *)
Definition settle_alloc (cache : slab_cache) (s : slab) : slab_cache :=
  if s.(in_use) =? cache.(objs_per_slab)
  then add_full s (slab_del cache s.(slab_addr))
  else if s.(in_use) =? 1
  then add_partial s (slab_del cache s.(slab_addr))
  else cache.

Definition settle_free (cache : slab_cache) (s : slab) : slab_cache :=
  if s.(in_use) =? 0
  then add_empty s (slab_del cache s.(slab_addr))
  else if s.(in_use) +% 1 =? cache.(objs_per_slab)
  then add_partial s (slab_del cache s.(slab_addr))
  else cache.

Section Slab.
Context {P : Type} `{PA : PageAllocator P}.

Definition new_slab (cache : slab_cache) (pg : P) : res (option slab * P) :=
  do ' (a, pg) <- kalloc_pages pg cache.(pages_per_slab);
  if a =? 0 then Ok (None, pg)
  else Ok (Some (Slab a 0 (a +% sizeof_slab +% 4 * bitmap_length cache)
                   (replicate (Z.to_nat (bitmap_length cache)) 0)), pg).

(** Returns the address of the slab to allocate from; [None] is [NULL]. *)
Definition get_slab (cache : slab_cache) (pg : P) : res (option Z * slab_cache * P) :=
  match cache.(partial), cache.(empty) with
  | [], [] =>
      do ' (s, pg) <- new_slab cache pg;
      match s with
      | None => Ok (None, cache, pg)
      | Some s => Ok (Some s.(slab_addr), add_partial s cache, pg)
      end
  | [], s :: _ => Ok (Some s.(slab_addr), cache, pg)
  | s :: _, _ => Ok (Some s.(slab_addr), cache, pg)
  end.

(** The result of [get_slab] is used without a check: a [NULL] slab faults. *)
Definition slab_alloc (cache : slab_cache) (pg : P) : res (Z * slab_cache * P) :=
  do ' (r, cache, pg) <- get_slab cache pg;
  match (match r with Some a => slab_at cache a | None => None end) with
  | None => Fault
  | Some s =>
      do z <- bitmap_ffz s.(bitmap) (bitmap_length cache);
      let zero := u32 z in
      do bm <- bitmap_set s.(bitmap) zero;
      let s := Slab s.(slab_addr) (s.(in_use) +% 1) s.(slab_mem) bm in
      let cache := settle_alloc (slab_store cache s) s in
      Ok (s.(slab_mem) +% zero *% cache.(obj_size), cache, pg)
  end.
End Slab.

Definition slab_end (cache : slab_cache) (s : slab) : Z :=
  s.(slab_mem) +% slab_mem_size cache.

Definition slab_holds (cache : slab_cache) (mem : Z) (s : slab) : bool :=
  (s.(slab_mem) <=? mem) && (mem <? slab_end cache s).

(** The full list is searched first, then the partial one. *)
Definition find_slab (cache : slab_cache) (mem : Z) : option slab :=
  match List.find (slab_holds cache mem) cache.(full) with
  | Some s => Some s
  | None => List.find (slab_holds cache mem) cache.(partial)
  end.

Definition slab_free (cache : slab_cache) (mem : Z) : res slab_cache :=
  match find_slab cache mem with
  | None => Ok cache
  | Some s =>
      let idx := (mem -% s.(slab_mem)) / cache.(obj_size) in
      do bm <- bitmap_clear s.(bitmap) idx;
      let s := Slab s.(slab_addr) (s.(in_use) -% 1) s.(slab_mem) bm in
      Ok (settle_free (slab_store cache s) s)
  end.

(** ** Invariant *)

Definition slab_ok (c : slab_cache) (s : slab) : Prop :=
  0 < s.(slab_addr) /\ s.(slab_addr) mod 4096 = 0 /\ s.(slab_addr) + 4096 < 2 ^ 32 /\
  s.(slab_mem) = s.(slab_addr) + 48 /\
  length s.(bitmap) = 8%nat /\ bm_wf s.(bitmap) /\
  s.(in_use) = cnt (bm_test s.(bitmap)) (Z.to_nat c.(objs_per_slab)) /\
  (forall i, c.(objs_per_slab) <= i -> bm_test s.(bitmap) i = false).

Definition cache_ok (c : slab_cache) : Prop :=
  16 <= c.(obj_size) <= 4048 /\ c.(pages_per_slab) = 1 /\
  c.(objs_per_slab) = 4048 / c.(obj_size).

Definition classified (c : slab_cache) : Prop :=
  Forall (fun s => s.(in_use) = c.(objs_per_slab)) c.(full) /\
  Forall (fun s => 0 < s.(in_use) < c.(objs_per_slab)) c.(partial) /\
  Forall (fun s => s.(in_use) = 0) c.(empty).

(** The invariant of a cache: descriptors agree with their bitmaps, every slab
    is on the list its number of objects calls for, no slab is on two lists. *)
Definition cache_inv (c : slab_cache) : Prop :=
  cache_ok c /\ Forall (slab_ok c) (slabs c) /\ NoDup (map slab_addr (slabs c)) /\
  classified c.

(** Object [p] is in use in slab [s], and in some slab of the cache. *)
Definition slot (c : slab_cache) (s : slab) (p : Z) : Prop :=
  exists i, 0 <= i < c.(objs_per_slab) /\ bm_test s.(bitmap) i = true /\
    p = s.(slab_mem) + i * c.(obj_size).

Definition allocated (c : slab_cache) (p : Z) : Prop :=
  exists s, s ∈ slabs c /\ slot c s p.

Definition backed {P : Type} `{PA : PageAllocator P} (c : slab_cache) (pg : P) : Prop :=
  forall s, s ∈ slabs c -> mapped pg (s.(slab_addr) / FRAME_SIZE).

(** ** List bookkeeping *)

Lemma put_notin (s : slab) (l : list slab) :
  (forall t, t ∈ l -> t.(slab_addr) <> s.(slab_addr)) -> put s l = l.
Proof.
  intros H. unfold put. rewrite <- (map_id l) at 2. apply map_ext_in. intros t Ht.
  destruct (Z.eqb_spec (slab_addr t) (slab_addr s)) as [E |]; [|reflexivity].
  destruct (H t); [apply list_elem_of_In, Ht | exact E].
Qed.

Lemma del_notin (a : Z) (l : list slab) :
  (forall t, t ∈ l -> t.(slab_addr) <> a) -> del a l = l.
Proof.
  induction l as [| t l IH]; intros H; [reflexivity|]. simpl.
  destruct (Z.eqb_spec (slab_addr t) a) as [E |]; [destruct (H t); set_solver|].
  simpl. f_equal. apply IH. set_solver.
Qed.

Lemma put_mid (s t : slab) (l1 l2 : list slab) :
  t.(slab_addr) = s.(slab_addr) ->
  (forall u, u ∈ l1 ++ l2 -> u.(slab_addr) <> s.(slab_addr)) ->
  put s (l1 ++ t :: l2) = l1 ++ s :: l2.
Proof.
  intros E H. unfold put. rewrite map_app. simpl. rewrite E, Z.eqb_refl.
  f_equal; [|f_equal]; apply put_notin; set_solver.
Qed.

Lemma del_mid (a : Z) (t : slab) (l1 l2 : list slab) :
  t.(slab_addr) = a -> (forall u, u ∈ l1 ++ l2 -> u.(slab_addr) <> a) ->
  del a (l1 ++ t :: l2) = l1 ++ l2.
Proof.
  intros E H. unfold del. rewrite List.filter_app. simpl. rewrite E, Z.eqb_refl. simpl.
  f_equal; apply del_notin; set_solver.
Qed.

Lemma put_head (s t : slab) (l : list slab) :
  t.(slab_addr) = s.(slab_addr) ->
  (forall u, u ∈ l -> u.(slab_addr) <> s.(slab_addr)) -> put s (t :: l) = s :: l.
Proof. apply (put_mid s t [] l). Qed.

Lemma del_head (a : Z) (t : slab) (l : list slab) :
  t.(slab_addr) = a -> (forall u, u ∈ l -> u.(slab_addr) <> a) -> del a (t :: l) = l.
Proof. apply (del_mid a t [] l). Qed.

Lemma nodup_addr (l l1 l2 : list slab) (s : slab) :
  NoDup (map slab_addr l) -> l ≡ₚ s :: l1 ++ l2 ->
  forall t, t ∈ l1 \/ t ∈ l2 -> t.(slab_addr) <> s.(slab_addr).
Proof.
  intros Hnd Hp t Ht E. rewrite Hp in Hnd. simpl in Hnd. apply NoDup_cons in Hnd as [Hn _].
  apply Hn. rewrite <- E. apply list_elem_of_In, in_map, list_elem_of_In. set_solver.
Qed.

Lemma find_unique (s : slab) (f : slab -> bool) (l : list slab) :
  s ∈ l -> f s = true -> (forall t, t ∈ l -> f t = true -> t = s) ->
  List.find f l = Some s.
Proof.
  induction l as [| t l IH]; [set_solver|]. intros Hs Hf Hu. simpl.
  destruct (f t) eqn:E; [f_equal; apply Hu; set_solver|].
  apply IH; [|exact Hf | set_solver]. apply elem_of_cons in Hs as [-> | Hs]; [congruence | exact Hs].
Qed.

Lemma find_none_intro (f : slab -> bool) (l : list slab) :
  (forall t, t ∈ l -> f t = false) -> List.find f l = None.
Proof.
  induction l as [| t l IH]; intros H; [reflexivity|]. simpl.
  rewrite H by set_solver. apply IH. set_solver.
Qed.

(** ** Geometry of a slab *)

Lemma cache_sizes (c : slab_cache) :
  cache_ok c -> bitmap_length c = 8 /\ slab_mem_size c = 4048 /\
    1 <= c.(objs_per_slab) <= 253.
Proof.
  intros (Hs & Hp & Ho).
  unfold bitmap_length, slab_mem_size, slab_size, slab_desc_size, bitmap_size, bitmap_length,
    sizeof_slab, BITS_PER_LONG, FRAME_SIZE. rewrite Hp. split; [reflexivity|].
  split; [reflexivity|]. rewrite Ho. split.
  - apply Z.div_le_lower_bound; lia.
  - apply Z.div_le_upper_bound; nia.
Qed.

Lemma obj_fits (c : slab_cache) (i : Z) :
  cache_ok c -> 0 <= i < c.(objs_per_slab) ->
  0 <= i * c.(obj_size) /\ i * c.(obj_size) + c.(obj_size) <= 4048.
Proof.
  intros (Hs & _ & Ho) Hi. rewrite Ho in Hi.
  pose proof (Z.mul_div_le 4048 c.(obj_size) ltac:(lia)). nia.
Qed.

(** Objects with different slots do not overlap. *)
Lemma objects_disjoint (c : slab_cache) (s t : slab) (i j : Z) :
  cache_ok c -> slab_ok c s -> slab_ok c t ->
  0 <= i < c.(objs_per_slab) -> 0 <= j < c.(objs_per_slab) ->
  s.(slab_addr) <> t.(slab_addr) \/ i <> j ->
  s.(slab_mem) + i * c.(obj_size) + c.(obj_size) <= t.(slab_mem) + j * c.(obj_size) \/
  t.(slab_mem) + j * c.(obj_size) + c.(obj_size) <= s.(slab_mem) + i * c.(obj_size).
Proof.
  intros Hc (_ & Hsa & _ & Hsm & _) (_ & Hta & _ & Htm & _) Hi Hj Hne.
  pose proof (obj_fits c i Hc Hi). pose proof (obj_fits c j Hc Hj).
  rewrite Hsm, Htm. destruct (Z.eq_dec (slab_addr s) (slab_addr t)) as [E | E]; [|lia].
  rewrite E. destruct Hc as (Hs & _). destruct Hne as [| Hne]; [contradiction|].
  destruct (Z.lt_ge_cases i j); [left | right]; nia.
Qed.

Lemma slot_inj (c : slab_cache) (s t : slab) (i j : Z) :
  cache_ok c -> slab_ok c s -> slab_ok c t ->
  0 <= i < c.(objs_per_slab) -> 0 <= j < c.(objs_per_slab) ->
  s.(slab_mem) + i * c.(obj_size) = t.(slab_mem) + j * c.(obj_size) ->
  s.(slab_addr) = t.(slab_addr) /\ i = j.
Proof.
  intros Hc Hs Ht Hi Hj E.
  destruct (Z.eq_dec (slab_addr s) (slab_addr t)) as [Ea | Ea],
    (Z.eq_dec i j) as [Ei | Ei]; auto; exfalso;
    destruct (objects_disjoint c s t i j) as [H | H]; auto; destruct Hc; lia.
Qed.

(** ** Effect of rewriting one descriptor

    [c'] is [c] with descriptor [s] replaced by [s'], up to the order and the
    lists on which the descriptors are. *)
Definition replaces (c c' : slab_cache) (s s' : slab) : Prop :=
  c'.(pages_per_slab) = c.(pages_per_slab) /\
  c'.(objs_per_slab) = c.(objs_per_slab) /\ c'.(obj_size) = c.(obj_size) /\
  s'.(slab_addr) = s.(slab_addr) /\ s'.(slab_mem) = s.(slab_mem) /\
  exists R, slabs c ≡ₚ s :: R /\ slabs c' ≡ₚ s' :: R.

Lemma slab_ok_sizes (c c' : slab_cache) (s : slab) :
  c'.(objs_per_slab) = c.(objs_per_slab) -> slab_ok c s -> slab_ok c' s.
Proof. unfold slab_ok. intros ->. auto. Qed.

Lemma replaces_inv (c c' : slab_cache) (s s' : slab) :
  replaces c c' s s' -> cache_ok c -> Forall (slab_ok c) (slabs c) ->
  NoDup (map slab_addr (slabs c)) -> slab_ok c s' ->
  cache_ok c' /\ Forall (slab_ok c') (slabs c') /\ NoDup (map slab_addr (slabs c')).
Proof.
  intros (Hp & Ho & Hs & Ha & _ & R & HR & HR') Hc Hok Hnd Hs'. split; [|split].
  - unfold cache_ok. rewrite Hp, Ho, Hs. exact Hc.
  - rewrite HR'. rewrite HR in Hok. inversion Hok; subst. constructor.
    + eapply slab_ok_sizes; eauto.
    + eapply Forall_impl; [eassumption|]. intros t. apply slab_ok_sizes, Ho.
  - rewrite HR'. simpl. rewrite Ha. rewrite HR in Hnd. exact Hnd.
Qed.

Lemma allocated_split (c : slab_cache) (s : slab) (R : list slab) (p : Z) :
  slabs c ≡ₚ s :: R -> allocated c p <-> slot c s p \/ exists t, t ∈ R /\ slot c t p.
Proof.
  intros HR. unfold allocated. split.
  - intros (t & Ht & Hp). rewrite HR in Ht. apply elem_of_cons in Ht as [-> | Ht]; eauto.
  - intros [Hp | (t & Ht & Hp)]; [exists s | exists t]; rewrite HR; split; set_solver.
Qed.

Lemma slot_sizes (c c' : slab_cache) (s : slab) (p : Z) :
  c'.(objs_per_slab) = c.(objs_per_slab) -> c'.(obj_size) = c.(obj_size) ->
  slot c' s p <-> slot c s p.
Proof. unfold slot. intros -> ->. reflexivity. Qed.

Lemma replaces_allocated (c c' : slab_cache) (s s' : slab) (R : list slab) (p : Z) :
  c'.(objs_per_slab) = c.(objs_per_slab) -> c'.(obj_size) = c.(obj_size) ->
  slabs c' ≡ₚ s' :: R ->
  allocated c' p <-> slot c s' p \/ exists t, t ∈ R /\ slot c t p.
Proof.
  intros Ho Hs HR. rewrite (allocated_split c' s' R p HR), (slot_sizes c c') by assumption.
  split; (intros [H | (t & Ht & H)]; [auto|]); right; exists t;
    rewrite (slot_sizes c c') in *; auto.
Qed.

(** Setting the clear bit [z] of [s] puts exactly one new object in use. *)
Lemma alloc_effect (c c' : slab_cache) (s s' : slab) (z p : Z) :
  replaces c c' s s' -> cache_ok c -> Forall (slab_ok c) (slabs c) ->
  NoDup (map slab_addr (slabs c)) ->
  0 <= z < c.(objs_per_slab) -> bm_test s.(bitmap) z = false ->
  (forall j, 0 <= j -> bm_test s'.(bitmap) j = if j =? z then true else bm_test s.(bitmap) j) ->
  (allocated c' p <-> p = s.(slab_mem) + z * c.(obj_size) \/ allocated c p) /\
  ~ allocated c (s.(slab_mem) + z * c.(obj_size)).
Proof.
  intros (Hp & Ho & Hs & Ha & Hm & R & HR & HR') Hc Hok Hnd Hz Hclr Hbits.
  assert (slab_ok c s) as Hsok by (eapply Forall_forall; [exact Hok | rewrite HR; set_solver]).
  split.
  - rewrite (replaces_allocated c c' s' s' R p), (allocated_split c s R p HR) by assumption.
    assert (slot c s' p <-> p = s.(slab_mem) + z * c.(obj_size) \/ slot c s p); [|tauto].
    unfold slot. rewrite Hm. split.
    + intros (i & Hi & Hb & ->). rewrite Hbits in Hb by lia.
      destruct (Z.eqb_spec i z) as [-> |]; eauto.
    + intros [-> | (i & Hi & Hb & ->)]; [exists z | exists i]; rewrite Hbits by lia.
      * rewrite Z.eqb_refl. auto.
      * destruct (Z.eqb_spec i z); auto.
  - intros (t & Ht & i & Hi & Hb & E).
    assert (slab_ok c t) as Htok by (eapply Forall_forall; [exact Hok | exact Ht]).
    destruct (slot_inj c s t z i Hc Hsok Htok Hz Hi E) as [Ea ->].
    rewrite HR in Ht. apply elem_of_cons in Ht as [-> | Ht]; [congruence|].
    refine (nodup_addr (slabs c) R [] s Hnd _ t (or_introl Ht) (eq_sym Ea)).
    rewrite app_nil_r. exact HR.
Qed.

(** Clearing the set bit [z] of [s] takes exactly one object out of use. *)
Lemma free_effect (c c' : slab_cache) (s s' : slab) (z p : Z) :
  replaces c c' s s' -> cache_ok c -> Forall (slab_ok c) (slabs c) ->
  NoDup (map slab_addr (slabs c)) -> 0 <= z < c.(objs_per_slab) ->
  (forall j, 0 <= j -> bm_test s'.(bitmap) j = if j =? z then false else bm_test s.(bitmap) j) ->
  allocated c' p <-> allocated c p /\ p <> s.(slab_mem) + z * c.(obj_size).
Proof.
  intros (Hp & Ho & Hs & Ha & Hm & R & HR & HR') Hc Hok Hnd Hz Hbits.
  assert (slab_ok c s) as Hsok by (eapply Forall_forall; [exact Hok | rewrite HR; set_solver]).
  rewrite (replaces_allocated c c' s' s' R p), (allocated_split c s R p HR) by assumption.
  assert (forall t, t ∈ R -> slot c t p -> p <> s.(slab_mem) + z * c.(obj_size)) as HRne.
  { intros t Ht (i & Hi & Hb & ->) E. symmetry in E.
    assert (slab_ok c t) as Htok by (eapply Forall_forall; [exact Hok | rewrite HR; set_solver]).
    destruct (slot_inj c s t z i Hc Hsok Htok Hz Hi E) as [Ea _].
    refine (nodup_addr (slabs c) R [] s Hnd _ t (or_introl Ht) (eq_sym Ea)).
    rewrite app_nil_r. exact HR. }
  assert (slot c s' p <-> slot c s p /\ p <> s.(slab_mem) + z * c.(obj_size)) as Hslot.
  { unfold slot. rewrite Hm. split.
    - intros (i & Hi & Hb & ->). rewrite Hbits in Hb by lia.
      destruct (Z.eqb_spec i z); [discriminate|]. split; [eauto|]. destruct Hc. nia.
    - intros ((i & Hi & Hb & ->) & Hne). exists i. rewrite Hbits by lia.
      destruct (Z.eqb_spec i z) as [-> |]; [congruence | auto]. }
  rewrite Hslot. split; [|tauto].
  intros [? | (t & Ht & Hpt)]; [tauto|]. split; [right; eauto | eauto].
Qed.

(** ** Allocation *)

(** The part of [slab_alloc] inside one slab with room. *)
Lemma alloc_in_slab (c : slab_cache) (s : slab) :
  cache_ok c -> slab_ok c s -> s.(in_use) < c.(objs_per_slab) ->
  exists z bm,
    bitmap_ffz s.(bitmap) (bitmap_length c) = Ok z /\ u32 z = z /\
    bitmap_set s.(bitmap) z = Ok bm /\ 0 <= z < c.(objs_per_slab) /\
    bm_test s.(bitmap) z = false /\
    (forall j, 0 <= j -> bm_test bm j = if j =? z then true else bm_test s.(bitmap) j) /\
    s.(in_use) +% 1 = s.(in_use) + 1 /\
    slab_ok c (Slab s.(slab_addr) (s.(in_use) + 1) s.(slab_mem) bm) /\
    s.(slab_mem) +% z *% c.(obj_size) = s.(slab_mem) + z * c.(obj_size).
Proof.
  intros Hc Hs Hlt. destruct (cache_sizes c Hc) as (Hbl & _ & Hobj).
  destruct Hs as (Ha0 & Ha & Ha1 & Hm & Hlen & Hwf & Huse & Hhi).
  destruct (bitmap_ffz_full_spec (bitmap s) Hwf) as (z & Ez & Hz).
  rewrite Hlen in Ez, Hz. change (Z.of_nat 8) with 8 in Ez, Hz.
  destruct (cnt_not_full (bm_test (bitmap s)) (Z.to_nat (objs_per_slab c))) as (i & Hi & Hcl);
    [lia|].
  destruct Hz as [[-> Hall] | (Hz & Hclr & Hlow)]; [rewrite Hall in Hcl; lia || discriminate|].
  assert (z < objs_per_slab c) as Hzo.
  { destruct (Z.lt_ge_cases i z) as [Hiz |]; [rewrite Hlow in Hcl by lia; discriminate | lia]. }
  destruct (bitmap_set_spec (bitmap s) z Hwf) as (bm & Eb & Hwf' & Hlen' & Hbits);
    [rewrite Hlen; lia|].
  pose proof (cnt_bounds (bm_test (bitmap s)) (Z.to_nat (objs_per_slab c))) as Hcb.
  pose proof (obj_fits c z Hc ltac:(lia)) as Hfit.
  exists z, bm. rewrite Hbl. split; [exact Ez|]. split; [apply uN_id; lia|].
  split; [exact Eb|]. split; [lia|]. split; [exact Hclr|]. split; [exact Hbits|].
  split; [apply uN_id; lia|]. split.
  - repeat split; simpl; auto; [congruence | |].
    + rewrite (cnt_set (bm_test (bitmap s)) (bm_test bm) _ z); [lia | lia | exact Hclr | |].
      * rewrite Hbits, Z.eqb_refl by lia. reflexivity.
      * intros j Hj Hne. rewrite Hbits by lia. destruct (Z.eqb_spec j z); [lia | reflexivity].
    + intros j Hj. rewrite Hbits by lia. destruct (Z.eqb_spec j z); [lia | auto].
  - pose proof Hc as (Hsz & _).
    rewrite (uN_id 32 (z * obj_size c)) by lia. apply uN_id. lia.
Qed.

(** What [get_slab] returns: a slab with room, at the front of the partial list
    or, when that one is empty, of the empty list; possibly a new one. *)
Section Alloc.
Context {P : Type} `{PA : PageAllocator P} `{!PageAllocatorLaws P}.

Lemma new_slab_ok (c : slab_cache) (pg pg' : P) (s : option slab) :
  cache_ok c -> new_slab c pg = Ok (s, pg') ->
  exists n, s = Some n /\ slab_ok c n /\ n.(in_use) = 0 /\
    (forall i, bm_test n.(bitmap) i = false) /\ ~ mapped pg (n.(slab_addr) / FRAME_SIZE) /\
    (forall i, mapped pg' i <-> mapped pg i \/ i = n.(slab_addr) / FRAME_SIZE).
Proof.
  intros Hc. destruct (cache_sizes c Hc) as (Hbl & _ & Hobj). pose proof Hc as (_ & Hp & _).
  unfold new_slab. rewrite Hp. intros H. apply res_bind_ok in H as ([a pg1] & Hk & H).
  destruct (kalloc_pages_fresh pg pg1 1 a ltac:(lia) Hk) as (Ha0 & Ham & Ha1 & Hfr & Hmap).
  unfold FRAME_SIZE in *. destruct (Z.eqb_spec a 0); [lia|]. simplify_eq.
  rewrite Hbl. unfold sizeof_slab. change (Z.to_nat 8) with 8%nat.
  assert (u32 (u32 (a + 16) + 4 * 8) = a + 48) as -> by word_lia.
  eexists. split; [reflexivity|]. split; [|split; [reflexivity|split; [|split]]].
  - assert (forall i, bm_test (replicate 8 0) i = false) as Hbt
      by (intros; apply bm_test_zero).
    repeat split; simpl; auto; try lia.
    + apply (Forall_replicate in_u32 8 0). word_lia.
    + symmetry. rewrite (cnt_ext _ (fun _ => false)) by (intros; apply Hbt).
      generalize (Z.to_nat (objs_per_slab c)). induction n0; simpl; lia.
  - intros i. apply (bm_test_zero 8).
  - apply Hfr. simpl. lia.
  - intros i. simpl. rewrite Hmap. split; (intros [|]; [auto|]); lia.
Qed.

(** The three shapes of the cache [get_slab] leaves, [s] being its slab. *)
Definition front (c : slab_cache) (s : slab) : Prop :=
  (exists R, c.(partial) = s :: R) \/ (c.(partial) = [] /\ exists R, c.(empty) = s :: R).

Lemma get_slab_ok (c c1 : slab_cache) (pg pg' : P) (r : option Z) :
  cache_inv c -> backed c pg -> get_slab c pg = Ok (r, c1, pg') ->
  exists s, r = Some s.(slab_addr) /\ front c1 s /\ s.(in_use) < c.(objs_per_slab) /\
    cache_ok c1 /\ c1.(objs_per_slab) = c.(objs_per_slab) /\ c1.(obj_size) = c.(obj_size) /\
    Forall (slab_ok c1) (slabs c1) /\ NoDup (map slab_addr (slabs c1)) /\
    Forall (fun t => t.(in_use) = c.(objs_per_slab)) c1.(full) /\
    Forall (fun t => t <> s -> 0 < t.(in_use) < c.(objs_per_slab)) c1.(partial) /\
    Forall (fun t => t.(in_use) = 0) c1.(empty) /\
    (forall p, allocated c1 p <-> allocated c p) /\ backed c1 pg'.
Proof.
  intros (Hc & Hok & Hnd & Hf & Hp & He) Hb H. pose proof (cache_sizes c Hc) as (_ & _ & Hobj).
  unfold get_slab in H. destruct (partial c) as [| s R] eqn:Ep.
  - destruct (empty c) as [| s R] eqn:Ee.
    + apply res_bind_ok in H as ([s pg1] & Hn & H).
      destruct (new_slab_ok c pg pg1 s Hc Hn) as (n & -> & Hsok & Hn0 & Hbt & Hfr & Hmap).
      simplify_eq. exists n.
      assert (slabs (add_partial n c) ≡ₚ n :: slabs c) as HR.
      { unfold slabs. simpl. rewrite Ep, Ee. solve_Permutation. }
      assert (forall p, ~ slot c n p) as Hns.
      { intros p (i & _ & Hbit & _). rewrite Hbt in Hbit. discriminate. }
      split_and!; auto.
      * left. simpl. rewrite Ep. eauto.
      * lia.
      * rewrite HR. constructor; [exact Hsok | exact Hok].
      * rewrite HR. simpl. constructor; [|exact Hnd]. rewrite list_elem_of_In, in_map_iff.
        intros (t & Et & Ht). apply Hfr. rewrite <- Et. apply Hb, list_elem_of_In, Ht.
      * simpl. rewrite Ep. constructor; [congruence | constructor].
      * simpl. rewrite Ee. constructor.
      * intros p. rewrite (allocated_split (add_partial n c) n (slabs c) p HR). split.
        -- intros [Ha | (t & Ht & Ha)]; [destruct (Hns p); exact Ha | exists t; auto].
        -- intros (t & Ht & Ha). right. exists t. auto.
      * intros t Ht. apply Hmap. rewrite HR in Ht.
        apply elem_of_cons in Ht as [-> | Ht]; [right; reflexivity | left; auto].
    + simplify_eq. exists s. inversion He; subst. split_and!; auto; try tauto.
      * right. eauto.
      * lia.
      * rewrite Ep. constructor.
      * rewrite Ee. constructor; auto.
  - simplify_eq. exists s. inversion Hp; subst. split_and!; auto; try tauto; try lia.
    * left. eauto.
    * rewrite Ep. eapply Forall_impl; [exact Hp | auto].
Qed.
End Alloc.

Lemma slab_at_found (c : slab_cache) (s : slab) :
  NoDup (map slab_addr (slabs c)) -> s ∈ slabs c -> slab_at c s.(slab_addr) = Some s.
Proof.
  intros Hnd Hs. apply find_unique; [exact Hs | apply Z.eqb_refl |].
  intros t Ht E. apply Z.eqb_eq in E. apply list_elem_of_split in Hs as (l1 & l2 & HR).
  rewrite HR in Ht. apply elem_of_app in Ht. rewrite elem_of_cons in Ht.
  destruct (decide (t = s)) as [| Hne]; [assumption|].
  destruct (nodup_addr (slabs c) l1 l2 s Hnd) with t; [|tauto | exact E].
  rewrite HR. symmetry. apply Permutation_middle.
Qed.

(** The lists after the descriptor at the front was rewritten, in place and
    taken off its list. *)
Lemma front_shape (c : slab_cache) (s s' : slab) :
  NoDup (map slab_addr (slabs c)) -> front c s -> s'.(slab_addr) = s.(slab_addr) ->
  exists Rp Re, slabs c ≡ₚ s :: c.(full) ++ Rp ++ Re /\
    (forall t, t ∈ Rp -> t ∈ c.(partial) /\ t <> s) /\ (forall t, t ∈ Re -> t ∈ c.(empty)) /\
    slab_del (slab_store c s') s'.(slab_addr) =
      SlabCache c.(full) Rp Re c.(pages_per_slab) c.(objs_per_slab) c.(obj_size) /\
    (s ∈ c.(partial) -> slab_store c s' =
      SlabCache c.(full) (s' :: Rp) Re c.(pages_per_slab) c.(objs_per_slab) c.(obj_size)).
Proof.
  intros Hnd Hfr Ha.
  assert (exists Rp Re, slabs c ≡ₚ s :: c.(full) ++ Rp ++ Re /\
    ((c.(partial) = s :: Rp /\ c.(empty) = Re) \/
     (c.(partial) = [] /\ Rp = [] /\ c.(empty) = s :: Re))) as (Rp & Re & HR & Hcase).
  { unfold slabs. destruct Hfr as [[R E] | [E1 [R E2]]].
    - exists R, (empty c). split; [rewrite E; solve_Permutation | auto].
    - exists [], R. split; [rewrite E1, E2; solve_Permutation | auto]. }
  pose proof (nodup_addr (slabs c) (full c) (Rp ++ Re) s Hnd HR) as Hne.
  assert (forall t, t ∈ Rp ++ Re \/ t ∈ full c -> slab_addr t <> slab_addr s') as Hne'.
  { intros t Ht. rewrite Ha. apply Hne. tauto. }
  exists Rp, Re. split; [exact HR|].
  assert (forall t, t ∈ Rp -> t <> s) as Hns.
  { intros t Ht ->. apply (Hne s); [set_solver | reflexivity]. }
  unfold slab_del, slab_store. simpl.
  rewrite (put_notin s' (full c)), (del_notin _ (full c)) by (intros; apply Hne'; auto).
  destruct Hcase as [[Ep Ee] | (Ep & -> & Ee)]; rewrite Ep, Ee.
  - rewrite (put_head s' s Rp) by (auto; intros; apply Hne'; set_solver).
    rewrite (put_notin s' Re), (del_notin _ Re) by (intros; apply Hne'; set_solver).
    rewrite (del_head _ s' Rp) by (auto; intros; apply Hne'; set_solver).
    split_and!; auto. intros t Ht. split; [set_solver | auto].
  - rewrite (put_head s' s Re) by (auto; intros; apply Hne'; set_solver).
    rewrite (del_head _ s' Re) by (auto; intros; apply Hne'; set_solver).
    split_and!; auto; set_solver.
Qed.

Lemma slab_ok_in_use (c : slab_cache) (s : slab) :
  slab_ok c s -> 0 <= s.(in_use) <= Z.of_nat (Z.to_nat c.(objs_per_slab)).
Proof. intros (_ & _ & _ & _ & _ & _ & -> & _). apply cnt_bounds. Qed.

Lemma settle_alloc_ok (c : slab_cache) (s s' : slab) :
  NoDup (map slab_addr (slabs c)) -> front c s -> slab_ok c s ->
  Forall (fun t => t.(in_use) = c.(objs_per_slab)) c.(full) ->
  Forall (fun t => t <> s -> 0 < t.(in_use) < c.(objs_per_slab)) c.(partial) ->
  Forall (fun t => t.(in_use) = 0) c.(empty) ->
  s.(in_use) < c.(objs_per_slab) -> s'.(in_use) = s.(in_use) + 1 ->
  s'.(slab_addr) = s.(slab_addr) -> s'.(slab_mem) = s.(slab_mem) ->
  replaces c (settle_alloc (slab_store c s') s') s s' /\
  classified (settle_alloc (slab_store c s') s').
Proof.
  intros Hnd Hfr Hsok Hf Hp He Hlt Hinc Ha Hm. pose proof (slab_ok_in_use c s Hsok) as Hge.
  destruct (front_shape c s s' Hnd Hfr Ha) as (Rp & Re & HR & HRp & HRe & Hdel & Hput).
  assert (Forall (fun t => 0 < in_use t < objs_per_slab c) Rp) as HFp.
  { apply Forall_forall. intros t Ht. destruct (HRp t Ht) as [Htp Hts].
    rewrite Forall_forall in Hp. auto. }
  assert (Forall (fun t => in_use t = 0) Re) as HFe.
  { apply Forall_forall. intros t Ht. rewrite Forall_forall in He. auto. }
  unfold settle_alloc. rewrite Hdel, Hinc. change (objs_per_slab (slab_store c s')) with (objs_per_slab c).
  destruct (Z.eqb_spec (in_use s + 1) (objs_per_slab c));
    [|destruct (Z.eqb_spec (in_use s + 1) 1);
      [|rewrite Hput by
          (destruct Hfr as [[R E] | [_ [R E]]]; [rewrite E; set_solver|];
           rewrite E in He; inversion He; lia)]].
  all: split;
    [repeat split; auto; exists (full c ++ Rp ++ Re); split; [exact HR | unfold slabs; simpl; solve_Permutation]
    | split_and!; simpl; auto; constructor; auto; lia].
Qed.

Section AllocTheorem.
Context {P : Type} `{PA : PageAllocator P} `{!PageAllocatorLaws P}.

Lemma get_slab_total (c : slab_cache) (pg : P) :
  cache_ok c -> (c.(partial) <> [] \/ c.(empty) <> [] \/ exists r, kalloc_pages pg 1 = Ok r) ->
  exists r, get_slab c pg = Ok r.
Proof.
  intros (_ & Hp & _) H. unfold get_slab.
  destruct (partial c); [|eauto]. destruct (empty c); [|eauto].
  destruct H as [H | [H | [[a pg'] Hk]]]; [contradiction | contradiction |].
  unfold new_slab. rewrite Hp, Hk. simpl. destruct (a =? 0); simpl; eauto.
Qed.

Lemma slab_alloc_spec (c : slab_cache) (pg : P) :
  cache_inv c -> backed c pg ->
  (c.(partial) <> [] \/ c.(empty) <> [] \/ exists r, kalloc_pages pg 1 = Ok r) ->
  exists p c' pg', slab_alloc c pg = Ok (p, c', pg') /\
    cache_inv c' /\ backed c' pg' /\
    ~ allocated c p /\ (forall q, allocated c' q <-> q = p \/ allocated c q) /\
    c'.(obj_size) = c.(obj_size) /\ c'.(objs_per_slab) = c.(objs_per_slab).
Proof.
  intros Hinv Hb Hav. pose proof Hinv as (Hc0 & _).
  destruct (get_slab_total c pg Hc0 Hav) as [[[r c1] pg'] Hg]. unfold slab_alloc. rewrite Hg.
  destruct (get_slab_ok c c1 pg pg' r Hinv Hb Hg)
    as (s & -> & Hfr & Hlt & Hc & Ho & Hos & Hok & Hnd & Hf & Hp & He & Hal & Hb').
  simpl res_bind. assert (s ∈ slabs c1) as Hin.
  { unfold slabs. destruct Hfr as [[R E] | [_ [R E]]]; rewrite E; set_solver. }
  assert (slab_ok c1 s) as Hsok by (eapply Forall_forall; eauto).
  rewrite (slab_at_found c1 s Hnd Hin). rewrite <- Ho in Hlt.
  destruct (alloc_in_slab c1 s Hc Hsok Hlt)
    as (z & bm & Ez & Eu & Eb & Hz & Hclr & Hbits & Einc & Hs'ok & Ep).
  rewrite Ez. simpl res_bind. rewrite Eu, Eb. simpl res_bind. rewrite Einc.
  set (s' := Slab (slab_addr s) (in_use s + 1) (slab_mem s) bm) in *.
  set (c' := settle_alloc _ _).
  destruct (settle_alloc_ok c1 s s') as [Hrep Hcl]; auto.
  1, 2: rewrite Ho; assumption. fold c' in Hrep, Hcl.
  destruct (replaces_inv c1 c' s s' Hrep Hc Hok Hnd Hs'ok) as (Hc' & Hok' & Hnd').
  pose proof Hrep as (_ & Ho' & Hsz & _ & _ & R & HRR & HRR').
  exists (slab_mem s + z * obj_size c1), c', pg'.
  split; [rewrite <- Ep, <- Hsz; reflexivity|].
  pose proof (alloc_effect c1 c' s s' z) as Heff.
  split_and!; auto.
  - repeat (split; [assumption|]). assumption.
  - intros t Ht. rewrite HRR' in Ht. apply elem_of_cons in Ht as [-> | Ht].
    + apply (Hb' s). rewrite HRR. set_solver.
    + apply Hb'. rewrite HRR. set_solver.
  - intros Ha. destruct (Heff 0) as [_ Hn]; auto. apply Hn, Hal, Ha.
  - intros q. rewrite <- Hal. destruct (Heff q) as [Hq _]; auto.
  - congruence.
  - congruence.
Qed.
End AllocTheorem.

(** ** Freeing *)

Lemma slot_in_use (c : slab_cache) (s : slab) (p : Z) :
  slab_ok c s -> slot c s p -> 0 < s.(in_use).
Proof.
  intros Hok (i & Hi & Hb & _). pose proof (slab_ok_in_use c s Hok) as Hge.
  destruct Hok as (_ & _ & _ & _ & _ & _ & Huse & _).
  destruct (Z.eq_dec (in_use s) 0) as [E | E]; [|lia]. rewrite E in Huse. symmetry in Huse.
  rewrite (cnt_zero _ _ Huse) in Hb by lia. discriminate.
Qed.

Lemma slab_holds_spec (c : slab_cache) (s t : slab) (p : Z) :
  cache_ok c -> slab_ok c s -> slab_ok c t -> slot c s p ->
  slab_holds c p t = true <-> t.(slab_addr) = s.(slab_addr).
Proof.
  intros Hc Hs Ht (i & Hi & _ & ->). pose proof (obj_fits c i Hc Hi) as Hfit.
  destruct (cache_sizes c Hc) as (_ & Hms & _). pose proof Hc as (Hsz & _).
  destruct Hs as (Hs0 & Hsa & Hs1 & Hsm & _), Ht as (Ht0 & Hta & Ht1 & Htm & _).
  unfold slab_holds, slab_end. rewrite Hms, andb_true_iff, Z.leb_le, Z.ltb_lt.
  rewrite Hsm, Htm. rewrite uN_id by lia. lia.
Qed.

Lemma find_slab_found (c : slab_cache) (s : slab) (p : Z) :
  cache_inv c -> s ∈ slabs c -> slot c s p ->
  find_slab c p = Some s /\ (s ∈ c.(full) \/ s ∈ c.(partial)).
Proof.
  intros (Hc & Hok & Hnd & Hf & Hp & He) Hs Hslot. rewrite Forall_forall in Hok.
  pose proof (slot_in_use c s p (Hok s Hs) Hslot) as Hpos.
  assert (forall t, t ∈ slabs c -> slab_holds c p t = true -> t = s) as Hu.
  { intros t Ht Hh. rewrite (slab_holds_spec c s t p) in Hh by auto.
    pose proof (slab_at_found c s Hnd Hs) as E1. pose proof (slab_at_found c t Hnd Ht) as E2.
    rewrite Hh in E2. congruence. }
  assert (slab_holds c p s = true) as Hhs by (apply (slab_holds_spec c s s p); auto).
  assert (s ∉ empty c) as Hne.
  { intros Hin. rewrite Forall_forall in He. specialize (He s Hin). simpl in He. lia. }
  unfold slabs in Hs, Hu. unfold find_slab.
  destruct (decide (s ∈ full c)) as [Hin | Hnin].
  - rewrite (find_unique s) by (auto; set_solver). auto.
  - rewrite (find_none_intro _ (full c)).
    + rewrite (find_unique s) by (auto; set_solver). set_solver.
    + intros t Ht. destruct (slab_holds c p t) eqn:E; [|reflexivity].
      rewrite (Hu t) in Ht by (auto; set_solver). contradiction.
Qed.

(** The lists after a descriptor on the full or partial list was rewritten. *)
Lemma mid_shape (c : slab_cache) (s s' : slab) :
  NoDup (map slab_addr (slabs c)) -> s ∈ c.(full) \/ s ∈ c.(partial) ->
  s'.(slab_addr) = s.(slab_addr) ->
  exists Rf Rp, slabs c ≡ₚ s :: Rf ++ Rp ++ c.(empty) /\
    (forall t, t ∈ Rf -> t ∈ c.(full)) /\ (forall t, t ∈ Rp -> t ∈ c.(partial)) /\
    slab_del (slab_store c s') s'.(slab_addr) =
      SlabCache Rf Rp c.(empty) c.(pages_per_slab) c.(objs_per_slab) c.(obj_size) /\
    (s ∉ c.(full) -> exists l1 l2, Rf = c.(full) /\ Rp = l1 ++ l2 /\ slab_store c s' =
      SlabCache c.(full) (l1 ++ s' :: l2) c.(empty) c.(pages_per_slab) c.(objs_per_slab)
        c.(obj_size)).
Proof.
  intros Hnd Hin Ha.
  assert (exists l1 l2 Rf Rp, slabs c ≡ₚ s :: Rf ++ Rp ++ c.(empty) /\
    ((c.(full) = l1 ++ s :: l2 /\ Rf = l1 ++ l2 /\ Rp = c.(partial)) \/
     (c.(partial) = l1 ++ s :: l2 /\ Rf = c.(full) /\ Rp = l1 ++ l2)))
    as (l1 & l2 & Rf & Rp & HR & Hcase).
  { unfold slabs. destruct Hin as [Hin | Hin]; apply list_elem_of_split in Hin as (l1 & l2 & E).
    - exists l1, l2, (l1 ++ l2), (partial c). split; [rewrite E; solve_Permutation | auto].
    - exists l1, l2, (full c), (l1 ++ l2). split; [rewrite E; solve_Permutation | auto]. }
  pose proof (nodup_addr (slabs c) Rf (Rp ++ empty c) s Hnd HR) as Hne.
  rewrite <- Ha in Hne. exists Rf, Rp. split; [exact HR|].
  unfold slab_del, slab_store. simpl.
  rewrite (put_notin s' (empty c)), (del_notin _ (empty c)) by (intros; apply Hne; set_solver).
  destruct Hcase as [(E & -> & ->) | (E & -> & ->)]; rewrite E.
  - rewrite put_mid, del_mid, put_notin, del_notin by (auto; intros; apply Hne; set_solver).
    split_and!; auto; set_solver.
  - rewrite put_mid, del_mid, put_notin, del_notin by (auto; intros; apply Hne; set_solver).
    split_and!; auto; [set_solver|]. intros _. exists l1, l2. auto.
Qed.

Lemma settle_free_ok (c : slab_cache) (s s' : slab) :
  NoDup (map slab_addr (slabs c)) -> classified c ->
  s ∈ c.(full) \/ s ∈ c.(partial) ->
  0 < s.(in_use) <= c.(objs_per_slab) -> in_u32 s.(in_use) -> s'.(in_use) = s.(in_use) - 1 ->
  s'.(slab_addr) = s.(slab_addr) -> s'.(slab_mem) = s.(slab_mem) ->
  replaces c (settle_free (slab_store c s') s') s s' /\
  classified (settle_free (slab_store c s') s').
Proof.
  intros Hnd (Hf & Hp & He) Hin Hpos Hu Hdec Ha Hm.
  destruct (mid_shape c s s' Hnd Hin Ha) as (Rf & Rp & HR & HRf & HRp & Hdel & Hput).
  assert (Forall (fun t => in_use t = objs_per_slab c) Rf) as HFf
    by (rewrite !Forall_forall in *; auto).
  assert (Forall (fun t => 0 < in_use t < objs_per_slab c) Rp) as HFp
    by (rewrite !Forall_forall in *; auto).
  unfold settle_free. rewrite Hdel, Hdec, (uN_id 32 (in_use s - 1 + 1)) by word_lia.
  change (objs_per_slab (slab_store c s')) with (objs_per_slab c).
  destruct (Z.eqb_spec (in_use s - 1) 0); [|destruct (Z.eqb_spec (in_use s - 1 + 1) (objs_per_slab c))].
  1, 2: split;
    [repeat split; auto; exists (Rf ++ Rp ++ empty c); split;
       [exact HR | unfold slabs; simpl; solve_Permutation]
    | split_and!; simpl; auto; constructor; auto; lia].
  destruct Hput as (l1 & l2 & -> & -> & ->).
  { intros Hin'. rewrite Forall_forall in Hf. specialize (Hf s Hin'). simpl in Hf. lia. }
  split.
  - repeat split; auto. exists (full c ++ (l1 ++ l2) ++ empty c). split; [exact HR|].
    unfold slabs. simpl. solve_Permutation.
  - split_and!; simpl; auto. apply Forall_app in HFp as [H1 H2]. apply Forall_app.
    split; [exact H1|]. constructor; [lia | exact H2].
Qed.

Lemma slab_free_spec (c : slab_cache) (p : Z) :
  cache_inv c -> allocated c p ->
  exists c', slab_free c p = Ok c' /\ cache_inv c' /\
    (forall q, allocated c' q <-> allocated c q /\ q <> p) /\
    (forall a, a ∈ map slab_addr (slabs c') <-> a ∈ map slab_addr (slabs c)) /\
    c'.(obj_size) = c.(obj_size) /\ c'.(objs_per_slab) = c.(objs_per_slab).
Proof.
  intros Hinv (s & Hs & Hslot). pose proof Hinv as (Hc & Hok & Hnd & Hcl).
  destruct (find_slab_found c s p Hinv Hs Hslot) as [Hfind Hin].
  assert (slab_ok c s) as Hsok by (rewrite Forall_forall in Hok; auto).
  pose proof (slot_in_use c s p Hsok Hslot) as Hpos.
  pose proof (slab_ok_in_use c s Hsok) as Hle.
  destruct (cache_sizes c Hc) as (_ & _ & Hobj). pose proof Hc as (Hsz & _).
  destruct Hslot as (i & Hi & Hb & ->). pose proof (obj_fits c i Hc Hi) as Hfit.
  pose proof Hsok as (Ha0 & Ha & Ha1 & Hm & Hlen & Hwf & Huse & Hhi).
  unfold slab_free. rewrite Hfind.
  replace ((slab_mem s + i * obj_size c -% slab_mem s) / obj_size c) with i
    by (replace (slab_mem s + i * obj_size c - slab_mem s) with (i * obj_size c) by lia;
        rewrite uN_id, Z.div_mul by lia; reflexivity).
  destruct (bitmap_clear_spec (bitmap s) i Hwf) as (bm & Eb & Hwf' & Hlen' & Hbits);
    [rewrite Hlen; lia|].
  rewrite Eb. simpl res_bind. rewrite (uN_id 32 (in_use s - 1)) by lia.
  set (s' := Slab (slab_addr s) (in_use s - 1) (slab_mem s) bm).
  destruct (settle_free_ok c s s') as [Hrep Hcl']; auto; [lia | unfold in_u32; lia |].
  assert (slab_ok c s') as Hs'ok.
  { repeat split; simpl; auto; [congruence | |].
    - rewrite Huse, (cnt_set (bm_test bm) (bm_test (bitmap s)) _ i); auto; [lia | lia | |].
      + rewrite Hbits, Z.eqb_refl by lia. reflexivity.
      + intros j Hj Hne. rewrite Hbits by lia. destruct (Z.eqb_spec j i); [lia | reflexivity].
    - intros j Hj. rewrite Hbits by lia. destruct (Z.eqb_spec j i); auto. }
  destruct (replaces_inv c _ s s' Hrep Hc Hok Hnd Hs'ok) as (Hc' & Hok' & Hnd').
  eexists. split; [reflexivity|]. split; [repeat (split; [assumption|]); assumption|].
  split; [intros q; apply (free_effect c _ s s' i); auto|].
  destruct Hrep as (_ & Ho' & Hs' & _ & _ & R & HR & HR').
  split_and!; auto. intros a. rewrite HR, HR'. reflexivity.
Qed.

(** ** Properties *)

Lemma slab_cache_create_inv (a size : Z) (c : slab_cache) :
  0 <= size <= 4048 -> slab_cache_create a size = Some c ->
  cache_inv c /\ forall p, ~ allocated c p.
Proof.
  intros Hs H. unfold slab_cache_create in H. destruct (a =? 0); [discriminate|].
  injection H as <-. split.
  - split; [|split; [constructor | split; [constructor | repeat split; constructor]]].
    split; [simpl; destruct (Z.ltb_spec size 16); lia | split; reflexivity].
  - intros p (s & Hin & _). unfold slabs in Hin. simpl in Hin. set_solver.
Qed.

(** Objects in use do not overlap. *)
Lemma allocated_disjoint (c : slab_cache) (p q : Z) :
  cache_inv c -> allocated c p -> allocated c q -> p <> q ->
  p + c.(obj_size) <= q \/ q + c.(obj_size) <= p.
Proof.
  intros (Hc & Hok & _) (s & Hs & i & Hi & _ & ->) (t & Ht & j & Hj & _ & ->) Hne.
  rewrite Forall_forall in Hok.
  destruct (Z.eq_dec (slab_addr s) (slab_addr t)) as [E | E];
    [destruct (Z.eq_dec i j) as [-> | ]|].
  - destruct Hne. destruct (Hok s Hs) as (_ & _ & _ & -> & _), (Hok t Ht) as (_ & _ & _ & -> & _).
    congruence.
  - apply objects_disjoint; auto.
  - apply objects_disjoint; auto.
Qed.

(** C3: slab allocation.  In a consistent cache, whenever a slab with room
    exists or the page allocator delivers a page, [slab_alloc] succeeds; the
    object it returns was not in use, does not overlap any object in use, lies
    in the object area of a page owned by the cache, becomes the only new
    object in use, and the cache stays consistent (bitmaps, counters and the
    full/partial/empty classification agree). *)
Theorem slab_alloc_correct {P : Type} `{PA : PageAllocator P} `{!PageAllocatorLaws P}
    (c : slab_cache) (pg : P) :
  cache_inv c -> backed c pg ->
  (c.(partial) <> [] \/ c.(empty) <> [] \/ exists r, kalloc_pages pg 1 = Ok r) ->
  exists p c' pg', slab_alloc c pg = Ok (p, c', pg') /\
    cache_inv c' /\ backed c' pg' /\ ~ allocated c p /\
    (forall q, allocated c' q <-> q = p \/ allocated c q) /\
    (forall q, allocated c q -> p + c.(obj_size) <= q \/ q + c.(obj_size) <= p) /\
    mapped pg' (p / FRAME_SIZE) /\ 48 <= p mod FRAME_SIZE <= FRAME_SIZE - c.(obj_size).
Proof.
  intros Hinv Hb Hav.
  destruct (slab_alloc_spec c pg Hinv Hb Hav)
    as (p & c' & pg' & E & Hinv' & Hb' & Hfr & Hal & Hos & Hoo).
  assert (mapped pg' (p / FRAME_SIZE) /\ 48 <= p mod FRAME_SIZE <= FRAME_SIZE - c.(obj_size))
    as [Hpg Hpos].
  { destruct (proj2 (Hal p) (or_introl eq_refl)) as (s & Hs & i & Hi & _ & ->).
    specialize (Hb' s Hs). destruct Hinv' as (Hc' & Hok' & _).
    rewrite Forall_forall in Hok'. destruct (Hok' s Hs) as (_ & Ha & _ & -> & _).
    pose proof (obj_fits c' i Hc' Hi). destruct Hc'. unfold FRAME_SIZE in *.
    replace ((slab_addr s + 48 + i * obj_size c') / 4096) with (slab_addr s / 4096) by lia.
    split; [exact Hb' | lia]. }
  exists p, c', pg'. repeat (split; [assumption|]). split; [|split; assumption].
  intros q Hq. rewrite <- Hos. apply allocated_disjoint; [exact Hinv' | | |].
  - apply Hal. auto.
  - apply Hal. auto.
  - intros ->. contradiction.
Qed.

(** A cache of 64-byte objects, as [slab_cache_create] makes it. *)
Definition cache_example : slab_cache :=
  default (SlabCache [] [] [] 0 0 0) (slab_cache_create 4096 64).

Lemma slab_alloc_correct_witness :
  exists p c' pg', @slab_alloc Z bump_pages cache_example 786432 = Ok (p, c', pg') /\
    cache_inv c' /\ @backed Z bump_pages c' pg' /\ ~ allocated cache_example p /\
    (forall q, allocated c' q <-> q = p \/ allocated cache_example q) /\
    (forall q, allocated cache_example q -> p + 64 <= q \/ q + 64 <= p) /\
    @mapped Z bump_pages pg' (p / FRAME_SIZE) /\ 48 <= p mod FRAME_SIZE <= FRAME_SIZE - 64.
Proof.
  apply (@slab_alloc_correct Z bump_pages bump_pages_laws cache_example 786432).
  - apply (slab_cache_create_inv 4096 64); [lia | reflexivity].
  - intros s Hs. unfold slabs in Hs. simpl in Hs. set_solver.
  - right. right. eexists. reflexivity.
Defined.

(** C4: freeing a slab object.  In a consistent cache, [slab_free] of an object
    in use takes exactly that object out of use, keeps the cache consistent
    (moving the slab to the empty or partial list as its counter calls for) and
    neither gains nor loses a slab. *)
Theorem slab_free_correct (c : slab_cache) (p : Z) :
  cache_inv c -> allocated c p ->
  exists c', slab_free c p = Ok c' /\ cache_inv c' /\
    (forall q, allocated c' q <-> allocated c q /\ q <> p) /\
    (forall a, a ∈ map slab_addr (slabs c') <-> a ∈ map slab_addr (slabs c)).
Proof.
  intros Hinv Hal. destruct (slab_free_spec c p Hinv Hal) as (c' & E & Hi & Ha & Hs & _).
  exists c'. auto.
Qed.

(** The cache after one allocation. *)
Definition cache_one : slab_cache :=
  match @slab_alloc Z bump_pages cache_example 786432 with
  | Ok (_, c, _) => c
  | _ => cache_example
  end.

Lemma cache_one_facts : cache_inv cache_one /\ allocated cache_one 3221225520.
Proof.
  assert (@backed Z bump_pages cache_example 786432) as Hb.
  { intros s Hs. unfold slabs in Hs. simpl in Hs. set_solver. }
  destruct (slab_cache_create_inv 4096 64 cache_example) as [Hi _]; [lia | reflexivity |].
  destruct (@slab_alloc_spec Z bump_pages bump_pages_laws cache_example 786432 Hi Hb)
    as (p & c' & pg' & E & Hinv & _ & _ & Hal & _).
  { right. right. eexists. reflexivity. }
  vm_compute in E. injection E as E1 E2 E3. subst p c' pg'.
  split; [exact Hinv|]. apply Hal. left. reflexivity.
Qed.

Lemma slab_free_correct_witness :
  exists c', slab_free cache_one 3221225520 = Ok c' /\ cache_inv c' /\
    (forall q, allocated c' q <-> allocated cache_one q /\ q <> 3221225520) /\
    (forall a, a ∈ map slab_addr (slabs c') <-> a ∈ map slab_addr (slabs cache_one)).
Proof.
  apply (slab_free_correct cache_one 3221225520); apply cache_one_facts.
Defined.
