(* ===== verification/Kmalloc.v ===== *)
(** * The kernel heap (kernel/kmalloc.c, include/kernel/mm/kmalloc.h)

    The heap is a set of adjacent blocks, each with a 16-byte header in front
    of its data, carved out of runs of kernel pages.  Free blocks are on one
    list, searched first fit.  The state keeps the headers by address and the
    free list as the sequence of header addresses. *)

From S2P Require Import Prelude Addr.

Definition MAGIC_OK : Z := 1611514078.

Definition MAGIC_FREE : Z := 4075729164.

(** [sizeof(struct mem_header)]: list links, size and magic. *)
Definition sizeof_mem_header : Z := 16.

Record mem_header : Type := MemHeader { hsize : Z; magic : Z }.

Record heap (P : Type) : Type := Heap {
  headers : gmap Z mem_header;
  free_list : list Z;
  pages : P;
}.

Arguments Heap {P} headers free_list pages.
Arguments headers {P} h.
Arguments free_list {P} h.
Arguments pages {P} h.

Definition pages_needed (size : Z) : Z :=
  align_up (size +% sizeof_mem_header) FRAME_SIZE / FRAME_SIZE.

(** [p->data] *)
Definition mem_data (p : Z) : Z := p +% sizeof_mem_header.

Definition mem_ptoh (addr : Z) : Z := addr -% sizeof_mem_header.

(** The search loop: the first block of the free list that is large enough. *)
Fixpoint first_fit (hdrs : gmap Z mem_header) (size : Z) (l : list Z) : res (option Z) :=
  match l with
  | [] => Ok None
  | p :: l =>
      match hdrs !! p with
      | None => Fault
      | Some b => if size <=? b.(hsize) then Ok (Some p) else first_fit hdrs size l
      end
  end.

Section Kmalloc.
Context {P : Type} `{PA : PageAllocator P}.

(** The block to use: one from the free list, or fresh pages put on it. *)
Definition find_block (h : heap P) (size : Z) : res (Z * heap P) :=
  do r <- first_fit h.(headers) size h.(free_list);
  match r with
  | Some p => Ok (p, h)
  | None =>
      let n := pages_needed size in
      do ' (p, pg) <- kalloc_pages h.(pages) n;
      if p =? 0 then Fault
      else
        let b := MemHeader (n *% FRAME_SIZE -% sizeof_mem_header)
                   (match h.(headers) !! p with Some b => b.(magic) | None => 0 end) in
        Ok (p, Heap (<[p := b]> h.(headers)) (p :: h.(free_list)) pg)
  end.

(** [list_replace] on the free list. *)
Definition replace_entry (old new : Z) (l : list Z) : list Z :=
  map (fun x => if x =? old then new else x) l.

(** Takes block [p] off the free list, whole or split in two. *)
Definition carve (h : heap P) (p size : Z) : res (heap P) :=
  match h.(headers) !! p with
  | None => Fault
  | Some b =>
      if b.(hsize) -% size <=? sizeof_mem_header + 16
      then Ok (Heap (<[p := MemHeader b.(hsize) MAGIC_OK]> h.(headers))
                 (List.filter (fun x => negb (x =? p)) h.(free_list)) h.(pages))
      else
        let r := mem_data p +% size in
        Ok (Heap (<[p := MemHeader size MAGIC_OK]>
                    (<[r := MemHeader (b.(hsize) -% size -% sizeof_mem_header) MAGIC_FREE]>
                       h.(headers)))
              (replace_entry p r h.(free_list)) h.(pages))
  end.

(** Returns the data pointer and the header ([*hdr]). *)
Definition hmalloc (h : heap P) (size : Z) : res (Z * Z * heap P) :=
  let size := align_up size 16 in
  do ' (p, h) <- find_block h size;
  do h <- carve h p size;
  Ok (mem_data p, p, h).

(** The two sanity checks of [hfree]. *)
Definition hfree_sane (b : mem_header) : bool :=
  negb (b.(magic) =? MAGIC_FREE) && (b.(magic) =? MAGIC_OK).

Definition hfree (h : heap P) (hdr : Z) : res (heap P) :=
  match h.(headers) !! hdr with
  | None => Fault
  | Some b =>
      if hfree_sane b then Ok (Heap h.(headers) (hdr :: h.(free_list)) h.(pages))
      else Ok h
  end.

Definition kmalloc (h : heap P) (size : Z) : res (Z * heap P) :=
  do ' (p, _, h) <- hmalloc h size; Ok (p, h).

Definition kfree (h : heap P) (addr : Z) : res (heap P) := hfree h (mem_ptoh addr).

(** ** Invariant *)

(** Extent of a block, header included. *)
Definition block_end (p : Z) (b : mem_header) : Z := p + 16 + b.(hsize).

Definition block_ok (pg : P) (p : Z) (b : mem_header) : Prop :=
  0 < p /\ p mod 16 = 0 /\ 0 <= b.(hsize) /\ b.(hsize) mod 16 = 0 /\
  block_end p b < 2 ^ 32 /\
  forall a, p <= a < block_end p b -> mapped pg (a / FRAME_SIZE).

Definition apart (hdrs : gmap Z mem_header) : Prop :=
  forall p q b c, hdrs !! p = Some b -> hdrs !! q = Some c -> p <> q ->
    block_end p b <= q \/ block_end q c <= p.

(** Blocks are aligned, in mapped memory and do not overlap; the free list
    holds blocks, each once; blocks in use carry the magic number. *)
Definition heap_inv (h : heap P) : Prop :=
  (forall p b, h.(headers) !! p = Some b -> block_ok h.(pages) p b) /\
  apart h.(headers) /\ NoDup h.(free_list) /\
  (forall p, p ∈ h.(free_list) -> is_Some (h.(headers) !! p)) /\
  (forall p b, h.(headers) !! p = Some b -> p ∉ h.(free_list) -> b.(magic) = MAGIC_OK).

(** Block [p] is in use. *)
Definition live (h : heap P) (p : Z) : Prop :=
  is_Some (h.(headers) !! p) /\ p ∉ h.(free_list).

(** ** Searching *)

Lemma first_fit_ok (hdrs : gmap Z mem_header) (size : Z) (l : list Z) :
  (forall p, p ∈ l -> is_Some (hdrs !! p)) ->
  exists r, first_fit hdrs size l = Ok r /\
    match r with
    | Some p => p ∈ l /\ exists b, hdrs !! p = Some b /\ size <= b.(hsize)
    | None => forall p b, p ∈ l -> hdrs !! p = Some b -> b.(hsize) < size
    end.
Proof.
  induction l as [| p l IH]; intros Hl; simpl; [exists None; split; [reflexivity | set_solver]|].
  destruct (Hl p) as [b Hb]; [set_solver|]. rewrite Hb.
  destruct (Z.leb_spec size (hsize b)).
  - exists (Some p). split; [reflexivity|]. split; [set_solver | eauto].
  - destruct IH as (r & E & Hr); [set_solver|]. exists r. split; [exact E|].
    destruct r as [q|]; [set_solver|]. intros q c Hq Hc.
    apply elem_of_cons in Hq as [-> | Hq]; [congruence | eauto].
Qed.

Lemma pages_needed_eq (size : Z) :
  0 <= size < 2 ^ 31 -> pages_needed size = (size + 16 + 4095) / 4096.
Proof.
  intros Hs. unfold pages_needed, sizeof_mem_header. fold (page_align (size +% 16)).
  rewrite uN_id by lia. rewrite page_align_eq by (unfold in_u32; lia).
  unfold FRAME_SIZE. word_lia.
Qed.

Lemma align_16 (size : Z) :
  0 <= size < 2 ^ 31 ->
  align_up size 16 = (size + 15) / 16 * 16 /\ size <= align_up size 16 <= size + 15.
Proof.
  intros Hs. pose proof (align_up_eq size 4 ltac:(unfold in_u32; lia) ltac:(lia)) as E.
  change (2 ^ 4) with 16 in E. rewrite E. word_lia.
Qed.

Context `{!PageAllocatorLaws P}.

(** Fresh pages do not meet any block. *)
Lemma fresh_pages_apart (h : heap P) (pg' : P) (n a q : Z) (c : mem_header) :
  heap_inv h -> 0 < n -> kalloc_pages h.(pages) n = Ok (a, pg') ->
  h.(headers) !! q = Some c -> block_end q c <= a \/ a + n * FRAME_SIZE <= q.
Proof.
  intros (Hb & _) Hn Hk Hq. destruct (kalloc_pages_fresh _ _ _ _ Hn Hk) as (Ha0 & Ham & _ & Hfr & _).
  destruct (Hb q c Hq) as (Hq0 & _ & Hsz & _ & _ & Hmap). unfold block_end, FRAME_SIZE in *.
  destruct (Z.lt_ge_cases q a) as [Hlt | Hge].
  - destruct (Z.le_gt_cases (q + 16 + hsize c) a) as [| Hgt]; [auto|]. exfalso.
    apply (Hfr (a / 4096)); [lia|]. apply (Hmap a). lia.
  - destruct (Z.le_gt_cases (a + n * 4096) q) as [| Hgt]; [auto|]. exfalso.
    apply (Hfr (q / 4096)); [|apply Hmap; lia]. lia.
Qed.

(** Putting a block of fresh pages on the free list. *)
Lemma heap_inv_grow (h : heap P) (pg' : P) (n a : Z) (b : mem_header) :
  heap_inv h -> 0 < n -> kalloc_pages h.(pages) n = Ok (a, pg') ->
  b.(hsize) = n * 4096 - 16 ->
  h.(headers) !! a = None /\
  heap_inv (Heap (<[a := b]> h.(headers)) (a :: h.(free_list)) pg').
Proof.
  intros Hinv Hn Hk Hbs. pose proof Hinv as (Hb & Hap & Hnd & Hfl & Hmg).
  pose proof (kalloc_pages_fresh _ _ _ _ Hn Hk) as (Ha0 & Ham & Ha1 & Hfr & Hmap).
  assert (h.(headers) !! a = None) as Hna.
  { destruct (headers h !! a) as [c|] eqn:Hc; [|reflexivity]. exfalso.
    destruct (fresh_pages_apart h pg' _ a a c Hinv Hn Hk Hc) as [H | H];
      destruct (Hb a c Hc) as (_ & _ & ? & _); unfold block_end, FRAME_SIZE in *; lia. }
  split; [exact Hna|]. split; [|split; [|split; [|split]]]; simpl.
  - intros q c. rewrite lookup_insert. case_decide as D; intros Hq; simplify_eq.
    + unfold block_ok, block_end, FRAME_SIZE in *. rewrite Hbs. split_and!; try lia.
      intros x Hx. apply Hmap. right. lia.
    + destruct (Hb q c Hq) as (? & ? & ? & ? & ? & Hm). split_and!; auto.
      intros x Hx. apply Hmap. auto.
  - intros q1 q2 c1 c2. rewrite !lookup_insert.
    repeat case_decide; intros H1 H2 Hq; simplify_eq; [| |eapply Hap; eauto].
    + destruct (fresh_pages_apart h pg' _ q1 q2 c2 Hinv Hn Hk H2);
        unfold block_end, FRAME_SIZE in *; rewrite ?Hbs; lia.
    + destruct (fresh_pages_apart h pg' _ q2 q1 c1 Hinv Hn Hk H1);
        unfold block_end, FRAME_SIZE in *; rewrite ?Hbs; lia.
  - constructor; [|exact Hnd]. intros Hin. destruct (Hfl a Hin). congruence.
  - intros q Hq. rewrite lookup_insert. case_decide; [eauto|]. apply Hfl. set_solver.
  - intros q c. rewrite lookup_insert. case_decide; intros Hq Hnin; [set_solver|].
    apply (Hmg q); [exact Hq | set_solver].
Qed.

Lemma find_block_ok (h : heap P) (size : Z) :
  heap_inv h -> 0 <= size < 2 ^ 31 ->
  (exists p b, p ∈ h.(free_list) /\ h.(headers) !! p = Some b /\ size <= b.(hsize)) \/
  (exists r, kalloc_pages h.(pages) (pages_needed size) = Ok r) ->
  exists p h' b, find_block h size = Ok (p, h') /\ heap_inv h' /\
    p ∈ h'.(free_list) /\ h'.(headers) !! p = Some b /\ size <= b.(hsize) /\
    (forall q, live h' q <-> live h q) /\
    (forall q c, h.(headers) !! q = Some c -> h'.(headers) !! q = Some c).
Proof.
  intros Hinv Hs Hav. pose proof Hinv as (_ & _ & _ & Hfl & _). unfold find_block.
  destruct (first_fit_ok h.(headers) size h.(free_list) Hfl) as (r & E & Hr).
  rewrite E. simpl. destruct r as [p|].
  - destruct Hr as (Hp & b & Hpb & Hle). exists p, h, b. split_and!; auto.
  - destruct Hav as [(p & b & Hp & Hpb & Hle) | ([a pg'] & Hk)];
      [specialize (Hr p b Hp Hpb); lia|].
    assert (0 < pages_needed size < 2 ^ 20) as Hn by (rewrite pages_needed_eq by lia; lia).
    rewrite Hk. simpl.
    pose proof (kalloc_pages_fresh _ _ _ _ (proj1 Hn) Hk) as (Ha0 & _).
    destruct (Z.eqb_spec a 0); [lia|].
    destruct (heap_inv_grow h pg' _ a
      (MemHeader (pages_needed size *% FRAME_SIZE -% sizeof_mem_header) 0) Hinv (proj1 Hn) Hk)
      as [Hna Hinv']; [simpl; unfold FRAME_SIZE, sizeof_mem_header; word_lia|].
    rewrite Hna. eexists a, _, _. split; [reflexivity|]. split; [exact Hinv'|].
    split_and!; simpl; [set_solver | apply lookup_insert_eq | | |].
    + simpl. rewrite pages_needed_eq in * by lia. unfold FRAME_SIZE, sizeof_mem_header. word_lia.
    + intros q. unfold live. simpl. rewrite lookup_insert. case_decide as D.
      * subst q. split; [set_solver | intros [[c Hc] _]; congruence].
      * split; (intros [? ?]; split; [assumption | set_solver]).
    + intros q c Hq. rewrite lookup_insert_ne by congruence. exact Hq.
Qed.

(** ** Carving a block *)

Lemma replace_entry_elem (old new x : Z) (l : list Z) :
  old ∈ l -> x ∈ replace_entry old new l <-> x = new \/ (x ∈ l /\ x <> old).
Proof.
  intros Hold. unfold replace_entry. rewrite list_elem_of_In, in_map_iff. split.
  - intros (y & E & Hy). destruct (Z.eqb_spec y old); [auto|]. subst. right.
    rewrite list_elem_of_In. auto.
  - intros [-> | [Hx Hne]].
    + exists old. rewrite Z.eqb_refl, <- list_elem_of_In. auto.
    + exists x. destruct (Z.eqb_spec x old); [contradiction|].
      rewrite <- list_elem_of_In. auto.
Qed.

Lemma replace_entry_NoDup (old new : Z) (l : list Z) :
  NoDup l -> new ∉ l -> NoDup (replace_entry old new l).
Proof.
  induction 1 as [| x l Hx Hnd IH]; intros Hnew; simpl; constructor.
  - unfold replace_entry. rewrite list_elem_of_In, in_map_iff. intros (y & E & Hy).
    rewrite <- list_elem_of_In in Hy.
    destruct (Z.eqb_spec y old), (Z.eqb_spec x old); subst; set_solver.
  - apply IH. set_solver.
Qed.

Lemma filter_ne_elem (p x : Z) (l : list Z) :
  x ∈ List.filter (fun y => negb (y =? p)) l <-> x ∈ l /\ x <> p.
Proof.
  rewrite !list_elem_of_In, filter_In, negb_true_iff, Z.eqb_neq. reflexivity.
Qed.

Lemma NoDup_list_filter (f : Z -> bool) (l : list Z) : NoDup l -> NoDup (List.filter f l).
Proof. rewrite !NoDup_ListNoDup. apply List.NoDup_filter. Qed.

(** The effect of [carve] on the set of blocks: [p] goes into use. *)
Definition carved (h h' : heap P) (p size : Z) : Prop :=
  heap_inv h' /\ (exists b, h'.(headers) !! p = Some b /\ size <= b.(hsize)) /\
  (forall q, live h' q <-> q = p \/ live h q) /\
  (forall q c, q <> p -> h.(headers) !! q = Some c -> h'.(headers) !! q = Some c).

Lemma carve_whole (h : heap P) (p size : Z) (b : mem_header) :
  heap_inv h -> h.(headers) !! p = Some b -> size <= b.(hsize) ->
  carved h (Heap (<[p := MemHeader b.(hsize) MAGIC_OK]> h.(headers))
              (List.filter (fun x => negb (x =? p)) h.(free_list)) h.(pages)) p size.
Proof.
  intros (Hb & Hap & Hnd & Hfl & Hmg) Hp Hle. split; [|split; [|split]]; simpl.
  - split; [|split; [|split; [|split]]]; simpl.
    + intros q c. rewrite lookup_insert. case_decide; intros Hq; simplify_eq; [|auto].
      apply (Hb q b Hp).
    + intros q1 q2 c1 c2. rewrite !lookup_insert.
      repeat case_decide; intros H1 H2 Hq; simplify_eq; [| |eapply Hap; eauto].
      * apply (Hap q1 q2 b c2); auto.
      * apply (Hap q1 q2 c1 b); auto.
    + apply NoDup_list_filter, Hnd.
    + intros q Hq. apply filter_ne_elem in Hq as [Hq Hne].
      rewrite lookup_insert_ne by congruence. auto.
    + intros q c. rewrite lookup_insert, filter_ne_elem. case_decide; intros Hq Hn; simplify_eq.
      * reflexivity.
      * apply (Hmg q c Hq). intros Hin. apply Hn. auto.
  - exists (MemHeader b.(hsize) MAGIC_OK). split; [apply lookup_insert_eq | exact Hle].
  - intros q. unfold live. simpl. rewrite lookup_insert, filter_ne_elem.
    case_decide as D; [subst q | ].
    + split; [auto | intros _; split; [eauto | tauto]].
    + split; [intros [? Hn]; right; split; [auto | intros Hin; apply Hn; auto]
             | intros [-> | [? ?]]; [congruence | split; [auto | tauto]]].
  - intros q c Hne Hq. rewrite lookup_insert_ne by congruence. exact Hq.
Qed.

Lemma carve_split (h : heap P) (p size : Z) (b : mem_header) :
  heap_inv h -> p ∈ h.(free_list) -> h.(headers) !! p = Some b ->
  0 <= size -> size mod 16 = 0 -> size + 32 < b.(hsize) ->
  carved h (Heap (<[p := MemHeader size MAGIC_OK]>
      (<[p + 16 + size := MemHeader (b.(hsize) - size - 16) MAGIC_FREE]> h.(headers)))
      (replace_entry p (p + 16 + size) h.(free_list)) h.(pages)) p size.
Proof.
  intros (Hb & Hap & Hnd & Hfl & Hmg) Hpf Hp Hs0 Hs16 Hlt. set (r := p + 16 + size).
  destruct (Hb p b Hp) as (Hp0 & Hp16 & Hz0 & Hz16 & Hend & Hmap). unfold block_end in *.
  assert (forall q c, q <> p -> headers h !! q = Some c ->
            q + 16 + hsize c <= p \/ p + 16 + hsize b <= q) as Hq.
  { intros q c Hne Hc. specialize (Hap q p c b Hc Hp Hne). unfold block_end in Hap. lia. }
  assert (forall q c, headers h !! q = Some c -> q <> r) as Hr.
  { intros q c Hc ->. destruct (Z.eq_dec r p); [subst r; lia|].
    destruct (Hb r c Hc) as (_ & _ & ? & _). specialize (Hq r c n Hc). subst r. lia. }
  assert (r ∉ free_list h) as Hrf by (intros Hin; destruct (Hfl r Hin); eapply Hr; eauto).
  assert (r <> p) as Hrp by (subst r; lia).
  split; [|split; [|split]]; simpl.
  - split; [|split; [|split; [|split]]]; simpl.
    + intros q c. rewrite !lookup_insert.
      repeat case_decide; intros E; simplify_eq; unfold block_ok, block_end; simpl;
        [| |apply (Hb q c E)]; split_and!;
        try subst r; first [lia | intros a Ha; apply Hmap; lia].
    + intros q1 q2 c1 c2. rewrite !lookup_insert.
      repeat case_decide; intros E1 E2 Hne; simplify_eq; unfold block_end; simpl;
        try subst r; try lia.
      * specialize (Hq q2 c2 ltac:(auto) E2). lia.
      * specialize (Hq q2 c2 ltac:(auto) E2). lia.
      * specialize (Hq q1 c1 ltac:(auto) E1). lia.
      * specialize (Hq q1 c1 ltac:(auto) E1). lia.
      * apply (Hap q1 q2 c1 c2 E1 E2 Hne).
    + apply replace_entry_NoDup; assumption.
    + intros q Hin. apply replace_entry_elem in Hin; [|assumption]. rewrite !lookup_insert.
      repeat case_decide; eauto. apply Hfl. destruct Hin as [-> | [? ?]]; congruence || auto.
    + intros q c. rewrite !lookup_insert, replace_entry_elem by assumption.
      repeat case_decide; intros E Hn; simplify_eq; [reflexivity | tauto |].
      apply (Hmg q c E). intros Hin. apply Hn. right. auto.
  - eexists. split; [apply lookup_insert_eq | simpl; lia].
  - intros q. unfold live. simpl. rewrite !lookup_insert, replace_entry_elem by assumption.
    repeat case_decide; subst.
    + split; [auto | intros _; split; [eauto | intros [? | ?]; [congruence | tauto]]].
    + split; [tauto|]. intros [? | [[c Hc] _]]; [congruence|]. destruct (Hr _ _ Hc). reflexivity.
    + split; [intros [? Hn]; right; split; [auto | intros Hin; apply Hn; auto]
             | intros [-> | [? ?]]; [congruence | split; [auto | intros [-> | ?]; tauto]]].
  - intros q c Hne Hc. rewrite lookup_insert_ne by congruence.
    rewrite lookup_insert_ne; [exact Hc|]. intros E. apply (Hr q c Hc). auto.
Qed.

Lemma carve_ok (h : heap P) (p size : Z) (b : mem_header) :
  heap_inv h -> p ∈ h.(free_list) -> h.(headers) !! p = Some b ->
  0 <= size -> size mod 16 = 0 -> size <= b.(hsize) ->
  exists h', carve h p size = Ok h' /\ carved h h' p size.
Proof.
  intros Hinv Hpf Hp Hs0 Hs16 Hle. pose proof Hinv as (Hb & _).
  destruct (Hb p b Hp) as (Hp0 & _ & Hz0 & _ & Hend & _). unfold block_end in Hend.
  unfold carve. rewrite Hp. unfold sizeof_mem_header, mem_data, sizeof_mem_header.
  rewrite (uN_id 32 (hsize b - size)) by lia.
  destruct (Z.leb_spec (hsize b - size) (16 + 16)).
  - eexists. split; [reflexivity|]. apply carve_whole; assumption.
  - rewrite (uN_id 32 (hsize b - size - 16)), (uN_id 32 (p + 16)), (uN_id 32 (p + 16 + size)) by lia.
    eexists. split; [reflexivity|]. apply carve_split; auto. lia.
Qed.
End Kmalloc.

(** ** Properties *)

(** C5: heap allocation.  In a consistent heap, if the free list has a large
    enough block or the page allocator delivers the pages needed, [hmalloc]
    succeeds for any request below 2 GB less 16 bytes; it returns 16-byte aligned memory of
    at least the requested size, inside a block that was not in use; no byte of
    it belongs to another block in use; the blocks that were in use keep their
    headers; and the heap stays consistent (aligned, non-overlapping blocks in
    mapped memory). *)
Theorem hmalloc_correct {P : Type} `{PA : PageAllocator P} `{!PageAllocatorLaws P}
    (h : heap P) (size : Z) :
  heap_inv h -> 0 <= size < 2 ^ 31 - 16 ->
  (exists p b, p ∈ h.(free_list) /\ h.(headers) !! p = Some b /\ align_up size 16 <= b.(hsize)) \/
  (exists r, kalloc_pages h.(pages) (pages_needed (align_up size 16)) = Ok r) ->
  exists p h', hmalloc h size = Ok (p + 16, p, h') /\ heap_inv h' /\
    (p + 16) mod 16 = 0 /\ ~ live h p /\ (forall q, live h' q <-> q = p \/ live h q) /\
    (forall q c, live h q -> h.(headers) !! q = Some c ->
       h'.(headers) !! q = Some c /\ (block_end q c <= p \/ p + 16 + size <= q)).
Proof.
  intros Hinv Hs Hav. destruct (align_16 size ltac:(lia)) as [Ea Hle].
  destruct (find_block_ok h (align_up size 16) Hinv ltac:(lia) Hav)
    as (p & h1 & b & E1 & Hinv1 & Hp & Hpb & Hsz & Hlive1 & Hkeep1).
  destruct (carve_ok h1 p (align_up size 16) b Hinv1 Hp Hpb) as (h2 & E2 & Hc); try lia.
  destruct Hc as (Hinv2 & (b2 & Hpb2 & Hsz2) & Hlive2 & Hkeep2).
  pose proof Hinv1 as (Hb1 & _). destruct (Hb1 p b Hpb) as (Hp0 & Hp16 & Hb0 & _ & Hend & _).
  unfold block_end in Hend. exists p, h2. unfold hmalloc. rewrite E1. simpl. rewrite E2. simpl.
  assert (mem_data p = p + 16) as -> by (apply uN_id; lia).
  split; [reflexivity|]. split; [exact Hinv2|]. split; [lia|].
  split; [rewrite <- Hlive1; unfold live; tauto|].
  split; [intros q; rewrite Hlive2, Hlive1; reflexivity|].
  intros q c Hlq Hqc. assert (q <> p) as Hne.
  { intros ->. rewrite <- Hlive1 in Hlq. destruct Hlq. contradiction. }
  split; [apply Hkeep2; auto|]. destruct Hinv2 as (_ & Hap & _).
  destruct (Hap q p c b2) as [|H]; auto. unfold block_end in H. lia.
Qed.

(** An empty heap over a bump allocator of pages. *)
Definition heap_example : heap Z := Heap ∅ [] 786432.

Lemma heap_example_inv : @heap_inv Z bump_pages heap_example.
Proof.
  split; [intros p b H; discriminate H|]. split; [intros p q b c H; discriminate H|].
  split; [constructor|]. split; [intros p H; set_solver | intros p b H; discriminate H].
Qed.

Lemma hmalloc_correct_witness :
  exists p h', @hmalloc Z bump_pages heap_example 100 = Ok (p + 16, p, h') /\
    @heap_inv Z bump_pages h' /\
    (p + 16) mod 16 = 0 /\ ~ live heap_example p /\
    (forall q, live h' q <-> q = p \/ live heap_example q) /\
    (forall q c, live heap_example q -> heap_example.(headers) !! q = Some c ->
       h'.(headers) !! q = Some c /\ (block_end q c <= p \/ p + 16 + 100 <= q)).
Proof.
  apply (@hmalloc_correct Z bump_pages bump_pages_laws heap_example 100).
  - exact heap_example_inv.
  - lia.
  - right. eexists. reflexivity.
Defined.

(** Freeing a block in use puts it back on the free list. *)
Lemma hfree_live {P : Type} `{PA : PageAllocator P} (h : heap P) (p : Z) :
  heap_inv h -> live h p ->
  hfree h p = Ok (Heap h.(headers) (p :: h.(free_list)) h.(pages)).
Proof.
  intros (_ & _ & _ & _ & Hmg) [[b Hb] Hnf]. unfold hfree. rewrite Hb.
  unfold hfree_sane. rewrite (Hmg p b Hb Hnf). reflexivity.
Qed.

(** C6: freeing.  In a consistent heap, [kfree] of the data pointer of a block
    in use passes the sanity checks, takes exactly that block out of use and
    keeps the heap consistent; the block is then the first candidate of the
    next allocation. *)
Theorem kfree_correct {P : Type} `{PA : PageAllocator P} (h : heap P) (p : Z) :
  heap_inv h -> live h p ->
  exists h', kfree h (p + 16) = Ok h' /\ heap_inv h' /\
    (forall q, live h' q <-> live h q /\ q <> p) /\
    h'.(headers) = h.(headers) /\ head h'.(free_list) = Some p.
Proof.
  intros Hinv Hl. pose proof Hinv as (Hb & Hap & Hnd & Hfl & Hmg). pose proof Hl as [[b Hpb] Hnf].
  destruct (Hb p b Hpb) as (Hp0 & _ & Hb0 & _ & Hend & _). unfold block_end in Hend.
  unfold kfree. assert (mem_ptoh (p + 16) = p) as ->
    by (unfold mem_ptoh, sizeof_mem_header; rewrite uN_id; lia).
  rewrite (hfree_live h p Hinv Hl). eexists. split; [reflexivity|].
  split; [|split; [|split; reflexivity]].
  - split; [exact Hb|]. split; [exact Hap|]. split; [constructor; assumption|]. split; simpl.
    + intros q Hq. apply elem_of_cons in Hq as [-> | Hq]; eauto.
    + intros q c Hq Hn. apply (Hmg q c Hq). set_solver.
  - intros q. unfold live. simpl. set_solver.
Qed.

(** The heap after one allocation; its block is at 0xC0000000. *)
Definition heap_one : heap Z :=
  match @hmalloc Z bump_pages heap_example 100 with Ok (_, _, h) => h | _ => heap_example end.

Lemma heap_one_facts : @heap_inv Z bump_pages heap_one /\ live heap_one 3221225472.
Proof.
  destruct (align_16 100 ltac:(lia)) as [Ea Hle].
  destruct (@find_block_ok Z bump_pages bump_pages_laws heap_example 112)
    as (p & h1 & b & E1 & Hinv1 & Hp & Hpb & Hsz & Hlive1 & Hkeep1);
    [exact heap_example_inv | lia | right; eexists; reflexivity |].
  destruct (@carve_ok Z bump_pages bump_pages_laws h1 p 112 b Hinv1 Hp Hpb) as (h2 & E2 & Hc);
    try lia.
  vm_compute in E1. injection E1 as E1a E1b. subst p h1.
  assert (Ok heap_one = Ok h2) as [= ->] by (rewrite <- E2; vm_compute; reflexivity).
  destruct Hc as (Hinv2 & _ & Hl & _). split; [exact Hinv2|]. apply Hl. left. reflexivity.
Qed.

Lemma kfree_correct_witness :
  exists h', kfree heap_one (3221225472 + 16) = Ok h' /\ @heap_inv Z bump_pages h' /\
    (forall q, live h' q <-> live heap_one q /\ q <> 3221225472) /\
    h'.(headers) = heap_one.(headers) /\ head h'.(free_list) = Some 3221225472.
Proof. apply (@kfree_correct Z bump_pages heap_one 3221225472); apply heap_one_facts. Defined.

(** [hfree] leaves the magic number of the block as it is: a block freed
    through it still passes the sanity checks that should stop a second
    [kfree], and is put on the free list again. *)
Lemma hfree_double_free {P : Type} `{PA : PageAllocator P} (h : heap P) (p : Z) :
  heap_inv h -> live h p ->
  exists h1 h2, hfree h p = Ok h1 /\ hfree h1 p = Ok h2 /\
    h2.(free_list) = p :: p :: h.(free_list).
Proof.
  intros Hinv Hl. rewrite (hfree_live h p Hinv Hl).
  destruct Hinv as (_ & _ & _ & _ & Hmg), Hl as [[b Hb] Hnf].
  eexists _, _. split; [reflexivity|]. unfold hfree. simpl. rewrite Hb.
  unfold hfree_sane. rewrite (Hmg p b Hb Hnf). split; reflexivity.
Qed.

(** Requests within 15 bytes of 2^32 wrap to a request for no memory. *)
Lemma hmalloc_wraps {P : Type} `{PA : PageAllocator P} (h : heap P) (size : Z) :
  2 ^ 32 - 15 <= size < 2 ^ 32 -> hmalloc h size = hmalloc h 0.
Proof.
  intros Hs. unfold hmalloc.
  pose proof (align_up_eq size 4 ltac:(unfold in_u32; lia) ltac:(lia)) as E.
  change (2 ^ 4) with 16 in E. rewrite E.
  replace (u32 ((size + 16 - 1) / 16 * 16)) with 0 by word_lia. reflexivity.
Qed.
