(* ===== verification/Abi.v ===== *)
(** * Constants of the system call interface (include/telos/errno.h)

    System calls return a negated error number on failure. *)

From S2P Require Import Prelude.

Definition ENOSYS : Z := 1.

Definition EACCES : Z := 3.

Definition EAGAIN : Z := 7.

Definition EBADF : Z := 9.

Definition EBUSY : Z := 11.

Definition ECHILD : Z := 13.

Definition EEXIST : Z := 21.

Definition EFAULT : Z := 22.

Definition EINTR : Z := 28.

Definition EINVAL : Z := 29.

Definition EIO : Z := 30.

Definition EISDIR : Z := 32.

Definition EMFILE : Z := 34.

Definition ENFILE : Z := 42.

Definition ENODEV : Z := 45.

Definition ENOENT : Z := 46.

Definition ENOMEM : Z := 50.

Definition ENOSPC : Z := 62.

Definition ENOTDIR : Z := 66.

Definition ENOTEMPTY : Z := 67.

Definition ENOTSUP : Z := 69.

Definition ENXIO : Z := 71.

Definition EPERM : Z := 74.

Definition ERANGE : Z := 79.

Definition EROFS : Z := 80.

Definition ESPIPE : Z := 81.

Definition ESRCH : Z := 82.

Definition EXDEV : Z := 89.

Definition ENOTBLK : Z := 90.
