(* ===== verification/Vma.v ===== *)
(** * Virtual memory areas (kernel/vma.c, include/kernel/mm/vma.h)

    An address space is a list of areas in increasing order of addresses.  The
    areas of [mm->map] are kept as records in list order; [vid] is the address
    of the descriptor.  What this component needs from the slab cache of
    descriptors, from the page tables and from the operations tables of special
    areas is the interface [VmaEnv]. *)

From Stdlib Require Import Sorted.
From stdpp Require Import sorting.
From S2P Require Import Prelude Abi Addr.

(** ** Data *)

Definition VM_EXEC : Z := 1.
Definition VM_WRITE : Z := 2.
Definition VM_READ : Z := 4.
Definition VM_ZERO : Z := 8.
Definition VM_KEEP : Z := 16.
Definition VM_KEEPEXEC : Z := 32.
Definition VM_SHARE : Z := 64.

(** [vop] is the pointer to the operations table, 0 for [NULL].  [vprivate] is
    not initialised by [new_vma] and meaningless while [vop] is 0. *)
Record vma : Type := Vma {
  vid : Z;
  vstart : Z;
  vend : Z;
  vflags : Z;
  vprivate : Z;
  vop : Z;
}.

Record mm_struct : Type := MM {
  pgdir : Z;
  mm_map : list vma;
  brk : Z;
}.

Definition set_range (v : vma) (start end_ flags : Z) : vma :=
  Vma v.(vid) start end_ flags v.(vprivate) v.(vop).

Definition set_op (v : vma) (op : Z) : vma :=
  Vma v.(vid) v.(vstart) v.(vend) v.(vflags) v.(vprivate) op.

Definition set_map (mm : mm_struct) (l : list vma) : mm_struct :=
  MM mm.(pgdir) l mm.(brk).

Definition set_brk (mm : mm_struct) (b : Z) : mm_struct :=
  MM mm.(pgdir) mm.(mm_map) b.

(** [flags & f] as a truth value. *)
Definition has (flags f : Z) : bool := negb (Z.land flags f =? 0).

Record vma_operations (S : Type) : Type := VmaOperations {
  op_map : option (vma -> Z -> S -> Z * S);
  op_writeback : option (vma -> Z -> Z -> S -> Z * S);
  op_read_perm : option (vma -> Z -> S -> Z * S);
  op_write_perm : option (vma -> Z -> S -> Z * S);
  op_unmap : option (vma -> S -> Z * S);
  op_clone : option (vma -> vma -> S -> Z * vma * S);
  op_split : option (vma -> vma -> S -> Z * vma * S);
}.

Arguments VmaOperations {S}.
Arguments op_map {S}.
Arguments op_writeback {S}.
Arguments op_read_perm {S}.
Arguments op_write_perm {S}.
Arguments op_unmap {S}.
Arguments op_clone {S}.
Arguments op_split {S}.

(** What the rest of the kernel provides, on a state [S]: the descriptor cache,
    the page table operations of kernel/paging.c, and the operations tables
    ([None] when the pointer is [NULL]).  Operations that write a field of an
    area return the new area. *)
Class VmaEnv (S : Type) : Type := {
  alloc_vma : S -> option (Z * S);
  free_vma : Z -> S -> S;
  map_page : Z -> Z -> S -> Z * S;
  copy_page : Z -> Z -> S -> Z * S;
  pm_unmap : vma -> S -> Z * S;
  pm_disable_write : vma -> S -> Z * S;
  new_pgdir : S -> Z * S;
  clone_pgdir : S -> Z * S;
  free_pgdir : Z -> S -> S;
  vma_ops : Z -> option (vma_operations S);
}.

(** ** Searching *)

Definition vma_contains (v : vma) (addr : Z) : bool :=
  (v.(vstart) <=? addr) && (addr <? v.(vend)).

Definition vma_find (mm : mm_struct) (addr : Z) : option vma :=
  List.find (fun v => addr <? v.(vend)) mm.(mm_map).

Definition vma_get (mm : mm_struct) (addr : Z) : option vma :=
  match vma_find mm addr with
  | Some v => if vma_contains v addr then Some v else None
  | None => None
  end.

Definition vma_size (v : vma) : Z := v.(vend) -% v.(vstart).

(** The loop over the areas from the highest to the lowest; [l] is the reversed
    list and [len] the page-aligned length. *)
Fixpoint find_space_high (l : list vma) (start end_ len : Z) : Z :=
  match l with
  | [] => if (end_ <=? start) || (end_ -% start <? len) then 0 else end_ -% len
  | v :: l =>
      if end_ <=? v.(vstart) then find_space_high l start end_ len
      else if end_ <? start +% len then 0
      else if v.(vend) +% len <=? end_ then end_ -% len
      else find_space_high l start v.(vstart) len
  end.

Definition vma_find_space_high (mm : mm_struct) (start end_ len : Z) : Z :=
  find_space_high (rev mm.(mm_map)) start end_ (page_align len).

Fixpoint find_space (l : list vma) (start end_ len : Z) : Z :=
  match l with
  | [] => if (end_ <=? start) || (end_ <? start +% len) then 0 else start
  | v :: l =>
      if v.(vend) <=? start then find_space l start end_ len
      else if end_ <=? start +% len then 0
      else if start +% len <? v.(vstart) then start
      else find_space l v.(vend) end_ len
  end.

Definition vma_find_space (mm : mm_struct) (start end_ len : Z) : Z :=
  find_space mm.(mm_map) start end_ len.

(** Insertion in front of the first area with a higher start address. *)
Fixpoint insert_area (v : vma) (l : list vma) : list vma :=
  match l with
  | [] => [v]
  | w :: l => if v.(vstart) <? w.(vstart) then v :: w :: l else w :: insert_area v l
  end.

Definition vma_insert (mm : mm_struct) (v : vma) : mm_struct := set_map mm (insert_area v mm.(mm_map)).

(** ** Creating and changing areas *)
Section Vma.
Context {S : Type} `{E : VmaEnv S}.

Definition new_vma (start end_ flags : Z) (s : S) : option vma * S :=
  match alloc_vma s with
  | None => (None, s)
  | Some (a, s) => (Some (Vma a start end_ flags 0 0), s)
  end.

(** The common tail of the [vma_create_*] functions. *)
Definition create_at (mm : mm_struct) (addr len flags : Z) (s : S)
  : option vma * mm_struct * S :=
  match new_vma addr (page_align (addr +% len)) flags s with
  | (None, s) => (None, mm, s)
  | (Some v, s) => (Some v, vma_insert mm v, s)
  end.

Definition vma_create_high (mm : mm_struct) (start end_ len flags : Z) (s : S)
  : option vma * mm_struct * S :=
  let addr := vma_find_space_high mm start end_ len in
  if addr =? 0 then (None, mm, s) else create_at mm addr len flags s.

Definition vma_create_low (mm : mm_struct) (start end_ len flags : Z) (s : S)
  : option vma * mm_struct * S :=
  let addr := vma_find_space mm start end_ len in
  if addr =? 0 then (None, mm, s) else create_at mm addr len flags s.

Definition vma_create_fixed (mm : mm_struct) (start len flags : Z) (s : S)
  : option vma * mm_struct * S :=
  let blocked :=
    match vma_find mm start with
    | Some v => vma_contains v start || (v.(vstart) -% start <? len)
    | None => false
    end in
  if blocked then (None, mm, s) else create_at mm start len flags s.

Definition vma_map (mm : mm_struct) (dst len flags : Z) (s : S)
  : option vma * mm_struct * S :=
  let nr_pages := pages_in_range dst len in
  let dst := page_base dst in
  match new_vma dst (dst +% nr_pages *% FRAME_SIZE) flags s with
  | (None, s) => (None, mm, s)
  | (Some v, s) => (Some v, vma_insert mm v, s)
  end.

(** The operation of the area's table, if there is one. *)
Definition vop_of {A : Type} (f : vma_operations S -> option A) (v : vma) : option A :=
  match vma_ops v.(vop) with Some t => f t | None => None end.

Definition vm_map_page (v : vma) (addr : Z) (s : S) : Z * S :=
  match vop_of op_map v with
  | None => map_page addr v.(vflags) s
  | Some f => f v addr s
  end.

Definition vm_writeback (v : vma) (addr len : Z) (s : S) : Z * S :=
  match vop_of op_writeback v with
  | None => (0, s)
  | Some f => f v addr len s
  end.

Definition vm_read_perm (v : vma) (addr : Z) (s : S) : Z * S :=
  match vop_of op_read_perm v with
  | None => (- EFAULT, s)
  | Some f => f v addr s
  end.

Definition vm_write_perm (v : vma) (addr : Z) (s : S) : Z * S :=
  if has v.(vflags) VM_WRITE then copy_page addr v.(vflags) s
  else match vop_of op_write_perm v with
       | None => (- EFAULT, s)
       | Some f => f v addr s
       end.

(** [None] in the second component: the area was taken off its list and freed. *)
Definition vm_unmap (v : vma) (s : S) : Z * option vma * S :=
  if has v.(vflags) VM_KEEP then (0, Some v, s)
  else
    let '(error, s) := pm_unmap v s in
    if negb (error =? 0) then (error, Some v, s)
    else
      let s := match vop_of op_unmap v with Some f => snd (f v s) | None => s end in
      (0, None, free_vma v.(vid) s).

Definition vm_split (new old : vma) (s : S) : Z * vma * S :=
  let new := set_op new old.(vop) in
  match vop_of op_split old with
  | Some f => f new old s
  | None => (0, new, s)
  end.

Definition vm_clone (dst src : vma) (s : S) : Z * vma * S :=
  let dst := set_op dst src.(vop) in
  let s :=
    if has src.(vflags) VM_WRITE && negb (has src.(vflags) VM_SHARE)
    then snd (pm_disable_write dst (snd (pm_disable_write src s)))
    else s in
  match vop_of op_clone src with
  | None => (0, dst, s)
  | Some f => f dst src s
  end.

(** Returns the error, the left area and the right one, which goes behind it. *)
Definition vma_bisect (v : vma) (split lflags rflags : Z) (s : S)
  : Z * vma * option vma * S :=
  match alloc_vma s with
  | None => (- ENOMEM, v, None, s)
  | Some (a, s) =>
      let r := Vma a split v.(vend) rflags 0 v.(vop) in
      let l := set_range v v.(vstart) split lflags in
      let '(error, r, s) := vm_split r l s in
      if negb (error =? 0)
      then (error, set_range l l.(vstart) r.(vend) v.(vflags), None, free_vma a s)
      else (0, l, Some r, s)
  end.

(** Returns the error and the areas that take the place of [v]. *)
Definition vma_split (v : vma) (start end_ flags : Z) (s : S) : Z * list vma * S :=
  if v.(vstart) =? start then
    let '(error, l, r, s) := vma_bisect v end_ flags v.(vflags) s in
    (error, l :: match r with Some r => [r] | None => [] end, s)
  else if v.(vend) =? end_ then
    let '(error, l, r, s) := vma_bisect v start v.(vflags) flags s in
    (error, l :: match r with Some r => [r] | None => [] end, s)
  else
    match alloc_vma s with
    | None => (- ENOMEM, [v], s)
    | Some (a, s) =>
        match alloc_vma s with
        | None => (- ENOMEM, [v], free_vma a s)
        | Some (b, s) =>
            let r := Vma b end_ v.(vend) v.(vflags) 0 0 in
            let m := Vma a start end_ flags 0 0 in
            let '(error, m, s) := vm_split m v s in
            if negb (error =? 0) then (error, [v], free_vma b (free_vma a s))
            else
              let '(error, r, s) := vm_split r m s in
              if negb (error =? 0) then (error, [v], free_vma b (free_vma a s))
              else (0, [set_range v v.(vstart) start v.(vflags); m; r], s)
        end
    end.

(** [v] is the area at position [i] of the list. *)
Definition vma_grow_up (mm : mm_struct) (i : nat) (amount flags : Z) (s : S)
  : res (Z * mm_struct * S) :=
  match mm.(mm_map) !! i with
  | None => Fault
  | Some v =>
      if negb (flags =? v.(vflags))
      then match vma_map mm v.(vend) amount flags s with
           | (None, mm, s) => Ok (- ENOMEM, mm, s)
           | (Some _, mm, s) => Ok (0, mm, s)
           end
      else
        let blocked :=
          match mm.(mm_map) !! (i + 1)%nat with
          | Some next => next.(vstart) <? v.(vend) +% amount
          | None => false
          end in
        if blocked then Ok (- ENOMEM, mm, s)
        else
          let v := set_range v v.(vstart) (v.(vend) +% page_align amount) v.(vflags) in
          Ok (0, set_map mm (<[i := v]> mm.(mm_map)), s)
  end.

(** ** Address spaces *)

Definition mm_init (mm : mm_struct) (s : S) : Z * mm_struct * S :=
  let '(pgd, s) := new_pgdir s in
  if pgd =? 0 then (- ENOMEM, MM pgd mm.(mm_map) mm.(brk), s)
  else (0, MM pgd [] mm.(brk), s).

(** [vm_unmap] on every area that satisfies [p]; the others stay. *)
Fixpoint unmap_areas (p : vma -> bool) (l : list vma) (s : S) : list vma * S :=
  match l with
  | [] => ([], s)
  | v :: l =>
      let '(keep, s) :=
        if p v then let '(_, r, s) := vm_unmap v s in (r, s) else (Some v, s) in
      let '(l, s) := unmap_areas p l s in
      (match keep with Some v => v :: l | None => l end, s)
  end.

Definition mm_fini (mm : mm_struct) (s : S) : mm_struct * S :=
  let '(l, s) := unmap_areas (fun _ => true) mm.(mm_map) s in
  (set_map mm l, free_pgdir mm.(pgdir) s).

Definition mm_exec (mm : mm_struct) (s : S) : mm_struct * S :=
  let '(l, s) := unmap_areas (fun v => negb (has v.(vflags) VM_KEEPEXEC)) mm.(mm_map) s in
  (set_map mm l, s).

(** Copies the areas of [src] behind [done]; the flag tells whether all were. *)
Fixpoint clone_areas (src done : list vma) (s : S) : bool * list vma * S :=
  match src with
  | [] => (true, done, s)
  | v :: src =>
      match new_vma v.(vstart) v.(vend) v.(vflags) s with
      | (None, s) => (false, done, s)
      | (Some new, s) =>
          let '(_, new, s) := vm_clone new v s in
          clone_areas src (done ++ [new]) s
      end
  end.

Definition mm_clone (dst src : mm_struct) (s : S) : Z * mm_struct * S :=
  let '(pgd, s) := clone_pgdir s in
  if pgd =? 0 then (- ENOMEM, MM pgd dst.(mm_map) dst.(brk), s)
  else
    let '(done, l, s) := clone_areas src.(mm_map) [] s in
    let dst := MM pgd l dst.(brk) in
    if (done : bool) then (0, set_brk dst src.(brk), s)
    else let '(dst, s) := mm_fini dst s in (- ENOMEM, dst, s).
End Vma.

(** ** Checks on user pointers *)

Definition vm_verify (mm : mm_struct) (start len flags : Z) : Z :=
  match vma_get mm start with
  | None => -1
  | Some v =>
      if negb (Z.land v.(vflags) flags =? flags) then -1
      else if start -% v.(vstart) <? len then -1
      else 0
  end.

Definition vm_verify_unmapped (mm : mm_struct) (start len : Z) : Z :=
  match vma_find mm start with
  | None => 0
  | Some v => if start +% len <? v.(vstart) then 0 else -1
  end.

(** ** Well-formed address spaces *)

(** A non-empty page-aligned area within the 32-bit address space. *)
Definition area_ok (v : vma) : Prop :=
  0 <= v.(vstart) /\ v.(vstart) < v.(vend) /\ v.(vend) < 2 ^ 32 /\
  v.(vstart) mod 4096 = 0 /\ v.(vend) mod 4096 = 0.

Definition before (v w : vma) : Prop := v.(vend) <= w.(vstart).

(** Areas in increasing order, none overlapping another. *)
Definition areas_ok (l : list vma) : Prop := Forall area_ok l /\ StronglySorted before l.

Definition mm_ok (mm : mm_struct) : Prop := areas_ok mm.(mm_map).

(** The range [a, b) meets no area. *)
Definition free_range (l : list vma) (a b : Z) : Prop :=
  forall v, v ∈ l -> b <= v.(vstart) \/ v.(vend) <= a.

Lemma vma_contains_iff (v : vma) (a : Z) :
  vma_contains v a = true <-> v.(vstart) <= a < v.(vend).
Proof. unfold vma_contains. rewrite andb_true_iff, Z.leb_le, Z.ltb_lt. reflexivity. Qed.

Lemma areas_ok_cons (v : vma) (l : list vma) :
  areas_ok (v :: l) <-> area_ok v /\ Forall (before v) l /\ areas_ok l.
Proof.
  unfold areas_ok. rewrite Forall_cons. split.
  - intros [[Hv Hl] Hs]. inversion Hs; subst. auto.
  - intros (Hv & Hb & Hl & Hs). split; [auto | constructor; assumption].
Qed.

(** Two areas of a well-formed list with a common address are the same. *)
Lemma areas_unique (l : list vma) (v w : vma) (a : Z) :
  areas_ok l -> v ∈ l -> w ∈ l -> vma_contains v a = true -> vma_contains w a = true -> v = w.
Proof.
  rewrite !vma_contains_iff. induction l as [| x l IH]; [set_solver|].
  rewrite areas_ok_cons. intros (Hx & Hb & Hl) Hv Hw Hva Hwa.
  rewrite Forall_forall in Hb. unfold before in Hb.
  apply elem_of_cons in Hv as [-> | Hv], Hw as [-> | Hw].
  - reflexivity.
  - specialize (Hb w Hw). lia.
  - specialize (Hb v Hv). lia.
  - auto.
Qed.

Lemma find_first (l : list vma) (a : Z) :
  areas_ok l ->
  match List.find (fun v => a <? v.(vend)) l with
  | Some v => v ∈ l /\ a < v.(vend) /\ forall w, w ∈ l -> w.(vend) <= a \/ v = w \/ v.(vend) <= w.(vstart)
  | None => forall w, w ∈ l -> w.(vend) <= a
  end.
Proof.
  induction l as [| v l IH]; simpl; [set_solver|]. rewrite areas_ok_cons.
  intros (Hv & Hb & Hl). rewrite Forall_forall in Hb. unfold before in Hb.
  destruct (Z.ltb_spec a (vend v)).
  - split; [set_solver|]. split; [assumption|]. intros w Hw.
    apply elem_of_cons in Hw as [-> | Hw]; auto.
  - specialize (IH Hl). destruct (List.find _ l) as [u|].
    + destruct IH as (Hu & Hlt & Hall). split; [set_solver|]. split; [assumption|].
      intros w Hw. apply elem_of_cons in Hw as [-> | Hw]; auto.
    + intros w Hw. apply elem_of_cons in Hw as [-> | Hw]; auto.
Qed.

(** [vma_get] finds the area that contains the address, if there is one. *)
Lemma vma_get_spec (mm : mm_struct) (a : Z) (v : vma) :
  mm_ok mm -> vma_get mm a = Some v <-> v ∈ mm.(mm_map) /\ vma_contains v a = true.
Proof.
  intros Hok. unfold vma_get, vma_find. pose proof (find_first _ a Hok) as Hf.
  destruct (List.find _ _) as [u|].
  - destruct Hf as (Hu & Hlt & Hall). destruct (vma_contains u a) eqn:Hc.
    + split; [intros [= ->]; auto|]. intros [Hv Hva]. f_equal.
      eapply areas_unique; eauto.
    + split; [discriminate|]. intros [Hv Hva]. exfalso.
      rewrite vma_contains_iff in Hva.
      destruct (Hall v Hv) as [| [-> | ]]; [lia | | lia].
      rewrite <- (vma_contains_iff v a) in Hva. congruence.
  - split; [discriminate|]. intros [Hv Hva]. rewrite vma_contains_iff in Hva.
    specialize (Hf v Hv). lia.
Qed.

(** ** Insertion *)

Lemma insert_area_perm (v : vma) (l : list vma) : insert_area v l ≡ₚ v :: l.
Proof.
  induction l as [| w l IH]; simpl; [reflexivity|].
  destruct (vstart v <? vstart w); [reflexivity|]. rewrite IH. apply perm_swap.
Qed.

Lemma insert_area_ok (v : vma) (l : list vma) :
  areas_ok l -> area_ok v -> free_range l v.(vstart) v.(vend) -> areas_ok (insert_area v l).
Proof.
  induction l as [| w l IH]; intros Hl Hv Hd; simpl.
  - apply areas_ok_cons. auto.
  - pose proof Hl as Hwl. apply areas_ok_cons in Hl as (Hw & Hb & Hl).
    pose proof (Hd w) as Hdw. destruct (Z.ltb_spec (vstart v) (vstart w)).
    + apply areas_ok_cons. split; [assumption|]. split; [|assumption].
      assert (before v w) as Hvw.
      { unfold before. destruct Hdw; [set_solver | lia |].
        destruct Hw as (_ & ? & _), Hv as (_ & ? & _). lia. }
      constructor; [assumption|]. eapply Forall_impl; [exact Hb|].
      intros u Hu. unfold before in *. destruct Hw. lia.
    + apply areas_ok_cons. split; [assumption|]. split.
      * rewrite insert_area_perm. constructor; [|assumption].
        unfold before. destruct Hdw; [set_solver | | assumption].
        destruct Hv as (_ & ? & _). lia.
      * apply IH; auto. intros u Hu. apply Hd. set_solver.
Qed.

(** ** Free space *)

Lemma rev_sorted (l : list vma) :
  StronglySorted before l -> StronglySorted (fun v w => before w v) (rev l).
Proof.
  induction l as [| v l IH]; simpl; [constructor|]. intros Hs. inversion Hs; subst.
  apply StronglySorted_app. split; [|split; [auto | repeat constructor]].
  intros x y Hx Hy. apply list_elem_of_singleton in Hy as ->.
  rewrite list_elem_of_In, <- in_rev, <- list_elem_of_In in Hx.
  rewrite Forall_forall in H2. auto.
Qed.

(** The scan from the top finds a free range exactly when there is one: a result
    other than 0 is the start of a free range of [len] bytes within
    [start, end); 0 means that every range of [len] bytes there meets an area. *)
Lemma find_space_high_spec (l : list vma) (start end_ len : Z) :
  Forall area_ok l -> StronglySorted (fun v w => before w v) l ->
  0 < len -> len mod 4096 = 0 -> 0 < start -> start + len < 2 ^ 32 -> 0 <= end_ < 2 ^ 32 ->
  end_ mod 4096 = 0 -> (forall v, v ∈ l -> v.(vend) + len < 2 ^ 32) ->
  let a := find_space_high l start end_ len in
  (a <> 0 -> start <= a /\ a + len <= end_ /\ a mod 4096 = 0 /\ free_range l a (a + len)) /\
  (a = 0 -> forall b, start <= b -> b + len <= end_ -> ~ free_range l b (b + len)).
Proof.
  intros Hok Hs Hlen Hal Hst Hw. revert end_ Hok.
  induction Hs as [| v l Hs IH Hb]; intros end_ Hok Hend Hea Hov; cbv zeta; simpl.
  - destruct (Z.leb_spec end_ start), (Z.ltb_spec (end_ -% start) len); simpl.
    4: { split; [|intros; word_lia]. intros _. split_and!; [word_lia.. | intros v Hv; set_solver]. }
    all: split; [congruence|]; intros _ b Hb1 Hb2 Hf; word_lia.
  - inversion Hok as [| ? ? Hv Hokl]; subst.
    assert (forall w, w ∈ l -> vend w + len < 2 ^ 32) as Hovl by set_solver.
    pose proof (Hov v ltac:(set_solver)) as Hovv.
    destruct Hv as (Hv0 & Hv1 & Hv2 & Hva & Hve).
    rewrite (uN_id 32 (start + len)), (uN_id 32 (vend v + len)) by lia.
    destruct (Z.leb_spec end_ (vstart v)); [|destruct (Z.ltb_spec end_ (start + len));
      [|destruct (Z.leb_spec (vend v + len) end_)]].
    + destruct (IH end_ Hokl Hend Hea Hovl) as [Hsome Hnone]. split.
      * intros Ha. destruct (Hsome Ha) as (? & ? & ? & Hf). split_and!; auto.
        intros w Hw'. apply elem_of_cons in Hw' as [-> | Hw']; [lia | auto].
      * intros Ha b Hb1 Hb2 Hf. apply (Hnone Ha b Hb1 Hb2).
        intros w Hw'. apply Hf. set_solver.
    + split; [congruence|]. intros _ b Hb1 Hb2 _. lia.
    + rewrite uN_id by lia. split; [|lia]. intros _. split_and!; [lia..|].
      intros w Hw'. apply elem_of_cons in Hw' as [-> | Hw']; [lia|].
      rewrite Forall_forall in Hb. specialize (Hb w Hw'). unfold before in Hb. lia.
    + destruct (IH (vstart v) Hokl ltac:(lia) Hva Hovl) as [Hsome Hnone]. split.
      * intros Ha. destruct (Hsome Ha) as (? & ? & ? & Hf). split_and!; [lia..|].
        intros w Hw'. apply elem_of_cons in Hw' as [-> | Hw']; [lia | auto].
      * intros Ha b Hb1 Hb2 Hf. destruct (Hf v) as [Hbv | Hbv]; [set_solver | | lia].
        apply (Hnone Ha b Hb1 Hbv). intros w Hw'. apply Hf. set_solver.
Qed.

Lemma free_range_rev (l : list vma) (a b : Z) : free_range (rev l) a b <-> free_range l a b.
Proof.
  unfold free_range. split; intros H v Hv; apply H; revert Hv;
    rewrite !list_elem_of_In, <- in_rev; auto.
Qed.

Lemma Forall_rev_iff (P : vma -> Prop) (l : list vma) : Forall P l -> Forall P (rev l).
Proof.
  rewrite !Forall_forall. intros H v. rewrite list_elem_of_In, <- in_rev, <- list_elem_of_In.
  apply H.
Qed.

Lemma page_align_add (a len : Z) :
  0 <= a -> a mod 4096 = 0 -> 0 < len -> a + len + 4095 < 2 ^ 32 ->
  page_align (a +% len) = a + page_align len /\ len <= page_align len <= len + 4095 /\
  page_align len mod 4096 = 0.
Proof.
  intros Ha Ham Hl Hw. rewrite uN_id by lia.
  rewrite !page_align_eq by (unfold in_u32; lia). rewrite !uN_id by lia. lia.
Qed.

Section VmaTheorems.
Context {S : Type} `{E : VmaEnv S}.

(** What a successful creation of an area over a free range establishes. *)
Definition created (mm mm' : mm_struct) (v : vma) (flags len : Z) : Prop :=
  mm_ok mm' /\ mm'.(mm_map) ≡ₚ v :: mm.(mm_map) /\ area_ok v /\
  free_range mm.(mm_map) v.(vstart) v.(vend) /\
  v.(vflags) = flags /\ v.(vop) = 0 /\ len <= v.(vend) - v.(vstart) <= len + 4095 /\
  mm'.(pgdir) = mm.(pgdir) /\ mm'.(brk) = mm.(brk).

Lemma create_at_ok (mm : mm_struct) (addr len flags p : Z) (s s' : S) :
  mm_ok mm -> alloc_vma s = Some (p, s') ->
  0 <= addr -> addr mod 4096 = 0 -> 0 < len -> addr + len + 4095 < 2 ^ 32 ->
  free_range mm.(mm_map) addr (addr + page_align len) ->
  exists v mm', create_at mm addr len flags s = (Some v, mm', s') /\
    v.(vstart) = addr /\ created mm mm' v flags len.
Proof.
  intros Hok Ha H0 Hal Hl Hw Hf. unfold create_at, new_vma. rewrite Ha.
  destruct (page_align_add addr len H0 Hal Hl Hw) as (-> & Hb & Hm).
  set (v := Vma p addr (addr + page_align len) flags 0 0).
  assert (area_ok v) as Hv by (repeat split; simpl; lia).
  exists v, (vma_insert mm v). split; [reflexivity|]. split; [reflexivity|].
  split; [apply insert_area_ok; assumption|]. split; [apply insert_area_perm|].
  split_and!; auto; simpl; lia.
Qed.

(** Placing an area from the top of a range. *)
Lemma vma_create_high_spec (mm : mm_struct) (start end_ len flags p : Z) (s s' : S) :
  mm_ok mm -> alloc_vma s = Some (p, s') ->
  0 < start -> 0 <= end_ < 2 ^ 32 - 4096 -> end_ mod 4096 = 0 ->
  0 < len -> start + len + 4095 < 2 ^ 32 ->
  (forall v, v ∈ mm.(mm_map) -> v.(vend) + page_align len < 2 ^ 32) ->
  (exists v mm', vma_create_high mm start end_ len flags s = (Some v, mm', s') /\
     created mm mm' v flags len /\ start <= v.(vstart) /\ v.(vend) <= end_) \/
  (vma_create_high mm start end_ len flags s = (None, mm, s) /\
   forall b, start <= b -> b + page_align len <= end_ ->
     ~ free_range mm.(mm_map) b (b + page_align len)).
Proof.
  intros Hok Ha Hst Hend Hea Hlen Hw Hov. destruct Hok as [Hall Hsort].
  destruct (page_align_add 0 len ltac:(lia) eq_refl Hlen ltac:(lia)) as (_ & Hb & Hm).
  destruct (find_space_high_spec (rev mm.(mm_map)) start end_ (page_align len))
    as [Hsome Hnone]; try lia.
  { apply Forall_rev_iff, Hall. }
  { apply rev_sorted, Hsort. }
  { intros v Hv. apply Hov. revert Hv. rewrite !list_elem_of_In, <- in_rev. auto. }
  unfold vma_create_high, vma_find_space_high.
  set (a := find_space_high (rev mm.(mm_map)) start end_ (page_align len)) in *.
  destruct (Z.eqb_spec a 0) as [E0 | E0].
  - right. split; [reflexivity|]. intros b Hb1 Hb2. rewrite <- free_range_rev. eauto.
  - left. destruct (Hsome E0) as (H1 & H2 & H3 & H4). rewrite free_range_rev in H4.
    destruct (create_at_ok mm a len flags p s s') as (v & mm' & Ec & Ev & Hc);
      try lia; try (split; assumption); auto.
    exists v, mm'. split; [exact Ec|]. split; [exact Hc|]. rewrite Ev. split; [lia|].
    destruct Hc as (_ & _ & (_ & _ & _ & Hvs & Hve) & _ & _ & _ & Hl & _).
    rewrite Ev in *. lia.
Qed.

(** C7: placing an area from the top of a range.  For a well-formed address
    space, a free descriptor, page-aligned bounds and lengths for which no area
    end plus the length wraps around, [vma_create_high] creates an area exactly
    when some range of the rounded length within [start, end) is free: then the
    new area lies within the bounds, overlaps no other area, has the flags asked
    for and at least the length asked for, and the areas stay sorted and
    disjoint; otherwise the address space is unchanged. *)
Theorem vma_create_high_correct (mm : mm_struct) (start end_ len flags p : Z) (s s' : S) :
  mm_ok mm -> alloc_vma s = Some (p, s') ->
  0 < start -> 0 <= end_ < 2 ^ 32 - 4096 -> end_ mod 4096 = 0 ->
  0 < len -> start + len + 4095 < 2 ^ 32 ->
  (forall v, v ∈ mm.(mm_map) -> v.(vend) + page_align len < 2 ^ 32) ->
  (exists v mm', vma_create_high mm start end_ len flags s = (Some v, mm', s') /\
     created mm mm' v flags len /\ start <= v.(vstart) /\ v.(vend) <= end_) \/
  (vma_create_high mm start end_ len flags s = (None, mm, s) /\
   forall b, start <= b -> b + page_align len <= end_ ->
     ~ free_range mm.(mm_map) b (b + page_align len)).
Proof. exact (vma_create_high_spec mm start end_ len flags p s s'). Qed.

(** Placing an area at a fixed address. *)
Lemma vma_create_fixed_spec (mm : mm_struct) (start len flags p : Z) (s s' : S) :
  mm_ok mm -> alloc_vma s = Some (p, s') ->
  0 <= start -> start mod 4096 = 0 -> 0 < len -> start + len + 4095 < 2 ^ 32 ->
  (exists v mm', vma_create_fixed mm start len flags s = (Some v, mm', s') /\
     v.(vstart) = start /\ created mm mm' v flags len) \/
  (vma_create_fixed mm start len flags s = (None, mm, s) /\
   ~ free_range mm.(mm_map) start (start + page_align len)).
Proof.
  intros Hok Ha H0 Hal Hlen Hw. pose proof Hok as [Hall _]. rewrite Forall_forall in Hall.
  destruct (page_align_add start len H0 Hal Hlen Hw) as (_ & Hb & Hm).
  unfold vma_create_fixed, vma_find. pose proof (find_first _ start Hok) as Hf.
  destruct (List.find _ _) as [v|].
  - destruct Hf as (Hv & Hlt & Hrest). pose proof (Hall v Hv) as (Hv0 & Hv1 & Hv2 & Hva & Hve).
    destruct (vma_contains v start) eqn:Hc; simpl;
      [|destruct (Z.ltb_spec (vstart v -% start) len)].
    + right. split; [reflexivity|]. intros Hfr. apply vma_contains_iff in Hc.
      destruct (Hfr v Hv); lia.
    + right. split; [reflexivity|]. intros Hfr.
      assert (~ vstart v <= start < vend v) by (rewrite <- vma_contains_iff, Hc; discriminate).
      destruct (Hfr v Hv); word_lia.
    + left. apply (create_at_ok mm start len flags p s s'); auto.
      assert (~ vstart v <= start < vend v) by (rewrite <- vma_contains_iff, Hc; discriminate).
      intros w Hw'. destruct (Hrest w Hw') as [| [<- |]]; [auto | |]; left;
        (assert (start + page_align len <= vstart v); [word_lia | lia]).
  - left. apply (create_at_ok mm start len flags p s s'); auto.
    intros w Hw'. right. auto.
Qed.

(** C8: placing an area at a fixed address.  For a well-formed address space, a
    free descriptor, a page-aligned address and a positive length whose rounded
    range does not wrap around, [vma_create_fixed] creates the area exactly when no
    area overlaps the rounded range; the areas stay sorted and disjoint, and on
    refusal nothing changes.  A range that wraps around is not refused
    ([vma_create_fixed_wraps]). *)
Theorem vma_create_fixed_correct (mm : mm_struct) (start len flags p : Z) (s s' : S) :
  mm_ok mm -> alloc_vma s = Some (p, s') ->
  0 <= start -> start mod 4096 = 0 -> 0 < len -> start + len + 4095 < 2 ^ 32 ->
  (exists v mm', vma_create_fixed mm start len flags s = (Some v, mm', s') /\
     v.(vstart) = start /\ created mm mm' v flags len) \/
  (vma_create_fixed mm start len flags s = (None, mm, s) /\
   ~ free_range mm.(mm_map) start (start + page_align len)).
Proof. exact (vma_create_fixed_spec mm start len flags p s s'). Qed.
End VmaTheorems.

(** A descriptor cache that hands out addresses in sequence, with page table
    operations that succeed and areas without special operations. *)
Definition counter_env : VmaEnv Z := {|
  alloc_vma s := Some (s, s + 32);
  free_vma _ s := s;
  map_page _ _ s := (0, s);
  copy_page _ _ s := (0, s);
  pm_unmap _ s := (0, s);
  pm_disable_write _ s := (0, s);
  new_pgdir s := (s, s + 4096);
  clone_pgdir s := (s, s + 4096);
  free_pgdir _ s := s;
  vma_ops _ := None;
|}.

(** The heap and the stack of a new process. *)
Definition mm_example : mm_struct :=
  MM 4096 [Vma 1 1048576 1052672 14 0 0; Vma 2 3221192704 3221225472 63 0 0] 1052672.

Lemma mm_example_ok : mm_ok mm_example.
Proof.
  split; [repeat constructor; simpl; lia|]. repeat constructor; unfold before; simpl; lia.
Qed.

Lemma vma_create_high_correct_witness :
  (exists v mm', @vma_create_high Z counter_env mm_example 4096 3221225472 8192 6 64
     = (Some v, mm', 96) /\
     created mm_example mm' v 6 8192 /\ 4096 <= v.(vstart) /\ v.(vend) <= 3221225472) \/
  (@vma_create_high Z counter_env mm_example 4096 3221225472 8192 6 64 = (None, mm_example, 64) /\
   forall b, 4096 <= b -> b + page_align 8192 <= 3221225472 ->
     ~ free_range mm_example.(mm_map) b (b + page_align 8192)).
Proof.
  apply (@vma_create_high_correct Z counter_env mm_example 4096 3221225472 8192 6 64 64 96);
    try lia; try reflexivity; [exact mm_example_ok|].
  intros v Hv. unfold mm_example in Hv. simpl in Hv.
  repeat (apply elem_of_cons in Hv as [-> | Hv]; [vm_compute; reflexivity|]). set_solver.
Defined.

(** A range that wraps around gives an area that ends below its start. *)
Lemma vma_create_fixed_wraps :
  @vma_create_fixed Z counter_env mm_example 4294959104 12288 6 64 =
    (Some (Vma 64 4294959104 4096 6 0 0),
     MM 4096 (mm_example.(mm_map) ++ [Vma 64 4294959104 4096 6 0 0]) 1052672, 96).
Proof. reflexivity. Qed.

Lemma vma_create_fixed_correct_witness :
  (exists v mm', @vma_create_fixed Z counter_env mm_example 1052672 5000 6 64 = (Some v, mm', 96) /\
     v.(vstart) = 1052672 /\ created mm_example mm' v 6 5000) \/
  (@vma_create_fixed Z counter_env mm_example 1052672 5000 6 64 = (None, mm_example, 64) /\
   ~ free_range mm_example.(mm_map) 1052672 (1052672 + page_align 5000)).
Proof.
  apply (@vma_create_fixed_correct Z counter_env mm_example 1052672 5000 6 64 64 96);
    try lia; try reflexivity. exact mm_example_ok.
Defined.
