(* ===== verification/Mmap.v ===== *)
(** * Memory mapping system calls (kernel/mmap.c, dispatch/mem.c)

    [sys_munmap] and [sys_sbrk] on the areas of the current process, and the
    bookkeeping of file mappings ([struct mmap_private] and the reference
    counts of the mapped files). *)

From Stdlib Require Import Sorted.
From stdpp Require Import sorting.
From S2P Require Import Prelude Abi Addr Vma.

(** ** Unmapping *)

(** The first loop of [sys_munmap]: is there an area that must stay? *)
Fixpoint munmap_blocked (l : list vma) (start end_ : Z) : bool :=
  match l with
  | [] => false
  | v :: l =>
      if v.(vend) <? start then munmap_blocked l start end_
      else if end_ <=? v.(vstart) then false
      else if has v.(vflags) VM_KEEP then true
      else munmap_blocked l start end_
  end.

Section Munmap.
Context {S : Type} `{E : VmaEnv S}.

(** The second loop.  The part of [v] below [start] is split off first; should
    that split fail, the cursor moves on to the following area, which the next
    iteration then uses after it was freed: that is a [Fault]. *)
Fixpoint munmap_areas (l : list vma) (start end_ : Z) (s : S) : res (list vma * S) :=
  match l with
  | [] => Ok ([], s)
  | v :: l =>
      if v.(vend) <? start
      then do ' (l, s) <- munmap_areas l start end_ s; Ok (v :: l, s)
      else if end_ <=? v.(vstart) then Ok (v :: l, s)
      else
        let '(low, cur, s) :=
          if v.(vstart) <? start
          then let '(_, l, r, s) := vma_bisect v start v.(vflags) v.(vflags) s in ([l], r, s)
          else ([], Some v, s) in
        match cur with
        | None => Fault
        | Some v =>
            let '(v, high, s) :=
              if end_ <? v.(vend)
              then let '(_, l, r, s) := vma_bisect v end_ v.(vflags) v.(vflags) s in (l, r, s)
              else (v, None, s) in
            let '(_, v, s) := vm_unmap v s in
            do ' (l, s) <- munmap_areas l start end_ s;
            Ok (low ++ option_list v ++ option_list high ++ l, s)
        end
  end.

Definition sys_munmap (mm : mm_struct) (addr len : Z) (s : S) : res (Z * mm_struct * S) :=
  let start := addr in
  let end_ := start +% page_align len in
  if kernel_base <? end_ then Ok (- EINVAL, mm, s)
  else if (len =? 0) || negb (page_aligned addr) then Ok (- EINVAL, mm, s)
  else if munmap_blocked mm.(mm_map) start end_ then Ok (- EINVAL, mm, s)
  else
    do ' (l, s) <- munmap_areas mm.(mm_map) start end_ s;
    Ok (0, set_map mm l, s).

(** ** The program break *)

(** Flags of the heap area ([HEAP_FLAGS] of dispatch/process.c). *)
Definition HEAP_FLAGS : Z := 14.

(** The position of the heap area, which is made when there is none. *)
Definition get_heap (mm : mm_struct) (s : S) : option vma * mm_struct * S :=
  match vma_get mm (mm.(brk) -% 1) with
  | Some heap => (Some heap, mm, s)
  | None => vma_map mm (mm.(brk) -% 1) 1 HEAP_FLAGS s
  end.

(** Position of an area in the list, by the address of its descriptor. *)
Fixpoint index_of (p : Z) (l : list vma) : nat :=
  match l with
  | [] => 0%nat
  | v :: l => if v.(vid) =? p then 0%nat else Datatypes.S (index_of p l)
  end.

(** [oldbrk] is the user's pointer; the value stored through it is returned. *)
Definition sys_sbrk (mm : mm_struct) (inc oldbrk : Z) (s : S)
  : res (Z * option Z * mm_struct * S) :=
  let new := mm.(brk) +% inc in
  if negb (vm_verify mm oldbrk 4 VM_WRITE =? 0) then Ok (- EFAULT, None, mm, s)
  else
    let old := Some mm.(brk) in
    match get_heap mm s with
    | (None, mm, s) => Ok (- ENOMEM, old, mm, s)
    | (Some heap, mm, s) =>
        if new <? heap.(vstart) then Ok (- EINVAL, old, mm, s)
        else if (inc <=? 0) || (new <? heap.(vend)) then Ok (0, old, set_brk mm new, s)
        else
          do ' (rc, mm, s) <-
            vma_grow_up mm (index_of heap.(vid) mm.(mm_map)) (u32 inc) heap.(vflags) s;
          if negb (rc =? 0) then Ok (rc, old, mm, s)
          else Ok (0, old, set_brk mm new, s)
    end.
End Munmap.

(** ** Laws of the environment

    Allocation of a descriptor does not fail ([kalloc_frame] panics instead),
    page table entries can always be removed, and the split operation of a
    special area succeeds and leaves range and flags alone. *)
Class VmaEnvLaws (S : Type) `{E : VmaEnv S} : Prop := {
  alloc_vma_total (s : S) : exists p s', alloc_vma s = Some (p, s');
  pm_unmap_ok (v : vma) (s : S) : fst (pm_unmap v s) = 0;
  op_split_ok (op : Z) (t : vma_operations S) (f : vma -> vma -> S -> Z * vma * S)
      (new old : vma) (s : S) :
    vma_ops op = Some t -> op_split t = Some f ->
    exists new' s', f new old s = (0, new', s') /\
      new'.(vstart) = new.(vstart) /\ new'.(vend) = new.(vend) /\
      new'.(vflags) = new.(vflags);
}.

Lemma counter_env_laws : @VmaEnvLaws Z counter_env.
Proof.
  constructor; simpl; [eauto | reflexivity | discriminate].
Qed.

Section MunmapProofs.
Context {S : Type} `{E : VmaEnv S} `{!VmaEnvLaws S}.

Lemma vma_bisect_ok (v : vma) (split lf rf : Z) (s : S) :
  exists l r s', vma_bisect v split lf rf s = (0, l, Some r, s') /\
    l.(vstart) = v.(vstart) /\ l.(vend) = split /\ l.(vflags) = lf /\
    r.(vstart) = split /\ r.(vend) = v.(vend) /\ r.(vflags) = rf.
Proof.
  unfold vma_bisect. destruct (alloc_vma_total s) as (p & s1 & ->).
  unfold vm_split, vop_of. simpl.
  destruct (vma_ops (vop v)) as [t|] eqn:Et; [|eexists _, _, _; split; [reflexivity | split_and!; reflexivity]].
  destruct (op_split t) as [f|] eqn:Ef; [|eexists _, _, _; split; [reflexivity | split_and!; reflexivity]].
  destruct (op_split_ok _ _ _ (set_op (Vma p split (vend v) rf 0 (vop v)) (vop v))
              (set_range v (vstart v) split lf) s1 Et Ef) as (r & s2 & -> & H1 & H2 & H3).
  simpl. eexists _, _, _. split; [reflexivity|]. simpl in *. split_and!; auto.
Qed.

Lemma vm_unmap_ok (v : vma) (s : S) :
  has v.(vflags) VM_KEEP = false -> exists s', vm_unmap v s = (0, None, s').
Proof.
  intros Hk. unfold vm_unmap. rewrite Hk. pose proof (pm_unmap_ok v s) as Hp.
  destruct (pm_unmap v s) as [e s1]. simpl in Hp. subst e. simpl. eauto.
Qed.

(** Address [a] is mapped with flags [f]. *)
Definition cov (l : list vma) (a f : Z) : Prop :=
  exists v, v ∈ l /\ v.(vstart) <= a < v.(vend) /\ v.(vflags) = f.

(** Every area of [l'] is part of an area of [l]. *)
Definition within (l' l : list vma) : Prop :=
  forall w, w ∈ l' -> exists v, v ∈ l /\ v.(vstart) <= w.(vstart) /\ w.(vend) <= v.(vend).

Lemma cov_cons (v : vma) (l : list vma) (a f : Z) :
  cov (v :: l) a f <-> (v.(vstart) <= a < v.(vend) /\ v.(vflags) = f) \/ cov l a f.
Proof.
  unfold cov. split.
  - intros (w & Hw & H). apply elem_of_cons in Hw as [-> | Hw]; eauto.
  - intros [H | (w & Hw & H)]; [exists v | exists w]; split; auto; set_solver.
Qed.

Lemma cov_app (l1 l2 : list vma) (a f : Z) : cov (l1 ++ l2) a f <-> cov l1 a f \/ cov l2 a f.
Proof.
  unfold cov. split.
  - intros (w & Hw & H). apply elem_of_app in Hw as [Hw | Hw]; eauto.
  - intros [(w & Hw & H) | (w & Hw & H)]; exists w; split; auto; set_solver.
Qed.

Lemma cov_nil (a f : Z) : cov [] a f <-> False.
Proof. unfold cov. split; [intros (v & Hv & _); set_solver | tauto]. Qed.

Lemma before_within (v : vma) (l l' : list vma) :
  Forall (before v) l -> within l' l -> Forall (before v) l'.
Proof.
  rewrite !Forall_forall. intros Hb Hw w Hin. destruct (Hw w Hin) as (u & Hu & H1 & _).
  specialize (Hb u Hu). unfold before in *. lia.
Qed.

(** The pieces of [v] that remain: below [start] and from [end] on. *)
Definition piece (v w : vma) (lo hi : Z) : Prop :=
  w.(vstart) = lo /\ w.(vend) = hi /\ w.(vflags) = v.(vflags).

Definition low_pieces (v : vma) (start : Z) (low : list vma) : Prop :=
  (low = [] /\ start <= v.(vstart)) \/
  (exists w, low = [w] /\ v.(vstart) < start /\ piece v w v.(vstart) start).

Definition high_pieces (v : vma) (end_ : Z) (high : list vma) : Prop :=
  (high = [] /\ v.(vend) <= end_) \/
  (exists w, high = [w] /\ end_ < v.(vend) /\ piece v w end_ v.(vend)).

(** The loop body on an area that reaches into the range. *)
Lemma munmap_step (v : vma) (l : list vma) (start end_ : Z) (s : S) :
  has v.(vflags) VM_KEEP = false -> start <= v.(vend) -> v.(vstart) < end_ ->
  exists low high s', low_pieces v start low /\ high_pieces v end_ high /\
    munmap_areas (v :: l) start end_ s =
    (do ' (l, s) <- munmap_areas l start end_ s'; Ok (low ++ high ++ l, s)).
Proof.
  intros Hk H1 H2. simpl. destruct (Z.ltb_spec (vend v) start); [lia|].
  destruct (Z.leb_spec end_ (vstart v)); [lia|].
  assert (exists low cur s1, low_pieces v start low /\ cur.(vend) = v.(vend) /\
    cur.(vflags) = v.(vflags) /\
    (if vstart v <? start
     then let '(_, l0, r, s0) := vma_bisect v start (vflags v) (vflags v) s in ([l0], r, s0)
     else ([], Some v, s)) = (low, Some cur, s1)) as (low & cur & s1 & Hlow & Hce & Hcf & ->).
  { destruct (Z.ltb_spec (vstart v) start).
    - destruct (vma_bisect_ok v start (vflags v) (vflags v) s)
        as (a & b & s1 & -> & ? & ? & ? & ? & ? & ?).
      eexists _, b, _. split_and!; auto. right. exists a. repeat split; auto.
    - eexists _, v, _. split_and!; auto. left. auto. }
  rewrite Hce. assert (exists cur' high s2, high_pieces v end_ (option_list high) /\
    cur'.(vflags) = v.(vflags) /\
    (if end_ <? vend v
     then let '(_, l0, r, s0) := vma_bisect cur end_ (vflags cur) (vflags cur) s1 in (l0, r, s0)
     else (cur, None, s1)) = (cur', high, s2)) as (cur' & high & s2 & Hhigh & Hcf' & ->).
  { destruct (Z.ltb_spec end_ (vend v)).
    - destruct (vma_bisect_ok cur end_ (vflags cur) (vflags cur) s1)
        as (a & b & s2 & -> & ? & ? & ? & ? & ? & ?).
      eexists a, (Some b), _. split_and!; [|congruence | reflexivity].
      right. exists b. repeat split; auto; congruence.
    - eexists cur, None, _. split_and!; auto. left. auto. }
  destruct (vm_unmap_ok cur' s2) as (s3 & ->); [rewrite Hcf'; exact Hk|].
  exists low, (option_list high), s3. split_and!; auto.
Qed.

(** Putting the remaining pieces of [v] in front of the remaining pieces of the
    areas behind it. *)
Lemma pieces_ok (v : vma) (l l' low high : list vma) (start end_ : Z) :
  areas_ok (v :: l) -> 0 <= start < end_ -> end_ < 2 ^ 32 ->
  start mod 4096 = 0 -> end_ mod 4096 = 0 ->
  start <= v.(vend) -> v.(vstart) < end_ ->
  low_pieces v start low -> high_pieces v end_ high ->
  areas_ok l' -> within l' l ->
  (forall a f, cov l' a f <-> cov l a f /\ ~ (start <= a < end_)) ->
  areas_ok (low ++ high ++ l') /\ within (low ++ high ++ l') (v :: l) /\
  (forall a f, cov (low ++ high ++ l') a f <-> cov (v :: l) a f /\ ~ (start <= a < end_)).
Proof.
  intros Hok Hse He Hsa Hea H1 H2 Hlow Hhigh Hok' Hw Hc.
  apply areas_ok_cons in Hok as (Hv & Hb & Hl). pose proof Hv as (Hv0 & Hv1 & Hv2 & Hva & Hve).
  pose proof (before_within v l l' Hb Hw) as Hb'.
  assert (areas_ok (high ++ l') /\ within (high ++ l') (v :: l) /\
    Forall (fun w => end_ <= w.(vstart)) high /\
    forall a f, cov high a f <-> (end_ <= a < vend v /\ vflags v = f)) as (Hok2 & Hw2 & Hst & Hch).
  { destruct Hhigh as [[-> ?] | (w & -> & ? & Hws & Hwe & Hwf)]; simpl.
    - split_and!; auto. { intros u Hu. destruct (Hw u Hu) as (x & ? & ?). exists x. set_solver. }
      intros a f. rewrite cov_nil. lia.
    - split_and!.
      + apply areas_ok_cons. split_and!; auto; [repeat split; lia|].
        eapply Forall_impl; [exact Hb'|]. unfold before. intros u. lia.
      + intros u Hu. apply elem_of_cons in Hu as [-> | Hu]; [exists v; split; [set_solver | lia]|].
        destruct (Hw u Hu) as (x & ? & ?). exists x. set_solver.
      + repeat constructor. lia.
      + intros a f. rewrite cov_cons, cov_nil, Hws, Hwe, Hwf. tauto. }
  destruct Hlow as [[-> ?] | (w & -> & ? & Hws & Hwe & Hwf)]; simpl.
  - split_and!; auto. intros a f. rewrite cov_app, Hch, cov_cons, Hc.
    assert (cov l a f -> vend v <= a).
    { intros (u & Hu & ? & _). rewrite Forall_forall in Hb. specialize (Hb u Hu).
      unfold before in Hb. lia. }
    intuition lia.
  - split_and!.
    + apply areas_ok_cons. split_and!; auto; [repeat split; lia|]. apply Forall_app. split.
      * eapply Forall_impl; [exact Hst|]. unfold before. simpl. intros u. lia.
      * eapply Forall_impl; [exact Hb'|]. unfold before. intros u. lia.
    + intros u Hu. apply elem_of_cons in Hu as [-> | Hu]; [|auto].
      exists v. split; [set_solver | lia].
    + intros a f. rewrite cov_cons, cov_app, Hch, cov_cons, Hc, Hws, Hwe, Hwf.
      assert (cov l a f -> vend v <= a).
      { intros (u & Hu & ? & _). rewrite Forall_forall in Hb. specialize (Hb u Hu).
        unfold before in Hb. lia. }
      intuition lia.
Qed.

Lemma munmap_areas_ok (l : list vma) (start end_ : Z) (s : S) :
  areas_ok l -> 0 <= start < end_ -> end_ < 2 ^ 32 ->
  start mod 4096 = 0 -> end_ mod 4096 = 0 -> munmap_blocked l start end_ = false ->
  exists l' s', munmap_areas l start end_ s = Ok (l', s') /\ areas_ok l' /\ within l' l /\
    forall a f, cov l' a f <-> cov l a f /\ ~ (start <= a < end_).
Proof.
  intros Hok Hse He Hsa Hea. revert s. induction l as [| v l IH]; intros s Hbl.
  - exists [], s. split_and!; [reflexivity | exact Hok | intros w; set_solver |].
    intros a f. rewrite cov_nil. tauto.
  - pose proof Hok as Hvl. apply areas_ok_cons in Hok as (Hv & Hb & Hl). simpl in Hbl.
    pose proof Hv as (Hv0 & Hv1 & _). destruct (Z.ltb_spec (vend v) start).
    + destruct (IH Hl s Hbl) as (l' & s' & E1 & Hok' & Hw & Hc).
      exists (v :: l'), s'. simpl. destruct (Z.ltb_spec (vend v) start); [|lia].
      rewrite E1. simpl. split_and!; [reflexivity | | |].
      * apply areas_ok_cons. split_and!; auto. eapply before_within; eauto.
      * intros w Hin. apply elem_of_cons in Hin as [-> | Hin]; [exists v; split; [set_solver | lia]|].
        destruct (Hw w Hin) as (u & ? & ?). exists u. set_solver.
      * intros a f. rewrite !cov_cons, Hc. intuition lia.
    + destruct (Z.leb_spec end_ (vstart v)).
      * exists (v :: l), s. simpl. destruct (Z.ltb_spec (vend v) start); [lia|].
        destruct (Z.leb_spec end_ (vstart v)); [|lia].
        split_and!; [reflexivity | exact Hvl | intros w Hw; exists w; split; [assumption | lia] |].
        intros a f. split; [|tauto]. intros Hcov. split; [exact Hcov|].
        destruct Hcov as (w & Hw & Ha & _). apply elem_of_cons in Hw as [-> | Hw]; [lia|].
        rewrite Forall_forall in Hb. specialize (Hb w Hw). unfold before in Hb. lia.
      * destruct (has (vflags v) VM_KEEP) eqn:Hk; [discriminate|].
        destruct (munmap_step v l start end_ s Hk) as (low & high & s1 & Hlow & Hhigh & ->); try lia.
        destruct (IH Hl s1 Hbl) as (l' & s' & -> & Hok' & Hw & Hc).
        exists (low ++ high ++ l'), s'. split; [reflexivity|]. eapply pieces_ok; eauto.
Qed.

Lemma munmap_blocked_keep (l : list vma) (start end_ : Z) :
  munmap_blocked l start end_ = true ->
  exists v, v ∈ l /\ has v.(vflags) VM_KEEP = true /\ start <= v.(vend) /\ v.(vstart) < end_.
Proof.
  induction l as [| v l IH]; simpl; [discriminate|].
  destruct (Z.ltb_spec (vend v) start).
  - intros H1. destruct (IH H1) as (w & ? & ?). exists w. set_solver.
  - destruct (Z.leb_spec end_ (vstart v)); [discriminate|].
    destruct (has (vflags v) VM_KEEP) eqn:Hk.
    + intros _. exists v. split_and!; auto; set_solver.
    + intros H1. destruct (IH H1) as (w & ? & ?). exists w. set_solver.
Qed.

(** C9: unmapping.  For a well-formed address space and a page-aligned range of
    user memory, [sys_munmap] either succeeds, and then exactly the addresses of
    the range are no longer mapped, every other address is mapped with the same
    flags as before (areas that straddle a bound are split), and the areas stay
    sorted, disjoint and page-aligned; or it fails with EINVAL and changes
    nothing, and then some area that must be kept reaches into the range or ends
    where it starts. *)
Theorem sys_munmap_correct (mm : mm_struct) (addr len : Z) (s : S) :
  mm_ok mm -> 0 <= addr -> addr mod 4096 = 0 -> 0 < len ->
  addr + page_align len <= kernel_base -> len < kernel_base ->
  (exists mm' s', sys_munmap mm addr len s = Ok (0, mm', s') /\ mm_ok mm' /\
     forall a f, cov mm'.(mm_map) a f <->
       cov mm.(mm_map) a f /\ ~ (addr <= a < addr + page_align len)) \/
  (sys_munmap mm addr len s = Ok (- EINVAL, mm, s) /\
   exists v, v ∈ mm.(mm_map) /\ has v.(vflags) VM_KEEP = true /\
     addr <= v.(vend) /\ v.(vstart) < addr + page_align len).
Proof.
  intros Hok Ha0 Ham Hl He Hlk. unfold kernel_base in *.
  destruct (page_align_add 0 len ltac:(lia) eq_refl Hl ltac:(lia)) as (_ & Hb & Hm).
  unfold sys_munmap. cbv zeta. rewrite (uN_id 32 (addr + page_align len)) by lia.
  unfold kernel_base. destruct (Z.ltb_spec 3221225472 (addr + page_align len)); [lia|].
  destruct (Z.eqb_spec len 0); [lia|]. rewrite page_aligned_eq, Ham. simpl.
  destruct (munmap_blocked (mm_map mm) addr (addr + page_align len)) eqn:Hbl.
  - right. split; [reflexivity|]. apply munmap_blocked_keep, Hbl.
  - left. destruct (munmap_areas_ok (mm_map mm) addr (addr + page_align len) s Hok)
      as (l' & s' & -> & Hok' & _ & Hc); try lia; auto.
    exists (set_map mm l'), s'. simpl. auto.
Qed.
End MunmapProofs.

(** An area of three pages between the heap and the stack. *)
Definition mm_three : mm_struct :=
  MM 4096 [Vma 1 1048576 1052672 14 0 0; Vma 3 2097152 2109440 6 0 0;
           Vma 2 3221192704 3221225472 63 0 0] 1052672.

Lemma mm_three_ok : mm_ok mm_three.
Proof.
  split; [repeat constructor; simpl; lia|]. repeat constructor; unfold before; simpl; lia.
Qed.

(** Its middle page is unmapped. *)
Lemma sys_munmap_correct_witness :
  (exists mm' s', @sys_munmap Z counter_env mm_three 2101248 4096 64 = Ok (0, mm', s') /\ mm_ok mm' /\
     forall a f, cov mm'.(mm_map) a f <->
       cov mm_three.(mm_map) a f /\ ~ (2101248 <= a < 2101248 + page_align 4096)) \/
  (@sys_munmap Z counter_env mm_three 2101248 4096 64 = Ok (- EINVAL, mm_three, 64) /\
   exists v, v ∈ mm_three.(mm_map) /\ has v.(vflags) VM_KEEP = true /\
     2101248 <= v.(vend) /\ v.(vstart) < 2101248 + page_align 4096).
Proof.
  apply (@sys_munmap_correct Z counter_env counter_env_laws mm_three 2101248 4096 64);
    try lia; try reflexivity; [exact mm_three_ok | vm_compute; discriminate].
Defined.

(** ** File mappings

    [struct mmap_private] records which part of which file an area shows.  The
    state keeps these records and the reference counts of open files by
    address. *)
Record mmap_private : Type := MmapPrivate { pfile : Z; poff : Z; plen : Z; pref : Z }.

Record mstate (B : Type) : Type := MState {
  privates : gmap Z mmap_private;
  f_count : gmap Z Z;
  base : B;
}.

Arguments MState {B}.
Arguments privates {B}.
Arguments f_count {B}.
Arguments base {B}.

Definition MAP_SHARED : Z := 1.
Definition MAP_FIXED : Z := 2.
Definition MAP_ANONYMOUS : Z := 4.

(** Addresses of the two operations tables. *)
Definition mmap_vma_ops : Z := 1.
Definition mmap_shared_vma_ops : Z := 2.

(** The slab cache of [mmap_private] records, and what a page fault on a file
    mapping calls: the frame allocator and temporary mappings of
    kernel/paging.c, the read and write operations of the file, [memset]. *)
Class MmapEnv (B : Type) : Type := {
  alloc_private_obj : B -> option (Z * B);
  free_private_obj : Z -> B -> B;
  kalloc_frame : Z -> mstate B -> option Z * mstate B;
  kfree_frame : Z -> mstate B -> mstate B;
  kmap_tmp_page : Z -> mstate B -> Z * mstate B;
  kunmap_tmp_page : Z -> mstate B -> mstate B;
  map_frame : Z -> Z -> Z -> mstate B -> Z * mstate B;
  memset : Z -> Z -> Z -> mstate B -> mstate B;
  file_read : Z -> Z -> Z -> Z -> mstate B -> Z * mstate B;
  file_write : Z -> Z -> Z -> Z -> mstate B -> Z * mstate B;
}.

Section FileMap.
Context {B : Type} `{V : VmaEnv B} `{M : MmapEnv B}.

Abbreviation st := (mstate B).

Definition get_private (p : Z) (s : st) : mmap_private :=
  default (MmapPrivate 0 0 0 0) (s.(privates) !! p).

Definition put_private (p : Z) (m : mmap_private) (s : st) : st :=
  MState (<[p := m]> s.(privates)) s.(f_count) s.(base).

Definition file_ref (file : Z) (s : st) : st :=
  MState s.(privates) (<[file := u16 (default 0 (s.(f_count) !! file) + 1)]> s.(f_count)) s.(base).

(** [file_unref] of fs/inode.c: a file whose count reaches zero is freed. *)
Definition file_unref (file : Z) (s : st) : st :=
  let c := u16 (default 0 (s.(f_count) !! file) - 1) in
  MState s.(privates)
    (if 0 <? c then <[file := c]> s.(f_count) else delete file s.(f_count)) s.(base).

Definition alloc_private (file off len : Z) (s : st) : option Z * st :=
  match alloc_private_obj s.(base) with
  | None => (None, s)
  | Some (p, b) =>
      let s := put_private p (MmapPrivate file off len 1) (MState s.(privates) s.(f_count) b) in
      (Some p, file_ref file s)
  end.

Definition private_unref (p : Z) (s : st) : st :=
  let m := get_private p s in
  let s := file_unref m.(pfile) s in
  let r := m.(pref) -% 1 in
  if r =? 0
  then MState (delete p s.(privates)) s.(f_count) (free_private_obj p s.(base))
  else put_private p (MmapPrivate m.(pfile) m.(poff) m.(plen) r) s.

Definition private_ref (p : Z) (s : st) : st :=
  let m := get_private p s in
  put_private p (MmapPrivate m.(pfile) m.(poff) m.(plen) (m.(pref) +% 1)) (file_ref m.(pfile) s).

(** The file position a page fault at [addr] reads from. *)
Definition mmap_map_pos (v : vma) (m : mmap_private) (addr : Z) : Z :=
  m.(poff) +% (page_base addr -% v.(vstart)).

Definition mmap_map (v : vma) (addr : Z) (s : st) : Z * st :=
  let m := get_private v.(vprivate) s in
  let pos := mmap_map_pos v m addr in
  match kalloc_frame v.(vflags) s with
  | (None, s) => (- ENOMEM, s)
  | (Some frame, s) =>
      let '(vaddr, s) := kmap_tmp_page frame s in
      let '(bytes, s) := file_read m.(pfile) vaddr FRAME_SIZE pos s in
      if bytes <? 0 then (bytes, kfree_frame frame (kunmap_tmp_page vaddr s))
      else
        let s := if bytes <? FRAME_SIZE
                 then memset (vaddr +% bytes) 0 (FRAME_SIZE - bytes) s else s in
        let '(error, s) := map_frame frame addr v.(vflags) s in
        if negb (error =? 0) then (error, kfree_frame frame (kunmap_tmp_page vaddr s))
        else (0, kunmap_tmp_page vaddr s)
  end.

(** The file position and the length a write-back of [addr] uses. *)
Definition mmap_writeback_pos (v : vma) (m : mmap_private) (addr : Z) : Z :=
  m.(poff) +% (v.(vstart) -% page_base addr).

Definition mmap_writeback_len (v : vma) (m : mmap_private) (addr len : Z) : Z :=
  Z.min len (v.(vstart) +% m.(plen) -% page_base addr).

Definition mmap_writeback (v : vma) (addr len : Z) (s : st) : Z * st :=
  let m := get_private v.(vprivate) s in
  let '(bytes, s) :=
    file_write m.(pfile) addr (mmap_writeback_len v m addr len) (mmap_writeback_pos v m addr) s in
  if bytes <? 0 then (bytes, s) else (0, s).

Definition mmap_unmap (v : vma) (s : st) : Z * st := (0, private_unref v.(vprivate) s).

Definition mmap_clone (dst src : vma) (s : st) : Z * vma * st :=
  (0, Vma dst.(vid) dst.(vstart) dst.(vend) dst.(vflags) src.(vprivate) dst.(vop),
   private_ref src.(vprivate) s).

Definition mmap_split (new old : vma) (s : st) : Z * vma * st :=
  let m := get_private old.(vprivate) s in
  match alloc_private m.(pfile) m.(poff) m.(plen) s with
  | (None, s) => (- ENOMEM, new, s)
  | (Some p, s) =>
      let n := get_private p s in
      let n := MmapPrivate n.(pfile) (n.(poff) +% (new.(vstart) -% old.(vstart)))
                 (n.(plen) -% (old.(vend) -% old.(vstart))) n.(pref) in
      let s := put_private p n s in
      let o := get_private old.(vprivate) s in
      let s := put_private old.(vprivate)
                 (MmapPrivate o.(pfile) o.(poff) (o.(plen) -% n.(plen)) o.(pref)) s in
      (0, Vma new.(vid) new.(vstart) new.(vend) new.(vflags) p new.(vop), s)
  end.

(** Operations on the base state, lifted. *)
Definition lift {A : Type} (f : B -> A * B) (s : st) : A * st :=
  let '(a, b) := f s.(base) in (a, MState s.(privates) s.(f_count) b).

#[export] Instance mmap_env : VmaEnv st := {|
  alloc_vma s := match alloc_vma s.(base) with
                 | Some (p, b) => Some (p, MState s.(privates) s.(f_count) b)
                 | None => None
                 end;
  free_vma p s := MState s.(privates) s.(f_count) (free_vma p s.(base));
  map_page a f := lift (map_page a f);
  copy_page a f := lift (copy_page a f);
  pm_unmap v := lift (pm_unmap v);
  pm_disable_write v := lift (pm_disable_write v);
  new_pgdir := lift new_pgdir;
  clone_pgdir := lift clone_pgdir;
  free_pgdir p s := MState s.(privates) s.(f_count) (free_pgdir p s.(base));
  vma_ops op :=
    if op =? mmap_vma_ops then
      Some (VmaOperations (Some mmap_map) None None None (Some mmap_unmap)
              (Some mmap_clone) (Some mmap_split))
    else if op =? mmap_shared_vma_ops then
      Some (VmaOperations (Some mmap_map) (Some mmap_writeback) None None (Some mmap_unmap)
              (Some mmap_clone) (Some mmap_split))
    else None;
|}.

Definition mmap_create_vma (mm : mm_struct) (addr len prot flags : Z) (s : st)
  : option vma * mm_struct * st :=
  if has flags MAP_FIXED then vma_create_fixed mm addr len prot s
  else vma_create_high mm user_base kernel_base len prot s.

(** Fields of an area of the list, written through its pointer. *)
Definition set_area (p : Z) (f : vma -> vma) (l : list vma) : list vma :=
  List.map (fun v => if v.(vid) =? p then f v else v) l.

(** Returns the error, the address stored through [addr], and the new state. *)
Definition do_mmap (mm : mm_struct) (file addr len prot flags off : Z) (s : st)
  : Z * Z * mm_struct * st :=
  match alloc_private file off len s with
  | (None, s) => (- ENOMEM, addr, mm, s)
  | (Some p, s) =>
      match mmap_create_vma mm addr len prot flags s with
      | (None, mm, s) =>
          (- ENOMEM, addr, mm,
           MState (delete p s.(privates)) s.(f_count) (free_private_obj p s.(base)))
      | (Some v, mm, s) =>
          let op := if has flags MAP_SHARED then mmap_shared_vma_ops else mmap_vma_ops in
          (0, v.(vstart),
           set_map mm (set_area v.(vid)
             (fun v => Vma v.(vid) v.(vstart) v.(vend) v.(vflags) p op) mm.(mm_map)), s)
      end
  end.

Definition do_mmap_anon (mm : mm_struct) (addr len prot flags : Z) (s : st)
  : Z * Z * mm_struct * st :=
  match mmap_create_vma mm addr len (Z.lor prot VM_ZERO) flags s with
  | (None, mm, s) => (- ENOMEM, addr, mm, s)
  | (Some v, mm, s) => (0, v.(vstart), mm, s)
  end.

(** [struct __mmap_args], at address [aptr] of user memory; [file] is
    [fd_file(current, args->fd)], 0 for [NULL]. *)
Record mmap_args : Type := MmapArgs {
  arg_addr : Z; arg_len : Z; arg_prot : Z; arg_flags : Z; arg_file : Z; arg_off : Z;
}.

Definition sizeof_mmap_args : Z := 24.

Definition sys_mmap (mm : mm_struct) (aptr : Z) (a : mmap_args) (s : st)
  : Z * Z * mm_struct * st :=
  if negb (vm_verify mm aptr sizeof_mmap_args (Z.lor VM_READ VM_WRITE) =? 0)
  then (- EFAULT, a.(arg_addr), mm, s)
  else if has a.(arg_flags) MAP_FIXED && negb (page_aligned a.(arg_addr))
  then (- EINVAL, a.(arg_addr), mm, s)
  else if has a.(arg_flags) MAP_ANONYMOUS
  then do_mmap_anon mm a.(arg_addr) a.(arg_len) (Z.land a.(arg_prot) 7) a.(arg_flags) s
  else if a.(arg_file) =? 0 then (- EBADF, a.(arg_addr), mm, s)
  else do_mmap mm a.(arg_file) a.(arg_addr) a.(arg_len) (Z.land a.(arg_prot) 7)
         a.(arg_flags) a.(arg_off) s.
End FileMap.

(** ** Splitting a file mapping *)

Section SplitProofs.
Context {B : Type} `{V : VmaEnv B} `{M : MmapEnv B}.

(** The area is a file mapping with record [m]. *)
Definition maps_file (s : mstate B) (v : vma) (m : mmap_private) : Prop :=
  (v.(vop) = mmap_vma_ops \/ v.(vop) = mmap_shared_vma_ops) /\
  s.(privates) !! v.(vprivate) = Some m.

Lemma vop_split_mmap (v : vma) :
  v.(vop) = mmap_vma_ops \/ v.(vop) = mmap_shared_vma_ops ->
  vop_of (S := mstate B) op_split v = Some mmap_split.
Proof. unfold vop_of. intros [-> | ->]; reflexivity. Qed.

(** C10: splitting a file mapping.  Bisecting an area that maps [m.(plen)] bytes
    of a file from offset [m.(poff)], at a page boundary inside the mapped
    bytes, succeeds when a descriptor and a fresh record can be allocated: the
    two halves are adjacent, every address of either half still reads the same
    file position as before, the mapped lengths add up, the new record has one
    reference and the file gains one. *)
Theorem mmap_bisect_positions (v : vma) (m : mmap_private) (split p q : Z)
    (b b1 b2 : B) (s : mstate B) :
  maps_file s v m -> s.(base) = b -> alloc_vma b = Some (p, b1) ->
  alloc_private_obj b1 = Some (q, b2) -> q <> v.(vprivate) ->
  area_ok v -> v.(vstart) < split < v.(vend) -> split mod 4096 = 0 ->
  split - v.(vstart) <= m.(plen) < 2 ^ 32 -> 0 <= m.(poff) < 2 ^ 32 ->
  exists l r s' ml mr,
    vma_bisect v split v.(vflags) v.(vflags) s = (0, l, Some r, s') /\
    maps_file s' l ml /\ maps_file s' r mr /\
    l.(vstart) = v.(vstart) /\ l.(vend) = split /\ r.(vstart) = split /\ r.(vend) = v.(vend) /\
    (forall a, v.(vstart) <= a < split -> mmap_map_pos l ml a = mmap_map_pos v m a) /\
    (forall a, split <= a < v.(vend) -> mmap_map_pos r mr a = mmap_map_pos v m a) /\
    ml.(plen) + mr.(plen) = m.(plen) /\ mr.(pref) = 1 /\ mr.(pfile) = m.(pfile) /\
    s'.(f_count) !! m.(pfile) = Some (u16 (default 0 (s.(f_count) !! m.(pfile)) + 1)).
Proof.
  intros [Hop Hm] Hb Hp Hq Hne (Hv0 & Hv1 & Hv2 & Hva & Hve) Hsp Hsa Hpl Hpo.
  unfold vma_bisect, alloc_vma at 1. simpl. rewrite Hb, Hp.
  unfold vm_split. rewrite (vop_split_mmap (set_range v _ _ _)) by exact Hop.
  unfold mmap_split, alloc_private, get_private. simpl. rewrite Hm, Hq. simpl.
  rewrite lookup_insert_eq. simpl. rewrite lookup_insert_ne by exact Hne.
  rewrite lookup_insert_ne by exact Hne. rewrite Hm. simpl.
  eexists _, _, _, _, _. split; [reflexivity|].
  split; [split; [exact Hop | apply lookup_insert_eq]|].
  split; [split; [exact Hop|]; simpl; rewrite lookup_insert_ne by congruence; apply lookup_insert_eq|].
  simpl. split_and!; auto.
  - intros a Ha. unfold mmap_map_pos. simpl. rewrite page_base_eq by word_lia. word_lia.
  - word_lia.
  - apply lookup_insert_eq.
Qed.
End SplitProofs.

(** Base state of the examples: two address counters. *)
Definition pair_env : VmaEnv (Z * Z) := {|
  alloc_vma s := Some (fst s, (fst s + 32, snd s));
  free_vma _ s := s;
  map_page _ _ s := (0, s);
  copy_page _ _ s := (0, s);
  pm_unmap _ s := (0, s);
  pm_disable_write _ s := (0, s);
  new_pgdir s := (4096, s);
  clone_pgdir s := (4096, s);
  free_pgdir _ s := s;
  vma_ops _ := None;
|}.

Definition pair_mmap_env : MmapEnv (Z * Z) := {|
  alloc_private_obj s := Some (snd s, (fst s, snd s + 16));
  free_private_obj _ s := s;
  kalloc_frame _ s := (Some 0, s);
  kfree_frame _ s := s;
  kmap_tmp_page f s := (f, s);
  kunmap_tmp_page _ s := s;
  map_frame _ _ _ s := (0, s);
  memset _ _ _ s := s;
  file_read _ _ _ _ s := (0, s);
  file_write _ _ _ _ s := (0, s);
|}.

(** Two pages and a half of file 500, mapped at 2 MB. *)
Definition file_vma : vma := Vma 1 2097152 2109440 6 900 1.

Definition file_state : mstate (Z * Z) :=
  MState {[900 := MmapPrivate 500 8192 10240 1]} {[500 := 2]} (64, 1000).

Lemma mmap_bisect_positions_witness :
  exists l r s' ml mr,
    @vma_bisect _ (@mmap_env _ pair_env pair_mmap_env) file_vma 2101248 6 6 file_state
      = (0, l, Some r, s') /\
    maps_file s' l ml /\ maps_file s' r mr /\
    l.(vstart) = 2097152 /\ l.(vend) = 2101248 /\ r.(vstart) = 2101248 /\ r.(vend) = 2109440 /\
    (forall a, 2097152 <= a < 2101248 -> mmap_map_pos l ml a =
       mmap_map_pos file_vma (MmapPrivate 500 8192 10240 1) a) /\
    (forall a, 2101248 <= a < 2109440 -> mmap_map_pos r mr a =
       mmap_map_pos file_vma (MmapPrivate 500 8192 10240 1) a) /\
    ml.(plen) + mr.(plen) = 10240 /\ mr.(pref) = 1 /\ mr.(pfile) = 500 /\
    s'.(f_count) !! 500 = Some (u16 (default 0 (file_state.(f_count) !! 500) + 1)).
Proof.
  apply (@mmap_bisect_positions _ pair_env pair_mmap_env file_vma
    (MmapPrivate 500 8192 10240 1) 2101248 64 1000 (64, 1000) (96, 1000) (96, 1016) file_state);
    try reflexivity; simpl; try lia; [split; [left; reflexivity | reflexivity] |].
  repeat split; simpl; lia.
Defined.

(** ** Growing the heap *)

Lemma areas_ok_app (l1 l2 : list vma) :
  areas_ok (l1 ++ l2) <->
  areas_ok l1 /\ areas_ok l2 /\ forall v w, v ∈ l1 -> w ∈ l2 -> before v w.
Proof.
  unfold areas_ok. rewrite Forall_app, StronglySorted_app. tauto.
Qed.

(** Extending area [i] by whole pages up to the next area. *)
Lemma grow_ok (l : list vma) (i : nat) (v : vma) (amount : Z) :
  areas_ok l -> l !! i = Some v ->
  (forall w, l !! (i + 1)%nat = Some w -> v.(vend) + amount <= w.(vstart)) ->
  0 < amount -> v.(vend) + amount + 4095 < 2 ^ 32 ->
  areas_ok (<[i := set_range v v.(vstart) (v.(vend) +% page_align amount) v.(vflags)]> l) /\
  v.(vend) +% page_align amount = v.(vend) + page_align amount /\
  amount <= page_align amount <= amount + 4095.
Proof.
  intros Hok Hi Hnext Ham Hw. apply list_elem_of_split_length in Hi as (l1 & l2 & -> & ->).
  apply areas_ok_app in Hok as (H1 & H2 & Hb).
  apply areas_ok_cons in H2 as ((Hv0 & Hv1 & Hv2 & Hva & Hve) & Hbv & H2).
  destruct (page_align_add 0 amount ltac:(lia) eq_refl Ham ltac:(lia)) as (_ & Hpa & Hpm).
  rewrite (uN_id 32 (vend v + page_align amount)) by lia. split; [|auto].
  rewrite insert_app_r_alt, Nat.sub_diag by lia. simpl. apply areas_ok_app.
  split; [exact H1|]. split.
  - apply areas_ok_cons. split; [repeat split; simpl; lia|]. split; [|exact H2].
    destruct l2 as [| w l2]; [constructor|]. apply areas_ok_cons in H2 as ((_ & ? & _ & Hwa & _) & Hbw & _).
    specialize (Hnext w). rewrite lookup_app_r in Hnext by lia.
    replace (length l1 + 1 - length l1)%nat with 1%nat in Hnext by lia.
    specialize (Hnext eq_refl).
    assert (vend v + page_align amount <= vstart w) as Hle.
    { rewrite page_align_eq in * by (unfold in_u32; lia). rewrite uN_id in * by lia. lia. }
    constructor; [exact Hle|]. eapply Forall_impl; [exact Hbw|].
    unfold before. simpl. intros u. lia.
  - intros x y Hx Hy. apply elem_of_cons in Hy as [-> | Hy]; [|apply Hb; set_solver].
    unfold before. simpl. apply (Hb x v); set_solver.
Qed.

Lemma index_of_lookup (l : list vma) (v : vma) :
  NoDup (List.map vid l) -> v ∈ l -> l !! index_of v.(vid) l = Some v.
Proof.
  induction l as [| w l IH]; [set_solver|]. simpl. intros Hnd Hv.
  apply NoDup_cons in Hnd as [Hn Hnd]. apply elem_of_cons in Hv as [-> | Hv].
  - rewrite Z.eqb_refl. reflexivity.
  - destruct (Z.eqb_spec (vid w) (vid v)) as [E | _]; [|simpl; auto].
    destruct Hn. rewrite E. apply list_elem_of_In, in_map, list_elem_of_In, Hv.
Qed.

Lemma vma_grow_up_spec {S : Type} `{E : VmaEnv S} (mm : mm_struct) (i : nat) (v : vma)
    (amount : Z) (s : S) :
  mm_ok mm -> mm.(mm_map) !! i = Some v -> 0 < amount -> v.(vend) + amount + 4095 < 2 ^ 32 ->
  (exists h, vma_grow_up mm i amount v.(vflags) s = Ok (0, set_map mm (<[i := h]> mm.(mm_map)), s) /\
     areas_ok (<[i := h]> mm.(mm_map)) /\ h.(vstart) = v.(vstart) /\
     v.(vend) + amount <= h.(vend) /\ h.(vflags) = v.(vflags)) \/
  (vma_grow_up mm i amount v.(vflags) s = Ok (- ENOMEM, mm, s) /\
   exists w, w ∈ mm.(mm_map) /\ v.(vend) <= w.(vstart) < v.(vend) + amount).
Proof.
  intros Hok Hi Ham Hw. unfold vma_grow_up. rewrite Hi, Z.eqb_refl. simpl negb. cbv iota.
  pose proof Hok as [Hall Hs]. rewrite Forall_forall in Hall.
  destruct (Hall v) as (H0 & H1 & _); [eapply list_elem_of_lookup_2; eauto|].
  rewrite (uN_id 32 (vend v + amount)) by lia.
  destruct (mm_map mm !! (i + 1)%nat) as [w|] eqn:Hnx;
    [destruct (Z.ltb_spec (vstart w) (vend v + amount))|].
  1: { right. split; [reflexivity|]. exists w. split; [eapply list_elem_of_lookup_2; eauto|].
       split; [|assumption]. apply list_elem_of_split_length in Hi as (l1 & l2 & El & ->).
       rewrite El in Hs, Hnx. apply StronglySorted_app in Hs as (_ & _ & Hs).
       inversion Hs as [| ? ? _ Hb]; subst. rewrite Forall_forall in Hb. apply Hb.
       rewrite lookup_app_r in Hnx by lia.
       replace (length l1 + 1 - length l1)%nat with 1%nat in Hnx by lia.
       eapply list_elem_of_lookup_2. exact Hnx. }
  all: left; eexists; split; [reflexivity|];
    destruct (grow_ok (mm_map mm) i v amount Hok Hi) as (Hg & Hv & Hpa); auto; rewrite ?Hv in *;
    [intros w' Hw'; congruence || (rewrite Hnx in Hw'; simplify_eq; lia)|];
    split; [exact Hg | simpl; auto with lia].
Qed.

(** Growing the break.  In a well-formed address space with distinct
    descriptors whose heap area contains the byte below the break, a call
    [sys_sbrk(inc)] with a positive increment that does not wrap around, and a
    valid result pointer, either moves the break up by [inc] and leaves every
    address between the old and the new break mapped in the heap area, with all
    areas sorted and disjoint and all other areas unchanged; or fails with
    ENOMEM, because the area behind the heap starts too low, and changes
    nothing.  The old break is stored in both cases. *)
Theorem sys_sbrk_grows {S : Type} `{E : VmaEnv S}
    (mm : mm_struct) (heap : vma) (inc ptr : Z) (s : S) :
  mm_ok mm -> NoDup (List.map vid mm.(mm_map)) -> heap ∈ mm.(mm_map) ->
  vma_contains heap (mm.(brk) - 1) = true -> 0 < inc ->
  heap.(vend) + inc + 4095 < 2 ^ 32 -> vm_verify mm ptr 4 VM_WRITE = 0 ->
  (exists l, sys_sbrk mm inc ptr s =
     Ok (0, Some mm.(brk), MM mm.(pgdir) l (mm.(brk) + inc), s) /\ areas_ok l /\
     (exists h, h ∈ l /\ h.(vstart) = heap.(vstart) /\ h.(vflags) = heap.(vflags) /\
        forall a, mm.(brk) - 1 <= a < mm.(brk) + inc -> vma_contains h a = true) /\
     (forall v, v ∈ mm.(mm_map) -> v <> heap -> v ∈ l)) \/
  (sys_sbrk mm inc ptr s = Ok (- ENOMEM, Some mm.(brk), mm, s) /\
   exists v, v ∈ mm.(mm_map) /\ heap.(vend) <= v.(vstart) < heap.(vend) + inc).
Proof.
  intros Hok Hnd Hh Hc Hinc Hw Hv. pose proof Hok as [Hall _]. rewrite Forall_forall in Hall.
  pose proof (Hall heap Hh) as (H0 & H1 & H2 & Ha & He). pose proof Hc as Hc'.
  apply vma_contains_iff in Hc'. unfold sys_sbrk. rewrite Hv. simpl negb. cbv iota.
  unfold get_heap. rewrite (uN_id 32 (brk mm - 1)) by lia.
  rewrite (proj2 (vma_get_spec mm (brk mm - 1) heap Hok)) by auto.
  rewrite (uN_id 32 (brk mm + inc)) by lia.
  destruct (Z.ltb_spec (brk mm + inc) (vstart heap)); [lia|].
  destruct (Z.leb_spec inc 0); [lia|]. simpl orb.
  destruct (Z.ltb_spec (brk mm + inc) (vend heap)).
  - left. exists (mm_map mm). split; [reflexivity|]. split; [exact Hok|]. split; [|auto].
    exists heap. split_and!; auto. intros a Haa. apply vma_contains_iff. lia.
  - rewrite (uN_id 32 inc) by lia. pose proof (index_of_lookup _ _ Hnd Hh) as Hi.
    destruct (vma_grow_up_spec mm _ heap inc s Hok Hi Hinc Hw)
      as [(h & -> & Hok' & Hs & Hle & Hf) | (-> & Hblk)]; simpl; [left | right; auto].
    eexists. split; [reflexivity|]. split; [exact Hok'|]. split.
    + exists h. split; [eapply list_elem_of_lookup_2, list_lookup_insert_eq, lookup_lt_Some; eauto|].
      split_and!; auto. intros a Haa. apply vma_contains_iff. lia.
    + intros v Hin Hne. apply list_elem_of_lookup in Hin as [j Hj].
      eapply (list_elem_of_lookup_2 _ j). cbn. rewrite list_lookup_insert_ne; [exact Hj|]. congruence.
Qed.

Lemma sys_sbrk_grows_witness :
  (exists l, @sys_sbrk Z counter_env mm_example 10000 3221200000 64 =
     Ok (0, Some 1052672, MM 4096 l (1052672 + 10000), 64) /\ areas_ok l /\
     (exists h, h ∈ l /\ h.(vstart) = 1048576 /\ h.(vflags) = 14 /\
        forall a, 1052672 - 1 <= a < 1052672 + 10000 -> vma_contains h a = true) /\
     (forall v, v ∈ mm_example.(mm_map) -> v <> Vma 1 1048576 1052672 14 0 0 -> v ∈ l)) \/
  (@sys_sbrk Z counter_env mm_example 10000 3221200000 64 =
     Ok (- ENOMEM, Some 1052672, mm_example, 64) /\
   exists v, v ∈ mm_example.(mm_map) /\ 1052672 <= v.(vstart) < 1052672 + 10000).
Proof.
  apply (@sys_sbrk_grows Z counter_env mm_example (Vma 1 1048576 1052672 14 0 0) 10000 3221200000 64);
    first [exact mm_example_ok | reflexivity | lia | idtac].
  - repeat constructor; set_solver.
  - set_solver.
Defined.

(** ** Where the code departs from its intent *)

(** [vm_verify] measures the length from the wrong end of the area.  For
    any area of a well-formed address space whose flags include those asked
    for, a one-byte access at its first address is refused, while a range that
    starts at its last byte and runs past its end is accepted. *)
Theorem vm_verify_wrong_bound (mm : mm_struct) (v : vma) (flags : Z) :
  mm_ok mm -> v ∈ mm.(mm_map) -> Z.land v.(vflags) flags = flags ->
  vm_verify mm v.(vstart) 1 flags = -1 /\
  exists start len, v.(vstart) <= start < v.(vend) /\ v.(vend) < start + len /\
    vm_verify mm start len flags = 0.
Proof.
  intros Hok Hv Hf. pose proof Hok as [Hall _]. rewrite Forall_forall in Hall.
  destruct (Hall v Hv) as (H0 & H1 & H2 & Ha & He).
  assert (forall a, vstart v <= a < vend v -> vma_get mm a = Some v) as Hg.
  { intros a Ha'. apply vma_get_spec; [exact Hok|]. split; [exact Hv|].
    apply vma_contains_iff. exact Ha'. }
  unfold vm_verify. split.
  - rewrite Hg by lia. rewrite Hf, Z.eqb_refl, Z.sub_diag. reflexivity.
  - exists (vend v - 1), (vend v - 1 - vstart v). split; [lia|]. split; [lia|].
    rewrite Hg by lia. rewrite Hf, Z.eqb_refl. simpl.
    rewrite uN_id by lia. rewrite Z.ltb_irrefl. reflexivity.
Qed.

Lemma vm_verify_wrong_bound_witness :
  vm_verify mm_example 1048576 1 VM_READ = -1 /\
  exists start len, 1048576 <= start < 1052672 /\ 1052672 < start + len /\
    vm_verify mm_example start len VM_READ = 0.
Proof.
  apply (vm_verify_wrong_bound mm_example (Vma 1 1048576 1052672 14 0 0) VM_READ);
    [exact mm_example_ok | set_solver | reflexivity].
Defined.

(** The base state of a process with one gigabyte requests ahead of it. *)
Definition anon_args (len : Z) : mmap_args := MmapArgs 0 len 6 MAP_ANONYMOUS 0 0.

(** Two areas of the list share an address. *)
Definition overlapping (l : list vma) : Prop :=
  exists v w a, v ∈ l /\ w ∈ l /\ v <> w /\
    vma_contains v a = true /\ vma_contains w a = true.

(** The placement test [vma->end + len <= end] wraps around for large
    requests.  In the address space of a new process, an anonymous mapping of
    0x50000000 bytes succeeds and is placed over the stack. *)
Theorem sys_mmap_overlaps :
  exists addr mm' s',
    @sys_mmap _ pair_env pair_mmap_env mm_example 3221200000 (anon_args 1342177280) file_state
      = (0, addr, mm', s') /\ mm_ok mm_example /\ overlapping mm'.(mm_map).
Proof.
  eexists _, _, _. split; [vm_compute; reflexivity|]. split; [exact mm_example_ok|].
  exists (Vma 64 1879048192 3221225472 14 0 0), (Vma 2 3221192704 3221225472 63 0 0), 3221200000.
  split_and!; [set_solver | set_solver | discriminate | reflexivity | reflexivity].
Qed.

(** An area that must be kept and ends where the range starts blocks the call. *)
Lemma sys_munmap_adjacent_keep :
  exists mm, mm_ok mm /\
    (forall v, v ∈ mm.(mm_map) -> has v.(vflags) VM_KEEP = true -> v.(vend) <= 2097152) /\
    @sys_munmap Z counter_env mm 2097152 4096 64 = Ok (- EINVAL, mm, 64).
Proof.
  exists (MM 4096 [Vma 1 2093056 2097152 20 0 0; Vma 2 2097152 2101248 6 0 0] 0).
  split_and!; [| | reflexivity].
  - split; [repeat constructor; simpl; lia|]. repeat constructor; unfold before; simpl; lia.
  - intros v Hv Hk. simpl in Hv.
    repeat (apply elem_of_cons in Hv as [-> | Hv]; [try discriminate Hk; simpl; lia|]). set_solver.
Qed.

(** When no area can be made, [do_mmap] frees its record but keeps the
    reference it took on the file. *)
Lemma do_mmap_leaks_file {B : Type} `{V : VmaEnv B} `{M : MmapEnv B}
    (mm mm' : mm_struct) (file addr len prot flags off p : Z) (b' : B) (s s' : mstate B) :
  alloc_private_obj s.(base) = Some (p, b') ->
  mmap_create_vma mm addr len prot flags (snd (alloc_private file off len s)) = (None, mm', s') ->
  s'.(f_count) = (snd (alloc_private file off len s)).(f_count) ->
  exists s2, do_mmap mm file addr len prot flags off s = (- ENOMEM, addr, mm', s2) /\
    s2.(f_count) !! file = Some (u16 (default 0 (s.(f_count) !! file) + 1)).
Proof.
  intros Hp Hc Hf. unfold do_mmap, alloc_private in *. rewrite Hp in *. simpl in *. rewrite Hc.
  eexists. split; [reflexivity|]. simpl. rewrite Hf. apply lookup_insert_eq.
Qed.

(** Write-back of a page goes to another file position than the one it was read
    from, except for the first page. *)
Lemma mmap_writeback_misplaced (v : vma) (m : mmap_private) (addr : Z) :
  area_ok v -> v.(vend) <= kernel_base -> v.(vstart) + 4096 <= addr < v.(vend) ->
  v.(vend) - v.(vstart) <= 2 ^ 31 ->
  mmap_writeback_pos v m addr <> mmap_map_pos v m addr.
Proof.
  intros (H0 & H1 & H2 & Ha & He) Hk Haddr Hsz. unfold mmap_writeback_pos, mmap_map_pos.
  unfold kernel_base in Hk. rewrite page_base_eq by (unfold in_u32; lia). word_lia.
Qed.

(** The new break is not checked for wrap-around: growing it can move it down. *)
Lemma sys_sbrk_wraps :
  exists mm mm', mm_ok mm /\
    @sys_sbrk Z counter_env mm 2147483647 3221200000 64 = Ok (0, Some mm.(brk), mm', 64) /\
    mm'.(brk) < mm.(brk).
Proof.
  exists (MM 4096 [Vma 1 1048576 2149584896 14 0 0; Vma 2 3221192704 3221225472 63 0 0] 2148536319).
  eexists. split; [|split; [vm_compute; reflexivity | simpl; lia]].
  split; [repeat constructor; simpl; lia|]. repeat constructor; unfold before; simpl; lia.
Qed.
