(* ===== verification/Paging.v ===== *)
(** * Page frames, page tables and address spaces (kernel/paging.c)

    Physical memory is a map from frame addresses to their 1024 words.  The
    kernel reaches a frame that holds a page table or user data through the top
    4 MB of the current address space, whose page table is the frame [hightab];
    the pointers [tmp_pgtab] and [current_pgdir] and every pointer returned by
    [kmap_tmp_page] are translated through it, and using one whose entry is not
    present is a [Fault].  The TLB is not modelled, so [flush_page] has no
    counterpart.  A [struct pf_info *] is an index into [frame_table]. *)

From S2P Require Import Prelude Bitops Abi Addr Vma.

(** ** Constants *)

Definition PE_P : Z := 1.
Definition PE_RW : Z := 2.
Definition PE_U : Z := 4.
Definition PE_A : Z := 32.
Definition PE_D : Z := 64.

(** [~0xFFF] on 32 bits. *)
Definition PTE_ADDR : Z := 4294963200.

Definition TMP_PGTAB_BASE : Z := 4290772992.
Definition NR_RESERVED_PAGES : Z := 4.
Definition tmp_pgtab : Z := 4294959104.
Definition current_pgdir : Z := 4294963200.
Definition NR_KSTACK_PAGES : Z := 4.
Definition NR_HIGH_PAGES : Z := NR_KSTACK_PAGES + 2.
Definition KSTACK_START : Z := 4294959104 - NR_KSTACK_PAGES * 4096.
Definition MAX_HUSKS : Z := 16.
Definition NR_FT_PGTABS : Z := 2.
Definition kernel_pdi : Z := addr_to_pdi kernel_base.

Definition kernel_to_phys (addr : Z) : Z := addr -% kernel_base.
Definition phys_to_kernel (addr : Z) : Z := addr +% kernel_base.

(** ** State *)

Record pf_info : Type := PfInfo { faddr : Z; fref : Z }.

(** [pgdirs] lists the page directories of the processes of [proctab] that are
    not [PROC_DEAD], in table order. *)
Record pg : Type := Pg {
  ram : gmap Z (list Z);
  frame_table : list pf_info;
  frame_pool : list Z;
  fp_start : Z;
  first_free : Z;
  hightab : Z;
  kernel_pgdir : list Z;
  husk_list : list Z;
  husks : Z;
  pgdirs : list Z;
}.

Definition set_ram (s : pg) (r : gmap Z (list Z)) : pg :=
  Pg r s.(frame_table) s.(frame_pool) s.(fp_start) s.(first_free) s.(hightab)
     s.(kernel_pgdir) s.(husk_list) s.(husks) s.(pgdirs).

Definition set_frames (s : pg) (t : list pf_info) (pool : list Z) : pg :=
  Pg s.(ram) t pool s.(fp_start) s.(first_free) s.(hightab)
     s.(kernel_pgdir) s.(husk_list) s.(husks) s.(pgdirs).

Definition set_first_free (s : pg) (i : Z) : pg :=
  Pg s.(ram) s.(frame_table) s.(frame_pool) s.(fp_start) i s.(hightab)
     s.(kernel_pgdir) s.(husk_list) s.(husks) s.(pgdirs).

Definition set_kernel_pgdir (s : pg) (d : list Z) : pg :=
  Pg s.(ram) s.(frame_table) s.(frame_pool) s.(fp_start) s.(first_free) s.(hightab)
     d s.(husk_list) s.(husks) s.(pgdirs).

Definition set_husks (s : pg) (l : list Z) (n : Z) : pg :=
  Pg s.(ram) s.(frame_table) s.(frame_pool) s.(fp_start) s.(first_free) s.(hightab)
     s.(kernel_pgdir) l n s.(pgdirs).

Definition set_fp_start (s : pg) (a : Z) : pg :=
  Pg s.(ram) s.(frame_table) s.(frame_pool) a s.(first_free) s.(hightab)
     s.(kernel_pgdir) s.(husk_list) s.(husks) s.(pgdirs).

(** ** Memory accesses *)

(** The words of the frame at a physical address. *)
Definition frame (a : Z) : ST pg (list Z) := fun s =>
  match s.(ram) !! a with
  | Some ws => Ok (ws, s)
  | None => Fault
  end.

Definition put_frame (a : Z) (ws : list Z) : ST pg unit :=
  frame a ;; modify (fun s => set_ram s (<[a := ws]> s.(ram))).

Definition present (pte : Z) : bool := has pte PE_P.

Definition pte_addr (pte : Z) : Z := Z.land pte PTE_ADDR.

(** The frame behind a pointer into the top 4 MB. *)
Definition translate (p : Z) : ST pg Z :=
  tab ← gets hightab;
  ws ← frame tab;
  pte ← st_res (aload ws (addr_to_pti p));
  if present pte then mret (pte_addr pte) else fault.

(** [p[i]] and [p[i] = w] for such a pointer to an array of words. *)
Definition pload (p i : Z) : ST pg Z :=
  a ← translate p;
  ws ← frame a;
  st_res (aload ws i).

Definition pstore (p i w : Z) : ST pg unit :=
  a ← translate p;
  ws ← frame a;
  ws' ← st_res (astore ws i w);
  put_frame a ws'.

(** Whole pages through such a pointer. *)
Definition page_read (p : Z) : ST pg (list Z) := a ← translate p; frame a.

Definition page_write (p : Z) (ws : list Z) : ST pg unit := a ← translate p; put_frame a ws.

Definition zero_page : list Z := replicate 1024 0.

(** The page of the current address space that contains a user address, by the
    processor's walk of the two levels of tables. *)
Definition user_page (addr : Z) : ST pg (list Z) :=
  pde ← pload current_pgdir (addr_to_pdi addr);
  if present pde then
    ws ← frame (pte_addr pde);
    pte ← st_res (aload ws (addr_to_pti addr));
    if present pte then frame (pte_addr pte) else fault
  else fault.

(** ** Temporary mappings *)

Definition vma_to_page_flags (flags : Z) : Z :=
  Z.lor (if has flags VM_READ then PE_U else 0) (if has flags VM_WRITE then PE_RW else 0).

Definition phys_to_info (addr : Z) : ST pg Z :=
  start ← gets fp_start;
  mret ((addr -% start) / FRAME_SIZE).

Definition info (f : Z) : ST pg pf_info :=
  t ← gets frame_table;
  st_res (aload t f).

Definition set_ref (f r : Z) : ST pg unit :=
  t ← gets frame_table;
  i ← st_res (aload t f);
  t' ← st_res (astore t f (PfInfo i.(faddr) r));
  modify (fun s => set_frames s t' s.(frame_pool)).

(** The search loop of [kmap_tmp_page], with as much fuel as it has slots. *)
Fixpoint tmp_search (fuel : nat) (i : Z) : ST pg Z :=
  match fuel with
  | O => mret i
  | S fuel =>
      w ← pload tmp_pgtab i;
      if present w then tmp_search fuel (i + 1) else mret i
  end.

Definition kmap_tmp_page (addr : Z) : ST pg Z :=
  i ← tmp_search (Z.to_nat (1024 - NR_HIGH_PAGES - NR_RESERVED_PAGES)) NR_RESERVED_PAGES;
  if i =? 1024 - NR_HIGH_PAGES then panic
  else
    pstore tmp_pgtab i (Z.lor (Z.lor addr PE_P) PE_RW) ;;
    mret ((TMP_PGTAB_BASE +% i * FRAME_SIZE) +% Z.land addr 4095).

Definition kmap_tmp_page_n (addr n : Z) : ST pg Z :=
  pstore tmp_pgtab n (Z.lor (Z.lor addr PE_P) PE_RW) ;;
  mret (TMP_PGTAB_BASE +% n * FRAME_SIZE).

Definition kunmap_tmp_page (addr : Z) : ST pg unit := pstore tmp_pgtab (addr_to_pti addr) 0.

Definition kpd_load (pdi : Z) : ST pg Z :=
  d ← gets kernel_pgdir;
  st_res (aload d pdi).

Definition kpd_store (pdi w : Z) : ST pg unit :=
  d ← gets kernel_pgdir;
  d' ← st_res (astore d pdi w);
  modify (fun s => set_kernel_pgdir s d').

Definition kunmap_page (addr : Z) : ST pg unit :=
  pde ← kpd_load (addr_to_pdi addr);
  pgtab ← kmap_tmp_page_n (pte_addr pde) 0;
  pstore pgtab (addr_to_pti addr) 0.

(** ** Frames *)

Definition kalloc_frame (flags : Z) : ST pg Z :=
  pool ← gets frame_pool;
  match pool with
  | [] => panic
  | f :: rest =>
      modify (fun s => set_frames s s.(frame_table) rest) ;;
      set_ref f 1 ;;
      (if has flags VM_ZERO then
         i ← info f;
         vaddr ← kmap_tmp_page i.(faddr);
         page_write vaddr zero_page ;;
         kunmap_tmp_page vaddr
       else mret tt) ;;
      mret f
  end.

Definition _kfree_frame (f : Z) : ST pg unit :=
  modify (fun s => set_frames s s.(frame_table) (f :: s.(frame_pool))).

Definition kfree_frame (f : Z) : ST pg unit :=
  i ← info f;
  set_ref f (i.(fref) -% 1) ;;
  if (i.(fref) -% 1) =? 0 then _kfree_frame f else mret tt.

Definition free_pte (pte : Z) : ST pg unit :=
  f ← phys_to_info (pte_addr pte);
  kfree_frame f.

(** The part [copy_page] and [pm_copy_fn] share: a new frame with the contents
    of a page of the current address space.  Returns its address. *)
Definition copy_user_page (flags addr : Z) : ST pg Z :=
  g ← kalloc_frame flags;
  gi ← info g;
  tmp ← kmap_tmp_page gi.(faddr);
  ws ← user_page addr;
  page_write tmp ws ;;
  kunmap_tmp_page tmp ;;
  mret gi.(faddr).

(** ** Mapping ranges of another address space *)

(** The search of [get_tmp_ptes] over the slots up to 1021: index of the first
    entry of the run and its address. *)
Fixpoint get_tmp_ptes_loop (fuel : nat) (i : Z) (first : option Z) (count nr_pages : Z)
    : ST pg (option (Z * Z)) :=
  match fuel with
  | O => mret None
  | S fuel =>
      w ← pload tmp_pgtab i;
      if present w then get_tmp_ptes_loop fuel (i + 1) None 0 nr_pages
      else
        let f := default i first in
        if nr_pages <=? count + 1 then mret (Some (f, TMP_PGTAB_BASE +% f * FRAME_SIZE))
        else get_tmp_ptes_loop fuel (i + 1) (Some f) (count + 1) nr_pages
  end.

Definition get_tmp_ptes (nr_pages : Z) : ST pg (option (Z * Z)) :=
  get_tmp_ptes_loop (Z.to_nat (1022 - NR_RESERVED_PAGES)) NR_RESERVED_PAGES None 0 nr_pages.

(** Word [i] behind a pointer, where [i] may lie in a following page. *)
Definition vload (p i : Z) : ST pg Z := pload (p +% (i / 1024) * FRAME_SIZE) (i mod 1024).

Definition vstore (p i w : Z) : ST pg unit := pstore (p +% (i / 1024) * FRAME_SIZE) (i mod 1024) w.

(** [None] stands for [NULL].  [kalloc_frame] never returns [NULL]. *)
Definition kmap_tmp_range (phys_pgdir addr len flags : Z) : ST pg (option Z) :=
  let attr := vma_to_page_flags flags in
  pgdir ← kmap_tmp_page_n phys_pgdir 0;
  pde ← pload pgdir (addr_to_pdi addr);
  pgtab ← kmap_tmp_page_n (pte_addr pde) 1;
  let nr_pages := pages_in_range addr len in
  r ← get_tmp_ptes nr_pages;
  match r with
  | None => mret None
  | Some (tmp, tmp_addr) =>
      for_each (zseq 0 (Z.to_nat nr_pages)) (fun i =>
        pte ← vload pgtab (addr_to_pti addr + i);
        (if present pte then mret tt
         else
           f ← kalloc_frame flags;
           fi ← info f;
           vstore pgtab (addr_to_pti addr + i) (Z.lor (Z.lor fi.(faddr) attr) PE_P)) ;;
        pte ← vload pgtab (addr_to_pti addr + i);
        pstore tmp_pgtab (tmp + i) (Z.lor pte PE_RW)) ;;
      mret (Some (tmp_addr +% Z.land addr 4095))
  end.

Definition kunmap_tmp_range (addrp len : Z) : ST pg unit :=
  for_each (zseq (addr_to_pti addrp) (Z.to_nat (pages_in_range addrp len)))
    (fun i => pstore tmp_pgtab i 0).

(** One byte of little-endian memory. *)
Definition set_byte (w k b : Z) : Z :=
  Z.lor (Z.land w (~% (Z.shiftl 255 (8 * k)))) (Z.shiftl (Z.land b 255) (8 * k)).

Definition store_byte (va b : Z) : ST pg unit :=
  w ← pload va (Z.land va 4095 / 4);
  pstore va (Z.land va 4095 / 4) (set_byte w (va mod 4) b).

Fixpoint store_bytes (va : Z) (bs : list Z) : ST pg unit :=
  match bs with
  | [] => mret tt
  | b :: bs => store_byte va b ;; store_bytes (va +% 1) bs
  end.

(** [src] are the [len] bytes copied. *)
Definition pm_copy_to (phys_pgdir dst : Z) (src : list Z) : ST pg Z :=
  let len := Z.of_nat (length src) in
  addr ← kmap_tmp_range phys_pgdir dst len VM_WRITE;
  match addr with
  | None => mret (- ENOMEM)
  | Some addr => store_bytes addr src ;; kunmap_tmp_range addr len ;; mret 0
  end.

Definition load_byte (va : Z) : ST pg Z :=
  w ← pload va (Z.land va 4095 / 4);
  mret (Z.land (Z.shiftr w (8 * (va mod 4))) 255).

Fixpoint load_bytes (va : Z) (n : nat) : ST pg (list Z) :=
  match n with
  | O => mret []
  | S n => b ← load_byte va; bs ← load_bytes (va +% 1) n; mret (b :: bs)
  end.

(** The result and the [len] bytes stored at [dst], if any. *)
Definition vm_copy_from (mm : mm_struct) (src len : Z) : ST pg (Z * list Z) :=
  match vma_get mm src with
  | None => mret (- EFAULT, [])
  | Some vma =>
      addr ← kmap_tmp_range mm.(pgdir) src len vma.(vflags);
      match addr with
      | None => mret (- ENOMEM, [])
      | Some addr => bs ← load_bytes addr (Z.to_nat len); kunmap_tmp_range addr len ;; mret (0, bs)
      end
  end.

Definition vm_copy_to (mm : mm_struct) (dst : Z) (src : list Z) : ST pg Z :=
  let len := Z.of_nat (length src) in
  match vma_get mm dst with
  | None => mret (- EFAULT)
  | Some vma =>
      addr ← kmap_tmp_range mm.(pgdir) dst len vma.(vflags);
      match addr with
      | None => mret (- ENOMEM)
      | Some addr => store_bytes addr src ;; kunmap_tmp_range addr len ;; mret 0
      end
  end.

(** ** Page directories *)

Definition pop_husk : ST pg Z :=
  l ← gets husk_list;
  match l with
  | [] => fault
  | f :: rest =>
      modify (fun s => set_husks s rest (s.(husks) -% 1)) ;;
      i ← info f;
      mret i.(faddr)
  end.

Definition push_husk (phys_pgdir : Z) : ST pg unit :=
  f ← phys_to_info phys_pgdir;
  modify (fun s => set_husks s (f :: s.(husk_list)) (s.(husks) +% 1)).

Fixpoint alloc_frames (n : nat) : ST pg (list Z) :=
  match n with
  | O => mret []
  | S n =>
      f ← kalloc_frame VM_ZERO;
      i ← info f;
      l ← alloc_frames n;
      mret (i.(faddr) :: l)
  end.

Definition high_pte (a : Z) : Z := Z.lor (Z.lor a PE_P) PE_RW.

Definition make_new_pgdir : ST pg Z :=
  frames ← alloc_frames (Z.to_nat NR_HIGH_PAGES);
  a_dir ← st_res (aload frames (NR_HIGH_PAGES - 1));
  a_tab ← st_res (aload frames (NR_HIGH_PAGES - 2));
  pgdir ← kmap_tmp_page a_dir;
  pgtab ← kmap_tmp_page a_tab;
  pstore pgdir 1023 (high_pte a_tab) ;;
  for_each (zseq 0 (Z.to_nat NR_HIGH_PAGES)) (fun i =>
    a ← st_res (aload frames i);
    pstore pgtab (1024 - NR_HIGH_PAGES + i) (high_pte a)) ;;
  for_each (zseq kernel_pdi (Z.to_nat (1023 - kernel_pdi))) (fun pdi =>
    w ← kpd_load pdi;
    pstore pgdir pdi w) ;;
  kunmap_tmp_page pgtab ;;
  kunmap_tmp_page pgdir ;;
  mret a_dir.

Definition new_pgdir : ST pg Z :=
  n ← gets husks;
  if 0 <? n then pop_husk else make_new_pgdir.

Definition clone_pgtab (phys_pgtab : Z) : ST pg Z :=
  f ← kalloc_frame VM_ZERO;
  fi ← info f;
  original ← kmap_tmp_page phys_pgtab;
  copy ← kmap_tmp_page fi.(faddr);
  for_each (zseq 0 1024) (fun i =>
    pte ← pload original i;
    if present pte then
      g ← phys_to_info (pte_addr pte);
      gi ← info g;
      set_ref g (gi.(fref) +% 1) ;;
      pstore copy i pte
    else mret tt) ;;
  mret fi.(faddr).

Definition clone_pgdir : ST pg Z :=
  p_pgdir ← new_pgdir;
  if p_pgdir =? 0 then mret 0
  else
    pgdir ← kmap_tmp_page p_pgdir;
    for_each (zseq 0 (Z.to_nat kernel_pdi)) (fun i =>
      pde ← pload current_pgdir i;
      if present pde then
        pgtab ← clone_pgtab (pte_addr pde);
        pde ← pload current_pgdir i;
        pstore pgdir i (Z.lor pgtab (Z.land pde 4095))
      else mret tt) ;;
    w ← pload pgdir 1023;
    pgtab ← kmap_tmp_page (pte_addr w);
    for_each (zseq 0 (Z.to_nat NR_KSTACK_PAGES)) (fun i =>
      pte ← pload pgtab (1024 - NR_HIGH_PAGES + i);
      tmp ← kmap_tmp_page (pte_addr pte);
      ws ← page_read (KSTACK_START +% i * FRAME_SIZE);
      page_write tmp ws ;;
      kunmap_tmp_page tmp) ;;
    kunmap_tmp_page pgdir ;;
    mret p_pgdir.

Definition del_pgtab (phys_pgtab : Z) : ST pg unit :=
  pgtab ← kmap_tmp_page phys_pgtab;
  for_each (zseq 0 1024) (fun i =>
    pte ← pload pgtab i;
    if present pte then free_pte pte else mret tt) ;;
  kunmap_tmp_page pgtab ;;
  f ← phys_to_info phys_pgtab;
  kfree_frame f.

Definition del_pgdir (phys_pgdir : Z) : ST pg unit :=
  pgdir ← kmap_tmp_page phys_pgdir;
  for_each (zseq 0 (Z.to_nat kernel_pdi)) (fun i =>
    pde ← pload pgdir i;
    if present pde then del_pgtab (pte_addr pde) else mret tt) ;;
  w ← pload pgdir 1023;
  free_pte w ;;
  f ← phys_to_info phys_pgdir;
  kfree_frame f ;;
  kunmap_tmp_page pgdir.

Definition free_husk (phys_pgdir : Z) : ST pg unit :=
  pgdir ← kmap_tmp_page phys_pgdir;
  w ← pload pgdir 1023;
  pgtab ← kmap_tmp_page (pte_addr w);
  for_each (zseq 0 (Z.to_nat NR_HIGH_PAGES)) (fun i =>
    pte ← pload pgtab (1024 - NR_HIGH_PAGES + i);
    free_pte pte) ;;
  kunmap_tmp_page pgtab ;;
  kunmap_tmp_page pgdir.

Definition husk_pgdir (phys_pgdir : Z) : ST pg unit :=
  pgdir ← kmap_tmp_page phys_pgdir;
  for_each (zseq 0 (Z.to_nat kernel_pdi)) (fun i =>
    pde ← pload pgdir i;
    if present pde then del_pgtab (pte_addr pde) ;; pstore pgdir i 0 else mret tt) ;;
  kunmap_tmp_page pgdir.

Definition free_pgdir (phys_pgdir : Z) : ST pg unit :=
  n ← gets husks;
  (if MAX_HUSKS <=? n then p ← pop_husk; free_husk p else mret tt) ;;
  husk_pgdir phys_pgdir ;;
  push_husk phys_pgdir.

(** ** Changing the pages of an area *)

Section apply.

(** [vm_writeback] of kernel/vma.c on this state; its result is not used here. *)
Context (vm_writeback : vma -> Z -> Z -> ST pg unit).

Definition apply_fn : Type := vma -> Z -> Z -> ST pg Z.

Definition pm_apply_pgtab (v : vma) (pdi phys_pgtab : Z) (fn : apply_fn) : ST pg unit :=
  let pti := if pdi_to_addr pdi <? v.(vstart) then addr_to_pti v.(vstart) else 0 in
  let last := if v.(vend) <? pdi_to_addr (pdi + 1) then addr_to_pti (v.(vend) -% 1) else 1023 in
  pgtab ← kmap_tmp_page phys_pgtab;
  for_each (zseq pti (Z.to_nat (last + 1 - pti))) (fun pti =>
    pte ← pload pgtab pti;
    if present pte then
      w ← fn v (pti_to_addr pdi pti) pte;
      pstore pgtab pti w
    else mret tt) ;;
  kunmap_tmp_page pgtab.

(** [dir] is [vma->mmap->pgdir]. *)
Definition pm_apply (dir : Z) (v : vma) (fn : apply_fn) : ST pg Z :=
  let first := addr_to_pdi v.(vstart) in
  let last := addr_to_pdi (v.(vend) -% 1) in
  pgdir ← kmap_tmp_page dir;
  for_each (zseq first (Z.to_nat (last + 1 - first))) (fun pdi =>
    pde ← pload pgdir pdi;
    if present pde then pm_apply_pgtab v pdi (pte_addr pde) fn else mret tt) ;;
  kunmap_tmp_page pgdir ;;
  mret 0.

Definition pm_unmap_fn : apply_fn := fun v addr pte =>
  (if has pte PE_D then vm_writeback v addr FRAME_SIZE else mret tt) ;;
  free_pte pte ;;
  mret 0.

Definition pm_unmap (dir : Z) (v : vma) : ST pg Z := pm_apply dir v pm_unmap_fn.

Definition pm_disable_write_fn : apply_fn := fun v addr pte =>
  mret (Z.land pte (~% PE_RW)).

Definition pm_disable_write (dir : Z) (v : vma) : ST pg Z := pm_apply dir v pm_disable_write_fn.

Definition pm_copy_fn : apply_fn := fun v addr pte =>
  a ← copy_user_page v.(vflags) addr;
  free_pte pte ;;
  mret (Z.lor a (Z.land pte 4095)).

Definition pm_copy (dir : Z) (v : vma) : ST pg Z := pm_apply dir v pm_copy_fn.

End apply.

(** ** Mapping pages *)

Definition umap_page_table (pgdir addr : Z) : ST pg Z :=
  let i := addr_to_pdi addr in
  pde ← pload pgdir i;
  (if present pde then mret tt
   else
     f ← kalloc_frame VM_ZERO;
     fi ← info f;
     pstore pgdir i (Z.lor (Z.lor (Z.lor fi.(faddr) PE_P) PE_RW) PE_U)) ;;
  pde ← pload pgdir i;
  kmap_tmp_page (pte_addr pde).

Definition do_map_pgtab (phys_pgdir phys_pgtab addr : Z) : ST pg unit :=
  pgdir ← kmap_tmp_page phys_pgdir;
  pstore pgdir (addr_to_pdi addr) (Z.lor (Z.lor phys_pgtab PE_P) PE_RW) ;;
  kunmap_tmp_page pgdir.

Definition kmap_page_table (addr : Z) : ST pg Z :=
  let i := addr_to_pdi addr in
  pde ← kpd_load i;
  (if present pde then mret tt
   else
     f ← kalloc_frame VM_ZERO;
     fi ← info f;
     kpd_store i (Z.lor (Z.lor fi.(faddr) PE_P) PE_RW) ;;
     dirs ← gets pgdirs;
     for_each dirs (fun d => do_map_pgtab d fi.(faddr) addr) ;;
     hs ← gets husk_list;
     for_each hs (fun h =>
       hi ← info h;
       do_map_pgtab hi.(faddr) fi.(faddr) addr)) ;;
  pde ← kpd_load i;
  kmap_tmp_page (pte_addr pde).

Definition knext_page_table (i pgtab : Z) : ST pg Z :=
  if i mod 1024 =? 0 then
    kunmap_tmp_page pgtab ;;
    kmap_page_table (i *% FRAME_SIZE)
  else mret pgtab.

Definition unext_page_table (i pgdir pgtab : Z) : ST pg Z :=
  if i mod 1024 =? 0 then
    kunmap_tmp_page pgtab ;;
    umap_page_table pgdir (i *% FRAME_SIZE)
  else mret pgtab.

(** The body of [map_pages]' loop for [n] pages from page [i]; the step of the
    loop also runs after the last page. *)
Fixpoint map_pages_loop (n : nat) (i pgdir pgtab flags : Z) : ST pg Z :=
  match n with
  | O => mret pgtab
  | S n =>
      f ← kalloc_frame flags;
      fi ← info f;
      pstore pgtab (i mod 1024) (Z.lor (Z.lor fi.(faddr) PE_P) (vma_to_page_flags flags)) ;;
      pgtab ← unext_page_table (i +% 1) pgdir pgtab;
      map_pages_loop n (i +% 1) pgdir pgtab flags
  end.

Definition map_pages (phys_pgdir dst pages flags : Z) : ST pg Z :=
  pgdir ← kmap_tmp_page phys_pgdir;
  pgtab ← umap_page_table pgdir dst;
  pgtab ← map_pages_loop (Z.to_nat pages) (dst / FRAME_SIZE) pgdir pgtab flags;
  kunmap_tmp_page pgtab ;;
  kunmap_tmp_page pgdir ;;
  mret 0.

Definition map_frame (f addr flags : Z) : ST pg Z :=
  pgtab ← umap_page_table current_pgdir addr;
  fi ← info f;
  pstore pgtab (addr_to_pti addr) (Z.lor (Z.lor fi.(faddr) PE_P) (vma_to_page_flags flags)) ;;
  kunmap_tmp_page pgtab ;;
  mret 0.

Definition map_page (addr flags : Z) : ST pg Z :=
  f ← kalloc_frame flags;
  map_frame f addr flags.

Definition copy_page (addr flags : Z) : ST pg Z :=
  let attr := vma_to_page_flags flags in
  let pti := addr_to_pti addr in
  pgtab ← umap_page_table current_pgdir addr;
  pte ← pload pgtab pti;
  f ← phys_to_info (pte_addr pte);
  fi ← info f;
  (if fi.(fref) =? 1 then pstore pgtab pti (Z.lor pte attr)
   else
     a ← copy_user_page flags (page_base addr);
     pte ← pload pgtab pti;
     free_pte pte ;;
     pstore pgtab pti (Z.lor (Z.lor a PE_P) attr)) ;;
  kunmap_tmp_page pgtab ;;
  mret 0.

(** ** Kernel pages *)

(** The search loop of [kalloc_pages] from page [i]; without fuel it gives up
    with [Fault]. *)
Fixpoint kp_search (fuel : nat) (i count start n pgtab : Z) : ST pg (Z * Z) :=
  match fuel with
  | O => fault
  | S fuel =>
      w ← pload pgtab (i mod 1024);
      if present w then
        pgtab ← knext_page_table (i +% 1) pgtab;
        kp_search fuel (i +% 1) 0 0 n pgtab
      else
        let start := if start =? 0 then i else start in
        if (count +% 1) =? n then mret (start, pgtab)
        else
          pgtab ← knext_page_table (i +% 1) pgtab;
          kp_search fuel (i +% 1) (count +% 1) start n pgtab
  end.

Fixpoint kp_map (n : nat) (i pgtab : Z) : ST pg Z :=
  match n with
  | O => mret pgtab
  | S n =>
      f ← kalloc_frame 0;
      fi ← info f;
      pstore pgtab (i mod 1024) (high_pte fi.(faddr)) ;;
      pgtab ← knext_page_table (i +% 1) pgtab;
      kp_map n (i +% 1) pgtab
  end.

Fixpoint kp_first_free (fuel : nat) (i pgtab : Z) : ST pg (Z * Z) :=
  match fuel with
  | O => fault
  | S fuel =>
      w ← pload pgtab (i mod 1024);
      if present w then
        pgtab ← knext_page_table (i +% 1) pgtab;
        kp_first_free fuel (i +% 1) pgtab
      else mret (i, pgtab)
  end.

(** The number of pages there are bounds the useful iterations of each loop. *)
Definition kalloc_pages (fuel : nat) (n : Z) : ST pg Z :=
  i ← gets first_free;
  pgtab ← kmap_page_table (i *% FRAME_SIZE);
  r ← kp_search fuel i 0 0 n pgtab;
  let '(start, pgtab) := r in
  kunmap_tmp_page pgtab ;;
  pgtab ← kmap_page_table (start *% FRAME_SIZE);
  pgtab ← kp_map (Z.to_nat n) start pgtab;
  kunmap_tmp_page pgtab ;;
  ff ← gets first_free;
  (if start =? ff then
     pgtab ← kmap_page_table ((start +% n) *% FRAME_SIZE);
     r ← kp_first_free fuel (start +% n) pgtab;
     let '(i, pgtab) := r in
     modify (fun s => set_first_free s i) ;;
     kunmap_tmp_page pgtab
   else mret tt) ;;
  mret (start *% FRAME_SIZE).

Fixpoint kp_unmap (n : nat) (i pgtab : Z) : ST pg Z :=
  match n with
  | O => mret pgtab
  | S n =>
      pte ← pload pgtab (i mod 1024);
      f ← phys_to_info (pte_addr pte);
      pstore pgtab (i mod 1024) 0 ;;
      kfree_frame f ;;
      pgtab ← knext_page_table (i +% 1) pgtab;
      kp_unmap n (i +% 1) pgtab
  end.

Definition kfree_pages (addr n : Z) : ST pg unit :=
  let start := addr / FRAME_SIZE in
  pgtab ← kmap_page_table addr;
  pgtab ← kp_unmap (Z.to_nat n) start pgtab;
  kunmap_tmp_page pgtab ;;
  ff ← gets first_free;
  if start <? ff then modify (fun s => set_first_free s start) else mret tt.

(** ** Initialisation *)

Fixpoint direct_map_loop (n : nat) (i start flags pgtab : Z) : ST pg Z :=
  match n with
  | O => mret pgtab
  | S n =>
      let page := start / FRAME_SIZE +% i in
      pstore pgtab (page mod 1024) (Z.lor (kernel_to_phys start +% i * FRAME_SIZE) flags) ;;
      pgtab ← knext_page_table (page +% 1) pgtab;
      direct_map_loop n (i + 1) start flags pgtab
  end.

Definition direct_map (start end_ flags : Z) : ST pg unit :=
  pgtab ← kmap_page_table start;
  direct_map_loop (Z.to_nat (align_up (end_ -% start) FRAME_SIZE / FRAME_SIZE)) 0 start flags pgtab ;;
  mret tt.

(** [ft_pgtabs] gives the physical addresses of the two static page tables that
    map the frame table; [sizeof (struct pf_info)] is 16. *)
Definition frame_pool_init (ft_pgtabs : Z * Z) (start end_ : Z) : ST pg unit :=
  let v_start := phys_to_kernel start in
  let nr_frames := align_up (end_ -% start) FRAME_SIZE / FRAME_SIZE in
  let ft_needed := (nr_frames *% 16) / FRAME_SIZE +% 1 in
  if NR_FT_PGTABS * 1024 <? ft_needed then panic
  else
    kpd_store (addr_to_pdi v_start) (high_pte ft_pgtabs.1) ;;
    kpd_store (addr_to_pdi v_start + 1) (high_pte ft_pgtabs.2) ;;
    for_each (zseq 0 (Z.to_nat ft_needed)) (fun i =>
      let tab := if i / 1024 =? 0 then ft_pgtabs.1 else ft_pgtabs.2 in
      ws ← frame tab;
      ws' ← st_res (astore ws (i mod 1024) (high_pte (start +% i * FRAME_SIZE)));
      put_frame tab ws') ;;
    let taken i := PfInfo (start +% i * FRAME_SIZE) 1 in
    let free i := PfInfo (start +% i * FRAME_SIZE) 0 in
    let rest := zseq ft_needed (Z.to_nat (nr_frames - ft_needed)) in
    modify (fun s => set_fp_start s start) ;;
    modify (fun s => set_frames s ((taken <$> zseq 0 (Z.to_nat ft_needed)) ++ (free <$> rest))
                                  (s.(frame_pool) ++ rest)) ;;
    modify (fun s => set_first_free s (v_start / FRAME_SIZE +% ft_needed)).

(** ** Page table entries *)

Lemma pte_addr_eq (w : Z) : in_u32 w -> pte_addr w = w / 4096 * 4096.
Proof. intros Hw. change (pte_addr w) with (page_base w). apply page_base_eq, Hw. Qed.

Lemma lor_aligned (a f : Z) : a mod 4096 = 0 -> 0 <= f < 4096 -> Z.lor a f = a + f.
Proof.
  intros Ha Hf. pose proof (Z.add_lor_land a f). enough (Z.land a f = 0) by lia.
  apply Z.bits_inj'. intros i Hi. rewrite Z.land_spec, Z.bits_0.
  destruct (Z.ltb_spec i 12).
  - replace (Z.testbit a i) with false; [reflexivity|].
    rewrite <- (Z.mod_pow2_bits_low a 12 i) by lia. change (2 ^ 12) with 4096.
    rewrite Ha, Z.bits_0. reflexivity.
  - rewrite (testbit_high 12 f) by lia. apply andb_false_r.
Qed.

Lemma present_odd (w : Z) : present w = Z.odd w.
Proof.
  unfold present, has, PE_P. change (Z.land w 1) with (Z.land w (Z.ones 1)).
  rewrite Z.land_ones by lia. change (2 ^ 1) with 2. rewrite Zmod_odd.
  destruct (Z.odd w); reflexivity.
Qed.

(** An entry made from an aligned address and attribute bits. *)
Lemma pte_make (a f : Z) :
  in_u32 a -> a mod 4096 = 0 -> 0 <= f < 4096 ->
  pte_addr (Z.lor a f) = a /\ present (Z.lor a f) = Z.odd f /\ in_u32 (Z.lor a f).
Proof.
  intros Ha Hm Hf. rewrite lor_aligned by assumption. assert (in_u32 (a + f)) by word_lia.
  rewrite pte_addr_eq, present_odd, Z.odd_add by assumption. split_and!; [lia | | assumption].
  replace (Z.odd a) with false; [apply xorb_false_l|]. symmetry.
  rewrite <- Z.negb_even. apply negb_false_iff, Z.even_spec. exists (a / 2). lia.
Qed.

Lemma high_pte_make (a : Z) :
  in_u32 a -> a mod 4096 = 0 ->
  pte_addr (high_pte a) = a /\ present (high_pte a) = true.
Proof.
  intros Ha Hm. unfold high_pte. rewrite <- Z.lor_assoc.
  destruct (pte_make a (Z.lor PE_P PE_RW) Ha Hm) as (? & ? & _); [cbv; split; congruence | auto].
Qed.

Lemma land_4095 (a : Z) : Z.land a 4095 = a mod 4096.
Proof. change 4095 with (Z.ones 12). apply Z.land_ones. lia. Qed.

(** ** Separating the temporary mappings from the rest of the state

    [view c m] is the state [c] in which the temporary slots [m] are in use.
    The lemmas below run the primitive operations on such states: windows only
    change [m], and accesses through a window only change [c].  Operations that
    return the slots they took are thereby functions on [c]. *)

Abbreviation slots := (gmap Z Z).

Definition overlay (m : slots) (ws : list Z) : list Z :=
  imap (fun i w => default w (m !! Z.of_nat i)) ws.

Definition view (c : pg) (m : slots) : pg := set_ram c (alter (overlay m) c.(hightab) c.(ram)).

Definition slots_ok (m : slots) : Prop :=
  forall j w, m !! j = Some w -> 4 <= j < 1018 /\ present w = true.

(** The page table of the top 4 MB maps itself, and no slot is in use. *)
Definition high_ok (c : pg) : Prop :=
  in_u32 c.(hightab) /\ c.(hightab) mod 4096 = 0 /\
  exists ws, c.(ram) !! c.(hightab) = Some ws /\ length ws = 1024%nat /\
    ws !! 1022%nat = Some (high_pte c.(hightab)) /\
    forall j, 4 <= j < 1018 -> ws !! Z.to_nat j = Some 0.

(** Replacing the words of a frame. *)
Definition set_frame (c : pg) (a : Z) (ws : list Z) : pg := set_ram c (<[a := ws]> c.(ram)).

Lemma overlay_lookup (m : slots) (ws : list Z) (i : nat) :
  overlay m ws !! i = (fun w => default w (m !! Z.of_nat i)) <$> ws !! i.
Proof. unfold overlay. rewrite list_lookup_imap. reflexivity. Qed.

Lemma overlay_length (m : slots) (ws : list Z) : length (overlay m ws) = length ws.
Proof. apply length_imap. Qed.

Lemma overlay_insert (m : slots) (ws : list Z) (j w : Z) :
  0 <= j -> overlay (<[j := w]> m) ws = <[Z.to_nat j := w]> (overlay m ws).
Proof.
  intros Hj. apply list_eq. intros i. rewrite overlay_lookup.
  destruct (decide (i = Z.to_nat j)) as [-> | Hne].
  - rewrite Z2Nat.id, lookup_insert_eq by lia. simpl.
    destruct (ws !! Z.to_nat j) eqn:E; simpl.
    + rewrite list_lookup_insert_eq; [reflexivity|]. rewrite overlay_length.
      eapply lookup_lt_Some, E.
    + symmetry. apply lookup_ge_None. rewrite length_insert, overlay_length.
      apply lookup_ge_None, E.
  - rewrite list_lookup_insert_ne, overlay_lookup, lookup_insert_ne by lia. reflexivity.
Qed.

Lemma overlay_delete (m : slots) (ws : list Z) (j : Z) :
  0 <= j -> ws !! Z.to_nat j = Some 0 ->
  overlay (delete j m) ws = <[Z.to_nat j := 0]> (overlay m ws).
Proof.
  intros Hj H0. apply list_eq. intros i. rewrite overlay_lookup.
  destruct (decide (i = Z.to_nat j)) as [-> | Hne].
  - rewrite Z2Nat.id, lookup_delete_eq, H0 by lia. simpl.
    rewrite list_lookup_insert_eq; [reflexivity|]. rewrite overlay_length.
    eapply lookup_lt_Some, H0.
  - rewrite list_lookup_insert_ne, overlay_lookup, lookup_delete_ne by lia. reflexivity.
Qed.

Lemma view_empty (c : pg) : view c ∅ = c.
Proof.
  unfold view. rewrite alter_id; [destruct c; reflexivity|].
  intros ws _. apply list_eq. intros i. rewrite overlay_lookup, lookup_empty.
  destruct (ws !! i); reflexivity.
Qed.

Lemma view_ram_ne (c : pg) (m : slots) (a : Z) :
  a <> c.(hightab) -> (view c m).(ram) !! a = c.(ram) !! a.
Proof. intros Ha. unfold view. simpl. apply lookup_alter_ne. auto. Qed.

Lemma view_set_frame (c : pg) (m : slots) (a : Z) (ws : list Z) :
  a <> c.(hightab) -> set_frame (view c m) a ws = view (set_frame c a ws) m.
Proof.
  intros Ha. unfold set_frame, view, set_ram. simpl. f_equal.
  rewrite alter_insert_ne; auto.
Qed.

Lemma high_words (c : pg) (m : slots) :
  high_ok c -> exists ws, (view c m).(ram) !! c.(hightab) = Some (overlay m ws) /\
    c.(ram) !! c.(hightab) = Some ws /\ length ws = 1024%nat /\
    ws !! 1022%nat = Some (high_pte c.(hightab)) /\
    forall j, 4 <= j < 1018 -> ws !! Z.to_nat j = Some 0.
Proof.
  intros (_ & _ & ws & Hws & Hl & H22 & Hs). exists ws. split; [|auto].
  unfold view. simpl. rewrite lookup_alter_eq, Hws. reflexivity.
Qed.

(** ** Running the primitives *)

Lemma frame_run (c : pg) (m : slots) (a : Z) (ws : list Z) :
  a <> c.(hightab) -> c.(ram) !! a = Some ws -> frame a (view c m) = Ok (ws, view c m).
Proof. intros Ha Hw. unfold frame. rewrite view_ram_ne, Hw by auto. reflexivity. Qed.

Lemma put_frame_run (c : pg) (m : slots) (a : Z) (ws0 ws : list Z) :
  a <> c.(hightab) -> c.(ram) !! a = Some ws0 ->
  put_frame a ws (view c m) = Ok (tt, view (set_frame c a ws) m).
Proof.
  intros Ha Hw. unfold put_frame. rewrite (bind_ok _ _ _ _ _ (frame_run c m a _ Ha Hw)).
  unfold modify. rewrite <- view_set_frame by auto. reflexivity.
Qed.

Lemma translate_run (s : pg) (p w : Z) (ws : list Z) :
  s.(ram) !! s.(hightab) = Some ws -> ws !! Z.to_nat (addr_to_pti p) = Some w ->
  present w = true -> translate p s = Ok (pte_addr w, s).
Proof.
  intros Hws Hw Hp. unfold translate, mbind, st_bind, gets, frame. rewrite Hws.
  assert (aload ws (addr_to_pti p) = Ok w) as E.
  { apply aload_ok. split; [|exact Hw]. rewrite addr_to_pti_eq. lia. }
  unfold st_res. rewrite E. simpl. rewrite Hp. reflexivity.
Qed.

Definition window (m : slots) (p a : Z) : Prop :=
  4 <= addr_to_pti p < 1018 /\ m !! addr_to_pti p = Some (high_pte a) /\
  in_u32 a /\ a mod 4096 = 0.

Lemma translate_window (c : pg) (m : slots) (p a : Z) :
  high_ok c -> window m p a -> translate p (view c m) = Ok (a, view c m).
Proof.
  intros Hc (Hj & Hm & Ha & Hal). destruct (high_words c m Hc) as (ws & Hv & _ & Hl & _ & Hs).
  destruct (high_pte_make a Ha Hal) as [Hpa Hpp].
  rewrite <- Hpa. eapply translate_run; [exact Hv | | exact Hpp].
  rewrite overlay_lookup, Hs, Z2Nat.id, Hm by lia. reflexivity.
Qed.

Lemma translate_tmp_pgtab (c : pg) (m : slots) :
  high_ok c -> slots_ok m -> translate tmp_pgtab (view c m) = Ok (c.(hightab), view c m).
Proof.
  intros Hc Hm. destruct (high_words c m Hc) as (ws & Hv & _ & Hl & H22 & _).
  destruct Hc as (Ha & Hal & _). destruct (high_pte_make _ Ha Hal) as [Hpa Hpp].
  rewrite <- Hpa. eapply translate_run; [exact Hv | | exact Hpp].
  change (Z.to_nat (addr_to_pti tmp_pgtab)) with 1022%nat.
  rewrite overlay_lookup, H22. simpl.
  destruct (m !! Z.of_nat 1022) eqn:E; [apply Hm in E; lia | reflexivity].
Qed.

Lemma window_load (c : pg) (m : slots) (p a i w : Z) (ws : list Z) :
  high_ok c -> window m p a -> a <> c.(hightab) ->
  c.(ram) !! a = Some ws -> 0 <= i -> ws !! Z.to_nat i = Some w ->
  pload p i (view c m) = Ok (w, view c m).
Proof.
  intros Hc Hw Ha Hr Hi Hx. unfold pload.
  rewrite (bind_ok _ _ _ _ _ (translate_window _ _ _ _ Hc Hw)).
  rewrite (bind_ok _ _ _ _ _ (frame_run _ _ _ _ Ha Hr)).
  unfold st_res. rewrite (proj2 (aload_ok ws i w)) by auto. reflexivity.
Qed.

Lemma window_store (c : pg) (m : slots) (p a i w : Z) (ws : list Z) :
  high_ok c -> window m p a -> a <> c.(hightab) ->
  c.(ram) !! a = Some ws -> 0 <= i < Z.of_nat (length ws) ->
  pstore p i w (view c m) = Ok (tt, view (set_frame c a (<[Z.to_nat i := w]> ws)) m).
Proof.
  intros Hc Hw Ha Hr Hi. unfold pstore.
  rewrite (bind_ok _ _ _ _ _ (translate_window _ _ _ _ Hc Hw)).
  rewrite (bind_ok _ _ _ _ _ (frame_run _ _ _ _ Ha Hr)).
  assert (astore ws i w = Ok (<[Z.to_nat i := w]> ws)) as E by (apply astore_ok; auto).
  erewrite bind_ok by (unfold st_res; rewrite E; reflexivity).
  eapply put_frame_run; eauto.
Qed.

Lemma window_write (c : pg) (m : slots) (p a : Z) (ws0 ws : list Z) :
  high_ok c -> window m p a -> a <> c.(hightab) -> c.(ram) !! a = Some ws0 ->
  page_write p ws (view c m) = Ok (tt, view (set_frame c a ws) m).
Proof.
  intros Hc Hw Ha Hr. unfold page_write.
  rewrite (bind_ok _ _ _ _ _ (translate_window _ _ _ _ Hc Hw)). eapply put_frame_run; eauto.
Qed.

(** ** Opening and closing windows *)

Definition room (m : slots) : Prop := (size m < 1014)%nat.

Lemma tmp_load (c : pg) (m : slots) (i : Z) :
  high_ok c -> slots_ok m -> 4 <= i < 1018 ->
  pload tmp_pgtab i (view c m) = Ok (default 0 (m !! i), view c m).
Proof.
  intros Hc Hm Hi. unfold pload.
  rewrite (bind_ok _ _ _ _ _ (translate_tmp_pgtab _ _ Hc Hm)).
  destruct (high_words c m Hc) as (ws & Hv & _ & Hl & _ & Hs).
  erewrite bind_ok by (unfold frame; rewrite Hv; reflexivity).
  unfold st_res. rewrite (proj2 (aload_ok _ _ (default 0 (m !! i)))); [reflexivity|].
  split; [lia|]. rewrite overlay_lookup, Hs, Z2Nat.id by lia. reflexivity.
Qed.

Lemma tmp_store (c : pg) (m m' : slots) (j w : Z) :
  high_ok c -> slots_ok m -> 4 <= j < 1018 ->
  (forall ws, ws !! Z.to_nat j = Some 0 -> <[Z.to_nat j := w]> (overlay m ws) = overlay m' ws) ->
  pstore tmp_pgtab j w (view c m) = Ok (tt, view c m').
Proof.
  intros Hc Hm Hj Hov. unfold pstore.
  rewrite (bind_ok _ _ _ _ _ (translate_tmp_pgtab _ _ Hc Hm)).
  destruct (high_words c m Hc) as (ws & Hv & Hr & Hl & _ & Hs).
  erewrite bind_ok by (unfold frame; rewrite Hv; reflexivity).
  assert (astore (overlay m ws) j w = Ok (overlay m' ws)) as E.
  { apply astore_ok. rewrite overlay_length. split; [lia|]. symmetry. apply Hov, Hs, Hj. }
  erewrite bind_ok by (unfold st_res; rewrite E; reflexivity).
  unfold put_frame. erewrite bind_ok by (unfold frame; rewrite Hv; reflexivity).
  unfold modify, view, set_ram. simpl. do 3 f_equal.
  apply map_eq. intros a. destruct (decide (a = hightab c)) as [-> | Hne].
  - rewrite lookup_insert_eq, lookup_alter_eq, Hr. reflexivity.
  - rewrite lookup_insert_ne, !lookup_alter_ne by auto. reflexivity.
Qed.

Lemma tmp_search_run (c : pg) (m : slots) (n : nat) (i : Z) :
  high_ok c -> slots_ok m -> 4 <= i -> i + Z.of_nat n = 1018 ->
  (exists j, i <= j < 1018 /\ m !! j = None) ->
  exists j, i <= j < 1018 /\ m !! j = None /\
    tmp_search n i (view c m) = Ok (j, view c m).
Proof.
  intros Hc Hm. revert i. induction n as [| n IH]; intros i Hi Hn (j & Hj & Hf); [lia|].
  simpl. rewrite (bind_ok _ _ _ _ _ (tmp_load c m i Hc Hm ltac:(lia))).
  destruct (m !! i) as [w|] eqn:Ei; simpl.
  - destruct (Hm i w Ei) as [_ ->]. destruct (IH (i + 1)) as (k & Hk & Hkf & Hr); [lia.. | |].
    + exists j. split; [|exact Hf]. assert (j <> i) by congruence. lia.
    + exists k. auto with lia.
  - exists i. auto with lia.
Qed.

Lemma room_free (m : slots) : room m -> exists j, 4 <= j < 1018 /\ m !! j = None.
Proof.
  intros Hr. destruct (decide (Exists (fun j => m !! j = None) (zseq 4 1014))) as [He | Hn].
  - apply Exists_exists in He as (j & Hj & Hm). apply elem_of_zseq in Hj. exists j. auto with lia.
  - exfalso. apply not_Exists_Forall in Hn; [|intros ?; solve_decision]. rewrite Forall_forall in Hn.
    assert (size (list_to_set (zseq 4 1014) : gset Z) <= size (dom m))%nat as Hsz.
    { apply subseteq_size. intros j Hj. apply elem_of_list_to_set in Hj.
      apply elem_of_dom. destruct (m !! j) eqn:E; [eauto|]. destruct (Hn j Hj E). }
    rewrite size_list_to_set, size_dom in Hsz by apply zseq_NoDup.
    change (length (zseq 4 1014)) with 1014%nat in Hsz. unfold room in Hr. lia.
Qed.

(** [m'] is [m] with one more window [p] on the frame [a]. *)
Definition opened (m m' : slots) (p a : Z) : Prop :=
  window m' p a /\ slots_ok m' /\ m ⊆ m' /\ delete (addr_to_pti p) m' = m /\
  size m' = Datatypes.S (size m).

Lemma kmap_run {A : Type} (c : pg) (m : slots) (a : Z) (K : Z -> ST pg A) (R : res (A * pg)) :
  high_ok c -> slots_ok m -> room m -> in_u32 a -> a mod 4096 = 0 ->
  (forall p m', opened m m' p a -> K p (view c m') = R) ->
  (p ← kmap_tmp_page a; K p) (view c m) = R.
Proof.
  intros Hc Hm Hr Ha Hal HK.
  destruct (tmp_search_run c m (Z.to_nat (1024 - NR_HIGH_PAGES - NR_RESERVED_PAGES))
              NR_RESERVED_PAGES Hc Hm) as (j & Hj & Hf & Hs);
    [unfold NR_RESERVED_PAGES; lia | reflexivity | apply room_free, Hr |].
  assert (addr_to_pti ((TMP_PGTAB_BASE +% j * FRAME_SIZE) +% Z.land a 4095) = j) as Hp.
  { rewrite land_4095, Hal, addr_to_pti_eq. unfold TMP_PGTAB_BASE, FRAME_SIZE, NR_RESERVED_PAGES in *.
    word_lia. }
  assert (kmap_tmp_page a (view c m) =
          Ok ((TMP_PGTAB_BASE +% j * FRAME_SIZE) +% Z.land a 4095, view c (<[j := high_pte a]> m))) as E.
  { unfold kmap_tmp_page. rewrite (bind_ok _ _ _ _ _ Hs).
    destruct (Z.eqb_spec j (1024 - NR_HIGH_PAGES)); [unfold NR_HIGH_PAGES, NR_KSTACK_PAGES in *; lia|].
    erewrite bind_ok; [reflexivity|]. apply tmp_store; auto.
    intros ws _. rewrite overlay_insert by (unfold NR_RESERVED_PAGES in *; lia). reflexivity. }
  rewrite (bind_ok _ _ _ _ _ E). apply HK. revert Hp.
  generalize ((TMP_PGTAB_BASE +% j * FRAME_SIZE) +% Z.land a 4095). intros p Hp. clear E. subst j.
  unfold NR_RESERVED_PAGES in Hj. split_and!.
  - split_and!; [lia.. | apply lookup_insert_eq | |]; auto; apply Ha.
  - intros k w. rewrite lookup_insert. case_decide as Hk; [|apply Hm].
    intros [= <-]. subst. split; [lia | apply (high_pte_make a Ha Hal)].
  - apply insert_subseteq, Hf.
  - apply delete_insert_id, Hf.
  - apply map_size_insert_None, Hf.
Qed.

Lemma kunmap_run (c : pg) (m m' : slots) (p a : Z) :
  high_ok c -> opened m m' p a -> kunmap_tmp_page p (view c m') = Ok (tt, view c m).
Proof.
  intros Hc ((Hj & _) & Hm & _ & <- & _). apply tmp_store; auto.
  intros ws H0. rewrite overlay_delete by (auto; lia). reflexivity.
Qed.

Lemma opened_window (m m' : slots) (p a q b : Z) :
  opened m m' p a -> window m q b -> window m' q b.
Proof.
  intros (_ & _ & Hsub & _) (Hj & Hq & Hb). split; [exact Hj|]. split; [|exact Hb].
  eapply lookup_weaken; eauto.
Qed.

(** ** The frame pool *)

Definition frame_addr (c : pg) (f : Z) : Z := c.(fp_start) + f * 4096.

(** [frame_table[f].ref], for a frame that exists. *)
Definition ref_of (c : pg) (f r : Z) : Prop :=
  0 <= f /\ c.(frame_table) !! Z.to_nat f = Some (PfInfo (frame_addr c f) r).

(** The table describes consecutive frames, the pool holds exactly the frames
    nobody refers to, and the page table of the windows is not among them. *)
Record frames_ok (c : pg) : Prop := {
  fo_start : 0 <= c.(fp_start) /\ c.(fp_start) mod 4096 = 0 /\
    c.(fp_start) + Z.of_nat (length c.(frame_table)) * 4096 <= 2 ^ 32;
  fo_table f i : 0 <= f -> c.(frame_table) !! Z.to_nat f = Some i ->
    i.(faddr) = frame_addr c f /\ in_u32 i.(fref) /\
    exists ws, c.(ram) !! frame_addr c f = Some ws /\ length ws = 1024%nat;
  fo_nodup : NoDup c.(frame_pool);
  fo_pool f : f ∈ c.(frame_pool) <-> ref_of c f 0;
  fo_high f : ref_of c f 0 -> frame_addr c f <> c.(hightab);
}.

Lemma frame_addr_aligned (c : pg) (f : Z) :
  frames_ok c -> frame_addr c f mod 4096 = 0.
Proof. intros [(H0 & H1 & _) _ _ _ _]. unfold frame_addr. lia. Qed.

Lemma frame_addr_inj (c : pg) (f g : Z) : frame_addr c f = frame_addr c g -> f = g.
Proof. unfold frame_addr. lia. Qed.

Lemma ref_of_bound (c : pg) (f r : Z) :
  frames_ok c -> ref_of c f r ->
  0 <= f < Z.of_nat (length c.(frame_table)) /\ in_u32 (frame_addr c f) /\
  frame_addr c f + 4096 <= 2 ^ 32.
Proof.
  intros [(H0 & H1 & H2) _ _ _ _] (Hf & Hl). apply lookup_lt_Some in Hl.
  unfold frame_addr, in_u32. lia.
Qed.

Lemma ref_of_fun (c : pg) (f r r' : Z) : ref_of c f r -> ref_of c f r' -> r = r'.
Proof. intros [_ H] [_ H']. rewrite H in H'. congruence. Qed.

Lemma frame_words (c : pg) (f r : Z) :
  frames_ok c -> ref_of c f r ->
  exists ws, c.(ram) !! frame_addr c f = Some ws /\ length ws = 1024%nat.
Proof. intros Hc (Hf & Hl). apply (fo_table c Hc f _ Hf Hl). Qed.

Lemma phys_to_info_run (c : pg) (m : slots) (f r : Z) :
  frames_ok c -> ref_of c f r -> phys_to_info (frame_addr c f) (view c m) = Ok (f, view c m).
Proof.
  intros Hc Hr. destruct (ref_of_bound c f r Hc Hr) as (Hf & Ha & _).
  destruct (fo_start c Hc) as (H0 & _). unfold phys_to_info, mbind, st_bind, gets. simpl.
  unfold mret, st_ret. do 2 f_equal. unfold frame_addr in *.
  replace (fp_start c + f * 4096 - fp_start c) with (f * 4096) by lia.
  unfold FRAME_SIZE. rewrite uN_id by word_lia. apply Z.div_mul. lia.
Qed.

Lemma info_run (c : pg) (m : slots) (f r : Z) :
  ref_of c f r -> info f (view c m) = Ok (PfInfo (frame_addr c f) r, view c m).
Proof.
  intros [Hf Hl]. unfold info, mbind, st_bind, gets. simpl. unfold st_res.
  rewrite (proj2 (aload_ok _ f _)) by eauto. reflexivity.
Qed.

(** [frame_table[f].ref = r] *)
Definition with_ref (c : pg) (f r : Z) (pool : list Z) : pg :=
  set_frames c (<[Z.to_nat f := PfInfo (frame_addr c f) r]> c.(frame_table)) pool.

Lemma set_ref_run (c : pg) (m : slots) (f r r' : Z) :
  ref_of c f r -> set_ref f r' (view c m) = Ok (tt, view (with_ref c f r' c.(frame_pool)) m).
Proof.
  intros [Hf Hl]. unfold set_ref, mbind, st_bind, gets. simpl. unfold st_res.
  rewrite (proj2 (aload_ok _ f _)) by eauto. simpl.
  assert (astore (frame_table c) f (PfInfo (frame_addr c f) r') =
          Ok (<[Z.to_nat f := PfInfo (frame_addr c f) r']> (frame_table c))) as E.
  { apply astore_ok. apply lookup_lt_Some in Hl. split; [lia | reflexivity]. }
  rewrite E. reflexivity.
Qed.

Lemma ref_of_with_ref (c : pg) (f r r' : Z) (pool : list Z) (g q : Z) :
  ref_of c f r ->
  ref_of (with_ref c f r' pool) g q <-> (g = f /\ q = r') \/ (g <> f /\ ref_of c g q).
Proof.
  intros [Hf Hl]. apply lookup_lt_Some in Hl. unfold ref_of, with_ref, frame_addr. simpl.
  destruct (decide (g = f)) as [-> | Hne].
  - rewrite list_lookup_insert_eq by exact Hl. split.
    + intros [_ [= ->]]. auto.
    + intros [[_ ->] | [? _]]; [auto | congruence].
  - destruct (Z.leb_spec 0 g); [|split; [lia | intros [[? _] | (_ & ? & _)]; lia]].
    rewrite list_lookup_insert_ne by lia. tauto.
Qed.

(** Changing one reference count and the pool together. *)
Lemma frames_ok_with_ref (c : pg) (f r r' : Z) (pool : list Z) :
  frames_ok c -> ref_of c f r -> in_u32 r' -> NoDup pool ->
  (r' = 0 -> frame_addr c f <> c.(hightab)) ->
  (forall g, g ∈ pool <-> (g = f /\ r' = 0) \/ (g <> f /\ ref_of c g 0)) ->
  frames_ok (with_ref c f r' pool).
Proof.
  intros Hc Hr Hr' Hnd Hh Hp. pose proof Hr as [Hf Hl]. split.
  - simpl. rewrite length_insert. apply (fo_start c Hc).
  - intros g i Hg. simpl. rewrite list_lookup_insert. case_decide as Hd.
    + intros [= <-]. assert (g = f) as -> by lia. split_and!; [reflexivity | apply Hr' |].
      apply (frame_words c f r Hc Hr).
    + apply (fo_table c Hc g i Hg).
  - exact Hnd.
  - intros g. rewrite (ref_of_with_ref c f r) by exact Hr. simpl. rewrite Hp. intuition congruence.
  - intros g. rewrite (ref_of_with_ref c f r) by exact Hr. intros [[-> <-] | [_ H0]].
    + apply Hh. reflexivity.
    + apply (fo_high c Hc g H0).
Qed.

Lemma high_ok_set_frames (c : pg) (t : list pf_info) (pool : list Z) :
  high_ok (set_frames c t pool) <-> high_ok c.
Proof. reflexivity. Qed.

Lemma high_ok_set_frame (c : pg) (a : Z) (ws : list Z) :
  a <> c.(hightab) -> high_ok (set_frame c a ws) <-> high_ok c.
Proof. intros Ha. unfold high_ok. simpl. rewrite lookup_insert_ne by auto. reflexivity. Qed.

Lemma frames_ok_set_frame (c : pg) (a : Z) (ws : list Z) :
  frames_ok c -> length ws = 1024%nat -> frames_ok (set_frame c a ws).
Proof.
  intros Hc Hl. destruct Hc as [H0 H1 H2 H3 H4]. split; auto.
  intros f i Hf Hi. destruct (H1 f i Hf Hi) as (Ha & Hr & ws' & Hw & Hl').
  split_and!; [exact Ha | apply Hr |]. simpl. change (frame_addr (set_frame c a ws) f) with (frame_addr c f).
  rewrite lookup_insert. case_decide; eauto.
Qed.

(** What [kalloc_frame] does to the state. *)
Definition take_frame (c : pg) (f : Z) (rest : list Z) (flags : Z) : pg :=
  let c := with_ref c f 1 rest in
  if has flags VM_ZERO then set_frame c (frame_addr c f) zero_page else c.

Lemma take_frame_ok (c : pg) (f flags : Z) (rest : list Z) :
  high_ok c -> frames_ok c -> c.(frame_pool) = f :: rest ->
  ref_of c f 0 /\ frame_addr c f <> c.(hightab) /\
  high_ok (take_frame c f rest flags) /\ frames_ok (take_frame c f rest flags).
Proof.
  intros Hh Hc Hp. assert (ref_of c f 0) as Hf by (apply (fo_pool c Hc); rewrite Hp; set_solver).
  pose proof (fo_high c Hc f Hf) as Hne. pose proof (fo_nodup c Hc) as Hnd. rewrite Hp in Hnd.
  assert (frames_ok (with_ref c f 1 rest)) as Hok.
  { eapply frames_ok_with_ref; [exact Hc | exact Hf | word_lia | apply NoDup_cons in Hnd; tauto | lia |].
    intros g. rewrite <- (fo_pool c Hc g), Hp. apply NoDup_cons in Hnd as [Hnf _].
    rewrite elem_of_cons. split; [intros Hg; right; split; [congruence | auto] | intros [[_ ?] | [? [? | ?]]]; done]. }
  split; [exact Hf|]. split; [exact Hne|]. unfold take_frame. destruct (has flags VM_ZERO).
  - split; [apply high_ok_set_frame; auto | apply frames_ok_set_frame; auto].
  - auto.
Qed.

Lemma kalloc_frame_run (c : pg) (m : slots) (f flags : Z) (rest : list Z) :
  high_ok c -> frames_ok c -> slots_ok m -> room m -> c.(frame_pool) = f :: rest ->
  kalloc_frame flags (view c m) = Ok (f, view (take_frame c f rest flags) m).
Proof.
  intros Hh Hc Hm Hr Hp. destruct (take_frame_ok c f 0 rest Hh Hc Hp) as (Hf & Hne & Hh1 & Hc1).
  change (take_frame c f rest 0) with (with_ref c f 1 rest) in *.
  unfold kalloc_frame. erewrite bind_ok by reflexivity. cbn [frame_pool view set_ram]. rewrite Hp.
  erewrite bind_ok by reflexivity.
  change (set_frames (view c m) (frame_table (view c m)) rest)
    with (view (set_frames c (frame_table c) rest) m).
  erewrite bind_ok by (apply (set_ref_run (set_frames c (frame_table c) rest) m f 0 1 Hf)).
  change (with_ref (set_frames c (frame_table c) rest) f 1 rest) with (with_ref c f 1 rest).
  unfold take_frame. destruct (has flags VM_ZERO); [|reflexivity].
  assert (ref_of (with_ref c f 1 rest) f 1) as Hf1 by (apply (ref_of_with_ref c f 0); auto).
  destruct (ref_of_bound _ f 1 Hc1 Hf1) as (_ & Ha & _).
  destruct (frame_words _ f 1 Hc1 Hf1) as (ws & Hws & Hl).
  erewrite bind_ok; [reflexivity|]. simpl.
  rewrite (bind_ok _ _ _ _ _ (info_run _ m f 1 Hf1)). simpl faddr.
  apply kmap_run; auto; [apply (frame_addr_aligned _ f Hc1)|]. intros p m' Ho.
  erewrite bind_ok by (eapply window_write; [exact Hh1 | apply Ho | exact Hne | exact Hws]).
  eapply kunmap_run; [|exact Ho]. apply high_ok_set_frame; auto.
Qed.

(** What [kfree_frame] does to the state. *)
Definition drop_ref (c : pg) (f r : Z) : pg :=
  with_ref c f (r - 1) (if r =? 1 then f :: c.(frame_pool) else c.(frame_pool)).

Lemma drop_ref_ok (c : pg) (f r : Z) :
  frames_ok c -> ref_of c f r -> 1 <= r -> (r = 1 -> frame_addr c f <> c.(hightab)) ->
  frames_ok (drop_ref c f r).
Proof.
  intros Hc Hr H1 Hh. assert (f ∉ c.(frame_pool)) as Hnf.
  { intros Hin. apply (fo_pool c Hc) in Hin. pose proof (ref_of_fun _ _ _ _ Hr Hin). lia. }
  destruct (fo_table c Hc f _ (proj1 Hr) (proj2 Hr)) as (_ & Hu & _). simpl in Hu.
  eapply frames_ok_with_ref; [exact Hc | exact Hr | word_lia | | intros ?; apply Hh; lia |].
  - pose proof (fo_nodup c Hc). destruct (Z.eqb_spec r 1); [apply NoDup_cons|]; auto.
  - intros g. destruct (Z.eqb_spec r 1) as [-> | Hne].
    + rewrite elem_of_cons, (fo_pool c Hc g). split.
      * intros [-> | Hg]; [auto|]. right. split; [|exact Hg].
        intros ->. pose proof (ref_of_fun _ _ _ _ Hr Hg). lia.
      * intros [[-> _] | [_ ?]]; auto.
    + rewrite (fo_pool c Hc g). split.
      * intros Hg. right. split; [|exact Hg]. intros ->. pose proof (ref_of_fun _ _ _ _ Hr Hg). lia.
      * intros [[_ ?] | [_ ?]]; [lia | auto].
Qed.

Lemma kfree_frame_run (c : pg) (m : slots) (f r : Z) :
  frames_ok c -> ref_of c f r -> 1 <= r ->
  kfree_frame f (view c m) = Ok (tt, view (drop_ref c f r) m).
Proof.
  intros Hc Hr H1. destruct (fo_table c Hc f _ (proj1 Hr) (proj2 Hr)) as (_ & Hu & _).
  simpl in Hu. unfold kfree_frame. rewrite (bind_ok _ _ _ _ _ (info_run c m f r Hr)). simpl fref.
  rewrite uN_id by word_lia.
  rewrite (bind_ok _ _ _ _ _ (set_ref_run c m f r (r - 1) Hr)). unfold drop_ref.
  destruct (Z.eqb_spec (r - 1) 0), (Z.eqb_spec r 1); lia || reflexivity.
Qed.

Lemma free_pte_run (c : pg) (m : slots) (pte f r : Z) :
  frames_ok c -> pte_addr pte = frame_addr c f -> ref_of c f r -> 1 <= r ->
  free_pte pte (view c m) = Ok (tt, view (drop_ref c f r) m).
Proof.
  intros Hc Hp Hr H1. unfold free_pte. rewrite Hp.
  rewrite (bind_ok _ _ _ _ _ (phys_to_info_run c m f r Hc Hr)). eapply kfree_frame_run; eauto.
Qed.

(** ** The current address space *)

(** [cur] is the page directory the window [current_pgdir] shows. *)
Definition current_ok (c : pg) (cur : Z) : Prop :=
  in_u32 cur /\ cur mod 4096 = 0 /\ cur <> c.(hightab) /\
  exists ws, c.(ram) !! c.(hightab) = Some ws /\ ws !! 1023%nat = Some (high_pte cur).

(** The tables of directory [dir] map the page of [addr] by the entry [pte] of
    the page table [tab]. *)
Definition walk (c : pg) (dir addr tab pte : Z) : Prop :=
  exists dws pde tws,
    c.(ram) !! dir = Some dws /\ dws !! Z.to_nat (addr_to_pdi addr) = Some pde /\
    present pde = true /\ pte_addr pde = tab /\
    c.(ram) !! tab = Some tws /\ tws !! Z.to_nat (addr_to_pti addr) = Some pte.

Lemma translate_current (c : pg) (m : slots) (cur : Z) :
  slots_ok m -> current_ok c cur -> translate current_pgdir (view c m) = Ok (cur, view c m).
Proof.
  intros Hm (Ha & Hal & Hne & hs & Hh & H23). destruct (high_pte_make cur Ha Hal) as [Hpa Hpp].
  rewrite <- Hpa. eapply translate_run; [| |exact Hpp].
  - unfold view. simpl. rewrite lookup_alter_eq, Hh. reflexivity.
  - change (Z.to_nat (addr_to_pti current_pgdir)) with 1023%nat.
    rewrite overlay_lookup, H23. simpl.
    destruct (m !! Z.of_nat 1023) eqn:E; [apply Hm in E; lia | reflexivity].
Qed.

Lemma current_load (c : pg) (m : slots) (cur i w : Z) (ws : list Z) :
  slots_ok m -> current_ok c cur -> c.(ram) !! cur = Some ws -> 0 <= i ->
  ws !! Z.to_nat i = Some w -> pload current_pgdir i (view c m) = Ok (w, view c m).
Proof.
  intros Hm Hcur Hr Hi Hw. pose proof Hcur as (_ & _ & Hne & _). unfold pload.
  rewrite (bind_ok _ _ _ _ _ (translate_current c m cur Hm Hcur)).
  rewrite (bind_ok _ _ _ _ _ (frame_run _ _ _ _ Hne Hr)).
  unfold st_res. rewrite (proj2 (aload_ok ws i w)) by auto. reflexivity.
Qed.

Lemma current_store (c : pg) (m : slots) (cur i w : Z) (ws : list Z) :
  slots_ok m -> current_ok c cur -> c.(ram) !! cur = Some ws -> 0 <= i < Z.of_nat (length ws) ->
  pstore current_pgdir i w (view c m) = Ok (tt, view (set_frame c cur (<[Z.to_nat i := w]> ws)) m).
Proof.
  intros Hm Hcur Hr Hi. pose proof Hcur as (_ & _ & Hne & _). unfold pstore.
  rewrite (bind_ok _ _ _ _ _ (translate_current c m cur Hm Hcur)).
  rewrite (bind_ok _ _ _ _ _ (frame_run _ _ _ _ Hne Hr)).
  assert (astore ws i w = Ok (<[Z.to_nat i := w]> ws)) as E by (apply astore_ok; auto).
  erewrite bind_ok by (unfold st_res; rewrite E; reflexivity).
  eapply put_frame_run; eauto.
Qed.

Lemma addr_to_pdi_nonneg (a : Z) : 0 <= addr_to_pdi a.
Proof.
  unfold addr_to_pdi. apply Z.shiftr_nonneg, Z.land_nonneg. right. lia.
Qed.

Lemma user_page_run (c : pg) (m : slots) (cur addr tab pte : Z) (ws : list Z) :
  slots_ok m -> current_ok c cur -> walk c cur addr tab pte -> tab <> c.(hightab) ->
  present pte = true -> pte_addr pte <> c.(hightab) -> c.(ram) !! pte_addr pte = Some ws ->
  user_page addr (view c m) = Ok (ws, view c m).
Proof.
  intros Hm Hcur (dws & pde & tws & Hd & Hpde & Hpp & <- & Ht & Hpte) Htab Hp Hf Hw.
  unfold user_page.
  rewrite (bind_ok _ _ _ _ _ (current_load c m cur _ _ _ Hm Hcur Hd (addr_to_pdi_nonneg addr) Hpde)).
  rewrite Hpp. rewrite (bind_ok _ _ _ _ _ (frame_run _ _ _ _ Htab Ht)).
  erewrite bind_ok; cycle 1.
  { unfold st_res. rewrite (proj2 (aload_ok tws _ pte)); [reflexivity|].
    split; [rewrite addr_to_pti_eq; lia | exact Hpte]. }
  rewrite Hp. apply frame_run; auto.
Qed.

(** Where a page table exists, [umap_page_table] opens a window on it. *)
Lemma umap_page_table_run {A : Type} (c : pg) (m : slots) (cur addr tab pte : Z)
    (K : Z -> ST pg A) :
  slots_ok m -> current_ok c cur -> walk c cur addr tab pte ->
  (p ← umap_page_table current_pgdir addr; K p) (view c m) =
  (p ← kmap_tmp_page tab; K p) (view c m).
Proof.
  intros Hm Hcur (dws & pde & tws & Hd & Hpde & Hpp & <- & _).
  pose proof (current_load c m cur _ _ _ Hm Hcur Hd (addr_to_pdi_nonneg addr) Hpde) as Hl.
  unfold umap_page_table, mbind, st_bind. rewrite Hl, Hpp. simpl. rewrite Hl. reflexivity.
Qed.

Lemma pte_addr_ok (w : Z) : in_u32 (pte_addr w) /\ pte_addr w mod 4096 = 0.
Proof.
  unfold pte_addr. split.
  - rewrite Z.land_comm. apply land_u32_l. cbv; split; congruence.
  - rewrite <- land_4095, <- Z.land_assoc. change (Z.land PTE_ADDR 4095) with 0. apply Z.land_0_r.
Qed.

Lemma walk_page_base (c : pg) (dir addr tab pte : Z) :
  in_u32 addr -> walk c dir addr tab pte -> walk c dir (page_base addr) tab pte.
Proof.
  intros Ha. unfold walk. destruct (page_base_spec addr Ha) as [Hb Hm].
  rewrite !addr_to_pti_eq, !addr_to_pdi_eq by word_lia.
  rewrite page_base_eq in * by exact Ha.
  replace (addr / 4096 * 4096 / 4194304) with (addr / 4194304) by lia.
  replace (addr / 4096 * 4096 / 4096) with (addr / 4096) by lia. auto.
Qed.

Lemma page_flags_range (flags : Z) : 0 <= vma_to_page_flags flags < 4096.
Proof.
  unfold vma_to_page_flags. destruct (has flags VM_READ), (has flags VM_WRITE);
    cbv; split; congruence.
Qed.

(** Attribute bits added to an entry. *)
Lemma pte_lor_attr (w flags : Z) :
  present w = true -> present (Z.lor w (vma_to_page_flags flags)) = true /\
  pte_addr (Z.lor w (vma_to_page_flags flags)) = pte_addr w.
Proof.
  intros Hp. unfold present, has, pte_addr, PE_P in *. rewrite !Z.land_lor_distr_l.
  replace (Z.land (vma_to_page_flags flags) 1) with 0; [|unfold vma_to_page_flags;
    destruct (has flags VM_READ), (has flags VM_WRITE); reflexivity].
  replace (Z.land (vma_to_page_flags flags) PTE_ADDR) with 0; [|unfold vma_to_page_flags;
    destruct (has flags VM_READ), (has flags VM_WRITE); reflexivity].
  rewrite !Z.lor_0_r. auto.
Qed.

Lemma writable_attr (w flags : Z) :
  has flags VM_WRITE = true -> has (Z.lor w (vma_to_page_flags flags)) PE_RW = true.
Proof.
  intros Hw. unfold has at 1. apply negb_true_iff, Z.eqb_neq. intros E.
  assert (Z.testbit (Z.land (Z.lor w (vma_to_page_flags flags)) PE_RW) 1 = true) as Hb.
  { unfold vma_to_page_flags. rewrite Hw, Z.land_spec, !Z.lor_spec.
    change (Z.testbit PE_RW 1) with true. rewrite !orb_true_r. reflexivity. }
  rewrite E, Z.bits_0 in Hb. discriminate.
Qed.

(** A present user page at [addr] in the current address space: [pte] in the
    page table [tab] maps frame [f], which has [r] references.  The tables are
    in use and distinct from the page and from the table of the windows. *)
Record user_mapping (s : pg) (cur addr tab pte f r : Z) : Prop := {
  um_current : current_ok s cur;
  um_walk : walk s cur addr tab pte;
  um_present : present pte = true;
  um_frame : pte_addr pte = frame_addr s f;
  um_ref : ref_of s f r;
  um_pos : 1 <= r;
  um_tab : tab <> s.(hightab) /\ tab <> cur /\ tab <> frame_addr s f;
  um_high : frame_addr s f <> s.(hightab);
  um_used g : ref_of s g 0 -> frame_addr s g <> tab /\ frame_addr s g <> cur;
  um_length ws : s.(ram) !! tab = Some ws -> length ws = 1024%nat;
}.

(** Storing into the page table of a mapping keeps the directory. *)
Lemma walk_store (c : pg) (cur addr tab pte w : Z) (tws : list Z) :
  walk c cur addr tab pte -> tab <> cur -> c.(ram) !! tab = Some tws ->
  walk (set_frame c tab (<[Z.to_nat (addr_to_pti addr) := w]> tws)) cur addr tab w.
Proof.
  intros (dws & pde & tws' & Hd & Hpde & Hpp & Hpa & Ht & Hpte) Hne Htw.
  rewrite Htw in Ht. injection Ht as <-.
  exists dws, pde, (<[Z.to_nat (addr_to_pti addr) := w]> tws). cbn [ram set_frame set_ram].
  rewrite lookup_insert_ne, lookup_insert_eq by auto. split_and!; auto.
  apply list_lookup_insert_eq. eapply lookup_lt_Some, Hpte.
Qed.

Lemma walk_ext (c c' : pg) (cur addr tab pte : Z) :
  c'.(ram) !! cur = c.(ram) !! cur -> c'.(ram) !! tab = c.(ram) !! tab ->
  walk c cur addr tab pte -> walk c' cur addr tab pte.
Proof.
  intros H1 H2 (dws & pde & tws & Hd & Hpde & Hpp & Hpa & Ht & Hpte).
  exists dws, pde, tws. rewrite H1, H2. split_and!; auto.
Qed.

Lemma current_ok_ext (c c' : pg) (cur : Z) :
  c'.(hightab) = c.(hightab) -> c'.(ram) !! c.(hightab) = c.(ram) !! c.(hightab) ->
  current_ok c cur -> current_ok c' cur.
Proof. intros H1 H2. unfold current_ok. rewrite H1, H2. auto. Qed.

Lemma take_frame_fields (c : pg) (f flags : Z) (rest : list Z) :
  let c' := take_frame c f rest flags in
  c'.(hightab) = c.(hightab) /\ c'.(fp_start) = c.(fp_start) /\ c'.(frame_pool) = rest /\
  c'.(kernel_pgdir) = c.(kernel_pgdir) /\ c'.(husk_list) = c.(husk_list) /\
  c'.(husks) = c.(husks) /\ c'.(pgdirs) = c.(pgdirs) /\ c'.(first_free) = c.(first_free) /\
  (forall a, a <> frame_addr c f -> c'.(ram) !! a = c.(ram) !! a) /\
  (has flags VM_ZERO = true -> c'.(ram) !! frame_addr c f = Some zero_page).
Proof.
  unfold take_frame. destruct (has flags VM_ZERO); simpl; split_and!; auto.
  - intros a Ha. apply lookup_insert_ne. auto.
  - intros _. apply lookup_insert_eq.
  - discriminate.
Qed.

Lemma take_frame_addr (c : pg) (f flags : Z) (rest : list Z) (g : Z) :
  frame_addr (take_frame c f rest flags) g = frame_addr c g.
Proof. unfold frame_addr. destruct (take_frame_fields c f flags rest) as (_ & -> & _). reflexivity. Qed.

Lemma take_frame_ref (c : pg) (f flags r : Z) (rest : list Z) (g q : Z) :
  ref_of c f r ->
  ref_of (take_frame c f rest flags) g q <-> (g = f /\ q = 1) \/ (g <> f /\ ref_of c g q).
Proof.
  intros Hr. rewrite <- (ref_of_with_ref c f r 1 rest g q Hr). unfold take_frame.
  destruct (has flags VM_ZERO); reflexivity.
Qed.

Lemma copy_user_page_run (c : pg) (m : slots) (cur addr flags tab pte g : Z) (rest ws : list Z) :
  high_ok c -> frames_ok c -> slots_ok m -> room m -> current_ok c cur ->
  walk c cur addr tab pte -> present pte = true -> tab <> c.(hightab) ->
  pte_addr pte <> c.(hightab) -> c.(ram) !! pte_addr pte = Some ws ->
  c.(frame_pool) = g :: rest ->
  frame_addr c g <> cur -> frame_addr c g <> tab -> frame_addr c g <> pte_addr pte ->
  copy_user_page flags addr (view c m) =
    Ok (frame_addr c g, view (set_frame (take_frame c g rest flags) (frame_addr c g) ws) m).
Proof.
  intros Hh Hf Hm Hsz Hcur Hwalk Hpres Ht Hph Hws Hp Hgc Hgt Hgf.
  destruct (take_frame_ok c g flags rest Hh Hf Hp) as (Hg0 & Hgh & Hh1 & Hf1).
  destruct (take_frame_fields c g flags rest) as (Eh & Es & _ & _ & _ & _ & _ & _ & Er & _).
  unfold copy_user_page. erewrite bind_ok by (apply kalloc_frame_run; eauto).
  pose proof (take_frame_addr c g flags rest g) as Ea.
  assert (ref_of (take_frame c g rest flags) g 1) as Hg1 by (apply (take_frame_ref c g flags 0); auto).
  set (c1 := take_frame c g rest flags) in *.
  destruct (frame_words c1 g 1 Hf1 Hg1) as (gws & Hgws & _).
  destruct (ref_of_bound c1 g 1 Hf1 Hg1) as (_ & Hga & _).
  rewrite (bind_ok _ _ _ _ _ (info_run c1 m g 1 Hg1)). simpl faddr.
  apply kmap_run; auto; [apply (frame_addr_aligned c1 g Hf1) |].
  intros q m' Ho'. pose proof Ho' as (Hw' & Hm' & _).
  erewrite bind_ok by (eapply (user_page_run c1 m' cur _ tab pte ws Hm');
    first [ eapply current_ok_ext; [exact Eh | apply Er; congruence | exact Hcur]
          | eapply walk_ext; [apply Er; congruence | apply Er; congruence | exact Hwalk]
          | rewrite Er; [exact Hws | congruence] | congruence ]).
  erewrite bind_ok by (eapply window_write; [exact Hh1 | exact Hw' | congruence | exact Hgws]).
  erewrite bind_ok by (eapply kunmap_run; [apply high_ok_set_frame; [congruence | exact Hh1] | exact Ho']).
  rewrite Ea. reflexivity.
Qed.

(** The state after the copying branch of [copy_page]. *)
Definition cow_state (s : pg) (f r g : Z) (rest : list Z) (tab pti pte' flags : Z)
    (ws tws : list Z) : pg :=
  set_frame (drop_ref (set_frame (take_frame s g rest flags) (frame_addr s g) ws) f r)
    tab (<[Z.to_nat pti := pte']> tws).

Lemma copy_page_shared (s : pg) (m0 : slots) (cur addr flags tab pte f r g : Z) (rest ws tws : list Z) :
  high_ok s -> slots_ok m0 -> (size m0 < 1013)%nat -> frames_ok s -> in_u32 addr -> user_mapping s cur addr tab pte f r ->
  r <> 1 -> s.(frame_pool) = g :: rest -> s.(ram) !! frame_addr s f = Some ws ->
  s.(ram) !! tab = Some tws ->
  copy_page addr flags (view s m0) =
    Ok (0, view (cow_state s f r g rest tab (addr_to_pti addr)
             (Z.lor (Z.lor (frame_addr s g) PE_P) (vma_to_page_flags flags)) flags ws tws) m0).
Proof.
  intros Hh Hm0 Hsz0 Hf Ha U Hr1 Hp Hws Htws.
  destruct U as [Hcur Hwalk Hpres Hfr Href Hpos (Ht1 & Ht2 & Ht3) Hfh Hused Hlen].
  destruct (take_frame_ok s g flags rest Hh Hf Hp) as (Hg0 & Hgh & Hh1 & Hf1).
  destruct (Hused g Hg0) as [Hgt Hgc].
  assert (g <> f) as Hgf by (intros ->; pose proof (ref_of_fun _ _ _ _ Href Hg0); lia).
  destruct (take_frame_fields s g flags rest) as (Eh & Es & _ & _ & _ & _ & _ & _ & Er & _).
  pose proof Hwalk as (_ & pde & tws' & _ & _ & _ & Hpde & Htw' & Hpte).
  rewrite Htws in Htw'. injection Htw' as <-.
  destruct (pte_addr_ok pde) as [Hta Htal]. rewrite Hpde in Hta, Htal.
  unfold copy_page. cbv zeta.
  rewrite (umap_page_table_run s m0 cur addr tab pte) by auto.
  apply kmap_run; auto; [unfold room; lia|].
  intros p m Ho. pose proof Ho as (Hw & Hm & _ & _ & Hsz).
  assert (0 <= addr_to_pti addr < 1024) as Hpti by (rewrite addr_to_pti_eq; lia).
  rewrite (bind_ok _ _ _ _ _ (window_load s m p tab _ _ _ Hh Hw Ht1 Htws (proj1 Hpti) Hpte)).
  rewrite Hfr, (bind_ok _ _ _ _ _ (phys_to_info_run s m f r Hf Href)).
  rewrite (bind_ok _ _ _ _ _ (info_run s m f r Href)). simpl fref.
  destruct (Z.eqb_spec r 1) as [? | _]; [contradiction|].
  set (c2 := set_frame (take_frame s g rest flags) (frame_addr s g) ws).
  assert (high_ok c2) as Hh2 by (apply high_ok_set_frame; [congruence | exact Hh1]).
  assert (frames_ok c2) as Hf2.
  { apply frames_ok_set_frame; [exact Hf1|]. destruct (frame_words s f r Hf Href) as (w0 & E0 & ?). congruence. }
  assert (ram c2 !! tab = Some tws) as Htab2.
  { unfold c2. simpl. rewrite lookup_insert_ne by congruence. rewrite Er by congruence. exact Htws. }
  assert (high_ok (drop_ref c2 f r)) as Hh3 by exact Hh2.
  assert (tab <> hightab c2) as Ht2' by (simpl; congruence).
  erewrite (bind_ok _ _ (view s m)); cycle 1.
  { erewrite bind_ok.
    2: { eapply (copy_user_page_run s m cur _ flags tab pte g rest ws);
           rewrite ?Hfr; eauto using walk_page_base; [unfold room; lia|]. intros E. apply Hgf, (frame_addr_inj s), E. }
    rewrite (bind_ok _ _ _ _ _ (window_load c2 m p tab _ _ _ Hh2 Hw Ht2' Htab2 (proj1 Hpti) Hpte)).
    erewrite bind_ok.
    2: { apply (free_pte_run c2 m pte f r Hf2); [rewrite Hfr; symmetry; apply take_frame_addr | | exact Hpos].
         apply (take_frame_ref s g flags 0 rest); auto. }
    eapply (window_store (drop_ref c2 f r) m p tab); [exact Hh3 | exact Hw | exact Ht2' | exact Htab2 |].
    apply lookup_lt_Some in Hpte. lia. }
  erewrite bind_ok by (eapply kunmap_run; [apply high_ok_set_frame; [exact Ht2' | exact Hh3] | exact Ho]).
  reflexivity.
Qed.

Lemma copy_page_owned (s : pg) (m0 : slots) (cur addr flags tab pte f : Z) (tws : list Z) :
  high_ok s -> slots_ok m0 -> room m0 -> frames_ok s -> in_u32 addr -> user_mapping s cur addr tab pte f 1 ->
  s.(ram) !! tab = Some tws ->
  copy_page addr flags (view s m0) =
    Ok (0, view (set_frame s tab (<[Z.to_nat (addr_to_pti addr) :=
                                   Z.lor pte (vma_to_page_flags flags)]> tws)) m0).
Proof.
  intros Hh Hm0 Hr0 Hf Ha U Htws.
  destruct U as [Hcur Hwalk Hpres Hfr Href Hpos (Ht1 & Ht2 & Ht3) Hfh Hused Hlen].
  pose proof Hwalk as (_ & pde & tws' & _ & _ & _ & Hpde & Htw' & Hpte).
  rewrite Htws in Htw'. injection Htw' as <-.
  destruct (pte_addr_ok pde) as [Hta Htal]. rewrite Hpde in Hta, Htal.
  unfold copy_page. cbv zeta.
  rewrite (umap_page_table_run s m0 cur addr tab pte) by auto.
  apply kmap_run; auto. intros p m Ho. pose proof Ho as (Hw & Hm & _).
  assert (0 <= addr_to_pti addr < 1024) as Hpti by (rewrite addr_to_pti_eq; lia).
  rewrite (bind_ok _ _ _ _ _ (window_load s m p tab _ _ _ Hh Hw Ht1 Htws (proj1 Hpti) Hpte)).
  rewrite Hfr, (bind_ok _ _ _ _ _ (phys_to_info_run s m f 1 Hf Href)).
  rewrite (bind_ok _ _ _ _ _ (info_run s m f 1 Href)). simpl fref. simpl (1 =? 1).
  erewrite bind_ok by (eapply (window_store s m p tab); eauto; apply lookup_lt_Some in Hpte; lia).
  erewrite bind_ok by (eapply kunmap_run; [apply high_ok_set_frame; [exact Ht1 | exact Hh] | exact Ho]).
  reflexivity.
Qed.

(** The memory and the reference counts of that state. *)
Lemma cow_state_fields (s : pg) (cur addr tab pte pte' f r g flags : Z) (rest ws tws : list Z) :
  let s' := cow_state s f r g rest tab (addr_to_pti addr) pte' flags ws tws in
  high_ok s -> frames_ok s -> user_mapping s cur addr tab pte f r -> r <> 1 ->
  s.(frame_pool) = g :: rest -> length ws = 1024%nat -> s.(ram) !! tab = Some tws ->
  high_ok s' /\ frames_ok s' /\ frame_addr s' = frame_addr s /\
  s'.(ram) !! tab = Some (<[Z.to_nat (addr_to_pti addr) := pte']> tws) /\
  s'.(ram) !! frame_addr s g = Some ws /\
  (forall a, a <> tab -> a <> frame_addr s g -> s'.(ram) !! a = s.(ram) !! a) /\
  (forall h q, ref_of s' h q <->
     h = g /\ q = 1 \/ h = f /\ q = r - 1 \/ h <> f /\ h <> g /\ ref_of s h q).
Proof.
  intros s' Hh Hf U Hr1 Hp Hl Htws. subst s'.
  destruct U as [Hcur Hwalk Hpres Hfr Href Hpos (Ht1 & Ht2 & Ht3) Hfh Hused Hlen].
  destruct (take_frame_ok s g flags rest Hh Hf Hp) as (Hg0 & Hgh & Hh1 & Hf1).
  destruct (Hused g Hg0) as [Hgt Hgc].
  assert (g <> f) as Hgf by (intros ->; pose proof (ref_of_fun _ _ _ _ Href Hg0); lia).
  destruct (take_frame_fields s g flags rest) as (Eh & Es & _ & _ & _ & _ & _ & _ & Er & _).
  pose proof (take_frame_ref s g flags 0 rest) as Eref. unfold cow_state.
  set (c2 := set_frame (take_frame s g rest flags) (frame_addr s g) ws).
  assert (ref_of c2 f r) as Hf2 by (apply Eref; auto).
  assert (frame_addr c2 = frame_addr s) as Ea by (unfold frame_addr; simpl; rewrite Es; reflexivity).
  split_and!.
  - apply high_ok_set_frame; [simpl; congruence|]. apply (high_ok_set_frame (take_frame s g rest flags)); [congruence | exact Hh1].
  - apply frames_ok_set_frame; [|rewrite length_insert; auto].
    apply drop_ref_ok; [apply frames_ok_set_frame; auto | exact Hf2 | exact Hpos | lia].
  - exact Ea.
  - apply lookup_insert_eq.
  - simpl. rewrite lookup_insert_ne, lookup_insert_eq by auto. reflexivity.
  - intros a Hat Hag. simpl. rewrite !lookup_insert_ne by auto. apply Er. exact Hag.
  - intros h q. change (ref_of (set_frame ?c ?a ?w) h q) with (ref_of c h q).
    unfold drop_ref. rewrite (ref_of_with_ref c2 f r) by exact Hf2.
    change (ref_of c2 h q) with (ref_of (take_frame s g rest flags) h q). rewrite Eref by exact Hg0.
    destruct (decide (h = f)), (decide (h = g)); subst; tauto.
Qed.

(** Replacing the entry of a mapping by one for a frame with one reference. *)
Lemma user_mapping_store (s : pg) (cur addr tab pte pte' f : Z) (tws : list Z) :
  user_mapping s cur addr tab pte f 1 -> s.(ram) !! tab = Some tws ->
  present pte' = true -> pte_addr pte' = frame_addr s f ->
  user_mapping (set_frame s tab (<[Z.to_nat (addr_to_pti addr) := pte']> tws)) cur addr tab pte' f 1.
Proof.
  intros [Hcur Hwalk Hpres Hfr Href Hpos (Ht1 & Ht2 & Ht3) Hfh Hused Hlen] Htws Hp Ha. split; auto.
  - apply (current_ok_ext s); [reflexivity | | exact Hcur]. simpl. rewrite lookup_insert_ne; auto.
  - eapply walk_store; eauto.
  - simpl. intros ws. rewrite lookup_insert_eq. intros [= <-]. rewrite length_insert. auto.
Qed.

Lemma new_pte (s : pg) (g r flags : Z) :
  frames_ok s -> ref_of s g r ->
  let w := Z.lor (Z.lor (frame_addr s g) PE_P) (vma_to_page_flags flags) in
  present w = true /\ pte_addr w = frame_addr s g.
Proof.
  intros Hf Hg w. destruct (ref_of_bound s g r Hf Hg) as (_ & Ha & _).
  destruct (pte_make (frame_addr s g) PE_P Ha (frame_addr_aligned s g Hf)) as (E1 & E2 & _);
    [cbv; split; congruence|].
  destruct (pte_lor_attr (Z.lor (frame_addr s g) PE_P) flags) as [E3 E4]; [rewrite E2; reflexivity|].
  unfold w. rewrite E3, E4. auto.
Qed.

Lemma user_mapping_new (s s' : pg) (cur addr tab pte pte' f r g : Z) (tws : list Z) :
  user_mapping s cur addr tab pte f r -> ref_of s g 0 -> r <> 1 -> frame_addr s g <> s.(hightab) ->
  s'.(hightab) = s.(hightab) ->
  frame_addr s' = frame_addr s -> present pte' = true -> pte_addr pte' = frame_addr s g ->
  s.(ram) !! tab = Some tws ->
  s'.(ram) !! tab = Some (<[Z.to_nat (addr_to_pti addr) := pte']> tws) ->
  (forall a, a <> tab -> a <> frame_addr s g -> s'.(ram) !! a = s.(ram) !! a) ->
  (forall h q, ref_of s' h q <->
     h = g /\ q = 1 \/ h = f /\ q = r - 1 \/ h <> f /\ h <> g /\ ref_of s h q) ->
  user_mapping s' cur addr tab pte' g 1.
Proof.
  intros [Hcur Hwalk Hpres Hfr Href Hpos (Ht1 & Ht2 & Ht3) Hfh Hused Hlen]
    Hg Hr1 Hgh Eh Ea Hp Hpa Htws Et Er Eref. destruct (Hused g Hg) as [Hgt Hgc].
  split; rewrite ?Ea, ?Eh; auto.
  - apply (current_ok_ext s); [exact Eh | apply Er; congruence | exact Hcur].
  - apply (walk_ext (set_frame s tab (<[Z.to_nat (addr_to_pti addr) := pte']> tws))).
    + simpl. rewrite lookup_insert_ne by auto. apply Er; auto.
    + rewrite Et. simpl. rewrite lookup_insert_eq. reflexivity.
    + eapply walk_store; eauto.
  - apply Eref. auto.
  - lia.
  - intros h Hh. apply Eref in Hh as [[_ ?] | [[_ ?] | (_ & _ & ?)]]; [lia.. | auto].
  - intros ws. rewrite Et. intros [= <-]. rewrite length_insert. auto.
Qed.

(** ** Running out of frames and windows *)

Lemma bind_panic {S A B : Type} (m : ST S A) (k : A -> ST S B) (s : S) :
  m s = Panic -> (m ≫= k) s = Panic.
Proof. intros H. unfold mbind, st_bind. rewrite H. reflexivity. Qed.

Lemma full_slots (m : slots) (j : Z) : slots_ok m -> ~ room m -> 4 <= j < 1018 -> is_Some (m !! j).
Proof.
  intros Hm Hr Hj. destruct (m !! j) eqn:E; [eauto|]. exfalso. apply Hr. unfold room.
  assert (dom m ⊆ (list_to_set (zseq 4 1014) : gset Z) ∖ {[j]}) as Hsub.
  { intros i Hi. apply elem_of_dom in Hi as [w Hw]. destruct (Hm i w Hw) as [Hi _].
    apply elem_of_difference. split; [apply elem_of_list_to_set, elem_of_zseq; lia|]. apply not_elem_of_singleton. congruence. }
  apply subseteq_size in Hsub. rewrite size_dom, size_difference, size_list_to_set, size_singleton in Hsub.
  - change (length (zseq 4 1014)) with 1014%nat in Hsub. lia.
  - apply zseq_NoDup.
  - apply singleton_subseteq_l, elem_of_list_to_set, elem_of_zseq. lia.
Qed.

Lemma tmp_search_full (c : pg) (m : slots) (n : nat) (i : Z) :
  high_ok c -> slots_ok m -> ~ room m -> 4 <= i -> i + Z.of_nat n = 1018 ->
  tmp_search n i (view c m) = Ok (1018, view c m).
Proof.
  intros Hc Hm Hr. revert i. induction n as [| n IH]; intros i Hi Hn; simpl.
  - replace i with 1018 by lia. reflexivity.
  - rewrite (bind_ok _ _ _ _ _ (tmp_load c m i Hc Hm ltac:(lia))).
    destruct (full_slots m i Hm Hr ltac:(lia)) as [w Hw]. rewrite Hw. simpl. destruct (Hm i w Hw) as [_ ->]. apply IH; lia.
Qed.

Lemma kmap_full (c : pg) (m : slots) (a : Z) :
  high_ok c -> slots_ok m -> ~ room m -> kmap_tmp_page a (view c m) = Panic.
Proof.
  intros Hc Hm Hr. unfold kmap_tmp_page.
  erewrite bind_ok by (apply tmp_search_full; auto; reflexivity). reflexivity.
Qed.

Lemma copy_user_page_panics (c : pg) (m : slots) (flags addr : Z) :
  high_ok c -> frames_ok c -> slots_ok m -> c.(frame_pool) = [] \/ ~ room m -> copy_user_page flags addr (view c m) = Panic.
Proof.
  intros Hh Hf Hm Hn. unfold copy_user_page. destruct (c.(frame_pool)) as [| g rest] eqn:Hp.
  { apply bind_panic. unfold kalloc_frame. erewrite bind_ok by reflexivity. cbn [frame_pool view set_ram]. rewrite Hp. reflexivity. }
  destruct Hn as [? | Hr]; [discriminate|]. destruct (take_frame_ok c g 0 rest Hh Hf Hp) as (Hg0 & Hne & Hh1 & Hf1).
  change (take_frame c g rest 0) with (with_ref c g 1 rest) in *.
  assert (ref_of (with_ref c g 1 rest) g 1) as Hg1 by (apply (ref_of_with_ref c g 0); auto).
  assert (forall k : ST pg Z, (modify (fun s => set_frames s s.(frame_table) rest) ;; set_ref g 1 ;; k) (view c m) =
            k (view (with_ref c g 1 rest) m)) as E.
  { intros k. erewrite bind_ok by reflexivity.
    change (set_frames (view c m) (frame_table (view c m)) rest) with (view (set_frames c (frame_table c) rest) m).
    erewrite bind_ok by (apply (set_ref_run (set_frames c (frame_table c) rest) m g 0 1 Hg0)). reflexivity. }
  unfold kalloc_frame. unfold mbind at 1, st_bind at 1. erewrite bind_ok by reflexivity. cbn [frame_pool view set_ram]. rewrite Hp, E.
  destruct (has flags VM_ZERO).
  - erewrite bind_panic; [reflexivity|]. rewrite (bind_ok _ _ _ _ _ (info_run _ m g 1 Hg1)).
    apply bind_panic, kmap_full; auto.
  - erewrite bind_ok by reflexivity. cbv beta iota. cbn [mret st_ret]. rewrite (bind_ok _ _ _ _ _ (info_run _ m g 1 Hg1)).
    apply bind_panic, kmap_full; auto.
Qed.

Lemma copy_page_panics (c : pg) (m : slots) (cur addr flags tab pte f r : Z) (tws : list Z) :
  high_ok c -> slots_ok m -> frames_ok c -> in_u32 addr -> user_mapping c cur addr tab pte f r -> c.(ram) !! tab = Some tws ->
  ~ room m \/ r <> 1 /\ (c.(frame_pool) = [] \/ (1013 <= size m)%nat) -> copy_page addr flags (view c m) = Panic.
Proof.
  intros Hh Hm Hf Ha U Htws Hn.
  destruct U as [Hcur Hwalk Hpres Hfr Href Hpos (Ht1 & Ht2 & Ht3) Hfh Hused Hlen].
  pose proof Hwalk as (_ & pde & tws' & _ & _ & _ & Hpde & Htw' & Hpte).
  rewrite Htws in Htw'. injection Htw' as <-.
  destruct (pte_addr_ok pde) as [Hta Htal]. rewrite Hpde in Hta, Htal.
  unfold copy_page. cbv zeta. rewrite (umap_page_table_run c m cur addr tab pte) by auto.
  destruct (decide (size m < 1014)%nat) as [Hr | Hr]; [|apply bind_panic, kmap_full; auto].
  destruct Hn as [? | [Hr1 Hn]]; [contradiction|].
  apply kmap_run; auto. intros p m' Ho. pose proof Ho as (Hw & Hm' & _ & _ & Hsz).
  assert (0 <= addr_to_pti addr < 1024) as Hpti by (rewrite addr_to_pti_eq; lia).
  rewrite (bind_ok _ _ _ _ _ (window_load c m' p tab _ _ _ Hh Hw Ht1 Htws (proj1 Hpti) Hpte)).
  rewrite Hfr, (bind_ok _ _ _ _ _ (phys_to_info_run c m' f r Hf Href)).
  rewrite (bind_ok _ _ _ _ _ (info_run c m' f r Href)). simpl fref.
  destruct (Z.eqb_spec r 1) as [? | _]; [contradiction|].
  do 2 apply bind_panic. apply copy_user_page_panics; auto. destruct Hn; [auto|]. right. unfold room. lia.
Qed.

(** [copy_page] with any set [m] of temporary windows in use. *)
Lemma copy_page_spec (c : pg) (m : slots) (cur addr flags tab pte f r : Z) (ws tws : list Z) :
  high_ok c -> slots_ok m -> frames_ok c -> in_u32 addr -> user_mapping c cur addr tab pte f r ->
  c.(ram) !! frame_addr c f = Some ws -> c.(ram) !! tab = Some tws ->
  if bool_decide (~ room m \/ r <> 1 /\ (c.(frame_pool) = [] \/ (1013 <= size m)%nat))
  then copy_page addr flags (view c m) = Panic
  else exists c' pte' g,
    copy_page addr flags (view c m) = Ok (0, view c' m) /\ high_ok c' /\ frames_ok c' /\
    user_mapping c' cur addr tab pte' g 1 /\ c'.(ram) !! frame_addr c' g = Some ws /\
    (has flags VM_WRITE = true -> has pte' PE_RW = true) /\
    (r = 1 /\ g = f \/ r <> 1 /\ ref_of c g 0 /\ ref_of c' f (r - 1)) /\
    (forall h q, h <> f -> h <> g -> ref_of c' h q <-> ref_of c h q) /\
    c'.(ram) !! tab = Some (<[Z.to_nat (addr_to_pti addr) := pte']> tws) /\
    (forall a, a <> tab -> a <> frame_addr c g \/ g = f -> c'.(ram) !! a = c.(ram) !! a).
Proof.
  intros Hh Hm Hf Ha U Hws Htws. case_bool_decide as Hn.
  { eapply copy_page_panics; eauto. }
  assert (room m) as Hroom by (unfold room; destruct (decide (size m < 1014)%nat); [assumption | destruct Hn; left; assumption]).
  pose proof U as [Hcur Hwalk Hpres Hfr Href Hpos (Ht1 & Ht2 & Ht3) Hfh Hused Hlen].
  destruct (Z.eq_dec r 1) as [-> | Hr1].
  - rewrite (copy_page_owned c m cur addr flags tab pte f tws) by auto.
    destruct (pte_lor_attr pte flags Hpres) as [Hp' Ha'].
    eexists _, (Z.lor pte (vma_to_page_flags flags)), f. split; [reflexivity|]. split_and!.
    + apply high_ok_set_frame; auto.
    + apply frames_ok_set_frame; auto. rewrite length_insert. auto.
    + apply (user_mapping_store c cur addr tab pte); auto. rewrite Ha'. exact Hfr.
    + simpl. rewrite lookup_insert_ne; auto.
    + apply writable_attr.
    + auto.
    + reflexivity.
    + apply lookup_insert_eq.
    + intros a Hat _. simpl. rewrite lookup_insert_ne; auto.
  - destruct (frame_pool c) as [| g rest] eqn:Hp; [destruct Hn; auto|].
    assert (size m < 1013)%nat as Hsz by (destruct (decide (size m < 1013)%nat); [assumption | destruct Hn; right; split; [exact Hr1 | right; lia]]).
    rewrite (copy_page_shared c m cur addr flags tab pte f r g rest ws tws) by auto.
    set (pte' := Z.lor (Z.lor (frame_addr c g) PE_P) (vma_to_page_flags flags)).
    assert (length ws = 1024%nat) as Hl by (destruct (frame_words c f r Hf Href) as (? & ? & ?); congruence).
    destruct (cow_state_fields c cur addr tab pte pte' f r g flags rest ws tws) as
      (Hh' & Hf' & Ea & Et & Eg & Er & Eref); auto.
    destruct (take_frame_ok c g flags rest Hh Hf Hp) as (Hg0 & Hgh & _).
    destruct (new_pte c g 0 flags Hf Hg0) as [Hpp Hpa].
    eexists _, pte', g. split; [reflexivity|]. split_and!; auto.
    + eapply (user_mapping_new c _ cur addr tab pte pte' f r g tws); eauto. apply take_frame_fields.
    + rewrite Ea. exact Eg.
    + apply writable_attr.
    + right. split_and!; auto. apply Eref. auto.
    + intros h q H1 H2. rewrite Eref. intuition congruence.
    + intros a Hat [Hag | ->]; [auto|]. pose proof (ref_of_fun _ _ _ _ Href Hg0). lia.
Qed.

(** C11: [copy_page] on a present user page, with any set [m] of temporary windows
    in use.  It panics exactly when it runs out: no window is free for the page
    table, or the page is shared and no frame or no second window is free.
    Otherwise the page is afterwards mapped by a present entry, writable if the
    flags allow writing, to a frame with exactly one reference that holds the old
    contents.  If the old frame was shared, that is a frame taken from the pool and
    the old one loses one reference; the frames of other mappings, the rest of the
    page table, all other memory and the windows keep their contents, and the frame
    table stays consistent. *)
Theorem copy_page_correct (c : pg) (m : slots) (cur addr flags tab pte f r : Z) (ws tws : list Z) :
  high_ok c -> slots_ok m -> frames_ok c -> in_u32 addr -> user_mapping c cur addr tab pte f r ->
  c.(ram) !! frame_addr c f = Some ws -> c.(ram) !! tab = Some tws ->
  if bool_decide (~ room m \/ r <> 1 /\ (c.(frame_pool) = [] \/ (1013 <= size m)%nat))
  then copy_page addr flags (view c m) = Panic
  else exists c' pte' g,
    copy_page addr flags (view c m) = Ok (0, view c' m) /\ high_ok c' /\ frames_ok c' /\
    user_mapping c' cur addr tab pte' g 1 /\ c'.(ram) !! frame_addr c' g = Some ws /\
    (has flags VM_WRITE = true -> has pte' PE_RW = true) /\
    (r = 1 /\ g = f \/ r <> 1 /\ ref_of c g 0 /\ ref_of c' f (r - 1)) /\
    (forall h q, h <> f -> h <> g -> ref_of c' h q <-> ref_of c h q) /\
    c'.(ram) !! tab = Some (<[Z.to_nat (addr_to_pti addr) := pte']> tws) /\
    (forall a, a <> tab -> a <> frame_addr c g \/ g = f -> c'.(ram) !! a = c.(ram) !! a).
Proof. apply copy_page_spec. Qed.

(** A machine with six frames from 8 MB: a directory, the table of the windows,
    a page table, a page shared by two address spaces, and two free frames. *)
Definition page_with (l : list (nat * Z)) : list Z :=
  foldr (fun x ws => <[x.1 := x.2]> ws) zero_page l.

Definition data_page : list Z := page_with [(0%nat, 42); (7%nat, 7)].

Definition pg_example : pg := {|
  ram := list_to_map [
    (8388608, page_with [(0%nat, Z.lor 8396800 7); (1023%nat, high_pte 8392704)]);
    (8392704, page_with [(1022%nat, high_pte 8392704); (1023%nat, high_pte 8388608)]);
    (8396800, page_with [(5%nat, Z.lor 8400896 5)]);
    (8400896, data_page); (8404992, zero_page); (8409088, zero_page)];
  frame_table := [PfInfo 8388608 1; PfInfo 8392704 1; PfInfo 8396800 1; PfInfo 8400896 2;
                  PfInfo 8404992 0; PfInfo 8409088 0];
  frame_pool := [4; 5];
  fp_start := 8388608;
  first_free := 791552;
  hightab := 8392704;
  kernel_pgdir := zero_page;
  husk_list := [];
  husks := 0;
  pgdirs := [8388608];
|}.

Lemma pg_example_ref (f r : Z) :
  ref_of pg_example f r ->
  f = 0 /\ r = 1 \/ f = 1 /\ r = 1 \/ f = 2 /\ r = 1 \/ f = 3 /\ r = 2 \/ f = 4 /\ r = 0 \/ f = 5 /\ r = 0.
Proof.
  intros [Hf Hl]. pose proof (lookup_lt_Some _ _ _ Hl) as Hlt. simpl in Hlt.
  assert (f = 0 \/ f = 1 \/ f = 2 \/ f = 3 \/ f = 4 \/ f = 5) as Hcases by lia.
  destruct_or! Hcases; subst f; vm_compute in Hl; injection Hl as <-; lia.
Qed.

Lemma pg_example_high : high_ok pg_example.
Proof.
  split; [cbv; split; congruence|]. split; [reflexivity|].
  exists (<[1022%nat := high_pte 8392704]> (<[1023%nat := high_pte 8388608]> zero_page)).
  split_and!; [reflexivity.. |]. intros j Hj.
  rewrite !list_lookup_insert_ne by lia. apply lookup_replicate. lia.
Qed.

Lemma pg_example_frames : frames_ok pg_example.
Proof.
  split.
  - cbv; split_and!; congruence.
  - intros f i Hf Hl. pose proof (lookup_lt_Some _ _ _ Hl) as Hlt. simpl in Hlt.
    assert (f = 0 \/ f = 1 \/ f = 2 \/ f = 3 \/ f = 4 \/ f = 5) as Hcases by lia.
    destruct_or! Hcases; subst f; injection Hl as <-;
      (split; [reflexivity|]; split; [cbv; split; congruence|]; eexists; split; reflexivity).
  - repeat constructor; set_solver.
  - intros f. split.
    + intros Hin. simpl in Hin. rewrite !elem_of_cons in Hin.
      destruct Hin as [-> | [-> | Hin]]; [split; [lia | reflexivity].. | set_solver].
    + intros Hr. apply pg_example_ref in Hr. simpl. rewrite !elem_of_cons. lia.
  - intros f Hr. apply pg_example_ref in Hr. unfold frame_addr. simpl. lia.
Qed.

Lemma pg_example_mapping : user_mapping pg_example 8388608 20484 8396800 (Z.lor 8400896 5) 3 2.
Proof.
  split; try reflexivity; try lia.
  - split; [cbv; split; congruence|]. split_and!; [reflexivity | discriminate |]. eexists. split; reflexivity.
  - eexists _, _, _. split_and!; reflexivity.
  - split; [lia | reflexivity].
  - split_and!; [discriminate.. |]. vm_compute. discriminate.
  - vm_compute. discriminate.
  - intros g Hr. apply pg_example_ref in Hr. unfold frame_addr. simpl. lia.
  - intros ws [= <-]. reflexivity.
Qed.

(** One window is left over from an earlier call. *)
Definition left_over : slots := {[7 := high_pte 8404992]}.

Lemma left_over_ok : slots_ok left_over.
Proof. unfold left_over. intros j w H. apply lookup_singleton_Some in H as [<- <-]. split; [lia | reflexivity]. Qed.

Lemma copy_page_correct_witness :
  exists c' pte' g, copy_page 20484 6 (view pg_example left_over) = Ok (0, view c' left_over) /\
    user_mapping c' 8388608 20484 8396800 pte' g 1 /\ c'.(ram) !! frame_addr c' g = Some data_page /\
    has pte' PE_RW = true.
Proof.
  pose proof (copy_page_correct pg_example left_over 8388608 20484 6 8396800 (Z.lor 8400896 5) 3 2 data_page
              (page_with [(5%nat, Z.lor 8400896 5)]) pg_example_high left_over_ok pg_example_frames
              ltac:(cbv; split; congruence) pg_example_mapping eq_refl eq_refl) as H.
  rewrite bool_decide_eq_false_2 in H by (intros [Hr | [_ [Hp | Hs]]]; [apply Hr; vm_compute; lia | discriminate | vm_compute in Hs; lia]).
  destruct H as (c' & pte' & g & E & _ & _ & U & Hw & Hrw & _).
  exists c', pte', g. split; [exact E|]. split; [exact U|]. split; [exact Hw|]. apply Hrw. reflexivity.
Defined.

(** ** Copies to and from another address space *)

(** An address space with one area, whose page is the shared one of the example. *)
Definition copy_mm : mm_struct := MM 8388608 [Vma 1 20480 24576 6 0 0] 0.

Lemma vm_copy_unmapped (mm : mm_struct) (s : pg) (addr len : Z) (src : list Z) :
  vma_get mm addr = None ->
  vm_copy_from mm addr len s = Ok ((- EFAULT, []), s) /\ vm_copy_to mm addr src s = Ok (- EFAULT, s).
Proof. intros H. unfold vm_copy_from, vm_copy_to. rewrite H. split; reflexivity. Qed.

(** What [vm_copy_to] stores is what [vm_copy_from] reads.  The page is changed in
    place although it belongs to two address spaces. *)
Lemma vm_copy_roundtrip :
  match vm_copy_to copy_mm 20486 [1; 2; 255; 4; 5] pg_example with
  | Ok (r, s) =>
      r = 0 /\ s.(frame_table) = pg_example.(frame_table) /\
      (take 4 <$> s.(ram) !! 8400896) = Some [42; 513 * 65536; 255 + 256 * (4 + 256 * 5); 0] /\
      match vm_copy_from copy_mm 20485 7 s with
      | Ok (r, _) => r = (0, [0; 1; 2; 255; 4; 5; 0])
      | _ => False
      end
  | _ => False
  end.
Proof. vm_compute. auto. Qed.
