(* ===== verification/Demand.v ===== *)
(** * Demand paging (kernel/paging.c)

    What a page fault needs of the page tables: [map_page] on an address whose page,
    or whose page table, is not present, and [copy_page] on a page that is.  Both
    leave the address mapped to a frame of its own, and every other translation of
    the address space and every other frame in use as they were ([remapped]). *)

From S2P Require Import Prelude Bitops Abi Addr Vma Paging.

(** The page table [tab] of the current address space holds the entry [pte] for
    [addr].  No frame of the pool is one of the tables. *)
Record table_at (s : pg) (cur addr tab pte : Z) : Prop := {
  ta_current : current_ok s cur;
  ta_walk : walk s cur addr tab pte;
  ta_tab : tab <> s.(hightab) /\ tab <> cur;
  ta_used g : ref_of s g 0 -> frame_addr s g <> tab /\ frame_addr s g <> cur;
  ta_length ws : s.(ram) !! tab = Some ws -> length ws = 1024%nat;
}.

(** The directory of the current address space has no page table for [addr]. *)
Record no_table (s : pg) (cur addr : Z) : Prop := {
  nt_current : current_ok s cur;
  nt_entry : exists dws pde, s.(ram) !! cur = Some dws /\ length dws = 1024%nat /\
    dws !! Z.to_nat (addr_to_pdi addr) = Some pde /\ present pde = false;
  nt_used g : ref_of s g 0 -> frame_addr s g <> cur;
}.

(** The page of [addr] is not present. *)
Definition page_absent (s : pg) (cur addr : Z) : Prop :=
  no_table s cur addr \/ exists tab pte, table_at s cur addr tab pte /\ present pte = false.

(** From [c] to [c'], the address [addr] has been mapped by the entry [pte] of the
    table [tab] to the frame [g], which has no other reference.  The other
    translations and the contents of the other frames in use are the same. *)
Record remapped (c c' : pg) (cur addr tab pte g : Z) : Prop := {
  re_high : high_ok c';
  re_frames : frames_ok c';
  re_mapping : user_mapping c' cur addr tab pte g 1;
  re_walk b t w : walk c cur b t w -> t <> cur -> (forall h, ref_of c h 0 -> frame_addr c h <> t) ->
    ~ (t = tab /\ addr_to_pti b = addr_to_pti addr) -> walk c' cur b t w;
  re_ram h q : ref_of c h q -> 1 <= q -> frame_addr c h <> cur -> frame_addr c h <> tab ->
    c'.(ram) !! frame_addr c h = c.(ram) !! frame_addr c h;
}.

(** ** Entries *)

Lemma attr_bits (a flags : Z) :
  a mod 4096 = 0 ->
  let w := Z.lor (Z.lor a PE_P) (vma_to_page_flags flags) in
  has w PE_RW = has flags VM_WRITE /\ has w PE_U = has flags VM_READ.
Proof.
  intros Ha w. unfold w. rewrite <- Z.lor_assoc.
  assert (0 <= Z.lor PE_P (vma_to_page_flags flags) < 4096) as Hr
    by (unfold vma_to_page_flags; destruct (has flags VM_READ), (has flags VM_WRITE); cbv; split; congruence).
  assert (forall x, x = 2 \/ x = 4 -> Z.land a x = 0) as Hz.
  { intros x Hx. replace x with (Z.land 4095 x) by (destruct Hx; subst; reflexivity).
    rewrite Z.land_assoc, land_4095, Ha. reflexivity. }
  unfold has at 1 3. rewrite !Z.land_lor_distr_l, !Hz by auto. unfold vma_to_page_flags.
  destruct (has flags VM_READ), (has flags VM_WRITE); auto.
Qed.

(** ** A page whose table is present *)

(** The state after [map_frame] on a frame of the pool. *)
Lemma map_frame_run (c : pg) (m : slots) (cur addr flags tab pte g r : Z) (tws : list Z) :
  high_ok c -> slots_ok m -> room m -> frames_ok c -> in_u32 addr -> table_at c cur addr tab pte ->
  c.(ram) !! tab = Some tws -> ref_of c g r ->
  map_frame g addr flags (view c m) =
    Ok (0, view (set_frame c tab (<[Z.to_nat (addr_to_pti addr) :=
                   Z.lor (Z.lor (frame_addr c g) PE_P) (vma_to_page_flags flags)]> tws)) m).
Proof.
  intros Hh Hm Hr Hf Ha [Hcur Hwalk [Ht1 Ht2] Hused Hlen] Htws Hg.
  pose proof Hwalk as (_ & pde & tws' & _ & _ & _ & Hpde & Htw' & Hpte).
  rewrite Htws in Htw'. injection Htw' as <-.
  destruct (pte_addr_ok pde) as [Hta Htal]. rewrite Hpde in Hta, Htal.
  unfold map_frame. rewrite (umap_page_table_run c m cur addr tab pte) by auto.
  apply kmap_run; auto. intros p m' Ho. pose proof Ho as (Hw & Hm' & _).
  rewrite (bind_ok _ _ _ _ _ (info_run c m' g r Hg)). simpl faddr.
  assert (0 <= addr_to_pti addr < 1024) as Hpti by (rewrite addr_to_pti_eq; lia).
  erewrite bind_ok by (eapply (window_store c m' p tab); eauto; apply lookup_lt_Some in Hpte; lia).
  erewrite bind_ok by (eapply kunmap_run; [apply high_ok_set_frame; [exact Ht1 | exact Hh] | exact Ho]).
  reflexivity.
Qed.

Lemma table_at_take (c : pg) (cur addr tab pte g flags : Z) (rest : list Z) :
  high_ok c -> frames_ok c -> c.(frame_pool) = g :: rest -> table_at c cur addr tab pte ->
  table_at (take_frame c g rest flags) cur addr tab pte.
Proof.
  intros Hh Hf Hp [Hcur Hwalk Ht Hused Hlen].
  destruct (take_frame_ok c g flags rest Hh Hf Hp) as (Hg0 & Hgh & _). destruct (Hused g Hg0) as [Hgt Hgc].
  destruct (take_frame_fields c g flags rest) as (Eh & _ & _ & _ & _ & _ & _ & _ & Er & _).
  split; rewrite ?Eh; auto.
  - apply (current_ok_ext c); [exact Eh | apply Er; auto | exact Hcur].
  - apply (walk_ext c); [apply Er; auto.. | exact Hwalk].
  - intros h Hh0. apply (take_frame_ref c g flags 0 rest) in Hh0; [|exact Hg0]. rewrite take_frame_addr.
    destruct Hh0 as [[_ ?] | [_ ?]]; [lia | auto].
  - intros ws. rewrite Er by auto. apply Hlen.
Qed.

(** Storing the entry of a frame with one reference that no table uses. *)
Lemma user_mapping_fill (c : pg) (cur addr tab pte pte' g : Z) (tws : list Z) :
  table_at c cur addr tab pte -> c.(ram) !! tab = Some tws -> ref_of c g 1 ->
  frame_addr c g <> tab -> frame_addr c g <> c.(hightab) ->
  present pte' = true -> pte_addr pte' = frame_addr c g ->
  user_mapping (set_frame c tab (<[Z.to_nat (addr_to_pti addr) := pte']> tws)) cur addr tab pte' g 1.
Proof.
  intros [Hcur Hwalk [Ht1 Ht2] Hused Hlen] Htws Hg Hgt Hgh Hp Ha. split; auto; try lia.
  - apply (current_ok_ext c); [reflexivity | | exact Hcur]. simpl. rewrite lookup_insert_ne; auto.
  - eapply walk_store; eauto.
  - simpl. intros ws. rewrite lookup_insert_eq. intros [= <-]. rewrite length_insert. auto.
Qed.

(** The other translations through a table in which one entry was stored. *)
Lemma walk_other (c c' : pg) (cur addr tab pte' b t w : Z) (tws : list Z) :
  walk c cur b t w -> c.(ram) !! tab = Some tws ->
  c'.(ram) !! tab = Some (<[Z.to_nat (addr_to_pti addr) := pte']> tws) ->
  ~ (t = tab /\ addr_to_pti b = addr_to_pti addr) ->
  c'.(ram) !! cur = c.(ram) !! cur -> (t <> tab -> c'.(ram) !! t = c.(ram) !! t) -> walk c' cur b t w.
Proof.
  intros (dws & pde & ws & Hd & Hpde & Hpp & Hpa & Ht & Hw) Htws Htws' Hne Ec Et.
  exists dws, pde. rewrite Ec. destruct (Z.eq_dec t tab) as [-> | Htt].
  - exists (<[Z.to_nat (addr_to_pti addr) := pte']> tws). rewrite Htws in Ht. injection Ht as <-.
    split_and!; auto. rewrite list_lookup_insert_ne; [exact Hw|]. intros E. apply Hne. split; [reflexivity|].
    rewrite !addr_to_pti_eq in *. lia.
  - exists ws. rewrite (Et Htt). split_and!; auto.
Qed.

(** What is kept between two states: the translations through tables in use, and the
    contents of the frames in use, except the directory. *)
Record kept (c c' : pg) (cur : Z) : Prop := {
  ke_walk b t w : walk c cur b t w -> t <> cur -> (forall h, ref_of c h 0 -> frame_addr c h <> t) -> walk c' cur b t w;
  ke_ram h q : ref_of c h q -> 1 <= q -> frame_addr c h <> cur -> c'.(ram) !! frame_addr c h = c.(ram) !! frame_addr c h;
}.

Lemma kept_take (c : pg) (cur g flags : Z) (rest : list Z) :
  ref_of c g 0 -> frame_addr c g <> cur -> kept c (take_frame c g rest flags) cur.
Proof.
  intros Hg0 Hgc. destruct (take_frame_fields c g flags rest) as (_ & _ & _ & _ & _ & _ & _ & _ & Er & _). split.
  - intros b t w Hw Htc Hfree. apply (walk_ext c); [apply Er; auto.. | exact Hw]. intros ->. exact (Hfree g Hg0 eq_refl).
  - intros h q Hq Hpos _. apply Er. intros E%frame_addr_inj. subst. pose proof (ref_of_fun _ _ _ _ Hq Hg0). lia.
Qed.

(** Storing the entry of a frame with one reference. *)
Lemma remapped_fill (c c1 : pg) (cur addr tab pte pte' g : Z) (tws : list Z) :
  kept c c1 cur -> high_ok c1 -> frames_ok c1 -> table_at c1 cur addr tab pte -> c1.(ram) !! tab = Some tws ->
  ref_of c1 g 1 -> frame_addr c1 g <> tab -> frame_addr c1 g <> c1.(hightab) ->
  present pte' = true -> pte_addr pte' = frame_addr c1 g ->
  remapped c (set_frame c1 tab (<[Z.to_nat (addr_to_pti addr) := pte']> tws)) cur addr tab pte' g.
Proof.
  intros K Hh Hf T Htws Hg Hgt Hgh Hpp Hpa. pose proof (ta_tab _ _ _ _ _ T) as [Ht1 Ht2]. split.
  - apply high_ok_set_frame; auto.
  - apply frames_ok_set_frame; [exact Hf | rewrite length_insert; eapply ta_length; eauto].
  - eapply user_mapping_fill; eauto.
  - intros b t w Hw Htc Hfree Hne. pose proof (ke_walk _ _ _ K b t w Hw Htc Hfree) as Hw1.
    eapply (walk_other c1); eauto; cbn; [apply lookup_insert_eq | rewrite lookup_insert_ne; auto |].
    intros Htt. rewrite lookup_insert_ne; auto.
  - intros h q Hq Hpos Hhc Hht. cbn. rewrite lookup_insert_ne by auto. eapply ke_ram; eauto.
Qed.

(** [map_frame] with the table present, from a state that keeps those of [c]. *)
Lemma map_frame_remaps (c c1 : pg) (m : slots) (cur addr flags tab pte g : Z) :
  kept c c1 cur -> high_ok c1 -> frames_ok c1 -> slots_ok m -> room m -> in_u32 addr -> table_at c1 cur addr tab pte ->
  ref_of c1 g 1 -> frame_addr c1 g <> tab -> frame_addr c1 g <> c1.(hightab) ->
  let pte' := Z.lor (Z.lor (frame_addr c1 g) PE_P) (vma_to_page_flags flags) in
  exists c', map_frame g addr flags (view c1 m) = Ok (0, view c' m) /\ remapped c c' cur addr tab pte' g /\
    frame_addr c' g = frame_addr c1 g /\ c'.(ram) !! frame_addr c1 g = c1.(ram) !! frame_addr c1 g.
Proof.
  intros K Hh Hf Hm Hr Ha T Hg Hgt Hgh pte'. pose proof (ta_walk _ _ _ _ _ T) as (_ & _ & tws & _ & _ & _ & _ & Htws & _).
  destruct (new_pte c1 g 1 flags Hf Hg) as [Hpp Hpa].
  eexists. split; [eapply map_frame_run; eauto|]. split_and!.
  - eapply remapped_fill; eauto.
  - reflexivity.
  - cbn. apply lookup_insert_ne. auto.
Qed.

(** ** A page whose table is missing *)

(** The directory entry [umap_page_table] makes for a new table. *)
Definition table_pde (a : Z) : Z := Z.lor (Z.lor (Z.lor a PE_P) PE_RW) PE_U.

Lemma table_pde_make (a : Z) :
  in_u32 a -> a mod 4096 = 0 -> present (table_pde a) = true /\ pte_addr (table_pde a) = a.
Proof.
  intros Ha Hal. unfold table_pde. rewrite <- !Z.lor_assoc.
  destruct (pte_make a (Z.lor PE_P (Z.lor PE_RW PE_U)) Ha Hal) as (E1 & E2 & _); [cbv; split; congruence|].
  rewrite E1, E2. auto.
Qed.

(** The address space after a new table, in frame [h], has been entered. *)
Definition with_table (c : pg) (cur addr h : Z) (rest dws : list Z) : pg :=
  set_frame (take_frame c h rest VM_ZERO) cur (<[Z.to_nat (addr_to_pdi addr) := table_pde (frame_addr c h)]> dws).

Lemma with_table_ok (c : pg) (cur addr h : Z) (rest dws : list Z) :
  high_ok c -> frames_ok c -> in_u32 addr -> no_table c cur addr -> c.(frame_pool) = h :: rest -> c.(ram) !! cur = Some dws ->
  let c' := with_table c cur addr h rest dws in
  high_ok c' /\ frames_ok c' /\ table_at c' cur addr (frame_addr c h) 0 /\ c'.(frame_pool) = rest /\
  frame_addr c' = frame_addr c /\
  (forall g q, g <> h -> ref_of c' g q <-> ref_of c g q) /\
  (forall a, a <> cur -> a <> frame_addr c h -> c'.(ram) !! a = c.(ram) !! a).
Proof.
  intros Hh Hf Ha [Hcur (dws' & pde & Hd & Hl & Hpde & Hpp) Hused] Hp Hdws c'. rewrite Hdws in Hd. injection Hd as <-.
  destruct (take_frame_ok c h VM_ZERO rest Hh Hf Hp) as (Hg0 & Hgh & Hh1 & Hf1).
  destruct (take_frame_fields c h VM_ZERO rest) as (Eh & Es & Ep & _ & _ & _ & _ & _ & Er & Ez). specialize (Ez eq_refl).
  pose proof (Hused h Hg0) as Hhc. pose proof Hcur as (_ & _ & Hch & _).
  destruct (ref_of_bound c h 0 Hf Hg0) as (_ & Hha & _).
  destruct (table_pde_make (frame_addr c h) Hha (frame_addr_aligned c h Hf)) as [Hpp' Hpa'].
  assert (frame_addr c' = frame_addr c) as Ea by (unfold frame_addr; cbn; rewrite Es; reflexivity).
  assert (forall g q, ref_of c' g q <-> g = h /\ q = 1 \/ g <> h /\ ref_of c g q) as Eref
    by (intros g q; apply (take_frame_ref c h VM_ZERO 0 rest g q Hg0)).
  assert (forall a, a <> cur -> a <> frame_addr c h -> c'.(ram) !! a = c.(ram) !! a) as Er'
    by (intros a H1 H2; cbn; rewrite lookup_insert_ne by auto; apply Er, H2).
  assert (c'.(ram) !! frame_addr c h = Some zero_page) as Et by (cbn; rewrite lookup_insert_ne by auto; exact Ez).
  split_and!; auto.
  - apply high_ok_set_frame; [congruence | exact Hh1].
  - apply frames_ok_set_frame; [exact Hf1 | rewrite length_insert; exact Hl].
  - split.
    + apply (current_ok_ext c); [exact Eh | apply Er'; congruence | exact Hcur].
    + eexists _, _, zero_page. split_and!; [apply lookup_insert_eq | | exact Hpp' | exact Hpa' | exact Et |].
      * apply list_lookup_insert_eq. apply lookup_lt_Some in Hpde. exact Hpde.
      * apply lookup_replicate. rewrite addr_to_pti_eq. lia.
    + cbn. rewrite Eh. auto.
    + intros g Hg. apply Eref in Hg as [[_ ?] | [Hgh' Hg]]; [lia|]. rewrite Ea. split; [|auto].
      intros E%frame_addr_inj. contradiction.
    + intros ws. rewrite Et. intros [= <-]. reflexivity.
  - intros g q Hne. rewrite Eref. intuition congruence.
Qed.

(** [umap_page_table] enters a new table and maps it into a window. *)
Lemma umap_page_table_new {A : Type} (c : pg) (m : slots) (cur addr h : Z) (rest dws : list Z) (K : Z -> ST pg A) :
  high_ok c -> frames_ok c -> slots_ok m -> room m -> in_u32 addr -> no_table c cur addr ->
  c.(frame_pool) = h :: rest -> c.(ram) !! cur = Some dws ->
  (p ← umap_page_table current_pgdir addr; K p) (view c m) =
  (p ← kmap_tmp_page (frame_addr c h); K p) (view (with_table c cur addr h rest dws) m).
Proof.
  intros Hh Hf Hm Hr Ha Hn Hp Hdws. pose proof Hn as [Hcur (dws' & pde & Hd & Hl & Hpde & Hpp) Hused].
  rewrite Hdws in Hd. injection Hd as <-.
  destruct (take_frame_ok c h VM_ZERO rest Hh Hf Hp) as (Hg0 & Hgh & Hh1 & Hf1).
  destruct (take_frame_fields c h VM_ZERO rest) as (Eh & _ & _ & _ & _ & _ & _ & _ & Er & _).
  pose proof (Hused h Hg0) as Hhc.
  assert (ref_of (take_frame c h rest VM_ZERO) h 1) as Hg1 by (apply (take_frame_ref c h VM_ZERO 0 rest); auto).
  assert (current_ok (take_frame c h rest VM_ZERO) cur) as Hcur1
    by (apply (current_ok_ext c); [exact Eh | apply Er; auto | exact Hcur]).
  destruct (ref_of_bound c h 0 Hf Hg0) as (_ & Hha & _).
  destruct (table_pde_make (frame_addr c h) Hha (frame_addr_aligned c h Hf)) as [Hpp' Hpa'].
  destruct (with_table_ok c cur addr h rest dws Hh Hf Ha Hn Hp Hdws) as (_ & _ & [Hcur2 _ _ _ _] & _).
  pose proof (addr_to_pdi_nonneg addr) as Hi.
  assert (Z.to_nat (addr_to_pdi addr) < length dws)%nat as Hlt by (apply lookup_lt_Some in Hpde; exact Hpde).
  unfold umap_page_table. cbv zeta. unfold mbind at 1, st_bind at 1.
  rewrite (bind_ok _ _ _ _ _ (current_load c m cur _ _ _ Hm Hcur Hdws Hi Hpde)), Hpp.
  erewrite bind_ok.
  2: { rewrite (bind_ok _ _ _ _ _ (kalloc_frame_run c m h VM_ZERO rest Hh Hf Hm Hr Hp)).
       rewrite (bind_ok _ _ _ _ _ (info_run _ m h 1 Hg1)). simpl faddr. rewrite take_frame_addr.
       apply (current_store _ m cur _ _ dws Hm Hcur1); [rewrite Er by auto; exact Hdws | lia]. }
  cbv beta. fold (with_table c cur addr h rest dws).
  erewrite bind_ok.
  2: { eapply (current_load (with_table c cur addr h rest dws) m cur _ (table_pde (frame_addr c h)) _ Hm Hcur2); [apply lookup_insert_eq | exact Hi |].
       apply list_lookup_insert_eq, Hlt. }
  rewrite Hpa'. reflexivity.
Qed.

Lemma kept_with_table (c : pg) (cur addr h : Z) (rest dws : list Z) :
  high_ok c -> frames_ok c -> in_u32 addr -> no_table c cur addr -> c.(frame_pool) = h :: rest -> c.(ram) !! cur = Some dws ->
  kept c (with_table c cur addr h rest dws) cur.
Proof.
  intros Hh Hf Ha Hn Hp Hdws. destruct (with_table_ok c cur addr h rest dws Hh Hf Ha Hn Hp Hdws) as (_ & _ & _ & _ & _ & _ & Er).
  destruct (take_frame_ok c h VM_ZERO rest Hh Hf Hp) as (Hg0 & _).
  destruct Hn as [_ (dws' & pde & Hd & _ & Hpde & Hpp) _]. rewrite Hdws in Hd. injection Hd as <-. split.
  - intros b t w (ds & e & ws & Hds & He & Hpe & Hpa & Ht & Hw) Htc Hfree. rewrite Hdws in Hds. injection Hds as <-.
    eexists _, e, ws. split_and!; auto; [apply lookup_insert_eq | |].
    + rewrite list_lookup_insert_ne; [exact He|]. intros E. rewrite <- E in He. congruence.
    + rewrite Er; auto. intros ->. exact (Hfree h Hg0 eq_refl).
  - intros f q Hq Hpos Hfc. apply Er; [exact Hfc|]. intros E%frame_addr_inj. subst. pose proof (ref_of_fun _ _ _ _ Hq Hg0). lia.
Qed.

Lemma kept_trans (c c1 c2 : pg) (cur : Z) :
  kept c c1 cur -> kept c1 c2 cur -> frame_addr c1 = frame_addr c ->
  (forall h q, ref_of c h q -> 1 <= q -> ref_of c1 h q) -> (forall h, ref_of c1 h 0 -> ref_of c h 0) -> kept c c2 cur.
Proof.
  intros K1 K2 Ea Hr Hz. split.
  - intros b t w Hw Htc Hfree. apply (ke_walk _ _ _ K2); [apply (ke_walk _ _ _ K1); auto | exact Htc |].
    intros h Hh. rewrite Ea. apply Hfree, Hz, Hh.
  - intros h q Hq Hpos Hhc. rewrite <- (ke_ram _ _ _ K1 h q Hq Hpos Hhc). rewrite <- Ea.
    apply (ke_ram _ _ _ K2 h q); [auto | exact Hpos | rewrite Ea; exact Hhc].
Qed.

Lemma no_table_take (c : pg) (cur addr g flags : Z) (rest : list Z) :
  high_ok c -> frames_ok c -> c.(frame_pool) = g :: rest -> no_table c cur addr ->
  no_table (take_frame c g rest flags) cur addr.
Proof.
  intros Hh Hf Hp [Hcur (dws & pde & Hd & He) Hused].
  destruct (take_frame_ok c g flags rest Hh Hf Hp) as (Hg0 & Hgh & _). pose proof (Hused g Hg0) as Hgc.
  destruct (take_frame_fields c g flags rest) as (Eh & _ & _ & _ & _ & _ & _ & _ & Er & _). split.
  - apply (current_ok_ext c); [exact Eh | apply Er; auto | exact Hcur].
  - exists dws, pde. rewrite Er by auto. auto.
  - intros h Hh0. apply (take_frame_ref c g flags 0 rest) in Hh0; [|exact Hg0]. rewrite take_frame_addr.
    destruct Hh0 as [[_ ?] | [_ ?]]; [lia | auto].
Qed.

(** [map_page] on an absent page: the page is mapped to a frame of the pool with the
    permissions of the flags, and holds zeros if the flags ask for them. *)
Lemma map_page_absent (c : pg) (m : slots) (cur addr flags : Z) :
  high_ok c -> slots_ok m -> room m -> frames_ok c -> in_u32 addr -> page_absent c cur addr ->
  (2 <= length c.(frame_pool))%nat ->
  exists c' tab pte g, map_page addr flags (view c m) = Ok (0, view c' m) /\ remapped c c' cur addr tab pte g /\
    ref_of c g 0 /\ has pte PE_RW = has flags VM_WRITE /\ has pte PE_U = has flags VM_READ /\
    (has flags VM_ZERO = true -> c'.(ram) !! frame_addr c' g = Some zero_page).
Proof.
  intros Hh Hm Hr Hf Ha Habs Hlen. destruct c.(frame_pool) as [| g [| h rest]] eqn:Hp; [cbn in Hlen; lia.. |].
  destruct (take_frame_ok c g flags (h :: rest) Hh Hf Hp) as (Hg0 & Hgh & Hh1 & Hf1).
  destruct (take_frame_fields c g flags (h :: rest)) as (Eh & Es & Ep & _ & _ & _ & _ & _ & Er & Ez).
  assert (frame_addr c g mod 4096 = 0) as Hal by (apply frame_addr_aligned, Hf).
  set (c1 := take_frame c g (h :: rest) flags) in *.
  assert (frame_addr c1 = frame_addr c) as Ea by (unfold frame_addr; rewrite Es; reflexivity).
  assert (forall f q, ref_of c1 f q <-> f = g /\ q = 1 \/ f <> g /\ ref_of c f q) as Eref
    by (intros f q; apply (take_frame_ref c g flags 0 (h :: rest) f q Hg0)).
  assert (ref_of c1 g 1) as Hg1 by (apply Eref; auto).
  unfold map_page. rewrite (bind_ok _ _ _ _ _ (kalloc_frame_run c m g flags _ Hh Hf Hm Hr Hp)). fold c1.
  destruct Habs as [Hn | (tab & pte & T & Hpp)].
  - pose proof (nt_used _ _ _ Hn g Hg0) as Hgc. pose proof (no_table_take c cur addr g flags _ Hh Hf Hp Hn) as Hn1. fold c1 in Hn1.
    pose proof (nt_entry _ _ _ Hn1) as (dws & _ & Hdws & _).
    destruct (with_table_ok c1 cur addr h rest dws Hh1 Hf1 Ha Hn1 Ep Hdws) as (Hh2 & Hf2 & T & _ & Ea2 & Eref2 & Er2).
    pose proof (kept_with_table c1 cur addr h rest dws Hh1 Hf1 Ha Hn1 Ep Hdws) as K2.
    assert (ref_of c1 h 0) as Hh0 by (apply (take_frame_ok c1 h 0 rest Hh1 Hf1 Ep)).
    assert (h <> g) as Hhg by (intros ->; pose proof (ref_of_fun _ _ _ _ Hh0 Hg1); lia).
    destruct (map_frame_remaps c (with_table c1 cur addr h rest dws) m cur addr flags (frame_addr c1 h) 0 g) as (c' & E & R & Ea' & Eg); auto.
    + apply (kept_trans c c1); [apply kept_take; auto | exact K2 | exact Ea | |].
      * intros f q Hq Hpos. apply Eref. right. split; [|exact Hq]. intros ->. pose proof (ref_of_fun _ _ _ _ Hq Hg0). lia.
      * intros f Hf0. apply Eref in Hf0 as [[_ ?] | [_ ?]]; [lia | auto].
    + apply Eref2; auto.
    + rewrite Ea2. intros E%frame_addr_inj. auto.
    + rewrite Ea2, Ea. cbn. destruct (take_frame_fields c1 h VM_ZERO rest) as (-> & _). congruence.
    + rewrite Ea2, Ea in R, Ea', Eg. eexists c', _, _, g. split; [|split_and!; [exact R | exact Hg0 | apply attr_bits, Hal.. |]].
      * rewrite <- E. unfold map_frame. rewrite (umap_page_table_new c1 m cur addr h rest dws) by auto.
        symmetry. apply (umap_page_table_run _ m cur addr (frame_addr c1 h) 0); [exact Hm | apply T | apply T].
      * intros Hz. rewrite Ea', Eg, Er2; [apply Ez, Hz | exact Hgc | rewrite Ea; intros E'%frame_addr_inj; auto].
  - destruct (ta_used _ _ _ _ _ T g Hg0) as [Hgt Hgc].
    destruct (map_frame_remaps c c1 m cur addr flags tab pte g) as (c' & E & R & Ea' & Eg); auto.
    + apply kept_take; auto.
    + apply table_at_take; auto.
    + rewrite Ea. exact Hgt.
    + rewrite Ea, Eh. exact Hgh.
    + rewrite Ea in *. eexists c', tab, _, g. split; [exact E|]. split_and!; [exact R | exact Hg0 | apply attr_bits, Hal.. |].
      intros Hz. rewrite Ea', Eg. apply Ez, Hz.
Qed.

(** ** A page that is present *)

(** [copy_page] gives the page a frame of its own with the same contents. *)
Lemma copy_page_remaps (c : pg) (m : slots) (cur addr flags tab pte f r : Z) (ws : list Z) :
  high_ok c -> slots_ok m -> (size m < 1013)%nat -> frames_ok c -> in_u32 addr -> user_mapping c cur addr tab pte f r ->
  c.(frame_pool) <> [] -> c.(ram) !! frame_addr c f = Some ws ->
  exists c' pte' g, copy_page addr flags (view c m) = Ok (0, view c' m) /\ remapped c c' cur addr tab pte' g /\
    (has flags VM_WRITE = true -> has pte' PE_RW = true) /\ c'.(ram) !! frame_addr c' g = Some ws.
Proof.
  intros Hh Hm Hr Hf Ha U Hp Hws. pose proof (um_walk _ _ _ _ _ _ _ U) as (_ & _ & tws & _ & _ & _ & _ & Htws & _).
  pose proof (copy_page_spec c m cur addr flags tab pte f r ws tws Hh Hm Hf Ha U Hws Htws) as H.
  rewrite bool_decide_eq_false_2 in H by (unfold room; intros [Hx | [_ [Hx | Hx]]]; [lia | contradiction | lia]).
  destruct H as (c' & pte' & g & E & Hh' & Hf' & U' & Hw' & Hrw & Hg & Href & Htab & Hram).
  exists c', pte', g. split; [exact E|]. split_and!; [| exact Hrw | exact Hw'].
  destruct U as [Hcur Hwalk Hpres Hfr Hrf Hpos (Ht1 & Ht2 & Ht3) Hfh Hused Hlen].
  assert (forall a, a <> tab -> (forall h, ref_of c h 0 -> frame_addr c h <> a) -> c'.(ram) !! a = c.(ram) !! a) as Ham.
  { intros a Hat Hfree. apply Hram; [exact Hat|]. destruct Hg as [[_ ->] | (_ & Hg0 & _)]; [auto|]. left. intros ->. exact (Hfree g Hg0 eq_refl). }
  split; auto.
  - intros b t w Hw Htc Hfree Hne. eapply (walk_other c); eauto. apply Ham; [auto|]. intros h Hh0. apply Hused, Hh0.
  - intros h q Hq Hpos' _ Hht. apply Ham; [exact Hht|]. intros h0 Hh0 E'%frame_addr_inj. subst. pose proof (ref_of_fun _ _ _ _ Hq Hh0). lia.
Qed.

(** An area that can be written but not read: its page is mapped without user access,
    and [copy_page], the answer to the next write fault, changes nothing, so the
    faults go on. *)
Lemma write_only_faults_again :
  match map_page 24600 (Z.lor VM_WRITE VM_ZERO) pg_example with
  | Ok (r, s) =>
      r = 0 /\ (s.(ram) !! 8396800 ≫= lookup 6%nat) = Some (Z.lor 8404992 (Z.lor PE_P PE_RW)) /\
      copy_page 24600 (Z.lor VM_WRITE VM_ZERO) s = Ok (0, s)
  | _ => False
  end.
Proof. vm_compute. auto. Qed.
