(* ===== verification/Rtc.v ===== *)
(** * Wall clock (kernel/rtc.c, include/kernel/time.h)

    Reading the CMOS clock, converting its registers to [struct tm] and to
    seconds since the Epoch, compared with a calendar defined independently by
    counting the days of years and months. *)

From S2P Require Import Prelude.

(** ** The code *)

Record tm : Type := Tm {
  tm_sec : Z; tm_min : Z; tm_hour : Z; tm_mday : Z; tm_mon : Z; tm_year : Z;
  tm_yday : Z; tm_isdst : Z;
}.

(** [int] arithmetic that wraps, stored in an [unsigned long]. *)
Definition tm_to_unix (t : tm) : Z :=
  u32 (t.(tm_sec) + t.(tm_min) * 60 + t.(tm_hour) * 3600 + t.(tm_yday) * 86400
       + (t.(tm_year) - 70) * 31536000 + Z.quot (t.(tm_year) - 69) 4 * 86400
       - Z.quot (t.(tm_year) - 1) 100 * 86400 + Z.quot (t.(tm_year) + 299) 400 * 86400).

Definition RTCF_24HOUR : Z := 2.
Definition RTCF_BINARY : Z := 4.

(** The six date registers as one read of the clock returns them. *)
Definition rtc_read_date (second minute hour day month year : Z) : tm :=
  Tm second minute hour day month year 0 0.

Definition bcd_to_binary (t : tm) : tm :=
  let two v := Z.land v 15 + Z.quot v 16 * 10 in
  Tm (two t.(tm_sec)) (two t.(tm_min))
     (Z.lor (Z.land t.(tm_hour) 15 + Z.quot (Z.land t.(tm_hour) 112) 16 * 10)
            (Z.land t.(tm_hour) 128))
     (two t.(tm_mday)) (two t.(tm_mon)) (two t.(tm_year)) t.(tm_yday) t.(tm_isdst).

Definition rtc_date_equal (a b : tm) : bool :=
  (a.(tm_sec) =? b.(tm_sec)) && (a.(tm_min) =? b.(tm_min)) && (a.(tm_hour) =? b.(tm_hour))
  && (a.(tm_mday) =? b.(tm_mday)) && (a.(tm_mon) =? b.(tm_mon)) && (a.(tm_year) =? b.(tm_year)).

Definition days_by_month : list Z := [0; 31; 59; 90; 120; 151; 181; 212; 243; 273; 304; 334].

Definition rtc_to_posix (t : tm) : res tm :=
  let leap := if (Z.rem t.(tm_year) 4 =? 0) && negb (t.(tm_year) =? 0) && (2 <? t.(tm_mon))
              then 1 else 0 in
  let mday := t.(tm_mday) - 1 in
  do d <- aload days_by_month (t.(tm_mon) - 1);
  Ok (Tm t.(tm_sec) t.(tm_min) t.(tm_hour) mday t.(tm_mon) (t.(tm_year) + 100)
         (d + leap + mday) (-1)).

(** The reads the clock answers, in order: [rtc_date] keeps reading until two
    reads in a row agree.  [None] if the given reads are not enough. *)
Fixpoint rtc_settle (last : tm) (reads : list tm) : option tm :=
  match reads with
  | [] => None
  | date :: reads => if rtc_date_equal last date then Some date else rtc_settle date reads
  end.

Definition rtc_convert (status : Z) (date : tm) : res tm :=
  let date := if Z.land status RTCF_BINARY =? 0 then bcd_to_binary date else date in
  let h := date.(tm_hour) in
  let h := if (Z.land status RTCF_24HOUR =? 0) && negb (Z.land h 128 =? 0)
           then Z.rem (Z.land h 127 + 12) 24 else h in
  rtc_to_posix (Tm date.(tm_sec) date.(tm_min) h date.(tm_mday) date.(tm_mon) date.(tm_year)
                   date.(tm_yday) date.(tm_isdst)).

Definition rtc_date (reads : list tm) (status : Z) : option (res tm) :=
  match reads with
  | [] => None
  | date :: reads => rtc_convert status <$> rtc_settle date reads
  end.

(** The value stored in [system_clock]. *)
Definition clock_init (reads : list tm) (status : Z) : option (res Z) :=
  (fun r => do date <- r; Ok (tm_to_unix date)) <$> rtc_date reads status.

(** ** The calendar *)

Definition is_leap (y : Z) : bool :=
  (y mod 4 =? 0) && (negb (y mod 100 =? 0) || (y mod 400 =? 0)).

Definition days_in_month (y m : Z) : Z :=
  if m =? 2 then if is_leap y then 29 else 28
  else if (m =? 4) || (m =? 6) || (m =? 9) || (m =? 11) then 30 else 31.

Definition days_in_year (y : Z) : Z := if is_leap y then 366 else 365.

(** Days before year [1970 + n], and before the month after [n] months. *)
Fixpoint days_before_year (n : nat) : Z :=
  match n with
  | O => 0
  | S n => days_before_year n + days_in_year (1970 + Z.of_nat n)
  end.

Fixpoint days_before_month (y : Z) (n : nat) : Z :=
  match n with
  | O => 0
  | S n => days_before_month y n + days_in_month y (Z.of_nat n + 1)
  end.

(** Seconds from 1970-01-01 00:00:00 to the given date and time. *)
Definition unix_time (y mo d h mi s : Z) : Z :=
  (days_before_year (Z.to_nat (y - 1970)) + days_before_month y (Z.to_nat (mo - 1)) + (d - 1)) * 86400
  + h * 3600 + mi * 60 + s.

Definition date_valid (y mo d h mi s : Z) : Prop :=
  1 <= mo <= 12 /\ 1 <= d <= days_in_month y mo /\ 0 <= h < 24 /\ 0 <= mi < 60 /\ 0 <= s < 60.

(** ** Correctness *)

(** The registers of a clock in binary or BCD mode, with 24-hour time. *)
Definition bcd (v : Z) : Z := v / 10 * 16 + v mod 10.

Definition registers (binary : bool) (y mo d h mi s : Z) : tm :=
  if binary then rtc_read_date s mi h d mo y
  else rtc_read_date (bcd s) (bcd mi) (bcd h) (bcd d) (bcd mo) (bcd y).

Lemma forall_range (P : Z -> Prop) {HP : forall z, Decision (P z)} (lo : Z) (n : nat) :
  forallb (fun i => bool_decide (P i)) (zseq lo n) = true ->
  forall z, lo <= z < lo + Z.of_nat n -> P z.
Proof.
  intros H z Hz. rewrite forallb_forall in H. apply (bool_decide_eq_true_1 (P z)), H.
  apply in_map_iff. exists (Z.to_nat (z - lo)). split; [lia|]. apply in_seq. lia.
Qed.

Lemma bcd_two (v : Z) : 0 <= v < 100 -> Z.land (bcd v) 15 + Z.quot (bcd v) 16 * 10 = v.
Proof. revert v. apply (forall_range _ 0 100). vm_compute. reflexivity. Qed.

Lemma bcd_hour (v : Z) :
  0 <= v < 24 ->
  Z.lor (Z.land (bcd v) 15 + Z.quot (Z.land (bcd v) 112) 16 * 10) (Z.land (bcd v) 128) = v.
Proof. revert v. apply (forall_range _ 0 24). vm_compute. reflexivity. Qed.

Lemma days_in_month_le (y mo : Z) : days_in_month y mo <= 31.
Proof.
  unfold days_in_month. destruct (mo =? 2), (is_leap y), (mo =? 4), (mo =? 6), (mo =? 9), (mo =? 11);
    simpl; lia.
Qed.

(** The days since the Epoch the code counts for a month, and where they agree
    with the calendar. *)
Definition month_days (yy mo : Z) : Z :=
  default 0 (days_by_month !! Z.to_nat (mo - 1))
  + (if (Z.rem yy 4 =? 0) && negb (yy =? 0) && (2 <? mo) then 1 else 0)
  + (yy + 30) * 365 + Z.quot (yy + 31) 4 - Z.quot (yy + 99) 100 + Z.quot (yy + 399) 400.

Lemma month_days_correct (yy mo : Z) :
  1 <= yy <= 99 -> 1 <= mo <= 12 ->
  month_days yy mo =
  days_before_year (Z.to_nat (yy + 30)) + days_before_month (2000 + yy) (Z.to_nat (mo - 1)).
Proof.
  intros Hy Hm.
  assert (Forall (fun mo => month_days yy mo = days_before_year (Z.to_nat (yy + 30))
            + days_before_month (2000 + yy) (Z.to_nat (mo - 1))) (zseq 1 12)) as H.
  { revert yy Hy. enough (forall yy, 1 <= yy < 1 + Z.of_nat 99 -> Forall (fun mo =>
      month_days yy mo = days_before_year (Z.to_nat (yy + 30))
        + days_before_month (2000 + yy) (Z.to_nat (mo - 1))) (zseq 1 12)) as H
      by (intros yy Hy; apply H; lia).
    apply forall_range with (HP := fun _ => _). vm_compute. reflexivity. }
  rewrite Forall_forall in H. apply H. unfold zseq. apply list_elem_of_fmap.
  exists (Z.to_nat (mo - 1)). rewrite elem_of_seq. lia.
Qed.

(** C12: with a clock in 24-hour mode, binary or BCD, that answers the registers of
    a valid date between 2001 and 2099 twice in a row, [clock_init] stores the
    number of seconds since the Epoch of that date. *)
Theorem clock_init_correct (binary : bool) (yy mo d h mi s : Z) (reads : list tm) :
  1 <= yy <= 99 -> date_valid (2000 + yy) mo d h mi s ->
  let regs := registers binary yy mo d h mi s in
  let status := Z.lor RTCF_24HOUR (if binary then RTCF_BINARY else 0) in
  clock_init (regs :: regs :: reads) status = Some (Ok (u32 (unix_time (2000 + yy) mo d h mi s))).
Proof.
  intros Hy (Hmo & Hd & Hh & Hmi & Hs). cbv zeta. pose proof (days_in_month_le (2000 + yy) mo).
  assert (rtc_convert (Z.lor RTCF_24HOUR (if binary then RTCF_BINARY else 0))
            (registers binary yy mo d h mi s) = rtc_to_posix (rtc_read_date s mi h d mo yy)) as E.
  { unfold rtc_convert, registers. destruct binary; simpl; unfold bcd_to_binary; simpl; [reflexivity|].
    rewrite !bcd_two, bcd_hour by lia. reflexivity. }
  unfold clock_init, rtc_date. simpl. unfold rtc_date_equal. rewrite !Z.eqb_refl. simpl. rewrite E.
  unfold rtc_to_posix. simpl. destruct (aload_lt days_by_month (mo - 1)) as [dm Hdm]; [simpl; lia|].
  rewrite Hdm. simpl. do 3 f_equal. unfold unix_time.
  pose proof (month_days_correct yy mo Hy Hmo) as Hc. unfold month_days in Hc.
  apply aload_ok in Hdm as [_ Hdm]. rewrite Hdm in Hc. simpl in Hc.
  replace (2000 + yy - 1970) with (yy + 30) by lia. rewrite <- Hc.
  unfold tm_to_unix. f_equal. cbn [tm_sec tm_min tm_hour tm_yday tm_year].
  replace (yy + 100 - 69) with (yy + 31) by lia. replace (yy + 100 - 1) with (yy + 99) by lia.
  replace (yy + 100 + 299) with (yy + 399) by lia.
  destruct ((Z.rem yy 4 =? 0) && _ && _); lia.
Qed.

Lemma clock_init_correct_witness :
  clock_init [registers false 24 2 29 23 59 58; registers false 24 2 29 23 59 58] 2
    = Some (Ok (u32 (unix_time 2024 2 29 23 59 58))) /\
  unix_time 2024 2 29 23 59 58 = 1709251198.
Proof.
  split; [|reflexivity]. apply (clock_init_correct false 24 2 29 23 59 58 []); [lia|].
  vm_compute. split_and!; congruence.
Defined.

(** In 12-hour mode noon is read as midnight and midnight as noon. *)
Lemma rtc_twelve_hours :
  clock_init [Tm 0 0 (128 + 18) 1 1 1 0 0; Tm 0 0 (128 + 18) 1 1 1 0 0] 0
    = Some (Ok (unix_time 2001 1 1 0 0 0)) /\
  clock_init [Tm 0 0 18 1 1 1 0 0; Tm 0 0 18 1 1 1 0 0] 0 = Some (Ok (unix_time 2001 1 1 12 0 0)).
Proof. split; reflexivity. Qed.

(** From March to December 2000 the clock is a day behind. *)
Lemma rtc_year_2000 :
  clock_init [registers true 0 3 1 0 0 0; registers true 0 3 1 0 0 0] 6
    = Some (Ok (unix_time 2000 3 1 0 0 0 - 86400)).
Proof. reflexivity. Qed.
