(* ===== verification/Timer.v ===== *)
(** * Kernel timers (kernel/timer.c, include/kernel/timer.h)

    Timers live at addresses; [active] is the list [timers] of the armed ones,
    kept by the code in order of the tick at which they expire.  Inserting a
    timer that is already linked, or unlinking one that is not, breaks the
    circular list and is a [Fault].  The callbacks run on a state [X] that does
    not include the timers: none of the kernel's callbacks uses them. *)

From Stdlib Require Import Sorted.
From stdpp Require Import sorting.
From S2P Require Import Prelude.

(** ** Data *)

Definition TF_ALWAYS : Z := 1.
Definition TF_STATIC : Z := 2.
Definition TF_ARMED : Z := 4.

Record timer : Type := Timer {
  t_action : Z;
  t_data : Z;
  t_expires : Z;
  t_flags : Z;
}.

Abbreviation tmemory := (gmap Z timer).

Record timers : Type := Timers {
  tmem : tmemory;
  active : list Z;
  tick_count : Z;
}.

Definition tget (s : timers) (p : Z) : res timer :=
  match s.(tmem) !! p with
  | Some t => Ok t
  | None => Fault
  end.

Definition tput (s : timers) (p : Z) (t : timer) : timers :=
  Timers (<[p := t]> s.(tmem)) s.(active) s.(tick_count).

Definition set_active (s : timers) (l : list Z) : timers := Timers s.(tmem) l s.(tick_count).

Definition expires_of (m : tmemory) (p : Z) : Z :=
  match m !! p with
  | Some t => t.(t_expires)
  | None => 0
  end.

(** ** Operations *)

Definition ktimer_init (s : timers) (dst act data flags : Z) : timers :=
  let e := expires_of s.(tmem) dst in
  tput s dst (Timer act data e (Z.land flags (~% TF_ARMED))).

(** [list_del]. *)
Definition unlink (p : Z) (l : list Z) : res (list Z) :=
  if bool_decide (p ∈ l) then Ok (List.filter (fun q => negb (q =? p)) l) else Fault.

(** The forward loop of [ktimer_start]: in front of the first timer that expires
    later, at the end if there is none. *)
Fixpoint insert_forward (m : tmemory) (p e : Z) (l : list Z) : list Z :=
  match l with
  | [] => [p]
  | t :: l' => if e <? expires_of m t then p :: t :: l' else t :: insert_forward m p e l'
  end.

(** The backward loop for an expiry that wrapped around: [r] are the timers not
    seen yet, last one first, and [seen] the ones behind them. *)
Fixpoint insert_backward (m : tmemory) (p e now : Z) (r seen : list Z) : list Z :=
  match r with
  | [] => seen ++ [p]
  | t :: r' =>
      if now <? expires_of m t then rev r' ++ t :: p :: seen
      else if e <? expires_of m t then rev r' ++ p :: t :: seen
      else insert_backward m p e now r' (t :: seen)
  end.

Definition ktimer_start (s : timers) (p ticks : Z) : res (Z * timers) :=
  do t <- tget s p;
  let e := s.(tick_count) +% ticks in
  let s := tput s p (Timer t.(t_action) t.(t_data) e (Z.lor t.(t_flags) TF_ARMED)) in
  if bool_decide (p ∈ s.(active)) then Fault
  else if e <? s.(tick_count)
  then Ok (0, set_active s (insert_backward s.(tmem) p e s.(tick_count) (rev s.(active)) []))
  else Ok (0, set_active s (insert_forward s.(tmem) p e s.(active))).

Definition ktimer_remove (s : timers) (p : Z) : res (Z * timers) :=
  do l <- unlink p s.(active);
  do t <- tget s p;
  Ok (t.(t_expires) -% s.(tick_count), set_active s l).

Section callbacks.

(** [act a d x]: calling the function at [a] with argument [d]. *)
Context {X : Type} (act : Z -> Z -> X -> res X).

(** The address given to [free_timer] is that of a local variable, which no slab
    holds, so nothing is freed. *)
Definition ktimer_destroy (s : timers) (p : Z) (x : X) : res (Z * timers * X) :=
  do t <- tget s p;
  let now := s.(tick_count) in
  do x <- (if negb (Z.land t.(t_flags) TF_ARMED =? 0) && negb (Z.land t.(t_flags) TF_ALWAYS =? 0)
              && (now <? t.(t_expires))
           then act t.(t_action) t.(t_data) x else Ok x);
  do l <- unlink p s.(active);
  Ok (if t.(t_expires) <=? now then 0 else t.(t_expires) -% now, set_active s l, x).

Fixpoint tick_loop (l : list Z) (s : timers) (x : X) : res (timers * X) :=
  match l with
  | [] => Ok (s, x)
  | p :: l =>
      do t <- tget s p;
      if s.(tick_count) <? t.(t_expires) then Ok (s, x)
      else
        let s := tput s p (Timer t.(t_action) t.(t_data) t.(t_expires)
                                 (Z.land t.(t_flags) (~% TF_ARMED))) in
        do x <- act t.(t_action) t.(t_data) x;
        do ' (_, s, x) <- ktimer_destroy s p x;
        tick_loop l s x
  end.

Definition ktimers_tick (s : timers) (x : X) : res (timers * X) :=
  if bool_decide (s.(active) = []) then Ok (s, x) else tick_loop s.(active) s x.

End callbacks.

(** ** Invariant *)

(** The list is in order of expiry, without repetition, and its timers exist and
    are marked. *)
Definition timers_ok (s : timers) : Prop :=
  NoDup s.(active) /\
  StronglySorted (fun p q => expires_of s.(tmem) p <= expires_of s.(tmem) q) s.(active) /\
  forall p, p ∈ s.(active) -> exists t, s.(tmem) !! p = Some t /\ Z.land t.(t_flags) TF_ARMED <> 0.

Lemma armed_lor (f : Z) : Z.land (Z.lor f TF_ARMED) TF_ARMED <> 0.
Proof.
  intros E. assert (Z.testbit (Z.land (Z.lor f TF_ARMED) TF_ARMED) 2 = true) as H.
  { rewrite Z.land_spec, Z.lor_spec. change (Z.testbit TF_ARMED 2) with true.
    rewrite orb_true_r. reflexivity. }
  rewrite E, Z.bits_0 in H. discriminate.
Qed.

Lemma expires_of_insert_ne (m : tmemory) (p q : Z) (t : timer) :
  p <> q -> expires_of (<[p := t]> m) q = expires_of m q.
Proof. intros H. unfold expires_of. rewrite lookup_insert_ne; auto. Qed.

Lemma expires_of_insert_eq (m : tmemory) (p : Z) (t : timer) :
  expires_of (<[p := t]> m) p = t.(t_expires).
Proof. unfold expires_of. rewrite lookup_insert_eq. reflexivity. Qed.

Lemma insert_forward_perm (m : tmemory) (p e : Z) (l : list Z) :
  insert_forward m p e l ≡ₚ p :: l.
Proof.
  induction l as [| t l IH]; simpl; [reflexivity|].
  destruct (e <? expires_of m t); [reflexivity|]. rewrite IH. apply Permutation_swap.
Qed.

(** The new timer goes behind those that expire no later. *)
Lemma insert_forward_split (m : tmemory) (p e : Z) (l : list Z) :
  StronglySorted (fun p q => expires_of m p <= expires_of m q) l ->
  exists l1 l2, l = l1 ++ l2 /\ insert_forward m p e l = l1 ++ p :: l2 /\
    Forall (fun q => expires_of m q <= e) l1 /\ Forall (fun q => e < expires_of m q) l2.
Proof.
  induction l as [| t l IH]; intros Hs; simpl.
  - exists [], []. auto.
  - inversion Hs as [| ? ? Hs' Ht]; subst. destruct (Z.ltb_spec e (expires_of m t)).
    + exists [], (t :: l). split_and!; [auto.. |]. constructor; [lia|].
      eapply Forall_impl; [exact Ht|]. simpl. lia.
    + destruct (IH Hs') as (l1 & l2 & -> & -> & H1 & H2).
      exists (t :: l1), l2. split_and!; [auto.. | constructor; auto with lia | auto].
Qed.

Lemma StronglySorted_ext {A : Type} (R R' : A -> A -> Prop) (l : list A) :
  (forall a b, a ∈ l -> b ∈ l -> R a b -> R' a b) -> StronglySorted R l -> StronglySorted R' l.
Proof.
  intros H. induction 1 as [| a l Hs IH Hf]; constructor.
  - apply IH. intros x y Hx Hy. apply H; set_solver.
  - rewrite Forall_forall in *. intros x Hx. apply H; [set_solver.. | auto].
Qed.

Lemma start_ok (s : timers) (p e : Z) (t : timer) :
  timers_ok s -> p ∉ s.(active) -> t.(t_expires) = e -> Z.land t.(t_flags) TF_ARMED <> 0 ->
  timers_ok (set_active (tput s p t) (insert_forward (tput s p t).(tmem) p e s.(active))).
Proof.
  intros (Hnd & Hs & Hm) Hp He Hf. simpl.
  assert (forall q, q ∈ s.(active) -> expires_of (<[p := t]> (tmem s)) q = expires_of (tmem s) q) as Hq.
  { intros q Hq. apply expires_of_insert_ne. congruence. }
  assert (StronglySorted (fun a b => expires_of (<[p := t]> (tmem s)) a <=
            expires_of (<[p := t]> (tmem s)) b) (active s)) as Hs'.
  { eapply StronglySorted_ext; [|exact Hs]. simpl. intros a b Ha Hb. rewrite !Hq; auto. }
  pose proof (insert_forward_perm (<[p := t]> (tmem s)) p e (active s)) as Hperm.
  split_and!; simpl.
  - rewrite Hperm. apply NoDup_cons. auto.
  - destruct (insert_forward_split (<[p := t]> (tmem s)) p e (active s) Hs')
      as (l1 & l2 & E & -> & H1 & H2). rewrite E in Hs'.
    rewrite Forall_forall in H1, H2. apply StronglySorted_app in Hs' as (Hc & Ha & Hb).
    apply StronglySorted_app. split_and!; auto.
    + intros x y Hx Hy. apply elem_of_cons in Hy as [-> | Hy]; [|auto].
      rewrite expires_of_insert_eq, He. apply H1, Hx.
    + constructor; [exact Hb|]. apply Forall_forall. intros y Hy.
      rewrite expires_of_insert_eq, He. apply H2 in Hy. lia.
  - intros q Hq'. rewrite Hperm in Hq'. destruct (decide (q = p)) as [-> | Hne].
    + exists t. rewrite lookup_insert_eq. auto.
    + apply elem_of_cons in Hq' as [? | Hq']; [contradiction|].
      rewrite lookup_insert_ne by auto. auto.
Qed.

(** ** Starting a timer *)

Lemma start_spec (s : timers) (p ticks : Z) (t : timer) :
  timers_ok s -> s.(tmem) !! p = Some t -> p ∉ s.(active) ->
  0 <= ticks -> 0 <= s.(tick_count) -> s.(tick_count) + ticks < 2 ^ 32 ->
  exists s', ktimer_start s p ticks = Ok (0, s') /\ timers_ok s' /\
    s'.(active) ≡ₚ p :: s.(active) /\ expires_of s'.(tmem) p = s.(tick_count) + ticks /\
    s'.(tick_count) = s.(tick_count) /\
    (forall q, q <> p -> s'.(tmem) !! q = s.(tmem) !! q).
Proof.
  intros Hok Ht Hp H0 Hn Hw. unfold ktimer_start, tget. rewrite Ht. simpl.
  rewrite uN_id by lia. rewrite (bool_decide_eq_false_2 _ Hp).
  destruct (Z.ltb_spec (tick_count s + ticks) (tick_count s)); [lia|].
  set (t' := Timer (t_action t) (t_data t) (tick_count s + ticks) (Z.lor (t_flags t) TF_ARMED)).
  eexists. split; [reflexivity|]. simpl.
  split_and!; [| apply insert_forward_perm | apply expires_of_insert_eq | reflexivity
               | intros q Hq; apply lookup_insert_ne; auto].
  apply start_ok; [exact Hok | exact Hp | reflexivity | apply armed_lor].
Qed.

(** Starting a timer that is not linked, with an expiry that does not wrap
    around, marks it armed, sets its expiry, and links it so that the list
    stays in order of expiry; no other timer changes. *)
Theorem ktimer_start_correct (s : timers) (p ticks : Z) (t : timer) :
  timers_ok s -> s.(tmem) !! p = Some t -> p ∉ s.(active) ->
  0 <= ticks -> 0 <= s.(tick_count) -> s.(tick_count) + ticks < 2 ^ 32 ->
  exists s', ktimer_start s p ticks = Ok (0, s') /\ timers_ok s' /\
    s'.(active) ≡ₚ p :: s.(active) /\ expires_of s'.(tmem) p = s.(tick_count) + ticks /\
    s'.(tick_count) = s.(tick_count) /\
    (forall q, q <> p -> s'.(tmem) !! q = s.(tmem) !! q).
Proof. apply start_spec. Qed.

Lemma ktimer_start_correct_witness :
  exists s', ktimer_start (Timers {[64 := Timer 1 2 0 2; 96 := Timer 3 4 8 6]} [96] 5) 64 2 = Ok (0, s') /\
    s'.(active) = [64; 96] /\ expires_of s'.(tmem) 64 = 7.
Proof.
  destruct (ktimer_start_correct (Timers {[64 := Timer 1 2 0 2; 96 := Timer 3 4 8 6]} [96] 5) 64 2
    (Timer 1 2 0 2)) as (s' & E & _); try reflexivity; try (simpl; lia).
  - split_and!.
    + repeat constructor; set_solver.
    + repeat constructor.
    + intros p Hp. apply list_elem_of_singleton in Hp as ->. eexists. split; [reflexivity | discriminate].
  - simpl. set_solver.
  - exists s'. split; [exact E|]. vm_compute in E. injection E as <-. split; reflexivity.
Defined.

(** ** The timer interrupt *)

Lemma disarm_clear (f : Z) : Z.land (Z.land f (~% TF_ARMED)) TF_ARMED = 0.
Proof. rewrite <- Z.land_assoc. change (Z.land (~% TF_ARMED) TF_ARMED) with 0. apply Z.land_0_r. Qed.

Section tick.

Context {X : Type} (act : Z -> Z -> X -> res X).

Definition expired (s : timers) : list Z :=
  List.filter (fun p => expires_of s.(tmem) p <=? s.(tick_count)) s.(active).

Definition remaining (s : timers) : list Z :=
  List.filter (fun p => s.(tick_count) <? expires_of s.(tmem) p) s.(active).

Definition disarm (m : tmemory) (p : Z) : tmemory :=
  alter (fun t => Timer t.(t_action) t.(t_data) t.(t_expires) (Z.land t.(t_flags) (~% TF_ARMED))) p m.

(** The callbacks of the timers [ps], called in order. *)
Fixpoint run_actions (m : tmemory) (ps : list Z) (x : X) : res X :=
  match ps with
  | [] => Ok x
  | p :: ps =>
      match m !! p with
      | Some t => do x <- act t.(t_action) t.(t_data) x; run_actions m ps x
      | None => Fault
      end
  end.

Lemma run_actions_disarm (m : tmemory) (p : Z) (ps : list Z) (x : X) :
  run_actions (disarm m p) ps x = run_actions m ps x.
Proof.
  revert x. induction ps as [| q ps IH]; intros x; simpl; [reflexivity|]. unfold disarm at 1.
  rewrite lookup_alter. case_decide as Hd; [subst q|];
    destruct (m !! _) as [t|]; simpl; try reflexivity;
    (destruct (act _ _ x); simpl; [apply IH | reflexivity..]).
Qed.

Lemma expires_of_disarm (m : tmemory) (p q : Z) : expires_of (disarm m p) q = expires_of m q.
Proof.
  unfold expires_of, disarm. rewrite lookup_alter. case_decide as Hd; [subst|]; destruct (m !! _); reflexivity.
Qed.

(** Removing the first timer of the list. *)
Lemma timers_ok_tail (s : timers) (p : Z) (l : list Z) :
  timers_ok s -> s.(active) = p :: l ->
  timers_ok (Timers (disarm s.(tmem) p) l s.(tick_count)).
Proof.
  intros (Hnd & Hs & Hm) E. rewrite E in *. apply NoDup_cons in Hnd as [Hp Hnd].
  inversion Hs as [| ? ? Hs' _]; subst. split_and!; simpl; auto.
  - eapply StronglySorted_ext; [|exact Hs']. simpl. intros a b _ _. rewrite !expires_of_disarm. auto.
  - intros q Hq. destruct (Hm q) as (t & Ht & Hf); [set_solver|]. exists t. split; [|exact Hf].
    unfold disarm. rewrite lookup_alter_ne; [exact Ht|]. congruence.
Qed.

Lemma filter_none {A : Type} (f : A -> bool) (l : list A) :
  (forall a, a ∈ l -> f a = false) -> List.filter f l = [].
Proof.
  induction l as [| a l IH]; intros H; simpl; [reflexivity|].
  rewrite (H a) by set_solver. apply IH. set_solver.
Qed.

Lemma filter_all {A : Type} (f : A -> bool) (l : list A) :
  (forall a, a ∈ l -> f a = true) -> List.filter f l = l.
Proof.
  induction l as [| a l IH]; intros H; simpl; [reflexivity|].
  rewrite (H a) by set_solver. f_equal. apply IH. set_solver.
Qed.

Lemma destroy_fired (s : timers) (p : Z) (l : list Z) (t : timer) (x : X) :
  NoDup (p :: l) -> s.(active) = p :: l -> s.(tmem) !! p = Some t ->
  Z.land t.(t_flags) TF_ARMED = 0 -> t.(t_expires) <= s.(tick_count) ->
  ktimer_destroy act s p x = Ok (0, Timers s.(tmem) l s.(tick_count), x).
Proof.
  intros Hnd Ha Ht Hf He. unfold ktimer_destroy, tget, unlink. rewrite Ht. simpl. rewrite Hf, Ha. simpl.
  rewrite (bool_decide_eq_true_2 (p ∈ p :: l)) by set_solver. simpl. rewrite Z.eqb_refl. simpl.
  apply NoDup_cons in Hnd as [Hp _].
  rewrite filter_all by (intros a Hin; apply negb_true_iff, Z.eqb_neq; congruence).
  destruct (Z.leb_spec (t_expires t) (tick_count s)); [reflexivity | lia].
Qed.

Lemma tick_loop_spec (l : list Z) (s : timers) (x : X) :
  timers_ok s -> s.(active) = l ->
  tick_loop act l s x =
  do x' <- run_actions s.(tmem) (expired s) x;
  Ok (Timers (foldl disarm s.(tmem) (expired s)) (remaining s) s.(tick_count), x').
Proof.
  revert s x. induction l as [| p l IH]; intros s x Hok E.
  - unfold expired, remaining. rewrite E. simpl. destruct s; simpl in *; subst. reflexivity.
  - pose proof Hok as (Hnd & Hs & Hm). rewrite E in Hnd, Hs, Hm.
    destruct (Hm p) as (t & Ht & Hf); [set_solver|].
    assert (expires_of (tmem s) p = t_expires t) as He by (unfold expires_of; rewrite Ht; reflexivity).
    inversion Hs as [| ? ? Hs' Hge]; subst. rewrite Forall_forall in Hge.
    simpl. unfold tget. rewrite Ht. simpl. unfold expired, remaining. rewrite E.
    destruct (Z.ltb_spec (tick_count s) (t_expires t)).
    + rewrite filter_none, filter_all; [destruct s; simpl in *; subst; reflexivity | |];
        intros q Hq; (assert (expires_of (tmem s) p <= expires_of (tmem s) q)
          by (apply elem_of_cons in Hq as [-> | Hq]; [lia | auto])); lia.
    + simpl. rewrite He. destruct (Z.leb_spec (t_expires t) (tick_count s)); [|lia].
      destruct (Z.ltb_spec (tick_count s) (t_expires t)); [lia|]. simpl. rewrite Ht. simpl.
      destruct (act (t_action t) (t_data t) x) as [x1 | |]; simpl; [|reflexivity..].
      assert (<[p := Timer (t_action t) (t_data t) (t_expires t) (Z.land (t_flags t) (~% TF_ARMED))]> (tmem s)
              = disarm (tmem s) p) as Ed.
      { apply map_eq. intros q. unfold disarm. rewrite lookup_insert, lookup_alter.
        case_decide; [subst; rewrite Ht; reflexivity | reflexivity]. }
      erewrite destroy_fired; [| exact Hnd | exact E | simpl; apply lookup_insert_eq | apply disarm_clear | simpl; lia].
      simpl. rewrite Ed, (IH _ _ (timers_ok_tail s p l Hok E)) by reflexivity.
      unfold expired, remaining. simpl. rewrite run_actions_disarm.
      rewrite (filter_ext (fun q => expires_of (disarm (tmem s) p) q <=? tick_count s)
                 (fun q => expires_of (tmem s) q <=? tick_count s))
        by (intros; rewrite expires_of_disarm; reflexivity).
      rewrite (filter_ext (fun q => tick_count s <? expires_of (disarm (tmem s) p) q)
                 (fun q => tick_count s <? expires_of (tmem s) q))
        by (intros; rewrite expires_of_disarm; reflexivity).
      reflexivity.
Qed.

End tick.

Lemma elem_of_lfilter {A : Type} (f : A -> bool) (l : list A) (a : A) :
  a ∈ List.filter f l <-> a ∈ l /\ f a = true.
Proof. rewrite !list_elem_of_In. apply filter_In. Qed.

Lemma StronglySorted_filter {A : Type} (R : A -> A -> Prop) (f : A -> bool) (l : list A) :
  StronglySorted R l -> StronglySorted R (List.filter f l).
Proof.
  induction 1 as [| a l Hs IH Hf]; simpl; [constructor|]. destruct (f a); [|exact IH].
  constructor; [exact IH|]. rewrite Forall_forall in *. intros b Hb.
  apply elem_of_lfilter in Hb as [Hb _]. auto.
Qed.

Lemma expires_of_disarms (ps : list Z) (m : tmemory) (q : Z) :
  expires_of (foldl disarm m ps) q = expires_of m q.
Proof.
  revert m. induction ps as [| p ps IH]; intros m; simpl; [reflexivity|].
  rewrite IH. apply expires_of_disarm.
Qed.

Lemma disarms_ne (ps : list Z) (m : tmemory) (q : Z) :
  q ∉ ps -> foldl disarm m ps !! q = m !! q.
Proof.
  revert m. induction ps as [| p ps IH]; intros m Hq; simpl; [reflexivity|].
  rewrite IH by set_solver. unfold disarm. apply lookup_alter_ne. set_solver.
Qed.

Lemma tick_ok (s : timers) :
  timers_ok s -> timers_ok (Timers (foldl disarm s.(tmem) (expired s)) (remaining s) s.(tick_count)).
Proof.
  intros (Hnd & Hs & Hm). split_and!; simpl.
  - apply NoDup_ListNoDup, List.NoDup_filter, NoDup_ListNoDup, Hnd.
  - apply (StronglySorted_ext (fun p q => expires_of (tmem s) p <= expires_of (tmem s) q)).
    + intros a b _ _. rewrite !expires_of_disarms. auto.
    + apply StronglySorted_filter, Hs.
  - intros p Hp. apply elem_of_lfilter in Hp as [Hp Hlt]. rewrite disarms_ne; [auto|].
    intros Hex. apply elem_of_lfilter in Hex as [_ Hle]. lia.
Qed.

Lemma ktimers_tick_spec {X : Type} (act : Z -> Z -> X -> res X) (s : timers) (x : X) :
  timers_ok s ->
  let s' := Timers (foldl disarm s.(tmem) (expired s)) (remaining s) s.(tick_count) in
  ktimers_tick act s x = (do x' <- run_actions act s.(tmem) (expired s) x; Ok (s', x')) /\
  timers_ok s'.
Proof.
  intros Hok s'. split; [|apply tick_ok; exact Hok].
  unfold ktimers_tick. destruct (decide (active s = [])) as [E | E].
  - rewrite (bool_decide_eq_true_2 _ E). subst s'. unfold expired, remaining. rewrite E.
    destruct s; simpl in *; subst; reflexivity.
  - rewrite (bool_decide_eq_false_2 _ E). apply tick_loop_spec; auto.
Qed.

(** On a timer interrupt the callbacks of exactly the timers whose expiry has
    been reached run, once each and in order of expiry; those timers are
    unlinked and marked not armed, and the others stay linked in order. *)
Theorem ktimers_tick_correct {X : Type} (act : Z -> Z -> X -> res X) (s : timers) (x : X) :
  timers_ok s ->
  let s' := Timers (foldl disarm s.(tmem) (expired s)) (remaining s) s.(tick_count) in
  ktimers_tick act s x = (do x' <- run_actions act s.(tmem) (expired s) x; Ok (s', x')) /\
  timers_ok s' /\
  StronglySorted (fun p q => expires_of s.(tmem) p <= expires_of s.(tmem) q) (expired s) /\
  NoDup (expired s) /\
  (forall p, p ∈ expired s <-> p ∈ s.(active) /\ expires_of s.(tmem) p <= s.(tick_count)) /\
  (forall p, p ∈ remaining s <-> p ∈ s.(active) /\ s.(tick_count) < expires_of s.(tmem) p).
Proof.
  intros Hok s'. destruct (ktimers_tick_spec act s x Hok) as [E Hok'].
  destruct Hok as (Hnd & Hs & Hm). split; [exact E|]. split; [exact Hok'|]. split_and!.
  - apply StronglySorted_filter, Hs.
  - apply NoDup_ListNoDup, List.NoDup_filter, NoDup_ListNoDup, Hnd.
  - intros p. unfold expired. rewrite elem_of_lfilter, Z.leb_le. reflexivity.
  - intros p. unfold remaining. rewrite elem_of_lfilter, Z.ltb_lt. reflexivity.
Qed.

Lemma ktimers_tick_correct_witness :
  let s := Timers {[64 := Timer 1 2 7 6; 96 := Timer 3 4 8 6; 32 := Timer 5 6 9 6]} [64; 96; 32] 8 in
  ktimers_tick (fun a d x => Ok (x ++ [(a, d)])) s [] =
    Ok (Timers {[64 := Timer 1 2 7 2; 96 := Timer 3 4 8 2; 32 := Timer 5 6 9 6]} [32] 8, [(1, 2); (3, 4)]).
Proof.
  intros s. destruct (ktimers_tick_correct (fun a d x => Ok (x ++ [(a, d)])) s []) as [E _].
  - split_and!.
    + apply (bool_decide_unpack (NoDup (active s))). vm_compute. exact I.
    + repeat constructor; vm_compute; congruence.
    + intros p Hp. simpl in Hp. rewrite !elem_of_cons in Hp.
      destruct Hp as [-> | [-> | [-> | Hp]]]; [eexists; split; [reflexivity | discriminate].. | set_solver].
  - rewrite E. reflexivity.
Defined.

(** ** A started timer fires on time *)

(** What the timer interrupt does to the timers. *)
Definition advance (s : timers) : timers := Timers s.(tmem) s.(active) (s.(tick_count) +% 1).

Fixpoint run_ticks {X : Type} (act : Z -> Z -> X -> res X) (k : nat) (s : timers) (x : X) : res (timers * X) :=
  match k with
  | O => Ok (s, x)
  | S k => do ' (s, x) <- run_ticks act k s x; ktimers_tick act (advance s) x
  end.

(** Callbacks that record which functions were called with which argument. *)
Definition record_call (a d : Z) (log : list (Z * Z)) : res (list (Z * Z)) := Ok (log ++ [(a, d)]).

(** The call that timer [p] asks for. *)
Definition call_of (m : tmemory) (p : Z) : Z * Z :=
  match m !! p with
  | Some t => (t.(t_action), t.(t_data))
  | None => (0, 0)
  end.

Lemma run_actions_record (m : tmemory) (ps : list Z) (log : list (Z * Z)) :
  (forall p, p ∈ ps -> is_Some (m !! p)) ->
  run_actions record_call m ps log = Ok (log ++ (call_of m <$> ps)).
Proof.
  revert log. induction ps as [| p ps IH]; intros log H; simpl; [rewrite app_nil_r; reflexivity|].
  unfold call_of at 1. destruct (H p) as [t ->]; [set_solver|]. unfold record_call at 1. simpl.
  rewrite IH by set_solver. rewrite <- app_assoc. reflexivity.
Qed.

Lemma call_of_disarms (ps : list Z) (m : tmemory) (q : Z) : call_of (foldl disarm m ps) q = call_of m q.
Proof.
  revert m. induction ps as [| p ps IH]; intros m; simpl; [reflexivity|]. rewrite IH.
  unfold call_of, disarm. rewrite lookup_alter. case_decide as Hd; [subst|]; destruct (m !! _); reflexivity.
Qed.

(** In a sorted list the elements up to a bound come before the others. *)
Lemma filter_sorted_split {A : Type} (f : A -> Z) (l : list A) (a b : Z) :
  StronglySorted (fun p q => f p <= f q) l -> a <= b ->
  List.filter (fun q => f q <=? a) l ++ List.filter (fun q => f q <=? b) (List.filter (fun q => a <? f q) l) =
  List.filter (fun q => f q <=? b) l.
Proof.
  intros Hs Hab. induction Hs as [| x l Hs IH Hx]; [reflexivity|]. simpl.
  destruct (Z.leb_spec (f x) a).
  - rewrite (proj2 (Z.ltb_ge a (f x))) by lia. rewrite (proj2 (Z.leb_le (f x) b)) by lia. simpl. f_equal. exact IH.
  - rewrite Forall_forall in Hx. rewrite (proj2 (Z.ltb_lt a (f x))) by lia. simpl.
    rewrite filter_none by (intros q Hq; apply Z.leb_gt; specialize (Hx q Hq); lia).
    rewrite (filter_all (fun q => a <? f q)) by (intros q Hq; apply Z.ltb_lt; specialize (Hx q Hq); lia). reflexivity.
Qed.

Definition disarmed (m : tmemory) (p : Z) : Prop := exists t, m !! p = Some t /\ Z.land t.(t_flags) TF_ARMED = 0.

Lemma disarms_stay (ps : list Z) (m : tmemory) (q : Z) : disarmed m q -> disarmed (foldl disarm m ps) q.
Proof.
  revert m. induction ps as [| p ps IH]; intros m (t & Ht & Hf); simpl; [exists t; auto|]. apply IH.
  unfold disarmed, disarm. rewrite lookup_alter. case_decide as Hd; [subst; rewrite Ht; simpl|]; eexists; split; eauto.
  apply disarm_clear.
Qed.

Lemma disarms_in (ps : list Z) (m : tmemory) (q : Z) : q ∈ ps -> is_Some (m !! q) -> disarmed (foldl disarm m ps) q.
Proof.
  revert m. induction ps as [| p ps IH]; intros m Hq [t Ht]; [set_solver|]. simpl.
  destruct (decide (p = q)) as [-> | Hne].
  - apply disarms_stay. unfold disarmed, disarm. rewrite lookup_alter_eq, Ht. simpl. eexists. split; [reflexivity | apply disarm_clear].
  - apply IH; [set_solver|]. unfold disarm. rewrite lookup_alter_ne by auto. eauto.
Qed.

(** The timers of [s] due by [now], and the others. *)
Definition due (s : timers) (now : Z) : list Z := List.filter (fun q => expires_of s.(tmem) q <=? now) s.(active).
Definition not_due (s : timers) (now : Z) : list Z := List.filter (fun q => now <? expires_of s.(tmem) q) s.(active).

(** After [k] interrupts the timers that were not due are still linked, and the
    others have been called, in order of expiry, unlinked and marked not armed. *)
Definition after_ticks (s s' : timers) (now : Z) : Prop :=
  timers_ok s' /\ s'.(tick_count) = now /\ s'.(active) = not_due s now /\
  (forall q, expires_of s'.(tmem) q = expires_of s.(tmem) q /\ call_of s'.(tmem) q = call_of s.(tmem) q) /\
  forall q, q ∈ due s now -> disarmed s'.(tmem) q.

Lemma tick_step (s s1 : timers) (now : Z) (log : list (Z * Z)) :
  timers_ok s -> after_ticks s s1 now -> 0 <= now -> now + 1 < 2 ^ 32 -> log = call_of s.(tmem) <$> due s now ->
  exists s2, ktimers_tick record_call (advance s1) log = Ok (s2, call_of s.(tmem) <$> due s (now + 1)) /\ after_ticks s s2 (now + 1).
Proof.
  intros Hok (Hok1 & Ht & Ha & Hsame & Hd) H0 H1 ->.
  destruct (ktimers_tick_spec record_call (advance s1) (call_of s.(tmem) <$> due s now) Hok1) as [E Hok2].
  assert (expired (advance s1) = List.filter (fun q => expires_of s.(tmem) q <=? now + 1) (not_due s now)) as Ee.
  { unfold expired. simpl. rewrite Ha, Ht, uN_id by lia. apply filter_ext. intros q. rewrite (proj1 (Hsame q)). reflexivity. }
  assert (due s (now + 1) = due s now ++ expired (advance s1)) as Edue.
  { rewrite Ee. symmetry. apply filter_sorted_split; [apply Hok | lia]. }
  assert (forall q, q ∈ expired (advance s1) -> is_Some (s1.(tmem) !! q)) as Hsome.
  { intros q Hq. apply elem_of_lfilter in Hq as [Hq _]. destruct (proj2 (proj2 Hok1) q Hq) as (t & Hq' & _). eauto. }
  rewrite E, run_actions_record by exact Hsome. simpl. rewrite uN_id by lia.
  eexists. split.
  { f_equal. f_equal. rewrite Edue, fmap_app. f_equal. apply list_fmap_ext. intros _ q _. apply Hsame. }
  split_and!; simpl in *; rewrite ?uN_id in * by lia.
  - exact Hok2.
  - lia.
  - unfold remaining. simpl. rewrite Ha, Ht, uN_id by lia. unfold not_due.
    rewrite (filter_ext _ (fun q => now + 1 <? expires_of (tmem s) q)) by (intros q; rewrite (proj1 (Hsame q)); reflexivity).
    induction (active s) as [| q l IH]; [reflexivity|]. simpl.
    destruct (Z.ltb_spec now (expires_of (tmem s) q)); simpl; rewrite IH; [reflexivity|].
    rewrite (proj2 (Z.ltb_ge (now + 1) _)) by lia. reflexivity.
  - intros q. rewrite expires_of_disarms, call_of_disarms. apply Hsame.
  - intros q Hq. rewrite Edue in Hq. apply elem_of_app in Hq as [Hq | Hq]; [apply disarms_stay, Hd, Hq | apply disarms_in; auto].
Qed.

Lemma run_ticks_spec (s : timers) (k : nat) (now := s.(tick_count) + Z.of_nat k) :
  timers_ok s -> 0 <= s.(tick_count) -> now < 2 ^ 32 ->
  (forall q, q ∈ s.(active) -> s.(tick_count) < expires_of s.(tmem) q) ->
  exists s', run_ticks record_call k s [] = Ok (s', call_of s.(tmem) <$> due s now) /\ after_ticks s s' now.
Proof.
  intros Hok H0. subst now. induction k as [| k IH]; intros Hw Hq.
  - rewrite Z.add_0_r. exists s. assert (due s s.(tick_count) = []) as E by (apply filter_none; intros q Hin; apply Z.leb_gt; auto).
    rewrite E. split; [reflexivity|]. split_and!; auto.
    + symmetry. apply filter_all. intros q Hin. apply Z.ltb_lt. auto.
    + rewrite E. set_solver.
  - destruct IH as (s1 & E1 & H1); [lia | exact Hq|]. cbn [run_ticks]. rewrite E1. simpl.
    destruct (tick_step s s1 (s.(tick_count) + Z.of_nat k) _ Hok H1 ltac:(lia) ltac:(lia) eq_refl) as (s2 & E2 & H2).
    replace (s.(tick_count) + Z.of_nat (S k)) with (s.(tick_count) + Z.of_nat k + 1) by lia. eauto.
Qed.

Lemma start_calls (s s1 : timers) (p n r q : Z) :
  ktimer_start s p n = Ok (r, s1) -> call_of s1.(tmem) q = call_of s.(tmem) q.
Proof.
  unfold ktimer_start, tget. destruct (s.(tmem) !! p) as [t |] eqn:Ht; [|discriminate]. simpl.
  destruct (bool_decide _); [discriminate|].
  intros H. assert (s1.(tmem) = <[p := Timer t.(t_action) t.(t_data) (s.(tick_count) +% n) (Z.lor t.(t_flags) TF_ARMED)]> s.(tmem)) as ->
    by (destruct (_ <? _); injection H as _ <-; reflexivity).
  unfold call_of. destruct (decide (p = q)) as [-> | Hne]; [rewrite lookup_insert_eq, Ht | rewrite lookup_insert_ne by auto]; reflexivity.
Qed.

Lemma lfilter_perm {A : Type} (f : A -> bool) (l l' : list A) : l ≡ₚ l' -> List.filter f l ≡ₚ List.filter f l'.
Proof.
  induction 1 as [| x l l' _ IH | x y l | l l' l'' _ IH1 _ IH2]; simpl; [reflexivity | | | etransitivity; eauto].
  - destruct (f x); [apply Permutation_cons|]; auto.
  - destruct (f x), (f y); [apply Permutation_swap | reflexivity..].
Qed.

Lemma lfilter_ext_in {A : Type} (f g : A -> bool) (l : list A) :
  (forall a, a ∈ l -> f a = g a) -> List.filter f l = List.filter g l.
Proof.
  induction l as [| a l IH]; intros H; simpl; [reflexivity|]. rewrite (H a) by set_solver.
  rewrite IH by set_solver. reflexivity.
Qed.

(** C13: start a timer with [n] ticks to go beside any others, none of them due, and
    let [k] timer interrupts happen, without wrap-around of the tick count.  The
    callbacks that have run are then exactly those of the timers whose time has
    come, once each, in order of expiry: that of the new timer has run if and only
    if [k] is at least [n].  These timers are unlinked and marked not armed, and the
    others are still linked. *)
Theorem timer_fires_on_time (s : timers) (p n : Z) (t : timer) (k : nat) (now := s.(tick_count) + Z.of_nat k)
    (when := fun q => if q =? p then s.(tick_count) + n else expires_of s.(tmem) q) :
  timers_ok s -> (forall q, q ∈ s.(active) -> s.(tick_count) < expires_of s.(tmem) q) ->
  s.(tmem) !! p = Some t -> p ∉ s.(active) ->
  0 <= s.(tick_count) -> 0 < n -> s.(tick_count) + n < 2 ^ 32 -> now < 2 ^ 32 ->
  exists s1 s' called, ktimer_start s p n = Ok (0, s1) /\
    run_ticks record_call k s1 [] = Ok (s', call_of s.(tmem) <$> called) /\
    called ≡ₚ List.filter (fun q => when q <=? now) (p :: s.(active)) /\
    StronglySorted (fun a b => when a <= when b) called /\
    s'.(active) ≡ₚ List.filter (fun q => now <? when q) (p :: s.(active)) /\
    (p ∈ called <-> n <= Z.of_nat k) /\
    forall q, q ∈ called -> disarmed s'.(tmem) q.
Proof.
  intros Hok Hfut Ht Hp H0 Hn Hw Hnow.
  destruct (start_spec s p n t) as (s1 & E1 & Hok1 & Hperm & He & Htick & Hoth); auto; [lia|].
  assert (forall q, q ∈ p :: s.(active) -> expires_of s1.(tmem) q = when q) as Hwhen.
  { intros q Hq. unfold when. destruct (Z.eqb_spec q p) as [-> | Hne]; [exact He|]. unfold expires_of. rewrite Hoth; auto. }
  destruct (run_ticks_spec s1 k Hok1) as (s' & E & _ & _ & Ha & _ & Hdis);
    [lia | lia | intros q Hq; rewrite Hperm in Hq; rewrite (Hwhen q Hq), Htick; unfold when;
     apply elem_of_cons in Hq as [-> | Hq]; [rewrite Z.eqb_refl; lia|]; destruct (q =? p); [lia | auto]|].
  rewrite Htick in E, Ha, Hdis. fold now in E, Ha, Hdis.
  assert (due s1 now ≡ₚ List.filter (fun q => when q <=? now) (p :: s.(active))) as Hdue.
  { unfold due. rewrite (lfilter_perm _ _ _ Hperm). erewrite lfilter_ext_in; [reflexivity|]. intros q Hq. simpl. rewrite Hwhen by exact Hq. reflexivity. }
  exists s1, s', (due s1 now). split_and!; auto.
  - rewrite E. f_equal. f_equal. apply list_fmap_ext. intros _ q _. apply (start_calls _ _ _ _ _ _ E1).
  - apply (StronglySorted_ext (fun a b => expires_of s1.(tmem) a <= expires_of s1.(tmem) b)); [|apply StronglySorted_filter, Hok1].
    intros a b Hq1 Hq2. rewrite !Hwhen; auto; rewrite <- Hperm; eapply elem_of_lfilter; eassumption.
  - rewrite Ha. unfold not_due. rewrite (lfilter_perm _ _ _ Hperm). erewrite lfilter_ext_in; [reflexivity|].
    intros q Hq. simpl. rewrite Hwhen by exact Hq. reflexivity.
  - rewrite Hdue, elem_of_lfilter, Z.leb_le. unfold when, now. rewrite Z.eqb_refl. split; [intros [_ ?]; lia | intros; split; [left | lia]].
Qed.

Lemma timer_fires_on_time_witness :
  exists s1 s', ktimer_start (Timers {[64 := Timer 1 2 0 2; 96 := Timer 3 4 6 6]} [96] 5) 64 3 = Ok (0, s1) /\
    run_ticks record_call 3 s1 [] = Ok (s', [(3, 4); (1, 2)]) /\ s'.(active) = [] /\ disarmed s'.(tmem) 64.
Proof.
  destruct (timer_fires_on_time (Timers {[64 := Timer 1 2 0 2; 96 := Timer 3 4 6 6]} [96] 5) 64 3 (Timer 1 2 0 2) 3)
    as (s1 & s' & called & E1 & E2 & _ & _ & Ha & Hc & Hd); try reflexivity; try (simpl; lia).
  - split_and!.
    + repeat constructor; set_solver.
    + repeat constructor.
    + intros p Hp. apply list_elem_of_singleton in Hp as ->. eexists. split; [reflexivity | discriminate].
  - intros q Hq. apply list_elem_of_singleton in Hq as ->. reflexivity.
  - simpl. set_solver.
  - exists s1, s'. split; [exact E1|]. split; [|split; [apply Permutation_nil_r, Ha | apply Hd, Hc; reflexivity]].
    vm_compute in E1. injection E1 as <-. rewrite E2. f_equal. f_equal. vm_compute in E2. injection E2 as _ E3. symmetry. exact E3.
Defined.

(** ** Where the code departs from its intent *)

(** Two timers whose expiry wrapped around are linked in the wrong order. *)
Lemma wrapped_timers_misordered :
  let s := Timers {[32 := Timer 0 0 4294967295 6; 64 := Timer 0 0 5 6; 96 := Timer 0 0 0 2]} [32; 64] 4294967290 in
  exists s', ktimer_start s 96 20 = Ok (0, s') /\ s'.(active) = [32; 96; 64] /\
    expires_of s'.(tmem) 96 = 14 /\ expires_of s'.(tmem) 64 = 5.
Proof. eexists. split; [reflexivity|]. split_and!; reflexivity. Qed.

(** A timer whose expiry wrapped around fires at the next interrupt. *)
Lemma wrapped_timer_fires_early :
  exists s1 s' x', ktimer_start (Timers {[96 := Timer 1 2 0 2]} [] 4294967290) 96 20 = Ok (0, s1) /\
    run_ticks record_call 1 s1 [] = Ok (s', x') /\ x' = [(1, 2)].
Proof. eexists _, _, _. split; [reflexivity|]. split; reflexivity. Qed.

(** Removing a timer leaves it marked armed, so a second removal unlinks a node
    that is on no list. *)
Lemma ktimer_remove_stays_armed (s s' : timers) (p rc : Z) :
  timers_ok s -> ktimer_remove s p = Ok (rc, s') ->
  (exists t, s'.(tmem) !! p = Some t /\ Z.land t.(t_flags) TF_ARMED <> 0) /\
  ktimer_remove s' p = Fault.
Proof.
  intros (_ & _ & Hm). unfold ktimer_remove, unlink.
  destruct (decide (p ∈ active s)) as [Hp | Hp]; [|rewrite bool_decide_eq_false_2 by auto; discriminate].
  rewrite (bool_decide_eq_true_2 _ Hp). destruct (Hm p Hp) as (t & Ht & Hf). simpl.
  unfold tget. rewrite Ht. intros [= <- <-]. simpl. split; [eauto|].
  rewrite bool_decide_eq_false_2; [reflexivity|]. intros Hin.
  apply elem_of_lfilter in Hin as [_ Hin]. rewrite Z.eqb_refl in Hin. discriminate.
Qed.
