(* ===== verification/Sig.v ===== *)
(** * Signal sets and actions (include/kernel/signal.h, include/telos/signal.h,
      and the per-process part of dispatch/signal.c)

    Signal [n] is bit [n - 1] of a set.  [mask] holds the signals that are not
    blocked.  The addresses of the kernel functions that are default actions
    are parameters. *)

From S2P Require Import Prelude Bitops.

(** ** Constants *)

Definition SIGABRT : Z := 1.
Definition SIGALRM : Z := 2.
Definition SIGCHLD : Z := 4.
Definition SIGCONT : Z := 5.
Definition SIGFPE : Z := 6.
Definition SIGILL : Z := 8.
Definition SIGINT : Z := 9.
Definition SIGSEGV : Z := 12.
Definition SIGTSTP : Z := 14.
Definition SIGTTIN : Z := 15.
Definition SIGTTOU : Z := 16.
Definition SIGURG : Z := 23.
Definition SIGSTOP : Z := 27.
Definition SIGKILL : Z := 28.
Definition _TELOS_SIGMAX : Z := 29.

Definition SA_SIGINFO : Z := 16.

Definition CLD_EXITED : Z := 24.
Definition CLD_KILLED : Z := 25.
Definition CLD_STOPPED : Z := 28.
Definition CLD_CONTINUED : Z := 29.

Definition SI_USER : Z := 1.
Definition SI_QUEUE : Z := 2.
Definition SI_TIMER : Z := 3.
Definition SI_ASYNCIO : Z := 4.
Definition SI_MESGQ : Z := 5.

Definition SIG_BLOCK : Z := 0.
Definition SIG_SETMASK : Z := 1.
Definition SIG_UNBLOCK : Z := 2.

Definition SIG_DFL : Z := 1.
Definition SIG_IGN : Z := 4.

Definition SIG_NOIGNORE : Z := Z.lor (BIT SIGKILL) (BIT SIGSTOP).

(** ** Data *)

Record siginfo : Type := SigInfo {
  si_signo : Z; si_code : Z; si_errno : Z; si_pid : Z; si_uid : Z;
  si_addr : Z; si_status : Z; si_band : Z; si_value : Z;
}.

Record sigaction : Type := SigAction { sa_handler : Z; sa_mask : Z; sa_flags : Z }.

Record sig_struct : Type := SigStruct {
  pending : Z;
  mask : Z;
  restore : Z;
  actions : list sigaction;
  infos : list siginfo;
}.

Definition set_pending (s : sig_struct) (p : Z) : sig_struct :=
  SigStruct p s.(mask) s.(restore) s.(actions) s.(infos).

Definition set_mask (s : sig_struct) (m : Z) : sig_struct :=
  SigStruct s.(pending) m s.(restore) s.(actions) s.(infos).

Definition set_restore (s : sig_struct) (r : Z) : sig_struct :=
  SigStruct s.(pending) s.(mask) r s.(actions) s.(infos).

Definition set_actions (s : sig_struct) (a : list sigaction) : sig_struct :=
  SigStruct s.(pending) s.(mask) s.(restore) a s.(infos).

Definition set_infos (s : sig_struct) (i : list siginfo) : sig_struct :=
  SigStruct s.(pending) s.(mask) s.(restore) s.(actions) i.

(** ** Sets *)

Definition signo_valid (signo : Z) : bool := (0 <? signo) && (signo <? _TELOS_SIGMAX).

Definition sigfillset : Z := 4294967295.

Definition sigemptyset : Z := 0.

Definition sigaddset (set signo : Z) : Z := Z.lor set (u32 (Z.shiftl 1 (signo - 1))).

Definition sigdelset (set signo : Z) : Z := Z.land set (~% (Z.shiftl 1 (signo - 1))).

Definition sigismember (set signo : Z) : bool :=
  negb (Z.land set (u32 (Z.shiftl 1 (signo - 1))) =? 0).

Definition signal_pending (s : sig_struct) : bool := negb (Z.land s.(pending) s.(mask) =? 0).

Definition pending_signal (s : sig_struct) : Z := fls (Z.land s.(pending) s.(mask)).

Definition signal_ignored (s : sig_struct) (sig_no : Z) : res bool :=
  do a <- aload s.(actions) sig_no; Ok (a.(sa_handler) =? SIG_IGN).

Definition signal_blocked (s : sig_struct) (sig_no : Z) : bool := negb (sigismember s.(mask) sig_no).

Definition signal_accepted (s : sig_struct) (sig_no : Z) : res bool :=
  do i <- signal_ignored s sig_no; Ok (negb i && negb (signal_blocked s sig_no)).

Definition signal_from_user (code : Z) : bool :=
  (code =? SI_USER) || (code =? SI_QUEUE) || (code =? SI_TIMER) || (code =? SI_ASYNCIO)
  || (code =? SI_MESGQ).

Definition sig_unblockable (signo : Z) : bool := (signo =? SIGKILL) || (signo =? SIGSTOP).

(** [set_bit(nr, &w)] and [clear_bit(nr, &w)] on one word. *)
Definition word_set_bit (nr w : Z) : res Z := do l <- set_bit nr [w]; aload l 0.

Definition word_clear_bit (nr w : Z) : res Z := do l <- clear_bit nr [w]; aload l 0.

(** ** Actions *)

Section defaults.

Context (sig_terminate sig_stop : Z).

(** The table [sig_default]; entry 0 is not initialised and holds [NULL]. *)
Definition sig_default : list Z :=
  [0; sig_terminate; sig_terminate; sig_terminate; SIG_IGN; SIG_IGN; sig_terminate;
   sig_terminate; sig_terminate; sig_terminate; sig_terminate; sig_terminate;
   sig_terminate; sig_terminate; sig_stop; sig_stop; sig_stop; sig_terminate;
   sig_terminate; sig_terminate; sig_terminate; sig_terminate; sig_terminate;
   SIG_IGN; sig_terminate; sig_terminate; sig_terminate; sig_stop; sig_terminate].

Definition sig_set_default (act : sigaction) (sig_no : Z) : res sigaction :=
  do h <- aload sig_default sig_no; Ok (SigAction h act.(sa_mask) act.(sa_flags)).

(** The loops over the actions: [f] on each entry with its number. *)
Fixpoint each_action (f : sigaction -> Z -> res sigaction) (i : Z) (l : list sigaction)
    : res (list sigaction) :=
  match l with
  | [] => Ok []
  | a :: l =>
      do a <- f a i;
      do l <- each_action f (i + 1) l;
      Ok (a :: l)
  end.

Definition sig_init (s : sig_struct) : res sig_struct :=
  do a <- each_action sig_set_default 0 s.(actions);
  Ok (SigStruct 0 sigfillset 0 a s.(infos)).

Definition sig_clone (dst src : sig_struct) : sig_struct :=
  SigStruct 0 src.(mask) src.(restore) src.(actions) dst.(infos).

Definition sig_exec (s : sig_struct) : res sig_struct :=
  do a <- each_action (fun a i => if negb (a.(sa_handler) =? SIG_IGN) then sig_set_default a i else Ok a)
            0 s.(actions);
  Ok (set_actions s a).

End defaults.

(** ** Properties of the sets *)

Lemma sig_bit (signo : Z) : signo_valid signo = true -> u32 (Z.shiftl 1 (signo - 1)) = 2 ^ (signo - 1).
Proof.
  unfold signo_valid, _TELOS_SIGMAX. intros H. rewrite Z.shiftl_1_l, uN_id; [reflexivity|].
  split; [apply Z.pow_nonneg; lia | apply Z.pow_lt_mono_r; lia].
Qed.

Lemma sigismember_bit (set signo : Z) :
  signo_valid signo = true -> sigismember set signo = Z.testbit set (signo - 1).
Proof.
  intros Hv. unfold sigismember. rewrite (sig_bit _ Hv). unfold signo_valid, _TELOS_SIGMAX in Hv.
  destruct (Z.testbit set (signo - 1)) eqn:E.
  - apply negb_true_iff, Z.eqb_neq. intros H0.
    assert (Z.testbit (Z.land set (2 ^ (signo - 1))) (signo - 1) = true) as Hb.
    { rewrite Z.land_spec, E, testbit_pow2, Z.eqb_refl by lia. reflexivity. }
    rewrite H0, Z.bits_0 in Hb. discriminate.
  - apply negb_false_iff, Z.eqb_eq, Z.bits_inj'. intros i Hi.
    rewrite Z.land_spec, testbit_pow2, Z.bits_0 by lia.
    destruct (Z.eqb_spec i (signo - 1)) as [-> |]; [rewrite E; reflexivity | apply andb_false_r].
Qed.

Lemma sigaddset_member (set a b : Z) :
  signo_valid a = true -> signo_valid b = true ->
  sigismember (sigaddset set a) b = (a =? b) || sigismember set b.
Proof.
  intros Ha Hb. rewrite !sigismember_bit by assumption. unfold sigaddset.
  rewrite (sig_bit _ Ha), Z.lor_spec. unfold signo_valid, _TELOS_SIGMAX in *.
  rewrite testbit_pow2 by lia. rewrite orb_comm. f_equal.
  destruct (Z.eqb_spec (b - 1) (a - 1)), (Z.eqb_spec a b); lia || reflexivity.
Qed.

Lemma sigdelset_member (set a b : Z) :
  signo_valid a = true -> signo_valid b = true ->
  sigismember (sigdelset set a) b = negb (a =? b) && sigismember set b.
Proof.
  intros Ha Hb. rewrite !sigismember_bit by assumption. unfold sigdelset.
  rewrite Z.land_spec. unfold signo_valid, _TELOS_SIGMAX in *.
  rewrite testbit_uN, Z.lnot_spec, Z.shiftl_1_l, testbit_pow2 by lia.
  destruct (Z.ltb_spec (b - 1) 32); [|lia]. rewrite andb_comm. simpl. f_equal. f_equal.
  destruct (Z.eqb_spec (b - 1) (a - 1)), (Z.eqb_spec a b); lia || reflexivity.
Qed.

Lemma word_set_bit_eq (sig w : Z) :
  signo_valid sig = true -> word_set_bit (sig - 1) w = Ok (sigaddset w sig).
Proof.
  unfold signo_valid, _TELOS_SIGMAX. intros Hv. unfold word_set_bit, set_bit, sigaddset, BIT.
  replace ((sig - 1) / 32) with 0 by lia. replace ((sig - 1) mod 32) with (sig - 1) by lia. reflexivity.
Qed.

Lemma word_clear_bit_eq (sig w : Z) :
  signo_valid sig = true -> word_clear_bit (sig - 1) w = Ok (sigdelset w sig).
Proof.
  unfold signo_valid, _TELOS_SIGMAX. intros Hv. unfold word_clear_bit, clear_bit, sigdelset, BIT.
  replace ((sig - 1) / 32) with 0 by lia. replace ((sig - 1) mod 32) with (sig - 1) by lia.
  unfold aload at 1. simpl. do 2 f_equal. rewrite Z.shiftl_1_l, (uN_id 32 (2 ^ (sig - 1))); [reflexivity|].
  split; [apply Z.pow_nonneg; lia | apply Z.pow_lt_mono_r; lia].
Qed.
