(* ===== verification/Sched.v ===== *)
(** * Processes and scheduling (include/kernel/process.h, kernel/schedule.c,
      include/kernel/wait.h)

    The state of the process part of the kernel.  A [struct pcb *] is an index
    into [proctab].  [ready_queue] and [zombies] are the lists linked through
    [chain]; linking a process that is on one of them already, or unlinking one
    that is on none, is a [Fault], because it breaks the circular list
    ([relink_breaks_list] below).  [timers_of] is the state of kernel/timer.c,
    [umem] the words of memory the code reads and writes through context
    pointers, and [env] the state of the memory manager and the file system. *)

From S2P Require Import Prelude Abi ListHead Vma Timer Sig.

(** ** Data *)

Definition PT_SIZE : Z := 256.
Definition PID_MASK : Z := PT_SIZE - 1.
Definition NR_FILES : Z := 8.

Definition PROC_DEAD : Z := 0.
Definition PROC_NASCENT : Z := 1.
Definition PROC_READY : Z := 2.
Definition PROC_RUNNING : Z := 3.
Definition PROC_STOPPED : Z := 4.
Definition PROC_ZOMBIE : Z := 5.
Definition PROC_SIGWAIT : Z := 6.
Definition PROC_WAITING : Z := 7.
Definition PROC_INTERRUPTIBLE : Z := 8.

Definition PFLAG_SUPER : Z := 1.

Record proc_status : Type := ProcStatus { ps_pid : Z; ps_status : Z }.

Record pcb : Type := Pcb {
  rc : Z;
  esp : Z;
  ifp : Z;
  mm : mm_struct;
  pid : Z;
  parent_pid : Z;
  pflags : Z;
  state : Z;
  child_stats : list proc_status;
  children : list Z;
  timestamp : Z;
  posix_timers : list Z;
  posix_timer_id : Z;
  sig : sig_struct;
  filp : list Z;
  pwd : Z;
  root : Z;
}.

Record kst (S : Type) : Type := Kst {
  proctab : list pcb;
  current : Z;
  ready_queue : list Z;
  zombies : list Z;
  idle_pid : Z;
  timers_of : timers;
  umem : gmap Z Z;
  env : S;
}.

Arguments Kst {S}.
Arguments proctab {S}.
Arguments current {S}.
Arguments ready_queue {S}.
Arguments zombies {S}.
Arguments idle_pid {S}.
Arguments timers_of {S}.
Arguments umem {S}.
Arguments env {S}.

(** Updates of one field. *)

Definition p_rc (p : pcb) (v : Z) : pcb :=
  Pcb v p.(esp) p.(ifp) p.(mm) p.(pid) p.(parent_pid) p.(pflags) p.(state) p.(child_stats)
    p.(children) p.(timestamp) p.(posix_timers) p.(posix_timer_id) p.(sig) p.(filp) p.(pwd) p.(root).

Definition p_cx (p : pcb) (e i : Z) : pcb :=
  Pcb p.(rc) e i p.(mm) p.(pid) p.(parent_pid) p.(pflags) p.(state) p.(child_stats)
    p.(children) p.(timestamp) p.(posix_timers) p.(posix_timer_id) p.(sig) p.(filp) p.(pwd) p.(root).

Definition p_mm (p : pcb) (v : mm_struct) : pcb :=
  Pcb p.(rc) p.(esp) p.(ifp) v p.(pid) p.(parent_pid) p.(pflags) p.(state) p.(child_stats)
    p.(children) p.(timestamp) p.(posix_timers) p.(posix_timer_id) p.(sig) p.(filp) p.(pwd) p.(root).

Definition p_ids (p : pcb) (v parent flags : Z) : pcb :=
  Pcb p.(rc) p.(esp) p.(ifp) p.(mm) v parent flags p.(state) p.(child_stats)
    p.(children) p.(timestamp) p.(posix_timers) p.(posix_timer_id) p.(sig) p.(filp) p.(pwd) p.(root).

Definition p_state (p : pcb) (v : Z) : pcb :=
  Pcb p.(rc) p.(esp) p.(ifp) p.(mm) p.(pid) p.(parent_pid) p.(pflags) v p.(child_stats)
    p.(children) p.(timestamp) p.(posix_timers) p.(posix_timer_id) p.(sig) p.(filp) p.(pwd) p.(root).

Definition p_stats (p : pcb) (v : list proc_status) : pcb :=
  Pcb p.(rc) p.(esp) p.(ifp) p.(mm) p.(pid) p.(parent_pid) p.(pflags) p.(state) v
    p.(children) p.(timestamp) p.(posix_timers) p.(posix_timer_id) p.(sig) p.(filp) p.(pwd) p.(root).

Definition p_children (p : pcb) (v : list Z) : pcb :=
  Pcb p.(rc) p.(esp) p.(ifp) p.(mm) p.(pid) p.(parent_pid) p.(pflags) p.(state) p.(child_stats)
    v p.(timestamp) p.(posix_timers) p.(posix_timer_id) p.(sig) p.(filp) p.(pwd) p.(root).

Definition p_sig (p : pcb) (v : sig_struct) : pcb :=
  Pcb p.(rc) p.(esp) p.(ifp) p.(mm) p.(pid) p.(parent_pid) p.(pflags) p.(state) p.(child_stats)
    p.(children) p.(timestamp) p.(posix_timers) p.(posix_timer_id) v p.(filp) p.(pwd) p.(root).

Definition p_files (p : pcb) (f : list Z) (w r : Z) : pcb :=
  Pcb p.(rc) p.(esp) p.(ifp) p.(mm) p.(pid) p.(parent_pid) p.(pflags) p.(state) p.(child_stats)
    p.(children) p.(timestamp) p.(posix_timers) p.(posix_timer_id) p.(sig) f w r.

Definition p_timers (p : pcb) (l : list Z) (next : Z) : pcb :=
  Pcb p.(rc) p.(esp) p.(ifp) p.(mm) p.(pid) p.(parent_pid) p.(pflags) p.(state) p.(child_stats)
    p.(children) p.(timestamp) l next p.(sig) p.(filp) p.(pwd) p.(root).

Section kernel.

Context {S : Type}.

Abbreviation k := (kst S).

Definition set_procs (s : k) (t : list pcb) : k :=
  Kst t s.(current) s.(ready_queue) s.(zombies) s.(idle_pid) s.(timers_of) s.(umem) s.(env).

Definition set_current (s : k) (c : Z) : k :=
  Kst s.(proctab) c s.(ready_queue) s.(zombies) s.(idle_pid) s.(timers_of) s.(umem) s.(env).

Definition set_queues (s : k) (r z : list Z) : k :=
  Kst s.(proctab) s.(current) r z s.(idle_pid) s.(timers_of) s.(umem) s.(env).

Definition set_timers (s : k) (t : timers) : k :=
  Kst s.(proctab) s.(current) s.(ready_queue) s.(zombies) s.(idle_pid) t s.(umem) s.(env).

Definition set_umem (s : k) (m : gmap Z Z) : k :=
  Kst s.(proctab) s.(current) s.(ready_queue) s.(zombies) s.(idle_pid) s.(timers_of) m s.(env).

Definition set_env (s : k) (e : S) : k :=
  Kst s.(proctab) s.(current) s.(ready_queue) s.(zombies) s.(idle_pid) s.(timers_of) s.(umem) e.

(** [*p] and [*p = ...]. *)
Definition proc (p : Z) : ST k pcb := t ← gets proctab; st_res (aload t p).

Definition upd (p : Z) (f : pcb -> pcb) : ST k unit :=
  t ← gets proctab;
  a ← st_res (aload t p);
  t ← st_res (astore t p (f a));
  modify (fun s => set_procs s t).

Definition cur : ST k Z := gets current.

Definition cur_proc : ST k pcb := c ← cur; proc c.

(** A word of memory, through a pointer. *)
Definition mload (a : Z) : ST k Z := fun s =>
  match s.(umem) !! a with
  | Some w => Ok (w, s)
  | None => Fault
  end.

Definition mstore (a w : Z) : ST k unit := mload a ;; modify (fun s => set_umem s (<[a := w]> s.(umem))).

(** ** process.h *)

(** [None] stands for [NULL]. *)
Definition get_pcb (p : Z) : ST k (option Z) :=
  let i := Z.land p PID_MASK in
  a ← proc i;
  mret (if negb (a.(state) =? PROC_DEAD) && (a.(pid) =? p) then Some i else None).

Definition fd_file (p fd : Z) : ST k Z :=
  a ← proc p;
  if (0 <=? fd) && (fd <? NR_FILES) then st_res (aload a.(filp) fd) else mret 0.

(** [filp[fd]] with a negative [fd] reads outside the array. *)
Definition fd_ok (p fd : Z) : ST k bool :=
  a ← proc p;
  if fd <? NR_FILES then f ← st_res (aload a.(filp) fd); mret (negb (f =? 0)) else mret false.

Fixpoint first_unused (l : list Z) (i : Z) : Z :=
  match l with
  | [] => - EMFILE
  | f :: l => if f =? 0 then i else first_unused l (i + 1)
  end.

Definition get_fd (p start : Z) : ST k Z :=
  a ← proc p;
  if NR_FILES <=? start then mret (- EINVAL)
  else if start <? 0 then fault
  else mret (first_unused (drop (Z.to_nat start) a.(filp)) start).

(** ** schedule.c *)

Definition linked (s : k) (p : Z) : bool := bool_decide (p ∈ s.(ready_queue) ++ s.(zombies)).

(** [list_add_tail(&p->chain, ...)] *)
Definition add_ready (p : Z) : ST k unit := fun s =>
  if linked s p then Fault else Ok (tt, set_queues s (s.(ready_queue) ++ [p]) s.(zombies)).

Definition add_zombie (p : Z) : ST k unit := fun s =>
  if linked s p then Fault else Ok (tt, set_queues s s.(ready_queue) (s.(zombies) ++ [p])).

Definition without (p : Z) (l : list Z) : list Z := List.filter (fun q => negb (q =? p)) l.

(** [list_del(&p->chain)] *)
Definition del_chain (p : Z) : ST k unit := fun s =>
  if linked s p
  then Ok (tt, set_queues s (without p s.(ready_queue)) (without p s.(zombies)))
  else Fault.

Definition ready (p : Z) : ST k unit := upd p (fun a => p_state a PROC_READY) ;; add_ready p.

Definition reap (p : Z) : ST k unit := upd p (fun a => p_state a PROC_DEAD) ;; del_chain p.

Definition wake (p r : Z) : ST k unit := upd p (fun a => p_rc a r) ;; ready p.

Definition zombie (p : Z) : ST k unit := upd p (fun a => p_state a PROC_ZOMBIE) ;; add_zombie p.

(** [next()]; taking from the empty queue yields no process. *)
Definition next : ST k Z := fun s =>
  match s.(ready_queue) with
  | [] => Fault
  | p :: q => Ok (p, set_queues s q s.(zombies))
  end.

Definition next_process : ST k Z :=
  p ← next;
  a ← proc p;
  idle ← gets idle_pid;
  q ← gets ready_queue;
  if (a.(pid) =? idle) && negb (bool_decide (q = []))
  then ready p ;; next
  else mret p.

(** The C part of [schedule()]: the chosen process continues where it called it. *)
Definition _schedule : ST k Z :=
  p ← next_process;
  modify (fun s => set_current s p) ;;
  mret p.

(** ** wait.h

    A wait queue is the list of processes linked through [wait_chain].
    [wait_interruptible] up to and from the point where it calls [schedule]. *)

Definition wait_begin (q : list Z) : ST k (list Z) :=
  c ← cur;
  upd c (fun a => p_state a PROC_INTERRUPTIBLE) ;;
  _ ← _schedule;
  mret (q ++ [c]).

Definition wait_end (q : list Z) : ST k (Z * list Z) :=
  c ← cur;
  a ← proc c;
  if bool_decide (c ∈ q) then mret (a.(rc), without c q) else fault.

Definition __wake_first (q : list Z) (r : Z) : ST k unit :=
  match q with
  | [] => fault
  | p :: _ => wake p r
  end.

Definition wake_first (q : list Z) (r : Z) : ST k unit :=
  match q with
  | [] => mret tt
  | _ => __wake_first q r
  end.

Definition wake_all (q : list Z) (r : Z) : ST k unit := for_each q (fun p => wake p r).

End kernel.

(** ** Running the primitives *)

Section proofs.

Context {S : Type}.

Abbreviation k := (kst S).

Definition pids (s : k) : list Z := pid <$> s.(proctab).

(** A table index. *)
Definition valid (s : k) (p : Z) : Prop := 0 <= p < Z.of_nat (length s.(proctab)).

Lemma proc_run (s : k) (p : Z) (a : pcb) :
  0 <= p -> s.(proctab) !! Z.to_nat p = Some a -> proc p s = Ok (a, s).
Proof.
  intros Hp Ha. unfold proc, mbind, st_bind, gets. unfold st_res.
  rewrite (proj2 (aload_ok _ p a)) by auto. reflexivity.
Qed.

Lemma upd_run (s : k) (p : Z) (f : pcb -> pcb) (a : pcb) :
  0 <= p -> s.(proctab) !! Z.to_nat p = Some a ->
  upd p f s = Ok (tt, set_procs s (<[Z.to_nat p := f a]> s.(proctab))).
Proof.
  intros Hp Ha. unfold upd, mbind, st_bind, gets. unfold st_res.
  rewrite (proj2 (aload_ok _ p a)) by auto. simpl.
  rewrite (proj2 (astore_ok _ (<[Z.to_nat p := f a]> (proctab s)) p (f a))); [reflexivity|].
  apply lookup_lt_Some in Ha. split; [lia | reflexivity].
Qed.

Lemma valid_lookup (s : k) (p : Z) :
  valid s p -> exists a, 0 <= p /\ s.(proctab) !! Z.to_nat p = Some a.
Proof.
  intros Hp. destruct (lookup_lt_is_Some_2 (proctab s) (Z.to_nat p)) as [a Ha]; [unfold valid in Hp; lia|].
  exists a. unfold valid in Hp. auto with lia.
Qed.

Lemma pids_update (s : k) (p : Z) (a : pcb) (b : pcb) :
  s.(proctab) !! Z.to_nat p = Some a -> b.(pid) = a.(pid) ->
  pid <$> <[Z.to_nat p := b]> s.(proctab) = pids s.
Proof.
  intros Ha Hb. unfold pids. rewrite list_fmap_insert, Hb. apply list_insert_id.
  rewrite list_lookup_fmap, Ha. reflexivity.
Qed.

(** ** Process identifiers *)

(** Slot [i] of the table only ever holds processes whose number is [i] modulo
    the size of the table. *)
Definition pids_ok (s : k) : Prop :=
  length s.(proctab) = 256%nat /\
  forall i a, s.(proctab) !! i = Some a -> a.(pid) mod 256 = Z.of_nat i.

Definition alive (s : k) (p n : Z) : Prop :=
  0 <= p /\ exists a, s.(proctab) !! Z.to_nat p = Some a /\ a.(state) <> PROC_DEAD /\ a.(pid) = n.

Lemma pid_mask (n : Z) : Z.land n PID_MASK = n mod 256.
Proof. change PID_MASK with (Z.ones 8). apply Z.land_ones. lia. Qed.

(** [get_pcb] finds exactly the live process with the given number, of which
    there is at most one. *)
Lemma get_pcb_spec (s : k) (n : Z) :
  pids_ok s -> exists r, get_pcb n s = Ok (r, s) /\ forall p, r = Some p <-> alive s p n.
Proof.
  intros (Hl & Hp). unfold get_pcb. rewrite pid_mask.
  destruct (valid_lookup s (n mod 256)) as (a & H0 & Ha); [unfold valid; lia|].
  rewrite (bind_ok _ _ _ _ _ (proc_run s _ a H0 Ha)). eexists. split; [reflexivity|]. intros p.
  destruct (Z.eqb_spec (state a) PROC_DEAD) as [E | E]; simpl.
  - split; [discriminate|]. intros (Hp0 & b & Hb & Hd & Hn).
    pose proof (Hp _ _ Hb) as Hm. rewrite Hn, Z2Nat.id in Hm by lia. subst p. congruence.
  - destruct (Z.eqb_spec (pid a) n) as [En | En].
    + split; [intros [= <-] | intros (Hp0 & b & Hb & Hd & Hn)].
      * split; [exact H0|]. eauto.
      * pose proof (Hp _ _ Hb) as Hm. rewrite Hn, Z2Nat.id in Hm by lia. congruence.
    + split; [discriminate|]. intros (Hp0 & b & Hb & Hd & Hn).
      pose proof (Hp _ _ Hb) as Hm. rewrite Hn, Z2Nat.id in Hm by lia. subst p. congruence.
Qed.

(** ** The scheduler *)

(** The queues hold distinct processes of the table, and the running process is
    on none of them. *)
Definition sched_ok (s : k) : Prop :=
  NoDup (s.(current) :: s.(ready_queue) ++ s.(zombies)) /\
  Forall (valid s) (s.(current) :: s.(ready_queue) ++ s.(zombies)).

Definition idle (s : k) (p : Z) : Prop := pids s !! Z.to_nat p = Some s.(idle_pid).

Lemma ready_run (s : k) (p : Z) :
  valid s p -> p ∉ s.(ready_queue) ++ s.(zombies) ->
  exists t, ready p s = Ok (tt, set_queues (set_procs s t) (s.(ready_queue) ++ [p]) s.(zombies)) /\
    length t = length s.(proctab) /\ pid <$> t = pids s.
Proof.
  intros Hv Hp. destruct (valid_lookup s p Hv) as (a & H0 & Ha). unfold ready.
  rewrite (bind_ok _ _ _ _ _ (upd_run s p _ a H0 Ha)). unfold add_ready, linked. simpl.
  rewrite (bool_decide_eq_false_2 _ Hp). eexists. split; [reflexivity|].
  split; [apply length_insert | eapply pids_update; eauto].
Qed.

(** What [ready(current); schedule()] does, which is how a time slice ends. *)
Definition switch : ST k unit := c ← cur; ready c ;; _ ← _schedule; mret tt.

Lemma switch_run (s : k) (h : Z) (t : list Z) :
  sched_ok s -> s.(ready_queue) = h :: t ->
  exists s', switch s = Ok (tt, s') /\ sched_ok s' /\ pids s' = pids s /\
    s'.(idle_pid) = s.(idle_pid) /\ s'.(zombies) = s.(zombies) /\
    ((~ idle s h /\ s'.(current) = h /\ s'.(ready_queue) = t ++ [s.(current)]) \/
     (idle s h /\ s'.(current) :: s'.(ready_queue) = t ++ [s.(current); h])).
Proof.
  intros (Hnd & Hv) Hq. rewrite Hq in Hnd, Hv.
  assert (valid s (current s)) as Hvc by (eapply Forall_inv; eauto).
  assert (current s ∉ ready_queue s ++ zombies s) as Hc by (rewrite Hq; apply NoDup_cons in Hnd; tauto).
  destruct (ready_run s (current s) Hvc Hc) as (tab & Hr & Hl & Hpid).
  unfold switch. erewrite bind_ok by reflexivity. rewrite (bind_ok _ _ _ _ _ Hr).
  set (q1 := t ++ [current s]).
  set (s2 := set_queues (set_procs s tab) q1 (zombies s)).
  assert (h :: q1 ++ zombies s ≡ₚ current s :: (h :: t) ++ zombies s) as Hp1 by (unfold q1; solve_Permutation).
  assert (NoDup (h :: q1 ++ zombies s)) as Hnd2 by (rewrite Hp1; exact Hnd).
  assert (Forall (valid s2) (h :: q1 ++ zombies s)) as Hv2
    by (unfold valid, s2; simpl; rewrite Hl, Hp1; exact Hv).
  destruct (valid_lookup s2 h) as (b & Hh0 & Hb); [eapply Forall_inv; eauto|].
  assert (pids s !! Z.to_nat h = Some (pid b)) as Hpb.
  { rewrite <- Hpid, list_lookup_fmap. simpl in Hb. rewrite Hb. reflexivity. }
  assert (next_process (set_queues (set_procs s tab) (ready_queue s ++ [current s]) (zombies s)) =
          if pid b =? idle_pid s then (ready h ;; next) s2 else Ok (h, s2)) as Hnp.
  { unfold next_process. erewrite bind_ok by (unfold next; simpl; rewrite Hq; reflexivity).
    change (set_queues _ (t ++ [current s]) (zombies s)) with s2.
    rewrite (bind_ok _ _ _ _ _ (proc_run s2 h b Hh0 Hb)).
    do 2 (erewrite bind_ok by reflexivity). simpl ready_queue.
    rewrite (bool_decide_eq_false_2 (q1 = [])) by (unfold q1; destruct t; discriminate).
    change (idle_pid s2) with (idle_pid s). destruct (pid b =? idle_pid s); reflexivity. }
  unfold _schedule. destruct (Z.eqb_spec (pid b) (idle_pid s)) as [Ei | Ei].
  - assert (h ∉ ready_queue s2 ++ zombies s2) as Hh by (apply NoDup_cons in Hnd2; tauto).
    destruct (ready_run s2 h) as (tab2 & Hr2 & Hl2 & Hpid2); [eapply Forall_inv; eauto | exact Hh |].
    rewrite (bind_ok _ _ _ _ _ Hr2) in Hnp. unfold next in Hnp. simpl in Hnp.
    destruct (q1 ++ [h]) as [| x rest] eqn:Eq; [unfold q1 in Eq; destruct t; discriminate|].
    erewrite bind_ok by (erewrite bind_ok by exact Hnp; reflexivity).
    eexists. split; [reflexivity|].
    assert (x :: rest ++ zombies s ≡ₚ h :: q1 ++ zombies s) as Hperm.
    { change (x :: rest ++ zombies s) with ((x :: rest) ++ zombies s). rewrite <- Eq. solve_Permutation. }
    split; [split; simpl|].
    + rewrite Hperm. exact Hnd2.
    + unfold valid in *. simpl. rewrite Hl2. rewrite Hperm. exact Hv2.
    + split_and!; [unfold pids at 1; simpl; rewrite Hpid2; exact Hpid | reflexivity.. |].
      right. split; [unfold idle; congruence|]. simpl. rewrite <- Eq. unfold q1.
      rewrite <- app_assoc. reflexivity.
  - erewrite bind_ok by (erewrite bind_ok by exact Hnp; reflexivity).
    eexists. split; [reflexivity|]. split; [split; assumption|].
    split_and!; [exact Hpid | reflexivity.. |].
    left. split; [unfold idle; congruence | split; reflexivity].
Qed.

Fixpoint switches (n : nat) : ST k unit :=
  match n with
  | O => mret tt
  | Datatypes.S n => switch ;; switches n
  end.

(** C14: round robin.  If each process runs until it gives up the processor with
    [ready(current); schedule()], a process other than the idle process at
    position [i] of the ready queue runs after at most [i + 1] switches. *)
Theorem round_robin (s : k) (i : nat) (p : Z) :
  sched_ok s -> s.(ready_queue) !! i = Some p -> ~ idle s p ->
  exists n s', (n <= i + 1)%nat /\ switches n s = Ok (tt, s') /\ sched_ok s' /\ s'.(current) = p.
Proof.
  revert s. induction i as [i IH] using lt_wf_ind. intros s Hok Hi Hp.
  destruct (ready_queue s) as [| h t] eqn:Hq; [discriminate|].
  destruct (switch_run s h t Hok Hq) as (s1 & Hs & Hok1 & Hpid & Hid & _ & [(_ & Hc & Hr) | (Hh & Hr)]).
  - destruct i as [| i].
    + injection Hi as ->. exists 1%nat, s1. split_and!; [lia | | exact Hok1 | exact Hc].
      simpl. rewrite (bind_ok _ _ _ _ _ Hs). reflexivity.
    + destruct (IH i ltac:(lia) s1 Hok1) as (n & s' & Hn & Hrun & ? & ?).
      { rewrite Hr. apply lookup_app_l_Some, Hi. }
      { unfold idle. rewrite Hpid, Hid. exact Hp. }
      exists (Datatypes.S n), s'. split_and!; auto; [lia|]. simpl. rewrite (bind_ok _ _ _ _ _ Hs). exact Hrun.
  - destruct i as [| i]; [injection Hi as ->; contradiction|]. simpl in Hi.
    destruct t as [| h2 t]; [discriminate|]. injection Hr as Hc Hr. destruct i as [| i].
    + injection Hi as ->. exists 1%nat, s1. split_and!; [lia | | exact Hok1 | exact Hc].
      simpl. rewrite (bind_ok _ _ _ _ _ Hs). reflexivity.
    + destruct (IH i ltac:(lia) s1 Hok1) as (n & s' & Hn & Hrun & ? & ?).
      { rewrite Hr. apply lookup_app_l_Some, Hi. }
      { unfold idle. rewrite Hpid, Hid. exact Hp. }
      exists (Datatypes.S n), s'. split_and!; auto; [lia|]. simpl. rewrite (bind_ok _ _ _ _ _ Hs). exact Hrun.
Qed.

End proofs.

(** ** Examples *)

Definition blank_pcb (n st : Z) : pcb :=
  Pcb 0 0 0 (MM 0 [] 0) n 1 0 st [] [] 0 [] 0
    (SigStruct 0 sigfillset 0 (replicate 29 (SigAction 0 0 0)) (replicate 29 (SigInfo 0 0 0 0 0 0 0 0 0)))
    (replicate 8 0) 0 0.

(** Processes 1 (running), 256 (idle), 2 and 3 (ready). *)
Definition kst_example : kst unit := {|
  proctab := [blank_pcb 256 PROC_READY; blank_pcb 1 PROC_READY; blank_pcb 2 PROC_READY;
              blank_pcb 3 PROC_READY];
  current := 1;
  ready_queue := [0; 2; 3];
  zombies := [];
  idle_pid := 256;
  timers_of := Timers ∅ [] 0;
  umem := ∅;
  env := tt;
|}.

Lemma kst_example_ok : sched_ok kst_example.
Proof.
  split.
  - apply (bool_decide_unpack (NoDup _)). vm_compute. exact I.
  - unfold valid. simpl. repeat constructor; lia.
Qed.

Lemma round_robin_witness :
  exists n s', (n <= 3)%nat /\ switches n kst_example = Ok (tt, s') /\ sched_ok s' /\ s'.(current) = 3.
Proof.
  destruct (round_robin kst_example 2 3) as (n & s' & Hn & H); [exact kst_example_ok | reflexivity | |].
  - unfold idle. vm_compute. discriminate.
  - exists n, s'. auto.
Defined.

(** Linking a node that is the last of a list once more makes it its own
    successor, so that no walk that reaches it ends. *)
Lemma relink_breaks_list (m m' : mem) (head p : Z) :
  get_prev m head = Ok p -> p <> head -> list_add_tail m p head = Ok m' ->
  get_next m' p = Ok p /\ forall fuel, ListHead.walk get_next fuel m' p head = Ok None.
Proof.
  intros Hp Hne. unfold list_add_tail. rewrite Hp. simpl. unfold __list_add. intros H.
  assert (get_next m' p = Ok p) as Hn.
  { apply res_bind_ok in H as (m1 & _ & H). apply res_bind_ok in H as (m2 & _ & H).
    apply res_bind_ok in H as (m3 & _ & H). unfold set_next, get_next in *.
    destruct (m3 !! p) as [n|] eqn:E; simpl in H; [|discriminate]. injection H as <-.
    rewrite lookup_insert_eq. reflexivity. }
  split; [exact Hn|]. induction fuel as [| fuel IH]; simpl; destruct (Z.eqb_spec p head);
    [contradiction | reflexivity | contradiction |]. rewrite Hn. simpl. rewrite IH. reflexivity.
Qed.

Lemma upd_cases {S : Type} (s : kst S) (p : Z) (f : pcb -> pcb) :
  upd p f s = Fault \/ exists t, upd p f s = Ok (tt, set_procs s t).
Proof.
  unfold upd, mbind, st_bind, gets, st_res, aload, astore, modify.
  destruct (p <? 0); [auto|]. destruct (_ !! _); simpl; [|auto]. destruct (p <? _); simpl; eauto.
Qed.

Lemma wake_linked {S : Type} (s : kst S) (p r : Z) : linked s p = true -> wake p r s = Fault.
Proof.
  intros Hl. unfold wake, ready, mbind, st_bind.
  destruct (upd_cases s p (fun a => p_rc a r)) as [-> | [t ->]]; [reflexivity|].
  destruct (upd_cases (set_procs s t) p (fun a => p_state a PROC_READY)) as [-> | [t' ->]]; [reflexivity|].
  unfold add_ready. change (linked (set_procs (set_procs s t) t') p) with (linked s p).
  rewrite Hl. reflexivity.
Qed.

(** Waking the first process of a wait queue twice before it runs links it
    twice, since it leaves the wait queue only when it runs. *)
Lemma wake_first_twice {S : Type} (s s' : kst S) (p r : Z) (q : list Z) :
  wake_first (p :: q) r s = Ok (tt, s') -> wake_first (p :: q) r s' = Fault.
Proof.
  unfold wake_first, __wake_first. intros H. apply wake_linked. unfold wake, ready in H.
  apply bind_inv in H as ([] & s1 & H1 & H). apply bind_inv in H as ([] & s2 & H2 & H).
  unfold add_ready in H. destruct (linked s2 p); [discriminate|]. injection H as <-.
  apply bool_decide_eq_true_2. simpl. set_solver.
Qed.

(** ** Waking sleeping processes *)

Section waking.

Context {S : Type}.

Abbreviation k := (kst S).

Definition rcs (s : k) : list Z := rc <$> s.(proctab).

(** Processes that sleep: each is in the table and on neither queue. *)
Definition asleep (s : k) (q : list Z) : Prop :=
  NoDup q /\ Forall (valid s) q /\ forall p, p ∈ q -> p ∉ s.(ready_queue) ++ s.(zombies).

Lemma fmap_update {A : Type} (f : pcb -> A) (t : list pcb) (i : nat) (a b : pcb) :
  t !! i = Some a -> f b = f a -> f <$> <[i := b]> t = f <$> t.
Proof.
  intros Ha Hb. rewrite list_fmap_insert, Hb. apply list_insert_id. rewrite list_lookup_fmap, Ha. reflexivity.
Qed.

(** [ready] changes no number and no result. *)
Lemma ready_keeps (s : k) (p : Z) :
  valid s p -> p ∉ s.(ready_queue) ++ s.(zombies) ->
  exists t, ready p s = Ok (tt, set_queues (set_procs s t) (s.(ready_queue) ++ [p]) s.(zombies)) /\
    pid <$> t = pids s /\ rc <$> t = rcs s /\ length t = length s.(proctab).
Proof.
  intros Hv Hp. destruct (valid_lookup s p Hv) as (a & H0 & Ha). unfold ready.
  rewrite (bind_ok _ _ _ _ _ (upd_run s p _ a H0 Ha)). unfold add_ready, linked. simpl.
  rewrite (bool_decide_eq_false_2 _ Hp). eexists. split; [reflexivity|].
  split; [eapply fmap_update; eauto|]. split; [eapply fmap_update; eauto | apply length_insert].
Qed.

Lemma wake_run (s : k) (p r : Z) :
  valid s p -> p ∉ s.(ready_queue) ++ s.(zombies) ->
  exists t, wake p r s = Ok (tt, set_queues (set_procs s t) (s.(ready_queue) ++ [p]) s.(zombies)) /\
    length t = length s.(proctab) /\ pid <$> t = pids s /\ rc <$> t = <[Z.to_nat p := r]> (rcs s).
Proof.
  intros Hv Hp. destruct (valid_lookup s p Hv) as (a & H0 & Ha). unfold wake.
  rewrite (bind_ok _ _ _ _ _ (upd_run s p _ a H0 Ha)).
  destruct (ready_keeps (set_procs s (<[Z.to_nat p := p_rc a r]> s.(proctab))) p) as (t & E & Hpid & Hrc & Ht).
  - unfold valid in *. simpl. rewrite length_insert. exact Hv.
  - exact Hp.
  - exists t. rewrite E. simpl in Ht. rewrite length_insert in Ht. split; [reflexivity|]. split; [exact Ht|].
    split; [rewrite Hpid; eapply fmap_update; eauto|]. rewrite Hrc. unfold rcs. simpl. rewrite list_fmap_insert. reflexivity.
Qed.

(** Waking a queue of sleeping processes moves them, in order, to the end of the
    ready queue, with the given result. *)
Lemma wake_all_run (q : list Z) (r : Z) :
  forall s : k, asleep s q ->
  exists t, wake_all q r s = Ok (tt, set_queues (set_procs s t) (s.(ready_queue) ++ q) s.(zombies)) /\
    length t = length s.(proctab) /\ pid <$> t = pids s /\
    (forall p, 0 <= p -> (rc <$> t) !! Z.to_nat p = if bool_decide (p ∈ q) then Some r else rcs s !! Z.to_nat p).
Proof.
  induction q as [| p q IH]; intros s (Hnd & Hv & Hq).
  - exists s.(proctab). rewrite app_nil_r. destruct s. split; [reflexivity|]. auto.
  - apply NoDup_cons in Hnd as [Hp Hnd]. apply Forall_cons in Hv as [Hvp Hv].
    destruct (wake_run s p r Hvp) as (t & E & Ht & Hpid & Hrc); [apply Hq; left|].
    destruct (IH (set_queues (set_procs s t) (s.(ready_queue) ++ [p]) s.(zombies))) as (t' & E' & Ht' & Hpid' & Hrc').
    + split; [exact Hnd|]. split.
      * eapply Forall_impl; [exact Hv|]. intros x. unfold valid. simpl. rewrite Ht. auto.
      * intros x Hx. simpl. pose proof (Hq x (list_elem_of_further _ _ _ Hx)) as Hn.
        assert (x <> p) by (intros ->; contradiction). set_solver.
    + exists t'. split; [|split; [simpl in Ht'; lia|split; [rewrite Hpid'; exact Hpid|]]].
      * unfold wake_all in *. simpl. erewrite bind_ok; [|exact E]. rewrite E'. simpl. rewrite <- app_assoc. reflexivity.
      * intros x Hx. rewrite (Hrc' x Hx). unfold rcs at 1. simpl. rewrite Hrc. unfold valid in Hvp.
        destruct (decide (x ∈ q)) as [Hxq | Hxq].
        -- rewrite !bool_decide_eq_true_2 by set_solver. reflexivity.
        -- rewrite (bool_decide_eq_false_2 _ Hxq). destruct (Z.eq_dec x p) as [-> | Hne].
           ++ rewrite bool_decide_eq_true_2 by left. apply list_lookup_insert_eq. unfold rcs. rewrite length_fmap. lia.
           ++ rewrite bool_decide_eq_false_2 by set_solver. apply list_lookup_insert_ne. lia.
Qed.

End waking.
