(* ===== verification/Signal.v ===== *)
(** * Signal delivery and the signal system calls (dispatch/signal.c)

    A context ([struct ucontext]) is 17 words: the registers in [save_all]
    order, then [eip], [cs], [eflags], [esp] and [ss]; its [stack] follows.
    Contexts and user structures are read and written word by word in [umem].
    System calls that wait are split where they call [schedule]. *)

From S2P Require Import Prelude Bitops Abi Vma Timer Sig Sched.

(** ** Contexts *)

Definition SEG_UCODE : Z := 24.
Definition SEG_UDATA : Z := 32.
Definition EFLAGS_IF : Z := 512.
Definition sizeof_ucontext : Z := 68.

(** Addresses of the fields of the context at [cx]. *)
Definition cx_eax (cx : Z) : Z := cx +% 20.
Definition cx_ds (cx : Z) : Z := cx +% 32.
Definition cx_es (cx : Z) : Z := cx +% 36.
Definition cx_fs (cx : Z) : Z := cx +% 40.
Definition cx_gs (cx : Z) : Z := cx +% 44.
Definition cx_eip (cx : Z) : Z := cx +% 48.
Definition cx_cs (cx : Z) : Z := cx +% 52.
Definition cx_eflags (cx : Z) : Z := cx +% 56.
Definition cx_esp (cx : Z) : Z := cx +% 60.
Definition cx_ss (cx : Z) : Z := cx +% 64.
Definition cx_stack (cx i : Z) : Z := cx +% (68 + 4 * i).

Section signals.

Context {S : Type}.

Abbreviation k := (kst S).

(** Code addresses of the kernel functions the frames refer to. *)
Context (sigtramp1 sig_err sig_terminate sig_stop : Z).

Definition put_iret_uframe (f eip esp : Z) : ST k unit :=
  mstore (cx_cs f) (Z.lor SEG_UCODE 3) ;;
  mstore (cx_eip f) eip ;;
  mstore (cx_eflags f) EFLAGS_IF ;;
  mstore (cx_esp f) esp ;;
  mstore (cx_ss f) (Z.lor SEG_UDATA 3) ;;
  mstore (cx_ds f) (Z.lor SEG_UDATA 3) ;;
  mstore (cx_es f) (Z.lor SEG_UDATA 3) ;;
  mstore (cx_fs f) (Z.lor SEG_UDATA 3) ;;
  mstore (cx_gs f) (Z.lor SEG_UDATA 3).

Definition upd_sig (p : Z) (f : sig_struct -> sig_struct) : ST k unit :=
  upd p (fun a => p_sig a (f a.(sig))).

(** ** Delivery *)

(** The arguments of the trampoline, words 0 to 10 of the frame's stack. *)
Definition place_sig_args (sig_cx sig_no : Z) (a : pcb) (act : sigaction) : ST k unit :=
  mstore (cx_stack sig_cx 0) sig_err ;;
  mstore (cx_stack sig_cx 1) act.(sa_handler) ;;
  mstore (cx_stack sig_cx 2) a.(esp) ;;
  mstore (cx_stack sig_cx 3) sig_no ;;
  if negb (Z.land act.(sa_flags) SA_SIGINFO =? 0) then
    info ← st_res (aload a.(sig).(infos) sig_no);
    mstore (cx_stack sig_cx 4) info.(si_errno) ;;
    mstore (cx_stack sig_cx 5) info.(si_code) ;;
    mstore (cx_stack sig_cx 6) info.(si_pid) ;;
    mstore (cx_stack sig_cx 7) info.(si_addr) ;;
    mstore (cx_stack sig_cx 8) info.(si_status) ;;
    mstore (cx_stack sig_cx 9) info.(si_band) ;;
    mstore (cx_stack sig_cx 10) info.(si_value)
  else mret tt.

Definition place_sig_frame (sig_cx sig_no : Z) : ST k unit :=
  put_iret_uframe sig_cx sigtramp1 (cx_stack sig_cx 0) ;;
  c ← cur;
  a ← proc c;
  act ← st_res (aload a.(sig).(actions) sig_no);
  place_sig_args sig_cx sig_no a act ;;
  if negb (a.(sig).(restore) =? 0) then
    mstore (cx_stack sig_cx 11) a.(sig).(restore) ;;
    upd_sig c (fun s => set_restore s 0)
  else mstore (cx_stack sig_cx 11) a.(sig).(mask).

Definition frame_pos (old_esp : Z) : Z := old_esp -% 4 * 30.

Definition clear_pending (p sig_no : Z) : ST k unit :=
  a ← proc p;
  w ← st_res (word_clear_bit (sig_no - 1) a.(sig).(pending));
  upd_sig p (fun s => set_pending s w).

Definition send_signal_user (sig_no : Z) : ST k Z :=
  c ← cur;
  a ← proc c;
  act ← st_res (aload a.(sig).(actions) sig_no);
  sp ← mload (cx_esp a.(esp));
  let sig_frame := frame_pos sp in
  (if act.(sa_handler) =? SIG_IGN then mret tt
   else
     place_sig_frame sig_frame sig_no ;;
     upd c (fun a => p_cx a sig_frame a.(esp)) ;;
     upd_sig c (fun s => set_mask s (Z.land s.(mask) (~% act.(sa_mask))))) ;;
  clear_pending c sig_no ;;
  mret 0.

Definition send_signal (p sig_no : Z) : ST k Z :=
  if negb (signo_valid sig_no) then mret (- EINVAL)
  else
    a ← proc p;
    if negb (Z.land a.(pflags) PFLAG_SUPER =? 0) then mret (- ENOTSUP)
    else send_signal_user sig_no.

Definition handle_signal : ST k unit :=
  c ← cur;
  a ← proc c;
  if signal_pending a.(sig) then _ ← send_signal c (pending_signal a.(sig)); mret tt
  else mret tt.

Definition sig_restore (old_cx : Z) : ST k Z :=
  c ← cur;
  upd c (fun a => p_cx a old_cx (old_cx +% sizeof_ucontext)) ;;
  sp ← mload (cx_esp old_cx);
  m ← mload (cx_stack (frame_pos sp) 11);
  upd_sig c (fun s => set_mask s m) ;;
  mret 0.

(** ** Actions and masks *)

Definition vm_ok (addr len flags : Z) : ST k bool :=
  a ← cur_proc;
  mret (vm_verify a.(mm) addr len flags =? 0).

Definition load_sigaction (p : Z) : ST k sigaction :=
  h ← mload p;
  m ← mload (p +% 4);
  f ← mload (p +% 8);
  mret (SigAction h m f).

Definition store_sigaction (p : Z) (a : sigaction) : ST k unit :=
  mstore p a.(sa_handler) ;; mstore (p +% 4) a.(sa_mask) ;; mstore (p +% 8) a.(sa_flags).

(** Returns whether the action is acceptable; [sizeof] a function is 1. *)
Definition verify_sigaction (act : Z) : ST k bool :=
  ok ← vm_ok act 12 VM_READ;
  if negb ok then mret false
  else
    h ← mload act;
    if (h =? SIG_DFL) || (h =? SIG_IGN) then mret true
    else vm_ok h 1 VM_READ.

Definition sys_sigaction (sg act oact : Z) : ST k Z :=
  bad_act ← (if act =? 0 then mret false else ok ← verify_sigaction act; mret (negb ok));
  if (bad_act : bool) then mret (- EFAULT)
  else
    bad_oact ← (if oact =? 0 then mret false else ok ← vm_ok oact 12 VM_WRITE; mret (negb ok));
    if (bad_oact : bool) then mret (- EFAULT)
    else if negb (signo_valid sg) || sig_unblockable sg then mret (- EINVAL)
    else
      c ← cur;
      a ← proc c;
      old ← st_res (aload a.(sig).(actions) sg);
      (if oact =? 0 then mret tt else store_sigaction oact old) ;;
      (if act =? 0 then mret tt
       else
         new ← load_sigaction act;
         new ← (if new.(sa_handler) =? SIG_DFL
                then st_res (sig_set_default sig_terminate sig_stop new sg) else mret new);
         l ← st_res (astore a.(sig).(actions) sg new);
         upd_sig c (fun s => set_actions s l) ;;
         m ← st_res (word_set_bit (sg - 1) a.(sig).(mask));
         upd_sig c (fun s => set_mask s m)) ;;
      mret 0.

(** The change of the mask; [None] for an unknown [how]. *)
Definition sigmask_change (how set m : Z) : option Z :=
  if how =? SIG_BLOCK then Some (Z.lor (Z.land m (~% set)) SIG_NOIGNORE)
  else if how =? SIG_SETMASK then Some (Z.lor (~% set) SIG_NOIGNORE)
  else if how =? SIG_UNBLOCK then Some (Z.lor m set)
  else None.

Definition sys_sigprocmask (how set oset : Z) : ST k Z :=
  bad ← (if set =? 0 then mret false else ok ← vm_ok set 4 VM_READ; mret (negb ok));
  if (bad : bool) then mret (- EFAULT)
  else
    bad ← (if oset =? 0 then mret false else ok ← vm_ok oset 4 VM_WRITE; mret (negb ok));
    if (bad : bool) then mret (- EFAULT)
    else
      c ← cur;
      a ← proc c;
      (if oset =? 0 then mret tt else mstore oset (~% a.(sig).(mask))) ;;
      if set =? 0 then mret 0
      else
        v ← mload set;
        match sigmask_change how v a.(sig).(mask) with
        | Some m => upd_sig c (fun s => set_mask s m) ;; mret 0
        | None => mret (- EINVAL)
        end.

(** ** Waiting for signals *)

Definition block (st : Z) : ST k unit :=
  c ← cur;
  upd c (fun a => p_state a st) ;;
  _ ← _schedule;
  mret tt.

Definition sigwait_done (sigp signo : Z) : ST k Z :=
  c ← cur;
  mstore sigp signo ;;
  clear_pending c signo ;;
  mret 0.

(** [None]: the process blocks; it continues with [sys_sigwait_resume]. *)
Definition sys_sigwait (set sigp : Z) : ST k (option Z) :=
  ok ← vm_ok sigp 4 VM_WRITE;
  if negb ok then mret (Some (- EFAULT))
  else
    a ← cur_proc;
    let set := Z.land set (~% SIG_NOIGNORE) in
    if negb (Z.land a.(sig).(pending) set =? 0)
    then r ← sigwait_done sigp (fls (Z.land a.(sig).(pending) set)); mret (Some r)
    else block PROC_SIGWAIT ;; mret None.

Definition sys_sigwait_resume (set sigp : Z) : ST k (option Z) :=
  a ← cur_proc;
  let set := Z.land set (~% SIG_NOIGNORE) in
  let signo := a.(rc) in
  if sigismember set signo then r ← sigwait_done sigp signo; mret (Some r)
  else
    acc ← st_res (signal_accepted a.(sig) signo);
    if (acc : bool) then mret (Some (- EINTR)) else block PROC_SIGWAIT ;; mret None.

(** Always blocks and then returns [-EINTR]. *)
Definition sys_sigsuspend (m : Z) : ST k unit :=
  c ← cur;
  upd_sig c (fun s => set_mask (set_restore s s.(mask)) (Z.lor (~% m) SIG_NOIGNORE)) ;;
  block PROC_INTERRUPTIBLE.

(** ** Sending *)

Definition needs_wake (a : pcb) (sig_no : Z) : res bool :=
  if a.(state) =? PROC_SIGWAIT then Ok true
  else if a.(state) =? PROC_INTERRUPTIBLE then signal_accepted a.(sig) sig_no
  else if a.(state) =? PROC_WAITING then
    if sig_no =? SIGCHLD then Ok true else signal_accepted a.(sig) sig_no
  else Ok false.

Definition __kill (p sig_no code : Z) : ST k unit :=
  a ← proc p;
  w ← st_res (word_set_bit (sig_no - 1) a.(sig).(pending));
  upd_sig p (fun s => set_pending s w) ;;
  act ← st_res (aload a.(sig).(actions) sig_no);
  (if negb (Z.land act.(sa_flags) SA_SIGINFO =? 0) then
     i ← st_res (aload a.(sig).(infos) sig_no);
     cp ← cur_proc;
     eip ← mload (cx_eip a.(esp));
     l ← st_res (astore a.(sig).(infos) sig_no
                   (SigInfo i.(si_signo) code 0 cp.(pid) i.(si_uid) eip i.(si_status)
                            i.(si_band) i.(si_value)));
     upd_sig p (fun s => set_infos s l)
   else mret tt) ;;
  a ← proc p;
  w ← st_res (needs_wake a sig_no);
  if (w : bool) then wake p sig_no else mret tt.

Definition sys_kill (n sg : Z) : ST k Z :=
  p ← get_pcb n;
  match p with
  | None => mret (- ESRCH)
  | Some p =>
      if sg =? 0 then mret 0
      else if negb (signo_valid sg) then mret (- EINVAL)
      else __kill p sg SI_USER ;; mret 0
  end.

Definition sys_sigqueue (n sg value : Z) : ST k Z :=
  p ← get_pcb n;
  match p with
  | None => mret (- ESRCH)
  | Some p =>
      if sg =? 0 then mret 0
      else if negb (signo_valid sg) then mret (- EINVAL)
      else
        a ← proc p;
        i ← st_res (aload a.(sig).(infos) sg);
        l ← st_res (astore a.(sig).(infos) sg
                      (SigInfo i.(si_signo) i.(si_code) i.(si_errno) i.(si_pid) i.(si_uid)
                               i.(si_addr) i.(si_status) i.(si_band) value));
        upd_sig p (fun s => set_infos s l) ;;
        __kill p sg SI_QUEUE ;;
        mret 0
  end.

End signals.

(** ** Sets of signals as sets of numbers *)

(** [handle_signal] delivers the pending signal with the highest number among
    those not blocked, if there is one. *)
Theorem pending_signal_highest (s : sig_struct) :
  in_u32 s.(pending) -> in_u32 s.(mask) -> signal_pending s = true ->
  let n := pending_signal s in
  1 <= n <= 32 /\ Z.testbit s.(pending) (n - 1) = true /\ Z.testbit s.(mask) (n - 1) = true /\
  forall j, n < j -> Z.testbit s.(pending) (j - 1) && Z.testbit s.(mask) (j - 1) = false.
Proof.
  intros Hp Hm Hs n. unfold signal_pending in Hs. apply negb_true_iff, Z.eqb_neq in Hs.
  pose proof (land_u32_l (pending s) (mask s) Hp) as Hr.
  assert (0 < Z.land (pending s) (mask s) < 2 ^ 32) as Hpos by word_lia.
  destruct (fls_spec _ Hpos) as (H1 & H2 & H3). fold (pending_signal s) in *. subst n.
  rewrite Z.land_spec, andb_true_iff in H2. split; [exact H1|]. split; [tauto|]. split; [tauto|].
  intros j Hj. rewrite <- Z.land_spec. apply H3. lia.
Qed.

Lemma pending_signal_highest_witness :
  let s := SigStruct 257 4294967039 0 [] [] in pending_signal s = 1 /\ 1 <= pending_signal s <= 32.
Proof.
  intros s. split; [reflexivity|]. apply (pending_signal_highest s); [cbv; split; congruence.. | reflexivity].
Defined.

(** ** Memory *)

Section proofs.

Context {S : Type}.

Abbreviation k := (kst S).

Definition present (s : k) (a : Z) : Prop := is_Some (s.(umem) !! a).

Lemma mload_run (s : k) (a w : Z) : s.(umem) !! a = Some w -> mload a s = Ok (w, s).
Proof. intros H. unfold mload. rewrite H. reflexivity. Qed.

Lemma mstore_run (s : k) (a w : Z) :
  present s a -> mstore a w s = Ok (tt, set_umem s (<[a := w]> s.(umem))).
Proof. intros [v H]. unfold mstore, mbind, st_bind, mload. rewrite H. reflexivity. Qed.

(** [m] writes to memory cells in [D] and to nothing else. *)
Definition stores (D : Z -> Prop) (m : ST k unit) : Prop :=
  forall s, (forall a, D a -> present s a) ->
  exists mem, m s = Ok (tt, set_umem s mem) /\
    (forall a, present s a -> is_Some (mem !! a)) /\ (forall a, ~ D a -> mem !! a = s.(umem) !! a).

Lemma stores_ret (D : Z -> Prop) : stores D (mret tt).
Proof. intros s _. exists (umem s). split_and!; auto. destruct s; reflexivity. Qed.

Lemma stores_mstore (D : Z -> Prop) (a w : Z) : D a -> stores D (mstore a w).
Proof.
  intros Ha s HD. exists (<[a := w]> (umem s)). rewrite mstore_run by auto. split_and!; auto.
  - intros b Hb. rewrite lookup_insert. case_decide; eauto.
  - intros b Hb. apply lookup_insert_ne. congruence.
Qed.

Lemma stores_seq (D : Z -> Prop) (m1 m2 : ST k unit) :
  stores D m1 -> stores D m2 -> stores D (m1 ;; m2).
Proof.
  intros H1 H2 s HD. destruct (H1 s HD) as (mem1 & E1 & Hp1 & Hn1).
  destruct (H2 (set_umem s mem1)) as (mem2 & E2 & Hp2 & Hn2); [intros a Ha; apply Hp1, HD, Ha|].
  exists mem2. rewrite (bind_ok _ _ _ _ _ E1), E2. split_and!; auto.
  - intros a Ha. apply Hp2, Hp1, Ha.
  - intros a Ha. rewrite Hn2 by exact Ha. apply Hn1, Ha.
Qed.

(** The 30 words of a signal frame. *)
Definition frame_words (f a : Z) : Prop := exists j, 0 <= j < 30 /\ a = f +% 4 * j.

Lemma put_iret_uframe_stores (f eip esp : Z) : stores (frame_words f) (put_iret_uframe f eip esp).
Proof.
  unfold put_iret_uframe.
  repeat apply stores_seq; apply stores_mstore;
    [exists 13 | exists 12 | exists 14 | exists 15 | exists 16 | exists 8 | exists 9 | exists 10 | exists 11];
    split; lia || reflexivity.
Qed.

Lemma stack_word (f i w : Z) : 0 <= i < 13 -> stores (frame_words f) (mstore (cx_stack f i) w).
Proof.
  intros Hi. apply stores_mstore. exists (17 + i). split; [lia|]. unfold cx_stack. f_equal. lia.
Qed.

(** The mask a signal frame saves. *)
Definition saved_mask (s : sig_struct) : Z := if s.(restore) =? 0 then s.(mask) else s.(restore).

Context (sigtramp1 sig_err : Z).

Lemma place_sig_args_stores (f n : Z) (a : pcb) (act : sigaction) (info : siginfo) :
  aload a.(sig).(infos) n = Ok info -> stores (frame_words f) (place_sig_args sig_err f n a act).
Proof.
  intros Hi. unfold place_sig_args. repeat (apply stores_seq; [apply stack_word; lia|]).
  destruct (negb _); [|apply stores_ret]. intros s Hs.
  erewrite bind_ok by (unfold st_res; rewrite Hi; reflexivity). revert s Hs.
  repeat (apply stores_seq; [apply stack_word; lia|]). apply stack_word. lia.
Qed.

Lemma set_restore_same (s : k) (c : Z) (a : pcb) :
  s.(proctab) !! Z.to_nat c = Some a -> a.(sig).(restore) = 0 ->
  set_procs s (<[Z.to_nat c := p_sig a (set_restore a.(sig) 0)]> s.(proctab)) = s.
Proof.
  intros Ha Hr. replace (p_sig a (set_restore (sig a) 0)) with a.
  - rewrite list_insert_id by exact Ha. destruct s; reflexivity.
  - destruct a as [? ? ? ? ? ? ? ? ? ? ? ? ? [] ? ? ?]. simpl in *. subst. reflexivity.
Qed.

Lemma place_sig_frame_run (s : k) (c f n : Z) (a : pcb) (act : sigaction) (info : siginfo) :
  s.(current) = c -> 0 <= c -> s.(proctab) !! Z.to_nat c = Some a ->
  aload a.(sig).(actions) n = Ok act -> aload a.(sig).(infos) n = Ok info ->
  (forall w, frame_words f w -> present s w) ->
  exists mem, place_sig_frame sigtramp1 sig_err f n s =
      Ok (tt, set_umem (set_procs s (<[Z.to_nat c := p_sig a (set_restore a.(sig) 0)]> s.(proctab))) mem) /\
    mem !! cx_stack f 11 = Some (saved_mask a.(sig)) /\
    (forall w, ~ frame_words f w -> mem !! w = s.(umem) !! w).
Proof.
  intros Hc H0 Ha Hact Hinfo Hpres.
  assert (frame_words f (cx_stack f 11)) as H11 by (exists 28; split; [lia | reflexivity]).
  destruct (put_iret_uframe_stores f sigtramp1 (cx_stack f 0) s Hpres) as (m1 & E1 & P1 & N1).
  unfold place_sig_frame. rewrite (bind_ok _ _ _ _ _ E1). erewrite bind_ok by reflexivity.
  change (current (set_umem s m1)) with (current s). rewrite Hc.
  rewrite (bind_ok _ _ _ _ _ (proc_run (set_umem s m1) c a H0 Ha)).
  erewrite bind_ok by (unfold st_res; rewrite Hact; reflexivity).
  destruct (place_sig_args_stores f n a act info Hinfo (set_umem s m1)) as (m2 & E2 & P2 & N2).
  { intros w Hw. apply P1, Hpres, Hw. }
  rewrite (bind_ok _ _ _ _ _ E2).
  change (set_umem (set_umem s m1) m2) with (set_umem s m2). set (s2 := set_umem s m2).
  assert (present s2 (cx_stack f 11)) as Hp2 by (apply P2, P1, Hpres, H11).
  assert (forall v w, ~ frame_words f w -> <[cx_stack f 11 := v]> m2 !! w = umem s !! w) as HN.
  { intros v w Hw. rewrite lookup_insert_ne by congruence. simpl in N2. rewrite N2, N1 by exact Hw. reflexivity. }
  unfold saved_mask. destruct (Z.eqb_spec (restore (sig a)) 0) as [Er | Er]; cbn [negb].
  - exists (<[cx_stack f 11 := mask (sig a)]> m2). rewrite (set_restore_same s c a Ha Er).
    split; [exact (mstore_run s2 (cx_stack f 11) _ Hp2)|]. split; [apply lookup_insert_eq | apply HN].
  - exists (<[cx_stack f 11 := restore (sig a)]> m2).
    rewrite (bind_ok _ _ _ _ _ (mstore_run s2 (cx_stack f 11) (restore (sig a)) Hp2)).
    unfold upd_sig. rewrite (upd_run _ c _ a H0) by exact Ha.
    split; [reflexivity|]. split; [apply lookup_insert_eq | apply HN].
Qed.

Lemma upd_sig_run (s : k) (p : Z) (g : sig_struct -> sig_struct) (a : pcb) :
  0 <= p -> s.(proctab) !! Z.to_nat p = Some a ->
  upd_sig p g s = Ok (tt, set_procs s (<[Z.to_nat p := p_sig a (g a.(sig))]> s.(proctab))).
Proof. apply upd_run. Qed.

Lemma clear_pending_run (s : k) (p n : Z) (a : pcb) :
  0 <= p -> s.(proctab) !! Z.to_nat p = Some a -> signo_valid n = true ->
  clear_pending p n s = Ok (tt, set_procs s
    (<[Z.to_nat p := p_sig a (set_pending a.(sig) (sigdelset a.(sig).(pending) n))]> s.(proctab))).
Proof.
  intros H0 Ha Hv. unfold clear_pending. rewrite (bind_ok _ _ _ _ _ (proc_run s p a H0 Ha)).
  erewrite bind_ok by (unfold st_res; rewrite word_clear_bit_eq by exact Hv; reflexivity).
  apply upd_sig_run; auto.
Qed.

Lemma sig_restore_run (s : k) (c cx sp m : Z) (a : pcb) :
  s.(current) = c -> 0 <= c -> s.(proctab) !! Z.to_nat c = Some a ->
  s.(umem) !! cx_esp cx = Some sp -> s.(umem) !! cx_stack (frame_pos sp) 11 = Some m ->
  sig_restore cx s = Ok (0, set_procs s
    (<[Z.to_nat c := p_sig (p_cx a cx (cx +% sizeof_ucontext)) (set_mask a.(sig) m)]> s.(proctab))).
Proof.
  intros Hc H0 Ha Hsp Hm. pose proof (lookup_lt_Some _ _ _ Ha) as Hlt. unfold sig_restore.
  erewrite bind_ok by reflexivity. rewrite Hc, (bind_ok _ _ _ _ _ (upd_run s c _ a H0 Ha)).
  set (s1 := set_procs s _).
  rewrite (bind_ok _ _ _ _ _ (mload_run s1 _ sp Hsp)), (bind_ok _ _ _ _ _ (mload_run s1 _ m Hm)).
  erewrite bind_ok by (eapply (upd_sig_run s1 c); [exact H0 | apply list_lookup_insert_eq, Hlt]).
  unfold s1, mret, st_ret, set_procs. simpl. rewrite list_insert_insert_eq. reflexivity.
Qed.

(** The state after a handler has been entered. *)
Definition handler_pcb (a : pcb) (act : sigaction) (f n : Z) : pcb :=
  p_sig (p_cx a f a.(esp))
    (SigStruct (sigdelset a.(sig).(pending) n) (Z.land a.(sig).(mask) (~% act.(sa_mask))) 0
               a.(sig).(actions) a.(sig).(infos)).

Lemma send_signal_user_run (s : k) (c n sp : Z) (a : pcb) (act : sigaction) (info : siginfo) :
  s.(current) = c -> 0 <= c -> s.(proctab) !! Z.to_nat c = Some a -> signo_valid n = true ->
  aload a.(sig).(actions) n = Ok act -> aload a.(sig).(infos) n = Ok info ->
  act.(sa_handler) <> SIG_IGN -> s.(umem) !! cx_esp a.(esp) = Some sp ->
  (forall w, frame_words (frame_pos sp) w -> present s w) ->
  exists mem, send_signal_user sigtramp1 sig_err n s =
      Ok (0, set_umem (set_procs s (<[Z.to_nat c := handler_pcb a act (frame_pos sp) n]> s.(proctab))) mem) /\
    mem !! cx_stack (frame_pos sp) 11 = Some (saved_mask a.(sig)) /\
    (forall w, ~ frame_words (frame_pos sp) w -> mem !! w = s.(umem) !! w).
Proof.
  intros Hc H0 Ha Hv Hact Hinfo Hh Hsp Hfr. pose proof (lookup_lt_Some _ _ _ Ha) as Hlt.
  set (f := frame_pos sp) in *.
  destruct (place_sig_frame_run s c f n a act info Hc H0 Ha Hact Hinfo Hfr) as (mem & Ep & H11 & Hout).
  exists mem. split; [|auto]. unfold send_signal_user. erewrite bind_ok by reflexivity. rewrite Hc.
  rewrite (bind_ok _ _ _ _ _ (proc_run s c a H0 Ha)).
  erewrite bind_ok by (unfold st_res; rewrite Hact; reflexivity).
  rewrite (bind_ok _ _ _ _ _ (mload_run s _ sp Hsp)). fold f.
  destruct (Z.eqb_spec (sa_handler act) SIG_IGN) as [? | _]; [contradiction|].
  set (s1 := set_umem (set_procs s _) mem) in *.
  assert (proctab s1 !! Z.to_nat c = Some (p_sig a (set_restore (sig a) 0))) as Ha1
    by (apply list_lookup_insert_eq, Hlt).
  erewrite (bind_ok _ _ s); cycle 1.
  { rewrite (bind_ok _ _ _ _ _ Ep), (bind_ok _ _ _ _ _ (upd_run s1 c _ _ H0 Ha1)).
    apply upd_sig_run; [exact H0|]. apply list_lookup_insert_eq. simpl. rewrite length_insert. exact Hlt. }
  erewrite bind_ok by (apply clear_pending_run; [exact H0 | | exact Hv];
    apply list_lookup_insert_eq; simpl; rewrite !length_insert; exact Hlt).
  unfold mret, st_ret, s1, set_procs, set_umem. simpl. rewrite !list_insert_insert_eq. reflexivity.
Qed.

(** C15: delivery and return.  When a handler is installed for a signal, delivering
    it switches the process to a new frame below the interrupted stack, clears
    the pending bit and blocks the signals the action asks for; when the handler
    later returns through [sig_restore] with the interrupted context and the
    frame's saved word intact, the process continues with the context, the
    kernel stack pointer and the signal mask it had before (the mask from before
    [sigsuspend], if that was what the signal interrupted). *)
Theorem signal_roundtrip (s : k) (c n sp : Z) (a : pcb) (act : sigaction) (info : siginfo) :
  s.(current) = c -> 0 <= c -> s.(proctab) !! Z.to_nat c = Some a ->
  signo_valid n = true ->
  aload a.(sig).(actions) n = Ok act -> aload a.(sig).(infos) n = Ok info ->
  act.(sa_handler) <> SIG_IGN ->
  s.(umem) !! cx_esp a.(esp) = Some sp -> a.(ifp) = a.(esp) +% sizeof_ucontext ->
  (forall w, frame_words (frame_pos sp) w -> present s w /\ w <> cx_esp a.(esp)) ->
  exists (s1 : k) a1, send_signal_user sigtramp1 sig_err n s = Ok (0, s1) /\
    s1.(proctab) !! Z.to_nat c = Some a1 /\ a1.(esp) = frame_pos sp /\ a1.(ifp) = a.(esp) /\
    a1.(sig).(mask) = Z.land a.(sig).(mask) (~% act.(sa_mask)) /\
    sigismember a1.(sig).(pending) n = false /\
    forall s2 : k, s2.(current) = c -> s2.(proctab) = s1.(proctab) ->
      s2.(umem) !! cx_esp a.(esp) = s1.(umem) !! cx_esp a.(esp) ->
      s2.(umem) !! cx_stack (frame_pos sp) 11 = s1.(umem) !! cx_stack (frame_pos sp) 11 ->
      exists (s3 : k) a3, sig_restore a.(esp) s2 = Ok (0, s3) /\ s3.(proctab) !! Z.to_nat c = Some a3 /\
        a3.(esp) = a.(esp) /\ a3.(ifp) = a.(ifp) /\ a3.(sig).(mask) = saved_mask a.(sig).
Proof.
  intros Hc H0 Ha Hv Hact Hinfo Hh Hsp Hifp Hfr. pose proof (lookup_lt_Some _ _ _ Ha) as Hlt.
  destruct (send_signal_user_run s c n sp a act info) as (mem & E & H11 & Hout); auto.
  { intros w Hw. apply Hfr, Hw. }
  eexists _, (handler_pcb a act (frame_pos sp) n). split; [exact E|]. simpl.
  split; [apply list_lookup_insert_eq, Hlt|]. split_and!; auto.
  - rewrite sigdelset_member, Z.eqb_refl by auto. reflexivity.
  - intros s2 Hc2 Hp2 Hm1 Hm2. eexists _, _. split; [|split].
    + eapply (sig_restore_run s2 c (esp a) sp (saved_mask (sig a))); [exact Hc2 | exact H0 | | |].
      * rewrite Hp2. apply list_lookup_insert_eq, Hlt.
      * rewrite Hm1, Hout; [exact Hsp|]. intros Hw. apply Hfr in Hw. tauto.
      * rewrite Hm2. exact H11.
    + simpl. rewrite Hp2. apply list_lookup_insert_eq. rewrite length_insert. exact Hlt.
    + simpl. auto.
Qed.

End proofs.

(** ** Example *)

Definition sig_example : pcb :=
  Pcb 0 4294959020 4294959088 (MM 0 [] 0) 1 1 0 PROC_READY [] [] 0 [] 0
    (SigStruct 258 4294967295 0 (replicate 29 (SigAction 5000 2 0)) (replicate 29 (SigInfo 0 0 0 0 0 0 0 0 0)))
    (replicate 8 0) 0 0.

Definition sig_kst : kst unit := {|
  proctab := [sig_example]; current := 0; ready_queue := []; zombies := []; idle_pid := 256;
  timers_of := Timers ∅ [] 0;
  umem := <[4294959080 := 8192]> (list_to_map ((fun i => (8072 + 4 * i, 0)) <$> zseq 0 30));
  env := tt;
|}.

Lemma signal_roundtrip_witness :
  exists (s1 : kst unit) a1, send_signal_user 111 222 9 sig_kst = Ok (0, s1) /\
    s1.(proctab) !! 0%nat = Some a1 /\ a1.(esp) = 8072 /\
    exists (s3 : kst unit) a3, sig_restore 4294959020 s1 = Ok (0, s3) /\ s3.(proctab) !! 0%nat = Some a3 /\
      a3.(esp) = 4294959020 /\ a3.(sig).(mask) = 4294967295.
Proof.
  destruct (signal_roundtrip 111 222 sig_kst 0 9 8192 sig_example (SigAction 5000 2 0)
              (SigInfo 0 0 0 0 0 0 0 0 0)) as (s1 & a1 & E1 & E2 & E3 & _ & _ & _ & H);
    try reflexivity; try lia; [discriminate | |].
  - intros w (j & Hj & ->). split.
    + assert (Forall (fun j => present sig_kst (frame_pos 8192 +% 4 * j)) (zseq 0 30)) as HF.
      { unfold zseq. simpl. repeat constructor; unfold present; vm_compute; eauto. }
      rewrite Forall_forall in HF. apply HF, elem_of_zseq. lia.
    + change (frame_pos 8192) with 8072. change (cx_esp (esp sig_example)) with 4294959080. word_lia.
  - exists s1, a1. split; [exact E1|]. split; [exact E2|]. split; [exact E3|].
    destruct (H s1) as (s3 & a3 & F1 & F2 & F3 & _ & F4); try reflexivity.
    + unfold send_signal_user in E1. vm_compute in E1. injection E1 as <-. reflexivity.
    + exists s3, a3. auto.
Defined.

(** ** Sending *)

Section sending.

Context {S : Type}.

Abbreviation k := (kst S).

(** What [__kill] does to the target when its action does not ask for the
    signal information. *)
Lemma kill_run (s : k) (p n code : Z) (a : pcb) (act : sigaction) (w : bool) :
  0 <= p -> s.(proctab) !! Z.to_nat p = Some a -> signo_valid n = true ->
  aload a.(sig).(actions) n = Ok act -> Z.land act.(sa_flags) SA_SIGINFO = 0 ->
  needs_wake a n = Ok w -> (w = true -> p ∉ s.(ready_queue) ++ s.(zombies)) ->
  let a' := p_sig a (set_pending a.(sig) (sigaddset a.(sig).(pending) n)) in
  __kill p n code s =
    Ok (tt, if w then set_queues (set_procs s (<[Z.to_nat p := p_state (p_rc a' n) PROC_READY]> s.(proctab)))
                        (s.(ready_queue) ++ [p]) s.(zombies)
            else set_procs s (<[Z.to_nat p := a']> s.(proctab))).
Proof.
  intros H0 Ha Hv Hact Hf Hw Hq a'. pose proof (lookup_lt_Some _ _ _ Ha) as Hlt.
  unfold __kill. rewrite (bind_ok _ _ _ _ _ (proc_run s p a H0 Ha)).
  erewrite bind_ok by (unfold st_res; rewrite word_set_bit_eq by exact Hv; reflexivity).
  rewrite (bind_ok _ _ _ _ _ (upd_sig_run s p _ a H0 Ha)). fold a'.
  erewrite bind_ok by (unfold st_res; rewrite Hact; reflexivity). rewrite Hf. cbn [negb Z.eqb].
  erewrite bind_ok by reflexivity. set (s1 := set_procs s _).
  assert (proctab s1 !! Z.to_nat p = Some a') as Ha1 by (apply list_lookup_insert_eq, Hlt).
  rewrite (bind_ok _ _ _ _ _ (proc_run s1 p a' H0 Ha1)).
  assert (needs_wake a' n = Ok w) as Hw' by exact Hw.
  erewrite bind_ok by (unfold st_res; rewrite Hw'; reflexivity).
  destruct w; [|reflexivity]. unfold wake, ready.
  rewrite (bind_ok _ _ _ _ _ (upd_run s1 p _ a' H0 Ha1)).
  erewrite bind_ok by (eapply upd_run; [exact H0 | apply list_lookup_insert_eq; simpl; rewrite length_insert; exact Hlt]).
  unfold add_ready, linked. simpl. rewrite (bool_decide_eq_false_2 _ (Hq eq_refl)).
  unfold set_procs, set_queues. simpl. rewrite !list_insert_insert_eq. reflexivity.
Qed.

(** C16: [sys_kill] reports [ESRCH] when no live process has the number and
    [EINVAL] for a bad signal, changing nothing; otherwise it marks the signal
    pending for exactly that process, and makes it ready with the signal as the
    result of its wait if it was waiting in a way the signal ends. *)
Theorem sys_kill_correct (s : k) (n sg : Z) :
  pids_ok s ->
  ((forall p, ~ alive s p n) /\ sys_kill n sg s = Ok (- ESRCH, s)) \/
  exists p a, alive s p n /\ s.(proctab) !! Z.to_nat p = Some a /\
    (sg = 0 -> sys_kill n sg s = Ok (0, s)) /\
    (sg <> 0 -> signo_valid sg = false -> sys_kill n sg s = Ok (- EINVAL, s)) /\
    (forall act w, signo_valid sg = true -> aload a.(sig).(actions) sg = Ok act ->
       Z.land act.(sa_flags) SA_SIGINFO = 0 -> needs_wake a sg = Ok w ->
       (w = true -> p ∉ s.(ready_queue) ++ s.(zombies)) ->
       exists (s' : k) a', sys_kill n sg s = Ok (0, s') /\
         s'.(proctab) = <[Z.to_nat p := a']> s.(proctab) /\
         a'.(sig) = set_pending a.(sig) (sigaddset a.(sig).(pending) sg) /\
         a'.(pid) = a.(pid) /\
         (if w then a'.(state) = PROC_READY /\ a'.(rc) = sg /\ s'.(ready_queue) = s.(ready_queue) ++ [p]
          else a'.(state) = a.(state) /\ s'.(ready_queue) = s.(ready_queue))).
Proof.
  intros Hok. destruct (get_pcb_spec s n Hok) as (r & Hg & Hr). unfold sys_kill.
  rewrite (bind_ok _ _ _ _ _ Hg). destruct r as [p|].
  - right. assert (alive s p n) as Hal by (apply Hr; reflexivity).
    pose proof Hal as (H0 & a & Ha & _). exists p, a. split_and!; [exact Hal | exact Ha | intros ->; reflexivity | |].
    + intros Hne Hv. destruct (Z.eqb_spec sg 0); [contradiction|]. rewrite Hv. reflexivity.
    + intros act w Hv Hact Hf Hw Hq.
      destruct (Z.eqb_spec sg 0) as [-> |]; [discriminate|]. rewrite Hv. cbn [negb].
      rewrite (bind_ok _ _ _ _ _ (kill_run s p sg SI_USER a act w H0 Ha Hv Hact Hf Hw Hq)).
      destruct w; eexists _, _; (split; [reflexivity|]); (split; [reflexivity|]); simpl; auto.
  - left. split; [|reflexivity]. intros p Hal. apply Hr in Hal. discriminate.
Qed.

End sending.

(** ** Masks *)

(** Signals that stay deliverable whatever a process blocks: [SIG_NOIGNORE] is
    built from [BIT(SIGKILL)] and [BIT(SIGSTOP)], while signal [n] is bit [n - 1]
    of a set, so the bits it holds are those of [SIGKILL] and of no signal. *)
Lemma noignore_member (j : Z) : signo_valid j = true -> sigismember SIG_NOIGNORE j = (j =? SIGKILL).
Proof.
  intros Hv. rewrite sigismember_bit by exact Hv. unfold signo_valid, _TELOS_SIGMAX in Hv.
  change SIG_NOIGNORE with (2 ^ 28 + 2 ^ 27).
  assert (j = 28 \/ j < 28) as [-> | Hj] by lia; [reflexivity|].
  replace (j =? SIGKILL) with false by (symmetry; apply Z.eqb_neq; unfold SIGKILL; lia).
  change (2 ^ 28 + 2 ^ 27) with (3 * 2 ^ 27). rewrite Z.mul_pow2_bits by lia.
  apply Z.testbit_neg_r. lia.
Qed.

(** The effect of [sys_sigprocmask] on the set of deliverable signals. *)
Lemma sigmask_change_spec (how set m m' j : Z) :
  signo_valid j = true -> sigmask_change how set m = Some m' ->
  sigismember m' j =
    if how =? SIG_BLOCK then (sigismember m j && negb (sigismember set j)) || (j =? SIGKILL)
    else if how =? SIG_SETMASK then negb (sigismember set j) || (j =? SIGKILL)
    else sigismember m j || sigismember set j.
Proof.
  intros Hv. pose proof (noignore_member j Hv) as Hn. unfold sigmask_change.
  rewrite !sigismember_bit in * by exact Hv. unfold signo_valid, _TELOS_SIGMAX in Hv.
  assert (Z.testbit (~% set) (j - 1) = negb (Z.testbit set (j - 1))) as Hnot.
  { rewrite testbit_uN, Z.lnot_spec by lia. destruct (Z.ltb_spec (j - 1) 32); [reflexivity | lia]. }
  destruct (how =? SIG_BLOCK); [intros [= <-]; rewrite Z.lor_spec, Z.land_spec, Hn, Hnot; reflexivity|].
  destruct (how =? SIG_SETMASK); [intros [= <-]; rewrite Z.lor_spec, Hn, Hnot; reflexivity|].
  destruct (how =? SIG_UNBLOCK); [intros [= <-]; rewrite Z.lor_spec; reflexivity | discriminate].
Qed.

(** A process can block [SIGSTOP], which the code means to be impossible,
    but not [SIGKILL]. *)
Theorem sigprocmask_blocks_sigstop (m m' set : Z) :
  sigismember set SIGSTOP = true -> sigmask_change SIG_SETMASK set m = Some m' ->
  sigismember m' SIGSTOP = false /\ sigismember m' SIGKILL = true.
Proof.
  intros Hset Hm. split.
  - rewrite (sigmask_change_spec SIG_SETMASK set m m' SIGSTOP) by auto. simpl. rewrite Hset. reflexivity.
  - rewrite (sigmask_change_spec SIG_SETMASK set m m' SIGKILL) by auto. simpl. apply orb_true_r.
Qed.

Lemma sigprocmask_blocks_sigstop_witness :
  exists m', sigmask_change SIG_SETMASK 67108864 sigfillset = Some m' /\ sigismember m' SIGSTOP = false.
Proof.
  eexists. split; [reflexivity|].
  apply (sigprocmask_blocks_sigstop sigfillset _ 67108864); reflexivity.
Defined.

(** A full process table, with the given states. *)
Definition blank_table (st : Z -> Z) : list pcb := (fun i => blank_pcb i (st i)) <$> zseq 0 256.

Lemma blank_table_lookup (st : Z -> Z) (i : Z) :
  0 <= i < 256 -> blank_table st !! Z.to_nat i = Some (blank_pcb i (st i)).
Proof.
  intros Hi. unfold blank_table, zseq. rewrite !list_lookup_fmap, lookup_seq_lt by lia. simpl.
  rewrite Z2Nat.id by lia. reflexivity.
Qed.

Lemma blank_table_ok (s : kst unit) (st : Z -> Z) : pids_ok (set_procs s (blank_table st)).
Proof.
  split; [reflexivity|]. intros i a Hi. change (blank_table st !! i = Some a) in Hi.
  assert (i < 256)%nat as Hlt.
  { apply lookup_lt_Some in Hi. unfold blank_table, zseq in Hi. rewrite !length_fmap, length_seq in Hi. exact Hi. }
  rewrite <- (Nat2Z.id i), blank_table_lookup in Hi by lia. injection Hi as <-. cbn [pid blank_pcb]. lia.
Qed.

Lemma sys_kill_correct_witness :
  let s : kst unit := set_procs sig_kst (blank_table (fun i => if i =? 7 then PROC_INTERRUPTIBLE else PROC_DEAD)) in
  exists s' : kst unit, sys_kill 7 9 s = Ok (0, s') /\ s'.(ready_queue) = [7].
Proof.
  intros s. assert (s.(proctab) !! Z.to_nat 7 = Some (blank_pcb 7 PROC_INTERRUPTIBLE)) as H7
    by (apply (blank_table_lookup (fun i => if i =? 7 then PROC_INTERRUPTIBLE else PROC_DEAD) 7); lia).
  assert (alive s 7 7) as Hal by (split; [lia|]; eexists; split; [exact H7 | split; [discriminate | reflexivity]]).
  destruct (sys_kill_correct s 7 9 (blank_table_ok _ _)) as [[Hn _] | (p & a & Hal' & Ha & _ & _ & H)];
    [destruct (Hn 7 Hal)|].
  assert (p = 7) as -> by (destruct (get_pcb_spec s 7 (blank_table_ok _ _)) as (r & _ & Hr);
    apply Hr in Hal, Hal'; congruence).
  rewrite H7 in Ha. injection Ha as <-.
  destruct (H (SigAction 0 0 0) true) as (s' & a' & E & _ & _ & _ & _ & _ & Hq); try reflexivity.
  - intros _. apply not_elem_of_nil.
  - exists s'. split; [exact E | exact Hq].
Defined.
