(* ===== verification/Process.v ===== *)
(** * Process creation, exit and waiting (dispatch/process.c, include/telos/wait.h)

    The system calls that create and end processes, on the state of Sched.v.
    [child_chain] links a process into the [children] of the process that forked
    it; unlinking one whose list head has been reinitialised is a [Fault].  The
    timers embedded in a [struct pcb] are known by the names [t_alarm] and
    [t_sleep]. *)

From S2P Require Import Prelude Abi Addr Vma Timer Sig Sched Signal.

(** ** Exit statuses *)

Definition WCONTINUED : Z := 1.
Definition WEXITED : Z := 2.
Definition WSTOPPED : Z := 8.
Definition WNOHANG : Z := 16.

Definition _WCONTINUED : Z := 0.
Definition _WEXITED : Z := 1.
Definition _WSIGNALED : Z := 2.
Definition _WSTOPPED : Z := 3.

Definition P_ALL : Z := 0.
Definition P_PID : Z := 2.

Definition WHOW (s : Z) : Z := Z.land s 3.

Definition WVALUE (s : Z) : Z := Z.shiftr (u32 (Z.land s (Z.lnot 3))) 2.

Definition WEXITSTATUS (s : Z) : Z := Z.shiftr (Z.land s 1020) 2.

Definition WIFEXITED (s : Z) : bool := Z.land s 3 =? _WEXITED.

Definition WIFSIGNALED (s : Z) : bool := Z.land s 3 =? _WSIGNALED.

Definition make_status (how val : Z) : Z := s32 (Z.lor (Z.land how 3) (u32 (Z.shiftl (u32 val) 2))).

Definition status_to_si_code (status : Z) : Z :=
  if WHOW status =? _WCONTINUED then CLD_CONTINUED
  else if WHOW status =? _WEXITED then CLD_EXITED
  else if WHOW status =? _WSIGNALED then CLD_KILLED
  else if WHOW status =? _WSTOPPED then CLD_STOPPED
  else 0.

(** ** Interface to the file system, the status cache and the boot image *)

Class ProcEnv (S : Type) : Type := {
  file_get : Z -> S -> S;
  file_close : Z -> S -> S;
  alloc_status : S -> bool * S;
  free_status : S -> S;
  copy_frame : Z -> Z -> Z -> Z -> S -> S;
  root_inode : Z;
  rodata : list (Z * Z);
}.

Definition HEAP_START : Z := 1048576.
Definition HEAP_SIZE : Z := FRAME_SIZE.
Definition STACK_SIZE : Z := 32768.
Definition STACK_END : Z := kernel_base.
Definition STACK_START : Z := STACK_END - STACK_SIZE.
Definition RODATA_FLAGS : Z := Z.lor VM_READ VM_KEEP.
Definition USTACK_FLAGS : Z :=
  Z.lor (Z.lor (Z.lor VM_READ VM_WRITE) (Z.lor VM_EXEC VM_ZERO)) (Z.lor VM_KEEP VM_KEEPEXEC).
Definition HEAP_FLAGS : Z := Z.lor (Z.lor VM_READ VM_WRITE) VM_ZERO.
Definition KSTACK_END : Z := 4294959104.
(** [sizeof (struct kcontext) + 16]. *)
Definition KFRAME_ROOM : Z := 76.

(** Names of the timers embedded in process [p]. *)
Definition t_alarm (p : Z) : Z := 2 * p.
Definition t_sleep (p : Z) : Z := 2 * p + 1.

Section processes.

Context {S : Type} `{V : VmaEnv S} `{P : ProcEnv S} (sig_terminate sig_stop : Z).

Abbreviation k := (kst S).

(** A function of the environment. *)
Definition on_env {A : Type} (f : S -> A * S) : ST k A := fun s =>
  let '(a, e) := f s.(env) in Ok (a, set_env s e).

Definition env_do (f : S -> S) : ST k unit := modify (fun s => set_env s (f s.(env))).

(** ** Reporting *)

Definition assert_status (parent : Z) (st : proc_status) : ST k unit :=
  upd parent (fun a => p_stats a (a.(child_stats) ++ [st])) ;;
  __kill parent SIGCHLD (status_to_si_code st.(ps_status)).

Definition report_status (p how val : Z) : ST k unit :=
  a ← proc p;
  parent ← get_pcb a.(parent_pid);
  match parent with
  | None => panic
  | Some parent =>
      ok ← on_env alloc_status;
      if (ok : bool) then assert_status parent (ProcStatus a.(pid) (make_status how val)) else mret tt
  end.

(** ** The process table *)

(** The table after initialisation: only numbers and states are set. *)
Definition proctab_init (t : list pcb) : list pcb :=
  imap (fun i a => p_state (p_ids a (if (i =? 0)%nat then 0 else Z.of_nat i - PT_SIZE)
                                  a.(parent_pid) a.(pflags)) PROC_DEAD) t.

Definition clear_flags (t : timers) (a : Z) : timers :=
  match t.(tmem) !! a with
  | Some x => tput t a (Timer x.(t_action) x.(t_data) x.(t_expires) 0)
  | None => tput t a (Timer 0 0 0 0)
  end.

Definition pcb_common_init (p : Z) : ST k unit :=
  modify (fun s => set_timers s (clear_flags s.(timers_of) (t_alarm p))) ;;
  modify (fun s => set_timers s (clear_flags s.(timers_of) (t_sleep p))) ;;
  now ← gets (fun s => s.(timers_of).(tick_count));
  upd p (fun a =>
    Pcb a.(rc) a.(esp) a.(ifp) a.(mm) a.(pid) a.(parent_pid) a.(pflags) PROC_NASCENT []
        [] now [] a.(posix_timer_id) a.(sig) a.(filp) a.(pwd) a.(root)).

Fixpoint find_dead (l : list pcb) (i : Z) : option Z :=
  match l with
  | [] => None
  | a :: l => if a.(state) =? PROC_DEAD then Some i else find_dead l (i + 1)
  end.

Definition get_free_pcb : ST k (option Z) :=
  t ← gets proctab;
  match find_dead t 0 with
  | Some i => pcb_common_init i ;; mret (Some i)
  | None => mret None
  end.

(** [filp] entries that are not [NULL] are referenced once more. *)
Definition ref_files (fs : list Z) : ST k unit :=
  for_each fs (fun f => if f =? 0 then mret tt else env_do (file_get f)).

Definition pcb_clone (src : Z) : ST k (option Z) :=
  p ← get_free_pcb;
  match p with
  | None => mret None
  | Some p =>
      a ← proc src;
      upd p (fun b => p_cx b a.(esp) a.(ifp)) ;;
      upd p (fun b => p_sig b (sig_clone b.(sig) a.(sig))) ;;
      ref_files a.(filp) ;;
      upd p (fun b => p_files b a.(filp) b.(pwd) b.(root)) ;;
      upd p (fun b => p_ids b (s32 (b.(pid) + PT_SIZE)) a.(pid) a.(pflags)) ;;
      upd p (fun b => p_files b b.(filp) a.(pwd) a.(root)) ;;
      upd src (fun a => p_children a (a.(children) ++ [p])) ;;
      mret (Some p)
  end.

(** ** New address spaces *)

Fixpoint map_all (l : list (Z * Z * Z)) (mm : mm_struct) (e : S) : bool * mm_struct * S :=
  match l with
  | [] => (true, mm, e)
  | (start, len, flags) :: l =>
      match vma_map mm start len flags e with
      | (Some _, mm, e) => map_all l mm e
      | (None, mm, e) => (false, mm, e)
      end
  end.

(** The read-only data of user space is the first entry of [rodata]. *)
Definition address_space_init (mm : mm_struct) (e : S) : Z * mm_struct * S :=
  let mm := set_brk mm (HEAP_START + HEAP_SIZE) in
  let '(ok, mm, e) := map_all ((HEAP_START, HEAP_SIZE, HEAP_FLAGS)
                               :: (STACK_START, STACK_SIZE, USTACK_FLAGS)
                               :: ((fun x => (x.1, x.2 -% x.1, RODATA_FLAGS)) <$> take 1 rodata)) mm e in
  if (ok : bool) then (0, mm, e) else (- ENOMEM, mm, e).

(** An operation on the address space of process [p]. *)
Definition on_mm {A : Type} (p : Z) (f : mm_struct -> S -> A * mm_struct * S) : ST k A :=
  a ← proc p;
  r ← on_env (f a.(mm));
  let '(x, m) := r in
  upd p (fun a => p_mm a m) ;;
  mret x.

Definition fini (p : Z) : ST k unit :=
  on_mm p (fun m e => let '(m, e) := mm_fini m e in (tt, m, e)).

Definition create_kernel_process (func arg flags : Z) : ST k Z :=
  p ← get_free_pcb;
  match p with
  | None => mret (- EAGAIN)
  | Some p =>
      a ← proc p;
      sg ← st_res (sig_init sig_terminate sig_stop a.(sig));
      upd p (fun b => p_sig b sg) ;;
      upd p (fun b => p_files b (replicate 8 0) root_inode root_inode) ;;
      upd p (fun b => p_ids b (s32 (b.(pid) + PT_SIZE)) 1 (Z.lor flags PFLAG_SUPER)) ;;
      r ← on_mm p mm_init;
      if r <? 0 then mret r
      else
        r ← on_mm p address_space_init;
        if r <? 0 then fini p ;; mret r
        else
          ok ← on_mm p (map_all ((fun x => (x.1, x.2 -% x.1, RODATA_FLAGS)) <$> drop 1 rodata));
          if negb ok then fini p ;; mret (- ENOMEM)
          else
            let sp := KSTACK_END - KFRAME_ROOM in
            upd p (fun b => p_cx b sp b.(ifp)) ;;
            b ← proc p;
            env_do (copy_frame b.(mm).(pgdir) sp func arg) ;;
            ready p ;;
            mret b.(pid)
  end.

(** [init] is the address of the user-mode stub that executes /bin/init. *)
Definition create_init (init : Z) : ST k unit :=
  pcb_common_init 1 ;;
  a ← proc 1;
  sg ← st_res (sig_init sig_terminate sig_stop a.(sig));
  upd 1 (fun b => p_sig b sg) ;;
  upd 1 (fun b => p_files b (replicate 8 0) root_inode root_inode) ;;
  upd 1 (fun b => p_ids b 1 1 0) ;;
  r ← on_mm 1 mm_init;
  if r <? 0 then panic
  else
    r ← on_mm 1 address_space_init;
    if r <? 0 then panic
    else
      let fp := KSTACK_END - 16 in
      let sp := fp - sizeof_ucontext in
      upd 1 (fun b => p_cx b sp fp) ;;
      modify (fun s => set_current s 1) ;;
      put_iret_uframe sp init (STACK_END - 16) ;;
      ready 1.

(** schedule.c: [idle] is the address of the idle loop. *)
Definition sched_start (idle init : Z) : ST k Z :=
  n ← create_kernel_process idle 0 0;
  modify (fun s => Kst s.(proctab) s.(current) s.(ready_queue) s.(zombies) n s.(timers_of) s.(umem) s.(env)) ;;
  create_init init ;;
  p ← next;
  modify (fun s => set_current s p) ;;
  mret p.

(** ** Fork and exit *)

Definition sys_fork : ST k Z :=
  c ← cur;
  a ← proc c;
  mstore (cx_eax a.(esp)) 0 ;;
  p ← pcb_clone c;
  match p with
  | None => mret (- EAGAIN)
  | Some p =>
      a ← proc c;
      r ← on_mm p (fun m => mm_clone m a.(mm));
      if r <? 0 then mret r
      else
        ready p ;;
        b ← proc p;
        mret b.(pid)
  end.

Definition sys_yield : ST k unit := c ← cur; ready c ;; _ ← _schedule; mret tt.

(** [sys_close(i)] for an entry in use. *)
Definition close_entry (c i : Z) : ST k unit :=
  a ← proc c;
  f ← st_res (aload a.(filp) i);
  if f =? 0 then mret tt
  else
    l ← st_res (astore a.(filp) i 0);
    upd c (fun a => p_files a l a.(pwd) a.(root)) ;;
    env_do (file_close f).

Definition do_exit (p status : Z) : ST k unit :=
  report_status p _WEXITED status ;;
  c ← cur;
  for_each (zseq 0 (Z.to_nat NR_FILES)) (close_entry c) ;;
  a ← proc p;
  for_each a.(children) (fun q => upd q (fun b => p_ids b b.(pid) 1 b.(pflags))) ;;
  init ← get_pcb 1;
  match init with
  | None => panic
  | Some init =>
      a ← proc p;
      for_each a.(child_stats) (fun st =>
        upd p (fun b => p_stats b (drop 1 b.(child_stats))) ;;
        assert_status init st) ;;
      fini p ;;
      zombie p
  end.

Definition sys_getpid : ST k Z := c ← cur; a ← proc c; mret a.(pid).

Definition sys_getppid : ST k Z := c ← cur; a ← proc c; mret a.(parent_pid).

(** ** Waiting for children *)

Definition status_matches (idtype id options : Z) (st : proc_status) : bool :=
  if (idtype =? P_PID) && negb (st.(ps_pid) =? s32 id) then false
  else
    let how := WHOW st.(ps_status) in
    if how =? _WCONTINUED then negb (Z.land options WCONTINUED =? 0)
    else if how =? _WEXITED then negb (Z.land options WEXITED =? 0)
    else if how =? _WSTOPPED then negb (Z.land options WSTOPPED =? 0)
    else true.

(** The status chosen and the others, in order. *)
Fixpoint get_status (idtype id options : Z) (l : list proc_status)
    : option (proc_status * list proc_status) :=
  match l with
  | [] => None
  | st :: l =>
      if status_matches idtype id options st then Some (st, l)
      else (fun x => (x.1, st :: x.2)) <$> get_status idtype id options l
  end.

(** [list_del(&p->child_chain)] *)
Fixpoint child_owner (p : Z) (l : list pcb) (i : Z) : option Z :=
  match l with
  | [] => None
  | a :: l => if bool_decide (p ∈ a.(children)) then Some i else child_owner p l (i + 1)
  end.

Definition del_child (p : Z) : ST k unit :=
  t ← gets proctab;
  match child_owner p t 0 with
  | None => fault
  | Some q => upd q (fun a => p_children a (without p a.(children)))
  end.

Definition store_siginfo (infop : Z) (st : proc_status) : ST k unit :=
  mstore infop SIGCHLD ;;
  mstore (infop +% 4) (status_to_si_code st.(ps_status)) ;;
  mstore (infop +% 8) 0 ;;
  mstore (infop +% 12) st.(ps_pid) ;;
  mstore (infop +% 16) 0 ;;
  mstore (infop +% 24) (WVALUE st.(ps_status)) ;;
  mstore (infop +% 32) st.(ps_status).

(** One pass through the loop of [sys_waitid]; [None] when it blocks. *)
Definition waitid_loop (idtype id infop options : Z) : ST k (option Z) :=
  c ← cur;
  a ← proc c;
  match get_status idtype id options a.(child_stats) with
  | None =>
      if negb (Z.land options WNOHANG =? 0) then
        mstore infop 0 ;; mstore (infop +% 12) 0 ;; mret (Some 0)
      else block PROC_WAITING ;; mret None
  | Some (st, rest) =>
      store_siginfo infop st ;;
      (if WIFEXITED st.(ps_status) || WIFSIGNALED st.(ps_status) then
         p ← get_pcb st.(ps_pid);
         match p with
         | None => panic
         | Some p => del_child p ;; reap p
         end
       else mret tt) ;;
      upd c (fun a => p_stats a rest) ;;
      env_do free_status ;;
      mret (Some 0)
  end.

Definition sys_waitid (idtype id infop options : Z) : ST k (option Z) :=
  a ← cur_proc;
  if negb (vm_verify a.(mm) infop 36 VM_WRITE =? 0) then mret (Some (- EFAULT))
  else if bool_decide (a.(children) = []) then mret (Some (- ECHILD))
  else waitid_loop idtype id infop options.

(** After the process has been made ready again. *)
Definition sys_waitid_resume (idtype id infop options : Z) : ST k (option Z) :=
  a ← cur_proc;
  let signo := a.(rc) in
  if negb (signo =? SIGCHLD) then mret (Some (- EINTR))
  else
    i ← st_res (aload a.(sig).(infos) signo);
    if signal_from_user i.(si_code) then mret (Some (- EINTR))
    else waitid_loop idtype id infop options.

End processes.


(** ** Exit statuses *)

Lemma land_lnot_3 (x : Z) : Z.land x (Z.lnot 3) = x - x mod 4.
Proof.
  pose proof (Z.add_lor_land (Z.land x (Z.lnot 3)) (Z.land x 3)) as E.
  rewrite <- Z.land_lor_distr_r in E. change (Z.lor (Z.lnot 3) 3) with (-1) in E. rewrite Z.land_m1_r in E.
  replace (Z.land (Z.land x (Z.lnot 3)) (Z.land x 3)) with 0 in E.
  - change 3 with (Z.ones 2) in E at 2. rewrite Z.land_ones in E by lia. change (2 ^ 2) with 4 in E. lia.
  - rewrite (Z.land_comm x 3), Z.land_assoc, <- (Z.land_assoc x (Z.lnot 3) 3).
    change (Z.land (Z.lnot 3) 3) with 0. rewrite Z.land_0_r, Z.land_0_l. reflexivity.
Qed.

(** A status word gives back what it was made from: how the process changed
    state, the value (30 bits of it), and the low byte of an exit code. *)
Theorem status_roundtrip (how val : Z) :
  0 <= how < 4 -> in_s32 val ->
  WHOW (make_status how val) = how /\ WVALUE (make_status how val) = val mod 2 ^ 30 /\
  WEXITSTATUS (make_status how val) = val mod 256 /\ in_s32 (make_status how val).
Proof.
  intros Hh Hv. unfold make_status.
  assert (Z.land how 3 = how) as -> by (change 3 with (Z.ones 2); rewrite Z.land_ones by lia; word_lia).
  remember (val mod 2 ^ 30) as v eqn:Ev. change (2 ^ 30) with 1073741824 in Ev.
  assert (u32 (Z.shiftl (u32 val) 2) = 4 * v) as ->.
  { rewrite Z.shiftl_mul_pow2 by lia. word_lia. }
  assert (0 <= v < 1073741824) as Hvr by lia.
  assert (Z.lor how (4 * v) = 4 * v + how) as ->.
  { pose proof (Z.add_lor_land how (4 * v)). enough (Z.land how (4 * v) = 0) by lia.
    apply Z.bits_inj'. intros i Hi. rewrite Z.land_spec, Z.bits_0. destruct (Z.ltb_spec i 2).
    - change (4 * v) with (2 ^ 2 * v). rewrite Z.mul_comm, Z.mul_pow2_bits_low by lia. apply andb_false_r.
    - rewrite (testbit_high 2 how) by lia. reflexivity. }
  assert (forall n, 0 <= n -> Z.land (s32 (4 * v + how)) (Z.ones n) = s32 (4 * v + how) mod 2 ^ n) as Hl
    by (intros; apply Z.land_ones; lia).
  destruct (s32_shift (4 * v + how)) as [q Hq]. rewrite Hq in *. split_and!.
  - unfold WHOW. change 3 with (Z.ones 2). rewrite Hl by lia. change (2 ^ 2) with 4. lia.
  - unfold WVALUE. rewrite Z.shiftr_div_pow2 by lia. change (2 ^ 2) with 4.
    rewrite land_lnot_3. word_lia.
  - unfold WEXITSTATUS. rewrite Z.shiftr_land. change (Z.shiftr 1020 2) with (Z.ones 8).
    rewrite Z.land_ones, Z.shiftr_div_pow2 by lia. change (2 ^ 2) with 4. change (2 ^ 8) with 256. lia.
  - rewrite <- Hq. exact (sN_range 32 (4 * v + how) ltac:(lia)).
Qed.

Lemma status_roundtrip_witness :
  WHOW (make_status _WEXITED (-1)) = _WEXITED /\ WEXITSTATUS (make_status _WEXITED (-1)) = 255.
Proof.
  destruct (status_roundtrip _WEXITED (-1)) as (E1 & _ & E2 & _); [cbv; split; congruence | word_lia |].
  split; [exact E1 | exact E2].
Defined.

(** ** Process numbers stay in their slots *)

Section keeps.

Context {S : Type}.

Abbreviation k := (kst S).

(** Whatever [m] does, it keeps the numbering of the table. *)
Definition keeps {A : Type} (m : ST k A) : Prop :=
  forall s a s', m s = Ok (a, s') -> pids_ok s -> pids_ok s'.

Lemma keeps_ret {A : Type} (a : A) : keeps (mret a).
Proof. intros s b s' [= <- <-]. auto. Qed.

Lemma keeps_bind {A B : Type} (m : ST k A) (f : A -> ST k B) :
  keeps m -> (forall a, keeps (f a)) -> keeps (mbind f m).
Proof.
  intros Hm Hf s b s' H Hok. apply bind_inv in H as (a & s1 & H1 & H2). eapply Hf; [exact H2|]. eapply Hm; eauto.
Qed.

Lemma keeps_gets {A : Type} (f : k -> A) : keeps (gets f).
Proof. intros s a s' [= <- <-]. auto. Qed.

Lemma keeps_res {A : Type} (r : res A) : keeps (st_res r).
Proof. intros s a s' H. unfold st_res in H. destruct r; simplify_eq/=. auto. Qed.

Lemma keeps_panic {A : Type} : keeps (@panic k A).
Proof. intros s a s' [=]. Qed.

Lemma keeps_fault {A : Type} : keeps (@fault k A).
Proof. intros s a s' [=]. Qed.

(** Changes outside the table. *)
Lemma keeps_modify (f : k -> k) : (forall s, (f s).(proctab) = s.(proctab)) -> keeps (modify f).
Proof. intros Hf s a s' [= <- <-]. unfold pids_ok. rewrite Hf. auto. Qed.

Lemma keeps_upd (p : Z) (f : pcb -> pcb) :
  (forall a, (f a).(pid) mod 256 = a.(pid) mod 256) -> keeps (upd p f).
Proof.
  intros Hf s [] s' H (Hl & Hp). unfold upd in H.
  apply bind_inv in H as (t & s1 & [= <- <-] & H). apply bind_inv in H as (a & s2 & H2 & H).
  unfold st_res in H2. destruct (aload (proctab s) p) as [a' | |] eqn:Ea; simplify_eq/=.
  apply aload_ok in Ea as [Hp0 Ha].
  apply bind_inv in H as (t & s3 & H3 & H). unfold st_res in H3.
  destruct (astore (proctab s2) p (f a)) as [t' | |] eqn:Et; simplify_eq/=.
  apply astore_ok in Et as [_ ->]. injection H as <-. split; simpl.
  - rewrite length_insert. exact Hl.
  - intros i b Hb. destruct (decide (i = Z.to_nat p)) as [-> | Hne].
    + rewrite list_lookup_insert_eq in Hb by (eapply lookup_lt_Some, Ha). injection Hb as <-.
      rewrite Hf. apply Hp, Ha.
    + rewrite list_lookup_insert_ne in Hb by auto. apply Hp, Hb.
Qed.

Lemma keeps_for_each {A : Type} (l : list A) (f : A -> ST k unit) :
  (forall a, keeps (f a)) -> keeps (for_each l f).
Proof.
  intros Hf. induction l as [| a l IH]; simpl; [apply keeps_ret|]. apply keeps_bind; auto.
Qed.

Lemma keeps_frame {A : Type} (m : ST k A) :
  (forall s a s', m s = Ok (a, s') -> s'.(proctab) = s.(proctab)) -> keeps m.
Proof. intros H s a s' E. unfold pids_ok. rewrite (H _ _ _ E). auto. Qed.

End keeps.

Create HintDb keeps.

#[export] Hint Resolve keeps_ret keeps_gets keeps_res keeps_panic keeps_fault keeps_for_each : keeps.
#[export] Hint Extern 1 (keeps (upd _ _)) => (apply keeps_upd; intros; reflexivity) : keeps.
#[export] Hint Extern 1 (keeps (modify _)) => (apply keeps_modify; intros; reflexivity) : keeps.

(** Goes through a program, with the cases it distinguishes. *)
Ltac keeps :=
  repeat first
    [ progress intros
    | progress cbv beta zeta
    | solve [eauto with keeps]
    | match goal with
      | |- keeps (match ?x with _ => _ end) => destruct x
      | |- keeps (let '(_, _) := ?x in _) => destruct x
      end
    | apply keeps_for_each
    | apply keeps_bind ].

Section invariant.

Context {S : Type} `{V : VmaEnv S} `{P : ProcEnv S} (sig_terminate sig_stop sigtramp1 sig_err : Z).

Abbreviation k := (kst S).

Lemma keeps_proc (p : Z) : @keeps S _ (proc p).
Proof. unfold proc. keeps. Qed.

Lemma keeps_cur : @keeps S _ cur.
Proof. unfold cur. keeps. Qed.

Lemma keeps_mload (a : Z) : @keeps S _ (mload a).
Proof. apply keeps_frame. intros s w s' H. unfold mload in H. destruct (umem s !! a); simplify_eq/=. reflexivity. Qed.

Lemma keeps_next : @keeps S _ next.
Proof. apply keeps_frame. intros s w s' H. unfold next in H. destruct (ready_queue s); simplify_eq/=. reflexivity. Qed.

Lemma keeps_add_ready (p : Z) : @keeps S _ (add_ready p).
Proof. apply keeps_frame. intros s w s' H. unfold add_ready in H. destruct (linked s p); simplify_eq/=. reflexivity. Qed.

Lemma keeps_add_zombie (p : Z) : @keeps S _ (add_zombie p).
Proof. apply keeps_frame. intros s w s' H. unfold add_zombie in H. destruct (linked s p); simplify_eq/=. reflexivity. Qed.

Lemma keeps_del_chain (p : Z) : @keeps S _ (del_chain p).
Proof. apply keeps_frame. intros s w s' H. unfold del_chain in H. destruct (linked s p); simplify_eq/=. reflexivity. Qed.

Lemma keeps_on_env {A : Type} (f : S -> A * S) : keeps (on_env f).
Proof. apply keeps_frame. intros s w s' H. unfold on_env in H. destruct (f (env s)). simplify_eq/=. reflexivity. Qed.

Lemma keeps_upd_pid (p : Z) (f : pcb -> pcb) :
  (forall a, (f a).(pid) = s32 (a.(pid) + PT_SIZE)) -> @keeps S _ (upd p f).
Proof.
  intros Hf. apply keeps_upd. intros a. rewrite Hf. destruct (s32_shift (pid a + PT_SIZE)) as [q ->].
  unfold PT_SIZE. lia.
Qed.

Hint Resolve keeps_proc keeps_cur keeps_mload keeps_next keeps_on_env : keeps.
Hint Resolve keeps_add_ready keeps_add_zombie keeps_del_chain : keeps.
Hint Extern 2 (keeps (upd _ _)) => (apply keeps_upd_pid; intros; reflexivity) : keeps.

Lemma keeps_cur_proc : @keeps S _ cur_proc.
Proof. unfold cur_proc. keeps. Qed.

Lemma keeps_mstore (a w : Z) : @keeps S _ (mstore a w).
Proof. unfold mstore. keeps. Qed.

Lemma keeps_ready (p : Z) : @keeps S _ (ready p).
Proof. unfold ready. keeps. Qed.

Lemma keeps_reap (p : Z) : @keeps S _ (reap p).
Proof. unfold reap. keeps. Qed.

Lemma keeps_zombie (p : Z) : @keeps S _ (zombie p).
Proof. unfold zombie. keeps. Qed.

Hint Resolve keeps_cur_proc keeps_mstore keeps_ready keeps_reap keeps_zombie : keeps.

Lemma keeps_wake (p r : Z) : @keeps S _ (wake p r).
Proof. unfold wake. keeps. Qed.

Lemma keeps_schedule : @keeps S _ _schedule.
Proof. unfold _schedule, next_process. keeps. Qed.

Lemma keeps_get_pcb (n : Z) : @keeps S _ (get_pcb n).
Proof. unfold get_pcb. keeps. Qed.

Lemma keeps_upd_sig (p : Z) (f : sig_struct -> sig_struct) : @keeps S _ (upd_sig p f).
Proof. unfold upd_sig. keeps. Qed.

Hint Resolve keeps_wake keeps_schedule keeps_get_pcb keeps_upd_sig : keeps.

Lemma keeps_block (st : Z) : @keeps S _ (block st).
Proof. unfold block. keeps. Qed.

Lemma keeps_clear_pending (p n : Z) : @keeps S _ (clear_pending p n).
Proof. unfold clear_pending. keeps. Qed.

Lemma keeps_vm_ok (a l f : Z) : @keeps S _ (vm_ok a l f).
Proof. unfold vm_ok. keeps. Qed.

Hint Resolve keeps_block keeps_clear_pending keeps_vm_ok : keeps.

Lemma keeps_kill (p n c : Z) : @keeps S _ (__kill p n c).
Proof. unfold __kill. keeps. Qed.

Hint Resolve keeps_kill : keeps.

Lemma keeps_handle_signal : @keeps S _ (handle_signal sigtramp1 sig_err).
Proof.
  unfold handle_signal, send_signal, send_signal_user, place_sig_frame, place_sig_args, put_iret_uframe. keeps.
Qed.

Lemma keeps_get_free_pcb : @keeps S _ get_free_pcb.
Proof. unfold get_free_pcb, pcb_common_init. keeps. Qed.

Lemma keeps_on_mm {A : Type} (p : Z) (f : mm_struct -> S -> A * mm_struct * S) : keeps (on_mm p f).
Proof. unfold on_mm. keeps. Qed.

Hint Resolve keeps_get_free_pcb keeps_on_mm keeps_handle_signal : keeps.

Lemma keeps_assert_status (p : Z) (st : proc_status) : @keeps S _ (assert_status p st).
Proof. unfold assert_status. keeps. Qed.

Hint Resolve keeps_assert_status : keeps.

Lemma keeps_fork : @keeps S _ sys_fork.
Proof. unfold sys_fork, pcb_clone, ref_files, env_do. keeps. Qed.

Lemma keeps_exit (p st : Z) : @keeps S _ (do_exit p st).
Proof. unfold do_exit, report_status, close_entry, fini, env_do. keeps. Qed.

Lemma keeps_waitid_loop (t i p o : Z) : @keeps S _ (waitid_loop t i p o).
Proof. unfold waitid_loop, store_siginfo, del_child, env_do. keeps. Qed.

Lemma keeps_create (f a g : Z) : @keeps S _ (create_kernel_process sig_terminate sig_stop f a g).
Proof. unfold create_kernel_process, fini, env_do. keeps. Qed.

Lemma keeps_sigwait_done (p n : Z) : @keeps S _ (sigwait_done p n).
Proof. unfold sigwait_done. keeps. Qed.

Hint Resolve keeps_waitid_loop keeps_sigwait_done : keeps.

(** The first process has number 1 and is in slot 1. *)
Lemma keeps_upd_init (f : pcb -> pcb) : (forall a, (f a).(pid) = 1) -> @keeps S _ (upd 1 f).
Proof.
  intros Hf s a s' H Hok. pose proof Hok as [Hl Hp].
  destruct (valid_lookup s 1) as (b & _ & Hb); [unfold valid; lia|].
  pose proof (Hp _ _ Hb) as Hm. rewrite (upd_run s 1 f b) in H by (lia || exact Hb).
  injection H as <- <-. split; [simpl; rewrite length_insert; exact Hl|].
  intros i c Hc. simpl in Hc. apply list_lookup_insert_Some in Hc as [(<- & <- & _) | (_ & Hc)]; [|auto].
  rewrite Hf. reflexivity.
Qed.

Hint Extern 3 (keeps (upd 1 _)) => (apply keeps_upd_init; intros; reflexivity) : keeps.

Lemma keeps_create_init (f : Z) : @keeps S _ (create_init sig_terminate sig_stop f).
Proof. unfold create_init, pcb_common_init, put_iret_uframe. keeps. Qed.

Hint Resolve keeps_exit keeps_fork keeps_create keeps_create_init : keeps.

(** ** All the calls of this part of the kernel *)

Inductive kcall : Type :=
| KFork
| KExit (status : Z)
| KWaitid (idtype id infop options : Z)
| KWaitidResume (idtype id infop options : Z)
| KYield
| KCreate (func arg flags : Z)
| KKill (n sg : Z)
| KSigqueue (n sg value : Z)
| KSigaction (sg act oact : Z)
| KSigprocmask (how set oset : Z)
| KSigwait (set sigp : Z)
| KSigwaitResume (set sigp : Z)
| KSigsuspend (m : Z)
| KSigreturn (cx : Z)
| KReturnToUser
| KWake (p r : Z)
| KInit (init : Z).

(** One call by the running process, or a wake-up from a wait queue. *)
Definition run_call (x : kcall) : ST k unit :=
  match x with
  | KFork => _ ← sys_fork; mret tt
  | KExit st => c ← cur; do_exit c st ;; _ ← _schedule; mret tt
  | KWaitid t i p o => _ ← sys_waitid t i p o; mret tt
  | KWaitidResume t i p o => _ ← sys_waitid_resume t i p o; mret tt
  | KYield => sys_yield
  | KCreate f a g => _ ← create_kernel_process sig_terminate sig_stop f a g; mret tt
  | KKill n sg => _ ← sys_kill n sg; mret tt
  | KSigqueue n sg v => _ ← sys_sigqueue n sg v; mret tt
  | KSigaction sg a o => _ ← sys_sigaction sig_terminate sig_stop sg a o; mret tt
  | KSigprocmask h a o => _ ← sys_sigprocmask h a o; mret tt
  | KSigwait a p => _ ← sys_sigwait a p; mret tt
  | KSigwaitResume a p => _ ← sys_sigwait_resume a p; mret tt
  | KSigsuspend m => sys_sigsuspend m
  | KSigreturn cx => _ ← sig_restore cx; mret tt
  | KReturnToUser => handle_signal sigtramp1 sig_err
  | KWake p r => wake p r
  | KInit f => create_init sig_terminate sig_stop f
  end.

Lemma keeps_call (x : kcall) : keeps (run_call x).
Proof.
  destruct x; simpl; unfold sys_waitid, sys_waitid_resume, sys_yield, sys_kill, sys_sigqueue, sys_sigaction,
    verify_sigaction, load_sigaction, store_sigaction, sys_sigprocmask, sys_sigwait, sys_sigwait_resume,
    sys_sigsuspend, sig_restore; keeps.
Qed.

Definition kstep (s s' : k) : Prop := exists x, run_call x s = Ok (tt, s').

Lemma proctab_init_ok (s : k) (t : list pcb) :
  length t = 256%nat -> s.(proctab) = proctab_init t -> pids_ok s.
Proof.
  intros Hl Hs. unfold pids_ok. rewrite Hs. split; [unfold proctab_init; rewrite length_imap; exact Hl|].
  intros i a Hi. unfold proctab_init in Hi. rewrite list_lookup_imap in Hi.
  destruct (t !! i) as [b|] eqn:Eb; [|discriminate]. apply lookup_lt_Some in Eb. injection Hi as <-.
  simpl. destruct (Nat.eqb_spec i 0); unfold PT_SIZE; lia.
Qed.

Lemma kreachable_ok (s s' : k) : rtc kstep s s' -> pids_ok s -> pids_ok s'.
Proof. induction 1 as [|s s1 s' (x & Hx) _ IH]; [auto|]. intros H. apply IH. exact (keeps_call x s _ s1 Hx H). Qed.

(** C17: in every state the calls reach from the initialised process table,
    process numbers identify processes: [get_pcb] returns the live process with
    the given number and [NULL] if there is none, and there is at most one. *)
Theorem process_numbers_unique (s0 s : k) (t : list pcb) (n : Z) :
  length t = 256%nat -> s0.(proctab) = proctab_init t -> rtc kstep s0 s ->
  (exists r, get_pcb n s = Ok (r, s) /\ forall p, r = Some p <-> alive s p n) /\
  forall p q, alive s p n -> alive s q n -> p = q.
Proof.
  intros Hl Hs Hr. pose proof (proctab_init_ok s0 t Hl Hs) as H0.
  pose proof (kreachable_ok s0 s Hr H0) as Hok.
  destruct (get_pcb_spec s n Hok) as (r & Hg & Hp). split; [eauto|].
  intros p q H1 H2. apply Hp in H1, H2. congruence.
Qed.

End invariant.
(** ** Fork *)

Section fork.

Context {S : Type} `{V : VmaEnv S} `{P : ProcEnv S}.

Abbreviation k := (kst S).

(** The environment after the file table has been shared. *)
Definition files_shared (fs : list Z) (e : S) : S :=
  foldl (fun e f => if f =? 0 then e else file_get f e) e fs.

Lemma ref_files_run (fs : list Z) (s : k) :
  ref_files fs s = Ok (tt, set_env s (files_shared fs s.(env))).
Proof.
  unfold ref_files, files_shared. revert s. induction fs as [| f fs IH]; intros s; simpl; [destruct s; reflexivity|].
  destruct (f =? 0) eqn:E; [exact (IH s)|].
  erewrite bind_ok by reflexivity. rewrite IH. reflexivity.
Qed.

Lemma find_dead_spec (l : list pcb) (i : Z) :
  match find_dead l i with
  | Some j => exists n b, j = i + Z.of_nat n /\ l !! n = Some b /\ b.(state) = PROC_DEAD
  | None => Forall (fun a => a.(state) <> PROC_DEAD) l
  end.
Proof.
  revert i. induction l as [| a l IH]; intros i; simpl; [constructor|].
  destruct (Z.eqb_spec a.(state) PROC_DEAD) as [E | E].
  - exists O, a. split; [lia | auto].
  - specialize (IH (i + 1)). destruct (find_dead l (i + 1)); [|constructor; auto].
    destruct IH as (n & b & -> & Hb & Hd). exists (Datatypes.S n), b. split; [lia | auto].
Qed.

Lemma find_dead_first (l : list pcb) (i j : Z) (n : nat) (b : pcb) :
  find_dead l i = Some j -> l !! n = Some b -> i + Z.of_nat n < j -> b.(state) <> PROC_DEAD.
Proof.
  revert i n. induction l as [| a l IH]; intros i n; simpl; [discriminate|].
  destruct (Z.eqb_spec a.(state) PROC_DEAD) as [E | E]; [intros [= ->]; lia|].
  destruct n as [| n]; simpl; [intros _ [= ->]; auto | intros H Hb Hlt]. eapply IH; eauto. lia.
Qed.

Lemma clear_flags_ticks (t : timers) (x : Z) : (clear_flags t x).(tick_count) = t.(tick_count).
Proof. unfold clear_flags. destruct (_ !! _); reflexivity. Qed.

(** The child a successful [fork] leaves in a slot. *)
Definition forked (a b : pcb) (now : Z) (m : mm_struct) : pcb :=
  Pcb b.(rc) a.(esp) a.(ifp) m (s32 (b.(pid) + PT_SIZE)) a.(pid) a.(pflags) PROC_READY [] []
      now [] b.(posix_timer_id) (sig_clone b.(sig) a.(sig)) a.(filp) a.(pwd) a.(root).

(** The slot before it has an address space. *)
Definition cloned (a b : pcb) (now : Z) : pcb := p_state (forked a b now b.(mm)) PROC_NASCENT.

Ltac nextq Hq Hlq :=
  erewrite bind_ok;
  [| eapply upd_run; [exact Hq | simpl; apply list_lookup_insert_eq; rewrite ?length_insert; exact Hlq]].

Lemma pcb_clone_run (s : k) (c q : Z) (a b : pcb) :
  0 <= c -> s.(proctab) !! Z.to_nat c = Some a -> a.(state) <> PROC_DEAD ->
  find_dead s.(proctab) 0 = Some q -> s.(proctab) !! Z.to_nat q = Some b -> b.(state) = PROC_DEAD ->
  exists s' : k,
    pcb_clone c s = Ok (Some q, s') /\
    s'.(proctab) = <[Z.to_nat c := p_children a (a.(children) ++ [q])]>
                     (<[Z.to_nat q := cloned a b s.(timers_of).(tick_count)]> s.(proctab)) /\
    s'.(env) = files_shared a.(filp) s.(env) /\ s'.(umem) = s.(umem) /\ s'.(current) = s.(current) /\
    s'.(ready_queue) = s.(ready_queue) /\ s'.(zombies) = s.(zombies).
Proof.
  intros Hc Ha Hal Hf Hb Hd. assert (0 <= q) as Hq by (pose proof (find_dead_spec s.(proctab) 0) as H;
    rewrite Hf in H; destruct H as (n & _ & -> & _); lia).
  assert (Z.to_nat c <> Z.to_nat q) as Hne by congruence.
  pose proof (lookup_lt_Some _ _ _ Hb) as Hlq.
  eexists. split.
  { unfold pcb_clone, get_free_pcb.
    erewrite (bind_ok _ _ s); cycle 1.
    { erewrite bind_ok by reflexivity. rewrite Hf. unfold pcb_common_init.
      erewrite (bind_ok _ _ s); cycle 1.
      { erewrite bind_ok by reflexivity. erewrite bind_ok by reflexivity. erewrite bind_ok by reflexivity.
        apply (upd_run _ q _ b); [exact Hq | exact Hb]. }
      reflexivity. }
    cbv beta iota. erewrite bind_ok; [| apply proc_run; [exact Hc | simpl; rewrite list_lookup_insert_ne by auto; exact Ha]].
    nextq Hq Hlq. nextq Hq Hlq. erewrite bind_ok; [| apply ref_files_run].
    nextq Hq Hlq. nextq Hq Hlq. nextq Hq Hlq.
    erewrite bind_ok; [| apply (upd_run _ c _ a); [exact Hc | simpl; rewrite !list_lookup_insert_ne by auto; exact Ha]].
    reflexivity. }
  split_and!; try reflexivity. simpl. rewrite !list_insert_insert_eq, !clear_flags_ticks.
  reflexivity.
Qed.

Lemma on_mm_run {A : Type} (s : k) (q : Z) (f : mm_struct -> S -> A * mm_struct * S) (x : pcb)
    (r : A) (m : mm_struct) (e : S) :
  0 <= q -> s.(proctab) !! Z.to_nat q = Some x -> f x.(mm) s.(env) = (r, m, e) ->
  on_mm q f s = Ok (r, set_procs (set_env s e) (<[Z.to_nat q := p_mm x m]> s.(proctab))).
Proof.
  intros Hq Hx Hf. unfold on_mm. erewrite bind_ok; [| apply (proc_run s q x Hq Hx)].
  erewrite bind_ok; [| unfold on_env; rewrite Hf; reflexivity]. cbv beta iota.
  erewrite bind_ok; [| apply (upd_run (set_env s e) q _ x Hq Hx)]. reflexivity.
Qed.

Lemma ready_slot (s : k) (q : Z) (x : pcb) :
  0 <= q -> s.(proctab) !! Z.to_nat q = Some x -> linked s q = false ->
  ready q s = Ok (tt, set_queues (set_procs s (<[Z.to_nat q := p_state x PROC_READY]> s.(proctab)))
                        (s.(ready_queue) ++ [q]) s.(zombies)).
Proof.
  intros Hq Hx Hl. unfold ready. erewrite bind_ok; [| apply (upd_run _ q _ x Hq Hx)].
  unfold add_ready. change (linked (set_procs s _) q) with (linked s q). rewrite Hl. reflexivity.
Qed.

(** The number of a process created in a free slot is that of no live process. *)
Lemma next_number_fresh (s : k) (q : Z) (b : pcb) (p : Z) :
  pids_ok s -> 0 <= q -> s.(proctab) !! Z.to_nat q = Some b -> b.(state) = PROC_DEAD ->
  ~ alive s p (s32 (b.(pid) + PT_SIZE)).
Proof.
  intros (_ & Hp) Hq Hb Hd (Hp0 & x & Hx & Hs & Hn). pose proof (Hp _ _ Hb) as H1. pose proof (Hp _ _ Hx) as H2.
  rewrite Hn in H2. destruct (s32_shift (b.(pid) + PT_SIZE)) as (j & Hj). rewrite Hj in H2.
  unfold PT_SIZE in H2.
  replace (b.(pid) + 256 + j * 4294967296) with (b.(pid) + (1 + j * 16777216) * 256) in H2 by lia.
  rewrite Z.mod_add, H1 in H2 by lia. assert (p = q) as -> by lia. congruence.
Qed.

(** C18: [fork] with a free slot, a mapped user frame and an address space that
    can be cloned: the child takes the first free slot with a process number no
    live process has, inherits the context, signal state, files, directories and
    flags of its parent, sees 0 as the result, is queued last and is the youngest
    child; the parent gets the number of the child, and no other process changes. *)
Theorem sys_fork_correct (s : k) (a b : pcb) (q : Z) (m : mm_struct) (e : S) :
  pids_ok s -> 0 <= s.(current) -> s.(proctab) !! Z.to_nat s.(current) = Some a -> a.(state) <> PROC_DEAD ->
  present s (cx_eax a.(esp)) ->
  find_dead s.(proctab) 0 = Some q -> s.(proctab) !! Z.to_nat q = Some b -> linked s q = false ->
  mm_clone b.(mm) a.(mm) (files_shared a.(filp) s.(env)) = (0, m, e) ->
  let child := forked a b s.(timers_of).(tick_count) m in
  exists s' : k,
    sys_fork s = Ok (child.(pid), s') /\
    s'.(proctab) = <[Z.to_nat q := child]> (<[Z.to_nat s.(current) := p_children a (a.(children) ++ [q])]>
                     s.(proctab)) /\
    s'.(ready_queue) = s.(ready_queue) ++ [q] /\ s'.(zombies) = s.(zombies) /\
    s'.(umem) = <[cx_eax a.(esp) := 0]> s.(umem) /\ s'.(env) = e /\ s'.(current) = s.(current) /\
    (forall p, ~ alive s p child.(pid)) /\
    (forall i x, s.(proctab) !! i = Some x -> Z.of_nat i < q -> x.(state) <> PROC_DEAD).
Proof.
  intros Hok Hc Ha Hal Hw Hf Hb Hl Hm child.
  pose proof (find_dead_spec s.(proctab) 0) as Hd. rewrite Hf in Hd.
  destruct Hd as (n & b' & Eq & Hb' & Hd). assert (0 <= q) as Hq by lia.
  replace n with (Z.to_nat q) in Hb' by lia. rewrite Hb in Hb'. injection Hb' as <-.
  assert (Z.to_nat s.(current) <> Z.to_nat q) as Hne by congruence.
  pose proof (lookup_lt_Some _ _ _ Hb) as Hlq. pose proof (lookup_lt_Some _ _ _ Ha) as Hlc.
  set (s1 := set_umem s (<[cx_eax a.(esp) := 0]> s.(umem))).
  destruct (pcb_clone_run s1 s.(current) q a b Hc Ha Hal Hf Hb Hd) as
    (s2 & E2 & Ht2 & He2 & Hu2 & Hc2 & Hr2 & Hz2).
  assert (s2.(proctab) !! Z.to_nat q = Some (cloned a b s.(timers_of).(tick_count))) as Hq2.
  { rewrite Ht2, list_lookup_insert_ne by auto. apply list_lookup_insert_eq. exact Hlq. }
  eexists. split.
  { unfold sys_fork. erewrite bind_ok by reflexivity.
    erewrite bind_ok; [| apply (proc_run s _ a Hc Ha)].
    erewrite bind_ok; [| apply (mstore_run s _ 0 Hw)]. erewrite bind_ok; [| exact E2]. cbv beta iota.
    erewrite bind_ok; [| apply (proc_run s2 _ (p_children a (a.(children) ++ [q])) Hc); rewrite Ht2;
      apply list_lookup_insert_eq; rewrite length_insert; exact Hlc].
    erewrite bind_ok; [| apply (on_mm_run s2 q _ _ 0 m e Hq Hq2); rewrite He2; exact Hm].
    change (0 <? 0) with false. cbv iota.
    assert (Z.to_nat q < length s2.(proctab))%nat as Hl2 by (apply lookup_lt_Some in Hq2; exact Hq2).
    erewrite bind_ok; [| apply (ready_slot _ q (p_mm (cloned a b s.(timers_of).(tick_count)) m) Hq); [apply list_lookup_insert_eq; exact Hl2 |]].
    - erewrite bind_ok; [reflexivity | apply (proc_run _ q child Hq)].
      simpl. rewrite list_insert_insert_eq. apply list_lookup_insert_eq. exact Hl2.
    - unfold linked in *. simpl. rewrite Hr2, Hz2. exact Hl. }
  simpl. rewrite Ht2, Hr2, Hz2, Hu2, Hc2. split_and!; auto.
  - rewrite !list_insert_insert_eq, (list_insert_insert_ne _ (Z.to_nat q)), list_insert_insert_eq by auto.
    apply list_insert_insert_ne. auto.
  - intros p. apply (next_number_fresh s q b p); auto.
  - intros i x Hx Hi. apply (find_dead_first _ 0 q i x Hf Hx). lia.
Qed.

End fork.

(** An environment in which every allocation and every mapping succeeds. *)
#[local] Instance vma_unit : VmaEnv unit := {|
  alloc_vma := fun s => Some (1, s); free_vma := fun _ s => s; map_page := fun _ _ s => (0, s);
  copy_page := fun _ _ s => (0, s); pm_unmap := fun _ s => (0, s); pm_disable_write := fun _ s => (0, s);
  new_pgdir := fun s => (4096, s); clone_pgdir := fun s => (4096, s); free_pgdir := fun _ s => s;
  vma_ops := fun _ => None |}.

#[local] Instance proc_unit : ProcEnv unit := {|
  file_get := fun _ s => s; file_close := fun _ s => s; alloc_status := fun s => (true, s);
  free_status := fun s => s; copy_frame := fun _ _ _ _ s => s; root_inode := 0;
  rodata := [(16777216, 16781312); (33554432, 33558528)] |}.

Definition boot_state : kst unit :=
  set_procs sig_kst (proctab_init (blank_table (fun _ => PROC_DEAD))).

Definition ran (x : kcall) (s : kst unit) : kst unit :=
  match run_call 0 0 0 0 x s with Ok (_, s') => s' | _ => s end.

Lemma process_numbers_unique_witness :
  let s := ran (KCreate 64 0 0) (ran (KCreate 32 0 0) boot_state) in
  alive s 0 256 /\ alive s 1 1 /\ s.(ready_queue) = [0; 1] /\
  forall p, alive s p 256 -> p = 0.
Proof.
  set (s1 := ran (KCreate 32 0 0) boot_state). intros s.
  assert (alive s 0 256) as H0 by (split; [lia|]; eexists; split; [vm_compute; reflexivity | split; [discriminate | reflexivity]]).
  split; [exact H0|].
  split; [split; [lia|]; eexists; split; [vm_compute; reflexivity | split; [discriminate | reflexivity]]|].
  split; [vm_compute; reflexivity|].
  assert (run_call 0 0 0 0 (KCreate 32 0 0) boot_state = Ok (tt, s1)) as E1 by (vm_compute; reflexivity).
  assert (run_call 0 0 0 0 (KCreate 64 0 0) s1 = Ok (tt, s)) as E2 by (vm_compute; reflexivity).
  destruct (process_numbers_unique 0 0 0 0 boot_state s (blank_table (fun _ => PROC_DEAD)) 256) as [_ H].
  - vm_compute. reflexivity.
  - reflexivity.
  - eapply rtc_l; [exists (KCreate 32 0 0); exact E1|]. eapply rtc_once. exists (KCreate 64 0 0). exact E2.
  - intros p Hp. apply (H p 0 Hp H0).
Defined.

Definition fork_state : kst unit :=
  set_current (set_umem (set_procs sig_kst (blank_table (fun i => if i =? 7 then PROC_READY else PROC_DEAD)))
                 {[ cx_eax 0 := 57 ]}) 7.

Lemma sys_fork_correct_witness :
  exists s' : kst unit, sys_fork fork_state = Ok (256, s') /\ s'.(ready_queue) = [0] /\
    s'.(umem) !! cx_eax 0 = Some 0.
Proof.
  destruct (sys_fork_correct fork_state (blank_pcb 7 PROC_READY) (blank_pcb 0 PROC_DEAD) 0 (MM 4096 [] 0) tt)
    as (s' & E & _ & Hr & _ & Hu & _).
  - exact (blank_table_ok sig_kst _).
  - simpl. lia.
  - apply (blank_table_lookup (fun i => if i =? 7 then PROC_READY else PROC_DEAD) 7). lia.
  - discriminate.
  - exists 57. reflexivity.
  - reflexivity.
  - apply (blank_table_lookup (fun i => if i =? 7 then PROC_READY else PROC_DEAD) 0). lia.
  - reflexivity.
  - reflexivity.
  - exists s'. split; [exact E|]. split; [exact Hr|]. rewrite Hu. apply lookup_insert_eq.
Defined.

(** ** Waiting *)

(** [get_status] takes the oldest status that matches and keeps the order of
    the others. *)
Lemma get_status_spec (t i o : Z) (l : list proc_status) :
  match get_status t i o l with
  | Some (st, rest) => exists pre post, l = pre ++ st :: post /\ rest = pre ++ post /\
      status_matches t i o st = true /\ Forall (fun x => status_matches t i o x = false) pre
  | None => Forall (fun x => status_matches t i o x = false) l
  end.
Proof.
  induction l as [| x l IH]; simpl; [constructor|]. destruct (status_matches t i o x) eqn:E.
  - exists [], l. auto.
  - destruct (get_status t i o l) as [[st rest]|]; simpl; [|constructor; auto].
    destruct IH as (pre & post & -> & -> & Hm & Hf). exists (x :: pre), post. auto.
Qed.

Section waiting.

Context {S : Type} `{V : VmaEnv S} `{P : ProcEnv S}.

Abbreviation k := (kst S).

Lemma mstore_umem (s : k) (m : gmap Z Z) (x a w : Z) :
  present (set_umem s m) a -> present (set_umem s (<[x := w]> m)) a.
Proof. intros [v H]. unfold present in *. simpl in *. destruct (decide (x = a)) as [-> | Hne];
  [rewrite lookup_insert_eq; eauto | rewrite lookup_insert_ne by auto; eauto]. Qed.

(** The words [waitid] stores for a status. *)
Definition info_words (infop : Z) (st : proc_status) (m : gmap Z Z) : gmap Z Z :=
  <[infop +% 32 := st.(ps_status)]> (<[infop +% 24 := WVALUE st.(ps_status)]>
  (<[infop +% 16 := 0]> (<[infop +% 12 := st.(ps_pid)]> (<[infop +% 8 := 0]>
  (<[infop +% 4 := status_to_si_code st.(ps_status)]> (<[infop := SIGCHLD]> m)))))).

Lemma store_siginfo_run (s : k) (infop : Z) (st : proc_status) :
  Forall (fun o => present s (infop +% o)) [4; 8; 12; 16; 24; 32] -> present s infop ->
  store_siginfo infop st s = Ok (tt, set_umem s (info_words infop st s.(umem))).
Proof.
  intros HF H0. unfold store_siginfo.
  assert (forall x, present s x -> present (set_umem s s.(umem)) x) as Hx by auto.
  assert (s = set_umem s s.(umem)) as Es by (destruct s; reflexivity).
  rewrite Es at 1. rewrite !Forall_cons in HF. destruct HF as (H4 & H8 & H12 & H16 & H24 & H32 & _).
  do 6 (erewrite bind_ok; [| apply mstore_run; auto 8 using mstore_umem]; simpl).
  rewrite mstore_run; [reflexivity|]. auto 10 using mstore_umem.
Qed.

Lemma del_chain_run (s : k) (p : Z) :
  p ∈ s.(ready_queue) ++ s.(zombies) ->
  del_chain p s = Ok (tt, set_queues s (without p s.(ready_queue)) (without p s.(zombies))).
Proof. intros H. unfold del_chain, linked. rewrite bool_decide_eq_true_2 by exact H. reflexivity. Qed.

(** The reaping part, for a child [p] whose parent is in slot [c]. *)
Lemma reap_child_run (s : k) (c p : Z) (a b : pcb) (st : proc_status) :
  pids_ok s -> 0 <= c -> s.(proctab) !! Z.to_nat c = Some a ->
  alive s p st.(ps_pid) -> s.(proctab) !! Z.to_nat p = Some b -> p <> c ->
  child_owner p s.(proctab) 0 = Some c -> p ∈ s.(ready_queue) ++ s.(zombies) ->
  (p ← get_pcb st.(ps_pid);
   match p with
   | None => panic
   | Some p => del_child p ;; reap p
   end) s =
  Ok (tt, set_queues (set_procs s (<[Z.to_nat p := p_state b PROC_DEAD]>
                        (<[Z.to_nat c := p_children a (without p a.(children))]> s.(proctab))))
            (without p s.(ready_queue)) (without p s.(zombies))).
Proof.
  intros Hok Hc Ha Hal Hb Hne Ho Hz. destruct (get_pcb_spec s st.(ps_pid) Hok) as (r & Hg & Hr).
  rewrite (proj2 (Hr p) Hal) in Hg. erewrite bind_ok; [| exact Hg]. cbv beta iota.
  erewrite (bind_ok _ _ s); cycle 1.
  { unfold del_child. erewrite bind_ok by reflexivity. rewrite Ho. apply (upd_run s c _ a Hc Ha). }
  unfold reap. destruct Hal as (Hp & _).
  erewrite bind_ok; [| apply (upd_run _ p _ b Hp); simpl; rewrite list_lookup_insert_ne by lia; exact Hb].
  rewrite del_chain_run by exact Hz. reflexivity.
Qed.

Lemma reaped_not_alive (s s' : k) (p : Z) (a b : pcb) (n : Z) (a' := p_children a (without p a.(children)))
    (rest : list proc_status) :
  pids_ok s -> alive s p n -> p <> s.(current) -> 0 <= s.(current) ->
  s.(proctab) !! Z.to_nat s.(current) = Some a ->
  s'.(proctab) = <[Z.to_nat s.(current) := p_stats a' rest]> (<[Z.to_nat p := p_state b PROC_DEAD]> s.(proctab)) ->
  s.(proctab) !! Z.to_nat p = Some b ->
  forall q, ~ alive s' q n.
Proof.
  intros (_ & Hp) (Hp0 & y & Hy & _ & Hn) Hne Hc Ha Ht Hb q (Hq & x & Hx & Hs & Hm).
  rewrite Hb in Hy. injection Hy as <-. pose proof (Hp _ _ Hb) as H1. rewrite Ht in Hx.
  apply list_lookup_insert_Some in Hx as [(E & <- & _) | (_ & Hx)].
  - pose proof (Hp _ _ Ha) as H2. simpl in Hm. rewrite Hm in H2. rewrite Hn in H1. lia.
  - apply list_lookup_insert_Some in Hx as [(E & <- & _) | (Hq' & Hx)]; [contradiction|].
    pose proof (Hp _ _ Hx) as H2. rewrite Hm in H2. rewrite Hn in H1. lia.
Qed.

(** C19: [waitid] when a child has exited or been killed: it takes the oldest
    matching status, fills in the information with the number and exit value of
    the child, and reaps the child: its slot is free, its number names no live
    process, and it is on no list of the scheduler or of its parent. *)
Theorem sys_waitid_reaps (s : k) (idtype id infop options p : Z) (a b : pcb) (st : proc_status)
    (rest : list proc_status) :
  pids_ok s -> 0 <= s.(current) -> s.(proctab) !! Z.to_nat s.(current) = Some a ->
  vm_verify a.(mm) infop 36 VM_WRITE = 0 -> present s infop ->
  Forall (fun o => present s (infop +% o)) [4; 8; 12; 16; 24; 32] ->
  get_status idtype id options a.(child_stats) = Some (st, rest) ->
  WIFEXITED st.(ps_status) || WIFSIGNALED st.(ps_status) = true ->
  alive s p st.(ps_pid) -> s.(proctab) !! Z.to_nat p = Some b -> p <> s.(current) ->
  p ∈ a.(children) -> child_owner p s.(proctab) 0 = Some s.(current) -> p ∈ s.(ready_queue) ++ s.(zombies) ->
  exists s' : k,
    sys_waitid idtype id infop options s = Ok (Some 0, s') /\
    s'.(umem) = info_words infop st s.(umem) /\
    s'.(proctab) = <[Z.to_nat s.(current) := p_stats (p_children a (without p a.(children))) rest]>
                     (<[Z.to_nat p := p_state b PROC_DEAD]> s.(proctab)) /\
    p ∉ s'.(ready_queue) ++ s'.(zombies) /\ s'.(env) = free_status s.(env) /\
    (forall q, ~ alive s' q st.(ps_pid)) /\
    exists pre post, a.(child_stats) = pre ++ st :: post /\ rest = pre ++ post /\
      Forall (fun x => status_matches idtype id options x = false) pre.
Proof.
  intros Hok Hc Ha Hv Hi HF Hg Hx Hal Hb Hne Hin Ho Hz.
  set (s1 := set_umem s (info_words infop st s.(umem))).
  assert (Z.to_nat p <> Z.to_nat s.(current)) as Hne' by (destruct Hal; lia).
  eexists. split_and!.
  { unfold sys_waitid. erewrite bind_ok; [| unfold cur_proc; erewrite bind_ok by reflexivity;
      apply (proc_run s _ a Hc Ha)]. rewrite Hv. change (negb (0 =? 0)) with false. cbv iota.
    rewrite bool_decide_eq_false_2 by (intros E; rewrite E in Hin; inversion Hin).
    unfold waitid_loop. erewrite bind_ok by reflexivity. erewrite bind_ok; [| apply (proc_run s _ a Hc Ha)].
    rewrite Hg. cbv iota beta. erewrite bind_ok; [| apply (store_siginfo_run s infop st HF Hi)].
    rewrite Hx. erewrite (bind_ok _ _ s1); [| apply (reap_child_run s1 s.(current) p a b st); auto].
    erewrite bind_ok; [| apply (upd_run _ _ _ (p_children a (without p a.(children))) Hc); simpl;
      rewrite list_lookup_insert_ne by auto; apply list_lookup_insert_eq; apply lookup_lt_Some in Ha; exact Ha].
    erewrite bind_ok by reflexivity. reflexivity. }
  - reflexivity.
  - simpl. rewrite (list_insert_insert_ne _ (Z.to_nat p)), list_insert_insert_eq by auto. reflexivity.
  - simpl. unfold without. rewrite elem_of_app, !list_elem_of_In, !filter_In, Z.eqb_refl. simpl. intuition congruence.
  - reflexivity.
  - apply (reaped_not_alive s _ p a b st.(ps_pid) rest Hok Hal Hne Hc Ha); [|exact Hb].
    simpl. rewrite (list_insert_insert_ne _ (Z.to_nat p)), list_insert_insert_eq by auto. reflexivity.
  - pose proof (get_status_spec idtype id options a.(child_stats)) as H. rewrite Hg in H.
    destruct H as (pre & post & ? & ? & _ & ?). eauto.
Qed.

End waiting.

(** Process 7 has a child, 9, that exited with value 3. *)
Definition wait_state : kst unit :=
  let parent := p_mm (p_stats (p_children (blank_pcb 7 PROC_READY) [9]) [ProcStatus 9 (make_status _WEXITED 3)])
                  (MM 4096 [Vma 1 8192 12288 (Z.lor VM_READ VM_WRITE) 0 0] 0) in
  let t := blank_table (fun i => if (i =? 7) || (i =? 9) then PROC_ZOMBIE else PROC_DEAD) in
  set_queues (set_current (set_umem (set_procs sig_kst (<[7%nat := parent]> t))
    (list_to_map ((fun o => (8256 + o, 0)) <$> [0; 4; 8; 12; 16; 24; 32]))) 7) [] [9].

Lemma wait_state_ok : pids_ok wait_state.
Proof.
  set (st := fun i => if (i =? 7) || (i =? 9) then PROC_ZOMBIE else PROC_DEAD).
  destruct (blank_table_ok sig_kst st) as (Hl & Hp).
  assert (exists x, x.(pid) = 7 /\ wait_state.(proctab) = <[7%nat := x]> (blank_table st)) as (x & Ex & E)
    by (eexists; split; [|reflexivity]; reflexivity).
  unfold pids_ok. rewrite E. split; [rewrite length_insert; exact Hl|]. intros i y Hy.
  apply list_lookup_insert_Some in Hy as [(<- & <- & _) | (_ & Hy)]; [rewrite Ex; reflexivity | exact (Hp i y Hy)].
Qed.

Lemma sys_waitid_reaps_witness :
  exists s' : kst unit, sys_waitid P_ALL 0 8256 WEXITED wait_state = Ok (Some 0, s') /\
    s'.(umem) !! 8268 = Some 9 /\ s'.(umem) !! 8280 = Some 3 /\ forall q, ~ alive s' q 9.
Proof.
  destruct (sys_waitid_reaps wait_state P_ALL 0 8256 WEXITED 9
              (p_mm (p_stats (p_children (blank_pcb 7 PROC_READY) [9]) [ProcStatus 9 (make_status _WEXITED 3)])
                  (MM 4096 [Vma 1 8192 12288 (Z.lor VM_READ VM_WRITE) 0 0] 0))
              (blank_pcb 9 PROC_ZOMBIE) (ProcStatus 9 (make_status _WEXITED 3)) [])
    as (s' & E & Hu & _ & _ & _ & Hn & _).
  - exact wait_state_ok.
  - simpl. lia.
  - vm_compute. reflexivity.
  - vm_compute. reflexivity.
  - exists 0. vm_compute. reflexivity.
  - repeat constructor; exists 0; vm_compute; reflexivity.
  - vm_compute. reflexivity.
  - vm_compute. reflexivity.
  - split; [lia|]. eexists. split; [vm_compute; reflexivity | split; [discriminate | reflexivity]].
  - vm_compute. reflexivity.
  - simpl. lia.
  - apply list_elem_of_here.
  - vm_compute. reflexivity.
  - apply list_elem_of_here.
  - exists s'. split; [exact E|]. rewrite Hu. split; [vm_compute; reflexivity|].
    split; [vm_compute; reflexivity | exact Hn].
Defined.
