(* ===== verification/Flexbuf.v ===== *)
(** * Flexible buffers (kernel/flexbuf.c, include/kernel/flexbuf.h)

    A flexbuf is a descriptor with slots for pages that need not be adjacent.  A
    slot is [None] until it is assigned; a page in use is an entry of the page
    memory, 4096 bytes long.  Reading or writing outside the slots of a
    descriptor, or through a page that is not in use, is a [Fault].  A new page
    has the contents [junk] gives for its address.  The buffer of the caller is a
    list of bytes.  Descriptors are values; that old descriptors are not freed
    does not show. *)

From S2P Require Import Prelude Addr.

Record flexbuf : Type := Flexbuf {
  fsize : Z;
  fpos : Z;
  nr_slots : Z;
  page : list (option Z);
}.

(** Pages in use and the page allocator. *)
Record pages (P : Type) : Type := Pages {
  bytes_of : gmap Z (list Z);
  pool : P;
}.

Arguments Pages {P}.
Arguments bytes_of {P}.
Arguments pool {P}.

Definition page_offset (off : Z) : Z := off mod FRAME_SIZE.

Definition flexbuf_headroom (fb : flexbuf) : Z :=
  FRAME_SIZE - page_offset (fb.(fpos) +% fb.(fsize)).

Definition off_to_page (off : Z) : Z := off / FRAME_SIZE.

Definition flexbuf_nr_pages (fb : flexbuf) : Z :=
  if fb.(fsize) =? 0 then 0 else pages_in_range fb.(fpos) fb.(fsize).

Inductive fb_io : Type := FB_READ | FB_WRITE.

Section flexbuf.

Context {P : Type} `{PA : PageAllocator P} (kfree_page : Z -> P -> P) (junk : Z -> list Z).

Abbreviation M := (ST (pages P)).

Definition alloc_page : M Z := fun s =>
  match kalloc_pages s.(pool) 1 with
  | Ok (a, p) => Ok (a, Pages (<[a := junk a]> s.(bytes_of)) p)
  | Panic => Panic
  | Fault => Fault
  end.

Definition free_page (a : option Z) : M unit := fun s =>
  match a with
  | Some a => Ok (tt, Pages (delete a s.(bytes_of)) (kfree_page a s.(pool)))
  | None => Fault
  end.

(** [memcpy] from and to a page. *)
Definition page_load (a : option Z) (start len : Z) : M (list Z) := fun s =>
  if len =? 0 then Ok ([], s)
  else match a ≫= (s.(bytes_of) !!.) with
       | Some b => if start + len <=? FRAME_SIZE
                   then Ok (take (Z.to_nat len) (drop (Z.to_nat start) b), s) else Fault
       | None => Fault
       end.

Definition page_store (a : option Z) (start : Z) (d : list Z) : M unit := fun s =>
  if bool_decide (d = []) then Ok (tt, s)
  else match a with
       | Some a => match s.(bytes_of) !! a with
                   | Some b => if start + Z.of_nat (length d) <=? FRAME_SIZE
                               then Ok (tt, Pages (<[a := splice (Z.to_nat start) d b]> s.(bytes_of)) s.(pool))
                               else Fault
                   | None => Fault
                   end
       | None => Fault
       end.

(** [for (i = lo; i < lo + n; i++) slots[i] = kalloc_pages(1)] *)
Fixpoint fill_slots (n : nat) (i : Z) (slots : list (option Z)) : M (list (option Z)) :=
  match n with
  | O => mret slots
  | S n =>
      a ← alloc_page;
      slots ← st_res (astore slots i (Some a));
      fill_slots n (i + 1) slots
  end.

Definition flexbuf_alloc (size : Z) : M flexbuf :=
  let pgs := off_to_page size in
  let slots := Z.max pgs 8 in
  l ← fill_slots (Z.to_nat pgs) 0 (replicate (Z.to_nat slots) None);
  mret (Flexbuf size 0 slots l).

Definition free_slots (slots : list (option Z)) (lo n : Z) : M unit :=
  for_each (zseq lo (Z.to_nat n)) (fun i => a ← st_res (aload slots i); free_page a).

Definition flexbuf_free (fb : flexbuf) : M unit := free_slots fb.(page) 0 (flexbuf_nr_pages fb).

(** [for (i = 0; i < n; i++) new[i] = old[i]] *)
Fixpoint copy_slots (n : nat) (i : Z) (old new : list (option Z)) : res (list (option Z)) :=
  match n with
  | O => Ok new
  | S n =>
      do a <- aload old i;
      do new <- astore new i a;
      copy_slots n (i + 1) old new
  end.

Definition flexbuf_realloc (fb : flexbuf) (size : Z) : M flexbuf :=
  let old_pages := flexbuf_nr_pages fb in
  let new_pages := if size =? 0 then 0 else pages_in_range fb.(fpos) size in
  fb ← (if fb.(nr_slots) <? new_pages then
          l ← st_res (copy_slots (Z.to_nat old_pages) 0 fb.(page) (replicate (Z.to_nat new_pages) None));
          mret (Flexbuf size fb.(fpos) (off_to_page (fb.(fpos) +% size)) l)
        else mret fb);
  l ← fill_slots (Z.to_nat (new_pages - old_pages)) old_pages fb.(page);
  free_slots l new_pages (old_pages - new_pages) ;;
  mret (Flexbuf size fb.(fpos) fb.(nr_slots) l).

(** The loop of [flexbuf_do_io]: the bytes transferred so far are [nr_bytes];
    those read are collected in [out]. *)
Fixpoint io_loop (n : nat) (fb : flexbuf) (ub : list Z) (length rw_page start endp nr_bytes : Z)
    (out : list Z) (rw : fb_io) : M (Z * list Z) :=
  match n with
  | O => mret (nr_bytes, out)
  | S n =>
      a ← st_res (aload fb.(page) rw_page);
      let len := endp -% start in
      out ← (match rw with
             | FB_READ => d ← page_load a start len; mret (out ++ d)
             | FB_WRITE => page_store a start (take (Z.to_nat len) (drop (Z.to_nat nr_bytes) ub)) ;; mret out
             end);
      let nr_bytes := nr_bytes +% len in
      io_loop n fb ub length (rw_page + 1) 0 (Z.min FRAME_SIZE (length -% nr_bytes)) nr_bytes out rw
  end.

Definition flexbuf_do_io (fb : flexbuf) (ub : list Z) (length off : Z) (rw : fb_io) : M (Z * list Z) :=
  let length := Z.min length (fb.(fsize) -% off) in
  let start := page_offset (fb.(fpos) +% off) in
  let endp := Z.min FRAME_SIZE (start +% length) in
  let first_page := off_to_page (fb.(fpos) +% off) in
  let nr_pages := pages_in_range (fb.(fpos) +% off) length in
  io_loop (Z.to_nat nr_pages) fb ub length first_page start endp 0 [] rw.

Definition flexbuf_read (src : flexbuf) (length pos : Z) : M (Z * list Z) :=
  flexbuf_do_io src [] length pos FB_READ.

(** The updated buffer and the number of bytes. *)
Definition flexbuf_write (dst : flexbuf) (src : list Z) (length pos : Z) : M (flexbuf * Z) :=
  dst ← (if dst.(fsize) <? pos +% length then flexbuf_realloc dst (pos +% length) else mret dst);
  r ← flexbuf_do_io dst src length pos FB_WRITE;
  mret (dst, r.1).

Definition flexbuf_enqueue (dst : flexbuf) (src : list Z) (length : Z) : M (flexbuf * Z) :=
  flexbuf_write dst src length dst.(fsize).

(** [for (page = 0; page < shift; page++) slots[page] = slots[shift + page]] *)
Fixpoint shift_slots (n : nat) (i shift : Z) (slots : list (option Z)) : res (list (option Z)) :=
  match n with
  | O => Ok slots
  | S n =>
      do a <- aload slots (shift + i);
      do slots <- astore slots i a;
      shift_slots n (i + 1) shift slots
  end.

(** The updated buffer, the number of bytes and the bytes. *)
Definition flexbuf_dequeue (src : flexbuf) (length : Z) : M (flexbuf * Z * list Z) :=
  r ← flexbuf_read src length 0;
  let '(nr_bytes, data) := r in
  let shift := (src.(fpos) +% nr_bytes) / FRAME_SIZE in
  l ← st_res (shift_slots (Z.to_nat shift) 0 shift src.(page));
  mret (Flexbuf (src.(fsize) -% nr_bytes) (page_offset (src.(fpos) +% nr_bytes)) src.(nr_slots) l,
        nr_bytes, data).

End flexbuf.

(** ** Slices of a sequence of pages *)

Definition page_sized (b : list Z) : Prop := Z.of_nat (length b) = 4096.

Definition full_pages (bs : list (list Z)) : Prop := Forall page_sized bs.

Lemma concat_length (bs : list (list Z)) :
  full_pages bs -> Z.of_nat (length (concat bs)) = 4096 * Z.of_nat (length bs).
Proof. induction 1 as [| b bs Hb _ IH]; cbn [concat length]; [reflexivity|]. rewrite length_app. unfold page_sized in Hb. lia. Qed.

Lemma page_slice (bs : list (list Z)) (i s n : nat) (b : list Z) :
  full_pages bs -> bs !! i = Some b -> Z.of_nat s + Z.of_nat n <= 4096 ->
  take n (drop s b) = take n (drop (Z.to_nat (4096 * Z.of_nat i + Z.of_nat s)) (concat bs)).
Proof.
  intros Hf. revert i. induction Hf as [| b0 bs Hb _ IH]; intros i Hi Hs; [discriminate|]. unfold page_sized in Hb.
  destruct i as [| i]; simpl in Hi.
  - injection Hi as ->. cbn [concat]. rewrite (drop_app_le b), take_app_le by (rewrite ?length_drop; lia). do 2 f_equal. lia.
  - rewrite (IH i Hi Hs). cbn [concat]. rewrite (drop_app_ge b0) by lia. do 2 f_equal. lia.
Qed.

Lemma page_splice (bs : list (list Z)) (i s : nat) (d b : list Z) :
  full_pages bs -> bs !! i = Some b -> Z.of_nat s + Z.of_nat (length d) <= 4096 ->
  concat (<[i := splice s d b]> bs) = splice (Z.to_nat (4096 * Z.of_nat i + Z.of_nat s)) d (concat bs).
Proof.
  intros Hf. revert i. induction Hf as [| b0 bs Hb _ IH]; intros i Hi Hs; [discriminate|]. unfold page_sized in Hb.
  destruct i as [| i]; simpl in Hi.
  - injection Hi as ->. change (splice s d b ++ concat bs = splice (Z.to_nat (4096 * Z.of_nat 0 + Z.of_nat s)) d (b ++ concat bs)).
    rewrite splice_app_l by lia. do 2 f_equal. lia.
  - change (b0 ++ concat (<[i := splice s d b]> bs) =
            splice (Z.to_nat (4096 * Z.of_nat (Datatypes.S i) + Z.of_nat s)) d (b0 ++ concat bs)).
    rewrite (IH i Hi Hs).
    replace (Z.to_nat (4096 * Z.of_nat (Datatypes.S i) + Z.of_nat s))
      with (length b0 + Z.to_nat (4096 * Z.of_nat i + Z.of_nat s))%nat by lia.
    rewrite splice_app_r. reflexivity.
Qed.

(** ** Representation *)

(** The pages [ps] are in use, distinct, and hold [bs]. *)
Definition backed (m : gmap Z (list Z)) (ps : list Z) (bs : list (list Z)) : Prop :=
  NoDup ps /\ Forall2 (fun p b => m !! p = Some b /\ page_sized b) ps bs.

Lemma backed_full (m : gmap Z (list Z)) (ps : list Z) (bs : list (list Z)) : backed m ps bs -> full_pages bs.
Proof. intros [_ H]. induction H; constructor; naive_solver. Qed.

Lemma backed_length (m : gmap Z (list Z)) (ps : list Z) (bs : list (list Z)) :
  backed m ps bs -> length ps = length bs.
Proof. intros [_ H]. apply Forall2_length in H. exact H. Qed.

Lemma backed_lookup (m : gmap Z (list Z)) (ps : list Z) (bs : list (list Z)) (i : nat) :
  backed m ps bs -> (i < length bs)%nat ->
  exists p b, ps !! i = Some p /\ bs !! i = Some b /\ m !! p = Some b /\ page_sized b.
Proof.
  intros [_ H] Hi. destruct (lookup_lt_is_Some_2 bs i Hi) as [b Hb].
  destruct (Forall2_lookup_r _ _ _ _ _ H Hb) as (p & Hp & Hm & Hl). eauto 8.
Qed.

Lemma backed_store (m : gmap Z (list Z)) (ps : list Z) (bs : list (list Z)) (i : nat) (p : Z) (b : list Z) :
  backed m ps bs -> ps !! i = Some p -> page_sized b -> backed (<[p := b]> m) ps (<[i := b]> bs).
Proof.
  intros [Hn H] Hp Hb. split; [exact Hn|]. apply Forall2_same_length_lookup.
  apply Forall2_same_length_lookup in H as [Hl H]. split; [rewrite length_insert; exact Hl|].
  intros j q c Hq Hc. apply list_lookup_insert_Some in Hc as [(-> & <- & _) | (Hne & Hc)].
  - assert (q = p) as -> by congruence. rewrite lookup_insert_eq. auto.
  - rewrite lookup_insert_ne; [eauto|]. intros ->. apply Hne. eapply (proj1 (NoDup_alt ps) Hn); eauto.
Qed.

Lemma backed_extend (m : gmap Z (list Z)) (ps : list Z) (bs : list (list Z)) (p : Z) (b : list Z) :
  backed m ps bs -> m !! p = None -> page_sized b -> backed (<[p := b]> m) (ps ++ [p]) (bs ++ [b]).
Proof.
  intros [Hn H] Hp Hb. assert (p ∉ ps) as Hnin.
  { intros Hin. apply list_elem_of_lookup in Hin as (i & Hi). destruct (Forall2_lookup_l _ _ _ _ _ H Hi) as (c & _ & Hc & _).
    congruence. }
  split; [apply NoDup_app; split_and!; [exact Hn | set_solver | apply NoDup_singleton]|].
  apply Forall2_app; [| repeat constructor; [apply lookup_insert_eq | exact Hb]].
  apply Forall2_same_length_lookup. apply Forall2_same_length_lookup in H as [Hl H]. split; [exact Hl|].
  intros i q c Hq Hc. rewrite lookup_insert_ne; [eauto|]. intros ->. apply Hnin, list_elem_of_lookup. eauto.
Qed.

Definition fpages (m : gmap Z (list Z)) (fb : flexbuf) (ps : list Z) (bs : list (list Z)) : Prop :=
  backed m ps bs /\ exists rest, fb.(page) = (Some <$> ps) ++ rest.

Lemma fpages_slot (m : gmap Z (list Z)) (fb : flexbuf) (ps : list Z) (bs : list (list Z)) (i : Z) (p : Z) :
  fpages m fb ps bs -> 0 <= i -> ps !! Z.to_nat i = Some p -> aload fb.(page) i = Ok (Some p).
Proof.
  intros (_ & rest & E) Hi Hp. apply aload_ok. split; [exact Hi|]. rewrite E.
  apply lookup_app_l_Some. rewrite list_lookup_fmap, Hp. reflexivity.
Qed.

Section proofs.

Context {P : Type} `{PA : PageAllocator P}.

Abbreviation K := (pages P).

Lemma page_load_run (s : K) (p : Z) (b : list Z) (start len : Z) :
  s.(bytes_of) !! p = Some b -> 0 <= len -> start + len <= 4096 ->
  page_load (Some p) start len s = Ok (take (Z.to_nat len) (drop (Z.to_nat start) b), s).
Proof.
  intros Hp H0 Hl. unfold page_load. destruct (Z.eqb_spec len 0) as [-> | _]; [reflexivity|].
  simpl. rewrite Hp. unfold FRAME_SIZE. destruct (Z.leb_spec (start + len) 4096); [reflexivity | lia].
Qed.

Lemma page_store_run (s : K) (p : Z) (b : list Z) (start : Z) (d : list Z) :
  s.(bytes_of) !! p = Some b -> start + Z.of_nat (length d) <= 4096 ->
  page_store (Some p) start d s = Ok (tt, Pages (<[p := splice (Z.to_nat start) d b]> s.(bytes_of)) s.(pool)).
Proof.
  intros Hp Hl. unfold page_store. case_bool_decide as E.
  - subst d. rewrite splice_nil, insert_id by exact Hp. destruct s; reflexivity.
  - rewrite Hp. unfold FRAME_SIZE. destruct (Z.leb_spec (start + Z.of_nat (length d)) 4096); [reflexivity | lia].
Qed.

(** What one iteration transfers. *)
Lemma io_step (start rem : Z) :
  0 <= start < 4096 -> 0 <= rem < 2 ^ 31 ->
  Z.min FRAME_SIZE (start +% rem) -% start = Z.min (4096 - start) rem.
Proof. intros Hs Hr. unfold FRAME_SIZE. word_lia. Qed.

(** The loop, reading [rem] bytes from page [i], offset [start]. *)
Lemma io_read_loop (s : K) (fb : flexbuf) (ps : list Z) (bs : list (list Z)) (n : nat) :
  fpages s.(bytes_of) fb ps bs ->
  forall (len i start rem nr : Z) (out : list Z),
  0 <= i -> 0 <= start < 4096 -> 0 <= rem -> 0 <= nr -> nr + rem = len -> len < 2 ^ 31 ->
  rem = 0 /\ start = 0 /\ n = O \/ 0 < rem /\ Z.of_nat n = (start + rem + 4095) / 4096 ->
  i + Z.of_nat n <= Z.of_nat (length bs) ->
  io_loop n fb [] len i start (Z.min FRAME_SIZE (start +% rem)) nr out FB_READ s =
  Ok ((len, out ++ take (Z.to_nat rem) (drop (Z.to_nat (4096 * i + start)) (concat bs))), s).
Proof.
  intros Hf. induction n as [| n IH]; intros len i start rem nr out Hi Hs Hr Hnr Hlen Hb Hn Hl.
  - assert (rem = 0) as -> by lia. simpl. rewrite app_nil_r. replace nr with len by lia. reflexivity.
  - destruct Hn as [|[Hr0 Hn]]; [lia|]. destruct (backed_lookup _ _ _ (Z.to_nat i) (proj1 Hf)) as (p & b & Hp & Hbs & Hm & Hlb); [lia|].
    cbn [io_loop]. erewrite bind_ok; [| unfold st_res; rewrite (fpages_slot _ _ _ _ i p Hf Hi Hp); reflexivity].
    rewrite io_step by lia. set (k := Z.min (4096 - start) rem).
    erewrite (bind_ok _ _ s); [| erewrite bind_ok; [reflexivity | apply (page_load_run s p b start k Hm); lia]].
    replace (nr +% k) with (nr + k) by word_lia.
    replace (Z.min FRAME_SIZE (len -% (nr + k))) with (Z.min FRAME_SIZE (0 +% (rem - k))) by (unfold FRAME_SIZE; word_lia).
    rewrite (IH len (i + 1) 0 (rem - k) (nr + k)) by lia. f_equal. f_equal. f_equal. rewrite <- app_assoc. f_equal.
    rewrite (page_slice bs (Z.to_nat i) (Z.to_nat start) (Z.to_nat k) b (backed_full _ _ _ (proj1 Hf)) Hbs) by lia.
    rewrite !Z2Nat.id by lia. apply take_join; lia.
Qed.

(** The loop, writing [d]. *)
Lemma io_write_loop (fb : flexbuf) (ps : list Z) (ub : list Z) (n : nat) :
  forall (s : K) (bs : list (list Z)) (len i start rem nr : Z) (out : list Z),
  fpages s.(bytes_of) fb ps bs -> Z.of_nat (length ub) = len ->
  0 <= i -> 0 <= start < 4096 -> 0 <= rem -> 0 <= nr -> nr + rem = len -> len < 2 ^ 31 ->
  rem = 0 /\ start = 0 /\ n = O \/ 0 < rem /\ Z.of_nat n = (start + rem + 4095) / 4096 ->
  i + Z.of_nat n <= Z.of_nat (length bs) ->
  exists s' bs',
    io_loop n fb ub len i start (Z.min FRAME_SIZE (start +% rem)) nr out FB_WRITE s = Ok ((len, out), s') /\
    fpages s'.(bytes_of) fb ps bs' /\ length bs' = length bs /\ s'.(pool) = s.(pool) /\
    concat bs' = splice (Z.to_nat (4096 * i + start)) (drop (Z.to_nat nr) ub) (concat bs) /\
    (forall a, a ∉ ps -> s'.(bytes_of) !! a = s.(bytes_of) !! a).
Proof.
  induction n as [| n IH]; intros s bs len i start rem nr out Hf Hub Hi Hs Hr Hnr Hlen Hb Hn Hl.
  - exists s, bs. rewrite drop_ge, splice_nil by lia. simpl. replace nr with len by lia. auto 7.
  - destruct Hn as [|[Hr0 Hn]]; [lia|]. destruct (backed_lookup _ _ _ (Z.to_nat i) (proj1 Hf)) as (p & b & Hp & Hbs & Hm & Hlb); [lia|].
    cbn [io_loop]. erewrite bind_ok; [| unfold st_res; rewrite (fpages_slot _ _ _ _ i p Hf Hi Hp); reflexivity].
    rewrite io_step by lia. set (k := Z.min (4096 - start) rem). set (d := take (Z.to_nat k) (drop (Z.to_nat nr) ub)).
    assert (length d = Z.to_nat k) as Hd by (unfold d; rewrite length_take, length_drop; lia).
    set (b' := splice (Z.to_nat start) d b). assert (page_sized b') as Hb' by (unfold page_sized in *; unfold b'; rewrite splice_length; lia).
    erewrite (bind_ok _ _ s); [| erewrite bind_ok; [reflexivity | apply (page_store_run s p b start d Hm); lia]].
    replace (nr +% k) with (nr + k) by word_lia.
    replace (Z.min FRAME_SIZE (len -% (nr + k))) with (Z.min FRAME_SIZE (0 +% (rem - k))) by (unfold FRAME_SIZE; word_lia).
    destruct (IH (Pages (<[p := b']> s.(bytes_of)) s.(pool)) (<[Z.to_nat i := b']> bs) len (i + 1) 0 (rem - k) (nr + k) out)
      as (s' & bs' & E & Hf' & Hl' & Hp' & Hc & Ho); try lia.
    { destruct Hf as (Hbk & Hrest). split; [|exact Hrest]. apply (backed_store _ _ _ _ p); auto. }
    { rewrite length_insert. lia. }
    exists s', bs'. split; [exact E|]. split; [exact Hf'|]. rewrite length_insert in Hl'. split; [exact Hl'|].
    split; [exact Hp'|]. split; [|intros a Ha; rewrite (Ho a Ha); simpl; apply lookup_insert_ne; intros ->;
      apply Ha, list_elem_of_lookup; eauto].
    rewrite Hc. unfold b'. rewrite (page_splice bs (Z.to_nat i) (Z.to_nat start) d b (backed_full _ _ _ (proj1 Hf)) Hbs) by lia.
    rewrite !Z2Nat.id by lia.
    unfold d. replace (drop (Z.to_nat (nr + k)) ub) with (drop (Z.to_nat k) (drop (Z.to_nat nr) ub))
      by (rewrite drop_drop; f_equal; lia).
    apply splice_join; rewrite length_drop; [|lia]. pose proof (concat_length _ (backed_full _ _ _ (proj1 Hf))). lia.
Qed.
End proofs.

(** ** The buffer as a sequence of bytes *)

(** [fb] stands for the bytes [l], kept in the pages [ps]. *)
Definition fb_rep {P : Type} (s : pages P) (fb : flexbuf) (ps : list Z) (l : list Z) : Prop :=
  0 <= fb.(fpos) < 4096 /\ fb.(fsize) = Z.of_nat (length l) /\ fb.(fpos) + fb.(fsize) < 2 ^ 30 /\
  0 <= fb.(nr_slots) <= Z.of_nat (length fb.(page)) /\
  exists bs, fpages s.(bytes_of) fb ps bs /\ Z.of_nat (length bs) = flexbuf_nr_pages fb /\
             l = take (length l) (drop (Z.to_nat fb.(fpos)) (concat bs)).

(** Pages in use are taken from the allocator. *)
Definition pool_ok {P : Type} `{PA : PageAllocator P} (s : pages P) : Prop :=
  forall a, is_Some (s.(bytes_of) !! a) -> mapped s.(pool) (a / FRAME_SIZE).

(** The allocator has [n] pages left. *)
Fixpoint supplies {P : Type} `{PA : PageAllocator P} (n : nat) (p : P) : Prop :=
  match n with
  | O => True
  | S n => exists a p', kalloc_pages p 1 = Ok (a, p') /\ supplies n p'
  end.

Lemma nr_pages_eq (fb : flexbuf) :
  0 <= fb.(fpos) < 4096 -> 0 < fb.(fsize) < 2 ^ 31 ->
  flexbuf_nr_pages fb = (fb.(fpos) + fb.(fsize) + 4095) / 4096.
Proof.
  intros Hp Hs. unfold flexbuf_nr_pages. destruct (Z.eqb_spec fb.(fsize) 0); [lia|].
  rewrite pages_in_range_eq by (unfold in_u32; lia). rewrite Z.mod_small by lia. lia.
Qed.

Lemma io_pages (pos off len : Z) :
  0 <= pos -> 0 <= off -> 0 < len -> pos + off + len < 2 ^ 31 ->
  pages_in_range (pos +% off) len = (page_offset (pos +% off) + len + 4095) / 4096.
Proof.
  intros Hp Ho Hl Hb. unfold page_offset, FRAME_SIZE. replace (pos +% off) with (pos + off) by word_lia.
  rewrite pages_in_range_eq by (unfold in_u32; lia). lia.
Qed.

Lemma copy_slots_run (n : nat) :
  forall (pre mid rest new : list (option Z)),
  length mid = n -> (n <= length new)%nat ->
  copy_slots n (Z.of_nat (length pre)) (pre ++ mid ++ rest) (pre ++ new) = Ok (pre ++ mid ++ drop n new).
Proof.
  induction n as [| n IH]; intros pre mid rest new Hm Hn.
  - destruct mid; [|discriminate]. reflexivity.
  - destruct mid as [| a mid], new as [| b new]; simpl in Hm, Hn; try lia. cbn [copy_slots].
    rewrite (proj2 (aload_ok _ _ a)); [| split; [lia|]; rewrite Nat2Z.id; apply list_lookup_middle; reflexivity].
    cbn [res_bind]. rewrite (proj2 (astore_ok _ ((pre ++ [a]) ++ new) _ _)).
    + cbn [res_bind]. replace (Z.of_nat (length pre) + 1) with (Z.of_nat (length (pre ++ [a]))) by (rewrite length_app; simpl; lia).
      replace (pre ++ (a :: mid) ++ rest) with ((pre ++ [a]) ++ mid ++ rest) by (rewrite <- !app_assoc; reflexivity).
      rewrite IH by lia. rewrite <- !app_assoc. reflexivity.
    + rewrite length_app. simpl. split; [lia|]. rewrite Nat2Z.id, insert_app_r_alt by lia.
      rewrite Nat.sub_diag, <- app_assoc. reflexivity.
Qed.

Lemma shift_slots_run (sh : nat) (hi : list (option Z)) (n : nat) :
  forall (pre mid : list (option Z)),
  length mid = n -> (length pre + n = sh)%nat -> (sh <= length hi)%nat ->
  shift_slots n (Z.of_nat (length pre)) (Z.of_nat sh) (pre ++ mid ++ hi) =
  Ok (pre ++ take n (drop (length pre) hi) ++ hi).
Proof.
  induction n as [| n IH]; intros pre mid Hm Hs Hh.
  - destruct mid; [|discriminate]. reflexivity.
  - destruct mid as [| b mid]; [discriminate|]. simpl in Hm. cbn [shift_slots].
    destruct (lookup_lt_is_Some_2 hi (length pre)) as [a Ha]; [lia|].
    rewrite (proj2 (aload_ok _ _ a)); cycle 1.
    { split; [lia|]. rewrite app_assoc, lookup_app_r by (rewrite length_app; simpl; lia).
      rewrite length_app. simpl. rewrite <- Ha. f_equal. lia. }
    cbn [res_bind]. rewrite (proj2 (astore_ok _ ((pre ++ [a]) ++ mid ++ hi) _ _)).
    + cbn [res_bind]. replace (Z.of_nat (length pre) + 1) with (Z.of_nat (length (pre ++ [a]))) by (rewrite length_app; simpl; lia).
      rewrite IH by (rewrite ?length_app; simpl; lia). rewrite length_app, <- app_assoc. simpl.
      rewrite (drop_S hi a (length pre) Ha), Nat.add_1_r. reflexivity.
    + rewrite !length_app. simpl. split; [lia|]. rewrite Nat2Z.id, insert_app_r_alt by lia.
      rewrite Nat.sub_diag, <- app_assoc. reflexivity.
Qed.

Lemma concat_drop (bs : list (list Z)) (k : nat) :
  full_pages bs -> (k <= length bs)%nat ->
  concat (drop k bs) = drop (Z.to_nat (4096 * Z.of_nat k)) (concat bs).
Proof.
  intros Hf. revert k. induction Hf as [| b bs Hb _ IH]; intros k Hk.
  - destruct k; [reflexivity | simpl in Hk; lia].
  - destruct k as [| k]; [reflexivity|]. unfold page_sized in Hb. cbn [drop concat length] in *.
    rewrite IH by lia. rewrite (drop_app_ge b) by lia. f_equal. lia.
Qed.

Lemma backed_drop (m : gmap Z (list Z)) (ps : list Z) (bs : list (list Z)) (k : nat) :
  backed m ps bs -> backed m (drop k ps) (drop k bs).
Proof.
  intros [Hn Hb]. split; [|apply Forall2_drop; exact Hb].
  rewrite <- (take_drop k ps) in Hn. apply NoDup_app in Hn. tauto.
Qed.

(** The slots after the first [k] pages have been given up, when the pages that
    remain are no more than those given up. *)
Lemma shift_pages (ps : list Z) (rest : list (option Z)) (k : nat) :
  (k <= length ps)%nat -> k = 0%nat \/ (length ps <= 2 * k)%nat -> (2 * k <= length ps + length rest)%nat ->
  exists rest', shift_slots k 0 (Z.of_nat k) ((Some <$> ps) ++ rest) = Ok ((Some <$> drop k ps) ++ rest') /\
    length rest' = (length rest + k)%nat.
Proof.
  intros Hk H2 Hr. destruct H2 as [-> | H2]; [exists rest; split; [reflexivity | lia]|].
  pose proof (shift_slots_run k ((Some <$> drop k ps) ++ rest) k [] (Some <$> take k ps)) as H.
  rewrite app_nil_l, app_assoc, <- fmap_app, take_drop in H. simpl in H. change (Z.of_nat 0) with 0 in H.
  rewrite H.
  - rewrite drop_0, take_app_ge by (rewrite length_fmap, length_drop; lia). rewrite <- app_assoc. eexists.
    split; [reflexivity|]. rewrite length_app, length_take, length_app, !length_fmap, !length_drop. lia.
  - rewrite length_fmap, length_take. lia.
  - lia.
  - rewrite length_app, length_fmap, length_drop. lia.
Qed.

Section rep.

Context {P : Type} `{PA : PageAllocator P}.

Abbreviation K := (pages P).

(** Reading at an offset inside the buffer. *)
Lemma flexbuf_read_run (s : K) (fb : flexbuf) (ps l : list Z) (len off : Z) :
  fb_rep s fb ps l -> 0 <= off < fb.(fsize) -> 0 < len < 2 ^ 31 ->
  let n := Z.min len (fb.(fsize) - off) in
  flexbuf_read fb len off s = Ok ((n, take (Z.to_nat n) (drop (Z.to_nat off) l)), s).
Proof.
  intros (Hp & Hsz & Hb & _ & bs & Hf & Hbs & Hl) Ho Hlen n. unfold flexbuf_read, flexbuf_do_io.
  replace (Z.min len (fb.(fsize) -% off)) with n by (unfold n; word_lia).
  rewrite nr_pages_eq in Hbs by lia. rewrite io_pages by lia.
  set (x := fb.(fpos) +% off). assert (x = fb.(fpos) + off) as Hx by (unfold x; word_lia).
  assert (page_offset x = x mod 4096) as Hpo by reflexivity.
  assert (off_to_page x = x / 4096) as Hop by reflexivity.
  rewrite (io_read_loop s fb ps bs _ Hf n (off_to_page x) (page_offset x) n 0 []) by lia.
  simpl. do 3 f_equal. replace (Z.to_nat (4096 * off_to_page x + page_offset x)) with (Z.to_nat fb.(fpos) + Z.to_nat off)%nat by lia.
  rewrite <- drop_drop. rewrite Hl, skipn_firstn_comm, take_take. f_equal. lia.
Qed.

(** New pages at the end. *)
Lemma fill_slots_run `{!PageAllocatorLaws P} (junk : Z -> list Z) (n : nat) :
  forall (s : K) (ps : list Z) (bs : list (list Z)) (rest : list (option Z)),
  (forall a, page_sized (junk a)) -> pool_ok s -> supplies n s.(pool) ->
  backed s.(bytes_of) ps bs -> (n <= length rest)%nat ->
  exists s' ps' bs',
    fill_slots junk n (Z.of_nat (length ps)) ((Some <$> ps) ++ rest) s =
      Ok ((Some <$> ps ++ ps') ++ drop n rest, s') /\
    length ps' = n /\ backed s'.(bytes_of) (ps ++ ps') (bs ++ bs') /\ pool_ok s' /\
    (forall a, is_Some (s.(bytes_of) !! a) -> s'.(bytes_of) !! a = s.(bytes_of) !! a) /\
    (forall a, a ∈ ps' -> s.(bytes_of) !! a = None) /\
    (forall k, supplies (n + k) s.(pool) -> supplies k s'.(pool)).
Proof.
  induction n as [| n IH]; intros s ps bs rest Hj Hok Hsup Hb Hn.
  - exists s, [], []. rewrite !app_nil_r, drop_0. split_and!; auto. intros a Ha. inversion Ha.
  - destruct Hsup as (a & p & Ha & Hsup). destruct rest as [| r rest]; [simpl in Hn; lia|].
    destruct (kalloc_pages_fresh s.(pool) p 1 a) as (Ha0 & Ham & _ & Hnew & Hmap); [lia | exact Ha |].
    assert (s.(bytes_of) !! a = None) as Hnone.
    { apply eq_None_not_Some. intros Hs. apply (Hnew (a / FRAME_SIZE)); [lia | exact (Hok a Hs)]. }
    set (s1 := Pages (<[a := junk a]> s.(bytes_of)) p).
    destruct (IH s1 (ps ++ [a]) (bs ++ [junk a]) rest) as (s' & ps' & bs' & E & Hl & Hb' & Hok' & Hsame & Hfr & Hk).
    + exact Hj.
    + intros b [c Hc]. simpl in Hc. apply Hmap. apply lookup_insert_Some in Hc as [(<- & _) | (_ & Hc)]; [right; lia|].
      left. apply Hok. eauto.
    + exact Hsup.
    + apply backed_extend; auto.
    + simpl in Hn. lia.
    + exists s', (a :: ps'), (junk a :: bs'). rewrite <- !app_assoc in Hb'. rewrite <- app_assoc in E. split_and!.
      * cbn [fill_slots]. erewrite bind_ok; [| unfold alloc_page; rewrite Ha; reflexivity].
        erewrite bind_ok; [| unfold st_res; rewrite (proj2 (astore_ok _ ((Some <$> ps ++ [a]) ++ rest) _ _)); [reflexivity|]].
        { replace (Z.of_nat (length ps) + 1) with (Z.of_nat (length (ps ++ [a]))) by (rewrite length_app; simpl; lia).
          exact E. }
        rewrite length_app, length_fmap. simpl. split; [lia|].
        rewrite Nat2Z.id, insert_app_r_alt by (rewrite length_fmap; lia).
        rewrite length_fmap, Nat.sub_diag, fmap_app, <- app_assoc. reflexivity.
      * simpl. lia.
      * exact Hb'.
      * exact Hok'.
      * intros b Hs. rewrite Hsame; simpl; [apply lookup_insert_ne; intros ->; rewrite Hnone in Hs; destruct Hs; discriminate|].
        destruct (decide (a = b)) as [-> |]; [rewrite lookup_insert_eq; eauto | rewrite lookup_insert_ne by auto; auto].
      * intros b Hin. apply elem_of_cons in Hin as [-> | Hin]; [exact Hnone|]. specialize (Hfr b Hin). simpl in Hfr.
        apply lookup_insert_None in Hfr as [? _]. auto.
      * intros k (a1 & p1 & Ha1 & Hk1). rewrite Ha in Ha1. injection Ha1 as <- <-. apply Hk, Hk1.
Qed.

(** Growing. *)
Lemma flexbuf_realloc_grow `{!PageAllocatorLaws P} (kfree_page : Z -> P -> P) (junk : Z -> list Z) (s : K) (fb : flexbuf) (ps l : list Z) (size : Z) :
  (forall a, page_sized (junk a)) -> pool_ok s -> fb_rep s fb ps l ->
  0 < size -> fb.(fsize) <= size -> fb.(fpos) + size < 2 ^ 30 ->
  supplies (Z.to_nat (flexbuf_nr_pages (Flexbuf size fb.(fpos) 0 []) - flexbuf_nr_pages fb)) s.(pool) ->
  exists s' fb' ps' bs,
    flexbuf_realloc kfree_page junk fb size s = Ok (fb', s') /\
    fb'.(fpos) = fb.(fpos) /\ fb'.(fsize) = size /\
    0 <= fb'.(nr_slots) <= Z.of_nat (length fb'.(page)) /\
    fpages s'.(bytes_of) fb' (ps ++ ps') bs /\ Z.of_nat (length bs) = flexbuf_nr_pages fb' /\
    l = take (length l) (drop (Z.to_nat fb.(fpos)) (concat bs)) /\ pool_ok s' /\
    (forall a, is_Some (s.(bytes_of) !! a) -> s'.(bytes_of) !! a = s.(bytes_of) !! a) /\
    (forall a, a ∈ ps' -> s.(bytes_of) !! a = None) /\
    (2 <= fb.(nr_slots) -> 2 <= fb'.(nr_slots)) /\
    (forall k, supplies (Z.to_nat (flexbuf_nr_pages fb' - flexbuf_nr_pages fb) + k) s.(pool) -> supplies k s'.(pool)).
Proof.
  intros Hj Hok (Hp & Hsz & Hb & Hns & bs & (Hbk & rest & Hpg) & Hbs & Hl) Hs Hge Hb' Hsup.
  set (old := flexbuf_nr_pages fb) in *.
  assert (Hnew : flexbuf_nr_pages (Flexbuf size fb.(fpos) 0 []) = (fb.(fpos) + size + 4095) / 4096)
    by (apply nr_pages_eq; simpl; lia).
  rewrite Hnew in Hsup. set (new := (fb.(fpos) + size + 4095) / 4096) in *.
  assert (0 <= old <= new) as Hon.
  { unfold old, new. destruct (Z.eq_dec fb.(fsize) 0) as [E | E]; [unfold flexbuf_nr_pages; rewrite E; simpl; lia|].
    rewrite nr_pages_eq by lia. lia. }
  pose proof (backed_length _ _ _ Hbk) as Hlen.
  unfold flexbuf_realloc. fold old.
  replace (if size =? 0 then 0 else pages_in_range fb.(fpos) size) with new by (rewrite <- Hnew; reflexivity).
  assert (exists fb1 rest1, (if fb.(nr_slots) <? new then
            l ← st_res (copy_slots (Z.to_nat old) 0 fb.(page) (replicate (Z.to_nat new) None));
            mret (Flexbuf size fb.(fpos) (off_to_page (fb.(fpos) +% size)) l)
          else mret fb) s = Ok (fb1, s) /\ fb1.(page) = (Some <$> ps) ++ rest1 /\ fb1.(fpos) = fb.(fpos) /\
          0 <= fb1.(nr_slots) <= Z.of_nat (length fb1.(page)) /\
          (2 <= fb.(nr_slots) -> 2 <= fb1.(nr_slots)) /\ new - old <= Z.of_nat (length rest1))
    as (fb1 & rest1 & E1 & Hpg1 & Hpos1 & Hns1 & H2 & Hr1).
  { destruct (Z.ltb_spec fb.(nr_slots) new) as [Hlt | Hle].
    - pose proof (copy_slots_run (Z.to_nat old) [] (Some <$> ps) rest (replicate (Z.to_nat new) None)) as Hc.
      rewrite length_fmap, length_replicate in Hc. specialize (Hc ltac:(lia) ltac:(lia)). simpl in Hc.
      change (Z.of_nat 0) with 0 in Hc. eexists _, _. split; [erewrite bind_ok; [reflexivity|]; unfold st_res; rewrite Hpg, Hc; reflexivity|].
      simpl. split; [reflexivity|]. rewrite length_app, length_fmap, length_drop, length_replicate.
      unfold off_to_page, FRAME_SIZE. replace (fb.(fpos) +% size) with (fb.(fpos) + size) by word_lia. lia.
    - exists fb, rest. split; [reflexivity|]. rewrite Hpg, length_app, length_fmap in Hns |- *. split; [reflexivity|]. lia. }
  erewrite bind_ok; [| exact E1].
  destruct (fill_slots_run junk (Z.to_nat (new - old)) s ps bs rest1 Hj Hok Hsup Hbk ltac:(lia))
    as (s' & ps' & bs' & E2 & Hl2 & Hb2 & Hok2 & Hsame & Hfr & Hk).
  replace (Z.of_nat (length ps)) with old in E2 by lia.
  erewrite bind_ok; [| rewrite Hpg1; exact E2].
  erewrite bind_ok; [| unfold free_slots; replace (Z.to_nat (old - new)) with O by lia; reflexivity].
  pose proof (backed_length _ _ _ Hb2) as Hlen2. rewrite !length_app in Hlen2.
  eexists s', _, ps', (bs ++ bs'). split; [reflexivity|]. simpl. rewrite Hpos1.
  assert (forall a b, flexbuf_nr_pages (Flexbuf size fb.(fpos) a b) = new) as Hnw by (intros; exact Hnew).
  split_and!; auto; try lia.
  - rewrite !length_app, length_fmap, length_app, length_drop.
    rewrite Hpg1, length_app, length_fmap in Hns1. lia.
  - split; [exact Hb2|]. simpl. eauto.
  - rewrite length_app, Hnw. lia.
  - destruct (Z.eq_dec fb.(fsize) 0); [destruct l; [reflexivity | simpl in Hsz; lia]|].
    unfold old in Hbs. rewrite nr_pages_eq in Hbs by lia.
    rewrite concat_app, drop_app_le, take_app_le; [exact Hl | |];
      rewrite ?length_drop; pose proof (concat_length _ (backed_full _ _ _ Hbk)); lia.
  - intros k. rewrite Hnw. apply Hk.
Qed.

(** Stores keep the pages in use taken. *)
Lemma pool_ok_same (s s' : K) (ps : list Z) (bs : list (list Z)) :
  pool_ok s -> s'.(pool) = s.(pool) -> backed s.(bytes_of) ps bs ->
  (forall a, a ∉ ps -> s'.(bytes_of) !! a = s.(bytes_of) !! a) -> pool_ok s'.
Proof.
  intros Hok Hp [_ Hb] Hs a Ha. rewrite Hp. apply Hok. destruct (decide (a ∈ ps)) as [Hin | Hn]; [|rewrite <- Hs; auto].
  apply list_elem_of_lookup in Hin as (i & Hi). destruct (Forall2_lookup_l _ _ _ _ _ Hb Hi) as (c & _ & Hc & _). eauto.
Qed.

(** Writing inside a buffer that is already large enough. *)
Lemma do_io_write (s : K) (fb : flexbuf) (ps l d : list Z) (bs : list (list Z)) (off : Z) :
  0 <= fb.(fpos) < 4096 -> 0 <= fb.(nr_slots) <= Z.of_nat (length fb.(page)) ->
  fb.(fpos) + fb.(fsize) < 2 ^ 30 -> fpages s.(bytes_of) fb ps bs ->
  Z.of_nat (length bs) = flexbuf_nr_pages fb -> l = take (length l) (drop (Z.to_nat fb.(fpos)) (concat bs)) ->
  0 <= off <= Z.of_nat (length l) -> d <> [] ->
  fb.(fsize) = Z.max (Z.of_nat (length l)) (off + Z.of_nat (length d)) ->
  exists s', flexbuf_do_io fb d (Z.of_nat (length d)) off FB_WRITE s = Ok ((Z.of_nat (length d), []), s') /\
    fb_rep s' fb ps (splice (Z.to_nat off) d l) /\ s'.(pool) = s.(pool) /\
    (forall a, a ∉ ps -> s'.(bytes_of) !! a = s.(bytes_of) !! a).
Proof.
  intros Hp Hns Hb Hf Hbs Hl Ho Hd Hsz. assert (0 < Z.of_nat (length d)) as Hd0 by (destruct d; [contradiction | simpl; lia]).
  pose proof Hbs as Hbs'. rewrite nr_pages_eq in Hbs' by lia. unfold flexbuf_do_io.
  replace (Z.min (Z.of_nat (length d)) (fb.(fsize) -% off)) with (Z.of_nat (length d)) by word_lia.
  rewrite io_pages by lia.
  set (x := fb.(fpos) +% off). assert (x = fb.(fpos) + off) as Hx by (unfold x; word_lia).
  assert (page_offset x = x mod 4096) as Hpo by reflexivity.
  assert (off_to_page x = x / 4096) as Hop by reflexivity.
  destruct (io_write_loop fb ps d (Z.to_nat ((page_offset x + Z.of_nat (length d) + 4095) / 4096)) s bs (Z.of_nat (length d)) (off_to_page x) (page_offset x)
             (Z.of_nat (length d)) 0 []) as (s' & bs' & E & Hf' & Hlb & Hpl & Hc & Ho');
    [exact Hf | reflexivity | lia.. | right; split; [exact Hd0|]; rewrite Z2Nat.id; lia | rewrite Z2Nat.id; lia |].
  exists s'. split; [exact E|]. split; [|split; [exact Hpl | exact Ho']].
  assert (length (splice (Z.to_nat off) d l) = Z.to_nat fb.(fsize)) as Hls
    by (unfold splice; rewrite !length_app, length_take, length_drop; lia).
  repeat (split; [lia|]). exists bs'. split; [exact Hf'|]. split; [congruence|].
  rewrite Hls, Hc, drop_0.
  replace (Z.to_nat (4096 * off_to_page x + page_offset x)) with (Z.to_nat fb.(fpos) + Z.to_nat off)%nat by lia.
  set (F := concat bs). assert (Z.of_nat (length F) = 4096 * Z.of_nat (length bs)) as HF by apply (concat_length _ (backed_full _ _ _ (proj1 Hf))).
  rewrite <- (take_drop (Z.to_nat fb.(fpos)) F) at 1.
  replace (Z.to_nat fb.(fpos) + Z.to_nat off)%nat
    with (length (take (Z.to_nat fb.(fpos)) F) + Z.to_nat off)%nat by (rewrite length_take; lia).
  rewrite splice_app_r, drop_app_ge by (rewrite length_take; lia).
  replace (Z.to_nat fb.(fpos) - length (take (Z.to_nat fb.(fpos)) F))%nat with 0%nat by (rewrite length_take; lia).
  rewrite drop_0. replace (Z.to_nat fb.(fsize)) with (Nat.max (length l) (Z.to_nat off + length d)) by lia.
  rewrite take_splice by (rewrite ?length_drop; lia). f_equal. exact Hl.
Qed.

(** Writing at an offset up to the end of the buffer. *)
Lemma flexbuf_write_run `{!PageAllocatorLaws P} (kfree_page : Z -> P -> P) (junk : Z -> list Z) (s : K) (fb : flexbuf) (ps l d : list Z) (off : Z) :
  (forall a, page_sized (junk a)) -> pool_ok s -> fb_rep s fb ps l ->
  0 <= off <= fb.(fsize) -> d <> [] -> fb.(fpos) + off + Z.of_nat (length d) < 2 ^ 30 ->
  supplies (Z.to_nat (flexbuf_nr_pages (Flexbuf (off + Z.of_nat (length d)) fb.(fpos) 0 []) - flexbuf_nr_pages fb))
    s.(pool) ->
  exists s' fb' ps',
    flexbuf_write kfree_page junk fb d (Z.of_nat (length d)) off s = Ok ((fb', Z.of_nat (length d)), s') /\
    fb_rep s' fb' (ps ++ ps') (splice (Z.to_nat off) d l) /\ pool_ok s' /\ fb'.(fpos) = fb.(fpos) /\
    (forall a, is_Some (s.(bytes_of) !! a) -> a ∉ ps -> s'.(bytes_of) !! a = s.(bytes_of) !! a) /\
    (forall a, a ∈ ps' -> s.(bytes_of) !! a = None) /\
    (2 <= fb.(nr_slots) -> 2 <= fb'.(nr_slots)) /\
    (forall k, supplies (Z.to_nat (flexbuf_nr_pages fb' - flexbuf_nr_pages fb) + k) s.(pool) -> supplies k s'.(pool)).
Proof.
  intros Hj Hok Hrep Ho Hd Hb Hsup. pose proof Hrep as (Hp & Hsz & Hbd & Hns & bs & Hf & Hbs & Hl).
  assert (0 < Z.of_nat (length d)) as Hd0 by (destruct d; [contradiction | simpl; lia]).
  unfold flexbuf_write. replace (off +% Z.of_nat (length d)) with (off + Z.of_nat (length d)) by word_lia.
  destruct (Z.ltb_spec fb.(fsize) (off + Z.of_nat (length d))) as [Hlt | Hge].
  - destruct (flexbuf_realloc_grow kfree_page junk s fb ps l (off + Z.of_nat (length d)))
      as (s1 & fb1 & ps1 & bs1 & E1 & Hp1 & Hs1 & Hn1 & Hf1 & Hb1 & Hl1 & Hok1 & Hsame & Hfr & H2 & Hk); auto; try lia.
    erewrite bind_ok; [| exact E1]. rewrite <- Hp1 in Hl1.
    destruct (do_io_write s1 fb1 (ps ++ ps1) l d bs1 off) as (s2 & E2 & Hrep2 & Hpl2 & Ho2); auto; try lia.
    exists s2, fb1, ps1. erewrite bind_ok; [| exact E2]. split; [reflexivity|]. split; [exact Hrep2|].
    assert (pool_ok s2) as Hok2 by apply (pool_ok_same s1 s2 (ps ++ ps1) bs1 Hok1 Hpl2 (proj1 Hf1) Ho2).
    split; [exact Hok2|]. split; [exact Hp1|].
    split; [|split; [exact Hfr | split; [exact H2 | intros k; rewrite Hpl2; apply Hk]]]. intros a Ha Hn.
    rewrite Ho2, Hsame; auto. rewrite elem_of_app. intros [|Hin]; [auto|]. rewrite (Hfr a Hin) in Ha. destruct Ha; discriminate.
  - erewrite bind_ok by reflexivity.
    destruct (do_io_write s fb ps l d bs off) as (s2 & E2 & Hrep2 & Hpl2 & Ho2); auto; try lia.
    exists s2, fb, []. rewrite app_nil_r. erewrite bind_ok; [| exact E2]. split; [reflexivity|]. split; [exact Hrep2|].
    split; [apply (pool_ok_same s s2 ps bs Hok Hpl2 (proj1 Hf) Ho2)|]. split; [reflexivity|]. split; [auto|].
    split; [intros a Ha; inversion Ha|]. split; [auto|]. intros k. rewrite Z.sub_diag, Hpl2. auto.
Qed.

Lemma flexbuf_dequeue_run (s : K) (fb : flexbuf) (ps l : list Z) (len : Z) :
  fb_rep s fb ps l -> 0 < fb.(fsize) -> 0 < len < 2 ^ 31 ->
  let n := Z.min len fb.(fsize) in
  let k := (fb.(fpos) + n) / 4096 in
  k = 0 \/ fb.(fpos) + fb.(fsize) <= 8192 * k -> 2 * k <= fb.(nr_slots) ->
  exists fb' ps',
    flexbuf_dequeue fb len s = Ok ((fb', n, take (Z.to_nat n) l), s) /\
    fb_rep s fb' ps' (drop (Z.to_nat n) l) /\ fb'.(nr_slots) = fb.(nr_slots) /\ (forall a, a ∈ ps' -> a ∈ ps).
Proof.
  intros Hrep Hsz Hlen n k Hk2 Hns2. pose proof Hrep as (Hp & Hs & Hb & Hns & bs & (Hbk & rest & Hpg) & Hbs & Hl).
  rewrite nr_pages_eq in Hbs by lia. pose proof (backed_length _ _ _ Hbk) as Hlp.
  assert (Z.of_nat (length fb.(page)) = Z.of_nat (length ps) + Z.of_nat (length rest)) as Hlpg
    by (rewrite Hpg, length_app, length_fmap; lia).
  destruct (shift_pages ps rest (Z.to_nat k)) as (rest' & E & Hr'); [unfold k, n; lia | unfold k, n in *; lia | unfold k in *; lia |].
  rewrite Z2Nat.id in E by (unfold k; lia).
  set (fb' := Flexbuf (fb.(fsize) -% n) (page_offset (fb.(fpos) +% n)) fb.(nr_slots) ((Some <$> drop (Z.to_nat k) ps) ++ rest')).
  assert (fb'.(fsize) = fb.(fsize) - n) as Hs' by (unfold fb'; simpl; word_lia).
  assert (fb'.(fpos) = (fb.(fpos) + n) mod 4096) as Hp'
    by (unfold fb', page_offset, FRAME_SIZE; simpl; f_equal; word_lia).
  set (ps' := if decide (fb.(fsize) = n) then [] else drop (Z.to_nat k) ps). exists fb', ps'. split; [|split; [|split]].
  - unfold flexbuf_dequeue. erewrite bind_ok; [| apply (flexbuf_read_run s fb ps l len 0 Hrep); lia]. cbv beta iota.
    rewrite Z.sub_0_r. fold n. replace ((fb.(fpos) +% n) / FRAME_SIZE) with k by (unfold k, FRAME_SIZE; f_equal; word_lia).
    erewrite bind_ok; [| unfold st_res; rewrite Hpg, E; reflexivity]. reflexivity.
  - assert (Z.of_nat (length fb'.(page)) = Z.of_nat (length fb.(page))) as Hlf
      by (unfold fb'; simpl; rewrite length_app, length_fmap, length_drop; unfold k, n in *; lia).
    unfold fb_rep. rewrite Hlf, Hs', Hp', length_drop. change (nr_slots fb') with (nr_slots fb).
    split; [lia|]. split; [lia|]. split; [lia|]. split; [exact Hns|].
    unfold ps'. destruct (decide (fb.(fsize) = n)) as [En | En].
    + exists []. split; [split; [split; [constructor | constructor]|]; eexists; reflexivity|].
      split; [unfold flexbuf_nr_pages; rewrite Hs', (proj2 (Z.eqb_eq _ _)) by lia; reflexivity|].
      rewrite drop_ge by lia. cbn [concat]. rewrite drop_nil, take_nil. reflexivity.
    + assert (Z.of_nat (Z.to_nat k) = k) as Hkk by (unfold k; lia).
      exists (drop (Z.to_nat k) bs). split; [split; [apply backed_drop; exact Hbk | eexists; reflexivity]|].
      rewrite length_drop. split; [rewrite nr_pages_eq by (rewrite ?Hs', ?Hp'; lia); rewrite Hs', Hp'; unfold k in *; lia|].
      rewrite concat_drop, drop_drop by (try exact (backed_full _ _ _ Hbk); unfold k in *; lia).
      rewrite Hl at 1. rewrite skipn_firstn_comm, drop_drop. f_equal. f_equal. unfold k in *. lia.
  - reflexivity.
  - intros a. unfold ps'. destruct (decide _); [intros Ha; inversion Ha|]. intros Ha.
    rewrite <- (take_drop (Z.to_nat k) ps). apply elem_of_app. auto.
Qed.

End rep.

(** ** The buffer as a queue *)

Definition PIPE_BUF : Z := 4096.

Inductive fifo_op : Type :=
| Enq (d : list Z)
| Deq (len : Z).

(** The queue of bytes after an operation, and what the operation returns. *)
Definition fifo_step (o : fifo_op) (l : list Z) : list Z * list Z :=
  match o with
  | Enq d => (l ++ d, [])
  | Deq n => (drop (Z.to_nat n) l, take (Z.to_nat n) l)
  end.

Fixpoint fifo_run (ops : list fifo_op) (l : list Z) : list Z * list (list Z) :=
  match ops with
  | [] => (l, [])
  | o :: ops =>
      let '(l, out) := fifo_step o l in
      let '(l, outs) := fifo_run ops l in
      (l, out :: outs)
  end.

(** Enqueueing within the capacity of a pipe, dequeueing from a queue that is not empty. *)
Definition fifo_ok (o : fifo_op) (l : list Z) : Prop :=
  match o with
  | Enq d => d <> [] /\ Z.of_nat (length l + length d) <= PIPE_BUF
  | Deq n => l <> [] /\ 0 < n < 2 ^ 31
  end.

Fixpoint fifo_legal (ops : list fifo_op) (l : list Z) : Prop :=
  match ops with
  | [] => True
  | o :: ops => fifo_ok o l /\ fifo_legal ops (fifo_step o l).1
  end.

Section queue.

Context {P : Type} `{PA : PageAllocator P} (kfree_page : Z -> P -> P) (junk : Z -> list Z).

Abbreviation K := (pages P).

Definition fb_step (o : fifo_op) (fb : flexbuf) : ST K (flexbuf * list Z) :=
  match o with
  | Enq d => r ← flexbuf_enqueue kfree_page junk fb d (Z.of_nat (length d)); mret (r.1, [])
  | Deq n => r ← flexbuf_dequeue fb n; mret (r.1.1, r.2)
  end.

Fixpoint fb_run (ops : list fifo_op) (fb : flexbuf) : ST K (flexbuf * list (list Z)) :=
  match ops with
  | [] => mret (fb, [])
  | o :: ops =>
      r ← fb_step o fb;
      rs ← fb_run ops r.1;
      mret (rs.1, r.2 :: rs.2)
  end.

(** A buffer in use as a pipe. *)
Definition fifo_inv (s : K) (fb : flexbuf) (l : list Z) : Prop :=
  pool_ok s /\ (exists ps, fb_rep s fb ps l) /\ 2 <= fb.(nr_slots) /\ fb.(fsize) <= PIPE_BUF.

Lemma supplies_le (n m : nat) (p : P) : supplies n p -> (m <= n)%nat -> supplies m p.
Proof.
  revert m p. induction n as [| n IH]; intros m p H Hm; destruct m; try lia; [exact I | exact I |].
  destruct H as (a & p' & Ha & H). exists a, p'. split; [exact Ha|]. apply IH; [exact H | lia].
Qed.

Lemma fifo_enqueue_run `{!PageAllocatorLaws P} (s : K) (fb : flexbuf) (l d : list Z) (n : nat) :
  (forall a, page_sized (junk a)) -> fifo_inv s fb l -> fifo_ok (Enq d) l -> supplies (2 + n) s.(pool) ->
  exists s' fb', flexbuf_enqueue kfree_page junk fb d (Z.of_nat (length d)) s = Ok ((fb', Z.of_nat (length d)), s') /\
    fifo_inv s' fb' (l ++ d) /\ supplies n s'.(pool).
Proof.
  intros Hj (Hok & (ps & Hrep) & H2 & Hsz) Ho Hsup. pose proof Hrep as (Hp & Hs & Hb & Hns & _).
  simpl in Ho; destruct Ho as [Hne Ho]; unfold PIPE_BUF in *.
  assert (0 < Z.of_nat (length d)) as Hd by (destruct d; [contradiction | simpl; lia]).
  assert (0 <= flexbuf_nr_pages fb) as Hnp.
  { destruct (Z.eq_dec fb.(fsize) 0) as [E | E]; [unfold flexbuf_nr_pages; rewrite E; simpl; lia|].
    rewrite nr_pages_eq by lia. lia. }
  assert (flexbuf_nr_pages (Flexbuf (fb.(fsize) + Z.of_nat (length d)) fb.(fpos) 0 []) <= 2) as Hnp2
    by (rewrite nr_pages_eq; cbn [fsize fpos]; lia).
  destruct (flexbuf_write_run kfree_page junk s fb ps l d fb.(fsize)) as
    (s' & fb' & ps' & E & Hrep' & Hok' & Hp' & _ & _ & H2' & Hk); auto; try lia.
  { eapply supplies_le; [exact Hsup | lia]. }
  rewrite Hs, Nat2Z.id in Hrep'. unfold splice in Hrep'. rewrite take_ge, drop_ge, app_nil_r in Hrep' by lia.
  exists s', fb'. split; [exact E|]. pose proof Hrep' as (_ & Hs' & Hb' & _). rewrite length_app in Hs'.
  split; [split; [exact Hok'|]; split; [eauto|]; split; [auto | unfold PIPE_BUF; lia]|].
  apply Hk. eapply supplies_le; [exact Hsup|].
  enough (flexbuf_nr_pages fb' <= 2) by lia. rewrite nr_pages_eq by lia. lia.
Qed.

Lemma fifo_dequeue_run (s : K) (fb : flexbuf) (l : list Z) (len : Z) :
  fifo_inv s fb l -> fifo_ok (Deq len) l ->
  exists fb', flexbuf_dequeue fb len s =
      Ok ((fb', Z.of_nat (length (take (Z.to_nat len) l)), take (Z.to_nat len) l), s) /\
    fifo_inv s fb' (drop (Z.to_nat len) l).
Proof.
  intros (Hok & (ps & Hrep) & H2 & Hsz) Ho. pose proof Hrep as (Hp & Hs & Hb & Hns & _).
  simpl in Ho; destruct Ho as [Hne Ho]; unfold PIPE_BUF in *.
  assert (0 < fb.(fsize)) as Hpos by (destruct l; [contradiction | simpl in Hs; lia]).
  destruct (flexbuf_dequeue_run s fb ps l len Hrep Hpos Ho) as (fb' & ps' & E & Hrep' & Hn' & _); [lia | lia |].
  exists fb'. split.
  - rewrite E. rewrite length_take. do 3 f_equal; [f_equal; lia|].
    destruct (Z_le_gt_dec len fb.(fsize)); [f_equal; lia | rewrite !take_ge by lia; reflexivity].
  - pose proof Hrep' as (_ & Hs' & _). rewrite length_drop in Hs'.
    split; [exact Hok|]. split; [|split; [lia | unfold PIPE_BUF; lia]]. exists ps'.
    destruct (Z_le_gt_dec len fb.(fsize)); [rewrite Z.min_l in Hrep' by lia; exact Hrep'|].
    rewrite drop_ge in Hrep' |- * by lia. exact Hrep'.
Qed.

Lemma fb_step_ok `{!PageAllocatorLaws P} (s : K) (fb : flexbuf) (l : list Z) (o : fifo_op) (n : nat) :
  (forall a, page_sized (junk a)) -> fifo_inv s fb l -> fifo_ok o l -> supplies (2 + n) s.(pool) ->
  exists s' fb', fb_step o fb s = Ok ((fb', (fifo_step o l).2), s') /\
    fifo_inv s' fb' (fifo_step o l).1 /\ supplies n s'.(pool).
Proof.
  intros Hj Hinv Ho Hsup. destruct o as [d | len].
  - destruct (fifo_enqueue_run s fb l d n Hj Hinv Ho Hsup) as (s' & fb' & E & H).
    exists s', fb'. split; [|exact H]. simpl. erewrite bind_ok; [|exact E]. reflexivity.
  - destruct (fifo_dequeue_run s fb l len Hinv Ho) as (fb' & E & H).
    exists s, fb'. split; [|split; [exact H | eapply supplies_le; [exact Hsup | lia]]].
    simpl. erewrite bind_ok; [|exact E]. reflexivity.
Qed.

Lemma fb_run_ok `{!PageAllocatorLaws P} (ops : list fifo_op) :
  forall (s : K) (fb : flexbuf) (l : list Z),
  (forall a, page_sized (junk a)) -> fifo_inv s fb l -> fifo_legal ops l -> supplies (2 * length ops) s.(pool) ->
  exists s' fb', fb_run ops fb s = Ok ((fb', (fifo_run ops l).2), s') /\ fifo_inv s' fb' (fifo_run ops l).1.
Proof.
  induction ops as [| o ops IH]; intros s fb l Hj Hinv Hleg Hsup; [exists s, fb; auto|].
  destruct Hleg as [Ho Hleg]. replace (2 * length (o :: ops))%nat with (2 + 2 * length ops)%nat in Hsup by (simpl; lia).
  destruct (fb_step_ok s fb l o (2 * length ops) Hj Hinv Ho Hsup) as (s1 & fb1 & E1 & Hinv1 & Hsup1).
  cbn [fifo_run fb_run]. destruct (fifo_step o l) as [l1 out] eqn:Eo. simpl in *.
  destruct (IH s1 fb1 l1 Hj Hinv1 Hleg Hsup1) as (s2 & fb2 & E2 & Hinv2).
  destruct (fifo_run ops l1) as [l2 outs]. simpl in *. exists s2, fb2.
  erewrite bind_ok; [|exact E1]. simpl. erewrite bind_ok; [|exact E2]. auto.
Qed.

(** C20: a new flexbuf used as a queue behaves as a queue of bytes: every dequeue
    returns the oldest bytes in order, whatever pages the bytes cross, and the buffer
    holds the bytes that remain.  The sequences are those of enqueues of at least one
    byte that keep the queue within the capacity of a pipe and of dequeues of at
    least one byte from a queue that is not empty, with two free pages per operation.
    An empty transfer is left out because it walks over the page slots
    ([flexbuf_read_empty]). *)
Theorem flexbuf_fifo `{!PageAllocatorLaws P} (ops : list fifo_op) (s : K) :
  (forall a, page_sized (junk a)) -> pool_ok s -> fifo_legal ops [] -> supplies (2 * length ops) s.(pool) ->
  exists s' fb ps,
    (fb ← flexbuf_alloc junk 0; fb_run ops fb) s = Ok ((fb, (fifo_run ops []).2), s') /\
    fb_rep s' fb ps (fifo_run ops []).1 /\ fb.(fsize) <= PIPE_BUF.
Proof.
  intros Hj Hok Hleg Hsup. set (fb0 := Flexbuf 0 0 8 (replicate 8 None)).
  assert (fifo_inv s fb0 []) as Hinv.
  { split; [exact Hok|]. split; [|simpl; unfold PIPE_BUF; lia]. exists []. split_and!; simpl; try lia.
    exists []. split; [|split; reflexivity]. split; [split; constructor | eexists; reflexivity]. }
  destruct (fb_run_ok ops s fb0 [] Hj Hinv Hleg Hsup) as (s' & fb & E & _ & (ps & Hrep) & _ & Hsz).
  exists s', fb, ps. split; [|auto]. erewrite bind_ok; [exact E | reflexivity].
Qed.

End queue.

(** Four bytes, then 4094 bytes across a page boundary. *)
Lemma flexbuf_fifo_witness :
  let ops := [Enq [1; 2; 3; 4]; Deq 3; Enq (replicate (Z.to_nat 4094) 7); Deq 2] in
  let s := Pages ∅ 1 in
  exists s' fb, (fb ← @flexbuf_alloc Z bump_pages (fun _ => replicate (Z.to_nat 4096) 0) 0;
                 @fb_run Z bump_pages (fun _ p => p) (fun _ => replicate (Z.to_nat 4096) 0) ops fb) s
                = Ok ((fb, [[]; [1; 2; 3]; []; [4; 7]]), s') /\ fb.(fsize) <= PIPE_BUF.
Proof.
  intros ops s. pose proof bump_pages_laws as Hlaws.
  destruct (@flexbuf_fifo Z bump_pages (fun _ p => p) (fun _ => replicate (Z.to_nat 4096) 0) Hlaws ops s)
    as (s' & fb & ps & E & _ & Hsz).
  - intros a. unfold page_sized. rewrite length_replicate. reflexivity.
  - intros a [b Hb]. simpl in Hb. rewrite lookup_empty in Hb. discriminate.
  - simpl. unfold PIPE_BUF. split_and!; try discriminate; vm_compute; try discriminate; auto.
  - repeat (eexists _, _; split; [reflexivity|]). exact I.
  - exists s', fb. split; [|exact Hsz]. etransitivity; [exact E|]. vm_compute. reflexivity.
Defined.

(** ** Where the code and its comments disagree *)

(** Transferring no bytes from a page boundary walks 2^20 slots. *)
Lemma io_loop_empty {P : Type} `{PA : PageAllocator P} (n : nat) (fb : flexbuf) (i : Z) (s : pages P) :
  0 <= i -> Z.of_nat (length fb.(page)) < i + Z.of_nat n -> i <= Z.of_nat (length fb.(page)) ->
  io_loop n fb [] 0 i 0 0 0 [] FB_READ s = Fault.
Proof.
  revert i. induction n as [| n IH]; intros i Hi Hn Hl; [lia|]. cbn [io_loop].
  destruct (Z.eq_dec i (Z.of_nat (length fb.(page)))) as [E | E].
  - unfold mbind, st_bind, st_res, aload. destruct (Z.ltb_spec i 0); [lia|].
    rewrite lookup_ge_None_2 by lia. reflexivity.
  - destruct (lookup_lt_is_Some_2 fb.(page) (Z.to_nat i)) as [a Ha]; [lia|].
    erewrite bind_ok; [| unfold st_res; rewrite (proj2 (aload_ok _ i a)) by auto; reflexivity].
    erewrite (bind_ok _ _ s) by reflexivity. apply (IH (i + 1)); lia.
Qed.

(** Reading an empty buffer that starts at a page boundary, as every new pipe
    does, leaves the descriptor. *)
Lemma flexbuf_read_empty {P : Type} `{PA : PageAllocator P} (fb : flexbuf) (len : Z) (s : pages P) :
  fb.(fsize) = 0 -> fb.(fpos) = 0 -> 0 <= len -> Z.of_nat (length fb.(page)) < 2 ^ 20 ->
  flexbuf_read fb len 0 s = Fault.
Proof.
  intros Hs Hp Hlen Hl. unfold flexbuf_read, flexbuf_do_io. rewrite Hs, Hp.
  replace (Z.min len (0 -% 0)) with 0 by (change (0 -% 0) with 0; lia).
  change (pages_in_range (0 +% 0) 0) with (2 ^ 20). change (off_to_page (0 +% 0)) with 0.
  apply io_loop_empty; lia.
Qed.

(** Dequeueing the first of three pages moves the second to its place and leaves
    it second as well. *)
Lemma flexbuf_dequeue_three_pages :
  let pg b := replicate (Z.to_nat 4096) b in
  let s : pages Z := Pages (<[1 := pg 10]> (<[2 := pg 20]> (<[3 := pg 30]> ∅))) 4 in
  let fb := Flexbuf 12288 0 8 [Some 1; Some 2; Some 3; None; None; None; None; None] in
  match flexbuf_dequeue fb 4096 s with
  | Ok ((fb', n, _), s') => match flexbuf_read fb' 2 4095 s' with
                            | Ok ((_, d), _) => n = 4096 /\ d = [20; 20]
                            | _ => False
                            end
  | _ => False
  end.
Proof. vm_compute. split; reflexivity. Qed.
