(* ===== verification/Numstr.v ===== *)
(** * Numbers in strings (lib/ctype.h, lib/kstrtox.c, lib/itoa.c)

    A C string is the list of its bytes up to the terminating NUL, which reads as
    0.  Functions that return an error code and store a result return [inl] of
    the code or [inr] of the stored value. *)

From S2P Require Import Prelude Abi.

(** ** Character classes *)

Definition _U : Z := 1.
Definition _L : Z := 2.
Definition _D : Z := 4.
Definition _C : Z := 8.
Definition _P : Z := 16.
Definition _S : Z := 32.
Definition _X : Z := 64.
Definition _SP : Z := 128.

Definition _ctype : list Z :=
  [_C; _C; _C; _C; _C; _C; _C; _C;
   _C; Z.lor _C _S; Z.lor _C _S; Z.lor _C _S; Z.lor _C _S; Z.lor _C _S; _C; _C;
   _C; _C; _C; _C; _C; _C; _C; _C;
   _C; _C; _C; _C; _C; _C; _C; _C;
   Z.lor _S _SP; _P; _P; _P; _P; _P; _P; _P;
   _P; _P; _P; _P; _P; _P; _P; _P;
   _D; _D; _D; _D; _D; _D; _D; _D;
   _D; _D; _P; _P; _P; _P; _P; _P;
   _P; Z.lor _U _X; Z.lor _U _X; Z.lor _U _X; Z.lor _U _X; Z.lor _U _X; Z.lor _U _X; _U;
   _U; _U; _U; _U; _U; _U; _U; _U;
   _U; _U; _U; _U; _U; _U; _U; _U;
   _U; _U; _U; _P; _P; _P; _P; _P;
   _P; Z.lor _L _X; Z.lor _L _X; Z.lor _L _X; Z.lor _L _X; Z.lor _L _X; Z.lor _L _X; _L;
   _L; _L; _L; _L; _L; _L; _L; _L;
   _L; _L; _L; _L; _L; _L; _L; _L;
   _L; _L; _L; _P; _P; _P; _P; _C;
   0; 0; 0; 0; 0; 0; 0; 0; 0; 0; 0; 0; 0; 0; 0; 0;
   0; 0; 0; 0; 0; 0; 0; 0; 0; 0; 0; 0; 0; 0; 0; 0;
   Z.lor _S _SP; _P; _P; _P; _P; _P; _P; _P; _P; _P; _P; _P; _P; _P; _P; _P;
   _P; _P; _P; _P; _P; _P; _P; _P; _P; _P; _P; _P; _P; _P; _P; _P;
   _U; _U; _U; _U; _U; _U; _U; _U; _U; _U; _U; _U; _U; _U; _U; _U;
   _U; _U; _U; _U; _U; _U; _U; _P; _U; _U; _U; _U; _U; _U; _U; _L;
   _L; _L; _L; _L; _L; _L; _L; _L; _L; _L; _L; _L; _L; _L; _L; _L;
   _L; _L; _L; _L; _L; _L; _L; _P; _L; _L; _L; _L; _L; _L; _L; _L].

Definition __ismask (c : Z) : Z := default 0 (_ctype !! Z.to_nat (u8 c)).

Definition isalnum (c : Z) : bool := negb (Z.land (__ismask c) (Z.lor _U (Z.lor _L _D)) =? 0).
Definition isdigit (c : Z) : bool := negb (Z.land (__ismask c) _D =? 0).
Definition isspace (c : Z) : bool := negb (Z.land (__ismask c) _S =? 0).
Definition isupper (c : Z) : bool := negb (Z.land (__ismask c) _U =? 0).
Definition islower (c : Z) : bool := negb (Z.land (__ismask c) _L =? 0).
Definition isxdigit (c : Z) : bool := negb (Z.land (__ismask c) (Z.lor _D _X) =? 0).

Definition __tolower (c : Z) : Z := if isupper c then u8 (c - (65 - 97)) else c.
Definition __toupper (c : Z) : Z := if islower c then u8 (c - (97 - 65)) else c.

(** On bytes: only bit 5 is set. *)
Definition _tolower (c : Z) : Z := Z.lor c 32.

(** [s[i]] *)
Definition chr (s : list Z) (i : nat) : Z := default 0 (s !! i).

(** ** kstrtox.c *)

Definition KSTRTOX_OVERFLOW : Z := Z.shiftl 1 31.

Definition _parse_integer_fixup_radix (s : list Z) (base : Z) : list Z * Z :=
  let base :=
    if base =? 0 then
      if chr s 0 =? 48 then
        if (_tolower (chr s 1) =? 120) && isxdigit (chr s 2) then 16 else 8
      else 10
    else base in
  ((if (base =? 16) && (chr s 0 =? 48) && (_tolower (chr s 1) =? 120) then drop 2 s else s), base).

(** The value of a character as a digit. *)
Definition digit_val (c : Z) : option Z :=
  if (48 <=? c) && (c <=? 57) then Some (c - 48)
  else if (97 <=? _tolower c) && (_tolower c <=? 102) then Some (_tolower c - 97 + 10)
  else None.

(** The loop of [_parse_integer], from [res] and [rv]. *)
Fixpoint parse_loop (s : list Z) (base res rv : Z) : Z * Z :=
  match s with
  | [] => (rv, res)
  | c :: s =>
      if c =? 0 then (rv, res)
      else match digit_val c with
           | Some val => if base <=? val then (rv, res)
                         else parse_loop s base (u64 (res * base + val)) (rv +% 1)
           | None => (rv, res)
           end
  end.

(** The characters consumed and the number; the overflow bit is never set. *)
Definition _parse_integer (s : list Z) (base : Z) : Z * Z := parse_loop s base 0 0.

Definition _kstrtoull (s : list Z) (base : Z) : Z + Z :=
  let '(s, base) := _parse_integer_fixup_radix s base in
  let '(rv, _res) := _parse_integer s base in
  if negb (Z.land rv KSTRTOX_OVERFLOW =? 0) then inl (- ERANGE)
  else
    let rv := Z.land rv (~% KSTRTOX_OVERFLOW) in
    if rv =? 0 then inl (- EINVAL)
    else
      let s := drop (Z.to_nat rv) s in
      let s := if chr s 0 =? 10 then drop 1 s else s in
      if negb (chr s 0 =? 0) then inl (- EINVAL) else inr _res.

Definition kstrtoull (s : list Z) (base : Z) : Z + Z :=
  _kstrtoull (if chr s 0 =? 43 then drop 1 s else s) base.

Definition kstrtoll (s : list Z) (base : Z) : Z + Z :=
  if chr s 0 =? 45 then
    match _kstrtoull (drop 1 s) base with
    | inl rv => inl rv
    | inr tmp => if 0 <=? s64 (- tmp) then inl (- ERANGE) else inr (s64 (- tmp))
    end
  else
    match kstrtoull s base with
    | inl rv => inl rv
    | inr tmp => if s64 tmp <? 0 then inl (- ERANGE) else inr (s64 tmp)
    end.

(** The conversions to narrower types: [conv] is the cast. *)
Definition narrow (conv : Z -> Z) (r : Z + Z) : Z + Z :=
  match r with
  | inl rv => inl rv
  | inr tmp => if negb (tmp =? conv tmp) then inl (- ERANGE) else inr (conv tmp)
  end.

Definition _kstrtoul (s : list Z) (base : Z) : Z + Z := narrow u32 (kstrtoull s base).
Definition _kstrtol (s : list Z) (base : Z) : Z + Z := narrow s32 (kstrtoll s base).
Definition kstrtouint (s : list Z) (base : Z) : Z + Z := narrow u32 (kstrtoull s base).
Definition kstrtoint (s : list Z) (base : Z) : Z + Z := narrow s32 (kstrtoll s base).
Definition kstrtou16 (s : list Z) (base : Z) : Z + Z := narrow u16 (kstrtoull s base).
Definition kstrtos16 (s : list Z) (base : Z) : Z + Z := narrow (sN 16) (kstrtoll s base).
Definition kstrtou8 (s : list Z) (base : Z) : Z + Z := narrow u8 (kstrtoull s base).
Definition kstrtos8 (s : list Z) (base : Z) : Z + Z := narrow s8 (kstrtoll s base).

(** ** itoa.c

    The functions return the buffer up to the NUL they store. *)

(** [while (low < ptr) { swap *low, *ptr; low++; ptr--; }] *)
Fixpoint swap_loop (fuel : nat) (low ptr : Z) (s : list Z) : res (list Z) :=
  match fuel with
  | O => Ok s
  | S fuel =>
      if low <? ptr then
        do tmp <- aload s low;
        do c <- aload s ptr;
        do s <- astore s low c;
        do s <- astore s ptr tmp;
        swap_loop fuel (low + 1) (ptr - 1) s
      else Ok s
  end.

(** Digits produced by a loop that shifts: least significant first. *)
Fixpoint shift_digits (fuel : nat) (digit : Z -> Z) (shift val : Z) : list Z :=
  match fuel with
  | O => []
  | S fuel =>
      let v := Z.shiftr val shift in
      digit val :: (if v =? 0 then [] else shift_digits fuel digit shift v)
  end.

Definition hex_digit (d : Z) : Z := if d <? 10 then 48 + d else 97 + d - 10.

Definition reversed (low : nat) (s : list Z) : res (list Z) :=
  swap_loop (length s) (Z.of_nat low) (Z.of_nat (length s) - 1) s.

Definition itoa_16 (val : Z) : res (list Z) :=
  reversed 0 (shift_digits 32 (fun v => hex_digit (Z.land v 15)) 4 val).

Definition itoa_2 (val : Z) : res (list Z) :=
  reversed 0 (shift_digits 32 (fun v => if Z.land v 1 =? 0 then 48 else 49) 1 val).

(** The table indexed by [35 + val % base]: digits of both signs. *)
Definition itoa_table : list Z :=
  reverse ((fun i => 97 + i) <$> zseq 0 26) ++ reverse ((fun i => 49 + i) <$> zseq 0 9) ++
  ((fun i => 48 + i) <$> zseq 0 10) ++ ((fun i => 97 + i) <$> zseq 0 26).

Fixpoint itoa_digits (fuel : nat) (val base : Z) : res (list Z) :=
  match fuel with
  | O => Ok []
  | S fuel =>
      do c <- aload itoa_table (35 + Z.rem val base);
      let v := Z.quot val base in
      if v =? 0 then Ok [c] else do l <- itoa_digits fuel v base; Ok (c :: l)
  end.

Definition itoa (val base : Z) : res (list Z) :=
  if (base <? 2) || (36 <? base) then Ok []
  else
    do l <- itoa_digits 32 val base;
    if (val <? 0) && (base =? 10) then reversed 1 (45 :: l) else reversed 0 l.

(** ** Reversal in place *)

Lemma swap_loop_run (fuel : nat) :
  forall pre mid post : list Z, (length mid <= fuel)%nat ->
  swap_loop fuel (Z.of_nat (length pre)) (Z.of_nat (length pre) + Z.of_nat (length mid) - 1) (pre ++ mid ++ post) =
  Ok (pre ++ reverse mid ++ post).
Proof.
  induction fuel as [| fuel IH]; intros pre mid post Hf; [destruct mid; [reflexivity | simpl in Hf; lia]|].
  cbn [swap_loop]. destruct mid as [| a mid]; [simpl; rewrite (proj2 (Z.ltb_ge _ _)) by lia; reflexivity|].
  destruct (decide (mid = [])) as [-> | Hne]; [simpl; rewrite (proj2 (Z.ltb_ge _ _)) by lia; reflexivity|].
  destruct (exists_last Hne) as (mid' & b & ->). simpl in Hf. rewrite length_app in Hf. simpl in Hf.
  assert (length (a :: mid' ++ [b]) = (2 + length mid')%nat) as Hl by (simpl; rewrite length_app; simpl; lia). rewrite Hl.
  rewrite (proj2 (Z.ltb_lt _ _)) by lia.
  rewrite (proj2 (aload_ok _ _ a)) by (split; [lia|]; rewrite Nat2Z.id, lookup_app_r, Nat.sub_diag by lia; reflexivity).
  cbn [res_bind].
  set (k := Z.of_nat (length pre) + Z.of_nat (2 + length mid') - 1).
  assert (Z.to_nat k = (length pre + Datatypes.S (length mid'))%nat) as Hk by (unfold k; lia).
  rewrite (proj2 (aload_ok _ _ b)); cycle 1.
  { split; [lia|]. rewrite Hk, lookup_app_r by lia. replace (length pre + Datatypes.S (length mid') - length pre)%nat
      with (Datatypes.S (length mid')) by lia. simpl. rewrite <- app_assoc. apply list_lookup_middle. reflexivity. }
  cbn [res_bind]. rewrite (proj2 (astore_ok _ (pre ++ b :: mid' ++ [b] ++ post) _ _)); cycle 1.
  { rewrite !length_app. split; [lia|]. rewrite Nat2Z.id, insert_app_r_alt, Nat.sub_diag by lia. simpl.
    rewrite <- app_assoc. reflexivity. }
  cbn [res_bind]. rewrite (proj2 (astore_ok _ ((pre ++ [b]) ++ mid' ++ (a :: post)) _ _)); cycle 1.
  { rewrite !length_app. simpl. rewrite length_app. simpl. split; [lia|]. rewrite Hk, insert_app_r_alt by lia.
    replace (length pre + Datatypes.S (length mid') - length pre)%nat with (Datatypes.S (length mid')) by lia. simpl.
    rewrite insert_app_r_alt, Nat.sub_diag, <- app_assoc by lia. reflexivity. }
  cbn [res_bind]. replace (Z.of_nat (length pre) + 1) with (Z.of_nat (length (pre ++ [b]))) by (rewrite length_app; simpl; lia).
  replace (k - 1) with (Z.of_nat (length (pre ++ [b])) + Z.of_nat (length mid') - 1) by (unfold k; rewrite length_app; simpl; lia).
  rewrite IH by lia. rewrite reverse_cons, reverse_app. simpl. rewrite <- !app_assoc. reflexivity.
Qed.

Lemma reversed_run (pre l : list Z) : reversed (length pre) (pre ++ l) = Ok (pre ++ reverse l).
Proof.
  unfold reversed. pose proof (swap_loop_run (length (pre ++ l)) pre l []) as H. rewrite !app_nil_r in H.
  rewrite <- H by (rewrite length_app; lia). f_equal. rewrite length_app. lia.
Qed.

(** ** Digits *)

(** The number a sequence of digits denotes, most significant first, after [r]. *)
Definition num (base : Z) (ds : list Z) (r : Z) : Z := foldl (fun acc d => acc * base + d) r ds.

Lemma num_app (base : Z) (a b : list Z) (r : Z) : num base (a ++ b) r = num base b (num base a r).
Proof. apply foldl_app. Qed.

Definition digits_ok (base : Z) (ds : list Z) : Prop := Forall (fun d => 0 <= d < base) ds.

Lemma digit_val_hex (d : Z) : 0 <= d < 16 -> digit_val (hex_digit d) = Some d /\ hex_digit d <> 0 /\
  _tolower (hex_digit d) <> 120 /\ hex_digit d <> 10 /\ hex_digit d <> 43 /\ hex_digit d <> 45.
Proof.
  intros H. assert (Forall (fun d => digit_val (hex_digit d) = Some d /\ hex_digit d <> 0 /\
    _tolower (hex_digit d) <> 120 /\ hex_digit d <> 10 /\ hex_digit d <> 43 /\ hex_digit d <> 45) (zseq 0 16)) as HF
    by (vm_compute; repeat constructor; discriminate).
  rewrite Forall_forall in HF. apply HF, elem_of_zseq. lia.
Qed.

(** Reading digits back. *)
Lemma parse_digits (base : Z) (ds : list Z) :
  1 < base <= 16 -> digits_ok base ds -> forall R rv,
  parse_loop (hex_digit <$> ds) base (u64 R) (u32 rv) = (u32 (rv + Z.of_nat (length ds)), u64 (num base ds R)).
Proof.
  intros Hb. induction 1 as [| d ds Hd _ IH]; intros R rv; [simpl; rewrite Z.add_0_r; reflexivity|].
  destruct (digit_val_hex d) as (Hv & H0 & _); [lia|]. cbn [fmap list_fmap parse_loop].
  rewrite (proj2 (Z.eqb_neq _ _)) by exact H0. rewrite Hv. rewrite (proj2 (Z.leb_gt _ _)) by lia.
  replace (u64 (u64 R * base + d)) with (u64 (R * base + d)).
  - replace (u32 rv +% 1) with (u32 (rv + 1)) by word_lia. rewrite IH. cbn [num foldl length]. f_equal. f_equal. lia.
  - unfold uN. rewrite <- (Z.add_mod_idemp_l (R mod 2 ^ 64 * base)), Z.mul_mod_idemp_l, Z.add_mod_idemp_l by discriminate. reflexivity.
Qed.

(** A string of digits is read as the number it denotes. *)
Lemma _kstrtoull_digits (base : Z) (ds : list Z) :
  1 < base <= 16 -> digits_ok base ds -> ds <> [] -> Z.of_nat (length ds) < 2 ^ 31 ->
  _kstrtoull (hex_digit <$> ds) base = inr (u64 (num base ds 0)).
Proof.
  intros Hb Hd Hne Hl. unfold _kstrtoull.
  assert (_parse_integer_fixup_radix (hex_digit <$> ds) base = (hex_digit <$> ds, base)) as ->.
  { unfold _parse_integer_fixup_radix. rewrite (proj2 (Z.eqb_neq base 0)) by lia. f_equal.
    replace (_tolower (chr (hex_digit <$> ds) 1) =? 120) with false; [rewrite andb_false_r; reflexivity|].
    symmetry. apply Z.eqb_neq. unfold chr. rewrite list_lookup_fmap. destruct (ds !! 1%nat) as [d|] eqn:E; [|discriminate].
    simpl. apply digit_val_hex. unfold digits_ok in Hd. rewrite Forall_lookup in Hd. specialize (Hd _ _ E). simpl in Hd. lia. }
  unfold _parse_integer. pose proof (parse_digits base ds Hb Hd 0 0) as Hp.
  change (u64 0) with 0 in Hp. change (u32 0) with 0 in Hp. rewrite Hp. clear Hp. set (n := 0 + Z.of_nat (length ds)).
  assert (u32 n = n) as Hn by (unfold n; word_lia). rewrite Hn.
  assert (0 < n < 2 ^ 31) as Hn2 by (unfold n; destruct ds; [contradiction | simpl in *; lia]).
  assert (Z.land n KSTRTOX_OVERFLOW = 0) as ->.
  { apply Z.bits_inj_0. intros i. rewrite Z.land_spec. change KSTRTOX_OVERFLOW with (2 ^ 31). rewrite testbit_pow2 by lia.
    destruct (Z.eqb_spec i 31) as [-> | _]; [|apply andb_false_r]. rewrite (testbit_high 31) by lia. reflexivity. }
  assert (Z.land n (~% KSTRTOX_OVERFLOW) = n) as ->.
  { change (~% KSTRTOX_OVERFLOW) with (Z.ones 31). rewrite Z.land_ones by lia. apply Z.mod_small. lia. }
  rewrite (proj2 (Z.eqb_neq n 0)) by lia. simpl negb. cbv iota.
  rewrite drop_ge by (rewrite length_fmap; unfold n; lia). reflexivity.
Qed.

Lemma narrow_inr (conv : Z -> Z) (z : Z) : conv z = z -> narrow conv (inr z) = inr z.
Proof. intros H. unfold narrow. rewrite H, Z.eqb_refl. reflexivity. Qed.

Lemma chr_digits (ds : list Z) (base : Z) :
  base <= 16 -> digits_ok base ds -> ds <> [] ->
  chr (hex_digit <$> ds) 0 <> 43 /\ chr (hex_digit <$> ds) 0 <> 45.
Proof.
  intros Hb Hd Hne. destruct Hd as [| d ds Hd _]; [contradiction|]. simpl. destruct (digit_val_hex d) as (_ & _ & _ & _ & ? & ?); [lia|].
  auto.
Qed.

(** ** Printing *)

Lemma itoa_table_digit (d : Z) : 0 <= d < 16 ->
  itoa_table !! Z.to_nat (35 + d) = Some (hex_digit d) /\ itoa_table !! Z.to_nat (35 + - d) = Some (hex_digit d).
Proof.
  intros H. assert (Forall (fun d => itoa_table !! Z.to_nat (35 + d) = Some (hex_digit d) /\
    itoa_table !! Z.to_nat (35 + - d) = Some (hex_digit d)) (zseq 0 16)) as HF by (vm_compute; repeat constructor).
  rewrite Forall_forall in HF. apply HF, elem_of_zseq. lia.
Qed.

(** [ds], least significant first, denotes [v]. *)
Lemma itoa_digits_run (fuel : nat) (base : Z) :
  2 <= base <= 16 -> forall v, Z.abs v < base ^ Z.of_nat fuel -> (0 < fuel)%nat ->
  exists ds, itoa_digits fuel v base = Ok (hex_digit <$> ds) /\ digits_ok base ds /\ ds <> [] /\
             (length ds <= fuel)%nat /\ num base (reverse ds) 0 = Z.abs v.
Proof.
  intros Hb. induction fuel as [| fuel IH]; intros v Hv Hf; [lia|]. cbn [itoa_digits].
  set (d := Z.abs v mod base). assert (0 <= d < base) as Hd by (apply Z.mod_pos_bound; lia).
  assert (Z.abs (Z.rem v base) = d) as Hr by (unfold d; rewrite <- Z.rem_abs, Z.rem_mod_nonneg, (Z.abs_eq base) by lia; reflexivity).
  assert (Z.abs (Z.quot v base) = Z.abs v / base) as Hq
    by (rewrite <- Z.quot_abs, Z.quot_div_nonneg, (Z.abs_eq base) by lia; reflexivity).
  assert (aload itoa_table (35 + Z.rem v base) = Ok (hex_digit d)) as ->.
  { apply aload_ok. split; [lia|]. destruct (itoa_table_digit d) as [H1 H2]; [lia|].
    assert (Z.rem v base = d \/ Z.rem v base = - d) as [-> | ->] by lia; assumption. }
  cbn [res_bind]. destruct (Z.eqb_spec (Z.quot v base) 0) as [E | E].
  - rewrite E in Hq. exists [d]. split_and!; [reflexivity | repeat constructor; lia | discriminate | simpl; lia |].
    cbn. unfold d. pose proof (Z.div_mod (Z.abs v) base). lia.
  - destruct (IH (Z.quot v base)) as (ds & E' & Hok & Hne & Hl & Hn).
    + rewrite Hq. apply Z.div_lt_upper_bound; [lia|]. rewrite Nat2Z.inj_succ, Z.pow_succ_r in Hv by lia. exact Hv.
    + destruct fuel; [|lia]. change (Z.of_nat 1) with 1 in Hv. rewrite Z.pow_1_r in Hv. rewrite Z.div_small in Hq by lia. lia.
    + rewrite E'. cbn [res_bind]. exists (d :: ds). split_and!; [reflexivity | constructor; auto | discriminate | simpl; lia |].
      rewrite reverse_cons, num_app, Hn, Hq. cbn. unfold d. pose proof (Z.div_mod (Z.abs v) base). lia.
Qed.

Lemma digits_ok_reverse (base : Z) (ds : list Z) : digits_ok base ds -> digits_ok base (reverse ds).
Proof. apply Forall_reverse. Qed.

Lemma reverse_ne {A : Type} (l : list A) : l <> [] -> reverse l <> [].
Proof. intros H E. apply H. apply (f_equal reverse) in E. rewrite reverse_involutive in E. exact E. Qed.

Lemma s64_small (z : Z) : - 2 ^ 63 <= z < 2 ^ 63 -> s64 z = z.
Proof. intros H. apply sN_id; simpl; lia. Qed.

(** C21: for every [int], [itoa] in base 10 produces a string that [kstrtoint]
    reads back as the same number, the most negative one included. *)
Theorem itoa_kstrtoint (v : Z) : in_s32 v -> exists s, itoa v 10 = Ok s /\ kstrtoint s 10 = inr v.
Proof.
  intros Hv. unfold in_s32 in Hv. destruct (itoa_digits_run 32 10 ltac:(lia) v) as (ds & E & Hok & Hne & Hl & Hn); [simpl Z.of_nat; lia | lia |].
  apply digits_ok_reverse in Hok. apply reverse_ne in Hne.
  pose proof (_kstrtoull_digits 10 (reverse ds) ltac:(lia) Hok Hne) as Hk. rewrite length_reverse, Hn in Hk. specialize (Hk ltac:(lia)).
  unfold itoa. cbn [orb Z.ltb Z.compare]. rewrite E. cbn [res_bind]. unfold kstrtoint, kstrtoll.
  destruct (Z.ltb_spec v 0) as [Hneg | Hpos]; cbn [andb Z.eqb Pos.eqb].
  - pose proof (reversed_run [45] (hex_digit <$> ds)) as Hr. cbn [length app] in Hr. rewrite Hr. eexists. split; [reflexivity|].
    change (chr (45 :: reverse (hex_digit <$> ds)) 0 =? 45) with true. cbv iota.
    change (drop 1 (45 :: reverse (hex_digit <$> ds))) with (reverse (hex_digit <$> ds)). rewrite <- fmap_reverse, Hk.
    rewrite (uN_id 64) by (simpl; lia). rewrite s64_small by lia. destruct (Z.leb_spec 0 (- Z.abs v)); [lia|].
    replace (- Z.abs v) with v by lia. apply narrow_inr. apply sN_id; simpl; lia.
  - pose proof (reversed_run [] (hex_digit <$> ds)) as Hr. cbn [length app] in Hr. rewrite Hr. eexists. split; [reflexivity|].
    rewrite <- fmap_reverse. destruct (chr_digits (reverse ds) 10) as [Hp Hm]; [lia | exact Hok | exact Hne |].
    rewrite (proj2 (Z.eqb_neq _ _)) by exact Hm. unfold kstrtoull. rewrite (proj2 (Z.eqb_neq _ _)) by exact Hp. rewrite Hk.
    rewrite (uN_id 64) by (simpl; lia). rewrite s64_small by lia. destruct (Z.ltb_spec (Z.abs v) 0); [lia|].
    rewrite Z.abs_eq by lia. apply narrow_inr. apply sN_id; simpl; lia.
Qed.

Lemma itoa_kstrtoint_witness : exists s, itoa (- 2147483648) 10 = Ok s /\ kstrtoint s 10 = inr (- 2147483648).
Proof. apply (itoa_kstrtoint (- 2147483648)). unfold in_s32. lia. Defined.

(** ** Where the code and its comments disagree *)

(** The documented [-ERANGE] on overflow never happens: the number wraps. *)
Lemma kstrtoull_wraps :
  kstrtoull (hex_digit <$> [1; 8; 4; 4; 6; 7; 4; 4; 0; 7; 3; 7; 0; 9; 5; 5; 1; 6; 2; 1]) 10 = inr 5.
Proof. vm_compute. reflexivity. Qed.

Lemma kstrtoll_minus_zero : kstrtoll [45; 48] 10 = inl (- ERANGE).
Proof. vm_compute. reflexivity. Qed.
