(* ===== verification/Vsprintf.v ===== *)
(** * Formatted output (lib/vsprintf.c)

    Characters are bytes.  A format and a string argument are lists of bytes; the
    string at an address is given by the parameter [cstr_at].  A [va_list] is the
    list of the argument words on the stack, a [long long] taking two.  A store of
    [%n] goes into the buffer where its argument points into it; the bytes it puts
    elsewhere are collected with their addresses.  Strings are read from memory the
    call does not change.  The outcomes of a call are a value,
    a read past the last argument or a store outside the buffer ([VFault]), and a
    loop that does not end ([VLoops]); [VFuel] would be a bound of the model that
    is too small. *)

From S2P Require Import Prelude Numstr.

Inductive vres (A : Type) : Type :=
| VOk (a : A)
| VFault
| VLoops
| VFuel.

Arguments VOk {A}.
Arguments VFault {A}.
Arguments VLoops {A}.
Arguments VFuel {A}.

#[export] Instance vres_ret : MRet vres := fun A a => VOk a.

#[export] Instance vres_bind : MBind vres := fun A B k m =>
  match m with
  | VOk a => k a
  | VFault => VFault
  | VLoops => VLoops
  | VFuel => VFuel
  end.

(** ** Unchecked parsing: the value and the rest of the string *)

Fixpoint skip_spaces (s : list Z) : list Z :=
  match s with
  | c :: s' => if isspace c then skip_spaces s' else s
  | [] => []
  end.

Definition simple_strtoull (cp : list Z) (base : Z) : Z * list Z :=
  let '(cp, base) := _parse_integer_fixup_radix cp base in
  let '(rv, result) := _parse_integer cp base in
  (result, drop (Z.to_nat (Z.land rv (Z.lnot KSTRTOX_OVERFLOW))) cp).

Definition simple_strtoul (cp : list Z) (base : Z) : Z * list Z :=
  let '(r, rest) := simple_strtoull cp base in (u32 r, rest).

Definition simple_strtol (cp : list Z) (base : Z) : Z * list Z :=
  if chr cp 0 =? 45 then let '(r, rest) := simple_strtoul (drop 1 cp) base in (s32 (- r), rest)
  else let '(r, rest) := simple_strtoul cp base in (s32 r, rest).

Definition simple_strtoll (cp : list Z) (base : Z) : Z * list Z :=
  if chr cp 0 =? 45 then let '(r, rest) := simple_strtoull (drop 1 cp) base in (s64 (- r), rest)
  else let '(r, rest) := simple_strtoull cp base in (s64 r, rest).

(** ** Decimal digits, least significant first *)

Definition put_dec_full9 (q : Z) : list Z :=
  let r := u32 (Z.shiftr (q * 429496730) 32) in
  let c1 := u8 ((q -% 10 *% r) +% 48) in
  let q := u32 (Z.shiftr (r * 429496730) 32) in
  let c2 := u8 ((r -% 10 *% q) +% 48) in
  let r := u32 (Z.shiftr (q * 429496730) 32) in
  let c3 := u8 ((q -% 10 *% r) +% 48) in
  let q := u32 (Z.shiftr (r * 429496730) 32) in
  let c4 := u8 ((r -% 10 *% q) +% 48) in
  let r := u32 (Z.shiftr (q * 429496730) 32) in
  let c5 := u8 ((q -% 10 *% r) +% 48) in
  let q := Z.shiftr (r *% 6554) 16 in
  let c6 := u8 ((r -% 10 *% q) +% 48) in
  let r := Z.shiftr (q *% 205) 11 in
  let c7 := u8 ((q -% 10 *% r) +% 48) in
  let q := Z.shiftr (r *% 205) 11 in
  let c8 := u8 ((r -% 10 *% q) +% 48) in
  [c1; c2; c3; c4; c5; c6; c7; c8; u8 (q +% 48)].

(** The loop of [put_dec_trunc8]: the characters and the rest below 10000. *)
Fixpoint trunc8_loop (fuel : nat) (r : Z) : list Z * Z :=
  match fuel with
  | O => ([], r)
  | S fuel =>
      if 10000 <=? r then
        let q := r +% 48 in
        let r := u32 (Z.shiftr (r * 429496730) 32) in
        let '(l, r') := trunc8_loop fuel r in
        (u8 (q -% 10 *% r) :: l, r')
      else ([], r)
  end.

Definition put_dec_trunc8 (r : Z) : list Z :=
  let '(l, r) := trunc8_loop 10 r in
  let q := Z.shiftr (r *% 6554) 16 in
  l ++ u8 ((r -% 10 *% q) +% 48) ::
  (if q =? 0 then []
   else
     let r := Z.shiftr (q *% 205) 11 in
     u8 ((q -% 10 *% r) +% 48) ::
     (if r =? 0 then []
      else
        let q := Z.shiftr (r *% 205) 11 in
        u8 ((r -% 10 *% q) +% 48) :: (if q =? 0 then [] else [u8 (q +% 48)]))).

(** [BITS_PER_LONG_LONG] is not defined, so the first algorithm is compiled; the
    statement that would reduce [n] in its loop is commented out. *)
Definition put_dec (n : Z) : vres (list Z) :=
  if 100000000 <=? n then
    if 1000000000 <=? n then VLoops else VOk (put_dec_full9 (u32 n))
  else VOk (put_dec_trunc8 (u32 n)).

(** The length and the characters stored; 0 on overflow. *)
Definition num_to_str (size num : Z) : vres (Z * list Z) :=
  tmp ← (if num <=? 9 then VOk [u8 (48 + num)] else put_dec num);
  if size <? Z.of_nat (length tmp) then VOk (0, []) else VOk (Z.of_nat (length tmp), reverse tmp).

(** ** Conversion specifications *)

Definition ZEROPAD : Z := 1.
Definition SIGN : Z := 2.
Definition PLUS : Z := 4.
Definition SPACE : Z := 8.
Definition LEFT : Z := 16.
Definition SMALL : Z := 32.
Definition SPECIAL : Z := 64.

Inductive format_type : Type :=
| FORMAT_TYPE_NONE
| FORMAT_TYPE_WIDTH
| FORMAT_TYPE_PRECISION
| FORMAT_TYPE_CHAR
| FORMAT_TYPE_STR
| FORMAT_TYPE_PTR
| FORMAT_TYPE_PERCENT_CHAR
| FORMAT_TYPE_INVALID
| FORMAT_TYPE_LONG_LONG
| FORMAT_TYPE_ULONG
| FORMAT_TYPE_LONG
| FORMAT_TYPE_UBYTE
| FORMAT_TYPE_BYTE
| FORMAT_TYPE_USHORT
| FORMAT_TYPE_SHORT
| FORMAT_TYPE_UINT
| FORMAT_TYPE_INT
| FORMAT_TYPE_NRCHARS
| FORMAT_TYPE_SIZE_T
| FORMAT_TYPE_PTRDIFF.

Record printf_spec : Type := Spec {
  type : format_type;
  flags : Z;
  base : Z;
  qualifier : Z;
  field_width : Z;
  precision : Z;
}.

Definition s16 (z : Z) : Z := sN 16 z.

Definition set_type (s : printf_spec) (t : format_type) : printf_spec :=
  Spec t s.(flags) s.(base) s.(qualifier) s.(field_width) s.(precision).
Definition set_flags (s : printf_spec) (f : Z) : printf_spec :=
  Spec s.(type) f s.(base) s.(qualifier) s.(field_width) s.(precision).
Definition set_base (s : printf_spec) (b : Z) : printf_spec :=
  Spec s.(type) s.(flags) b s.(qualifier) s.(field_width) s.(precision).
Definition set_qualifier (s : printf_spec) (q : Z) : printf_spec :=
  Spec s.(type) s.(flags) s.(base) (u8 q) s.(field_width) s.(precision).
Definition set_width (s : printf_spec) (w : Z) : printf_spec :=
  Spec s.(type) s.(flags) s.(base) s.(qualifier) (s16 w) s.(precision).
Definition set_precision (s : printf_spec) (p : Z) : printf_spec :=
  Spec s.(type) s.(flags) s.(base) s.(qualifier) s.(field_width) (s16 p).

Definition has (s : printf_spec) (f : Z) : bool := negb (Z.land s.(flags) f =? 0).

(** [while (--w >= 0) ...] on a [s16]: how often the body runs, and [w] after. *)
Definition dec_loop (w : Z) : nat * Z :=
  let w := s16 (w - 1) in
  if w <? 0 then (O, w) else (Z.to_nat (w + 1), -1).

(** The digits of a number in base 8 or 16, least significant first. *)
Fixpoint mask_digits (fuel : nat) (mask shift locase num : Z) : list Z :=
  match fuel with
  | O => []
  | S fuel =>
      let d := Z.land (Z.land num 255) mask in
      let c := Z.lor (if d <? 10 then 48 + d else 65 + d - 10) locase in
      let num := Z.shiftr num shift in
      c :: (if num =? 0 then [] else mask_digits fuel mask shift locase num)
  end.

(** The characters [number] stores or passes over. *)
Definition number (num : Z) (spec : printf_spec) : vres (list Z) :=
  let need_pfx := has spec SPECIAL && negb (spec.(base) =? 10) in
  let is_zero := num =? 0 in
  let locase := Z.land spec.(flags) SMALL in
  let spec := if has spec LEFT then set_flags spec (Z.land spec.(flags) (Z.lnot ZEROPAD)) else spec in
  let '(sign, num, spec) :=
    if has spec SIGN then
      if s64 num <? 0 then (45, u64 (- s64 num), set_width spec (spec.(field_width) - 1))
      else if has spec PLUS then (43, num, set_width spec (spec.(field_width) - 1))
      else if has spec SPACE then (32, num, set_width spec (spec.(field_width) - 1))
      else (0, num, spec)
    else (0, num, spec) in
  let spec :=
    if need_pfx then
      if spec.(base) =? 16 then set_width spec (spec.(field_width) - 2)
      else if negb is_zero then set_width spec (spec.(field_width) - 1) else spec
    else spec in
  tmp ← (if num <? spec.(base) then VOk [Z.lor (if num <? 10 then 48 + num else 65 + num - 10) locase]
         else if negb (spec.(base) =? 10)
         then VOk (mask_digits 32 (spec.(base) - 1) (if spec.(base) =? 16 then 4 else 3) locase num)
         else put_dec num);
  let i := Z.of_nat (length tmp) in
  let spec := if spec.(precision) <? i then set_precision spec i else spec in
  let w := s16 (spec.(field_width) - spec.(precision)) in
  let '(n1, w) := if Z.land spec.(flags) (ZEROPAD + LEFT) =? 0 then dec_loop w else (O, w) in
  let '(n2, w) := if negb (has spec LEFT) then dec_loop w else (O, w) in
  let '(n3, _) := dec_loop w in
  VOk (replicate n1 32
       ++ (if sign =? 0 then [] else [sign])
       ++ (if need_pfx then
             (if (spec.(base) =? 16) || negb is_zero then [48] else [])
             ++ (if spec.(base) =? 16 then [Z.lor 88 locase] else [])
           else [])
       ++ replicate n2 (if has spec ZEROPAD then 48 else 32)
       ++ replicate (Z.to_nat (spec.(precision) - i)) 48
       ++ reverse tmp
       ++ replicate n3 32).

(** [while (len < w--) ...]: how often the body runs, and [w] after. *)
Definition pad_loop (len w : Z) : nat * Z := (Z.to_nat (w - len), s16 (Z.min len w - 1)).

(** [strnlen(s, n)] with [n] converted to [size_t]. *)
Definition strnlen16 (s : list Z) (n : Z) : nat := Z.to_nat (Z.min (Z.of_nat (length s)) (u32 n)).

(** [s] is the string argument after the check for small addresses. *)
Definition string (s : list Z) (spec : printf_spec) : list Z :=
  let n := strnlen16 s spec.(precision) in
  let len := Z.of_nat n in
  let '(n1, w) := if negb (has spec LEFT) then pad_loop len spec.(field_width) else (O, spec.(field_width)) in
  let '(n2, _) := pad_loop len w in
  replicate n1 32 ++ take n s ++ replicate n2 32.

Definition PAGE_SIZE : Z := 1024.

(** The bytes of "(null)". *)
Definition null_str : list Z := [40; 110; 117; 108; 108; 41].

(** [fmt] is the format after the conversion character. *)
Definition pointer (fmt : list Z) (ptr : Z) (spec : printf_spec) : vres (list Z) :=
  let default_width := 2 * 4 + (if has spec SPECIAL then 2 else 0) in
  if (ptr =? 0) && negb (chr fmt 0 =? 75) then
    VOk (string null_str (if spec.(field_width) =? -1 then set_width spec default_width else spec))
  else
    let spec := set_flags spec (Z.lor spec.(flags) SMALL) in
    let spec := if spec.(field_width) =? -1
                then set_flags (set_width spec default_width) (Z.lor spec.(flags) ZEROPAD) else spec in
    number ptr (set_base spec 16).

(** ** Decoding the format *)

(** The value and the rest. *)
Fixpoint skip_atoi (s : list Z) (i : Z) : Z * list Z :=
  match s with
  | c :: s' => if isdigit c then skip_atoi s' (s32 (i * 10 + c - 48)) else (i, s)
  | [] => (i, s)
  end.

(** The flag characters after a '%': the flags and the rest. *)
Fixpoint skip_flags (s : list Z) (f : Z) : Z * list Z :=
  match s with
  | [] => (f, [])
  | c :: s' =>
      if c =? 45 then skip_flags s' (Z.lor f LEFT)
      else if c =? 43 then skip_flags s' (Z.lor f PLUS)
      else if c =? 32 then skip_flags s' (Z.lor f SPACE)
      else if c =? 35 then skip_flags s' (Z.lor f SPECIAL)
      else if c =? 48 then skip_flags s' (Z.lor f ZEROPAD)
      else (f, s)
  end.

(** The characters before the next '%'. *)
Fixpoint literal (s : list Z) : nat :=
  match s with
  | [] => O
  | c :: s => if c =? 37 then O else S (literal s)
  end.

(** The type of an integer conversion. *)
Definition int_type (q : Z) (sign : bool) : format_type :=
  if q =? 76 then FORMAT_TYPE_LONG_LONG
  else if q =? 108 then if sign then FORMAT_TYPE_LONG else FORMAT_TYPE_ULONG
  else if _tolower q =? 122 then FORMAT_TYPE_SIZE_T
  else if q =? 116 then FORMAT_TYPE_PTRDIFF
  else if q =? 72 then if sign then FORMAT_TYPE_BYTE else FORMAT_TYPE_UBYTE
  else if q =? 104 then if sign then FORMAT_TYPE_SHORT else FORMAT_TYPE_USHORT
  else if sign then FORMAT_TYPE_INT else FORMAT_TYPE_UINT.

(** From the label [qualifier]: the specification and the rest of the format. *)
Definition decode_qualifier (s : list Z) (spec : printf_spec) : printf_spec * list Z :=
  let spec := set_qualifier spec (-1) in
  let '(spec, s) :=
    if (chr s 0 =? 104) || (_tolower (chr s 0) =? 108) || (_tolower (chr s 0) =? 122) || (chr s 0 =? 116) then
      let q := chr s 0 in
      let s := drop 1 s in
      if q =? chr s 0 then
        if q =? 108 then (set_qualifier spec 76, drop 1 s)
        else if q =? 104 then (set_qualifier spec 72, drop 1 s)
        else (set_qualifier spec q, s)
      else (set_qualifier spec q, s)
    else (spec, s) in
  let spec := set_base spec 10 in
  let c := chr s 0 in
  if c =? 99 then (set_type spec FORMAT_TYPE_CHAR, drop 1 s)
  else if c =? 115 then (set_type spec FORMAT_TYPE_STR, drop 1 s)
  else if c =? 112 then (set_type spec FORMAT_TYPE_PTR, s)
  else if c =? 110 then (set_type spec FORMAT_TYPE_NRCHARS, drop 1 s)
  else if c =? 37 then (set_type spec FORMAT_TYPE_PERCENT_CHAR, drop 1 s)
  else if (c =? 111) || (c =? 120) || (c =? 88) || (c =? 100) || (c =? 105) || (c =? 117) then
    let spec :=
      if c =? 111 then set_base spec 8
      else if c =? 120 then set_base (set_flags spec (Z.lor spec.(flags) SMALL)) 16
      else if c =? 88 then set_base spec 16
      else if c =? 117 then spec
      else set_flags spec (Z.lor spec.(flags) SIGN) in
    (set_type spec (int_type spec.(qualifier) (has spec SIGN)), drop 1 s)
  else (set_type spec FORMAT_TYPE_INVALID, s).

(** From the label [precision]. *)
Definition decode_precision (s : list Z) (spec : printf_spec) : printf_spec * list Z :=
  let spec := set_precision spec (-1) in
  if chr s 0 =? 46 then
    let s := drop 1 s in
    if isdigit (chr s 0) then
      let '(p, s) := skip_atoi s 0 in
      let spec := set_precision spec p in
      decode_qualifier s (if spec.(precision) <? 0 then set_precision spec 0 else spec)
    else if chr s 0 =? 42 then (set_type spec FORMAT_TYPE_PRECISION, drop 1 s)
    else decode_qualifier s spec
  else decode_qualifier s spec.

(** The new specification and the rest of the format after the part read. *)
Definition format_decode (fmt : list Z) (spec : printf_spec) : printf_spec * list Z :=
  match spec.(type) with
  | FORMAT_TYPE_WIDTH =>
      let spec := if spec.(field_width) <? 0
                  then set_flags (set_width spec (- spec.(field_width))) (Z.lor spec.(flags) LEFT) else spec in
      decode_precision fmt (set_type spec FORMAT_TYPE_NONE)
  | FORMAT_TYPE_PRECISION =>
      let spec := if spec.(precision) <? 0 then set_precision spec 0 else spec in
      decode_qualifier fmt (set_type spec FORMAT_TYPE_NONE)
  | _ =>
      let spec := set_type spec FORMAT_TYPE_NONE in
      let n := literal fmt in
      if negb (n =? 0)%nat || (chr (drop n fmt) 0 =? 0) then (spec, drop n fmt)
      else
        let '(f, s) := skip_flags (drop 1 fmt) 0 in
        let spec := set_width (set_flags spec f) (-1) in
        if isdigit (chr s 0) then
          let '(w, s) := skip_atoi s 0 in
          decode_precision s (set_width spec w)
        else if chr s 0 =? 42 then (set_type spec FORMAT_TYPE_WIDTH, drop 1 s)
        else decode_precision s spec
  end.

(** ** Formatting into a buffer *)

(** The buffer, the position in it as an address, and the bytes that [%n] has
    stored outside the buffer. *)
Record vout : Type := Vout {
  obuf : list Z;
  str : Z;
  nstores : list (Z * Z);
}.

Section format.

Context (cstr_at : Z -> list Z) (buf : Z).

(** [if (str < end) *str = c; ++str;] *)
Definition emit (vend c : Z) (o : vout) : vres vout :=
  if o.(str) <? vend then
    match astore o.(obuf) (o.(str) - buf) c with
    | Ok b => VOk (Vout b (o.(str) +% 1) o.(nstores))
    | _ => VFault
    end
  else VOk (Vout o.(obuf) (o.(str) +% 1) o.(nstores)).

Fixpoint emits (vend : Z) (cs : list Z) (o : vout) : vres vout :=
  match cs with
  | [] => VOk o
  | c :: cs => o ← emit vend c o; emits vend cs o
  end.

(** [memcpy(str, src, n)] *)
Fixpoint copy_to (b : list Z) (i : Z) (cs : list Z) : vres (list Z) :=
  match cs with
  | [] => VOk b
  | c :: cs =>
      match astore b i c with
      | Ok b => copy_to b (i + 1) cs
      | _ => VFault
      end
  end.

Definition va_word (args : list Z) : vres (Z * list Z) :=
  match args with
  | a :: args => VOk (a, args)
  | [] => VFault
  end.

Definition va_long_long (args : list Z) : vres (Z * list Z) :=
  match args with
  | lo :: hi :: args => VOk (lo + Z.shiftl hi 32, args)
  | _ => VFault
  end.

(** The number argument of an integer conversion, as an [unsigned long long]. *)
Definition va_num (t : format_type) (sign : bool) (args : list Z) : vres (Z * list Z) :=
  match t with
  | FORMAT_TYPE_LONG_LONG => va_long_long args
  | _ =>
      a ← va_word args;
      let '(w, args) := a in
      VOk (match t with
           | FORMAT_TYPE_ULONG => w
           | FORMAT_TYPE_LONG => u64 (s32 w)
           | FORMAT_TYPE_SIZE_T => if sign then u64 (s32 w) else w
           | FORMAT_TYPE_PTRDIFF => u64 (s32 w)
           | FORMAT_TYPE_UBYTE => u8 w
           | FORMAT_TYPE_BYTE => u64 (s8 w)
           | FORMAT_TYPE_USHORT => u16 w
           | FORMAT_TYPE_SHORT => u64 (s16 w)
           | FORMAT_TYPE_INT => u64 (s32 w)
           | _ => w
           end, args)
  end.

(** [while (--w > 0) ...] on a [s16]. *)
Definition char_loop (w : Z) : nat * Z :=
  let w := s16 (w - 1) in
  if w <=? 0 then (O, w) else (Z.to_nat w, 0).

(** The characters of a [%c] conversion. *)
Definition char_conv (c : Z) (spec : printf_spec) : list Z :=
  let '(n1, w) := if negb (has spec LEFT) then char_loop spec.(field_width) else (O, spec.(field_width)) in
  let '(n2, _) := char_loop w in
  replicate n1 32 ++ [u8 c] ++ replicate n2 32.

Fixpoint skip_alnum (s : list Z) : list Z :=
  match s with
  | c :: s' => if isalnum c then skip_alnum s' else s
  | [] => []
  end.

(** What one turn of the loop of [vsnprintf] does after decoding: the text to
    store, given the text [old] read by [format_decode], and the new state. *)
Inductive action : Type :=
| Copy (cs : list Z)
| Emit (cs : list Z)
| Count (addr : Z)
| Nothing.

Definition convert (spec : printf_spec) (read fmt args : list Z) : vres (action * printf_spec * list Z * list Z) :=
  match spec.(type) with
  | FORMAT_TYPE_NONE => VOk (Copy read, spec, fmt, args)
  | FORMAT_TYPE_WIDTH => a ← va_word args; VOk (Nothing, set_width spec (s32 a.1), fmt, a.2)
  | FORMAT_TYPE_PRECISION => a ← va_word args; VOk (Nothing, set_precision spec (s32 a.1), fmt, a.2)
  | FORMAT_TYPE_CHAR => a ← va_word args; VOk (Emit (char_conv a.1 spec), spec, fmt, a.2)
  | FORMAT_TYPE_STR =>
      a ← va_word args;
      VOk (Emit (string (if a.1 <? PAGE_SIZE then null_str else cstr_at a.1) spec), spec, fmt, a.2)
  | FORMAT_TYPE_PTR =>
      a ← va_word args;
      cs ← pointer (drop 1 fmt) a.1 spec;
      VOk (Emit cs, spec, skip_alnum fmt, a.2)
  | FORMAT_TYPE_PERCENT_CHAR | FORMAT_TYPE_INVALID => VOk (Emit [37], spec, fmt, args)
  | FORMAT_TYPE_NRCHARS => a ← va_word args; VOk (Count a.1, spec, fmt, a.2)
  | t =>
      a ← va_num t (has spec SIGN) args;
      cs ← number a.1 spec;
      VOk (Emit cs, spec, fmt, a.2)
  end.

(** One byte stored by [%n], into the buffer if that is where the argument points. *)
Definition poke (o : vout) (a c : Z) : vout :=
  if (buf <=? a) && (a <? buf + Z.of_nat (length o.(obuf)))
  then Vout (<[Z.to_nat (a - buf) := c]> o.(obuf)) o.(str) o.(nstores)
  else Vout o.(obuf) o.(str) (o.(nstores) ++ [(a, c)]).

(** The addresses and values of the four bytes of [*ip = v]. *)
Definition count_bytes (ip v : Z) : list (Z * Z) :=
  (fun i => (ip +% i, u8 (Z.shiftr v (8 * i)))) <$> [0; 1; 2; 3].

Definition perform (vend : Z) (a : action) (o : vout) : vres vout :=
  match a with
  | Copy cs =>
      let read := Z.of_nat (length cs) in
      b ← (if o.(str) <? vend then
             copy_to o.(obuf) (o.(str) - buf) (take (Z.to_nat (Z.min read (vend - o.(str)))) cs)
           else VOk o.(obuf));
      VOk (Vout b (o.(str) +% read) o.(nstores))
  | Emit cs => emits vend cs o
  | Count addr => VOk (foldl (fun o x => poke o x.1 x.2) o (count_bytes addr (o.(str) -% buf)))
  | Nothing => VOk o
  end.

Fixpoint format_loop (fuel : nat) (vend : Z) (spec : printf_spec) (fmt args : list Z) (o : vout) : vres vout :=
  match fuel with
  | O => VFuel
  | S fuel =>
      if chr fmt 0 =? 0 then VOk o
      else
        let '(spec, rest) := format_decode fmt spec in
        let read := take (length fmt - length rest) fmt in
        r ← convert spec read rest args;
        let '(a, spec, fmt, args) := r in
        o ← perform vend a o;
        format_loop fuel vend spec fmt args o
  end.

(** Enough for the loop: a turn consumes part of the format, or is the
    continuation of one that read a width or a precision. *)
Definition format_fuel (fmt : list Z) : nat := 2 * length fmt + 3.

(** The returned length and the buffer. *)
Definition vsnprintf (b : list Z) (size : Z) (fmt args : list Z) : vres (Z * vout) :=
  if s32 size <? 0 then VOk (0, Vout b buf [])
  else
    let vend := buf +% size in
    let '(vend, size) := if vend <? buf then (4294967295, 4294967295 -% buf) else (vend, size) in
    o ← format_loop (format_fuel fmt) vend (Spec FORMAT_TYPE_NONE 0 0 0 0 0) fmt args (Vout b buf []);
    b ← (if 0 <? size then copy_to o.(obuf) ((if o.(str) <? vend then o.(str) else vend -% 1) - buf) [0]
         else VOk o.(obuf));
    VOk (s32 (o.(str) -% buf), Vout b o.(str) o.(nstores)).

Definition vscnprintf (b : list Z) (size : Z) (fmt args : list Z) : vres (Z * vout) :=
  r ← vsnprintf b size fmt args;
  let '(i, o) := r in
  VOk (if u32 i <? size then i else if negb (size =? 0) then s32 (size -% 1) else 0, o).

Definition snprintf (b : list Z) (size : Z) (fmt args : list Z) : vres (Z * vout) := vsnprintf b size fmt args.
Definition scnprintf (b : list Z) (size : Z) (fmt args : list Z) : vres (Z * vout) := vscnprintf b size fmt args.
Definition vsprintf (b : list Z) (fmt args : list Z) : vres (Z * vout) := vsnprintf b 2147483647 fmt args.
Definition sprintf (b : list Z) (fmt args : list Z) : vres (Z * vout) := vsnprintf b 2147483647 fmt args.

End format.

(** ** Decimal digits *)

(** The decimal digits of [n], least significant first: at least one. *)
Fixpoint dec_digits (fuel : nat) (n : Z) : list Z :=
  match fuel with
  | O => []
  | S fuel => (n mod 10) :: (if n / 10 =? 0 then [] else dec_digits fuel (n / 10))
  end.

(** Division by ten by multiplication. *)
Lemma div10_mul64 (q : Z) : 0 <= q < 1073741829 -> u32 (Z.shiftr (q * 429496730) 32) = q / 10.
Proof. intros H. rewrite Z.shiftr_div_pow2 by lia. change (2 ^ 32) with 4294967296. word_lia. Qed.

Lemma div10_mul16 (q : Z) : 0 <= q < 16389 -> Z.shiftr (q *% 6554) 16 = q / 10.
Proof. intros H. rewrite Z.shiftr_div_pow2 by lia. change (2 ^ 16) with 65536. word_lia. Qed.

Lemma div10_mul11 (q : Z) : 0 <= q < 1029 -> Z.shiftr (q *% 205) 11 = q / 10.
Proof. intros H. rewrite Z.shiftr_div_pow2 by lia. change (2 ^ 11) with 2048. word_lia. Qed.

(** The character of a digit computed from the quotient. *)
Lemma digit_char (q : Z) : 0 <= q < 2 ^ 31 -> u8 ((q -% 10 *% (q / 10)) +% 48) = 48 + q mod 10.
Proof. intros H. word_lia. Qed.

Lemma digit_char' (q : Z) : 0 <= q < 2 ^ 31 -> u8 ((q +% 48) -% 10 *% (q / 10)) = 48 + q mod 10.
Proof. intros H. word_lia. Qed.

Lemma digit_last (q : Z) : 0 <= q < 10 -> u8 (q +% 48) = 48 + q.
Proof. intros H. word_lia. Qed.

Lemma dec_digits_S (fuel : nat) (n : Z) :
  10 <= n -> dec_digits (S fuel) n = (n mod 10) :: dec_digits fuel (n / 10).
Proof. intros H. cbn [dec_digits]. destruct (Z.eqb_spec (n / 10) 0); [lia | reflexivity]. Qed.

Lemma dec_digits_1 (fuel : nat) (n : Z) : 0 <= n < 10 -> dec_digits (S fuel) n = [n].
Proof. intros H. cbn [dec_digits]. rewrite Z.div_small, Z.mod_small by lia. reflexivity. Qed.

Lemma put_dec_full9_run (q : Z) :
  100000000 <= q < 1000000000 -> put_dec_full9 q = (fun d => 48 + d) <$> dec_digits 9 q.
Proof.
  intros H. unfold put_dec_full9.
  rewrite (div10_mul64 q) by lia. rewrite (dec_digits_S 8 q), (digit_char q) by lia.
  assert (10000000 <= q / 10 < 100000000) as H1 by lia. set (q1 := q / 10) in *. clearbody q1.
  rewrite (div10_mul64 q1) by lia. rewrite (dec_digits_S 7 q1), (digit_char q1) by lia.
  assert (1000000 <= q1 / 10 < 10000000) as H2 by lia. set (q2 := q1 / 10) in *. clearbody q2.
  rewrite (div10_mul64 q2) by lia. rewrite (dec_digits_S 6 q2), (digit_char q2) by lia.
  assert (100000 <= q2 / 10 < 1000000) as H3 by lia. set (q3 := q2 / 10) in *. clearbody q3.
  rewrite (div10_mul64 q3) by lia. rewrite (dec_digits_S 5 q3), (digit_char q3) by lia.
  assert (10000 <= q3 / 10 < 100000) as H4 by lia. set (q4 := q3 / 10) in *. clearbody q4.
  rewrite (div10_mul64 q4) by lia. rewrite (dec_digits_S 4 q4), (digit_char q4) by lia.
  assert (1000 <= q4 / 10 < 10000) as H5 by lia. set (q5 := q4 / 10) in *. clearbody q5.
  rewrite (div10_mul16 q5) by lia. rewrite (dec_digits_S 3 q5), (digit_char q5) by lia.
  assert (100 <= q5 / 10 < 1000) as H6 by lia. set (q6 := q5 / 10) in *. clearbody q6.
  rewrite (div10_mul11 q6) by lia. rewrite (dec_digits_S 2 q6), (digit_char q6) by lia.
  assert (10 <= q6 / 10 < 100) as H7 by lia. set (q7 := q6 / 10) in *. clearbody q7.
  rewrite (div10_mul11 q7) by lia. rewrite (dec_digits_S 1 q7), (digit_char q7) by lia.
  rewrite dec_digits_1, digit_last by lia. reflexivity.
Qed.

(** What [put_dec_trunc8] does after its loop. *)
Definition trunc_tail (r : Z) : list Z :=
  let q := Z.shiftr (r *% 6554) 16 in
  u8 ((r -% 10 *% q) +% 48) ::
  (if q =? 0 then []
   else
     let r := Z.shiftr (q *% 205) 11 in
     u8 ((q -% 10 *% r) +% 48) ::
     (if r =? 0 then []
      else
        let q := Z.shiftr (r *% 205) 11 in
        u8 ((r -% 10 *% q) +% 48) :: (if q =? 0 then [] else [u8 (q +% 48)]))).

Lemma trunc_tail_run (r : Z) (k : nat) :
  0 <= r < 10000 -> trunc_tail r = (fun d => 48 + d) <$> dec_digits (4 + k) r.
Proof.
  intros H. unfold trunc_tail. rewrite (div10_mul16 r), (digit_char r) by lia. cbn [Nat.add dec_digits fmap list_fmap]. f_equal.
  assert (0 <= r / 10 < 1000) as H1 by lia. set (q := r / 10) in *. clearbody q.
  destruct (Z.eqb_spec q 0); [reflexivity|]. rewrite (div10_mul11 q), (digit_char q) by lia. cbn [dec_digits fmap list_fmap]. f_equal.
  assert (0 <= q / 10 < 100) as H2 by lia. set (p := q / 10) in *. clearbody p.
  destruct (Z.eqb_spec p 0); [reflexivity|]. rewrite (div10_mul11 p), (digit_char p) by lia. cbn [dec_digits fmap list_fmap]. f_equal.
  assert (0 <= p / 10 < 10) as H3 by lia. set (o := p / 10) in *. clearbody o.
  destruct (Z.eqb_spec o 0); [reflexivity|]. rewrite digit_last, Z.div_small, Z.mod_small by lia. reflexivity.
Qed.

Lemma trunc8_loop_run (n : nat) :
  forall r fuel, 0 <= r < 10000 * 10 ^ Z.of_nat n -> (n <= fuel)%nat -> r < 1000000000 ->
  let '(l, r') := trunc8_loop fuel r in l ++ trunc_tail r' = (fun d => 48 + d) <$> dec_digits (4 + fuel) r.
Proof.
  induction n as [| n IH]; intros r fuel Hr Hf Hm.
  - change (10 ^ Z.of_nat 0) with 1 in Hr.
    assert (trunc8_loop fuel r = ([], r)) as -> by (destruct fuel; cbn [trunc8_loop]; [|rewrite (proj2 (Z.leb_gt _ _)) by lia]; reflexivity).
    apply (trunc_tail_run r fuel). lia.
  - destruct fuel as [| fuel]; [lia|]. cbn [trunc8_loop]. destruct (Z.leb_spec 10000 r) as [Hge | Hlt].
    + rewrite (div10_mul64 r) by lia. rewrite Nat2Z.inj_succ, Z.pow_succ_r in Hr by lia.
      specialize (IH (r / 10) fuel ltac:(lia) ltac:(lia) ltac:(lia)). destruct (trunc8_loop fuel (r / 10)) as [l r'].
      rewrite digit_char' by lia. replace (4 + S fuel)%nat with (S (4 + fuel)) by lia.
      rewrite dec_digits_S by lia. cbn [app fmap list_fmap]. rewrite IH. reflexivity.
    + apply (trunc_tail_run r (S fuel)). lia.
Qed.

Lemma dec_digits_fuel (f g : nat) (n : Z) :
  0 <= n < 10 ^ Z.of_nat f -> (f <= g)%nat -> (0 < f)%nat -> dec_digits g n = dec_digits f n.
Proof.
  revert g n. induction f as [| f IH]; intros g n Hn Hg Hf; [lia|]. destruct g as [| g]; [lia|].
  rewrite Nat2Z.inj_succ, Z.pow_succ_r in Hn by lia.
  destruct (Z_lt_ge_dec n 10); [rewrite !dec_digits_1 by lia; reflexivity|].
  rewrite !dec_digits_S by lia. f_equal. destruct f; [change (10 ^ Z.of_nat 0) with 1 in Hn; lia|].
  apply IH; lia.
Qed.

(** C24: up to nine digits, the multiplications by reciprocals of [put_dec]
    produce exactly the decimal digits; from 10^9 on it does not return, since
    the reduction in its loop is commented out. *)
Theorem put_dec_digits (n : Z) :
  0 <= n < 2 ^ 64 ->
  put_dec n = (if n <? 1000000000 then VOk ((fun d => 48 + d) <$> dec_digits 9 n) else VLoops).
Proof.
  intros H. unfold put_dec. destruct (Z.leb_spec 100000000 n) as [H1 | H1].
  - destruct (Z.leb_spec 1000000000 n) as [H2 | H2]; [rewrite (proj2 (Z.ltb_ge _ _)) by lia; reflexivity|].
    rewrite (proj2 (Z.ltb_lt _ _)) by lia. rewrite uN_id by lia. rewrite put_dec_full9_run by lia. reflexivity.
  - rewrite (proj2 (Z.ltb_lt _ _)) by lia. rewrite uN_id by lia. unfold put_dec_trunc8.
    pose proof (trunc8_loop_run 4 n 10 ltac:(change (10 ^ Z.of_nat 4) with 10000; lia) ltac:(lia) ltac:(lia)) as HL.
    destruct (trunc8_loop 10 n) as [l r]. unfold trunc_tail in HL. rewrite HL.
    rewrite (dec_digits_fuel 9 (4 + 10) n); [reflexivity | change (10 ^ Z.of_nat 9) with 1000000000; lia | lia | lia].
Qed.

Lemma put_dec_digits_witness : put_dec 987654321 = VOk [49; 50; 51; 52; 53; 54; 55; 56; 57] /\ put_dec 4294967295 = VLoops.
Proof.
  split; [rewrite (put_dec_digits 987654321) by lia | rewrite (put_dec_digits 4294967295) by lia]; reflexivity.
Defined.

(** ** Termination *)

(** A conversion that waits for its width or precision argument. *)
Definition waiting (t : format_type) : bool :=
  match t with FORMAT_TYPE_WIDTH | FORMAT_TYPE_PRECISION => true | _ => false end.

Lemma skip_atoi_length (s : list Z) (i : Z) : (length (skip_atoi s i).2 <= length s)%nat.
Proof. revert i. induction s as [| c s IH]; intros i; simpl; [lia|]. destruct (isdigit c); simpl; [specialize (IH (s32 (i * 10 + c - 48))); lia | lia]. Qed.

Lemma skip_flags_length (s : list Z) (f : Z) : (length (skip_flags s f).2 <= length s)%nat.
Proof.
  revert f. induction s as [| c s IH]; intros f; simpl; [lia|].
  repeat case_match; simpl; try lia; (eapply Nat.le_trans; [apply IH | lia]).
Qed.

Lemma skip_alnum_length (s : list Z) : (length (skip_alnum s) <= length s)%nat.
Proof. induction s as [| c s IH]; simpl; [lia|]. destruct (isalnum c); simpl; lia. Qed.

Lemma chr_pos (s : list Z) (c : Z) : chr s 0 = c -> c <> 0 -> (0 < length s)%nat.
Proof. destruct s; simpl; [unfold chr; simpl; congruence | lia]. Qed.

Lemma int_type_waiting (q : Z) (sign : bool) : waiting (int_type q sign) = false.
Proof. unfold int_type. repeat case_match; reflexivity. Qed.

Lemma decode_qualifier_length (s : list Z) (spec : printf_spec) :
  (length (decode_qualifier s spec).2 <= length s)%nat /\ waiting (decode_qualifier s spec).1.(type) = false.
Proof.
  unfold decode_qualifier. cbv zeta.
  match goal with |- context [let '(a, b) := ?e in _] => destruct e as [spec1 s1] eqn:E end.
  assert (length s1 <= length s)%nat as H1
    by (repeat case_match; simplify_eq; rewrite ?length_drop; lia).
  generalize (chr s1 0). intros c. do 5 (match goal with |- context [if c =? ?k then _ else _] => destruct (c =? k);
    [simpl; rewrite ?length_drop; split; [lia | reflexivity]|] end).
  match goal with |- context [if ?e then _ else _] => destruct e end; [|simpl; split; [lia | reflexivity]].
  cbn [fst snd type set_type]. rewrite length_drop. split; [lia | apply int_type_waiting].
Qed.

Lemma decode_precision_length (s : list Z) (spec : printf_spec) :
  (length (decode_precision s spec).2 <= length s)%nat /\
  (waiting (decode_precision s spec).1.(type) = true -> (length (decode_precision s spec).2 < length s)%nat).
Proof.
  unfold decode_precision. cbv zeta. destruct (Z.eqb_spec (chr s 0) 46) as [E46 | _].
  - pose proof (chr_pos s 46 E46 ltac:(lia)) as Hs. destruct (isdigit (chr (drop 1 s) 0)).
    + destruct (skip_atoi (drop 1 s) 0) as [p s'] eqn:Ea. pose proof (skip_atoi_length (drop 1 s) 0) as Hl.
      rewrite Ea, length_drop in Hl. simpl in Hl.
      match goal with |- context [decode_qualifier s' ?sp] => destruct (decode_qualifier_length s' sp) as [H1 H2] end.
      split; [lia | rewrite H2; discriminate].
    + destruct (Z.eqb_spec (chr (drop 1 s) 0) 42); simpl; [rewrite !length_drop; split; intros; lia|].
      match goal with |- context [decode_qualifier ?s' ?sp] => destruct (decode_qualifier_length s' sp) as [H1 H2] end.
      rewrite length_drop in H1. split; [lia | rewrite H2; discriminate].
  - match goal with |- context [decode_qualifier ?s' ?sp] => destruct (decode_qualifier_length s' sp) as [H1 H2] end.
    split; [lia | rewrite H2; discriminate].
Qed.

(** What is left to do: twice the format, and one for a pending argument. *)
Definition format_measure (spec : printf_spec) (fmt : list Z) : nat :=
  2 * length fmt + (if waiting spec.(type) then 1 else 0).

Lemma literal_le (s : list Z) : (literal s <= length s)%nat.
Proof. induction s as [| c s IH]; simpl; [lia|]. destruct (c =? 37); lia. Qed.

Lemma format_decode_measure (fmt : list Z) (spec : printf_spec) :
  chr fmt 0 <> 0 ->
  (format_measure (format_decode fmt spec).1 (format_decode fmt spec).2 < format_measure spec fmt)%nat.
Proof.
  intros Hnz. pose proof (chr_pos fmt _ eq_refl Hnz) as Hpos.
  assert (forall s, (length s < length fmt)%nat -> forall sp : printf_spec,
            (format_measure (decode_precision s sp).1 (decode_precision s sp).2 < 2 * length fmt)%nat) as Hprec.
  { intros s Hs sp. destruct (decode_precision_length s sp) as [H1 H2]. unfold format_measure.
    destruct (waiting _); [specialize (H2 eq_refl)|]; lia. }
  unfold format_measure at 2.
  assert (waiting spec.(type) = false ->
          (format_measure (format_decode fmt spec).1 (format_decode fmt spec).2 < 2 * length fmt)%nat) as Hnorm.
  { intros Hw. unfold format_decode. cbv zeta.
    assert (forall A (a b c : A), match spec.(type) with FORMAT_TYPE_WIDTH => a | FORMAT_TYPE_PRECISION => b | _ => c end = c) as Hm
      by (intros; destruct spec.(type); try reflexivity; discriminate Hw).
    rewrite Hm. destruct (negb (literal fmt =? 0)%nat || (chr (drop (literal fmt) fmt) 0 =? 0)) eqn:El.
    - unfold format_measure. simpl. rewrite length_drop. pose proof (literal_le fmt).
      assert (literal fmt <> 0)%nat as Hl; [|lia]. intros E0. rewrite E0, drop_0 in El. simpl in El.
      apply Z.eqb_eq in El. contradiction.
    - destruct (skip_flags (drop 1 fmt) 0) as [f s] eqn:Ef. pose proof (skip_flags_length (drop 1 fmt) 0) as Hf.
      rewrite Ef, length_drop in Hf. simpl in Hf. destruct (isdigit (chr s 0)).
      + destruct (skip_atoi s 0) as [w s'] eqn:Ea. pose proof (skip_atoi_length s 0) as Ha. rewrite Ea in Ha. simpl in Ha.
        apply Hprec. lia.
      + destruct (Z.eqb_spec (chr s 0) 42) as [E42 | _]; [|apply Hprec; lia].
        unfold format_measure. simpl. rewrite length_drop. pose proof (chr_pos s 42 E42 ltac:(lia)). lia. }
  destruct (waiting spec.(type)) eqn:Hw; [|specialize (Hnorm eq_refl); lia].
  unfold format_decode. destruct spec.(type); try discriminate Hw; cbv zeta.
  - match goal with |- context [decode_precision fmt ?sp] => destruct (decode_precision_length fmt sp) as [H1 H2];
      set (r := decode_precision fmt sp) in * end. clearbody r.
    unfold format_measure. destruct (waiting r.1.(type)); [specialize (H2 eq_refl)|]; lia.
  - match goal with |- context [decode_qualifier fmt ?sp] => destruct (decode_qualifier_length fmt sp) as [H1 H2] end.
    unfold format_measure. rewrite H2. lia.
Qed.

Section proofs.

Context (cstr_at : Z -> list Z) (buf : Z).

(** The text a format stands for, without a buffer: [out] is what has been
    produced so far. *)
Definition produce (a : action) (out : list Z) (ns : list (Z * Z)) : list Z * list (Z * Z) :=
  match a with
  | Copy cs | Emit cs => (out ++ cs, ns)
  | Count addr => (out, ns ++ count_bytes addr (Z.of_nat (length out)))
  | Nothing => (out, ns)
  end.

Fixpoint render (fuel : nat) (spec : printf_spec) (fmt args out : list Z) (ns : list (Z * Z))
    : vres (list Z * list (Z * Z)) :=
  match fuel with
  | O => VFuel
  | S fuel =>
      if chr fmt 0 =? 0 then VOk (out, ns)
      else
        let '(spec, rest) := format_decode fmt spec in
        let read := take (length fmt - length rest) fmt in
        r ← convert cstr_at spec read rest args;
        let '(a, spec, fmt, args) := r in
        let '(out, ns) := produce a out ns in
        render fuel spec fmt args out ns
  end.

Lemma convert_measure (spec spec' : printf_spec) (read fmt fmt' args args' : list Z) (a : action) :
  convert cstr_at spec read fmt args = VOk (a, spec', fmt', args') ->
  (format_measure spec' fmt' <= format_measure spec fmt)%nat.
Proof.
  intros E. assert (spec'.(type) = spec.(type) /\ (length fmt' <= length fmt)%nat) as [Ht Hl].
  { revert E. unfold convert, mbind, vres_bind. pose proof (skip_alnum_length fmt).
    destruct spec.(type) eqn:Et; intros E; repeat case_match; simplify_eq; simpl; auto. }
  unfold format_measure. rewrite Ht. lia.
Qed.

Lemma vbind_fuel {A B : Type} (m : vres A) (k : A -> vres B) :
  m <> VFuel -> (forall a, k a <> VFuel) -> (m ≫= k) <> VFuel.
Proof. intros Hm Hk. destruct m; simpl; try discriminate; [apply Hk | contradiction]. Qed.

Lemma convert_fuel (spec : printf_spec) (read fmt args : list Z) : convert cstr_at spec read fmt args <> VFuel.
Proof.
  assert (forall n, put_dec n <> VFuel) as Hp by (intros n; unfold put_dec; repeat case_match; discriminate).
  assert (forall n sp, number n sp <> VFuel) as Hn.
  { intros n sp. unfold number. cbv zeta.
    match goal with |- (let '(p, spec) := ?e in _) <> _ => destruct e as [[sg m] sp1] end.
    apply vbind_fuel; [repeat case_match; try discriminate; apply Hp|]. intros tmp.
    repeat match goal with |- (let '(_, _) := ?e in _) <> _ => destruct e end. discriminate. }
  assert (forall f p sp, pointer f p sp <> VFuel) as Hptr
    by (intros f p sp; unfold pointer; cbv zeta; case_match; [discriminate | apply Hn]).
  assert (forall t sg, va_num t sg args <> VFuel) as Hnum
    by (intros t sg; destruct t; destruct args as [| w [| w2 ?]]; discriminate).
  assert (va_word args <> VFuel) as Hw by (destruct args; discriminate).
  unfold convert. destruct spec.(type); try discriminate;
    (apply vbind_fuel; [auto | intros a; try discriminate; try (apply vbind_fuel; [auto | discriminate])]).
Qed.
Lemma perform_fuel (vend : Z) (a : action) (o : vout) : perform buf vend a o <> VFuel.
Proof.
  assert (forall cs b i, copy_to b i cs <> VFuel) as Hc
    by (induction cs as [| c cs IH]; intros b i; simpl; [discriminate|]; destruct (astore b i c); [apply IH | discriminate..]).
  assert (forall cs o, emits buf vend cs o <> VFuel) as He.
  { induction cs as [| c cs IH]; intros o'; simpl; [discriminate|]. apply vbind_fuel; [|exact IH].
    unfold emit. repeat case_match; discriminate. }
  destruct a; simpl; [|apply He|discriminate|discriminate]. apply vbind_fuel; [case_match; [apply Hc | discriminate] | discriminate].
Qed.

Lemma format_loop_fuel (vend : Z) (fuel : nat) :
  forall spec fmt args o, (format_measure spec fmt < fuel)%nat ->
  format_loop cstr_at buf fuel vend spec fmt args o <> VFuel.
Proof.
  induction fuel as [| fuel IH]; intros spec fmt args o Hf; [lia|]. cbn [format_loop].
  destruct (Z.eqb_spec (chr fmt 0) 0) as [_ | Hne]; [discriminate|].
  pose proof (format_decode_measure fmt spec Hne) as Hm. destruct (format_decode fmt spec) as [spec1 rest]. cbn [fst snd] in Hm.
  destruct (convert cstr_at spec1 (take (length fmt - length rest) fmt) rest args) as [[[[a spec2] fmt2] args2] | | |] eqn:Ec;
    simpl; try discriminate; [|apply convert_fuel in Ec; destruct Ec].
  apply convert_measure in Ec. apply vbind_fuel; [apply perform_fuel|]. intros o'. apply IH. lia.
Qed.

(** C23: formatting always ends or reaches a number of ten digits: whatever the
    format, the arguments and the buffer, the loop of [vsnprintf] takes at most
    two turns per character of the format plus a constant ([format_fuel]). *)
Theorem vsnprintf_terminates (b : list Z) (size : Z) (fmt args : list Z) :
  vsnprintf cstr_at buf b size fmt args <> VFuel.
Proof.
  unfold vsnprintf. case_match; [discriminate|]. cbv zeta.
  match goal with |- (let '(_, _) := ?e in _) <> _ => destruct e as [vend size'] end.
  apply vbind_fuel; [apply format_loop_fuel; unfold format_measure, format_fuel; simpl; lia|].
  intros o. apply vbind_fuel; [|discriminate]. destruct (0 <? size'); [|discriminate]. simpl.
  destruct (astore _ _ _); discriminate.
Qed.

(** ** Output within the buffer *)

Context (b : list Z).

Abbreviation size := (Z.of_nat (length b)).
Abbreviation vend := (buf + size).

(** The buffer holds the part of [out] that fits. *)
Definition holds (out : list Z) (ns : list (Z * Z)) (o : vout) : Prop :=
  o.(str) = buf + Z.of_nat (length out) /\ o.(nstores) = ns /\ o.(obuf) = splice 0 (take (length b) out) b.

Hypothesis Hbuf : 0 <= buf.

Lemma holds_obuf_length (out : list Z) (ns : list (Z * Z)) (o : vout) : holds out ns o -> length o.(obuf) = length b.
Proof. intros (_ & _ & ->). apply splice_length. rewrite length_take. lia. Qed.

Lemma copy_to_run (cs : list Z) : forall (l : list Z) (i : nat),
  (i + length cs <= length l)%nat -> copy_to l (Z.of_nat i) cs = VOk (splice i cs l).
Proof.
  induction cs as [| c cs IH]; intros l i Hl; simpl; [rewrite splice_nil; reflexivity|]. simpl in Hl.
  rewrite (proj2 (astore_ok l (<[i := c]> l) (Z.of_nat i) c)) by (rewrite Nat2Z.id; split; [lia | reflexivity]).
  replace (Z.of_nat i + 1) with (Z.of_nat (i + 1)) by lia.
  rewrite IH by (rewrite length_insert; lia). rewrite insert_take_drop by lia.
  change (take i l ++ c :: drop (Datatypes.S i) l) with (take i l ++ [c] ++ drop (Datatypes.S i) l).
  replace (take i l ++ [c] ++ drop (Datatypes.S i) l) with (splice i [c] l) by (unfold splice; simpl; rewrite Nat.add_1_r; reflexivity).
  change (i + 1)%nat with (i + length [c])%nat. rewrite (splice_splice i [c] cs l) by (simpl; lia). reflexivity.
Qed.

(** Appending to what has been produced. *)
Lemma holds_app (out cs : list Z) (ns : list (Z * Z)) (o : vout) :
  holds out ns o -> o.(str) < vend ->
  splice (length out) (take (length b - length out) cs) o.(obuf) = splice 0 (take (length b) (out ++ cs)) b.
Proof.
  intros (Hs & _ & ->) Hlt. assert (length out < length b)%nat as Hl by lia. rewrite (take_ge out) by lia.
  change (length out) with (0 + length out)%nat at 1. rewrite (splice_splice 0 out) by lia.
  f_equal. rewrite take_app, (take_ge out) by lia. reflexivity.
Qed.

Lemma emits_run (cs : list Z) : forall (out : list Z) (ns : list (Z * Z)) (o : vout),
  holds out ns o -> buf + Z.of_nat (length (out ++ cs)) < 2 ^ 32 ->
  exists o', emits buf vend cs o = VOk o' /\ holds (out ++ cs) ns o'.
Proof.
  induction cs as [| c cs IH]; intros out ns o Ho Hb; [rewrite app_nil_r in *; eauto|].
  assert (exists o1, emit buf vend c o = VOk o1 /\ holds (out ++ [c]) ns o1) as (o1 & E1 & H1).
  { pose proof (holds_obuf_length _ _ _ Ho) as Hlo. pose proof Ho as (Hs & Hn & Hob). rewrite length_app in Hb. simpl in Hb.
    assert (o.(str) +% 1 = buf + Z.of_nat (length (out ++ [c]))) as Hs1 by (rewrite Hs, length_app; simpl; word_lia).
    unfold emit. destruct (Z.ltb_spec o.(str) vend) as [Hlt | Hge].
    - pose proof (holds_app out [c] ns o Ho Hlt) as Ha.
      rewrite (proj2 (astore_ok o.(obuf) (<[length out := c]> o.(obuf)) (o.(str) - buf) c)).
      + eexists. split; [reflexivity|]. split_and!; simpl; auto. rewrite <- Ha.
        rewrite (take_ge [c]) by (simpl; lia). rewrite insert_take_drop by lia. unfold splice. simpl. rewrite Nat.add_1_r. reflexivity.
      + rewrite Hs. split; [lia|]. f_equal. lia.
    - eexists. split; [reflexivity|]. split_and!; simpl; auto. rewrite Hob. f_equal. rewrite take_app_le by lia. reflexivity. }
  cbn [emits]. rewrite E1. simpl. replace (out ++ c :: cs) with ((out ++ [c]) ++ cs) in * by (rewrite <- app_assoc; reflexivity).
  apply (IH (out ++ [c]) ns o1); auto.
Qed.

(** No byte of a [%n] store lies in the buffer. *)
Definition outside (ns : list (Z * Z)) : Prop := Forall (fun x => ~ buf <= x.1 < vend) ns.

Lemma pokes_outside (l : list (Z * Z)) : forall (out : list Z) (ns : list (Z * Z)) (o : vout),
  holds out ns o -> outside l -> holds out (ns ++ l) (foldl (fun o x => poke buf o x.1 x.2) o l).
Proof.
  induction l as [| [a c] l IH]; intros out ns o Ho Hl; [rewrite app_nil_r; exact Ho|]. inversion Hl as [| ? ? Ha Hl']; subst.
  simpl in *. pose proof (holds_obuf_length _ _ _ Ho) as Hlo. replace (ns ++ (a, c) :: l) with ((ns ++ [(a, c)]) ++ l) by (rewrite <- app_assoc; reflexivity).
  apply IH; [|exact Hl']. unfold poke. rewrite Hlo. replace ((buf <=? a) && (a <? vend)) with false by lia.
  destruct Ho as (Hs & Hn & Hob). split_and!; simpl; congruence.
Qed.

Lemma perform_run (a : action) (out : list Z) (ns : list (Z * Z)) (o : vout) :
  holds out ns o -> outside (produce a out ns).2 -> buf + Z.of_nat (length (produce a out ns).1) < 2 ^ 32 ->
  exists o', perform buf vend a o = VOk o' /\ holds (produce a out ns).1 (produce a out ns).2 o'.
Proof.
  intros Ho Hout Hb. destruct a as [cs | cs | addr |]; cbn [produce perform fst snd] in *; [|apply emits_run; auto | | eauto].
  - pose proof (holds_obuf_length _ _ _ Ho) as Hlo. pose proof Ho as (Hs & Hn & Hob). rewrite length_app in Hb.
    assert (o.(str) +% Z.of_nat (length cs) = buf + Z.of_nat (length (out ++ cs))) as Hs1 by (rewrite Hs, length_app; word_lia).
    destruct (Z.ltb_spec o.(str) vend) as [Hlt | Hge].
    + replace (take (Z.to_nat (Z.min (Z.of_nat (length cs)) (vend - o.(str)))) cs) with (take (length b - length out) cs).
      * replace (o.(str) - buf) with (Z.of_nat (length out)) by lia.
        rewrite copy_to_run by (rewrite length_take; lia). simpl. eexists. split; [reflexivity|].
        split_and!; simpl; auto. apply (holds_app out cs ns o); auto.
      * destruct (le_lt_dec (length cs) (length b - length out)); [rewrite !take_ge by lia; reflexivity | f_equal; lia].
    + eexists. split; [reflexivity|]. split_and!; simpl; auto. rewrite Hob. f_equal. rewrite take_app_le by lia. reflexivity.
  - pose proof Ho as (Hs & Hn & Hob). eexists. split; [reflexivity|].
    replace (o.(str) -% buf) with (Z.of_nat (length out)) by word_lia.
    apply Forall_app in Hout as [_ Hout]. apply pokes_outside; auto.
Qed.

Lemma render_grows (fuel : nat) : forall spec fmt args out ns out' ns',
  render fuel spec fmt args out ns = VOk (out', ns') -> (length out <= length out')%nat /\ ns `prefix_of` ns'.
Proof.
  induction fuel as [| fuel IH]; intros spec fmt args out ns out' ns' E; [discriminate|]. cbn [render] in E.
  case_match; [simplify_eq; split; [lia | reflexivity]|]. destruct (format_decode fmt spec) as [sp rest].
  destruct (convert _ _ _ _ _) as [[[[a sp2] fmt2] args2] | | |]; simpl in E; try discriminate.
  destruct (produce a out ns) as [out1 ns1] eqn:Ep. apply IH in E as [E1 E2].
  destruct a; cbn [produce] in Ep; simplify_eq; rewrite ?length_app in E1; (split; [lia|]); auto.
  eapply prefix_app_l. exact E2.
Qed.

Lemma format_loop_run (fuel : nat) : forall spec fmt args out ns o out' ns',
  render fuel spec fmt args out ns = VOk (out', ns') -> outside ns' -> buf + Z.of_nat (length out') < 2 ^ 32 -> holds out ns o ->
  exists o', format_loop cstr_at buf fuel vend spec fmt args o = VOk o' /\ holds out' ns' o'.
Proof.
  induction fuel as [| fuel IH]; intros spec fmt args out ns o out' ns' E Hout Hb Ho; [discriminate|]. cbn [render format_loop] in *.
  case_match; [simplify_eq; eauto|]. destruct (format_decode fmt spec) as [sp rest].
  destruct (convert _ _ _ _ _) as [[[[a sp2] fmt2] args2] | | |]; simpl in E |- *; try discriminate.
  destruct (produce a out ns) as [out1 ns1] eqn:Ep. pose proof (render_grows _ _ _ _ _ _ _ _ E) as [Hg [ns2 Hp]].
  destruct (perform_run a out ns o Ho) as (o1 & E1 & H1);
    [rewrite Ep; simpl; subst ns'; apply Forall_app in Hout; apply Hout | rewrite Ep; simpl; lia|]. rewrite Ep in H1. simpl in H1.
  rewrite E1. simpl. eapply IH; eauto.
Qed.

Lemma terminate_splice (out : list Z) :
  (0 < length b)%nat ->
  splice (length (take (length b - 1) out)) [0] (splice 0 (take (length b) out) b) =
  splice 0 (take (length b - 1) out ++ [0]) b.
Proof.
  intros Hb. destruct (le_lt_dec (length b) (length out)) as [Hge | Hlt].
  - unfold splice. rewrite !length_take, !length_app, length_take. simpl. rewrite !drop_ge by (rewrite ?length_app, ?length_take; simpl; rewrite ?length_drop; lia).
    rewrite take_app_le, take_take by (rewrite length_take; lia). rewrite !app_nil_r.
    f_equal. f_equal. lia.
  - rewrite !take_ge by lia. apply (splice_splice 0 out [0]). lia.
Qed.


End proofs.

(** ["%u: %5d|%n%s"] applied to 7, -42, an address and the string "abc" at 4096. *)
Definition example_fmt : list Z := [37; 117; 58; 32; 37; 53; 100; 124; 37; 110; 37; 115].
Definition example_str (a : Z) : list Z := if a =? 4096 then [97; 98; 99] else [].


(** A [%n] whose argument points into the buffer changes the text already there. *)
Lemma count_into_buffer :
  exists o, vsnprintf example_str 8192 (repeat 1 9) 9 [97; 98; 99; 37; 110] [8192] = VOk (3, o) /\
    o.(obuf) = [3; 0; 0; 0; 1; 1; 1; 1; 1].
Proof. eexists. split; vm_compute; reflexivity. Qed.
