(* ===== verification/Cstring.v ===== *)
(** * The string library (lib/string.c)

    Memory is a map from addresses to bytes; an access to an address that is not
    in it is a [Fault].  A [char] is signed, so a byte read as [char] is the
    two's complement reading of it; [memchr] and its relatives read bytes.
    Objects do not wrap around the end of the address space, so pointers are
    incremented as integers.  A loop that has no counter of its own reads a new
    address in every turn, so one turn more than there are mapped addresses is
    enough for it to end or fault.  A null result is address 0. *)

From S2P Require Import Prelude.

Abbreviation mem := (gmap Z Z).

Definition ld (m : mem) (a : Z) : res Z :=
  match m !! a with
  | Some b => Ok b
  | None => Fault
  end.

Definition ldc (m : mem) (a : Z) : res Z := do b <- ld m a; Ok (s8 b).

Definition sto (m : mem) (a c : Z) : res mem :=
  match m !! a with
  | Some _ => Ok (<[a := u8 c]> m)
  | None => Fault
  end.

(** Turns for a loop without a counter. *)
Definition turns (m : mem) : nat := S (size m).

(** ** Blocks of memory *)

Fixpoint atoi_loop (k : nat) (m : mem) (nptr n : Z) : res Z :=
  match k with
  | O => Fault
  | S k =>
      do c <- ldc m nptr;
      if c =? 0 then Ok n else atoi_loop k m (nptr + 1) (s32 (s32 (n * 10) + (c - 48)))
  end.

Definition atoi (m : mem) (nptr : Z) : res Z := atoi_loop (turns m) m nptr 0.

Fixpoint memcmp_loop (n : nat) (m : mem) (c1 c2 : Z) : res Z :=
  match n with
  | O => Ok 0
  | S n =>
      do x <- ldc m c1;
      do y <- ldc m c2;
      if negb (x =? y) then Ok (x - y) else memcmp_loop n m (c1 + 1) (c2 + 1)
  end.

Definition memcmp (m : mem) (s1 s2 n : Z) : res Z := memcmp_loop (Z.to_nat n) m s1 s2.

Fixpoint memcpy_loop (n : nat) (m : mem) (d s : Z) : res mem :=
  match n with
  | O => Ok m
  | S n =>
      do c <- ldc m s;
      do m <- sto m d c;
      memcpy_loop n m (d + 1) (s + 1)
  end.

Definition memcpy (m : mem) (dest src n : Z) : res mem := memcpy_loop (Z.to_nat n) m dest src.

Fixpoint memset_loop (n : nat) (m : mem) (d c : Z) : res mem :=
  match n with
  | O => Ok m
  | S n => do m <- sto m d c; memset_loop n m (d + 1) c
  end.

Definition memset (m : mem) (s c n : Z) : res mem := memset_loop (Z.to_nat n) m s (s8 c).

Fixpoint memchr_loop (n : nat) (m : mem) (p c : Z) : res Z :=
  match n with
  | O => Ok 0
  | S n => do b <- ld m p; if b =? c then Ok p else memchr_loop n m (p + 1) c
  end.

Definition memchr (m : mem) (s c n : Z) : res Z := memchr_loop (Z.to_nat n) m s c.

(** The index is a [size_t]: it starts at 2^32 - 1 when [n] is 0. *)
Fixpoint memrchr_loop (k : nat) (m : mem) (p c i : Z) : res Z :=
  match k with
  | O => Fault
  | S k =>
      if 0 <? i then do b <- ld m (p +% i); if b =? c then Ok (p +% i) else memrchr_loop k m p c (i - 1)
      else Ok 0
  end.

Definition memrchr (m : mem) (s c n : Z) : res Z := memrchr_loop (turns m) m s c (n -% 1).

Fixpoint rawmemchr_loop (k : nat) (m : mem) (p c : Z) : res Z :=
  match k with
  | O => Fault
  | S k => do b <- ld m p; if b =? c then Ok p else rawmemchr_loop k m (p + 1) c
  end.

Definition rawmemchr (m : mem) (s c : Z) : res Z := rawmemchr_loop (turns m) m s c.

(** ** Searching strings *)

Fixpoint strchr_loop (k : nat) (m : mem) (s c : Z) : res Z :=
  match k with
  | O => Fault
  | S k =>
      do x <- ldc m s;
      if x =? 0 then Ok 0 else if x =? c then Ok s else strchr_loop k m (s + 1) c
  end.

Definition strchr (m : mem) (s c : Z) : res Z := strchr_loop (turns m) m s c.

Fixpoint strrchr_loop (k : nat) (m : mem) (s c rc : Z) : res Z :=
  match k with
  | O => Fault
  | S k =>
      do x <- ldc m s;
      if x =? 0 then Ok rc else strrchr_loop k m (s + 1) c (if x =? c then s else rc)
  end.

Definition strrchr (m : mem) (s c : Z) : res Z := strrchr_loop (turns m) m s c 0.

Fixpoint strchrnul_loop (k : nat) (m : mem) (s c : Z) : res Z :=
  match k with
  | O => Fault
  | S k =>
      do x <- ldc m s;
      if negb (x =? 0) && negb (x =? c) then strchrnul_loop k m (s + 1) c else Ok s
  end.

Definition strchrnul (m : mem) (s c : Z) : res Z := strchrnul_loop (turns m) m s c.

Fixpoint strlen_loop (k : nat) (m : mem) (s i : Z) : res Z :=
  match k with
  | O => Fault
  | S k => do c <- ldc m (s + i); if c =? 0 then Ok i else strlen_loop k m s (i + 1)
  end.

Definition strlen (m : mem) (s : Z) : res Z := strlen_loop (turns m) m s 0.

Fixpoint strnlen_loop (k : nat) (m : mem) (s n i : Z) : res Z :=
  match k with
  | O => Fault
  | S k => do c <- ldc m (s + i); if negb (c =? 0) && (i <? n) then strnlen_loop k m s n (i + 1) else Ok i
  end.

Definition strnlen (m : mem) (s n : Z) : res Z := strnlen_loop (turns m) m s n 0.

(** The test [s != '\0'] is on the pointer. *)
Fixpoint strpbrk_loop (k : nat) (m : mem) (s accept : Z) : res Z :=
  match k with
  | O => Fault
  | S k =>
      if s =? 0 then Ok 0
      else do x <- ldc m s; do c <- strchr m accept x;
           if negb (c =? 0) then Ok s else strpbrk_loop k m (s + 1) accept
  end.

Definition strpbrk (m : mem) (s accept : Z) : res Z := strpbrk_loop (turns m) m s accept.

(** [strspn] stops at the first byte that is not in the set, [strcspn] at the
    first that is. *)
Fixpoint strspn_loop (k : nat) (m : mem) (s accept n : Z) : res Z :=
  match k with
  | O => Fault
  | S k =>
      do x <- ldc m s;
      if x =? 0 then Ok n
      else do c <- strchr m accept x; if c =? 0 then Ok n else strspn_loop k m (s + 1) accept (n + 1)
  end.

Definition strspn (m : mem) (s accept : Z) : res Z := strspn_loop (turns m) m s accept 0.

Fixpoint strcspn_loop (k : nat) (m : mem) (s reject n : Z) : res Z :=
  match k with
  | O => Fault
  | S k =>
      do x <- ldc m s;
      if x =? 0 then Ok n
      else do c <- strchr m reject x; if negb (c =? 0) then Ok n else strcspn_loop k m (s + 1) reject (n + 1)
  end.

Definition strcspn (m : mem) (s reject : Z) : res Z := strcspn_loop (turns m) m s reject 0.

(** ** Comparing *)

Fixpoint strcmp_loop (k : nat) (m : mem) (s1 s2 : Z) : res Z :=
  match k with
  | O => Fault
  | S k =>
      do x <- ldc m s1;
      do y <- ldc m s2;
      if negb (x =? y) then Ok (x - y) else if x =? 0 then Ok 0 else strcmp_loop k m (s1 + 1) (s2 + 1)
  end.

Definition strcmp (m : mem) (s1 s2 : Z) : res Z := strcmp_loop (turns m) m s1 s2.

Fixpoint strncmp_loop (n : nat) (m : mem) (s1 s2 : Z) : res Z :=
  match n with
  | O => Ok 0
  | S n =>
      do x <- ldc m s1;
      if x =? 0 then Ok 0
      else do y <- ldc m s2; if negb (x =? y) then Ok (x - y) else strncmp_loop n m (s1 + 1) (s2 + 1)
  end.

Definition strncmp (m : mem) (s1 s2 n : Z) : res Z := strncmp_loop (Z.to_nat n) m s1 s2.

(** ** Copying *)

(** The second loop of [strcat] and the store after it. *)
Fixpoint append_loop (k : nat) (m : mem) (dest src : Z) : res mem :=
  match k with
  | O => Fault
  | S k =>
      do c <- ldc m src;
      if c =? 0 then sto m dest 0
      else do m <- sto m dest c; append_loop k m (dest + 1) (src + 1)
  end.

Definition strcat (m : mem) (dest src : Z) : res mem :=
  do n <- strlen m dest;
  append_loop (turns m) m (dest + n) src.

Fixpoint appendn_loop (n : nat) (m : mem) (dest src : Z) : res mem :=
  match n with
  | O => sto m dest 0
  | S n =>
      do c <- ldc m src;
      if c =? 0 then sto m dest 0
      else do m <- sto m dest c; appendn_loop n m (dest + 1) (src + 1)
  end.

Definition strncat (m : mem) (dest src n : Z) : res mem :=
  do l <- strlen m dest;
  appendn_loop (Z.to_nat n) m (dest + l) src.

Definition strcpy (m : mem) (dest src : Z) : res mem := append_loop (turns m) m dest src.

Fixpoint strncpy_loop (n : nat) (m : mem) (dest src : Z) : res mem :=
  match n with
  | O => Ok m
  | S n' =>
      do c <- ldc m src;
      if c =? 0 then memset_loop n m dest 0
      else do m <- sto m dest c; strncpy_loop n' m (dest + 1) (src + 1)
  end.

Definition strncpy (m : mem) (dest src n : Z) : res mem := strncpy_loop (Z.to_nat n) m dest src.

(** ** Tokens *)

(** [telos_strtok]: the static pointer [tokp] goes in and out; the results are
    the token, the delimiter found, [tokp] and memory. *)
Fixpoint telos_strtok_loop (k : nat) (m : mem) (delim tokp i : Z) : res (Z * Z * Z * mem) :=
  match k with
  | O => Fault
  | S k =>
      do c <- ldc m (tokp + i);
      if c =? 0 then Ok (tokp, 0, tokp + i, m)
      else do f <- strchr m delim c;
           if negb (f =? 0) then do m <- sto m (tokp + i) 0; Ok (tokp, c, tokp + i + 1, m)
           else telos_strtok_loop k m delim tokp (i + 1)
  end.

Definition telos_strtok (m : mem) (str delim d tokp : Z) : res (Z * Z * Z * mem) :=
  let tokp := if negb (str =? 0) then str else tokp in
  do c <- ldc m tokp;
  if c =? 0 then Ok (0, d, tokp, m) else telos_strtok_loop (turns m) m delim tokp 0.

(** [for (spanp = delim; (sc = *spanp++) != 0;) if (c == sc) ...] *)
Fixpoint in_delim (k : nat) (m : mem) (c spanp : Z) : res bool :=
  match k with
  | O => Fault
  | S k =>
      do sc <- ldc m spanp;
      if sc =? 0 then Ok false else if c =? sc then Ok true else in_delim k m c (spanp + 1)
  end.

(** The loop at the label [cont]: the character after the delimiters, and the
    address after it. *)
Fixpoint skip_delim (k : nat) (m : mem) (s delim : Z) : res (Z * Z) :=
  match k with
  | O => Fault
  | S k =>
      do c <- ldc m s;
      do b <- in_delim (turns m) m c delim;
      if b then skip_delim k m (s + 1) delim else Ok (c, s + 1)
  end.

(** [do { if ((sc = *spanp++) == c) ... } while (sc != 0)]: the NUL of [delim]
    counts as a delimiter. *)
Fixpoint at_delim (k : nat) (m : mem) (c spanp : Z) : res bool :=
  match k with
  | O => Fault
  | S k =>
      do sc <- ldc m spanp;
      if sc =? c then Ok true else if sc =? 0 then Ok false else at_delim k m c (spanp + 1)
  end.

(** The loop over the token: [*last] and memory. *)
Fixpoint scan_token (k : nat) (m : mem) (s delim : Z) : res (Z * mem) :=
  match k with
  | O => Fault
  | S k =>
      do c <- ldc m s;
      do b <- at_delim (turns m) m c delim;
      if b then
        if c =? 0 then Ok (0, m) else do m <- sto m s 0; Ok (s + 1, m)
      else scan_token k m (s + 1) delim
  end.

(** The token, [*last] and memory. *)
Definition strtok_r (m : mem) (s delim last : Z) : res (Z * Z * mem) :=
  if (s =? 0) && (last =? 0) then Ok (0, last, m)
  else
    let s := if s =? 0 then last else s in
    do '(c, s) <- skip_delim (turns m) m s delim;
    if c =? 0 then Ok (0, 0, m)
    else
      let tok := s - 1 in
      do '(last, m) <- scan_token (turns m) m s delim;
      Ok (tok, last, m).

(** [strtok] keeps [last] in a static variable. *)
Definition strtok (m : mem) (s delim last : Z) : res (Z * Z * mem) := strtok_r m s delim last.

(** * Proofs *)

(** A NUL-terminated string with the bytes [l] at [s]. *)
Fixpoint cstr (m : mem) (s : Z) (l : list Z) : Prop :=
  match l with
  | [] => m !! s = Some 0
  | c :: l => m !! s = Some c /\ 0 < c < 256 /\ cstr m (s + 1) l
  end.

Lemma cstr_mapped (m : mem) (l : list Z) : forall s a,
  cstr m s l -> s <= a <= s + Z.of_nat (length l) -> is_Some (m !! a).
Proof.
  induction l as [| c l IH]; intros s a Hs Ha; simpl in *; [replace a with s by lia; eauto|].
  destruct Hs as (Hs & _ & Hl). destruct (Z.eq_dec a s) as [-> |]; [eauto|]. apply (IH (s + 1)); [exact Hl | lia].
Qed.

Lemma cstr_turns (m : mem) (s : Z) (l : list Z) : cstr m s l -> (length l < turns m)%nat.
Proof.
  intros Hs. unfold turns. apply Nat.lt_succ_r. rewrite <- size_dom.
  transitivity (size (list_to_set (zseq s (length l)) : gset Z)).
  - rewrite size_list_to_set by apply zseq_NoDup. unfold zseq. rewrite length_fmap, length_seq. lia.
  - apply subseteq_size. intros a Ha. apply elem_of_list_to_set, elem_of_zseq in Ha.
    apply elem_of_dom, (cstr_mapped m l s a Hs). lia.
Qed.

#[local] Opaque turns.

Lemma cstr_agree (m m' : mem) (l : list Z) : forall s,
  (forall a, s <= a <= s + Z.of_nat (length l) -> m' !! a = m !! a) -> cstr m s l -> cstr m' s l.
Proof.
  induction l as [| c l IH]; intros s Ha Hs; simpl in *; [rewrite Ha by lia; exact Hs|].
  destruct Hs as (Hs & Hc & Hl). split_and!; [rewrite Ha by lia; exact Hs | lia | lia |].
  apply IH; [intros a Ha'; apply Ha; lia | exact Hl].
Qed.

Lemma cstr_app (m : mem) (p l : list Z) : forall s, cstr m s (p ++ l) -> cstr m (s + Z.of_nat (length p)) l.
Proof.
  induction p as [| c p IH]; intros s H; simpl in *; [rewrite Z.add_0_r; exact H|].
  destruct H as (_ & _ & H). apply IH in H. replace (s + Z.of_nat (S (length p))) with (s + 1 + Z.of_nat (length p)) by lia. exact H.
Qed.

(** The bytes before an address where a NUL is stored are a string. *)
Lemma cstr_cut (m : mem) (t l : list Z) : forall s,
  cstr m s (t ++ l) -> cstr (<[s + Z.of_nat (length t) := 0]> m) s t.
Proof.
  induction t as [| c t IH]; intros s H; simpl in *.
  - rewrite Z.add_0_r. apply lookup_insert_eq.
  - destruct H as (Hs & Hc & H). split_and!; [rewrite lookup_insert_ne by lia; exact Hs | lia | lia |].
    replace (s + Z.of_nat (S (length t))) with (s + 1 + Z.of_nat (length t)) by lia. apply IH, H.
Qed.

Lemma cstr_range (m : mem) (l : list Z) : forall s, cstr m s l -> Forall (fun c => 0 < c < 256) l.
Proof.
  induction l as [| c l IH]; intros s Hs; constructor; simpl in Hs; destruct_and!; [lia | eauto].
Qed.

Lemma s8_eqb (a b : Z) : 0 <= a < 256 -> 0 <= b < 256 -> (s8 a =? s8 b) = (a =? b).
Proof.
  intros Ha Hb. unfold sN, uN. change (2 ^ 8) with 256. change (2 ^ (8 - 1)) with 128.
  rewrite !Z.mod_small by lia. destruct (Z.ltb_spec a 128), (Z.ltb_spec b 128);
    match goal with |- (?x =? ?y) = _ => destruct (Z.eqb_spec x y), (Z.eqb_spec a b); lia || reflexivity end.
Qed.

Lemma s8_zero (a : Z) : 0 <= a < 256 -> (s8 a =? 0) = (a =? 0).
Proof. intros Ha. apply (s8_eqb a 0); lia. Qed.

Lemma ldc_ok (m : mem) (a c : Z) : m !! a = Some c -> ldc m a = Ok (s8 c).
Proof. intros H. unfold ldc, ld. rewrite H. reflexivity. Qed.

(** ** strlen and strcmp *)

Lemma strlen_cstr (m : mem) (s : Z) (l : list Z) : cstr m s l -> strlen m s = Ok (Z.of_nat (length l)).
Proof.
  intros Hs. unfold strlen. pose proof (cstr_turns m s l Hs) as Hk. revert Hk. generalize (turns m).
  enough (forall k i, cstr m (s + i) l -> (length l < k)%nat -> strlen_loop k m s i = Ok (i + Z.of_nat (length l))) as H
    by (intros k Hk; apply (H k 0); [rewrite Z.add_0_r; exact Hs | exact Hk]).
  clear Hs. induction l as [| c l IH]; intros [| k] i Hs Hk; simpl in *; try lia.
  - rewrite (ldc_ok _ _ _ Hs). simpl. f_equal. lia.
  - destruct Hs as (Hs & Hc & Hl). rewrite (ldc_ok _ _ _ Hs). simpl. rewrite s8_zero, (proj2 (Z.eqb_neq c 0)) by lia.
    rewrite IH; [f_equal; lia | | lia]. replace (s + (i + 1)) with (s + i + 1) by lia. exact Hl.
Qed.

(** Order of strings as lists of signed characters. *)
Fixpoint lex_lt (l1 l2 : list Z) : bool :=
  match l1, l2 with
  | [], c :: _ => 0 <? s8 c
  | c :: _, [] => s8 c <? 0
  | c1 :: l1, c2 :: l2 => if c1 =? c2 then lex_lt l1 l2 else s8 c1 <? s8 c2
  | [], [] => false
  end.

(** [strcmp] of two strings returns, without leaving them: zero exactly when
    they are equal, and a negative number exactly when the first comes before
    the second in the order of their characters (which are signed). *)
Theorem strcmp_order (m : mem) (s1 s2 : Z) (l1 l2 : list Z) :
  cstr m s1 l1 -> cstr m s2 l2 ->
  exists r, strcmp m s1 s2 = Ok r /\ (r = 0 <-> l1 = l2) /\ (r < 0 <-> lex_lt l1 l2 = true).
Proof.
  intros H1 H2. unfold strcmp. pose proof (cstr_turns m s1 l1 H1) as Hk. revert Hk. generalize (turns m).
  revert s1 s2 l2 H1 H2. induction l1 as [| c1 l1 IH]; intros s1 s2 l2 H1 H2 [| k] Hk; simpl in Hk; try lia; simpl.
  - rewrite (ldc_ok _ _ _ H1). cbn [res_bind]. change (s8 0) with 0. destruct l2 as [| c2 l2]; simpl in H2.
    + rewrite (ldc_ok _ _ _ H2). simpl. exists 0. split_and!; [reflexivity | tauto | split; [lia | discriminate]].
    + destruct H2 as (H2 & Hc & _). rewrite (ldc_ok _ _ _ H2). cbn [res_bind].
      pose proof (s8_zero c2 ltac:(lia)) as Hz. rewrite (proj2 (Z.eqb_neq c2 0)) in Hz by lia. apply Z.eqb_neq in Hz.
      rewrite (proj2 (Z.eqb_neq 0 (s8 c2))) by lia. eexists.
      split_and!; [reflexivity | split; [lia | discriminate] | rewrite Z.ltb_lt; lia].
  - destruct H1 as (H1 & Hc1 & Hl1). rewrite (ldc_ok _ _ _ H1). cbn [res_bind].
    pose proof (s8_zero c1 ltac:(lia)) as Hz. rewrite (proj2 (Z.eqb_neq c1 0)) in Hz by lia. pose proof (proj1 (Z.eqb_neq _ _) Hz).
    destruct l2 as [| c2 l2]; simpl in H2.
    + rewrite (ldc_ok _ _ _ H2). cbn [res_bind]. change (s8 0) with 0. rewrite Hz. simpl. eexists.
      split_and!; [reflexivity | split; [lia | discriminate] | rewrite Z.ltb_lt; lia].
    + destruct H2 as (H2 & Hc2 & Hl2). rewrite (ldc_ok _ _ _ H2). cbn [res_bind]. rewrite s8_eqb by lia.
      destruct (Z.eqb_spec c1 c2) as [-> | Hne]; simpl.
      * rewrite Hz. destruct (IH (s1 + 1) (s2 + 1) l2 Hl1 Hl2 k ltac:(lia)) as (r & -> & Hr0 & Hr1).
        exists r. split_and!; [reflexivity | rewrite Hr0; split; [intros ->; reflexivity | intros [=]; assumption] | exact Hr1].
      * pose proof (s8_eqb c1 c2 ltac:(lia) ltac:(lia)) as He. rewrite (proj2 (Z.eqb_neq c1 c2) Hne) in He. apply Z.eqb_neq in He.
        eexists. split_and!; [reflexivity | split; [lia | intros [=]; lia] | rewrite Z.ltb_lt; lia].
Qed.

(** "ab" at 100 and "ac" at 200. *)
Definition example_mem : mem := list_to_map [(100, 97); (101, 98); (102, 0); (200, 97); (201, 99); (202, 0)].

Lemma strcmp_order_witness :
  exists r, strcmp example_mem 100 200 = Ok r /\ (r = 0 <-> [97; 98] = [97; 99]) /\ (r < 0 <-> lex_lt [97; 98] [97; 99] = true).
Proof. apply (strcmp_order example_mem 100 200 [97; 98] [97; 99]); vm_compute; intuition congruence. Defined.

(** ** Tokens *)

(** The pieces of [l] between members of [d], and the non-empty ones. *)
Fixpoint split (d l : list Z) : list (list Z) :=
  match l with
  | [] => [[]]
  | c :: l =>
      if bool_decide (c ∈ d) then [] :: split d l
      else match split d l with
           | t :: ts => (c :: t) :: ts
           | [] => [[c]]
           end
  end.

Definition tokens (d l : list Z) : list (list Z) := filter (fun t => t <> []) (split d l).

Lemma in_delim_cstr (m : mem) (c : Z) (d : list Z) : forall k s,
  0 <= c < 256 -> cstr m s d -> (length d < k)%nat -> in_delim k m (s8 c) s = Ok (bool_decide (c ∈ d)).
Proof.
  induction d as [| x d IH]; intros [| k] s Hc Hs Hk; simpl in *; try lia.
  - rewrite (ldc_ok _ _ _ Hs). reflexivity.
  - destruct Hs as (Hs & Hx & Hd). rewrite (ldc_ok _ _ _ Hs). cbn [res_bind]. rewrite s8_zero, s8_eqb, (proj2 (Z.eqb_neq x 0)) by lia.
    destruct (Z.eqb_spec c x) as [-> | Hne]; [f_equal; symmetry; apply bool_decide_eq_true; left|].
    rewrite IH by (auto; lia). f_equal. apply bool_decide_ext. rewrite elem_of_cons. tauto.
Qed.

Lemma at_delim_cstr (m : mem) (c : Z) (d : list Z) : forall k s,
  0 <= c < 256 -> cstr m s d -> (length d < k)%nat -> at_delim k m (s8 c) s = Ok (bool_decide (c = 0 \/ c ∈ d)).
Proof.
  induction d as [| x d IH]; intros [| k] s Hc Hs Hk; simpl in *; try lia.
  - rewrite (ldc_ok _ _ _ Hs). cbn [res_bind]. change (s8 0) with 0. rewrite Z.eqb_sym, s8_zero by lia.
    destruct (Z.eqb_spec c 0); f_equal; symmetry; [apply bool_decide_eq_true; auto|].
    apply bool_decide_eq_false. rewrite elem_of_nil. tauto.
  - destruct Hs as (Hs & Hx & Hd). rewrite (ldc_ok _ _ _ Hs). cbn [res_bind]. rewrite s8_zero, s8_eqb, (proj2 (Z.eqb_neq x 0)) by lia.
    destruct (Z.eqb_spec x c) as [-> | Hne]; [f_equal; symmetry; apply bool_decide_eq_true; right; left|].
    rewrite IH by (auto; lia). f_equal. apply bool_decide_ext. rewrite elem_of_cons. intuition congruence.
Qed.

Section tokens.

Context (m : mem) (delim : Z) (d : list Z).
Hypothesis Hd : cstr m delim d.

(** After the delimiters [p]: the end of the string, or the token's first
    character. *)
Lemma skip_delim_run (l : list Z) : forall k s, cstr m s l -> (length l < k)%nat ->
  exists p l', l = p ++ l' /\ Forall (.∈ d) p /\
    match l' with
    | [] => skip_delim k m s delim = Ok (0, s + Z.of_nat (length p) + 1)
    | c :: _ => c ∉ d /\ 0 < c < 256 /\ skip_delim k m s delim = Ok (s8 c, s + Z.of_nat (length p) + 1)
    end.
Proof.
  induction l as [| c l IH]; intros [| k] s Hs Hk; simpl in *; try lia.
  - exists [], []. split; [reflexivity|]. split; [apply Forall_nil_2|]. rewrite (ldc_ok _ _ _ Hs). cbn [res_bind].
    rewrite (in_delim_cstr m 0 d _ _ ltac:(lia) Hd (cstr_turns _ _ _ Hd)), bool_decide_false; [simpl; do 2 f_equal; lia|].
    intros H0. pose proof (cstr_range _ _ _ Hd) as Hr. rewrite Forall_forall in Hr. apply Hr in H0. lia.
  - destruct Hs as (Hs & Hc & Hl). rewrite (ldc_ok _ _ _ Hs). cbn [res_bind].
    rewrite (in_delim_cstr m c d _ _ ltac:(lia) Hd (cstr_turns _ _ _ Hd)). cbn [res_bind].
    destruct (decide (c ∈ d)) as [Hin | Hin].
    + rewrite bool_decide_true by exact Hin. destruct (IH k (s + 1) Hl ltac:(lia)) as (p & l' & -> & Hp & Hr).
      exists (c :: p), l'. split_and!; [reflexivity | constructor; auto |].
      replace (s + Z.of_nat (length (c :: p)) + 1) with (s + 1 + Z.of_nat (length p) + 1) by (simpl; lia). exact Hr.
    + rewrite bool_decide_false by exact Hin. exists [], (c :: l). split; [reflexivity|]. split; [apply Forall_nil_2|].
      split_and!; [exact Hin | lia | lia | f_equal; f_equal; simpl; lia].
Qed.

Lemma scan_token_run (l : list Z) : forall k s, cstr m s l -> (length l < k)%nat ->
  exists t r, l = t ++ r /\ Forall (.∉ d) t /\
    match r with
    | [] => scan_token k m s delim = Ok (0, m)
    | c :: _ => c ∈ d /\ scan_token k m s delim = Ok (s + Z.of_nat (length t) + 1, <[s + Z.of_nat (length t) := 0]> m)
    end.
Proof.
  induction l as [| c l IH]; intros [| k] s Hs Hk; simpl in *; try lia.
  - exists [], []. split; [reflexivity|]. split; [apply Forall_nil_2|]. rewrite (ldc_ok _ _ _ Hs). cbn [res_bind].
    rewrite (at_delim_cstr m 0 d _ _ ltac:(lia) Hd (cstr_turns _ _ _ Hd)), bool_decide_true by auto. reflexivity.
  - destruct Hs as (Hs & Hc & Hl). rewrite (ldc_ok _ _ _ Hs). cbn [res_bind].
    rewrite (at_delim_cstr m c d _ _ ltac:(lia) Hd (cstr_turns _ _ _ Hd)). cbn [res_bind].
    destruct (decide (c ∈ d)) as [Hin | Hin].
    + rewrite bool_decide_true, s8_zero, (proj2 (Z.eqb_neq c 0)) by (auto; lia). exists [], (c :: l). split; [reflexivity|]. split; [apply Forall_nil_2|].
      split; [exact Hin|]. unfold sto. rewrite Hs. cbn [res_bind length]. rewrite Z.add_0_r. reflexivity.
    + rewrite bool_decide_false by (intros [|]; [lia | auto]). destruct (IH k (s + 1) Hl ltac:(lia)) as (t & r & -> & Ht & Hr).
      exists (c :: t), r. split_and!; [reflexivity | constructor; auto |].
      replace (s + Z.of_nat (length (c :: t))) with (s + 1 + Z.of_nat (length t)) by (simpl; lia). exact Hr.
Qed.

(** One call: nothing left, or a token up to the end, or up to a delimiter. *)
Lemma strtok_r_run (l : list Z) (s : Z) : 0 < s -> cstr m s l ->
  exists p l', l = p ++ l' /\ Forall (.∈ d) p /\
    (l' = [] /\ strtok_r m 0 delim s = Ok (0, 0, m) \/
     exists t r, l' = t ++ r /\ t <> [] /\ Forall (.∉ d) t /\
       match r with
       | [] => strtok_r m 0 delim s = Ok (s + Z.of_nat (length p), 0, m)
       | c :: _ => c ∈ d /\ let e := s + Z.of_nat (length p) + Z.of_nat (length t) in
                   strtok_r m 0 delim s = Ok (s + Z.of_nat (length p), e + 1, <[e := 0]> m)
       end).
Proof.
  intros Hpos Hs. destruct (skip_delim_run l (turns m) s Hs (cstr_turns _ _ _ Hs)) as (p & l' & -> & Hp & Hr).
  exists p, l'. split; [reflexivity|]. split; [exact Hp|]. unfold strtok_r. simpl. rewrite (proj2 (Z.eqb_neq s 0)) by lia. simpl.
  apply cstr_app in Hs. destruct l' as [| c l']; [left; rewrite Hr; auto|]. right.
  destruct Hr as (Hc & Hc' & ->). cbn [res_bind]. rewrite s8_zero, (proj2 (Z.eqb_neq c 0)) by lia.
  pose proof (cstr_turns _ _ _ Hs) as Hk. simpl in Hk. destruct Hs as (_ & _ & Hs).
  destruct (scan_token_run l' (turns m) _ Hs ltac:(lia)) as (t & r & -> & Ht & Hr).
  exists (c :: t), r. split_and!; [reflexivity | discriminate | constructor; auto |].
  destruct r as [| x r].
  - rewrite Hr. cbn [res_bind]. do 3 f_equal. lia.
  - destruct Hr as (Hx & ->). split; [exact Hx|]. cbn [res_bind].
    replace (s + Z.of_nat (length p) + Z.of_nat (length (c :: t))) with (s + Z.of_nat (length p) + 1 + Z.of_nat (length t)) by (simpl; lia).
    do 3 f_equal. lia.
Qed.

End tokens.

Lemma split_cons (d l : list Z) : exists t ts, split d l = t :: ts.
Proof. destruct l as [| c l]; simpl; [eauto|]. repeat case_match; eauto. Qed.

Lemma tokens_skip (d p l : list Z) : Forall (.∈ d) p -> tokens d (p ++ l) = tokens d l.
Proof.
  induction 1 as [| c p Hc _ IH]; simpl; [reflexivity|]. unfold tokens in *. simpl.
  rewrite bool_decide_true by exact Hc. rewrite filter_cons_False by (intros H; apply H; reflexivity). exact IH.
Qed.

Lemma split_token (d t l : list Z) : Forall (.∉ d) t ->
  split d (t ++ l) = match split d l with u :: us => (t ++ u) :: us | [] => [t] end.
Proof.
  induction 1 as [| c t Hc _ IH]; simpl; [destruct (split_cons d l) as (u & us & ->); reflexivity|].
  rewrite bool_decide_false, IH by exact Hc. destruct (split_cons d l) as (u & us & ->). reflexivity.
Qed.

Lemma tokens_one (d t : list Z) : t <> [] -> Forall (.∉ d) t -> tokens d t = [t].
Proof.
  intros Hne Ht. unfold tokens. rewrite <- (app_nil_r t) at 1. rewrite split_token by exact Ht. simpl.
  rewrite app_nil_r, filter_cons_True by exact Hne. reflexivity.
Qed.

Lemma tokens_token (d t r : list Z) (c : Z) : t <> [] -> Forall (.∉ d) t -> c ∈ d ->
  tokens d (t ++ c :: r) = t :: tokens d r.
Proof.
  intros Hne Ht Hc. unfold tokens. rewrite split_token by exact Ht. simpl. rewrite bool_decide_true by exact Hc.
  rewrite app_nil_r, filter_cons_True by exact Hne. reflexivity.
Qed.

(** Calling [strtok] until it returns null, at most [n] times. *)
Fixpoint strtok_all (n : nat) (m : mem) (s delim last : Z) : res (list Z * mem) :=
  match n with
  | O => Ok ([], m)
  | S n =>
      do '(tok, last, m) <- strtok m s delim last;
      if tok =? 0 then Ok ([], m)
      else do '(toks, m) <- strtok_all n m 0 delim last; Ok (tok :: toks, m)
  end.

Lemma strtok_all_null (n : nat) (m : mem) (delim : Z) : strtok_all n m 0 delim 0 = Ok ([], m).
Proof. destruct n; reflexivity. Qed.

Definition apart (s : Z) (l : list Z) (s' : Z) (l' : list Z) : Prop :=
  s + Z.of_nat (length l) < s' \/ s' + Z.of_nat (length l') < s.

Lemma strtok_all_run (delim : Z) (d : list Z) (n : nat) : forall (m : mem) (s : Z) (l : list Z),
  0 < s -> cstr m s l -> cstr m delim d -> apart s l delim d -> (length l < n)%nat ->
  exists toks m', strtok_all n m 0 delim s = Ok (toks, m') /\ Forall2 (cstr m') toks (tokens d l) /\
    forall a, ~ s <= a <= s + Z.of_nat (length l) -> m' !! a = m !! a.
Proof.
  induction n as [| n IH]; intros m s l Hpos Hs Hd Hap Hn; [lia|]. cbn [strtok_all]. unfold strtok.
  destruct (strtok_r_run m delim d Hd l s Hpos Hs) as (p & l' & -> & Hp & Hr).
  rewrite tokens_skip by exact Hp. pose proof (cstr_app _ _ _ _ Hs) as Hs'. rewrite length_app in Hn |- *.
  destruct Hr as [(-> & ->) | (t & r & -> & Hne & Ht & Hr)].
  { simpl. exists [], m. split_and!; [reflexivity | constructor | reflexivity]. }
  destruct t as [| c0 t0] eqn:Et; [congruence|]. rewrite <- Et in *. assert (length t = S (length t0)) as Hlt by (rewrite Et; reflexivity). clear Et.
  rewrite length_app in Hn. destruct r as [| c r].
  - rewrite Hr. cbn [res_bind]. rewrite (proj2 (Z.eqb_neq _ _)), strtok_all_null by lia. cbn [res_bind].
    exists [s + Z.of_nat (length p)], m. split_and!; [reflexivity | | reflexivity].
    rewrite app_nil_r in *. rewrite tokens_one by auto. repeat constructor. exact Hs'.
  - destruct Hr as (Hc & Hr). cbv zeta in Hr. rewrite Hr. cbn [res_bind]. rewrite (proj2 (Z.eqb_neq _ _)) by lia.
    set (e := s + Z.of_nat (length p) + Z.of_nat (length t)) in *. simpl in Hn.
    unfold apart in Hap. rewrite !length_app in Hap. simpl in Hap.
    destruct (IH (<[e := 0]> m) (e + 1) r) as (toks & m' & -> & Htoks & Hm'); [lia | | | | lia |].
    + apply (cstr_agree m); [intros a Ha; apply lookup_insert_ne; lia|].
      pose proof (cstr_app _ _ _ _ Hs') as (_ & _ & Hs2). exact Hs2.
    + apply (cstr_agree m); [intros a Ha; apply lookup_insert_ne; lia | exact Hd].
    + unfold apart. lia.
    + cbn [res_bind]. exists ((s + Z.of_nat (length p)) :: toks), m'. split_and!; [reflexivity | |].
      * rewrite tokens_token by auto. constructor; [|exact Htoks].
        apply (cstr_agree (<[e := 0]> m)); [intros a Ha; apply Hm'; lia|]. apply (cstr_cut m t (c :: r)), Hs'.
      * intros a Ha. rewrite ?length_app in Ha. simpl in Ha. rewrite Hm' by lia. apply lookup_insert_ne. lia.
Qed.

(** C25: calling [strtok] on a string and then on null until it returns null
    yields, as NUL-terminated strings, exactly the longest pieces of the string
    that have no delimiter, in order, and touches no memory outside it. *)
Theorem strtok_tokens (m : mem) (s delim last : Z) (l d : list Z) (n : nat) :
  0 < s -> cstr m s l -> cstr m delim d -> apart s l delim d -> (length l < n)%nat ->
  exists toks m', strtok_all n m s delim last = Ok (toks, m') /\ Forall2 (cstr m') toks (tokens d l) /\
    forall a, ~ s <= a <= s + Z.of_nat (length l) -> m' !! a = m !! a.
Proof.
  intros Hpos Hs Hd Hap Hn. destruct (strtok_all_run delim d n m s l Hpos Hs Hd Hap Hn) as (toks & m' & E & H).
  exists toks, m'. split; [|exact H]. destruct n as [| n]; [lia|]. cbn [strtok_all] in *.
  replace (strtok m s delim last) with (strtok m 0 delim s); [exact E|].
  unfold strtok, strtok_r. rewrite (proj2 (Z.eqb_neq s 0)) by lia. reflexivity.
Qed.

(** "/ab//c" at 100 and "/" at 200. *)
Definition example_path : mem :=
  list_to_map [(100, 47); (101, 97); (102, 98); (103, 47); (104, 47); (105, 99); (106, 0); (200, 47); (201, 0)].

Lemma strtok_tokens_witness :
  exists toks m', strtok_all 7 example_path 100 200 0 = Ok (toks, m') /\
    Forall2 (cstr m') toks (tokens [47] [47; 97; 98; 47; 47; 99]) /\
    forall a, ~ 100 <= a <= 100 + 6 -> m' !! a = example_path !! a.
Proof.
  apply (strtok_tokens example_path 100 200 0 [47; 97; 98; 47; 47; 99] [47] 7);
    [lia | vm_compute; intuition congruence | vm_compute; intuition congruence | left; simpl; lia | simpl; lia].
Defined.

(** ** Where the code differs from its comments *)

#[local] Transparent turns.

(** [memrchr] does not look at the first byte. *)
Lemma memrchr_misses_first : memrchr (list_to_map [(100, 7); (101, 8)]) 100 7 2 = Ok 0.
Proof. reflexivity. Qed.

(** [strncmp] takes a string for equal to every longer one. *)
Lemma strncmp_prefix : strncmp (list_to_map [(100, 97); (101, 0); (200, 97); (201, 98); (202, 0)]) 100 200 10 = Ok 0.
Proof. reflexivity. Qed.

(** [strpbrk] runs past the end of a string that has none of the characters. *)
Lemma strpbrk_overruns : strpbrk (list_to_map [(100, 97); (101, 0); (200, 98); (201, 0)]) 100 200 = Fault.
Proof. reflexivity. Qed.
