(* ===== verification/Vfs.v ===== *)
(** * Inodes, files and super blocks (include/kernel/fs.h, fs/inode.c)

    The state of the file system layer is the environment of the kernel state of
    [Sched].  Pointers are addresses and 0 is [NULL]; a [struct super_block *] is
    one more than an index into [super_blocks].  A list linked through
    [struct list_head] is the list of the addresses of its members: [i_list]
    holds those of an inode and [flist] the open files.  The hash table of inodes
    maps a bucket number to the inodes of the bucket, most recent first.
    [fdata] is the private data of the file systems.

    The tables of operations are functions from pointers; calling an operation
    through a null table or a null entry is what the code tests for.  The slab
    caches are parameters that yield the address of a free object and the
    contents it happens to have. *)

From S2P Require Import Prelude Abi Bitops Vma Sched.

(** ** Constants *)

Definition MS_RDONLY : Z := 1.
Definition MS_NODEV : Z := 4.
Definition MS_REMOUNT : Z := 32.
Definition MS_MEMFS : Z := 64.
Definition MS_MOUNT_MASK : Z := 31.
Definition MS_RMT_MASK : Z := MS_RDONLY.

Definition MAY_EXEC : Z := 1.
Definition MAY_WRITE : Z := 2.

Definition S_IFMT : Z := 61440.
Definition S_IFREG : Z := 32768.
Definition S_IFBLK : Z := 24576.
Definition S_IFDIR : Z := 16384.
Definition S_IFCHR : Z := 8192.

Definition S_ISREG (m : Z) : bool := Z.land m S_IFMT =? S_IFREG.
Definition S_ISDIR (m : Z) : bool := Z.land m S_IFMT =? S_IFDIR.
Definition S_ISCHR (m : Z) : bool := Z.land m S_IFMT =? S_IFCHR.
Definition S_ISBLK (m : Z) : bool := Z.land m S_IFMT =? S_IFBLK.

Definition O_READ : Z := 1.
Definition O_WRITE : Z := 2.
Definition O_CREAT : Z := 64.
Definition O_EXCL : Z := 512.
Definition O_NONBLOCK : Z := 4096.

(** [0x8000 | O_WRONLY] *)
Definition O_TRUNC : Z := 32770.

Definition makedev (maj min : Z) : Z := Z.lor (Z.shiftl maj 8) (Z.land min 255).
Definition major (dev : Z) : Z := Z.shiftr dev 8.
Definition minor (dev : Z) : Z := Z.land dev 255.

(** [flags & mask] as a condition. *)
Definition flag_set (flags mask : Z) : bool := negb (Z.land flags mask =? 0).

(** ** Data *)

Record file : Type := File {
  f_inode : Z;
  f_mode : Z;
  f_rdev : Z;
  f_pos : Z;
  f_flags : Z;
  f_count : Z;
  f_private : Z;
  f_op : Z;
}.

Record inode : Type := Inode {
  i_list : list Z;
  i_ino : Z;
  i_mode : Z;
  i_nlink : Z;
  i_dev : Z;
  i_rdev : Z;
  i_size : Z;
  i_count : Z;
  i_flags : Z;
  i_dirt : bool;
  i_bio : Z;
  i_mount : Z;
  i_op : Z;
  i_sb : Z;
  i_private : Z;
}.

Record super_block : Type := SuperBlock {
  s_dev : Z;
  s_flags : Z;
  s_dirt : Z;
  s_mounted : Z;
  s_covered : Z;
  s_op : Z;
  s_private : Z;
}.

(** include/telos/dirent.h *)
Record dirent : Type := Dirent {
  d_ino : Z;
  d_off : Z;
  d_name : list Z;
}.

(** The static variables of devices.c, filesystems.c and super.c. *)
Record device_struct : Type := Device {
  dev_name : list Z;
  dev_fops : Z;
}.

Record file_system_type : Type := FsType {
  fs_read_super : Z;
  fs_name : list Z;
  requires_dev : bool;
}.

Record statics : Type := Statics {
  chrdevs : list device_struct;
  blkdevs : list device_struct;
  file_systems : list file_system_type;
  unnamed_dev_in_use : list Z;
  first_use : bool;
  root_inode : Z;
}.

Record vfs (P : Type) : Type := Vfs {
  inodes : gmap Z inode;
  ihash : gmap Z (list Z);
  files : gmap Z file;
  flist : list Z;
  super_blocks : list super_block;
  static : statics;
  fdata : P;
}.

Arguments Vfs {P}.
Arguments inodes {P}.
Arguments ihash {P}.
Arguments files {P}.
Arguments flist {P}.
Arguments super_blocks {P}.
Arguments static {P}.
Arguments fdata {P}.

(** Updates of one field. *)

Definition f_set_count (f : file) (v : Z) : file :=
  File f.(f_inode) f.(f_mode) f.(f_rdev) f.(f_pos) f.(f_flags) v f.(f_private) f.(f_op).

Definition f_set_pos (f : file) (v : Z) : file :=
  File f.(f_inode) f.(f_mode) f.(f_rdev) v f.(f_flags) f.(f_count) f.(f_private) f.(f_op).

Definition f_set_op (f : file) (v : Z) : file :=
  File f.(f_inode) f.(f_mode) f.(f_rdev) f.(f_pos) f.(f_flags) f.(f_count) f.(f_private) v.

Definition i_set_list (i : inode) (v : list Z) : inode :=
  Inode v i.(i_ino) i.(i_mode) i.(i_nlink) i.(i_dev) i.(i_rdev) i.(i_size) i.(i_count) i.(i_flags)
    i.(i_dirt) i.(i_bio) i.(i_mount) i.(i_op) i.(i_sb) i.(i_private).

Definition i_set_kind (i : inode) (mode nlink rdev op : Z) : inode :=
  Inode i.(i_list) i.(i_ino) mode nlink i.(i_dev) rdev i.(i_size) i.(i_count) i.(i_flags)
    i.(i_dirt) i.(i_bio) i.(i_mount) op i.(i_sb) i.(i_private).

Definition i_set_nlink (i : inode) (v : Z) : inode :=
  i_set_kind i i.(i_mode) v i.(i_rdev) i.(i_op).

Definition i_set_size (i : inode) (v : Z) : inode :=
  Inode i.(i_list) i.(i_ino) i.(i_mode) i.(i_nlink) i.(i_dev) i.(i_rdev) v i.(i_count) i.(i_flags)
    i.(i_dirt) i.(i_bio) i.(i_mount) i.(i_op) i.(i_sb) i.(i_private).

Definition i_set_count (i : inode) (v : Z) : inode :=
  Inode i.(i_list) i.(i_ino) i.(i_mode) i.(i_nlink) i.(i_dev) i.(i_rdev) i.(i_size) v i.(i_flags)
    i.(i_dirt) i.(i_bio) i.(i_mount) i.(i_op) i.(i_sb) i.(i_private).

Definition i_set_flags (i : inode) (v : Z) : inode :=
  Inode i.(i_list) i.(i_ino) i.(i_mode) i.(i_nlink) i.(i_dev) i.(i_rdev) i.(i_size) i.(i_count) v
    i.(i_dirt) i.(i_bio) i.(i_mount) i.(i_op) i.(i_sb) i.(i_private).

Definition i_set_dirt (i : inode) (v : bool) : inode :=
  Inode i.(i_list) i.(i_ino) i.(i_mode) i.(i_nlink) i.(i_dev) i.(i_rdev) i.(i_size) i.(i_count) i.(i_flags)
    v i.(i_bio) i.(i_mount) i.(i_op) i.(i_sb) i.(i_private).

Definition i_set_mount (i : inode) (v : Z) : inode :=
  Inode i.(i_list) i.(i_ino) i.(i_mode) i.(i_nlink) i.(i_dev) i.(i_rdev) i.(i_size) i.(i_count) i.(i_flags)
    i.(i_dirt) i.(i_bio) v i.(i_op) i.(i_sb) i.(i_private).

Definition sb_set_dev (sb : super_block) (dev flags : Z) : super_block :=
  SuperBlock dev flags sb.(s_dirt) sb.(s_mounted) sb.(s_covered) sb.(s_op) sb.(s_private).

Definition sb_set_flags (sb : super_block) (v : Z) : super_block := sb_set_dev sb sb.(s_dev) v.

Definition sb_set_mounted (sb : super_block) (v : Z) : super_block :=
  SuperBlock sb.(s_dev) sb.(s_flags) sb.(s_dirt) v sb.(s_covered) sb.(s_op) sb.(s_private).

Definition sb_set_covered (sb : super_block) (v : Z) : super_block :=
  SuperBlock sb.(s_dev) sb.(s_flags) sb.(s_dirt) sb.(s_mounted) v sb.(s_op) sb.(s_private).

Definition sb_set_dirt (sb : super_block) (v : Z) : super_block :=
  SuperBlock sb.(s_dev) sb.(s_flags) v sb.(s_mounted) sb.(s_covered) sb.(s_op) sb.(s_private).

Definition sb_set_fs (sb : super_block) (mounted op private : Z) : super_block :=
  SuperBlock sb.(s_dev) sb.(s_flags) sb.(s_dirt) mounted sb.(s_covered) op private.

(** ** Tables of operations

    An operation that returns an error number and stores an inode returns both. *)

Record file_operations (S : Type) : Type := FileOps {
  lseek_op : option (Z -> Z -> Z -> Z -> ST S Z);
  read_op : option (Z -> Z -> Z -> ST S (Z * list Z * Z));
  write_op : option (Z -> list Z -> Z -> ST S (Z * Z));
  readdir_op : option (Z -> Z -> dirent -> Z -> ST S (Z * dirent));
  open_op : option (Z -> Z -> ST S Z);
  release_op : option (Z -> Z -> ST S Z);
  ioctl_op : option (Z -> Z -> Z -> Z -> ST S Z);
}.

Record inode_operations (S : Type) : Type := InodeOps {
  create_op : option (Z -> list Z -> Z -> ST S (Z * Z));
  lookup_op : option (Z -> list Z -> ST S (Z * Z));
  link_op : option (Z -> Z -> list Z -> ST S Z);
  unlink_op : option (Z -> list Z -> ST S Z);
  mkdir_op : option (Z -> list Z -> Z -> ST S Z);
  rmdir_op : option (Z -> list Z -> ST S Z);
  mknod_op : option (Z -> list Z -> Z -> Z -> ST S Z);
  rename_op : option (Z -> list Z -> Z -> list Z -> ST S Z);
  follow_link_op : option (Z -> Z -> Z -> Z -> ST S (Z * Z));
  truncate_op : option (Z -> Z -> ST S Z);
  default_file_ops : Z;
}.

Record super_operations (S : Type) : Type := SuperOps {
  read_inode_op : option (Z -> ST S unit);
  write_inode_op : option (Z -> ST S unit);
  put_inode_op : option (Z -> ST S unit);
  put_super_op : option (Z -> ST S unit);
  write_super_op : option (Z -> ST S unit);
  remount_fs_op : option (Z -> Z -> Z -> ST S (Z * Z));
}.

Arguments FileOps {S}.
Arguments lseek_op {S}.
Arguments read_op {S}.
Arguments write_op {S}.
Arguments readdir_op {S}.
Arguments open_op {S}.
Arguments release_op {S}.
Arguments ioctl_op {S}.
Arguments InodeOps {S}.
Arguments create_op {S}.
Arguments lookup_op {S}.
Arguments link_op {S}.
Arguments unlink_op {S}.
Arguments mkdir_op {S}.
Arguments rmdir_op {S}.
Arguments mknod_op {S}.
Arguments rename_op {S}.
Arguments follow_link_op {S}.
Arguments truncate_op {S}.
Arguments default_file_ops {S}.
Arguments SuperOps {S}.
Arguments read_inode_op {S}.
Arguments write_inode_op {S}.
Arguments put_inode_op {S}.
Arguments put_super_op {S}.
Arguments write_super_op {S}.
Arguments remount_fs_op {S}.

(** What the layer is built on: the slab caches and the operations of the mounted
    file systems on their super blocks. *)
Class VfsEnv (P : Type) : Type := {
  sops_at : Z -> option (super_operations (kst (vfs P)));
  inode_cache : gmap Z inode -> option (Z * inode);
  file_cache : gmap Z file -> option (Z * file);
}.

(** The tables behind the pointers [i_op] and [f_op]. *)
Class VfsOps (P : Type) : Type := {
  fops_at : Z -> option (file_operations (kst (vfs P)));
  iops_at : Z -> option (inode_operations (kst (vfs P)));
}.

Section vfs.

Context {P : Type} `{E : VfsEnv P} `{Op : VfsOps P}.

Abbreviation M := (ST (kst (vfs P))).

Definition vfs_of : M (vfs P) := gets env.

Definition vfs_set (f : vfs P -> vfs P) : M unit := modify (fun s => set_env s (f s.(env))).

Definition set_inodes (v : vfs P) (m : gmap Z inode) : vfs P :=
  Vfs m v.(ihash) v.(files) v.(flist) v.(super_blocks) v.(static) v.(fdata).
Definition set_ihash (v : vfs P) (h : gmap Z (list Z)) : vfs P :=
  Vfs v.(inodes) h v.(files) v.(flist) v.(super_blocks) v.(static) v.(fdata).
Definition set_files (v : vfs P) (m : gmap Z file) (l : list Z) : vfs P :=
  Vfs v.(inodes) v.(ihash) m l v.(super_blocks) v.(static) v.(fdata).
Definition set_supers (v : vfs P) (l : list super_block) : vfs P :=
  Vfs v.(inodes) v.(ihash) v.(files) v.(flist) l v.(static) v.(fdata).
Definition set_static (v : vfs P) (d : statics) : vfs P :=
  Vfs v.(inodes) v.(ihash) v.(files) v.(flist) v.(super_blocks) d v.(fdata).
Definition set_fdata (v : vfs P) (d : P) : vfs P :=
  Vfs v.(inodes) v.(ihash) v.(files) v.(flist) v.(super_blocks) v.(static) d.

(** Reading and writing through pointers. *)

Definition iload (a : Z) : M inode := fun s =>
  match s.(env).(inodes) !! a with
  | Some i => Ok (i, s)
  | None => Fault
  end.

Definition iupd (a : Z) (f : inode -> inode) : M unit :=
  i ← iload a;
  vfs_set (fun v => set_inodes v (<[a := f i]> v.(inodes))).

Definition fload (a : Z) : M file := fun s =>
  match s.(env).(files) !! a with
  | Some f => Ok (f, s)
  | None => Fault
  end.

Definition fupd (a : Z) (g : file -> file) : M unit :=
  f ← fload a;
  vfs_set (fun v => set_files v (<[a := g f]> v.(files)) v.(flist)).

Definition sbload (a : Z) : M super_block :=
  v ← vfs_of;
  st_res (aload v.(super_blocks) (a - 1)).

Definition sbupd (a : Z) (f : super_block -> super_block) : M unit :=
  v ← vfs_of;
  sb ← st_res (aload v.(super_blocks) (a - 1));
  l ← st_res (astore v.(super_blocks) (a - 1) (f sb));
  vfs_set (fun v => set_supers v l).

(** [i_count++] on an [unsigned short]. *)
Definition iref (a : Z) : M unit := iupd a (fun i => i_set_count i (u16 (i.(i_count) + 1))).

(** [IS_RDONLY(inode)] *)
Definition IS_RDONLY (a : Z) : M bool :=
  i ← iload a;
  if i.(i_sb) =? 0 then mret false
  else sb ← sbload i.(i_sb); mret (flag_set sb.(s_flags) MS_RDONLY).

Definition IS_NODEV (a : Z) : M bool := i ← iload a; mret (flag_set i.(i_flags) MS_NODEV).

(** ** inode.c *)

Definition hash_ino (ino : Z) : Z := hash_32 ino 9.

Definition insert_inode_hash (a : Z) : M unit :=
  i ← iload a;
  let b := hash_ino i.(i_ino) in
  vfs_set (fun v => set_ihash v (<[b := a :: default [] (v.(ihash) !! b)]> v.(ihash))).

Definition hash_del (a : Z) : M unit := vfs_set (fun v => set_ihash v (without a <$> v.(ihash))).

Definition get_empty_file : M Z :=
  v ← vfs_of;
  match file_cache v.(files) with
  | Some (a, junk) =>
      vfs_set (fun v => set_files v (<[a := f_set_count junk 1]> v.(files)) (a :: v.(flist))) ;;
      mret a
  | None => mret 0
  end.

(** [list_del] of a file that is not on the list is a [Fault]. *)
Definition free_file (a : Z) : M unit :=
  v ← vfs_of;
  if bool_decide (a ∈ v.(flist))
  then vfs_set (fun v => set_files v (delete a v.(files)) (without a v.(flist)))
  else fault.

Definition get_empty_inode : M Z :=
  v ← vfs_of;
  match inode_cache v.(inodes) with
  | Some (a, junk) => vfs_set (fun v => set_inodes v (<[a := junk]> v.(inodes))) ;; mret a
  | None => mret 0
  end.

Definition iput (a : Z) : M unit :=
  if a =? 0 then mret tt
  else
    iupd a (fun i => i_set_count i (u16 (i.(i_count) - 1))) ;;
    i ← iload a;
    if (i.(i_count) =? 0) && negb (flag_set i.(i_flags) MS_MEMFS) then
      sb ← sbload i.(i_sb);
      match sops_at sb.(s_op) ≫= put_inode_op with
      | Some op => op a
      | None => mret tt
      end ;;
      hash_del a ;;
      vfs_set (fun v => set_inodes v (delete a v.(inodes)))
    else mret tt.

Definition ifree (a : Z) : M unit :=
  iupd a (fun i => i_set_flags i (Z.land i.(i_flags) (Z.lnot MS_MEMFS))) ;; iput a.

Definition file_unref (a : Z) : M unit :=
  fupd a (fun f => f_set_count f (u16 (f.(f_count) - 1))) ;;
  f ← fload a;
  if 0 <? f.(f_count) then mret tt
  else
    match fops_at f.(f_op) ≫= release_op with
    | Some op => _ ← op f.(f_inode) a; mret tt
    | None => mret tt
    end ;;
    f ← fload a;
    iput f.(f_inode) ;;
    free_file a.

(** A file that keeps device [dev] from becoming read-only. *)
Definition file_blocks_ro (dev a : Z) : M bool :=
  f ← fload a;
  if (f.(f_count) =? 0) || (f.(f_inode) =? 0) then mret false
  else
    i ← iload f.(f_inode);
    mret ((i.(i_dev) =? dev) && S_ISREG i.(i_mode) && flag_set f.(f_mode) O_WRITE).

Fixpoint may_remount_ro (dev : Z) (l : list Z) : M bool :=
  match l with
  | [] => mret true
  | a :: l => b ← file_blocks_ro dev a; if b : bool then mret false else may_remount_ro dev l
  end.

Definition fs_may_remount_ro (dev : Z) : M bool := v ← vfs_of; may_remount_ro dev v.(flist).

Definition write_inode (a : Z) : M unit :=
  i ← iload a;
  if negb i.(i_dirt) then mret tt
  else if i.(i_sb) =? 0 then iupd a (fun i => i_set_dirt i false)
  else
    sb ← sbload i.(i_sb);
    match sops_at sb.(s_op) ≫= write_inode_op with
    | Some op => op a
    | None => iupd a (fun i => i_set_dirt i false)
    end.

Definition read_inode (a : Z) : M unit :=
  i ← iload a;
  if i.(i_sb) =? 0 then mret tt
  else
    sb ← sbload i.(i_sb);
    match sops_at sb.(s_op) ≫= read_inode_op with
    | Some op => op a
    | None => mret tt
    end.

(** The first inode of the bucket with this number and super block. *)
Fixpoint find_inode (sb ino : Z) (l : list Z) : M Z :=
  match l with
  | [] => mret 0
  | a :: l => i ← iload a; if (i.(i_ino) =? ino) && (i.(i_sb) =? sb) then mret a else find_inode sb ino l
  end.

(** What [__iget] stores into a new inode. *)
Definition iget_init (sb : Z) (s : super_block) (ino : Z) (i : inode) : inode :=
  Inode i.(i_list) ino i.(i_mode) i.(i_nlink) s.(s_dev) i.(i_rdev) i.(i_size) 1 (u16 s.(s_flags))
    i.(i_dirt) 0 i.(i_mount) i.(i_op) sb i.(i_private).

Definition __iget (sb ino : Z) (crossmntp : bool) : M Z :=
  if sb =? 0 then panic
  else
    v ← vfs_of;
    a ← find_inode sb ino (default [] (v.(ihash) !! hash_ino ino));
    if negb (a =? 0) then
      iref a ;;
      i ← iload a;
      if crossmntp && negb (i.(i_mount) =? 0) then iref i.(i_mount) ;; iput a ;; mret i.(i_mount)
      else mret a
    else
      match inode_cache v.(inodes) with
      | None => mret 0
      | Some (a, junk) =>
          s ← sbload sb;
          vfs_set (fun v => set_inodes v (<[a := iget_init sb s ino junk]> v.(inodes))) ;;
          insert_inode_hash a ;;
          read_inode a ;;
          mret a
      end.

Definition iget (sb ino : Z) : M Z := __iget sb ino true.

End vfs.

(** * References to inodes

    Reasoning about [i_count] as ownership: [own A h s] says that the count of
    every inode is the one the anchor [A] gives plus the number of references
    listed in [h].  An operation that takes over a reference removes it from the
    list, one that hands out a reference adds it. *)

(** The number of references to [a] in [h]; the null pointer is none. *)
Fixpoint occ (a : Z) (h : list Z) : Z :=
  match h with
  | [] => 0
  | b :: h => (if (a =? b) && negb (a =? 0) then 1 else 0) + occ a h
  end.

Lemma occ_bounds (a : Z) (h : list Z) : 0 <= occ a h <= Z.of_nat (length h).
Proof. induction h as [| b h IH]; simpl; [lia|]. destruct (_ && _); lia. Qed.

Lemma occ_elem (a : Z) (h : list Z) : a <> 0 -> a ∈ h -> 1 <= occ a h.
Proof.
  intros Ha. induction h as [| b h IH]; intros Hin; simpl; [apply elem_of_nil in Hin; destruct Hin|].
  apply elem_of_cons in Hin as [<- | Hin]; [|specialize (IH Hin); destruct (_ && _); lia].
  rewrite Z.eqb_refl, (proj2 (Z.eqb_neq a 0)) by exact Ha. simpl. pose proof (occ_bounds a h). lia.
Qed.

Lemma occ_perm (a : Z) (h h' : list Z) : h ≡ₚ h' -> occ a h = occ a h'.
Proof. induction 1; simpl; lia. Qed.

Record anchor : Type := Anchor {
  a_count : Z -> Z;
  a_procs : list pcb;
  a_current : Z;
  a_supers : list super_block;
}.

(** The references that stay: those of the current and root directory of the
    running process and of the directories covered by mounts. *)
Record anchored (A : anchor) (p : pcb) : Prop := {
  anchored_range : forall a, 0 <= A.(a_count) a <= 65000;
  anchored_proc : 0 <= A.(a_current) /\ A.(a_procs) !! Z.to_nat A.(a_current) = Some p;
  anchored_root : p.(root) <> 0 /\ 1 <= A.(a_count) p.(root);
  anchored_pwd : p.(pwd) <> 0 /\ 1 <= A.(a_count) p.(pwd);
  anchored_covered : forall sb, sb ∈ A.(a_supers) -> sb.(s_covered) <> 0 -> 1 <= A.(a_count) sb.(s_covered);
}.

Definition icnt {P : Type} (s : kst (vfs P)) (a : Z) : Z :=
  match s.(env).(inodes) !! a with
  | Some i => i.(i_count)
  | None => 0
  end.

Definition inode_ok (A : anchor) (i : inode) : Prop :=
  0 <= i.(i_count) < 65536 /\
  (0 < i.(i_sb) <= Z.of_nat (length A.(a_supers)) \/ i.(i_sb) = 0 /\ flag_set i.(i_flags) MS_MEMFS = true) /\
  (i.(i_mount) = 0 \/ 1 <= A.(a_count) i.(i_mount)).

(** What a file system keeps true of its data. *)
Class FsInv (P : Type) : Type := { fs_inv : vfs P -> Prop }.

Record own {P : Type} `{F : FsInv P} (A : anchor) (h : list Z) (s : kst (vfs P)) : Prop := {
  own_procs : s.(proctab) = A.(a_procs);
  own_current : s.(current) = A.(a_current);
  own_supers : s.(env).(super_blocks) = A.(a_supers);
  own_null : s.(env).(inodes) !! 0 = None;
  own_inodes : forall a i, s.(env).(inodes) !! a = Some i -> inode_ok A i;
  own_hash : forall b l a, s.(env).(ihash) !! b = Some l -> a ∈ l -> is_Some (s.(env).(inodes) !! a);
  own_count : forall a, icnt s a = A.(a_count) a + occ a h;
  own_fs : fs_inv s.(env);
}.

(** What the layer needs from the file systems: [put_inode] keeps all references
    and the inode with its flags; and what a file system keeps true of its data is
    neither about counts nor about inodes that it does not keep in memory. *)
Class VfsLaws (P : Type) `{E : VfsEnv P} `{F : FsInv P} : Prop := {
  put_inode_law : forall x op, sops_at x ≫= put_inode_op = Some op ->
    forall A p h a i s, anchored A p -> own A h s -> s.(env).(inodes) !! a = Some i ->
    exists s' i', op a s = Ok (tt, s') /\ own A h s' /\ s'.(env).(inodes) !! a = Some i' /\ i'.(i_flags) = i.(i_flags);
  fs_inv_count : forall v a i c, fs_inv v -> v.(inodes) !! a = Some i ->
    fs_inv (set_inodes v (<[a := i_set_count i c]> v.(inodes)));
  fs_inv_free : forall v a i, fs_inv v -> v.(inodes) !! a = Some i -> flag_set i.(i_flags) MS_MEMFS = false ->
    fs_inv (set_inodes (set_ihash v (without a <$> v.(ihash))) (delete a v.(inodes)));
}.

#[local] Opaque hash_ino.

Section references.

Context {P : Type} `{E : VfsEnv P} `{F : FsInv P} {L : VfsLaws P}.

Abbreviation k := (kst (vfs P)).

Context (A : anchor) (p : pcb) (HA : anchored A p).

Lemma own_perm (h h' : list Z) (s : k) : h ≡ₚ h' -> own A h s -> own A h' s.
Proof.
  intros Hp []. split; auto. intros a. rewrite own_count0, (occ_perm a h h' Hp). reflexivity.
Qed.

Lemma own_live (h : list Z) (s : k) (a : Z) :
  own A h s -> 1 <= A.(a_count) a \/ (a <> 0 /\ a ∈ h) ->
  exists i, s.(env).(inodes) !! a = Some i /\ inode_ok A i /\ i.(i_count) = A.(a_count) a + occ a h /\ 1 <= i.(i_count) /\ a <> 0.
Proof.
  intros Ho Ha. pose proof (own_count _ _ _ Ho a) as Hc. pose proof (occ_bounds a h) as Hb.
  pose proof (anchored_range _ _ HA a) as Hr.
  assert (1 <= icnt s a) as H1.
  { rewrite Hc. destruct Ha as [Ha | [Hne Hin]]; [lia|]. pose proof (occ_elem a h Hne Hin). lia. }
  unfold icnt in *. destruct (s.(env).(inodes) !! a) as [i |] eqn:Ei; [|lia].
  exists i. split; [reflexivity|]. split; [apply (own_inodes _ _ _ Ho a i Ei)|]. split; [exact Hc|]. split; [exact H1|]. intros ->. rewrite (own_null _ _ _ Ho) in Ei. discriminate.
Qed.

Lemma iload_run (s : k) (a : Z) (i : inode) : s.(env).(inodes) !! a = Some i -> iload a s = Ok (i, s).
Proof. intros H. unfold iload. rewrite H. reflexivity. Qed.

Lemma iupd_run (s : k) (a : Z) (f : inode -> inode) (i : inode) :
  s.(env).(inodes) !! a = Some i ->
  iupd a f s = Ok (tt, set_env s (set_inodes s.(env) (<[a := f i]> s.(env).(inodes)))).
Proof. intros H. unfold iupd. erewrite bind_ok; [|apply iload_run, H]. reflexivity. Qed.

Lemma sbload_run (h : list Z) (s : k) (x : Z) :
  own A h s -> 0 < x <= Z.of_nat (length A.(a_supers)) ->
  exists sb, sbload x s = Ok (sb, s) /\ sb ∈ A.(a_supers).
Proof.
  intros Ho Hx. destruct (aload_lt A.(a_supers) (x - 1)) as [sb Hsb]; [lia|]. exists sb. split.
  - unfold sbload, vfs_of. erewrite bind_ok; [|reflexivity]. rewrite (own_supers _ _ _ Ho). unfold st_res. rewrite Hsb. reflexivity.
  - apply aload_ok in Hsb. destruct Hsb as [_ Hsb]. apply list_elem_of_lookup_2 in Hsb. exact Hsb.
Qed.

Lemma cur_proc_run (h : list Z) (s : k) : own A h s -> cur_proc s = Ok (p, s).
Proof.
  intros Ho. unfold cur_proc, cur. erewrite bind_ok; [|reflexivity]. destruct (anchored_proc _ _ HA) as [Hc Hp].
  rewrite (own_current _ _ _ Ho). apply proc_run; [exact Hc|]. rewrite (own_procs _ _ _ Ho). exact Hp.
Qed.

(** Storing a count. *)
Lemma own_set_count (h h' : list Z) (s : k) (a : Z) (i : inode) (c : Z) :
  own A h s -> s.(env).(inodes) !! a = Some i -> a <> 0 -> 0 <= c < 65536 -> c = A.(a_count) a + occ a h' ->
  (forall b, b <> a -> occ b h' = occ b h) ->
  own A h' (set_env s (set_inodes s.(env) (<[a := i_set_count i c]> s.(env).(inodes)))).
Proof.
  intros Ho Hi Hne Hc Hca Hoth. destruct Ho. split; simpl; auto.
  - rewrite lookup_insert_ne by auto. exact own_null0.
  - intros b j Hj. apply lookup_insert_Some in Hj as [[<- <-] | [Hb Hj]]; [|eauto].
    destruct (own_inodes0 a i Hi) as (H1 & H2 & H3). split_and!; auto; simpl; lia.
  - intros b l x Hb Hx. destruct (decide (x = a)) as [-> | Hxa]; [rewrite lookup_insert_eq; eauto|].
    rewrite lookup_insert_ne by auto. eauto.
  - intros b. unfold icnt. simpl. destruct (decide (b = a)) as [-> | Hb].
    + rewrite lookup_insert_eq. exact Hca.
    + rewrite lookup_insert_ne, Hoth by auto. apply own_count0.
  - apply (fs_inv_count _ a i); auto.
Qed.

Lemma iref_run (h : list Z) (s : k) (a : Z) :
  own A h s -> (length h <= 100)%nat -> 1 <= A.(a_count) a \/ (a <> 0 /\ a ∈ h) ->
  exists s', iref a s = Ok (tt, s') /\ own A (a :: h) s'.
Proof.
  intros Ho Hh Ha. destruct (own_live h s a Ho Ha) as (i & Hi & Hok & Hc & H1 & Hne).
  unfold iref. rewrite (iupd_run s a _ i Hi). eexists. split; [reflexivity|].
  pose proof (anchored_range _ _ HA a). pose proof (occ_bounds a h).
  apply (own_set_count h); auto.
  - apply uN_range. lia.
  - rewrite uN_id by (simpl; lia). simpl. rewrite Z.eqb_refl, (proj2 (Z.eqb_neq a 0)) by exact Hne. simpl. lia.
  - intros b Hb. simpl. rewrite (proj2 (Z.eqb_neq b a)) by exact Hb. reflexivity.
Qed.

(** Forgetting an inode that has no references. *)
Lemma own_delete (h : list Z) (s : k) (a : Z) (i : inode) :
  own A h s -> s.(env).(inodes) !! a = Some i -> flag_set i.(i_flags) MS_MEMFS = false -> A.(a_count) a + occ a h = 0 ->
  own A h (set_env s (set_inodes (set_ihash s.(env) (without a <$> s.(env).(ihash)))
                        (delete a s.(env).(inodes)))).
Proof.
  intros Ho Hi Hm Hz. destruct Ho. split; simpl; auto.
  - apply lookup_delete_None. auto.
  - intros b j Hb. apply lookup_delete_Some in Hb as [_ Hb]. eauto.
  - intros b l x Hb Hx. rewrite lookup_fmap in Hb. destruct (ihash (env s) !! b) as [l0 |] eqn:El; [|discriminate].
    simpl in Hb. injection Hb as <-. unfold without in Hx. apply list_elem_of_In, List.filter_In in Hx. destruct Hx as [Hx Hxa].
    apply negb_true_iff, Z.eqb_neq in Hxa. rewrite lookup_delete_ne by auto. apply list_elem_of_In in Hx. eauto.
  - intros b. unfold icnt. simpl. destruct (decide (b = a)) as [-> | Hb].
    + rewrite lookup_delete_eq. lia.
    + rewrite lookup_delete_ne by auto. apply own_count0.
  - apply (fs_inv_free _ a i); auto.
Qed.

Lemma iput_run (h : list Z) (s : k) (a : Z) :
  own A (a :: h) s -> (length h <= 100)%nat -> exists s', iput a s = Ok (tt, s') /\ own A h s'.
Proof.
  intros Ho Hh. unfold iput. destruct (Z.eqb_spec a 0) as [-> | Hne].
  { eexists. split; [reflexivity|]. destruct Ho. split; auto. intros b. rewrite own_count0. simpl.
    destruct (Z.eqb_spec b 0) as [-> |]; reflexivity. }
  destruct (own_live _ s a Ho) as (i & Hi & Hok & Hc & H1 & _); [right; split; [exact Hne | left]|].
  simpl in Hc. rewrite Z.eqb_refl, (proj2 (Z.eqb_neq a 0)) in Hc by exact Hne. simpl in Hc.
  pose proof (anchored_range _ _ HA a) as Hr. pose proof (occ_bounds a h) as Hb.
  erewrite bind_ok; [|apply (iupd_run s a _ i Hi)]. cbv beta.
  rewrite uN_id by (simpl; lia). set (s1 := set_env s _).
  assert (own A h s1) as Ho1.
  { apply (own_set_count (a :: h)); auto; [lia | lia |]. intros b Hba. simpl. rewrite (proj2 (Z.eqb_neq b a)) by exact Hba. reflexivity. }
  assert (s1.(env).(inodes) !! a = Some (i_set_count i (i.(i_count) - 1))) as Hi1 by apply lookup_insert_eq.
  erewrite bind_ok; [|apply iload_run, Hi1]. cbv beta. cbn [i_count i_flags i_sb i_set_count].
  destruct ((i_count i - 1 =? 0) && negb (flag_set (i_flags i) MS_MEMFS)) eqn:Ef; [|eexists; split; [reflexivity | exact Ho1]].
  apply andb_true_iff in Ef as [Ez Em]. apply Z.eqb_eq in Ez. apply negb_true_iff in Em.
  destruct Hok as (_ & [Hsb | [_ Hm]] & _); [|congruence].
  destruct (sbload_run h s1 _ Ho1 Hsb) as (sb & Esb & _). cbv beta iota. erewrite bind_ok; [|exact Esb]. cbv beta.
  assert (exists s2, match sops_at sb.(s_op) ≫= put_inode_op with Some op => op a | None => mret tt end s1 = Ok (tt, s2) /\ own A h s2 /\
    exists j, s2.(env).(inodes) !! a = Some j /\ j.(i_flags) = i.(i_flags)) as (s2 & E2 & Ho2 & j & Hj & Hfl).
  { destruct (sops_at (s_op sb) ≫= put_inode_op) as [op |] eqn:Eop; [|eexists; split; [reflexivity | split; [exact Ho1 | eauto]]].
    destruct (put_inode_law _ _ Eop A p h a _ s1 HA Ho1 Hi1) as (s2 & j & H2). exists s2. split_and!; [apply H2 | apply H2 | exists j; apply H2]. }
  erewrite bind_ok; [|exact E2]. cbv beta. erewrite bind_ok; [|reflexivity].
  eexists. split; [reflexivity|]. apply (own_delete h s2 a j Ho2 Hj); [congruence | lia].
Qed.

(** ** Looking up an inode by number *)

(** The inode with this number is in memory. *)
Definition hashed (v : vfs P) (sb n : Z) : Prop :=
  exists a i, a ∈ default [] (v.(ihash) !! hash_ino n) /\ v.(inodes) !! a = Some i /\
    i.(i_ino) = n /\ i.(i_sb) = sb /\ flag_set i.(i_flags) MS_MEMFS = true.

Lemma find_inode_run (s : k) (sb n x : Z) (j : inode) (l : list Z) :
  (forall a, a ∈ l -> is_Some (s.(env).(inodes) !! a)) ->
  x ∈ l -> s.(env).(inodes) !! x = Some j -> j.(i_ino) = n -> j.(i_sb) = sb ->
  exists a, find_inode sb n l s = Ok (a, s) /\ is_Some (s.(env).(inodes) !! a).
Proof.
  intros Hl Hx Hj Hn Hs. induction l as [| b l IH]; simpl; [apply elem_of_nil in Hx; destruct Hx|].
  destruct (Hl b) as [i Hi]; [left|]. erewrite bind_ok; [|apply iload_run, Hi]. cbv beta.
  destruct ((i_ino i =? n) && (i_sb i =? sb)) eqn:Em; [eexists; split; [reflexivity | eauto]|].
  apply IH; [intros a Ha; apply Hl; right; exact Ha|]. apply elem_of_cons in Hx as [-> | Hx]; [|exact Hx].
  rewrite Hj in Hi. injection Hi as ->. rewrite Hn, Hs, !Z.eqb_refl in Em. discriminate.
Qed.

(** An existing inode: one more reference to it, or to the root mounted on it. *)
Lemma iget_found_run (h : list Z) (s : k) (a : Z) (cross : bool) :
  own A h s -> (length h <= 50)%nat -> is_Some (s.(env).(inodes) !! a) ->
  exists r s', (iref a ;; i ← iload a;
    if cross && negb (i.(i_mount) =? 0) then iref i.(i_mount) ;; iput a ;; mret i.(i_mount) else mret a) s = Ok (r, s')
    /\ own A (r :: h) s'.
Proof.
  intros Ho Hh [i Hi].
  assert (a <> 0) as Hne by (intros ->; rewrite (own_null _ _ _ Ho) in Hi; discriminate).
  pose proof (own_count _ _ _ Ho a) as Hc. unfold icnt in Hc. rewrite Hi in Hc.
  pose proof (anchored_range _ _ HA a). pose proof (occ_bounds a h).
  unfold iref at 1. erewrite bind_ok; [|apply (iupd_run s a _ i Hi)]. cbv beta. rewrite uN_id by (simpl; lia).
  set (s1 := set_env s _).
  assert (own A (a :: h) s1) as Ho1.
  { apply (own_set_count h); auto; [lia | |].
    - simpl. rewrite Z.eqb_refl, (proj2 (Z.eqb_neq a 0)) by exact Hne. simpl. lia.
    - intros b Hb. simpl. rewrite (proj2 (Z.eqb_neq b a)) by exact Hb. reflexivity. }
  assert (s1.(env).(inodes) !! a = Some (i_set_count i (i.(i_count) + 1))) as Hi1 by apply lookup_insert_eq.
  erewrite bind_ok; [|apply iload_run, Hi1]. cbv beta. cbn [i_mount i_set_count].
  destruct (cross && negb (i_mount i =? 0)) eqn:Ec; [|eexists _, _; split; [reflexivity | exact Ho1]].
  apply andb_true_iff in Ec as [_ Em]. apply negb_true_iff, Z.eqb_neq in Em.
  destruct (own_inodes _ _ _ Ho a i Hi) as (_ & _ & [|Hm]); [congruence|].
  destruct (iref_run (a :: h) s1 (i_mount i) Ho1) as (s2 & E2 & Ho2); [simpl; lia | auto |].
  erewrite bind_ok; [|exact E2]. cbv beta.
  apply (own_perm _ (a :: i_mount i :: h)) in Ho2; [|apply perm_swap].
  destruct (iput_run _ s2 a Ho2) as (s3 & E3 & Ho3); [simpl; lia|].
  erewrite bind_ok; [|exact E3]. eexists _, _. split; [reflexivity | exact Ho3].
Qed.

(** Looking up an inode that is in memory. *)
Lemma __iget_run (h : list Z) (s : k) (sb ino : Z) (cross : bool) :
  own A h s -> (length h <= 50)%nat -> sb <> 0 -> hashed s.(env) sb ino ->
  exists r s', __iget sb ino cross s = Ok (r, s') /\ own A (r :: h) s'.
Proof.
  intros Ho Hh Hsb (x & j & Hx & Hj & Hn & Hs & _). unfold __iget. rewrite (proj2 (Z.eqb_neq sb 0)) by exact Hsb.
  erewrite bind_ok; [|reflexivity]. cbv beta.
  destruct (find_inode_run s sb ino x j (default [] (s.(env).(ihash) !! hash_ino ino))) as (a & Ea & Ha); auto.
  { intros y Hy. destruct (ihash (env s) !! hash_ino ino) as [l |] eqn:El; simpl in Hy; [|apply elem_of_nil in Hy; destruct Hy].
    apply (own_hash _ _ _ Ho _ _ _ El Hy). }
  erewrite bind_ok; [|exact Ea]. cbv beta. destruct (Z.eqb_spec a 0) as [-> | Hne]; simpl.
  - rewrite (own_null _ _ _ Ho) in Ha. destruct Ha as [? [=]].
  - apply (iget_found_run h s a cross Ho Hh Ha).
Qed.

End references.
