(* ===== verification/Namei.v ===== *)
(** * Path names (fs/namei.c)

    A path name is the list of its bytes before the NUL, and the name of a file
    within a directory the list of its bytes.  An operation that stores its
    result through a pointer returns the error number and the result.  [ubyte] is
    the memory of the running process, which these functions only read. *)

From S2P Require Import Prelude Abi Vma Sched Vfs.

(** The part before the first '/', and the rest after it unless the path ends. *)
Fixpoint span_name (s : list Z) : list Z * option (list Z) :=
  match s with
  | [] => ([], None)
  | c :: s =>
      if c =? 47 then ([], Some s)
      else let '(name, rest) := span_name s in (c :: name, rest)
  end.

Definition is_dotlink (name : list Z) : bool :=
  match name with
  | [46] | [46; 46] => true
  | _ => false
  end.

Section namei.

Context {P : Type} `{E : VfsEnv P} `{Op : VfsOps P} (ubyte : Z -> Z).

Abbreviation M := (ST (kst (vfs P))).

Definition permission (a mask : Z) : M Z := mret 1.

(** The operations table of an inode. *)
Definition iops (a : Z) : M (option (inode_operations (kst (vfs P)))) := i ← iload a; mret (iops_at i.(i_op)).

(** The case of ".." in [lookup]: the directory to go on with, or the result. *)
Definition lookup_dotdot (dir : Z) : M (Z * Z + Z) :=
  p ← cur_proc;
  if dir =? p.(root) then mret (inl (0, dir))
  else
    i ← iload dir;
    if i.(i_sb) =? 0 then mret (inr dir)
    else
      sb ← sbload i.(i_sb);
      if dir =? sb.(s_mounted) then
        iput dir ;;
        if sb.(s_covered) =? 0 then mret (inl (- ENOENT, 0))
        else iref sb.(s_covered) ;; mret (inr sb.(s_covered))
      else mret (inr dir).

Definition lookup (dir : Z) (name : list Z) : M (Z * Z) :=
  if dir =? 0 then mret (- ENOENT, 0)
  else
    perm ← permission dir MAY_EXEC;
    r ← (if bool_decide (name = [46; 46]) then lookup_dotdot dir else mret (inr dir));
    match r with
    | inl res => mret res
    | inr dir =>
        ops ← iops dir;
        match ops ≫= lookup_op with
        | None => iput dir ;; mret (- ENOTDIR, 0)
        | Some op =>
            if perm =? 0 then iput dir ;; mret (- EACCES, 0)
            else if bool_decide (name = []) then mret (0, dir)
            else op dir name
        end
    end.

Definition follow_link (dir a flag mode : Z) : M (Z * Z) :=
  if (dir =? 0) || (a =? 0) then iput dir ;; iput a ;; mret (- ENOENT, 0)
  else
    ops ← iops a;
    match ops ≫= follow_link_op with
    | None => iput dir ;; mret (0, a)
    | Some op => op dir a flag mode
    end.

(** The loop of [dir_namei] and what follows it: the error, the last name and the
    directory. *)
Fixpoint walk_path (fuel : nat) (base : Z) (path : list Z) : M (Z * list Z * Z) :=
  match fuel with
  | O => fault
  | S fuel =>
      let '(name, rest) := span_name path in
      match rest with
      | Some rest =>
          iref base ;;
          r ← lookup base name;
          if negb (r.1 =? 0) then iput base ;; mret (r.1, [], 0)
          else
            r ← follow_link base r.2 0 0;
            if negb (r.1 =? 0) then mret (r.1, [], 0) else walk_path fuel r.2 rest
      | None =>
          ops ← iops base;
          match ops ≫= lookup_op with
          | None => iput base ;; mret (- ENOTDIR, [], 0)
          | Some _ => mret (0, name, base)
          end
      end
  end.

Definition dir_namei (pathname : list Z) (base : Z) : M (Z * list Z * Z) :=
  p ← cur_proc;
  base ← (if base =? 0 then iref p.(pwd) ;; mret p.(pwd) else mret base);
  match pathname with
  | 47 :: rest => iput base ;; iref p.(root) ;; walk_path (S (length rest)) p.(root) rest
  | _ => walk_path (S (length pathname)) base pathname
  end.

Definition _namei (pathname : list Z) (base : Z) (follow_links : bool) : M (Z * Z) :=
  r ← dir_namei pathname base;
  let '(error, basename, base) := r in
  if negb (error =? 0) then mret (error, 0)
  else
    iref base ;;
    r ← lookup base basename;
    if negb (r.1 =? 0) then iput base ;; mret (r.1, 0)
    else if follow_links then
      r ← follow_link base r.2 0 0;
      if negb (r.1 =? 0) then mret (r.1, 0) else mret (0, r.2)
    else iput base ;; mret (0, r.2).

Definition lnamei (pathname : list Z) : M (Z * Z) := _namei pathname 0 false.

Definition namei (pathname : list Z) : M (Z * Z) := _namei pathname 0 true.

(** From the lookup on: [None] after a call of [create], whose result is final. *)
Definition open_lookup (dir : Z) (name : list Z) (flag mode : Z) : M (Z * Z + Z * Z) :=
  if flag_set flag O_CREAT then
    r ← lookup dir name;
    if r.1 =? 0 then
      if flag_set flag O_EXCL then iput r.2 ;; mret (inr (- EEXIST, r.2)) else mret (inr (0, r.2))
    else
      perm ← permission dir (Z.lor MAY_WRITE MAY_EXEC);
      if perm =? 0 then mret (inr (- EACCES, 0))
      else
        ops ← iops dir;
        match ops ≫= create_op with
        | None => mret (inr (- EACCES, 0))
        | Some op =>
            ro ← IS_RDONLY dir;
            if ro : bool then mret (inr (- EROFS, 0))
            else iref dir ;; r ← op dir name mode; iput dir ;; mret (inl r)
        end
  else r ← lookup dir name; mret (inr r).

(** The checks on the inode found. *)
Definition open_checks (a flag : Z) : M (Z * Z) :=
  i ← iload a;
  if S_ISDIR i.(i_mode) && flag_set flag O_WRITE then iput a ;; mret (- EACCES, 0)
  else
    ro ← IS_RDONLY a;
    if ro && flag_set flag O_WRITE then iput a ;; mret (- EROFS, 0)
    else
      (if flag_set flag O_TRUNC then
         ops ← iops a;
         match ops ≫= truncate_op with
         | Some op => _ ← op a 0; mret tt
         | None => mret tt
         end ;;
         iupd a (fun i => i_set_dirt (i_set_size i 0) true)
       else mret tt) ;;
      mret (0, a).

Definition open_namei (pathname : list Z) (flag mode base : Z) : M (Z * Z) :=
  r ← dir_namei pathname base;
  let '(error, basename, dir) := r in
  if negb (error =? 0) then mret (error, 0)
  else if bool_decide (basename = []) then
    if flag_set flag O_WRITE then iput dir ;; mret (- EISDIR, 0) else mret (0, dir)
  else
    iref dir ;;
    r ← open_lookup dir basename flag mode;
    match r with
    | inl r => mret r
    | inr (error, a) =>
        if negb (error =? 0) then iput dir ;; mret (error, 0) else open_checks a flag
    end.

(** ** System calls *)

(** [verify_user_string], from include/kernel/dispatch.h. *)
Definition verify_user_string (str len : Z) : M Z :=
  p ← cur_proc;
  if negb (vm_verify p.(mm) str len 0 =? 0) then mret (- EFAULT)
  else if negb (ubyte (str +% len) =? 0) then mret (- EINVAL) else mret 0.

(** The string at [a], which has a NUL within [n] bytes after it. *)
Fixpoint user_str (n : nat) (a : Z) : list Z :=
  match n with
  | O => []
  | S n => if ubyte a =? 0 then [] else ubyte a :: user_str n (a +% 1)
  end.

Definition user_path (str len : Z) : list Z := user_str (Z.to_nat len) str.

(** The checks on a directory that is about to change: 0, or the error after the
    directory has been released. *)
Definition check_dir (dir : Z) (name : list Z) (enoname : Z)
    (has_op : inode_operations (kst (vfs P)) -> bool) : M Z :=
  if bool_decide (name = []) then iput dir ;; mret (- enoname)
  else
    ro ← IS_RDONLY dir;
    if ro : bool then iput dir ;; mret (- EROFS)
    else
      perm ← permission dir (Z.lor MAY_WRITE MAY_EXEC);
      if perm =? 0 then iput dir ;; mret (- EACCES)
      else
        ops ← iops dir;
        match ops with
        | Some ops => if has_op ops then mret 0 else iput dir ;; mret (- EPERM)
        | None => iput dir ;; mret (- EPERM)
        end.

Definition isSome {A : Type} (o : option A) : bool := match o with Some _ => true | None => false end.

(** [dir->i_op->op(...)] after [check_dir]. *)
Definition call_op {A : Type} (dir : Z) (field : inode_operations (kst (vfs P)) -> option A)
    (k : A -> M Z) : M Z :=
  ops ← iops dir;
  match ops ≫= field with
  | Some op => k op
  | None => fault
  end.

(** [verify_user_string] and [dir_namei] at the start of a call. *)
Definition user_dir (str len : Z) : M (Z * list Z * Z) :=
  error ← verify_user_string str len;
  if negb (error =? 0) then mret (error, [], 0) else dir_namei (user_path str len) 0.

Definition mknod_mode (mode : Z) : option Z :=
  let t := Z.land mode S_IFMT in
  if t =? 0 then Some (Z.lor mode S_IFREG)
  else if (t =? S_IFREG) || (t =? S_IFCHR) || (t =? S_IFBLK) then Some mode else None.

Definition sys_mknod (filename name_len mode dev : Z) : M Z :=
  error ← verify_user_string filename name_len;
  if negb (error =? 0) then mret error
  else if S_ISDIR mode then mret (- EPERM)
  else
    match mknod_mode mode with
    | None => mret (- EINVAL)
    | Some mode =>
        r ← dir_namei (user_path filename name_len) 0;
        let '(error, name, dir) := r in
        if negb (error =? 0) then mret error
        else
          error ← check_dir dir name ENOENT (fun o => isSome o.(mknod_op));
          if negb (error =? 0) then mret error
          else call_op dir mknod_op (fun op => op dir name mode dev)
    end.

Definition sys_mkdir (pathname name_len mode : Z) : M Z :=
  r ← user_dir pathname name_len;
  let '(error, name, dir) := r in
  if negb (error =? 0) then mret error
  else
    error ← check_dir dir name ENOENT (fun o => isSome o.(mkdir_op));
    if negb (error =? 0) then mret error else call_op dir mkdir_op (fun op => op dir name mode).

Definition sys_rmdir (pathname name_len : Z) : M Z :=
  r ← user_dir pathname name_len;
  let '(error, name, dir) := r in
  if negb (error =? 0) then mret error
  else
    error ← check_dir dir name ENOENT (fun o => isSome o.(rmdir_op));
    if negb (error =? 0) then mret error else call_op dir rmdir_op (fun op => op dir name).

Definition sys_unlink (pathname name_len : Z) : M Z :=
  r ← user_dir pathname name_len;
  let '(error, name, dir) := r in
  if negb (error =? 0) then mret error
  else
    error ← check_dir dir name EPERM (fun o => isSome o.(unlink_op));
    if negb (error =? 0) then mret error else call_op dir unlink_op (fun op => op dir name).

(** Releases both inodes and returns the error. *)
Definition put2 (a b e : Z) : M Z := iput a ;; iput b ;; mret (- e).

Definition do_link (old : Z) (newname : list Z) : M Z :=
  r ← dir_namei newname 0;
  let '(error, name, dir) := r in
  if negb (error =? 0) then iput old ;; mret error
  else if bool_decide (name = []) then put2 old dir EPERM
  else
    ro ← IS_RDONLY dir;
    if ro : bool then put2 old dir EROFS
    else
      d ← iload dir;
      o ← iload old;
      if negb (d.(i_dev) =? o.(i_dev)) then put2 dir old EXDEV
      else
        perm ← permission dir (Z.lor MAY_WRITE MAY_EXEC);
        if perm =? 0 then put2 dir old EACCES
        else
          ops ← iops dir;
          match ops ≫= link_op with
          | None => put2 dir old EPERM
          | Some op => op old dir name
          end.

Definition sys_link (oldname oldname_len newname newname_len : Z) : M Z :=
  error ← verify_user_string oldname oldname_len;
  if negb (error =? 0) then mret error
  else
    error ← verify_user_string newname newname_len;
    if negb (error =? 0) then mret error
    else
      r ← namei (user_path oldname oldname_len);
      if negb (r.1 =? 0) then mret r.1 else do_link r.2 (user_path newname newname_len).

Definition do_rename (old_dir : Z) (old_base newname : list Z) : M Z :=
  r ← dir_namei newname 0;
  let '(error, new_base, new_dir) := r in
  if negb (error =? 0) then iput old_dir ;; mret error
  else
    perm ← permission new_dir (Z.lor MAY_WRITE MAY_EXEC);
    if perm =? 0 then put2 old_dir new_dir EACCES
    else if bool_decide (new_base = []) || is_dotlink new_base then put2 old_dir new_dir EPERM
    else
      n ← iload new_dir;
      o ← iload old_dir;
      if negb (n.(i_dev) =? o.(i_dev)) then put2 old_dir new_dir EXDEV
      else
        ro ← IS_RDONLY new_dir;
        ro' ← (if ro : bool then mret true else IS_RDONLY old_dir);
        if ro' : bool then put2 old_dir new_dir EROFS
        else
          ops ← iops old_dir;
          match ops ≫= rename_op with
          | None => put2 old_dir new_dir EPERM
          | Some op => op old_dir old_base new_dir new_base
          end.

Definition sys_rename (oldname oldname_len newname newname_len : Z) : M Z :=
  error ← verify_user_string oldname oldname_len;
  if negb (error =? 0) then mret error
  else
    error ← verify_user_string newname newname_len;
    if negb (error =? 0) then mret error
    else
      r ← dir_namei (user_path oldname oldname_len) 0;
      let '(error, old_base, old_dir) := r in
      if negb (error =? 0) then mret error
      else
        perm ← permission old_dir (Z.lor MAY_WRITE MAY_EXEC);
        if perm =? 0 then iput old_dir ;; mret (- EACCES)
        else if bool_decide (old_base = []) || is_dotlink old_base then iput old_dir ;; mret (- EPERM)
        else do_rename old_dir old_base (user_path newname newname_len).

End namei.

(** * Path names conserve references *)

(** What path resolution needs from a file system: [lookup] takes over the
    reference to the directory and hands out one to what it found, unless it
    fails, for names of at most 255 bytes; [follow_link] takes over those to the directory and the link. *)
Class NameiLaws (P : Type) `{Op : VfsOps P} `{F : FsInv P} : Prop := {
  lookup_law : forall x op, iops_at x ≫= lookup_op = Some op ->
    forall A p h dir i name s, anchored A p -> own A (dir :: h) s -> dir <> 0 -> (length h <= 8)%nat ->
    s.(env).(inodes) !! dir = Some i -> i.(i_op) = x -> (length name <= 255)%nat ->
    exists e r s', op dir name s = Ok ((e, r), s') /\ own A (if e =? 0 then r :: h else h) s';
  follow_link_law : forall x op, iops_at x ≫= follow_link_op = Some op ->
    forall A p h dir a i flag mode s, anchored A p -> own A (dir :: a :: h) s -> dir <> 0 -> a <> 0 -> (length h <= 8)%nat ->
    s.(env).(inodes) !! a = Some i -> i.(i_op) = x ->
    exists e r s', op dir a flag mode s = Ok ((e, r), s') /\ own A (if e =? 0 then r :: h else h) s' /\ (e = 0 -> r <> 0);
}.

Section references.

Context {P : Type} `{E : VfsEnv P} `{Op : VfsOps P} `{F : FsInv P} {L : VfsLaws P} {N : NameiLaws P}.

Abbreviation k := (kst (vfs P)).

Context (A : anchor) (p : pcb) (HA : anchored A p).

Lemma iops_run (s : k) (a : Z) (i : inode) : s.(env).(inodes) !! a = Some i -> iops a s = Ok (iops_at i.(i_op), s).
Proof. intros H. unfold iops. erewrite bind_ok; [|apply iload_run, H]. reflexivity. Qed.

(** Releasing a reference and returning. *)
Lemma iput_ret_run {B : Type} (h : list Z) (s : k) (a : Z) (b : B) :
  own A (a :: h) s -> (length h <= 100)%nat -> exists s', (iput a ;; mret b) s = Ok (b, s') /\ own A h s'.
Proof.
  intros Ho Hh. destruct (iput_run A p HA h s a Ho Hh) as (s' & E' & Ho'). exists s'. split; [|exact Ho'].
  erewrite bind_ok; [|exact E']. reflexivity.
Qed.

Lemma lookup_dotdot_run (h : list Z) (s : k) (dir : Z) :
  own A (dir :: h) s -> dir <> 0 -> (length h <= 8)%nat ->
  exists r s', lookup_dotdot dir s = Ok (r, s') /\
    match r with
    | inl (e, a) => own A (if e =? 0 then a :: h else h) s'
    | inr d => d <> 0 /\ own A (d :: h) s'
    end.
Proof.
  intros Ho Hne Hh. unfold lookup_dotdot. erewrite bind_ok; [|apply (cur_proc_run A p HA _ s Ho)]. cbv beta.
  destruct (dir =? root p); [eexists _, _; split; [reflexivity | exact Ho]|].
  destruct (own_live A p HA _ s dir Ho) as (i & Hi & (_ & Hsb & _) & _); [right; split; [exact Hne | left]|].
  erewrite bind_ok; [|apply iload_run, Hi]. cbv beta.
  destruct (Z.eqb_spec (i_sb i) 0) as [| Hz]; [eexists _, _; split; [reflexivity | split; [exact Hne | exact Ho]]|].
  destruct Hsb as [Hsb | [? _]]; [|congruence].
  destruct (sbload_run A _ s _ Ho Hsb) as (sb & Esb & Hin). erewrite bind_ok; [|exact Esb]. cbv beta.
  destruct (dir =? s_mounted sb); [|eexists _, _; split; [reflexivity | split; [exact Hne | exact Ho]]].
  destruct (iput_run A p HA h s dir Ho) as (s1 & E1 & Ho1); [lia|]. erewrite bind_ok; [|exact E1]. cbv beta.
  destruct (Z.eqb_spec (s_covered sb) 0) as [| Hc]; [eexists _, _; split; [reflexivity | exact Ho1]|].
  destruct (iref_run A p HA h s1 (s_covered sb) Ho1) as (s2 & E2 & Ho2); [lia | left; apply (anchored_covered _ _ HA sb Hin Hc) |].
  erewrite bind_ok; [|exact E2]. eexists _, _. split; [reflexivity | split; [exact Hc | exact Ho2]].
Qed.

Lemma lookup_run (h : list Z) (s : k) (dir : Z) (name : list Z) :
  own A (dir :: h) s -> dir <> 0 -> (length h <= 8)%nat -> (length name <= 255)%nat ->
  exists e r s', lookup dir name s = Ok ((e, r), s') /\ own A (if e =? 0 then r :: h else h) s'.
Proof.
  intros Ho Hne Hh Hlen. unfold lookup. rewrite (proj2 (Z.eqb_neq dir 0)) by exact Hne.
  unfold permission. erewrite bind_ok; [|reflexivity]. cbv beta.
  assert (exists r s', (if bool_decide (name = [46; 46]) then lookup_dotdot dir else mret (inr dir)) s = Ok (r, s') /\
    match r with inl (e, a) => own A (if e =? 0 then a :: h else h) s' | inr d => d <> 0 /\ own A (d :: h) s' end) as (r & s1 & E1 & H1).
  { case_match; [apply lookup_dotdot_run; auto|]. eexists _, _. split; [reflexivity | split; assumption]. }
  erewrite bind_ok; [|exact E1]. cbv beta. destruct r as [[e a] | d]; [eexists _, _, _; split; [reflexivity | exact H1]|].
  destruct H1 as [Hd H1]. destruct (own_live A p HA _ s1 d H1) as (i & Hi & _); [right; split; [exact Hd | left]|].
  erewrite bind_ok; [|apply iops_run, Hi]. cbv beta.
  destruct (iops_at (i_op i) ≫= lookup_op) as [op |] eqn:Eop.
  - cbv beta iota. change (1 =? 0) with false. cbv iota. destruct (bool_decide (name = [])).
    + eexists 0, d, s1. split; [reflexivity | exact H1].
    + apply (lookup_law _ _ Eop A p h d i); auto.
  - destruct (iput_ret_run h s1 d (- ENOTDIR, 0) H1) as (s2 & E2 & H2); [lia|]. eexists _, _, s2. split; [exact E2 | exact H2].
Qed.

Lemma follow_link_run (h : list Z) (s : k) (dir a flag mode : Z) :
  own A (dir :: a :: h) s -> dir <> 0 -> (length h <= 8)%nat ->
  exists e r s', follow_link dir a flag mode s = Ok ((e, r), s') /\ own A (if e =? 0 then r :: h else h) s' /\ (e = 0 -> r <> 0).
Proof.
  intros Ho Hne Hh. unfold follow_link. rewrite (proj2 (Z.eqb_neq dir 0)) by exact Hne. cbn [orb].
  destruct (Z.eqb_spec a 0) as [-> | Ha]; cbv beta iota.
  - destruct (iput_run A p HA _ s dir Ho) as (s1 & E1 & Ho1); [simpl; lia|]. erewrite bind_ok; [|exact E1]. cbv beta.
    destruct (iput_ret_run h s1 0 (- ENOENT, 0) Ho1) as (s2 & E2 & H2); [lia|].
    eexists _, _, s2. split; [exact E2 | split; [exact H2 | discriminate]].
  - destruct (own_live A p HA _ s a Ho) as (i & Hi & _); [right; split; [exact Ha | right; left]|].
    erewrite bind_ok; [|apply iops_run, Hi]. cbv beta.
    destruct (iops_at (i_op i) ≫= follow_link_op) as [op |] eqn:Eop; [apply (follow_link_law _ _ Eop A p h dir a i); auto|].
    destruct (iput_ret_run _ s dir (0, a) Ho) as (s2 & E2 & H2); [simpl; lia|].
    eexists _, _, s2. split; [exact E2 | split; [exact H2 | auto]].
Qed.

Lemma span_name_length (path name rest : list Z) : span_name path = (name, Some rest) -> (length rest < length path)%nat.
Proof.
  revert name. induction path as [| c path IH]; intros name H; simpl in H; [discriminate|].
  destruct (c =? 47); [injection H as <- <-; simpl; lia|].
  destruct (span_name path) as [n [r |]]; [|discriminate]. injection H as <- <-. specialize (IH n eq_refl). simpl. lia.
Qed.

Lemma span_name_le (path : list Z) : (length (span_name path).1 <= length path)%nat.
Proof.
  induction path as [| c path IH]; simpl; [lia|]. destruct (c =? 47); [simpl; lia|].
  destruct (span_name path) as [n r]. simpl in *. lia.
Qed.

(** A directory reference and a name, or neither. *)
Definition dir_result (h : list Z) (e : Z) (n : list Z) (b : Z) (s : k) : Prop :=
  own A (if e =? 0 then b :: h else h) s /\ (e = 0 -> b <> 0) /\ (length n <= 255)%nat.

Lemma dir_result_err (h : list Z) (e : Z) (n : list Z) (b : Z) (s : k) :
  own A h s -> e <> 0 -> (length n <= 255)%nat -> dir_result h e n b s.
Proof. intros Ho He Hn. unfold dir_result. rewrite (proj2 (Z.eqb_neq e 0)) by exact He. split_and!; auto; congruence. Qed.

Lemma walk_path_run (h : list Z) (Hh : (length h <= 6)%nat) (fuel : nat) : forall (s : k) (base : Z) (path : list Z),
  own A (base :: h) s -> base <> 0 -> (length path < fuel)%nat -> (length path <= 255)%nat ->
  exists e n b s', walk_path fuel base path s = Ok ((e, n, b), s') /\ dir_result h e n b s'.
Proof.
  induction fuel as [| fuel IH]; intros s base path Ho Hne Hf Hp; [lia|]. cbn [walk_path].
  pose proof (span_name_le path) as Hn.
  destruct (span_name path) as [name [rest |]] eqn:Es.
  - apply span_name_length in Es.
    destruct (iref_run A p HA _ s base Ho) as (s1 & E1 & Ho1); [simpl; lia | right; split; [exact Hne | left] |].
    erewrite bind_ok; [|exact E1]. cbv beta.
    destruct (lookup_run (base :: h) s1 base name Ho1 Hne) as (e & r & s2 & E2 & Ho2); [simpl; lia | simpl in Hn; lia |].
    erewrite bind_ok; [|exact E2]. cbv beta. cbn [fst snd].
    destruct (Z.eqb_spec e 0) as [-> | He]; cbn [negb]; cbv iota.
    + apply (own_perm A _ (base :: r :: h)) in Ho2; [|apply perm_swap].
      destruct (follow_link_run h s2 base r 0 0 Ho2 Hne) as (e' & r' & s3 & E3 & Ho3 & Hr); [lia|].
      erewrite bind_ok; [|exact E3]. cbv beta. cbn [fst snd].
      destruct (Z.eqb_spec e' 0) as [-> | He']; cbn [negb]; cbv iota; [apply IH; auto; lia|].
      eexists e', _, _, s3. split; [reflexivity|]. apply dir_result_err; [exact Ho3 | exact He' | simpl; lia].
    + destruct (iput_ret_run h s2 base (e, @nil Z, 0) Ho2) as (s3 & E3 & H3); [lia|].
      eexists e, _, _, s3. split; [exact E3|]. apply dir_result_err; [exact H3 | exact He | simpl; lia].
  - destruct (own_live A p HA _ s base Ho) as (i & Hi & _); [right; split; [exact Hne | left]|].
    erewrite bind_ok; [|apply iops_run, Hi]. cbv beta.
    destruct (iops_at (i_op i) ≫= lookup_op) as [op |].
    + eexists 0, _, _, s. split; [reflexivity|]. split_and!; [exact Ho | auto | simpl in Hn; lia].
    + destruct (iput_ret_run h s base (- ENOTDIR, @nil Z, 0) Ho) as (s3 & E3 & H3); [lia|].
      eexists _, _, _, s3. split; [exact E3|]. apply dir_result_err; [exact H3 | discriminate | simpl; lia].
Qed.

Lemma dir_namei_run (h : list Z) (s : k) (path : list Z) : own A h s -> (length h <= 6)%nat ->
  (length path <= 255)%nat -> exists e n b s', dir_namei path 0 s = Ok ((e, n, b), s') /\ dir_result h e n b s'.
Proof.
  intros Ho Hh Hlen. unfold dir_namei. erewrite bind_ok; [|apply (cur_proc_run A p HA _ s Ho)]. cbv beta.
  destruct (anchored_pwd _ _ HA) as [Hp0 Hp]. destruct (anchored_root _ _ HA) as [Hr0 Hr].
  destruct (iref_run A p HA h s (pwd p) Ho) as (s1 & E1 & Ho1); [lia | auto |].
  erewrite bind_ok; [|rewrite Z.eqb_refl; erewrite bind_ok; [reflexivity | exact E1]]. cbv beta.
  assert (forall pth, (length pth <= 255)%nat -> exists e n b s',
    walk_path (S (length pth)) (pwd p) pth s1 = Ok ((e, n, b), s') /\ dir_result h e n b s') as Hw
    by (intros pth Hl; apply walk_path_run; auto; lia).
  assert (forall pth, (length pth <= 255)%nat -> exists e n b s',
    (iput (pwd p) ;; iref (root p) ;; walk_path (S (length pth)) (root p) pth) s1 = Ok ((e, n, b), s') /\ dir_result h e n b s') as Ha.
  { intros pth Hl. destruct (iput_run A p HA h s1 (pwd p) Ho1) as (s2 & E2 & Ho2); [lia|]. erewrite bind_ok; [|exact E2]. cbv beta.
    destruct (iref_run A p HA h s2 (root p) Ho2) as (s3 & E3 & Ho3); [lia | auto |]. erewrite bind_ok; [|exact E3]. cbv beta.
    apply walk_path_run; auto; lia. }
  destruct path as [| c path]; [apply (Hw []); simpl; lia|].
  destruct (Z.eq_dec c 47) as [-> | Hc]; [apply (Ha path); simpl in Hlen; lia|].
  specialize (Hw (c :: path) Hlen). repeat case_match; try exact Hw. congruence.
Qed.

Lemma _namei_run (h : list Z) (s : k) (path : list Z) (follow : bool) : own A h s -> (length h <= 4)%nat ->
  (length path <= 255)%nat -> exists e r s', _namei path 0 follow s = Ok ((e, r), s') /\ own A (if e =? 0 then r :: h else h) s'.
Proof.
  intros Ho Hh Hlen. unfold _namei. destruct (dir_namei_run h s path Ho) as (e & n & b & s1 & E1 & Ho1 & Hb & Hn); [lia | exact Hlen |].
  erewrite bind_ok; [|exact E1]. cbv beta iota. destruct (Z.eqb_spec e 0) as [-> | He]; cbn [negb]; cbv iota.
  2: { eexists e, _, s1. split; [reflexivity|]. rewrite (proj2 (Z.eqb_neq e 0)) by exact He. exact Ho1. }
  specialize (Hb eq_refl).
  destruct (iref_run A p HA _ s1 b Ho1) as (s2 & E2 & Ho2); [simpl; lia | right; split; [exact Hb | left] |].
  erewrite bind_ok; [|exact E2]. cbv beta.
  destruct (lookup_run (b :: h) s2 b n Ho2 Hb) as (e & r & s3 & E3 & Ho3); [simpl; lia | exact Hn |].
  erewrite bind_ok; [|exact E3]. cbv beta. cbn [fst snd].
  destruct (Z.eqb_spec e 0) as [-> | He]; cbn [negb]; cbv iota.
  2: { destruct (iput_ret_run h s3 b (e, 0) Ho3) as (s4 & E4 & H4); [lia|]. eexists e, _, s4. split; [exact E4|].
       rewrite (proj2 (Z.eqb_neq e 0)) by exact He. exact H4. }
  apply (own_perm A _ (b :: r :: h)) in Ho3; [|apply perm_swap]. destruct follow.
  - destruct (follow_link_run h s3 b r 0 0 Ho3 Hb) as (e & r' & s4 & E4 & Ho4 & _); [lia|].
    erewrite bind_ok; [|exact E4]. cbv beta. cbn [fst snd]. destruct (Z.eqb_spec e 0) as [-> | He]; cbn [negb]; cbv iota.
    + eexists 0, _, s4. split; [reflexivity | exact Ho4].
    + eexists e, _, s4. split; [reflexivity|]. rewrite (proj2 (Z.eqb_neq e 0)) by exact He. exact Ho4.
  - destruct (iput_ret_run _ s3 b (0, r) Ho3) as (s4 & E4 & H4); [simpl; lia|]. eexists 0, r, s4. split; [exact E4 | exact H4].
Qed.

(** C26: resolving a path name conserves references.  With file systems that obey
    the interface above, in a state in which the root and current directory of the
    process and the covered directories are referenced, counts are at most 65000, and
    the mount pointer of every inode in memory is null or leads to a referenced inode,
    [namei] and [lnamei] return for every path of up to 255 bytes; the counts of all
    inodes are as before except that a successful call adds one reference to the inode
    it returns, and the process table and the mounts are unchanged. *)
Theorem namei_balanced (s : k) (path : list Z) (follow : bool) :
  own A [] s -> (length path <= 255)%nat ->
  exists e r s', _namei path 0 follow s = Ok ((e, r), s') /\
    (forall a, icnt s' a = icnt s a + (if (e =? 0) && (a =? r) && negb (a =? 0) then 1 else 0)) /\
    s'.(proctab) = s.(proctab) /\ s'.(current) = s.(current) /\ s'.(env).(super_blocks) = s.(env).(super_blocks).
Proof.
  intros Ho Hlen. destruct (_namei_run [] s path follow Ho) as (e & r & s' & E1 & Ho'); [simpl; lia | exact Hlen |].
  exists e, r, s'. split; [exact E1|]. split.
  - intros a. rewrite (own_count _ _ _ Ho), (own_count _ _ _ Ho'). destruct (e =? 0); simpl; [destruct (_ && _); lia | lia].
  - rewrite (own_procs _ _ _ Ho), (own_procs _ _ _ Ho'), (own_current _ _ _ Ho), (own_current _ _ _ Ho').
    rewrite (own_supers _ _ _ Ho), (own_supers _ _ _ Ho'). auto.
Qed.

End references.
