(* ===== verification/Ramfs.v ===== *)
(** * The memory file system (fs/ramfs/ramfs.c)

    [i_list] of a directory is the list of its [struct ramfs_dirent]s, that of a
    regular file the list of its page frames.  The name in an entry is the array
    of 256 bytes; an access behind it is a [Fault].  Frames are 4096 bytes and are
    accessed through temporary mappings, which are left out.  The slab cache of
    entries, the frame allocator and [kmalloc] are parameters that yield a free
    object with the contents it happens to have.  Pointers to operation tables
    are numbers. *)

From S2P Require Import Prelude Abi Addr Bitops Vma Timer Sig Sched Vfs Namei.

Record ramfs_dirent : Type := RamfsDirent {
  ino : Z;
  name : list Z;
}.

(** [blocks] maps a [struct ramfs_superblock *] to its [next_ino]. *)
Record ramfs : Type := Ramfs {
  dirents : gmap Z ramfs_dirent;
  blocks : gmap Z Z;
  frames : gmap Z (list Z);
}.

Class RamfsEnv : Type := {
  dirent_cache : gmap Z ramfs_dirent -> option (Z * ramfs_dirent);
  frame_cache : gmap Z (list Z) -> option (Z * list Z);
  block_cache : gmap Z Z -> option Z;
}.

Definition ramfs_dir_iops_p : Z := 1.
Definition ramfs_reg_iops_p : Z := 2.
Definition chrdev_iops_p : Z := 3.
Definition blkdev_iops_p : Z := 4.
Definition ramfs_dir_fops_p : Z := 1.
Definition ramfs_reg_fops_p : Z := 2.
Definition ramfs_super_ops_p : Z := 1.

Section ramfs.

Context `{E : VfsEnv ramfs} `{R : RamfsEnv}.

Abbreviation M := (ST (kst (vfs ramfs))).

Definition data_set (f : ramfs -> ramfs) : M unit := vfs_set (fun v => set_fdata v (f v.(fdata))).

Definition set_dirents (d : ramfs) (m : gmap Z ramfs_dirent) : ramfs := Ramfs m d.(blocks) d.(frames).
Definition set_blocks (d : ramfs) (m : gmap Z Z) : ramfs := Ramfs d.(dirents) m d.(frames).
Definition set_frames (d : ramfs) (m : gmap Z (list Z)) : ramfs := Ramfs d.(dirents) d.(blocks) m.

Definition dload (e : Z) : M ramfs_dirent := fun s =>
  match s.(env).(fdata).(dirents) !! e with
  | Some d => Ok (d, s)
  | None => Fault
  end.

Definition dstore (e : Z) (d : ramfs_dirent) : M unit := data_set (fun r => set_dirents r (<[e := d]> r.(dirents))).

(** ** Directory entries *)

(** [ent->name[len] == '\0' && !memcmp(name, ent->name, len)] *)
Definition name_matches (d : ramfs_dirent) (nm : list Z) : res bool :=
  do c <- aload d.(name) (Z.of_nat (length nm));
  Ok ((c =? 0) && bool_decide (take (length nm) d.(name) = nm)).

Fixpoint lookup_loop (l : list Z) (nm : list Z) : M Z :=
  match l with
  | [] => mret 0
  | e :: l =>
      d ← dload e;
      b ← st_res (name_matches d nm);
      if b : bool then mret e else lookup_loop l nm
  end.

(** The entry with this name, 0 if there is none. *)
Definition __lookup (dir : Z) (nm : list Z) : M Z := i ← iload dir; lookup_loop i.(i_list) nm.

Definition ramfs_lookup (dir : Z) (nm : list Z) : M (Z * Z) :=
  i ← iload dir;
  if negb (S_ISDIR i.(i_mode)) then iput dir ;; mret (- ENOTDIR, 0)
  else
    e ← __lookup dir nm;
    if e =? 0 then iput dir ;; mret (- ENOENT, 0)
    else
      d ← dload e;
      r ← iget i.(i_sb) d.(ino);
      iput dir ;;
      mret (0, r).

(** What [ramfs_new_inode] stores. *)
Definition new_inode_init (sb : Z) (s : super_block) (n : Z) (i : inode) : inode :=
  Inode [] n i.(i_mode) i.(i_nlink) s.(s_dev) i.(i_rdev) i.(i_size) 1 (u16 s.(s_flags))
    false i.(i_bio) i.(i_mount) i.(i_op) sb i.(i_private).

Definition bload (b : Z) : M Z := fun s =>
  match s.(env).(fdata).(blocks) !! b with
  | Some n => Ok (n, s)
  | None => Fault
  end.

Definition ramfs_new_inode (dir : Z) : M Z :=
  d ← iload dir;
  sb ← sbload d.(i_sb);
  a ← get_empty_inode;
  if a =? 0 then mret 0
  else
    n ← bload sb.(s_private);
    data_set (fun r => set_blocks r (<[sb.(s_private) := n +% 1]> r.(blocks))) ;;
    iupd a (new_inode_init d.(i_sb) sb n) ;;
    insert_inode_hash a ;;
    mret a.

(** [memcpy(fsnode->name, name, len)]: no NUL is stored, nor the length checked. *)
Definition ramfs_new_dirent (nm : list Z) (n : Z) : M Z :=
  v ← vfs_of;
  match dirent_cache v.(fdata).(dirents) with
  | None => mret 0
  | Some (e, junk) =>
      if (length junk.(name) <? length nm)%nat then fault
      else dstore e (RamfsDirent n (splice 0 nm junk.(name))) ;; mret e
  end.

Definition ramfs_do_mknod (dir : Z) (nm : list Z) : M (Z * Z) :=
  e ← __lookup dir nm;
  if negb (e =? 0) then mret (- EEXIST, 0)
  else
    a ← ramfs_new_inode dir;
    if a =? 0 then mret (- ENOSPC, 0)
    else
      i ← iload a;
      e ← ramfs_new_dirent nm i.(i_ino);
      if e =? 0 then iput a ;; mret (- ENOSPC, 0)
      else
        iupd a (fun i => i_set_size i 0) ;;
        iupd dir (fun d => i_set_size (i_set_list d (d.(i_list) ++ [e])) (d.(i_size) +% 1)) ;;
        mret (0, a).

(** ** Contents of files *)

(** The loop that allocates frames, from a list that grows at the end. *)
Fixpoint grow_loop (n : nat) (a : Z) : M Z :=
  match n with
  | O => mret 0
  | S n =>
      v ← vfs_of;
      match frame_cache v.(fdata).(frames) with
      | None => mret (- ENOSPC)
      | Some (f, junk) =>
          data_set (fun r => set_frames r (<[f := junk]> r.(frames))) ;;
          iupd a (fun i => i_set_list i (i.(i_list) ++ [f])) ;;
          grow_loop n a
      end
  end.

Definition grow_file (a amount : Z) : M Z :=
  i ← iload a;
  let nr_pages := u32 (((i.(i_size) mod FRAME_SIZE) +% amount) / FRAME_SIZE + 1) in
  error ← (if nr_pages =? 0 then mret 0 else grow_loop (Z.to_nat nr_pages) a);
  if negb (error =? 0) then mret error
  else iupd a (fun i => i_set_size i (i.(i_size) +% amount)) ;; mret 0.

Definition frame_load (f : Z) : M (list Z) := fun s =>
  match s.(env).(fdata).(frames) !! f with
  | Some b => Ok (b, s)
  | None => Fault
  end.

Definition frame_store (f : Z) (b : list Z) : M unit := data_set (fun r => set_frames r (<[f := b]> r.(frames))).

(** The loop of [ramfs_read] over the frames from the first one concerned: the
    bytes copied and [len] at the end. *)
Fixpoint read_loop (l : list Z) (offset len : Z) : M (list Z * Z) :=
  match l with
  | [] => mret ([], len)
  | f :: l =>
      b ← frame_load f;
      let d := take (Z.to_nat (Z.min (FRAME_SIZE - offset) len)) (drop (Z.to_nat offset) b) in
      if len <=? FRAME_SIZE then mret (d, len)
      else r ← read_loop l 0 (len - (FRAME_SIZE - offset)); mret (d ++ r.1, r.2)
  end.

(** The result, the bytes stored into the caller's buffer and the new position. *)
Definition ramfs_read (file len pos : Z) : M (Z * list Z * Z) :=
  f ← fload file;
  i ← iload f.(f_inode);
  if (len =? 0) || (i.(i_size) <=? pos) then mret (0, [], pos)
  else
    r ← read_loop (drop (Z.to_nat (pos / FRAME_SIZE)) i.(i_list)) (pos mod FRAME_SIZE) (Z.min len (i.(i_size) - pos));
    mret (s32 r.2, r.1, pos +% r.2).

(** The loop of [ramfs_do_write]; [buf] is what is left of the buffer and [len]
    its length. *)
Fixpoint write_loop (l : list Z) (buf : list Z) (offset : Z) : M Z :=
  let len := Z.of_nat (length buf) in
  match l with
  | [] => mret len
  | f :: l =>
      b ← frame_load f;
      frame_store f (splice (Z.to_nat offset) (take (Z.to_nat (Z.min (FRAME_SIZE - offset) len)) buf) b) ;;
      if len <=? FRAME_SIZE then mret len
      else write_loop l (drop (Z.to_nat (FRAME_SIZE - offset)) buf) 0
  end.

Definition ramfs_do_write (file : Z) (buf : list Z) (pos : Z) : M Z :=
  f ← fload file;
  i ← iload f.(f_inode);
  write_loop (drop (Z.to_nat (pos / FRAME_SIZE)) i.(i_list)) buf (pos mod FRAME_SIZE).

Fixpoint zero_loop (l : list Z) (offset len : Z) : M unit :=
  match l with
  | [] => mret tt
  | f :: l =>
      b ← frame_load f;
      frame_store f (splice (Z.to_nat offset) (replicate (Z.to_nat (Z.min (FRAME_SIZE - offset) len)) 0) b) ;;
      if len <=? FRAME_SIZE then mret tt else zero_loop l 0 (len - (FRAME_SIZE - offset))
  end.

Definition zero_fill (a start len : Z) : M unit :=
  i ← iload a;
  zero_loop (drop (Z.to_nat (start / FRAME_SIZE)) i.(i_list)) (start mod FRAME_SIZE) len.

Definition ramfs_write (file : Z) (buf : list Z) (pos : Z) : M (Z * Z) :=
  f ← fload file;
  i ← iload f.(f_inode);
  let next_pos := pos +% Z.of_nat (length buf) in
  let prev_size := i.(i_size) in
  error ← (if prev_size <? next_pos then grow_file f.(f_inode) (next_pos - prev_size) else mret 0);
  if negb (error =? 0) then mret (error, pos)
  else
    (if prev_size <? pos then zero_fill f.(f_inode) prev_size (pos - prev_size) else mret tt) ;;
    rc ← ramfs_do_write file buf pos;
    mret (rc, if 0 <? rc then pos +% rc else pos).

(** [for (; page_diff < 0; page_diff++)]: drops frames from the end. *)
Fixpoint shrink_loop (n : nat) (a : Z) : M unit :=
  match n with
  | O => mret tt
  | S n =>
      i ← iload a;
      match last i.(i_list) with
      | None => mret tt
      | Some f =>
          iupd a (fun i => i_set_list i (take (length i.(i_list) - 1) i.(i_list))) ;;
          data_set (fun r => set_frames r (delete f r.(frames))) ;;
          shrink_loop n a
      end
  end.

Definition ramfs_truncate (a len : Z) : M Z :=
  i ← iload a;
  let page_diff := s32 (pages_in_range 0 len -% pages_in_range 0 i.(i_size)) in
  let diff := s32 (len -% i.(i_size)) in
  if 0 <? diff then
    error ← grow_file a diff;
    if negb (error =? 0) then mret error else zero_fill a i.(i_size) len ;; mret 0
  else shrink_loop (Z.to_nat (- page_diff)) a ;; mret 0.

(** ** Directory operations *)

Definition ramfs_readdir (dir file : Z) (dirent : dirent) (count : Z) : M (Z * Vfs.dirent) :=
  i ← iload dir;
  if i.(i_size) <=? dirent.(d_off) then mret (- ENOENT, dirent)
  else
    e ← st_res (aload i.(i_list) dirent.(d_off));
    d ← dload e;
    mret (0, Dirent d.(ino) (dirent.(d_off) +% 1) d.(name)).

Definition ramfs_create (dir : Z) (nm : list Z) (mode : Z) : M (Z * Z) :=
  r ← ramfs_do_mknod dir nm;
  if negb (r.1 =? 0) then mret (r.1, 0)
  else
    iupd r.2 (fun i => i_set_kind i (Z.lor S_IFREG mode) 1 0 ramfs_reg_iops_p) ;;
    iput dir ;;
    mret (0, r.2).

Definition mknod_iops (mode old : Z) : Z :=
  if S_ISREG mode then ramfs_reg_iops_p
  else if S_ISCHR mode then chrdev_iops_p
  else if S_ISBLK mode then blkdev_iops_p else old.

Definition ramfs_mknod (dir : Z) (nm : list Z) (mode rdev : Z) : M Z :=
  r ← ramfs_do_mknod dir nm;
  if negb (r.1 =? 0) then mret r.1
  else
    iupd r.2 (fun i => i_set_kind i mode 1 rdev (mknod_iops mode i.(i_op))) ;;
    iput dir ;;
    iput r.2 ;;
    mret 0.

(** The names are "." and ".." with their NUL. *)
Definition mkdir_links (parent_dir dir : Z) : M Z :=
  d ← iload dir;
  this ← ramfs_new_dirent [46; 0] d.(i_ino);
  if this =? 0 then mret (- ENOSPC)
  else
    p ← iload parent_dir;
    parent ← ramfs_new_dirent [46; 46; 0] p.(i_ino);
    if parent =? 0 then data_set (fun r => set_dirents r (delete this r.(dirents))) ;; mret (- ENOSPC)
    else iupd dir (fun i => i_set_size (i_set_list i (this :: parent :: i.(i_list))) (i.(i_size) +% 2)) ;; mret 0.

Definition ramfs_mkdir (dir : Z) (nm : list Z) (mode : Z) : M Z :=
  r ← ramfs_do_mknod dir nm;
  if negb (r.1 =? 0) then mret r.1
  else
    error ← mkdir_links dir r.2;
    if negb (error =? 0) then iput r.2 ;; mret error
    else
      iupd r.2 (fun i => i_set_kind i (Z.lor S_IFDIR mode) 2 i.(i_rdev) ramfs_dir_iops_p) ;;
      iupd dir (fun d => i_set_nlink d (d.(i_nlink) +% 1)) ;;
      iput dir ;;
      iput r.2 ;;
      mret 0.

(** [list_del(&ent->chain); slab_free(ramfs_dirent_cachep, ent); dir->i_size--] *)
Definition drop_dirent (dir e : Z) : M unit :=
  iupd dir (fun d => i_set_size (i_set_list d (without e d.(i_list))) (d.(i_size) -% 1)) ;;
  data_set (fun r => set_dirents r (delete e r.(dirents))).

(** The checks of [ramfs_rmdir] on the inode found. *)
Definition rmdir_check (dir a : Z) : M Z :=
  i ← iload a;
  d ← iload dir;
  mret (if negb (i.(i_dev) =? d.(i_dev)) then - EPERM
        else if a =? dir then - EPERM
        else if negb (S_ISDIR i.(i_mode)) then - ENOTDIR
        else if 2 <? i.(i_size) then - ENOTEMPTY
        else if 2 <? i.(i_count) then - EBUSY else 0).

Definition ramfs_rmdir (dir : Z) (nm : list Z) : M Z :=
  e ← __lookup dir nm;
  if e =? 0 then iput dir ;; iput 0 ;; mret (- ENOENT)
  else
    d ← iload dir;
    ent ← dload e;
    a ← iget d.(i_sb) ent.(ino);
    if a =? 0 then iput dir ;; iput a ;; mret (- EPERM)
    else
      retval ← rmdir_check dir a;
      (if retval =? 0
       then drop_dirent dir e ;; iupd a (fun i => i_set_count i (u16 (i.(i_count) - 1)))
       else mret tt) ;;
      iput dir ;;
      iput a ;;
      mret retval.

Definition ramfs_unlink (dir : Z) (nm : list Z) : M Z :=
  e ← __lookup dir nm;
  if e =? 0 then iput 0 ;; iput dir ;; mret (- ENOENT)
  else
    d ← iload dir;
    ent ← dload e;
    a ← iget d.(i_sb) ent.(ino);
    if a =? 0 then iput a ;; iput dir ;; mret (- ENOENT)
    else
      i ← iload a;
      if S_ISDIR i.(i_mode) then iput a ;; iput dir ;; mret (- EPERM)
      else
        iupd a (fun i => let n := i.(i_nlink) -% 1 in
                         let i := i_set_nlink i n in
                         if n =? 0 then i_set_flags i (Z.land i.(i_flags) (Z.lnot MS_MEMFS)) else i) ;;
        drop_dirent dir e ;;
        iput a ;;
        iput dir ;;
        mret 0.

Definition ramfs_link (oldinode dir : Z) (nm : list Z) : M Z :=
  e ← __lookup dir nm;
  if negb (e =? 0) then iput dir ;; iput oldinode ;; mret (- EEXIST)
  else
    o ← iload oldinode;
    e ← ramfs_new_dirent nm o.(i_ino);
    if e =? 0 then iput dir ;; iput oldinode ;; mret (- ENOSPC)
    else
      iupd dir (fun d => i_set_size (i_set_list d (d.(i_list) ++ [e])) (d.(i_size) +% 1)) ;;
      iupd oldinode (fun i => i_set_nlink i (i.(i_nlink) +% 1)) ;;
      iput dir ;;
      iput oldinode ;;
      mret 0.

Definition ramfs_rename (old_dir : Z) (old_name : list Z) (new_dir : Z) (new_name : list Z) : M Z :=
  e ← __lookup old_dir old_name;
  if e =? 0 then mret (- ENOENT)
  else
    x ← __lookup new_dir new_name;
    if negb (x =? 0) then mret (- EEXIST)
    else
      d ← dload e;
      iupd old_dir (fun i => i_set_list i (without e i.(i_list))) ;;
      iupd new_dir (fun i => i_set_list i (i.(i_list) ++ [e])) ;;
      (if (length d.(name) <? length new_name)%nat then fault
       else dstore e (RamfsDirent d.(ino) (splice 0 new_name d.(name)))) ;;
      iupd old_dir (fun i => i_set_size i (i.(i_size) -% 1)) ;;
      iupd new_dir (fun i => i_set_size i (i.(i_size) +% 1)) ;;
      iput old_dir ;;
      iput new_dir ;;
      mret 0.

(** ** Tables *)

Definition ramfs_dir_fops : file_operations (kst (vfs ramfs)) :=
  FileOps None None None (Some ramfs_readdir) None None None.

Definition ramfs_reg_fops : file_operations (kst (vfs ramfs)) :=
  FileOps None (Some ramfs_read) (Some ramfs_write) None None None None.

Definition ramfs_dir_iops : inode_operations (kst (vfs ramfs)) :=
  InodeOps (Some ramfs_create) (Some ramfs_lookup) (Some ramfs_link) (Some ramfs_unlink) (Some ramfs_mkdir)
    (Some ramfs_rmdir) (Some ramfs_mknod) (Some ramfs_rename) None None ramfs_dir_fops_p.

Definition ramfs_reg_iops : inode_operations (kst (vfs ramfs)) :=
  InodeOps None None None None None None None None None (Some ramfs_truncate) ramfs_reg_fops_p.

Definition ramfs_super_ops : super_operations (kst (vfs ramfs)) := SuperOps None None None None None None.

(** ** Mounting *)

(** What [ramfs_read_super] stores into the root inode. *)
Definition root_init (sb : Z) (s : super_block) (i : inode) : inode :=
  Inode [] 0 S_IFDIR 2 s.(s_dev) i.(i_rdev) i.(i_size) 1 (u16 s.(s_flags))
    false i.(i_bio) i.(i_mount) ramfs_dir_iops_p sb i.(i_private).

(** 0 stands for failure. *)
Definition ramfs_read_super (sb : Z) (silent : Z) : M Z :=
  v ← vfs_of;
  match block_cache v.(fdata).(blocks) with
  | None => mret 0
  | Some blk =>
      root ← get_empty_inode;
      if root =? 0 then mret 0
      else
        v ← vfs_of;
        match dirent_cache v.(fdata).(dirents) with
        | None => iput root ;; mret 0
        | Some (fsroot, junk) =>
            data_set (fun r => set_blocks r (<[blk := 1]> r.(blocks))) ;;
            sbupd sb (fun s => sb_set_flags s (Z.lor s.(s_flags) MS_MEMFS)) ;;
            s ← sbload sb;
            iupd root (root_init sb s) ;;
            insert_inode_hash root ;;
            dstore fsroot (RamfsDirent 0 (splice 0 [47; 0] junk.(name))) ;;
            error ← mkdir_links root root;
            if negb (error =? 0) then mret 0
            else sbupd sb (fun s => sb_set_fs s root ramfs_super_ops_p blk) ;; mret sb
        end
  end.

End ramfs.

(** * The memory file system keeps its part of the interface *)

Section interface.

Context `{E : VfsEnv ramfs} `{R : RamfsEnv}.

(** Character and block devices have no inode operations but the file operations
    of devices.c. *)
#[export] Instance ramfs_ops : VfsOps ramfs := {
  fops_at x := if x =? ramfs_dir_fops_p then Some ramfs_dir_fops
               else if x =? ramfs_reg_fops_p then Some ramfs_reg_fops else None;
  iops_at x := if x =? ramfs_dir_iops_p then Some ramfs_dir_iops
               else if x =? ramfs_reg_iops_p then Some ramfs_reg_iops
               else if (x =? chrdev_iops_p) || (x =? blkdev_iops_p)
               then Some (InodeOps None None None None None None None None None None x) else None;
}.

(** The entries of a directory exist, have names of 256 bytes, and the inodes they
    name are in memory, where this file system keeps them. *)
#[export] Instance ramfs_inv : FsInv ramfs := {
  fs_inv v := forall a i, v.(inodes) !! a = Some i -> i.(i_op) = ramfs_dir_iops_p ->
    i.(i_sb) <> 0 /\ forall e, e ∈ i.(i_list) ->
      exists d, v.(fdata).(dirents) !! e = Some d /\ length d.(name) = 256%nat /\ hashed v i.(i_sb) d.(ino);
}.

Lemma hashed_count (v : vfs ramfs) (sb n a : Z) (i : inode) (c : Z) :
  hashed v sb n -> v.(inodes) !! a = Some i -> hashed (set_inodes v (<[a := i_set_count i c]> v.(inodes))) sb n.
Proof.
  intros (x & j & Hx & Hj & Hr) Ha. destruct (decide (x = a)) as [-> | Hxa].
  - exists a, (i_set_count i c). split; [exact Hx|]. simpl. rewrite lookup_insert_eq. rewrite Ha in Hj. injection Hj as ->. auto.
  - exists x, j. split; [exact Hx|]. simpl. rewrite lookup_insert_ne by auto. auto.
Qed.

Lemma hashed_free (v : vfs ramfs) (sb n a : Z) (i : inode) :
  hashed v sb n -> v.(inodes) !! a = Some i -> flag_set i.(i_flags) MS_MEMFS = false ->
  hashed (set_inodes (set_ihash v (without a <$> v.(ihash))) (delete a v.(inodes))) sb n.
Proof.
  intros (x & j & Hx & Hj & Hn & Hs & Hm) Ha Hf. assert (x <> a) as Hxa by congruence.
  exists x, j. cbn [ihash inodes set_inodes set_ihash]. rewrite lookup_fmap, lookup_delete_ne by auto. split_and!; auto.
  destruct (ihash v !! hash_ino n) as [l |]; cbn in *; [|exact Hx].
  unfold without. apply list_elem_of_In, List.filter_In. split; [apply list_elem_of_In, Hx|].
  apply negb_true_iff, Z.eqb_neq. exact Hxa.
Qed.

Lemma name_matches_run (d : ramfs_dirent) (nm : list Z) :
  length d.(name) = 256%nat -> (length nm <= 255)%nat -> exists b, name_matches d nm = Ok b.
Proof.
  intros Hd Hn. unfold name_matches. destruct (aload_lt d.(name) (Z.of_nat (length nm))) as [c Hc]; [lia|].
  rewrite Hc. simpl. eauto.
Qed.

Lemma dload_run (s : kst (vfs ramfs)) (e : Z) (d : ramfs_dirent) :
  s.(env).(fdata).(dirents) !! e = Some d -> dload e s = Ok (d, s).
Proof. intros H. unfold dload. rewrite H. reflexivity. Qed.

Lemma lookup_loop_run (s : kst (vfs ramfs)) (nm : list Z) (l : list Z) :
  (length nm <= 255)%nat ->
  (forall e, e ∈ l -> exists d, s.(env).(fdata).(dirents) !! e = Some d /\ length d.(name) = 256%nat) ->
  exists e, lookup_loop l nm s = Ok (e, s) /\ (e = 0 \/ e ∈ l).
Proof.
  intros Hn. induction l as [| e l IH]; intros Hl; simpl; [eexists; split; [reflexivity | auto]|].
  destruct (Hl e) as (d & Hd & Hlen); [left|]. erewrite bind_ok; [|apply dload_run, Hd]. cbv beta.
  destruct (name_matches_run d nm Hlen Hn) as [b Hb]. erewrite bind_ok; [|unfold st_res; rewrite Hb; reflexivity]. cbv beta.
  destruct b; [exists e; split; [reflexivity | right; left]|].
  destruct IH as (e' & E' & He'); [intros x Hx; apply Hl; right; exact Hx|].
  exists e'. split; [exact E'|]. destruct He'; [auto | right; right; assumption].
Qed.

Context {L : VfsLaws ramfs}.

Lemma ramfs_lookup_run (A : anchor) (p : pcb) (h : list Z) (dir : Z) (i : inode) (nm : list Z) (s : kst (vfs ramfs)) :
  anchored A p -> own A (dir :: h) s -> dir <> 0 -> (length h <= 8)%nat ->
  s.(env).(inodes) !! dir = Some i -> i.(i_op) = ramfs_dir_iops_p -> (length nm <= 255)%nat ->
  exists e r s', ramfs_lookup dir nm s = Ok ((e, r), s') /\ own A (if e =? 0 then r :: h else h) s'.
Proof.
  intros HA Ho Hne Hh Hi Hop Hn. unfold ramfs_lookup. erewrite bind_ok; [|apply iload_run, Hi]. cbv beta.
  destruct (S_ISDIR (i_mode i)); cbn [negb]; cbv iota.
  2: { destruct (iput_ret_run A p HA h s dir (- ENOTDIR, 0) Ho) as (s1 & E1 & H1); [lia|]. eexists _, _, s1. split; [exact E1 | exact H1]. }
  destruct (own_fs _ _ _ Ho dir i Hi Hop) as [Hsb Hl].
  destruct (lookup_loop_run s nm (i_list i) Hn) as (e & Ee & He); [intros e He; destruct (Hl e He) as (d & ? & ? & _); eauto|].
  assert (__lookup dir nm s = Ok (e, s)) as El by (unfold __lookup; erewrite bind_ok; [exact Ee | apply iload_run, Hi]).
  erewrite bind_ok; [|exact El]. cbv beta. destruct (Z.eqb_spec e 0) as [-> | He0].
  { destruct (iput_ret_run A p HA h s dir (- ENOENT, 0) Ho) as (s1 & E1 & H1); [lia|]. eexists _, _, s1. split; [exact E1 | exact H1]. }
  destruct He as [| He]; [congruence|]. destruct (Hl e He) as (d & Hd & _ & Hh').
  erewrite bind_ok; [|apply dload_run, Hd]. cbv beta.
  destruct (__iget_run A p HA (dir :: h) s (i_sb i) (ino d) true Ho) as (r & s1 & E1 & Ho1); [simpl; lia | exact Hsb | exact Hh' |].
  erewrite bind_ok; [|exact E1]. cbv beta. apply (own_perm A _ (dir :: r :: h)) in Ho1; [|apply perm_swap].
  destruct (iput_ret_run A p HA (r :: h) s1 dir (0, r) Ho1) as (s2 & E2 & Ho2); [simpl; lia|].
  exists 0, r, s2. split; [exact E2 | exact Ho2].
Qed.

#[export] Instance ramfs_namei_laws : NameiLaws ramfs.
Proof.
  split.
  - intros x op Hop A p h dir i nm s HA Ho Hne Hh Hi Hx Hn. simpl in Hop.
    destruct (Z.eqb_spec x ramfs_dir_iops_p) as [-> |].
    + injection Hop as <-. apply (ramfs_lookup_run A p h dir i); auto.
    + destruct (x =? ramfs_reg_iops_p); [discriminate|]. destruct (_ || _); discriminate.
  - intros x op Hop. simpl in Hop. destruct (x =? ramfs_dir_iops_p); [discriminate|].
    destruct (x =? ramfs_reg_iops_p); [discriminate|]. destruct (_ || _); discriminate.
Qed.

End interface.

(** * A concrete instance *)

Definition zero_inode : inode := Inode [] 0 0 0 0 0 0 0 0 false 0 0 0 0 0.
Definition zero_file : file := File 0 0 0 0 0 0 0 0.

(** Caches of cleared objects, and the memory file system as the only one. *)
#[export] Instance plain_env : VfsEnv ramfs := {
  sops_at x := if x =? ramfs_super_ops_p then Some ramfs_super_ops else None;
  inode_cache m := Some (above m, zero_inode);
  file_cache m := Some (above m, zero_file);
}.

#[export] Instance plain_ramfs_env : RamfsEnv := {
  dirent_cache m := Some (above m, RamfsDirent 0 (replicate 256 0));
  frame_cache m := Some (above m, replicate (Z.to_nat 4096) 0);
  block_cache m := Some (above m);
}.

#[export] Instance plain_laws : VfsLaws ramfs.
Proof.
  split.
  - intros x op Hop. simpl in Hop. destruct (x =? ramfs_super_ops_p); discriminate.
  - intros v a i c Hv Ha b j Hj Hop. simpl in Hj.
    assert (exists j0, v.(inodes) !! b = Some j0 /\ j0.(i_op) = ramfs_dir_iops_p /\ j0.(i_sb) = j.(i_sb) /\ j0.(i_list) = j.(i_list))
      as (j0 & Hj0 & Hop0 & Hs0 & Hl0) by (apply lookup_insert_Some in Hj as [[<- <-] | [_ Hj]]; eauto).
    destruct (Hv b j0 Hj0 Hop0) as [Hsb Hl]. rewrite Hs0, Hl0 in *. split; [exact Hsb|].
    intros e He. destruct (Hl e He) as (d & Hd & Hn & Hh). exists d. split_and!; auto. apply hashed_count; auto.
  - intros v a i Hv Ha Hm b j Hj Hop. simpl in Hj. apply lookup_delete_Some in Hj as [_ Hj].
    destruct (Hv b j Hj Hop) as [Hsb Hl]. split; [exact Hsb|].
    intros e He. destruct (Hl e He) as (d & Hd & Hn & Hh). exists d. split_and!; auto. apply (hashed_free v _ _ a i); auto.
Qed.

(** A root directory with an empty directory "a". *)
Definition example_proc : pcb :=
  Pcb 0 0 0 (MM 0 [] 0) 0 0 0 PROC_RUNNING [] [] 0 [] 0 (SigStruct 0 0 0 [] []) (replicate 8 0) 10 10.

Definition example_root : inode := Inode [30; 31; 32] 0 S_IFDIR 3 256 0 3 3 64 false 0 0 ramfs_dir_iops_p 1 0.
Definition example_sub : inode := Inode [33; 34] 1 S_IFDIR 2 256 0 2 0 64 false 0 0 ramfs_dir_iops_p 1 0.

Definition entry (n : Z) (s : list Z) : ramfs_dirent := RamfsDirent n (splice 0 s (replicate 256 0)).

Definition example_super : super_block := SuperBlock 256 64 0 10 10 ramfs_super_ops_p 1.

Definition example_data : ramfs :=
  Ramfs (<[30 := entry 0 [46]]> (<[31 := entry 0 [46; 46]]> (<[32 := entry 1 [97]]>
         (<[33 := entry 1 [46]]> (<[34 := entry 0 [46; 46]]> ∅))))) (<[1 := 2]> ∅) ∅.

Definition example_statics : statics :=
  Statics (replicate 32 (Device [] 0)) (replicate 32 (Device [] 0)) [] (replicate 256 0) false 10.

Definition example_vfs : vfs ramfs :=
  Vfs (<[10 := example_root]> (<[11 := example_sub]> ∅)) (<[hash_ino 0 := [10]]> (<[hash_ino 1 := [11]]> ∅)) ∅ []
    [example_super] example_statics example_data.

Definition example_state : kst (vfs ramfs) := Kst [example_proc] 0 [] [] 0 (Timers ∅ [] 0) ∅ example_vfs.

Definition example_anchor : anchor :=
  Anchor (fun a => if a =? 10 then 3 else 0) [example_proc] 0 [example_super].

Lemma example_anchored : anchored example_anchor example_proc.
Proof.
  split; simpl; [intros a; destruct (a =? 10); lia | split; [lia | reflexivity] | lia | lia |].
  intros sb Hsb _. apply list_elem_of_singleton in Hsb as ->. simpl. lia.
Qed.

Lemma example_inodes (a : Z) (i : inode) :
  example_state.(env).(inodes) !! a = Some i -> a = 10 /\ i = example_root \/ a = 11 /\ i = example_sub.
Proof.
  change (example_state.(env).(inodes)) with (<[10 := example_root]> (<[11 := example_sub]> (∅ : gmap Z inode))).
  rewrite !lookup_insert_Some, lookup_empty. naive_solver.
Qed.

Lemma example_hashed (n : Z) : n = 0 \/ n = 1 -> hashed example_vfs 1 n.
Proof.
  assert (hash_ino 0 <> hash_ino 1) as Hne by (vm_compute; discriminate).
  intros [-> | ->]; [exists 10, example_root | exists 11, example_sub]; (split; [|split_and!; reflexivity]); simpl;
    rewrite ?(lookup_insert_ne _ (hash_ino 0)) by exact Hne; rewrite lookup_insert_eq; left.
Qed.

Lemma example_own : own example_anchor [] example_state.
Proof.
  split; try reflexivity.
  - intros a i Hi. apply example_inodes in Hi as [[_ ->] | [_ ->]]; unfold inode_ok; simpl; split_and!; auto with lia.
  - intros b l a. change (example_state.(env).(ihash)) with (<[hash_ino 0 := [10]]> (<[hash_ino 1 := [11]]> (∅ : gmap Z (list Z)))).
    rewrite !lookup_insert_Some, lookup_empty. intros [[_ <-] | [_ [[_ <-] | [_ ?]]]] Ha; [| |discriminate];
      apply list_elem_of_singleton in Ha as ->; eexists; reflexivity.
  - intros a. simpl. unfold icnt. destruct (example_state.(env).(inodes) !! a) as [i |] eqn:Ei.
    + apply example_inodes in Ei as [[-> ->] | [-> ->]]; reflexivity.
    + destruct (Z.eqb_spec a 10) as [-> |]; [discriminate Ei | reflexivity].
  - intros a i Hi _. apply example_inodes in Hi as [[_ ->] | [_ ->]]; (split; [discriminate|]); intros e He; simpl in He;
      repeat (apply elem_of_cons in He as [-> | He];
        [eexists; split; [reflexivity | split; [reflexivity | apply example_hashed; auto]]|]);
      apply elem_of_nil in He; destruct He.
Qed.

(** Resolving "/a/../a". *)
Lemma namei_balanced_witness :
  exists e r s', _namei [47; 97; 47; 46; 46; 47; 97] 0 true example_state = Ok ((e, r), s') /\
    (forall a, icnt s' a = icnt example_state a + (if (e =? 0) && (a =? r) && negb (a =? 0) then 1 else 0)) /\
    s'.(proctab) = example_state.(proctab) /\ s'.(current) = example_state.(current) /\
    s'.(env).(super_blocks) = example_state.(env).(super_blocks).
Proof.
  apply (namei_balanced example_anchor example_proc example_anchored example_state); [exact example_own | simpl; lia].
Defined.

Lemma example_namei : fst <$> (match _namei [47; 97; 47; 46; 46; 47; 97] 0 true example_state with Ok r => Some r | _ => None end) = Some (0, 11).
Proof. vm_compute. reflexivity. Qed.

(** * Reading back what was written *)

(** Changing one of several blocks of [n] bytes. *)
Lemma mjoin_splice {A : Type} (n : nat) (cs : list (list A)) : forall (k o : nat) (d b : list A),
  Forall (fun c => length c = n) cs -> cs !! k = Some b -> (o + length d <= n)%nat ->
  mjoin (<[k := splice o d b]> cs) = splice (k * n + o) d (mjoin cs).
Proof.
  induction cs as [| c cs IH]; intros k o d b Hl Hk Ho; [rewrite lookup_nil in Hk; discriminate|].
  apply Forall_cons in Hl as [Hc Hl]. destruct k as [| k]; simpl in *.
  - injection Hk as ->. symmetry. apply splice_app_l. lia.
  - rewrite (IH k o d b Hl Hk Ho). replace (n + k * n + o)%nat with (length c + (k * n + o))%nat by lia.
    symmetry. apply splice_app_r.
Qed.

Lemma mjoin_length {A : Type} (n : nat) (cs : list (list A)) :
  Forall (fun c => length c = n) cs -> length (mjoin cs) = (length cs * n)%nat.
Proof. induction 1 as [| c cs Hc _ IH]; simpl; [reflexivity|]. rewrite length_app. lia. Qed.

Section contents.

Context `{E : VfsEnv ramfs} `{R : RamfsEnv}.

Abbreviation k := (kst (vfs ramfs)).

(** The frame allocator finds a frame. *)
Definition frames_available : Prop :=
  forall m, exists f b, frame_cache m = Some (f, b) /\ m !! f = None /\ Z.of_nat (length b) = 4096.

Definition block (m : gmap Z (list Z)) (f : Z) : list Z := default [] (m !! f).

(** The bytes in the frames of a file. *)
Definition bytes (m : gmap Z (list Z)) (l : list Z) : list Z := mjoin (block m <$> l).

Definition frames_ok (m : gmap Z (list Z)) (l : list Z) : Prop :=
  NoDup l /\ forall f, f ∈ l -> exists b, m !! f = Some b /\ Z.of_nat (length b) = 4096.

Lemma frames_ok_blocks (m : gmap Z (list Z)) (l : list Z) (n : nat) :
  frames_ok m l -> Z.of_nat n = 4096 -> Forall (fun c => length c = n) (block m <$> l).
Proof.
  intros [_ Hf] Hn. apply Forall_fmap, Forall_forall. intros f Hin. destruct (Hf f Hin) as (b & Hb & Hl).
  unfold compose, block. rewrite Hb. simpl. lia.
Qed.

Lemma block_insert (m : gmap Z (list Z)) (l : list Z) (i : nat) (f : Z) (b : list Z) :
  NoDup l -> l !! i = Some f -> block (<[f := b]> m) <$> l = <[i := b]> (block m <$> l).
Proof.
  intros Hnd Hi. apply list_eq. intros j. rewrite list_lookup_fmap.
  destruct (decide (j = i)) as [-> | Hj].
  - rewrite Hi. simpl. unfold block. rewrite lookup_insert_eq. simpl. symmetry. apply list_lookup_insert_eq.
    rewrite length_fmap. apply lookup_lt_Some in Hi. exact Hi.
  - rewrite list_lookup_insert_ne, list_lookup_fmap by auto. destruct (l !! j) as [g |] eqn:Eg; [|reflexivity]. simpl.
    f_equal. unfold block. rewrite lookup_insert_ne; [reflexivity|]. intros ->. apply Hj. eapply NoDup_lookup; eauto.
Qed.

(** ** Growing *)

(** The file [a] gets more frames at the end; nothing else about files changes. *)
Definition grown (a : Z) (i i' : inode) (s s' : k) (n : nat) : Prop :=
  s'.(env).(files) = s.(env).(files) /\ s'.(env).(inodes) !! a = Some i' /\
  (exists fs, i' = i_set_list i (i.(i_list) ++ fs) /\ length fs = n) /\
  frames_ok s'.(env).(fdata).(frames) i'.(i_list) /\
  block s'.(env).(fdata).(frames) <$> i.(i_list) = block s.(env).(fdata).(frames) <$> i.(i_list).

Lemma grow_loop_run (Hfr : frames_available) (a : Z) (n : nat) : forall (s : k) (i : inode),
  s.(env).(inodes) !! a = Some i -> frames_ok s.(env).(fdata).(frames) i.(i_list) ->
  exists i' s', grow_loop n a s = Ok (0, s') /\ grown a i i' s s' n.
Proof.
  induction n as [| n IH]; intros s i Hi Hok; cbn [grow_loop].
  - exists i, s. split; [reflexivity|]. split_and!; auto. exists []. rewrite app_nil_r. destruct i; auto.
  - erewrite bind_ok; [|reflexivity]. cbv beta.
    destruct (Hfr s.(env).(fdata).(frames)) as (f & b & -> & Hfree & Hlen).
    erewrite bind_ok; [|reflexivity]. cbv beta. set (s1 := set_env s _).
    erewrite bind_ok; [|apply (iupd_run s1 a _ i); exact Hi]. cbv beta. set (s2 := set_env s1 _).
    assert (f ∉ i.(i_list)) as Hnew by (intros Hin; destruct (proj2 Hok f Hin) as (b' & Hb' & _); congruence).
    destruct (IH s2 (i_set_list i (i.(i_list) ++ [f]))) as (i' & s' & Es & Hf & Hi' & (fs & -> & Hfs) & Hok' & Hbl).
    + apply lookup_insert_eq.
    + destruct Hok as [Hnd Hall]. split; simpl.
      * apply NoDup_app. split_and!; [exact Hnd | | apply NoDup_singleton].
        intros x Hx Hx'. apply list_elem_of_singleton in Hx' as ->. auto.
      * intros x Hx. apply elem_of_app in Hx as [Hx | Hx].
        -- rewrite lookup_insert_ne by (intros ->; auto). apply Hall, Hx.
        -- apply list_elem_of_singleton in Hx as ->. exists b. rewrite lookup_insert_eq. auto.
    + exists (i_set_list i (i.(i_list) ++ f :: fs)), s'. split; [exact Es|]. simpl in Hok', Hi', Hbl |- *.
      rewrite <- app_assoc in Hi', Hok'. split_and!; [exact Hf | exact Hi' | exists (f :: fs); simpl; auto with lia | exact Hok' |].
      rewrite !fmap_app in Hbl. apply (f_equal (take (length i.(i_list)))) in Hbl.
      rewrite !take_app_le, !take_ge in Hbl by (rewrite length_fmap; lia). rewrite Hbl.
      apply list_fmap_ext. intros j g Hg. unfold block. rewrite lookup_insert_ne; [reflexivity|].
      intros ->. apply list_elem_of_lookup_2 in Hg. auto.
Qed.

Lemma grow_file_run (Hfr : frames_available) (a amount : Z) (s : k) (i : inode) :
  s.(env).(inodes) !! a = Some i -> frames_ok s.(env).(fdata).(frames) i.(i_list) ->
  0 <= i.(i_size) -> 0 <= amount -> i.(i_size) + amount < 2 ^ 31 -> i.(i_size) <= 4096 * Z.of_nat (length i.(i_list)) ->
  exists i' s', grow_file a amount s = Ok (0, s') /\
    s'.(env).(files) = s.(env).(files) /\ s'.(env).(inodes) !! a = Some i' /\
    (exists fs, i'.(i_list) = i.(i_list) ++ fs) /\ i'.(i_size) = i.(i_size) + amount /\
    i'.(i_size) < 4096 * Z.of_nat (length i'.(i_list)) /\
    frames_ok s'.(env).(fdata).(frames) i'.(i_list) /\
    block s'.(env).(fdata).(frames) <$> i.(i_list) = block s.(env).(fdata).(frames) <$> i.(i_list).
Proof.
  intros Hi Hok Hs Ha Hb Hl. unfold grow_file. erewrite bind_ok; [|apply iload_run, Hi]. cbv beta zeta.
  change FRAME_SIZE with 4096.
  assert (u32 (((i_size i mod 4096) +% amount) / 4096 + 1) = (i_size i mod 4096 + amount) / 4096 + 1) as -> by word_lia.
  set (nr := (i_size i mod 4096 + amount) / 4096 + 1). assert (0 < nr) as Hnr by (subst nr; lia).
  rewrite (proj2 (Z.eqb_neq nr 0)) by lia.
  destruct (grow_loop_run Hfr a (Z.to_nat nr) s i Hi Hok) as (i' & s' & Es & Hf & Hi' & (fs & -> & Hfs) & Hok' & Hbl).
  erewrite bind_ok; [|exact Es]. cbv beta. change (negb (0 =? 0)) with false. cbv iota.
  erewrite bind_ok; [|apply (iupd_run s' a _ _ Hi')]. cbv beta.
  eexists _, _. split; [reflexivity|]. simpl. rewrite lookup_insert_eq.
  split_and!; [exact Hf | reflexivity | eexists; reflexivity | simpl; word_lia | | exact Hok' | exact Hbl].
  simpl. rewrite length_app, Hfs. replace (i_size i +% amount) with (i_size i + amount) by word_lia. subst nr. lia.
Qed.

(** The frames of [a] after [buf] is stored at [pos] within one of them. *)
Lemma write_loop_run (s : k) (l buf : list Z) (pos : Z) :
  frames_ok s.(env).(fdata).(frames) l -> 0 <= pos -> pos < 4096 * Z.of_nat (length l) ->
  pos mod 4096 + Z.of_nat (length buf) <= 4096 ->
  exists f b, l !! Z.to_nat (pos / 4096) = Some f /\ s.(env).(fdata).(frames) !! f = Some b /\ Z.of_nat (length b) = 4096 /\
    let b' := splice (Z.to_nat (pos mod 4096)) buf b in
    let m' := <[f := b']> s.(env).(fdata).(frames) in
    write_loop (drop (Z.to_nat (pos / 4096)) l) buf (pos mod 4096) s =
      Ok (Z.of_nat (length buf), set_env s (set_fdata s.(env) (set_frames s.(env).(fdata) m'))) /\
    bytes m' l = splice (Z.to_nat pos) buf (bytes s.(env).(fdata).(frames) l).
Proof.
  intros Hok Hp Hlt Hfit. destruct (lookup_lt_is_Some_2 l (Z.to_nat (pos / 4096))) as [f Hf]; [lia|].
  destruct (proj2 Hok f) as (b & Hb & Hlen); [eapply list_elem_of_lookup_2, Hf|].
  exists f, b. split_and!; [exact Hf | exact Hb | exact Hlen |]. cbv zeta. split.
  - rewrite (drop_S _ f _ Hf). cbn [write_loop]. cbv zeta.
    erewrite bind_ok; [|unfold frame_load; rewrite Hb; reflexivity]. cbv beta.
    erewrite bind_ok; [|reflexivity]. cbv beta. change FRAME_SIZE with 4096.
    rewrite (proj2 (Z.leb_le (Z.of_nat (length buf)) 4096)) by lia.
    rewrite (take_ge buf) by lia. reflexivity.
  - unfold bytes. rewrite (block_insert _ _ _ _ _ (proj1 Hok) Hf).
    assert ((block (frames (fdata (env s))) <$> l) !! Z.to_nat (pos / 4096) = Some b) as Hk.
    { rewrite list_lookup_fmap, Hf. simpl. unfold block. rewrite Hb. reflexivity. }
    rewrite (mjoin_splice (length b) _ _ _ _ _ (frames_ok_blocks _ _ _ Hok Hlen) Hk) by lia. f_equal. nia.
Qed.

Lemma read_loop_run (s : k) (l : list Z) (f : Z) (b : list Z) (pos len : Z) :
  l !! Z.to_nat (pos / 4096) = Some f -> s.(env).(fdata).(frames) !! f = Some b -> 0 <= pos -> 0 <= len ->
  pos mod 4096 + len <= 4096 ->
  read_loop (drop (Z.to_nat (pos / 4096)) l) (pos mod 4096) len s =
    Ok ((take (Z.to_nat len) (drop (Z.to_nat (pos mod 4096)) b), len), s).
Proof.
  intros Hf Hb Hp Hlen Hfit. rewrite (drop_S _ f _ Hf). cbn [read_loop].
  erewrite bind_ok; [|unfold frame_load; rewrite Hb; reflexivity]. cbv beta zeta. change FRAME_SIZE with 4096.
  rewrite (proj2 (Z.leb_le len 4096)) by lia. replace (Z.min (4096 - pos mod 4096) len) with len by lia. reflexivity.
Qed.

Lemma take_drop_splice {A : Type} (x : nat) (d l : list A) :
  (x + length d <= length l)%nat -> take (length d) (drop x (splice x d l)) = d.
Proof.
  intros H. unfold splice. rewrite drop_app_length' by (rewrite length_take; lia). apply take_app_length.
Qed.

(** C27: a write that starts within the file or at its end and stays within one
    page stores the whole buffer: the contents of the file, as a list of bytes,
    are the old ones with the buffer over them from the given position, extended
    if need be, and reading the same range gives the buffer back. *)
Theorem ramfs_write_read (fp a : Z) (f : file) (i : inode) (s : k) (buf : list Z) (pos : Z) :
  frames_available ->
  s.(env).(files) !! fp = Some f -> f.(f_inode) = a -> s.(env).(inodes) !! a = Some i ->
  frames_ok s.(env).(fdata).(frames) i.(i_list) -> i.(i_size) <= 4096 * Z.of_nat (length i.(i_list)) ->
  0 <= pos <= i.(i_size) -> buf <> [] -> pos mod 4096 + Z.of_nat (length buf) <= 4096 ->
  i.(i_size) < 2 ^ 31 -> pos + Z.of_nat (length buf) < 2 ^ 31 ->
  let len := Z.of_nat (length buf) in
  exists i' s', ramfs_write fp buf pos s = Ok ((len, pos + len), s') /\
    s'.(env).(inodes) !! a = Some i' /\ i'.(i_size) = Z.max i.(i_size) (pos + len) /\
    take (Z.to_nat i'.(i_size)) (bytes s'.(env).(fdata).(frames) i'.(i_list)) =
      splice (Z.to_nat pos) buf (take (Z.to_nat i.(i_size)) (bytes s.(env).(fdata).(frames) i.(i_list))) /\
    ramfs_read fp len pos s' = Ok ((len, buf, pos + len), s').
Proof.
  intros Hfr Hf Ha Hi Hok Hsz Hpos Hbuf Hfit H31 Hb len. assert (0 < len) as Hlen by (destruct buf; [congruence | subst len; simpl; lia]).
  assert (exists i1 s1, (if i.(i_size) <? pos +% len then grow_file f.(f_inode) (pos +% len - i.(i_size)) else mret 0) s = Ok (0, s1) /\
    s1.(env).(files) = s.(env).(files) /\ s1.(env).(inodes) !! a = Some i1 /\ (exists fs, i1.(i_list) = i.(i_list) ++ fs) /\
    i1.(i_size) = Z.max i.(i_size) (pos + len) /\ i1.(i_size) <= 4096 * Z.of_nat (length i1.(i_list)) /\
    frames_ok s1.(env).(fdata).(frames) i1.(i_list) /\
    block s1.(env).(fdata).(frames) <$> i.(i_list) = block s.(env).(fdata).(frames) <$> i.(i_list))
    as (i1 & s1 & E1 & Hf1 & Hi1 & (fs & Hl1) & Hs1 & Hc1 & Hok1 & Hbl).
  { replace (pos +% len) with (pos + len) by (subst len; word_lia). destruct (Z.ltb_spec i.(i_size) (pos + len)) as [Hlt | Hge].
    - rewrite Ha. destruct (grow_file_run Hfr a (pos + len - i.(i_size)) s i Hi Hok) as (i1 & s1 & E1 & H1 & H2 & H3 & H4 & H5 & H6 & H7); [lia..|].
      exists i1, s1. split_and!; auto; lia.
    - exists i, s. split_and!; auto; [exists []; rewrite app_nil_r; reflexivity | lia]. }
  destruct (write_loop_run s1 i1.(i_list) buf pos Hok1) as (g & b & Hg & Hgb & Hgl & Ew & Hbytes); [lia | lia | exact Hfit |].
  cbv zeta in Ew, Hbytes. set (m' := <[g := _]> _) in *. set (s2 := set_env s1 _) in *.
  assert (ramfs_write fp buf pos s = Ok ((len, pos + len), s2)) as Hw.
  { unfold ramfs_write. erewrite bind_ok; [|unfold fload; rewrite Hf; reflexivity]. cbv beta. rewrite Ha in *.
    erewrite bind_ok; [|apply iload_run, Hi]. cbv beta zeta. fold len.
    erewrite bind_ok; [|exact E1]. cbv beta. change (negb (0 =? 0)) with false. cbv iota.
    rewrite (proj2 (Z.ltb_ge i.(i_size) pos)) by lia. erewrite bind_ok; [|reflexivity]. cbv beta.
    erewrite bind_ok; [|unfold ramfs_do_write; erewrite bind_ok; [|unfold fload; rewrite Hf1, Hf; reflexivity]; cbv beta;
      rewrite Ha; erewrite bind_ok; [exact Ew | apply iload_run, Hi1]]. cbv beta. fold len.
    rewrite (proj2 (Z.ltb_lt 0 len)) by lia. replace (pos +% len) with (pos + len) by (subst len; word_lia). reflexivity. }
  exists i1, s2. split_and!; [exact Hw | exact Hi1 | exact Hs1 | |].
  - change (s2.(env).(fdata).(frames)) with m'. rewrite Hbytes, Hs1. unfold bytes. rewrite Hl1, fmap_app, Hbl, join_app.
    set (old := mjoin (block (frames (fdata (env s))) <$> i_list i)).
    assert (length old = (length i.(i_list) * length b)%nat) as Hold.
    { unfold old. rewrite (mjoin_length (length b)), length_fmap; [reflexivity|]. apply (frames_ok_blocks _ _ _ Hok Hgl). }
    set (new := mjoin _). replace (Z.to_nat (Z.max i.(i_size) (pos + len)))
      with (Nat.max (Z.to_nat i.(i_size)) (Z.to_nat pos + length buf)) by (subst len; lia).
    rewrite take_splice; [rewrite take_app_le by nia; reflexivity | lia |].
    assert (length (old ++ new) = (length i1.(i_list) * length b)%nat) as ->; [|subst len; nia].
    unfold old, new. rewrite <- join_app, <- Hbl, <- fmap_app, <- Hl1, (mjoin_length (length b)), length_fmap; [reflexivity|].
    apply (frames_ok_blocks _ _ _ Hok1 Hgl).
  - unfold ramfs_read. erewrite bind_ok; [|unfold fload; change (files (env s2)) with (files (env s1)); rewrite Hf1, Hf; reflexivity].
    cbv beta. rewrite Ha. erewrite bind_ok; [|apply iload_run, Hi1]. cbv beta.
    rewrite (proj2 (Z.eqb_neq len 0)), (proj2 (Z.leb_gt i1.(i_size) pos)) by lia. cbn [orb]. cbv iota.
    replace (Z.min len (i1.(i_size) - pos)) with len by lia.
    erewrite bind_ok; [|apply (read_loop_run s2 _ g (splice (Z.to_nat (pos mod 4096)) buf b) pos len Hg); [apply lookup_insert_eq | lia | lia | exact Hfit]].
    cbv beta. cbn [fst snd]. unfold len. rewrite Nat2Z.id, take_drop_splice by lia.
    rewrite sN_id by lia. replace (pos +% Z.of_nat (length buf)) with (pos + Z.of_nat (length buf)) by word_lia. reflexivity.
Qed.

End contents.

(** ** Names created are found *)

Section create.

Context `{E : VfsEnv ramfs} `{R : RamfsEnv}.

Abbreviation k := (kst (vfs ramfs)).

(** Releasing a reference to an inode that stays in memory. *)
Lemma iput_memfs (s : k) (a : Z) (i : inode) :
  s.(env).(inodes) !! a = Some i -> a <> 0 -> flag_set i.(i_flags) MS_MEMFS = true ->
  iput a s = Ok (tt, set_env s (set_inodes s.(env) (<[a := i_set_count i (u16 (i.(i_count) - 1))]> s.(env).(inodes)))).
Proof.
  intros Hi Hne Hm. unfold iput. rewrite (proj2 (Z.eqb_neq a 0)) by exact Hne.
  erewrite bind_ok; [|apply (iupd_run s a _ i Hi)]. cbv beta.
  erewrite bind_ok; [|apply iload_run, lookup_insert_eq]. cbv beta. cbn [i_flags i_set_count]. rewrite Hm.
  rewrite andb_false_r. reflexivity.
Qed.

(** Entries that do not match are passed over. *)
Lemma lookup_loop_app (nm : list Z) (l1 l2 : list Z) (s : k) :
  lookup_loop l1 nm s = Ok (0, s) -> (forall e, e ∈ l1 -> e <> 0) ->
  lookup_loop (l1 ++ l2) nm s = lookup_loop l2 nm s.
Proof.
  induction l1 as [| e l1 IH]; intros H Hne; simpl in *; [reflexivity|].
  apply bind_inv in H as (d & s1 & Hd & H). apply bind_inv in H as (b & s2 & Hb & H).
  assert (s1 = s) as -> by (unfold dload in Hd; destruct (_ !! _); simplify_eq; reflexivity).
  assert (s2 = s) as -> by (unfold st_res in Hb; destruct (name_matches d nm); simpl in Hb; simplify_eq; reflexivity).
  erewrite bind_ok; [|exact Hd]. cbv beta. erewrite bind_ok; [|exact Hb]. cbv beta.
  destruct b; [injection H as ->; destruct (Hne 0); [left | reflexivity]|].
  apply IH; [exact H | intros x Hx; apply Hne; right; exact Hx].
Qed.

(** The search depends on the entries only. *)
Lemma lookup_loop_ext (nm : list Z) (l : list Z) (s s' : k) (r : Z) :
  (forall e, e ∈ l -> s'.(env).(fdata).(dirents) !! e = s.(env).(fdata).(dirents) !! e) ->
  lookup_loop l nm s = Ok (r, s) -> lookup_loop l nm s' = Ok (r, s').
Proof.
  induction l as [| e l IH]; intros He H; simpl in *; [injection H as <-; reflexivity|].
  apply bind_inv in H as (d & s1 & Hd & H). apply bind_inv in H as (b & s2 & Hb & H).
  unfold dload in Hd. destruct (dirents (fdata (env s)) !! e) as [d' |] eqn:Ed; [|discriminate]. injection Hd as -> <-.
  unfold st_res in Hb. destruct (name_matches d nm) as [b' | |] eqn:En; simpl in Hb; try discriminate. injection Hb as -> <-.
  erewrite bind_ok; [|apply dload_run; rewrite He by left; exact Ed]. cbv beta.
  erewrite bind_ok; [|unfold st_res; rewrite En; reflexivity]. cbv beta.
  destruct b; [injection H as <-; reflexivity|]. apply IH; [|exact H]. intros x Hx. apply He. right. exact Hx.
Qed.

Lemma name_matches_new (n : Z) (nm junk : list Z) :
  length junk = 256%nat -> (length nm <= 255)%nat -> junk !! length nm = Some 0 ->
  name_matches (RamfsDirent n (splice 0 nm junk)) nm = Ok true.
Proof.
  intros Hl Hn Hz. unfold name_matches. simpl.
  rewrite (proj2 (aload_ok (splice 0 nm junk) (Z.of_nat (length nm)) 0)).
  - cbn [res_bind]. unfold splice. simpl. rewrite take_app_length, bool_decide_true by reflexivity. reflexivity.
  - split; [lia|]. rewrite Nat2Z.id. unfold splice. simpl. rewrite lookup_app_r by lia. rewrite Nat.sub_diag, lookup_drop, Nat.add_0_r. exact Hz.
Qed.

Lemma lookup_loop_mapped (nm : list Z) (l : list Z) (s : k) :
  lookup_loop l nm s = Ok (0, s) -> (forall e, e ∈ l -> e <> 0) ->
  forall e, e ∈ l -> is_Some (s.(env).(fdata).(dirents) !! e).
Proof.
  induction l as [| x l IH]; intros H Hne e He; simpl in H; [apply elem_of_nil in He; destruct He|].
  apply bind_inv in H as (d & s1 & Hd & H). unfold dload in Hd.
  destruct (dirents (fdata (env s)) !! x) as [d' |] eqn:Ed; [|discriminate]. injection Hd as -> <-.
  apply elem_of_cons in He as [-> | He]; [eauto|].
  apply bind_inv in H as (b & s2 & Hb & H). unfold st_res in Hb. destruct (name_matches d nm) as [b' | |]; simpl in Hb; try discriminate.
  injection Hb as -> <-. destruct b; [injection H as ->; destruct (Hne 0); [left | reflexivity]|].
  apply IH; auto. intros y Hy. apply Hne. right. exact Hy.
Qed.

(** The inode and the entry made by [ramfs_do_mknod]. *)
Definition made (dir : Z) (i : inode) (nm : list Z) (a e n : Z) (sb : super_block) (ji : inode) (je : ramfs_dirent) (s s1 : k) : Prop :=
  s1.(env).(inodes) !! a = Some (i_set_size (new_inode_init i.(i_sb) sb n ji) 0) /\
  s1.(env).(inodes) !! dir = Some (i_set_size (i_set_list i (i.(i_list) ++ [e])) (i.(i_size) +% 1)) /\
  (exists t, s1.(env).(ihash) !! hash_ino n = Some (a :: t)) /\
  s1.(env).(fdata).(dirents) = <[e := RamfsDirent n (splice 0 nm je.(name))]> s.(env).(fdata).(dirents).

Lemma ramfs_do_mknod_run (dir n : Z) (i : inode) (sb : super_block) (nm : list Z) (s : k)
    (a e : Z) (ji : inode) (je : ramfs_dirent) :
  s.(env).(inodes) !! dir = Some i -> sbload i.(i_sb) s = Ok (sb, s) ->
  s.(env).(fdata).(blocks) !! sb.(s_private) = Some n -> __lookup dir nm s = Ok (0, s) ->
  inode_cache s.(env).(inodes) = Some (a, ji) -> a <> 0 -> s.(env).(inodes) !! a = None ->
  dirent_cache s.(env).(fdata).(dirents) = Some (e, je) -> e <> 0 -> (length nm <= length je.(name))%nat ->
  exists s1, ramfs_do_mknod dir nm s = Ok ((0, a), s1) /\ made dir i nm a e n sb ji je s s1.
Proof.
  intros Hi Hsb Hblk Hlk Hic Ha Hfree Hdc He Hjl.
  assert (dir <> a) as Hda by (intros ->; congruence).
  unfold ramfs_do_mknod. erewrite bind_ok; [|exact Hlk]. cbv beta. change (negb (0 =? 0)) with false. cbv iota.
  erewrite bind_ok; cycle 1.
  { unfold ramfs_new_inode. erewrite bind_ok; [|apply iload_run, Hi]. cbv beta. erewrite bind_ok; [|exact Hsb]. cbv beta.
    erewrite bind_ok; [|unfold get_empty_inode; erewrite bind_ok; [|reflexivity]; cbv beta; rewrite Hic;
                        erewrite bind_ok; [reflexivity | reflexivity]]. cbv beta.
    rewrite (proj2 (Z.eqb_neq a 0)) by exact Ha.
    erewrite bind_ok; [|unfold bload; cbn [env set_env fdata set_inodes]; rewrite Hblk; reflexivity]. cbv beta.
    erewrite bind_ok; [|reflexivity]. cbv beta.
    erewrite bind_ok; [|apply iupd_run; cbn [env set_env inodes set_inodes set_fdata]; apply lookup_insert_eq]. cbv beta.
    erewrite bind_ok; [|unfold insert_inode_hash; erewrite bind_ok; [|apply iload_run; cbn [env set_env inodes set_inodes set_fdata]; apply lookup_insert_eq]; reflexivity].
    reflexivity. }
  cbv beta. rewrite (proj2 (Z.eqb_neq a 0)) by exact Ha.
  erewrite bind_ok; [|apply iload_run; cbn [env set_env inodes set_inodes set_fdata set_ihash]; apply lookup_insert_eq]. cbv beta.
  erewrite bind_ok; cycle 1.
  { unfold ramfs_new_dirent. erewrite bind_ok; [|reflexivity]. cbv beta.
    cbn [env set_env fdata dirents set_inodes set_fdata set_ihash set_blocks]. rewrite Hdc.
    rewrite (proj2 (Nat.ltb_ge _ _)) by exact Hjl. erewrite bind_ok; [|reflexivity]. reflexivity. }
  cbv beta. rewrite (proj2 (Z.eqb_neq e 0)) by exact He.
  erewrite bind_ok; [|apply iupd_run; cbn [env set_env inodes set_inodes set_fdata set_ihash]; apply lookup_insert_eq]. cbv beta.
  erewrite bind_ok; [|apply iupd_run; cbn [env set_env inodes set_inodes set_fdata set_ihash];
    rewrite !lookup_insert_ne by auto; exact Hi]. cbv beta.
  eexists. split; [reflexivity|]. unfold made.
  cbn [env set_env inodes ihash fdata dirents set_inodes set_fdata set_ihash set_dirents set_blocks i_ino new_inode_init].
  rewrite lookup_insert_ne, !lookup_insert_eq by auto. split_and!; eauto.
Qed.

(** A lookup in a directory whose last entry has just been made. *)
Lemma made_lookup (dir e n : Z) (d1 : inode) (l nm : list Z) (je : ramfs_dirent) (s s1 : k) :
  lookup_loop l nm s = Ok (0, s) -> (forall x, x ∈ l -> x <> 0) -> (length nm <= 255)%nat ->
  length je.(name) = 256%nat -> je.(name) !! length nm = Some 0 -> s.(env).(fdata).(dirents) !! e = None ->
  s1.(env).(inodes) !! dir = Some d1 -> d1.(i_list) = l ++ [e] ->
  s1.(env).(fdata).(dirents) = <[e := RamfsDirent n (splice 0 nm je.(name))]> s.(env).(fdata).(dirents) ->
  __lookup dir nm s1 = Ok (e, s1).
Proof.
  intros Hll Hnz Hnm Hjl Hjz Hefree Hd1 Hl1 Hde1.
  unfold __lookup. erewrite bind_ok; [|apply iload_run, Hd1]. rewrite Hl1. rewrite lookup_loop_app; [|apply (lookup_loop_ext nm _ s); [|exact Hll] | exact Hnz].
  - cbn [lookup_loop]. erewrite bind_ok; [|apply dload_run; rewrite Hde1; apply lookup_insert_eq]. cbv beta.
    erewrite bind_ok; [|unfold st_res; rewrite name_matches_new by auto; reflexivity]. reflexivity.
  - intros x Hx. rewrite Hde1. apply lookup_insert_ne. intros <-.
    destruct (lookup_loop_mapped nm _ s Hll Hnz e Hx) as [? Hsome]. congruence.
Qed.

(** [iget] of an inode that is first in its hash chain. *)
Lemma iget_hashed (s : k) (sb n a : Z) (i : inode) (t : list Z) :
  sb <> 0 -> a <> 0 -> s.(env).(ihash) !! hash_ino n = Some (a :: t) -> s.(env).(inodes) !! a = Some i ->
  i.(i_ino) = n -> i.(i_sb) = sb -> i.(i_mount) = 0 ->
  iget sb n s = Ok (a, set_env s (set_inodes s.(env) (<[a := i_set_count i (u16 (i.(i_count) + 1))]> s.(env).(inodes)))).
Proof.
  intros Hsb Ha Ht Hi Hn Hs Hm. unfold iget, __iget. rewrite (proj2 (Z.eqb_neq _ 0)) by exact Hsb.
  erewrite bind_ok; [|reflexivity]. cbv beta.
  rewrite Ht. change (default [] (Some (a :: t))) with (a :: t).
  erewrite bind_ok; [|cbn [find_inode]; erewrite bind_ok; [|apply iload_run, Hi]; cbv beta; rewrite Hn, Hs, !Z.eqb_refl; reflexivity].
  cbv beta. rewrite (proj2 (Z.eqb_neq a 0)) by exact Ha. cbn [negb]. cbv iota.
  erewrite bind_ok; [|apply (iupd_run _ _ _ _ Hi)]. cbv beta.
  erewrite bind_ok; [|apply iload_run, lookup_insert_eq]. cbv beta. cbn [i_mount i_set_count]. rewrite Hm. reflexivity.
Qed.

(** A lookup that finds an entry whose inode is first in its hash chain. *)
Lemma ramfs_lookup_hashed (dir e a n : Z) (d1 a1 : inode) (d : ramfs_dirent) (nm t : list Z) (s : k) :
  s.(env).(inodes) !! dir = Some d1 -> dir <> 0 -> S_ISDIR d1.(i_mode) = true -> flag_set d1.(i_flags) MS_MEMFS = true ->
  d1.(i_sb) <> 0 -> __lookup dir nm s = Ok (e, s) -> e <> 0 -> s.(env).(fdata).(dirents) !! e = Some d -> d.(ino) = n ->
  s.(env).(ihash) !! hash_ino n = Some (a :: t) -> a <> 0 -> dir <> a -> s.(env).(inodes) !! a = Some a1 ->
  a1.(i_ino) = n -> a1.(i_sb) = d1.(i_sb) -> a1.(i_mount) = 0 ->
  exists s2, ramfs_lookup dir nm s = Ok ((0, a), s2) /\ s2.(env).(inodes) !! a = Some (i_set_count a1 (u16 (a1.(i_count) + 1))).
Proof.
  intros Hd1 Hne Hdir Hmem Hsb Hlk He Hd Hn Ht Ha Hda Ha1 Hino Hs Hm.
  unfold ramfs_lookup. erewrite (bind_ok (iload dir)); [|apply iload_run, Hd1]. cbv beta. rewrite Hdir. cbn [negb]. cbv iota.
  erewrite (bind_ok (__lookup dir nm)); [|exact Hlk]. cbv beta. rewrite (proj2 (Z.eqb_neq e 0)) by exact He.
  erewrite (bind_ok (dload e)); [|apply dload_run, Hd]. cbv beta. rewrite Hn.
  erewrite (bind_ok (iget _ _)); [|apply (iget_hashed s _ n a a1 t); auto]. cbv beta.
  erewrite (bind_ok (iput dir)); [|apply iput_memfs; [cbn [env set_env inodes set_inodes]; rewrite lookup_insert_ne by auto; exact Hd1 | exact Hne | exact Hmem]].
  eexists. split; [reflexivity|]. cbn [env set_env inodes set_inodes]. rewrite lookup_insert_ne by auto. apply lookup_insert_eq.
Qed.

(** C28: after [ramfs_create] of a name of at most 255 bytes that is not in the
    directory, with an inode and an entry to allocate, a lookup of the name finds the
    new inode, which is an empty regular file with the given mode and one link.  Two
    things must happen to be so in the memory allocated, which is not cleared: the
    mount pointer of the inode is null, because nothing stores it, and the entry has a
    NUL after the name, which [ramfs_new_dirent] does not store.  Without them the
    lookup finds another inode ([ramfs_create_stale_mount]) or none
    ([ramfs_create_not_found]). *)
Theorem ramfs_create_lookup (dir mode n : Z) (i : inode) (sb : super_block) (nm : list Z) (s : k)
    (a e : Z) (ji : inode) (je : ramfs_dirent) :
  s.(env).(inodes) !! dir = Some i -> dir <> 0 -> S_ISDIR i.(i_mode) = true -> flag_set i.(i_flags) MS_MEMFS = true ->
  sbload i.(i_sb) s = Ok (sb, s) -> i.(i_sb) <> 0 -> s.(env).(fdata).(blocks) !! sb.(s_private) = Some n ->
  __lookup dir nm s = Ok (0, s) -> (forall x, x ∈ i.(i_list) -> x <> 0) -> (length nm <= 255)%nat ->
  inode_cache s.(env).(inodes) = Some (a, ji) -> a <> 0 -> s.(env).(inodes) !! a = None -> ji.(i_mount) = 0 ->
  dirent_cache s.(env).(fdata).(dirents) = Some (e, je) -> e <> 0 -> s.(env).(fdata).(dirents) !! e = None ->
  length je.(name) = 256%nat -> je.(name) !! length nm = Some 0 ->
  exists s1 s2 r, ramfs_create dir nm mode s = Ok ((0, a), s1) /\ ramfs_lookup dir nm s1 = Ok ((0, a), s2) /\
    s2.(env).(inodes) !! a = Some r /\ r.(i_mode) = Z.lor S_IFREG mode /\ r.(i_nlink) = 1 /\ r.(i_size) = 0 /\
    r.(i_list) = [] /\ r.(i_count) = 2.
Proof.
  intros Hi Hne Hdir Hmem Hsb Hsbn Hblk Hlk Hnz Hnm Hic Ha Hfree Hmnt Hdc He Hefree Hjl Hjz.
  assert (dir <> a) as Hda by (intros ->; congruence).
  assert (lookup_loop i.(i_list) nm s = Ok (0, s)) as Hll.
  { unfold __lookup in Hlk. erewrite bind_ok in Hlk; [|apply iload_run, Hi]. exact Hlk. }
  destruct (ramfs_do_mknod_run dir n i sb nm s a e ji je) as (s0 & E0 & Ha0 & Hd0 & (t & Ht) & Hde); auto; [lia|].
  unfold ramfs_create. erewrite bind_ok; [|exact E0]. cbv beta. cbn [fst snd]. change (negb (0 =? 0)) with false. cbv iota.
  erewrite bind_ok; [|apply (iupd_run _ _ _ _ Ha0)]. cbv beta.
  erewrite bind_ok; [|apply iput_memfs; [cbn [env set_env inodes set_inodes]; rewrite lookup_insert_ne by auto; exact Hd0 | exact Hne | exact Hmem]].
  cbv beta. set (s1 := set_env _ _).
  assert (exists d1, s1.(env).(inodes) !! dir = Some d1 /\ d1.(i_mode) = i.(i_mode) /\ d1.(i_sb) = i.(i_sb) /\
    d1.(i_flags) = i.(i_flags) /\ d1.(i_list) = i.(i_list) ++ [e]) as (d1 & Hd1 & Hm1 & Hs1 & Hf1 & Hl1).
  { eexists. split; [apply lookup_insert_eq|]. auto. }
  assert (exists a1, s1.(env).(inodes) !! a = Some a1 /\ a1.(i_mode) = Z.lor S_IFREG mode /\ a1.(i_nlink) = 1 /\ a1.(i_size) = 0 /\
    a1.(i_list) = [] /\ a1.(i_count) = 1 /\ a1.(i_ino) = n /\ a1.(i_sb) = i.(i_sb) /\ a1.(i_mount) = 0) as (a1 & Ha1 & Hk1 & Hk2 & Hk3 & Hk4 & Hk5 & Hk6 & Hk7 & Hk8).
  { eexists. split; [cbn [s1 env set_env inodes set_inodes]; rewrite lookup_insert_ne by auto; apply lookup_insert_eq|]. split_and!; auto. }
  assert (s1.(env).(fdata).(dirents) = <[e := RamfsDirent n (splice 0 nm je.(name))]> s.(env).(fdata).(dirents)) as Hde1 by exact Hde.
  assert (s1.(env).(ihash) !! hash_ino n = Some (a :: t)) as Ht1 by exact Ht.
  clearbody s1. eexists s1.
  destruct (ramfs_lookup_hashed dir e a n d1 a1 (RamfsDirent n (splice 0 nm je.(name))) nm t s1) as (s2 & E2 & Hr2);
    try congruence; auto.
  { apply (made_lookup dir e n d1 i.(i_list) nm je s s1); auto. }
  { rewrite Hde1. apply lookup_insert_eq. }
  eexists s2, _. split; [reflexivity|]. split; [exact E2|]. split; [exact Hr2|].
  cbn [i_mode i_nlink i_size i_list i_count i_set_count]. rewrite Hk5. split_and!; auto.
Qed.

End create.

(** ** Examples *)

Definition with_env (v : vfs ramfs) : kst (vfs ramfs) := set_env example_state v.

(** An empty regular file, open as file 20. *)
Definition example_reg : inode := Inode [] 2 S_IFREG 1 256 0 0 1 64 false 0 0 ramfs_reg_iops_p 1 0.

Definition example_open : kst (vfs ramfs) :=
  with_env (set_files (set_inodes example_vfs (<[12 := example_reg]> example_vfs.(inodes)))
                      (<[20 := File 12 3 0 0 0 1 0 ramfs_reg_fops_p]> ∅) [20]).

Lemma plain_frames_available : frames_available.
Proof.
  intros m. destruct (above_fresh m) as [_ Hf]. eexists _, _. split; [reflexivity|]. split; [exact Hf|].
  rewrite length_replicate. lia.
Qed.

Lemma ramfs_write_read_witness :
  exists i' s', ramfs_write 20 [7; 8; 9] 0 example_open = Ok ((3, 0 + 3), s') /\
    s'.(env).(inodes) !! 12 = Some i' /\ i'.(i_size) = Z.max 0 (0 + 3) /\
    take (Z.to_nat i'.(i_size)) (bytes s'.(env).(fdata).(frames) i'.(i_list)) =
      splice (Z.to_nat 0) [7; 8; 9] (take (Z.to_nat 0) (bytes example_open.(env).(fdata).(frames) [])) /\
    ramfs_read 20 3 0 s' = Ok ((3, [7; 8; 9], 0 + 3), s').
Proof.
  apply (ramfs_write_read 20 12 (File 12 3 0 0 0 1 0 ramfs_reg_fops_p) example_reg example_open [7; 8; 9] 0);
    [exact plain_frames_available | reflexivity | reflexivity | reflexivity | | simpl; lia | simpl; lia | discriminate | simpl; lia | simpl; lia | simpl; lia].
  split; [constructor|]. intros f Hf. apply elem_of_nil in Hf. destruct Hf.
Defined.

(** The root directory with one reference more. *)
Definition example_ref : kst (vfs ramfs) :=
  with_env (set_inodes example_vfs (<[10 := i_set_count example_root 4]> example_vfs.(inodes))).

Lemma ramfs_create_lookup_witness :
  exists s1 s2 r, ramfs_create 10 [98] 0 example_ref = Ok ((0, 12), s1) /\ ramfs_lookup 10 [98] s1 = Ok ((0, 12), s2) /\
    s2.(env).(inodes) !! 12 = Some r /\ r.(i_mode) = Z.lor S_IFREG 0 /\ r.(i_nlink) = 1 /\ r.(i_size) = 0 /\
    r.(i_list) = [] /\ r.(i_count) = 2.
Proof.
  apply (ramfs_create_lookup 10 0 2 (i_set_count example_root 4) example_super [98] example_ref 12 35 zero_inode (RamfsDirent 0 (replicate 256 0)));
    try reflexivity; try discriminate; [|simpl; lia].
  intros x Hx. simpl in Hx. repeat (apply elem_of_cons in Hx as [-> | Hx]; [discriminate|]). apply elem_of_nil in Hx. destruct Hx.
Defined.

(** ** Where the code goes wrong *)

(** A write of two bytes over a page boundary reports both, but stores one. *)
Lemma ramfs_write_page_boundary :
  let s := example_open in
  match ramfs_write 20 (replicate (Z.to_nat 4096) 1) 0 s with
  | Ok (_, s) =>
      match ramfs_write 20 [2; 3] 4095 s with
      | Ok (r, s) => r = (2, 4097) /\ match ramfs_read 20 1 4096 s with Ok (r, _) => r = (1, [0], 4097) | _ => False end
      | _ => False
      end
  | _ => False
  end.
Proof. vm_compute. auto. Qed.

(** Reading more than a page returns the number of bytes of the last part only. *)
Lemma ramfs_read_short_count :
  match ramfs_write 20 (replicate (Z.to_nat 4096) 1) 0 example_open with
  | Ok (_, s) =>
      match ramfs_write 20 (replicate (Z.to_nat 4096) 2) 4096 s with
      | Ok (_, s) =>
          match ramfs_read 20 8192 0 s with
          | Ok (n, d, pos, _) => n = 4096 /\ pos = 4096 /\ Z.of_nat (length d) = 8192
          | _ => False
          end
      | _ => False
      end
  | _ => False
  end.
Proof. vm_compute. auto. Qed.

(** Removing a directory drops a reference too many: the count of its inode
    becomes 65535. *)
Lemma ramfs_rmdir_underflow :
  match ramfs_rmdir 10 [97] example_ref with
  | Ok (r, s) => r = 0 /\ icnt s 11 = 65535
  | _ => False
  end.
Proof. vm_compute. auto. Qed.

(** A cache whose objects still hold the bytes of an earlier use. *)
Definition reused_env : RamfsEnv := {|
  dirent_cache m := Some (above m, RamfsDirent 0 (replicate 256 120));
  frame_cache m := Some (above m, replicate (Z.to_nat 4096) 0);
  block_cache m := Some (above m);
|}.

(** In it the file just created is not found. *)
Lemma ramfs_create_not_found :
  match ramfs_create (R := reused_env) 10 [98] 0 example_ref with
  | Ok (r, s) => r = (0, 12) /\ match ramfs_lookup 10 [98] s with Ok (r, _) => r = (- ENOENT, 0) | _ => False end
  | _ => False
  end.
Proof. vm_compute. auto. Qed.

(** Inodes that still hold the mount pointer of an earlier use, here directory 11. *)
Definition stale_env : VfsEnv ramfs := {|
  sops_at x := if x =? ramfs_super_ops_p then Some ramfs_super_ops else None;
  inode_cache m := Some (above m, i_set_mount zero_inode 11);
  file_cache m := Some (above m, zero_file);
|}.

(** The lookup of the file just created then returns that directory. *)
Lemma ramfs_create_stale_mount :
  match ramfs_create (E := stale_env) 10 [98] 0 example_ref with
  | Ok (r, s) => r = (0, 12) /\ match ramfs_lookup 10 [98] s with Ok (r, _) => r = (0, 11) | _ => False end
  | _ => False
  end.
Proof. vm_compute. auto. Qed.

(** A name of 256 bytes makes a lookup read behind the entry. *)
Lemma ramfs_lookup_long_name : ramfs_lookup 10 (replicate 256 97) example_ref = Fault.
Proof. vm_compute. reflexivity. Qed.

(** The root directory with a file "a" of three bytes. *)
Definition example_file : kst (vfs ramfs) :=
  with_env (set_fdata (set_inodes example_vfs
      (<[10 := example_root]> (<[11 := Inode [40] 1 S_IFREG 1 256 0 3 0 64 false 0 0 ramfs_reg_iops_p 1 0]> ∅)))
    (set_frames example_data (<[40 := splice 0 [7; 8; 9] (replicate (Z.to_nat 4096) 0)]> ∅))).

(** Opening a file for writing without [O_TRUNC] truncates it, because [O_TRUNC]
    contains [O_WRONLY]; and the reference to the directory is not released. *)
Lemma open_write_truncates :
  match open_namei [97] O_WRITE 0 0 example_file with
  | Ok (r, s) => r = (0, 11) /\ i_size <$> s.(env).(inodes) !! 11 = Some 0 /\ icnt s 10 = icnt example_file 10 + 1
  | _ => False
  end.
Proof. vm_compute. auto. Qed.
