(* ===== verification/Modfs.v ===== *)
(** * The file system of boot modules (fs/modfs/modfs.c)

    The boot loader's modules appear as the files mod0, mod1, ... of a read-only
    directory.  The tree is that of the memory file system (Ramfs.v); the bytes of a
    file stay where the boot loader has put them.  What the boot loader leaves in
    memory ([mb_info], the list of modules and their bytes) does not change and is
    a parameter, like the address and the former contents of the local array
    [name] of [mkmod]. *)

From S2P Require Import Prelude Vsprintf Abi Addr Bitops Vma Timer Sig Sched Vfs Namei Ramfs.

(** ** What the boot loader leaves *)

Record multiboot_mod_list : Type := ModList {
  mod_start : Z;
  mod_end : Z;
}.

Class ModEnv : Type := {
  mb_flags : Z;
  mods_count : Z;
  mods_addr : Z;
  mod_list : gmap Z multiboot_mod_list;
  mod_mem : gmap Z Z;
  name_p : Z;
  name_junk : list Z;
}.

Definition sizeof_mod_list : Z := 16.

Definition modfs_dir_iops_p : Z := 5.
Definition modfs_reg_iops_p : Z := 6.
Definition modfs_dir_fops_p : Z := 3.
Definition modfs_reg_fops_p : Z := 4.

Section modfs.

Context `{E : VfsEnv ramfs} `{R : RamfsEnv} `{B : ModEnv}.

Abbreviation M := (ST (kst (vfs ramfs))).

(** [MULTIBOOT_MODS_VALID(mb_info)] *)
Definition MULTIBOOT_MODS_VALID : bool := negb (Z.land mb_flags (Z.shiftl 1 3) =? 0).

Definition mod_load (m : Z) : M multiboot_mod_list := fun s =>
  match mod_list !! m with
  | Some l => Ok (l, s)
  | None => Fault
  end.

(** The bytes [memcpy] reads. *)
Fixpoint mod_bytes (n : nat) (addr : Z) : res (list Z) :=
  match n with
  | O => Ok []
  | S n =>
      match mod_mem !! addr with
      | Some b => do bs <- mod_bytes n (addr +% 1); Ok (b :: bs)
      | None => Fault
      end
  end.

(** ** Operations *)

(** The result, the bytes stored into the caller's buffer and the new position. *)
Definition modfs_read (file len pos : Z) : M (Z * list Z * Z) :=
  f ← fload file;
  i ← iload f.(f_inode);
  m ← mod_load i.(i_private);
  let len := Z.min len (i.(i_size) -% pos) in
  bs ← st_res (mod_bytes (Z.to_nat len) (m.(mod_start) +% pos));
  mret (s32 len, bs, pos +% len).

Definition modfs_dir_fops : file_operations (kst (vfs ramfs)) :=
  FileOps None None None (Some ramfs_readdir) None None None.

Definition modfs_dir_iops : inode_operations (kst (vfs ramfs)) :=
  InodeOps None (Some ramfs_lookup) None None None None None None None None modfs_dir_fops_p.

Definition modfs_reg_fops : file_operations (kst (vfs ramfs)) :=
  FileOps None (Some modfs_read) None None None None None.

Definition modfs_reg_iops : inode_operations (kst (vfs ramfs)) :=
  InodeOps None None None None None None None None None None modfs_reg_fops_p.

(** ** Mounting *)

(** ["mod%lu"] *)
Definition mod_fmt : list Z := [109; 111; 100; 37; 108; 117].

(** [sprintf(name, "mod%lu", nr)]: the result and the array.  A store outside the
    array is a [Fault]. *)
Definition mod_name (nr : Z) : M (Z * list Z) :=
  match Vsprintf.sprintf (fun _ => []) name_p name_junk mod_fmt [nr] with
  | Vsprintf.VOk (len, o) => mret (len, o.(Vsprintf.obuf))
  | _ => fault
  end.

(** What [mkmod] stores into the new inode. *)
Definition mod_init (m : Z) (l : multiboot_mod_list) (i : inode) : inode :=
  Inode i.(i_list) i.(i_ino) S_IFREG 1 i.(i_dev) 0 (l.(mod_end) -% l.(mod_start)) i.(i_count) i.(i_flags)
    i.(i_dirt) i.(i_bio) i.(i_mount) modfs_reg_iops_p i.(i_sb) m.

Definition mkmod (dir m nr : Z) : M Z :=
  n ← mod_name nr;
  if n.1 <? 0 then mret n.1
  else
    r ← ramfs_do_mknod dir (take (Z.to_nat n.1) n.2);
    if negb (r.1 =? 0) then mret r.1
    else
      l ← mod_load m;
      iupd r.2 (mod_init m l) ;;
      mret 0.

(** The loop over the modules from number [i] on. *)
Fixpoint mods_loop (n : nat) (root m i : Z) : M Z :=
  match n with
  | O => mret 0
  | S n =>
      error ← mkmod root m i;
      if negb (error =? 0) then mret error else mods_loop n root (m +% sizeof_mod_list) (i +% 1)
  end.

(** 0 stands for failure. *)
Definition modfs_read_super (sb silent : Z) : M Z :=
  sb ← ramfs_read_super sb silent;
  if sb =? 0 then mret 0
  else
    s ← sbload sb;
    iupd s.(s_mounted) (fun i => i_set_kind i i.(i_mode) i.(i_nlink) i.(i_rdev) modfs_dir_iops_p) ;;
    if negb MULTIBOOT_MODS_VALID then mret sb
    else
      error ← mods_loop (Z.to_nat mods_count) s.(s_mounted) mods_addr 0;
      mret (if negb (error =? 0) then 0 else sb).

End modfs.

(** * Names *)

(** The characters of [nr] in decimal. *)
Definition decimal (nr : Z) : list Z := reverse ((fun d => 48 + d) <$> dec_digits 4 nr).

Lemma decimal_length (nr : Z) : (1 <= length (decimal nr) <= 4)%nat.
Proof.
  unfold decimal. rewrite length_reverse, length_fmap. cbn [dec_digits].
  repeat (destruct (_ =? _); cbn [length]; try lia).
Qed.

Lemma number_decimal (nr : Z) (q : Z) :
  0 <= nr < 10000 -> number nr (Spec FORMAT_TYPE_ULONG 0 10 q (-1) (-1)) = VOk (decimal nr).
Proof.
  intros H. unfold number, Vsprintf.has.
  repeat progress (rewrite ?Z.land_0_l; cbn -[Z.ltb Z.add Z.sub Z.lor put_dec mask_digits decimal s16 uN]).
  match goal with |- context [if nr <? 10 then @VOk (list Z) ?x else ?y] =>
    replace (if nr <? 10 then VOk x else y) with (VOk (reverse (decimal nr))) end.
  2: { unfold decimal. rewrite reverse_involutive. destruct (Z.ltb_spec nr 10) as [Hs | Hs].
    - rewrite dec_digits_1 by lia. rewrite Z.lor_0_r. reflexivity.
    - unfold put_dec. rewrite (proj2 (Z.leb_gt _ _)) by lia. rewrite uN_id by lia.
      pose proof (trunc_tail_run nr 0 H) as T. change (4 + 0)%nat with 4%nat in T. rewrite <- T.
      unfold put_dec_trunc8. cbn [trunc8_loop]. rewrite (proj2 (Z.leb_gt _ _)) by lia. reflexivity. }
  pose proof (decimal_length nr) as Hl. generalize dependent (decimal nr). intros d Hl.
  destruct d as [| a [| b [| c [| e [| f d]]]]]; cbn [length] in Hl; try lia; reflexivity.
Qed.

Lemma emits_fits (buf vend : Z) (cs : list Z) : forall (b : list Z) (i : nat) (ns : list (Z * Z)),
  0 <= buf -> buf + Z.of_nat (i + length cs) <= vend -> vend < 2 ^ 32 -> (i + length cs <= length b)%nat ->
  emits buf vend cs (Vout b (buf + Z.of_nat i) ns) = VOk (Vout (splice i cs b) (buf + Z.of_nat (i + length cs)) ns).
Proof.
  induction cs as [| c cs IH]; intros b i ns Hb Hv Hm Hl; cbn [emits].
  - rewrite splice_nil, Nat.add_0_r. reflexivity.
  - cbn [length] in *. unfold emit. cbn [str obuf nstores]. rewrite (proj2 (Z.ltb_lt _ _)) by lia.
    rewrite astore_in by lia. replace (Z.to_nat (buf + Z.of_nat i - buf)) with i by lia.
    cbn [mbind]. replace (buf + Z.of_nat i +% 1) with (buf + Z.of_nat (i + 1)) by word_lia.
    unfold mbind. cbn. rewrite IH; [|lia|lia|lia|rewrite length_insert; lia].
    f_equal. f_equal; [|lia]. change (c :: cs) with ([c] ++ cs). rewrite <- (splice_splice i [c] cs b) by (cbn [length]; lia).
    f_equal. unfold splice. rewrite insert_take_drop by lia. cbn [length app]. rewrite Nat.add_1_r. reflexivity.
Qed.

Lemma vbind_ok {A C : Type} (a : A) (f : A -> vres C) : (VOk a ≫= f) = f a.
Proof. reflexivity. Qed.

(** The name of module [nr]. *)
Definition module_name (nr : Z) : list Z := [109; 111; 100] ++ decimal nr.

Section proofs.

Context `{E : VfsEnv ramfs} `{R : RamfsEnv} `{B : ModEnv}.

Abbreviation k := (kst (vfs ramfs)).

Hypothesis Hname : length name_junk = 8%nat.
Hypothesis Haddr : 0 <= name_p < 2 ^ 32 - 8.

(** Up to four digits the text and its NUL fit into the array. *)
Lemma mod_name_run (nr : Z) (s : k) :
  0 <= nr < 10000 ->
  exists b, mod_name nr s = Ok ((Z.of_nat (length (module_name nr)), b), s) /\
    take (length (module_name nr)) b = module_name nr.
Proof.
  intros H. pose proof (decimal_length nr) as Hl. unfold mod_name, sprintf, vsnprintf.
  change (s32 2147483647 <? 0) with false. cbv iota zeta.
  set (v := if name_p +% 2147483647 <? name_p then _ else _).
  assert (exists vend size, v = (vend, size) /\ name_p + 8 <= vend < 2 ^ 32 /\ (0 <? size) = true) as (vend & size & -> & Hv & Hs).
  { unfold v. destruct (Z.ltb_spec (name_p +% 2147483647) name_p); eexists _, _; (split; [reflexivity|]); word_lia. }
  change (format_loop (fun _ => []) name_p (format_fuel mod_fmt) vend (Spec FORMAT_TYPE_NONE 0 0 0 0 0) mod_fmt [nr] (Vout name_junk name_p []))
    with (o ← perform name_p vend (Copy [109; 111; 100]) (Vout name_junk name_p []);
          r ← (cs ← number nr (Spec FORMAT_TYPE_ULONG 0 10 108 (-1) (-1));
               VOk (Emit cs, Spec FORMAT_TYPE_ULONG 0 10 108 (-1) (-1), [], []));
          let '(a, spec, fmt, args) := r in
          o ← perform name_p vend a o;
          format_loop (fun _ => []) name_p 13 vend spec fmt args o).
  rewrite number_decimal by exact H. cbn [perform str obuf nstores].
  rewrite Hs, (proj2 (Z.ltb_lt name_p vend)) by lia. replace (name_p - name_p) with (Z.of_nat 0) by lia.
  replace (Z.to_nat (Z.min (Z.of_nat (length [109; 111; 100])) (vend - name_p))) with 3%nat by (cbn [length]; lia).
  rewrite (copy_to_run (fun _ => [])) by (cbn [length take]; lia).
  replace (name_p +% Z.of_nat (length [109; 111; 100])) with (name_p + Z.of_nat 3) by (cbn [length]; word_lia).
  rewrite !vbind_ok. cbn [take perform].
  rewrite emits_fits by (rewrite ?splice_length; cbn [length]; lia). rewrite vbind_ok.
  change (format_loop _ _ 13 _ _ [] [] ?o) with (VOk o). rewrite vbind_ok. cbn [str obuf nstores].
  rewrite (proj2 (Z.ltb_lt _ vend)) by lia.
  replace (name_p + Z.of_nat (3 + length (decimal nr)) - name_p) with (Z.of_nat (3 + length (decimal nr))) by lia.
  replace (splice 3 (decimal nr) (splice 0 [109; 111; 100] name_junk)) with (splice 0 (module_name nr) name_junk)
    by (symmetry; apply (splice_splice 0 [109; 111; 100]); cbn [length]; lia).
  assert (length (module_name nr) = 3 + length (decimal nr))%nat as Hm by reflexivity. rewrite <- Hm.
  rewrite (copy_to_run (fun _ => [])) by (rewrite splice_length; cbn [length]; lia).
  rewrite vbind_ok. eexists. split.
  - unfold mret, st_ret. f_equal. f_equal. f_equal. rewrite sN_id; word_lia.
  - cbn [obuf]. rewrite (splice_splice 0 (module_name nr) [0]) by (cbn [Nat.add]; lia).
    unfold splice. rewrite take_0, app_nil_l, <- app_assoc, take_app_length. reflexivity.
Qed.

(** [mkmod] makes a file that a lookup of its name finds, with the size and the
    address of the module; as in [ramfs_create], the entry's memory must happen to
    hold a NUL after the name. *)
Theorem mkmod_lookup (dir m nr n : Z) (ml : multiboot_mod_list) (i : inode) (sb : super_block) (s : k)
    (a e : Z) (ji : inode) (je : ramfs_dirent) :
  0 <= nr < 10000 -> mod_list !! m = Some ml ->
  s.(env).(inodes) !! dir = Some i -> dir <> 0 -> S_ISDIR i.(i_mode) = true -> flag_set i.(i_flags) MS_MEMFS = true ->
  sbload i.(i_sb) s = Ok (sb, s) -> i.(i_sb) <> 0 -> s.(env).(fdata).(blocks) !! sb.(s_private) = Some n ->
  __lookup dir (module_name nr) s = Ok (0, s) -> (forall x, x ∈ i.(i_list) -> x <> 0) ->
  inode_cache s.(env).(inodes) = Some (a, ji) -> a <> 0 -> s.(env).(inodes) !! a = None -> ji.(i_mount) = 0 ->
  dirent_cache s.(env).(fdata).(dirents) = Some (e, je) -> e <> 0 -> s.(env).(fdata).(dirents) !! e = None ->
  length je.(name) = 256%nat -> je.(name) !! length (module_name nr) = Some 0 ->
  exists s1 s2 r, mkmod dir m nr s = Ok (0, s1) /\ ramfs_lookup dir (module_name nr) s1 = Ok ((0, a), s2) /\
    s2.(env).(inodes) !! a = Some r /\ r.(i_mode) = S_IFREG /\ r.(i_op) = modfs_reg_iops_p /\
    r.(i_size) = ml.(mod_end) -% ml.(mod_start) /\ r.(i_private) = m.
Proof.
  intros Hnr Hm Hi Hne Hdir Hmem Hsb Hsbn Hblk Hlk Hnz Hic Ha Hfree Hmnt Hdc He Hefree Hjl Hjz.
  assert (dir <> a) as Hda by (intros ->; congruence).
  pose proof (decimal_length nr) as Hl.
  assert (length (module_name nr) <= 255)%nat as Hnm by (change (3 + length (decimal nr) <= 255)%nat; lia).
  assert (lookup_loop i.(i_list) (module_name nr) s = Ok (0, s)) as Hll.
  { unfold __lookup in Hlk. erewrite bind_ok in Hlk; [|apply iload_run, Hi]. exact Hlk. }
  destruct (mod_name_run nr s Hnr) as (b & Eb & Htake).
  destruct (ramfs_do_mknod_run dir n i sb (module_name nr) s a e ji je) as (s0 & E0 & Ha0 & Hd0 & (t & Ht) & Hde); auto; [lia|].
  unfold mkmod. erewrite bind_ok; [|exact Eb]. cbv beta. cbn [fst snd]. rewrite (proj2 (Z.ltb_ge _ 0)) by lia.
  rewrite Nat2Z.id, Htake. erewrite bind_ok; [|exact E0]. cbv beta. cbn [fst snd]. change (negb (0 =? 0)) with false. cbv iota.
  erewrite bind_ok; [|unfold mod_load; rewrite Hm; reflexivity]. cbv beta.
  erewrite bind_ok; [|apply (iupd_run _ _ _ _ Ha0)]. cbv beta. set (s1 := set_env _ _).
  assert (s1.(env).(inodes) !! dir = Some (i_set_size (i_set_list i (i.(i_list) ++ [e])) (i.(i_size) +% 1))) as Hd1
    by (cbn [s1 env set_env inodes set_inodes]; rewrite lookup_insert_ne by auto; exact Hd0).
  assert (s1.(env).(inodes) !! a = Some (mod_init m ml (i_set_size (new_inode_init i.(i_sb) sb n ji) 0))) as Ha1 by apply lookup_insert_eq.
  assert (__lookup dir (module_name nr) s1 = Ok (e, s1)) as Hlk1 by (eapply (made_lookup dir e n); eauto).
  destruct (ramfs_lookup_hashed dir e a n _ _ (RamfsDirent n (splice 0 (module_name nr) je.(name))) (module_name nr) t s1 Hd1
    Hne Hdir Hmem Hsbn Hlk1 He ltac:(cbn [s1 env set_env fdata set_inodes]; rewrite Hde; apply lookup_insert_eq) eq_refl Ht Ha Hda Ha1
    eq_refl eq_refl Hmnt) as (s2 & E2 & Hr2).
  exists s1, s2. eexists. split; [reflexivity|]. split; [exact E2|]. split; [exact Hr2|]. split_and!; reflexivity.
Qed.

(** * Contents *)

Lemma mod_bytes_run (D : list Z) : forall addr,
  (forall j b, D !! j = Some b -> mod_mem !! (addr + Z.of_nat j) = Some b) ->
  0 <= addr -> addr + Z.of_nat (length D) <= 2 ^ 32 -> mod_bytes (length D) addr = Ok D.
Proof.
  clear Hname Haddr. induction D as [| b D IH]; intros addr Hm H0 H1; [reflexivity|]. cbn [length mod_bytes] in *.
  pose proof (Hm 0%nat b eq_refl) as H. rewrite Z.add_0_r in H. rewrite H.
  destruct D as [| c D]; [reflexivity|]. replace (addr +% 1) with (addr + 1) by (cbn [length] in H1; word_lia).
  rewrite IH; [reflexivity | | lia | cbn [length] in *; lia].
  intros j x Hj. replace (addr + 1 + Z.of_nat j) with (addr + Z.of_nat (S j)) by lia. apply Hm. exact Hj.
Qed.

(** Reading from a position inside a module of contents [D] gives the bytes of [D]
    from there on, as many as asked for and available, and moves the position. *)
Theorem modfs_read_correct (fp len pos : Z) (f : file) (i : inode) (ml : multiboot_mod_list) (D : list Z) (s : k) :
  s.(env).(files) !! fp = Some f -> s.(env).(inodes) !! f.(f_inode) = Some i -> mod_list !! i.(i_private) = Some ml ->
  (forall j b, D !! j = Some b -> mod_mem !! (ml.(mod_start) + Z.of_nat j) = Some b) ->
  i.(i_size) = Z.of_nat (length D) -> 0 <= ml.(mod_start) -> ml.(mod_start) + Z.of_nat (length D) < 2 ^ 32 ->
  Z.of_nat (length D) < 2 ^ 31 -> 0 <= len -> 0 <= pos <= Z.of_nat (length D) ->
  let d := take (Z.to_nat len) (drop (Z.to_nat pos) D) in
  modfs_read fp len pos s = Ok ((Z.of_nat (length d), d, pos + Z.of_nat (length d)), s).
Proof.
  clear Hname Haddr. intros Hf Hi Hml HD Hsz Hs0 Hs1 Hlen Hl Hp d.
  assert (Z.min len (i.(i_size) -% pos) = Z.of_nat (length d)) as Hmin.
  { unfold d. rewrite length_take, length_drop, Hsz. word_lia. }
  unfold modfs_read. erewrite bind_ok; [|unfold fload; rewrite Hf; reflexivity]. cbv beta.
  erewrite bind_ok; [|apply iload_run, Hi]. cbv beta.
  erewrite bind_ok; [|unfold mod_load; rewrite Hml; reflexivity]. cbv beta zeta. rewrite Hmin, Nat2Z.id.
  assert (Z.of_nat (length d) <= Z.of_nat (length D) - pos) as Hd by (unfold d; rewrite length_take, length_drop; lia).
  replace (ml.(mod_start) +% pos) with (ml.(mod_start) + pos) by word_lia.
  erewrite bind_ok; cycle 1.
  { unfold st_res. rewrite mod_bytes_run; [reflexivity | | lia | lia].
    intros j b Hj. unfold d in Hj. apply lookup_take_Some in Hj as [Hj _]. rewrite lookup_drop in Hj.
    apply HD in Hj. rewrite <- Hj. f_equal. lia. }
  cbv beta. rewrite sN_id by lia. replace (pos +% Z.of_nat (length d)) with (pos + Z.of_nat (length d)) by word_lia. reflexivity.
Qed.

End proofs.

(** * An example *)

(** Two modules of three and two bytes; the first is followed by other bytes. *)
Definition two_mods : ModEnv := {|
  mb_flags := 8;
  mods_count := 2;
  mods_addr := 1000;
  mod_list := list_to_map [(1000, ModList 2000 2003); (1016, ModList 3000 3002)];
  mod_mem := list_to_map [(2000, 1); (2001, 2); (2002, 3); (2003, 90); (2004, 91); (2005, 92); (3000, 7); (3001, 8)];
  name_p := 4290772992;
  name_junk := replicate 8 120;
|}.

Definition unmounted : kst (vfs ramfs) :=
  with_env (Vfs ∅ ∅ (<[20 := File 2 3 0 0 0 1 0 modfs_reg_fops_p]> ∅) [20] [SuperBlock 256 0 0 0 0 0 0] example_statics (Ramfs ∅ ∅ ∅)).

(** After mounting, "mod1" is the inode 3 with two bytes, "mod2" does not exist, and
    reading the first module gives its bytes. *)
Lemma modfs_mounted :
  match @modfs_read_super _ _ two_mods 1 0 unmounted with
  | Ok (r, s) =>
      r = 1 /\
      match ramfs_lookup 1 (module_name 1) s with
      | Ok ((e, a), s') => e = 0 /\ a = 3 /\ (i_size <$> s'.(env).(inodes) !! a) = Some 2
      | _ => False
      end /\
      match ramfs_lookup 1 (module_name 2) s with Ok ((e, _), _) => e = - ENOENT | _ => False end /\
      match @modfs_read two_mods 20 10 0 s with Ok (r, _) => r = (3, [1; 2; 3], 3) | _ => False end
  | _ => False
  end.
Proof. vm_compute. auto 10. Qed.

(** At a position past the end the length left wraps around, and the bytes behind
    the module are read. *)
Lemma modfs_read_past_end :
  match @modfs_read_super _ _ two_mods 1 0 unmounted with
  | Ok (_, s) => match @modfs_read two_mods 20 2 4 s with Ok (r, _) => r = (2, [91; 92], 6) | _ => False end
  | _ => False
  end.
Proof. vm_compute. reflexivity. Qed.

Lemma mkmod_lookup_witness :
  exists s1 s2 r, @mkmod _ _ two_mods 10 1016 1 example_ref = Ok (0, s1) /\
    ramfs_lookup 10 (module_name 1) s1 = Ok ((0, 12), s2) /\
    s2.(env).(inodes) !! 12 = Some r /\ r.(i_mode) = S_IFREG /\ r.(i_op) = modfs_reg_iops_p /\ r.(i_size) = 3002 -% 3000 /\ r.(i_private) = 1016.
Proof.
  apply (@mkmod_lookup _ _ two_mods eq_refl ltac:(cbn; lia) 10 1016 1 2 (ModList 3000 3002) (i_set_count example_root 4) example_super example_ref 12 35
    zero_inode (RamfsDirent 0 (replicate 256 0))); try reflexivity; try discriminate; [lia|].
  intros x Hx. simpl in Hx. repeat (apply elem_of_cons in Hx as [-> | Hx]; [discriminate|]). apply elem_of_nil in Hx. destruct Hx.
Defined.
