(* ===== verification/Super.v ===== *)
(** * File system types, device tables and mounting (fs/filesystems.c,
      fs/devices.c, fs/super.c)

    The static tables are the [statics] of [Vfs].  The function pointer
    [read_super] of a file system type is a number, and [read_super_at] gives the
    function; it returns the super block or 0.  Names are lists of bytes, and a
    null name is [None].  Messages printed are left out. *)

From S2P Require Import Prelude Abi Vma Sched Vfs Namei.

Definition NR_FILESYSTEMS : Z := 8.
Definition SBT_SIZE : Z := 100.
Definition MAX_CHRDEV : Z := 32.
Definition MAX_BLKDEV : Z := 32.
Definition UNNAMED_MAJOR : Z := 0.
Definition MOD_MAJOR : Z := 5.

Definition ROOT_DEV : Z := makedev MOD_MAJOR 0.

(** "ext2" *)
Definition ROOT_FS : list Z := [101; 120; 116; 50].

Definition root_mountflags : Z := 0.

(** The system call arguments of [mount]: addresses and lengths of strings. *)
Record mount_args : Type := MountArgs {
  m_dev : Z * Z;
  m_dir : Z * Z;
  m_type : Z * Z;
  m_flags : Z;
  m_data : Z;
}.

(** Updates of the static variables. *)

Definition st_set_devs (d : statics) (c b : list device_struct) : statics :=
  Statics c b d.(file_systems) d.(unnamed_dev_in_use) d.(first_use) d.(root_inode).
Definition st_set_types (d : statics) (l : list file_system_type) : statics :=
  Statics d.(chrdevs) d.(blkdevs) l d.(unnamed_dev_in_use) d.(first_use) d.(root_inode).
Definition st_set_unnamed (d : statics) (l : list Z) (b : bool) : statics :=
  Statics d.(chrdevs) d.(blkdevs) d.(file_systems) l b d.(root_inode).
Definition st_set_root (d : statics) (a : Z) : statics :=
  Statics d.(chrdevs) d.(blkdevs) d.(file_systems) d.(unnamed_dev_in_use) d.(first_use) a.

(** ** filesystems.c *)

(** The index of the first free entry. *)
Fixpoint free_type (l : list file_system_type) (i : nat) : option nat :=
  match l with
  | [] => None
  | t :: l => if t.(fs_read_super) =? 0 then Some i else free_type l (S i)
  end.

Fixpoint find_type (l : list file_system_type) (nm : list Z) : option file_system_type :=
  match l with
  | [] => None
  | t :: l => if negb (t.(fs_read_super) =? 0) && bool_decide (t.(fs_name) = nm) then Some t else find_type l nm
  end.

(** ** super.c: the table of super blocks *)

(** The index of the first super block with this device number. *)
Fixpoint find_super (l : list super_block) (dev i : Z) : Z :=
  match l with
  | [] => 0
  | sb :: l => if sb.(s_dev) =? dev then i else find_super l dev (i + 1)
  end.

(** The first minor number that is not in use. *)
Fixpoint free_minor (l : list Z) (i : Z) : option Z :=
  match l with
  | [] => None
  | u :: l => if u =? 0 then Some i else free_minor l (i + 1)
  end.

Section super.

Context {P : Type} `{E : VfsEnv P} `{Op : VfsOps P}.

Abbreviation M := (ST (kst (vfs P))).

Context (read_super_at : Z -> option (Z -> Z -> M Z)) (ubyte : Z -> Z).

Definition statics_of : M statics := gets (fun s => s.(env).(static)).

Definition statics_set (f : statics -> statics) : M unit := vfs_set (fun v => set_static v (f v.(static))).

Definition register_filesystem (read_super : Z) (nm : list Z) (req : bool) : M Z :=
  d ← statics_of;
  match free_type d.(file_systems) O with
  | Some i => statics_set (fun d => st_set_types d (<[i := FsType read_super nm req]> d.(file_systems))) ;; mret 0
  | None => mret (-1)
  end.

Definition get_fs_type (nm : list Z) : M (option file_system_type) :=
  d ← statics_of; mret (find_type d.(file_systems) nm).

(** ** devices.c *)

Definition get_blkfops (maj : Z) : M Z :=
  if MAX_BLKDEV <=? maj then mret 0
  else d ← statics_of; e ← st_res (aload d.(blkdevs) maj); mret e.(dev_fops).

Definition get_chrfops (maj : Z) : M Z :=
  if MAX_CHRDEV <=? maj then mret 0
  else d ← statics_of; e ← st_res (aload d.(chrdevs) maj); mret e.(dev_fops).

Definition register_chrdev (maj : Z) (nm : list Z) (fops : Z) : M Z :=
  if MAX_CHRDEV <=? maj then mret (- EINVAL)
  else
    d ← statics_of;
    e ← st_res (aload d.(chrdevs) maj);
    if negb (e.(dev_fops) =? 0) then mret (- EBUSY)
    else
      l ← st_res (astore d.(chrdevs) maj (Device nm fops));
      statics_set (fun d => st_set_devs d l d.(blkdevs)) ;;
      mret 0.

Definition register_blkdev (maj : Z) (nm : list Z) (fops : Z) : M Z :=
  if MAX_BLKDEV <=? maj then mret (- EINVAL)
  else
    d ← statics_of;
    e ← st_res (aload d.(blkdevs) maj);
    if negb (e.(dev_fops) =? 0) then mret (- EBUSY)
    else
      l ← st_res (astore d.(blkdevs) maj (Device nm fops));
      statics_set (fun d => st_set_devs d d.(chrdevs) l) ;;
      mret 0.

Definition unregister_chrdev (maj : Z) (nm : list Z) : M Z :=
  if MAX_CHRDEV <=? maj then mret (- EINVAL)
  else
    d ← statics_of;
    e ← st_res (aload d.(chrdevs) maj);
    if (e.(dev_fops) =? 0) || negb (bool_decide (e.(dev_name) = nm)) then mret (- EINVAL)
    else
      l ← st_res (astore d.(chrdevs) maj (Device [] 0));
      statics_set (fun d => st_set_devs d l d.(blkdevs)) ;;
      mret 0.

Definition unregister_blkdev (maj : Z) (nm : list Z) : M Z :=
  if MAX_BLKDEV <=? maj then mret (- EINVAL)
  else
    d ← statics_of;
    e ← st_res (aload d.(blkdevs) maj);
    if (e.(dev_fops) =? 0) || negb (bool_decide (e.(dev_name) = nm)) then mret (- EINVAL)
    else
      l ← st_res (astore d.(blkdevs) maj (Device [] 0));
      statics_set (fun d => st_set_devs d d.(chrdevs) l) ;;
      mret 0.

(** The open functions replace the operations of the file and call their [open]. *)
Definition dev_open (get : Z -> M Z) (error a fp : Z) : M Z :=
  i ← iload a;
  fops ← get (major i.(i_rdev));
  if fops =? 0 then mret (- error)
  else
    fupd fp (fun f => f_set_op f fops) ;;
    match fops_at fops ≫= open_op with
    | Some op => op a fp
    | None => mret 0
    end.

Definition blkdev_open (a fp : Z) : M Z := dev_open get_blkfops ENXIO a fp.

Definition chrdev_open (a fp : Z) : M Z := dev_open get_chrfops ENODEV a fp.

Definition def_blk_fops : file_operations (kst (vfs P)) := FileOps None None None None (Some blkdev_open) None None.

Definition def_chr_fops : file_operations (kst (vfs P)) := FileOps None None None None (Some chrdev_open) None None.

(** ** super.c *)

Definition get_super (dev : Z) : M Z :=
  if dev =? 0 then mret 0 else v ← vfs_of; mret (find_super v.(super_blocks) dev 1).

Definition put_super (dev : Z) : M unit :=
  if dev =? ROOT_DEV then mret tt
  else
    sb ← get_super dev;
    if sb =? 0 then mret tt
    else
      s ← sbload sb;
      if negb (s.(s_covered) =? 0) then mret tt
      else
        match sops_at s.(s_op) ≫= put_super_op with
        | Some op => op sb
        | None => mret tt
        end.

(** 0 stands for [NULL]. *)
Definition read_super (dev : Z) (nm : list Z) (flags silent : Z) : M Z :=
  if dev =? 0 then mret 0
  else
    sb ← get_super dev;
    if negb (sb =? 0) then mret sb
    else
      t ← get_fs_type nm;
      match t with
      | None => mret 0
      | Some t =>
          v ← vfs_of;
          let sb := find_super v.(super_blocks) 0 1 in
          if sb =? 0 then mret 0
          else
            sbupd sb (fun s => sb_set_dev s dev flags) ;;
            match read_super_at t.(fs_read_super) with
            | None => fault
            | Some op =>
                r ← op sb silent;
                if r =? 0 then sbupd sb (fun s => sb_set_dev s 0 s.(s_flags)) ;; mret 0
                else
                  sbupd sb (fun s => sb_set_dirt (sb_set_covered (sb_set_dev s dev s.(s_flags)) 0) 0) ;;
                  mret sb
            end
      end.

Definition get_unnamed_dev : M Z :=
  d ← statics_of;
  (if d.(first_use) then mret tt
   else statics_set (fun d => st_set_unnamed d (1 :: replicate 255 0) true)) ;;
  d ← statics_of;
  match free_minor d.(unnamed_dev_in_use) 0 with
  | Some i =>
      statics_set (fun d => st_set_unnamed d (<[Z.to_nat i := 1]> d.(unnamed_dev_in_use)) d.(first_use)) ;;
      mret (makedev UNNAMED_MAJOR i)
  | None => mret 0
  end.

Definition put_unnamed_dev (dev : Z) : M unit :=
  if dev =? 0 then mret tt
  else
    d ← statics_of;
    l ← st_res (astore d.(unnamed_dev_in_use) dev 0);
    statics_set (fun d => st_set_unnamed d l d.(first_use)).

Definition do_umount (dev : Z) : M Z :=
  if dev =? ROOT_DEV then mret (- ENOTSUP)
  else
    sb ← get_super dev;
    if sb =? 0 then mret (- ENOENT)
    else
      s ← sbload sb;
      if s.(s_covered) =? 0 then mret (- ENOENT)
      else
        iupd s.(s_covered) (fun i => i_set_mount i 0) ;;
        iput s.(s_covered) ;;
        sbupd sb (fun s => sb_set_covered s 0) ;;
        iput s.(s_mounted) ;;
        sbupd sb (fun s => sb_set_mounted s 0) ;;
        s ← sbload sb;
        match sops_at s.(s_op) ≫= write_super_op with
        | Some op => if negb (s.(s_dirt) =? 0) then op sb else mret tt
        | None => mret tt
        end ;;
        put_super dev ;;
        mret 0.

(** The device to unmount and the inode kept for the release function: [inl] an
    error; 0 stands for the dummy inode. *)
Definition umount_dev (a : Z) : M (Z + Z * Z) :=
  i ← iload a;
  if S_ISBLK i.(i_mode) then
    nodev ← IS_NODEV a;
    if nodev : bool then iput a ;; mret (inl (- EACCES)) else mret (inr (i.(i_rdev), a))
  else if i.(i_sb) =? 0 then iput a ;; mret (inl (- EINVAL))
  else
    s ← sbload i.(i_sb);
    if negb (a =? s.(s_mounted)) then iput a ;; mret (inl (- EINVAL))
    else iput a ;; mret (inr (s.(s_dev), 0)).

(** [iput] of the dummy inode changes nothing but the dummy. *)
Definition umount_finish (dev a : Z) : M Z :=
  if MAX_BLKDEV <=? major dev then iput a ;; mret (- ENXIO)
  else
    retval ← do_umount dev;
    (if (retval =? 0) && negb (dev =? ROOT_DEV) then
       fops ← get_blkfops (major dev);
       match fops_at fops ≫= release_op with
       | Some op => _ ← op a 0; mret tt
       | None => mret tt
       end ;;
       (if major dev =? UNNAMED_MAJOR then put_unnamed_dev dev else mret tt)
     else mret tt) ;;
    iput a ;;
    mret retval.

Definition sys_umount (nm name_len : Z) : M Z :=
  error ← verify_user_string ubyte nm name_len;
  if negb (error =? 0) then mret error
  else
    r ← namei (user_path ubyte nm name_len);
    r ← (if negb (r.1 =? 0) then lnamei (user_path ubyte nm name_len) else mret r);
    if negb (r.1 =? 0) then mret r.1
    else
      d ← umount_dev r.2;
      match d with
      | inl error => mret error
      | inr (dev, a) => umount_finish dev a
      end.

Definition do_mount (dev : Z) (dir type : list Z) (flags : Z) : M Z :=
  r ← namei dir;
  if negb (r.1 =? 0) then mret r.1
  else
    let dir_i := r.2 in
    i ← iload dir_i;
    if negb (i.(i_count) =? 1) || negb (i.(i_mount) =? 0) then iput dir_i ;; mret (- EBUSY)
    else if negb (S_ISDIR i.(i_mode)) then iput dir_i ;; mret (- EPERM)
    else
      sb ← read_super dev type flags 0;
      busy ← (if sb =? 0 then mret true else s ← sbload sb; mret (negb (s.(s_covered) =? 0)));
      if busy : bool then iput dir_i ;; mret (- EBUSY)
      else
        sbupd sb (fun s => sb_set_covered s dir_i) ;;
        s ← sbload sb;
        iupd dir_i (fun i => i_set_mount i s.(s_mounted)) ;;
        mret 0.

Definition do_remount_sb (sb flags data : Z) : M Z :=
  s ← sbload sb;
  may ← (if flag_set flags MS_RDONLY && negb (flag_set s.(s_flags) MS_RDONLY)
         then fs_may_remount_ro s.(s_dev) else mret true);
  if negb may then mret (- EBUSY)
  else
    r ← (match sops_at s.(s_op) ≫= remount_fs_op with
         | Some op => op sb flags data
         | None => mret (0, flags)
         end);
    if negb (r.1 =? 0) then mret r.1
    else
      sbupd sb (fun s => sb_set_flags s (Z.lor (Z.land s.(s_flags) (~% MS_RMT_MASK)) (Z.land r.2 MS_RMT_MASK))) ;;
      mret 0.

Definition do_remount (dir : list Z) (flags data : Z) : M Z :=
  r ← namei dir;
  if negb (r.1 =? 0) then mret r.1
  else
    i ← iload r.2;
    s ← sbload i.(i_sb);
    if negb (r.2 =? s.(s_mounted)) then iput r.2 ;; mret (- EINVAL)
    else error ← do_remount_sb i.(i_sb) flags data; iput r.2 ;; mret error.

(** The device of a mount: [inl] an error, or the number and the inode (0 for none). *)
Definition mount_dev (req : bool) (dev_name : option (list Z)) : M (Z + Z * Z) :=
  if req then
    match dev_name with
    | None => mret (inl (- ENOTBLK))
    | Some nm =>
        r ← namei nm;
        if negb (r.1 =? 0) then mret (inl r.1)
        else i ← iload r.2; if negb (S_ISBLK i.(i_mode)) then mret (inl (- ENOTBLK)) else mret (inr (i.(i_rdev), r.2))
    end
  else
    dev ← get_unnamed_dev;
    if dev =? 0 then mret (inl (- EMFILE)) else mret (inr (dev, 0)).

Definition unpacked_mount (dev_name : option (list Z)) (dir_name : list Z) (type : option (list Z))
    (flags data : Z) : M Z :=
  if flag_set flags MS_REMOUNT then do_remount dir_name flags data
  else
    let flags := Z.land flags MS_MOUNT_MASK in
    t ← (match type with Some nm => get_fs_type nm | None => mret None end);
    match type, t with
    | Some type, Some t =>
        d ← mount_dev t.(requires_dev) dev_name;
        match d with
        | inl error => mret error
        | inr (dev, a) =>
            fops ← get_blkfops (major dev);
            error ← (match fops_at fops ≫= open_op with
                     | Some op => op a 0
                     | None => mret 0
                     end);
            if negb (error =? 0) then iput a ;; mret error
            else
              error ← do_mount dev dir_name type flags;
              (if error =? 0 then mret tt
               else match fops_at fops ≫= release_op with
                    | Some op => _ ← op a 0; mret tt
                    | None => mret tt
                    end) ;;
              iput a ;;
              mret error
        end
    | _, _ => mret (- ENODEV)
    end.

(** An optional string argument. *)
Definition opt_path (s : Z * Z) : option (list Z) := if s.1 =? 0 then None else Some (user_path ubyte s.1 s.2).

Definition opt_verify (s : Z * Z) : M Z := if s.1 =? 0 then mret 0 else verify_user_string ubyte s.1 s.2.

(** [m] is the structure at [mount], of 32 bytes. *)
Definition sys_mount (mount : Z) (m : mount_args) : M Z :=
  p ← cur_proc;
  if negb (vm_verify p.(mm) mount 32 VM_READ =? 0) then mret (- EFAULT)
  else if negb (m.(m_data) =? 0) && negb (vm_verify p.(mm) m.(m_data) 4096 VM_READ =? 0) then mret (- EFAULT)
  else
    error ← verify_user_string ubyte m.(m_dir).1 m.(m_dir).2;
    if negb (error =? 0) then mret error
    else
      error ← opt_verify m.(m_dev);
      if negb (error =? 0) then mret error
      else
        error ← opt_verify m.(m_type);
        if negb (error =? 0) then mret error
        else
          unpacked_mount (opt_path m.(m_dev)) (user_path ubyte m.(m_dir).1 m.(m_dir).2) (opt_path m.(m_type))
            m.(m_flags) m.(m_data).

Definition mount_root : M unit :=
  vfs_set (fun v => set_supers v (replicate 100 (SuperBlock 0 0 0 0 0 0 0))) ;;
  sb ← read_super ROOT_DEV ROOT_FS root_mountflags 1;
  if sb =? 0 then panic
  else
    s ← sbload sb;
    statics_set (fun d => st_set_root d s.(s_mounted)) ;;
    iupd s.(s_mounted) (fun i => i_set_count i (u16 (i.(i_count) + 3))) ;;
    sbupd sb (fun s' => sb_set_covered s' s.(s_mounted)).

End super.
