(* ===== verification/Fileops.v ===== *)
(** * System calls on files (fs/open.c, fs/read_write.c, fs/stat.c, fs/fcntl.c,
      fs/ioctl.c)

    A file descriptor indexes [filp] of the running process.  A read returns its
    result and the bytes it stored into the caller's buffer; a write is given the
    bytes.  The calls that store a structure into the caller's memory return it. *)

From S2P Require Import Prelude Abi Vma Sched Vfs Namei.

Definition SEEK_SET : Z := 0.
Definition SEEK_CUR : Z := 1.
Definition SEEK_END : Z := 2.
Definition _SEEK_MAX : Z := 3.

Definition F_DUPFD : Z := 1.
Definition F_DUP2FD : Z := 2.

Record stat : Type := Stat {
  st_dev : Z;
  st_ino : Z;
  st_mode : Z;
  st_nlink : Z;
  st_uid : Z;
  st_gid : Z;
  st_rdev : Z;
  st_size : Z;
  st_blksize : Z;
  st_blocks : Z;
  st_icount : Z;
}.

Section fileops.

Context {P : Type} `{E : VfsEnv P} `{Op : VfsOps P} (ubyte : Z -> Z).

Abbreviation M := (ST (kst (vfs P))).

(** [current->filp[fd]] for an [unsigned] [fd]: 0 when out of range or unused. *)
Definition cur_file (fd : Z) : M Z :=
  p ← cur_proc;
  if NR_FILES <=? fd then mret 0 else st_res (aload p.(filp) fd).

(** [current->filp[fd] = a] *)
Definition set_cur_file (fd a : Z) : M unit :=
  c ← cur;
  p ← proc c;
  l ← st_res (astore p.(filp) fd a);
  upd c (fun p => p_files p l p.(pwd) p.(root)).

(** [vm_verify(&current->mm, ...)] as a condition. *)
Definition bad_user (start len flags : Z) : M bool :=
  p ← cur_proc; mret (negb (vm_verify p.(mm) start len flags =? 0)).

(** ** open.c *)

Definition sys_truncate (pathname name_len length : Z) : M Z :=
  error ← verify_user_string ubyte pathname name_len;
  if negb (error =? 0) then mret error
  else
    r ← namei (user_path ubyte pathname name_len);
    if negb (r.1 =? 0) then mret r.1
    else
      let a := r.2 in
      i ← iload a;
      if S_ISDIR i.(i_mode) then iput a ;; mret (- EISDIR)
      else
        perm ← permission a MAY_WRITE;
        if perm =? 0 then iput a ;; mret (- EACCES)
        else
          ops ← iops a;
          match ops ≫= truncate_op with
          | Some op => _ ← op a length; mret tt
          | None => mret tt
          end ;;
          iupd a (fun i => i_set_size i length) ;;
          mret 0.

Definition sys_chdir (pathname name_len : Z) : M Z :=
  error ← verify_user_string ubyte pathname name_len;
  if negb (error =? 0) then mret error
  else
    r ← namei (user_path ubyte pathname name_len);
    if negb (r.1 =? 0) then mret r.1
    else
      let a := r.2 in
      i ← iload a;
      if negb (S_ISDIR i.(i_mode)) then iput a ;; mret (- ENOTDIR)
      else
        perm ← permission a MAY_EXEC;
        if perm =? 0 then iput a ;; mret (- EACCES)
        else
          c ← cur;
          p ← proc c;
          iput p.(pwd) ;;
          upd c (fun p => p_files p p.(filp) a p.(root)) ;;
          mret 0.

(** The error and the file. *)
Definition file_open (a flags mode : Z) : M (Z * Z) :=
  fp ← get_empty_file;
  if fp =? 0 then mret (- ENFILE, 0)
  else
    i ← iload a;
    let ops := iops_at i.(i_op) in
    let f_op := match ops with Some o => o.(default_file_ops) | None => 0 end in
    fupd fp (fun f => File a mode i.(i_rdev) 0 (u16 flags) f.(f_count) f.(f_private) f_op) ;;
    error ← (match fops_at f_op ≫= open_op with
             | Some op => op a fp
             | None => mret 0
             end);
    if negb (error =? 0) then free_file fp ;; mret (error, 0) else mret (0, fp).

Definition sys_open (pathname name_len flags create_mode : Z) : M Z :=
  error ← verify_user_string ubyte pathname name_len;
  if negb (error =? 0) then mret error
  else
    c ← cur;
    fd ← get_fd c 0;
    if fd <? 0 then mret fd
    else
      r ← open_namei (user_path ubyte pathname name_len) flags create_mode 0;
      if negb (r.1 =? 0) then mret r.1
      else
        f ← file_open r.2 flags (Z.land flags (Z.lor O_READ O_WRITE));
        if negb (f.1 =? 0) then iput r.2 ;; mret f.1
        else set_cur_file fd f.2 ;; mret fd.

Definition sys_close (fd : Z) : M Z :=
  fp ← cur_file fd;
  if fp =? 0 then mret (- EBADF)
  else
    set_cur_file fd 0 ;;
    f ← fload fp;
    (if f.(f_count) =? 0 then mret tt else file_unref fp) ;;
    mret 0.

(** ** read_write.c *)

Definition sys_readdir (fd dirent : Z) (d : Vfs.dirent) (count : Z) : M (Z * Vfs.dirent) :=
  bad ← bad_user dirent 264 VM_WRITE;
  if bad : bool then mret (- EFAULT, d)
  else
    fp ← cur_file fd;
    if fp =? 0 then mret (- EBADF, d)
    else
      f ← fload fp;
      if f.(f_inode) =? 0 then mret (- EBADF, d)
      else
        match fops_at f.(f_op) ≫= readdir_op with
        | Some op => op f.(f_inode) fp d count
        | None => mret (- ENOTDIR, d)
        end.

(** The new position, computed in an [int]. *)
Definition seek_pos (f : file) (offset whence : Z) : M Z :=
  if whence =? SEEK_SET then mret (s32 offset)
  else if whence =? SEEK_CUR then mret (s32 (f.(f_pos) + offset))
  else i ← iload f.(f_inode); mret (s32 (i.(i_size) + offset)).

Definition sys_lseek (fd offset whence : Z) : M Z :=
  fp ← cur_file fd;
  if fp =? 0 then mret (- EBADF)
  else
    f ← fload fp;
    if f.(f_inode) =? 0 then mret (- EBADF)
    else if _SEEK_MAX <=? whence then mret (- EINVAL)
    else
      match fops_at f.(f_op) ≫= lseek_op with
      | Some op => op f.(f_inode) fp offset whence
      | None =>
          tmp ← seek_pos f offset whence;
          if tmp <? 0 then mret (- EINVAL) else fupd fp (fun f => f_set_pos f tmp) ;; mret tmp
      end.

(** The result, the bytes read and the new position. *)
Definition do_read (fp count pos : Z) : M (Z * list Z * Z) :=
  f ← fload fp;
  if negb (flag_set f.(f_mode) O_READ) then mret (- EBADF, [], pos)
  else if count =? 0 then mret (0, [], pos)
  else
    match fops_at f.(f_op) ≫= read_op with
    | Some op => op fp count pos
    | None => mret (- EINVAL, [], pos)
    end.

Definition sys_read (fd buf count : Z) : M (Z * list Z) :=
  bad ← bad_user buf count VM_WRITE;
  if bad : bool then mret (- EFAULT, [])
  else
    fp ← cur_file fd;
    if fp =? 0 then mret (- EBADF, [])
    else
      f ← fload fp;
      r ← do_read fp count f.(f_pos);
      let '(rc, data, pos) := r in
      fupd fp (fun f => f_set_pos f pos) ;;
      mret (rc, data).

Definition sys_pread (fd buf count pos : Z) : M (Z * list Z) :=
  bad ← bad_user buf count VM_WRITE;
  if bad : bool then mret (- EFAULT, [])
  else
    fp ← cur_file fd;
    if fp =? 0 then mret (- EBADF, [])
    else
      f ← fload fp;
      if f.(f_inode) =? 0 then mret (- EBADF, [])
      else
        r ← do_read fp count pos;
        let '(rc, data, _) := r in
        mret (rc, data).

Definition do_write (fp : Z) (buf : list Z) (pos : Z) : M (Z * Z) :=
  f ← fload fp;
  if negb (flag_set f.(f_mode) O_WRITE) then mret (- EBADF, pos)
  else
    ro ← (if f.(f_inode) =? 0 then mret false else IS_RDONLY f.(f_inode));
    if ro : bool then mret (- ENOSPC, pos)
    else if bool_decide (buf = []) then mret (0, pos)
    else
      match fops_at f.(f_op) ≫= write_op with
      | Some op => op fp buf pos
      | None => mret (- EINVAL, pos)
      end.

(** [data] are the bytes at [buf]. *)
Definition sys_write (fd buf : Z) (data : list Z) : M Z :=
  bad ← bad_user buf (Z.of_nat (length data)) VM_READ;
  if bad : bool then mret (- EFAULT)
  else
    fp ← cur_file fd;
    if fp =? 0 then mret (- EBADF)
    else
      f ← fload fp;
      r ← do_write fp data f.(f_pos);
      fupd fp (fun f => f_set_pos f r.2) ;;
      mret r.1.

Definition sys_pwrite (fd buf : Z) (data : list Z) (pos : Z) : M Z :=
  bad ← bad_user buf (Z.of_nat (length data)) VM_READ;
  if bad : bool then mret (- EFAULT)
  else
    fp ← cur_file fd;
    if fp =? 0 then mret (- EBADF)
    else
      f ← fload fp;
      if f.(f_inode) =? 0 then mret (- EBADF)
      else r ← do_write fp data pos; mret r.1.

(** ** stat.c *)

Definition do_stat (i : inode) : stat :=
  Stat i.(i_dev) i.(i_ino) i.(i_mode) i.(i_nlink) 0 0 i.(i_rdev) (s32 i.(i_size)) 1024 0 (u16 (i.(i_count) - 1)).

(** [fd] is an [int]: a negative one is below [NR_FILES] and reads outside the
    array.  A [struct stat] has 68 bytes. *)
Definition sys_fstat (fd st : Z) : M (Z * option stat) :=
  bad ← bad_user st 68 VM_WRITE;
  if bad : bool then mret (- EFAULT, None)
  else
    fp ← cur_file fd;
    if fp =? 0 then mret (- EBADF, None)
    else
      f ← fload fp;
      if f.(f_inode) =? 0 then mret (- EBADF, None)
      else i ← iload f.(f_inode); mret (0, Some (do_stat i)).

Definition sys_stat (pathname name_len st : Z) : M (Z * option stat) :=
  error ← verify_user_string ubyte pathname name_len;
  if negb (error =? 0) then mret (error, None)
  else
    bad ← bad_user st 68 VM_WRITE;
    if bad : bool then mret (- EFAULT, None)
    else
      r ← namei (user_path ubyte pathname name_len);
      if negb (r.1 =? 0) then mret (r.1, None)
      else i ← iload r.2; iput r.2 ;; mret (0, Some (do_stat i)).

(** ** fcntl.c *)

Definition dupfd (oldfd newfd : Z) : M Z :=
  p ← cur_proc;
  fp ← st_res (aload p.(filp) oldfd);
  set_cur_file newfd fp ;;
  fupd fp (fun f => f_set_count f (u16 (f.(f_count) + 1))) ;;
  mret newfd.

Definition do_dup (fd start : Z) : M Z :=
  c ← cur;
  ok ← fd_ok c fd;
  if negb ok then mret (- EBADF)
  else
    start ← get_fd c start;
    if start <? 0 then mret start else dupfd fd start.

(** [newfd] is an [int], and an [unsigned int] in [sys_close]. *)
Definition do_dup2 (oldfd newfd : Z) : M Z :=
  c ← cur;
  ok ← fd_ok c oldfd;
  if negb ok then mret (- EBADF)
  else if newfd =? oldfd then mret newfd
  else if NR_FILES <=? newfd then mret (- EBADF)
  else _ ← sys_close (u32 newfd); dupfd oldfd newfd.

Definition sys_fcntl (fd cmd arg : Z) : M Z :=
  if cmd =? F_DUPFD then do_dup fd arg
  else if cmd =? F_DUP2FD then do_dup2 fd arg
  else if (3 <=? cmd) && (cmd <=? 12) then mret (- ENOTSUP)
  else mret (- EINVAL).

(** ** ioctl.c *)

Definition sys_ioctl (fd cmd arg : Z) : M Z :=
  fp ← cur_file fd;
  if fp =? 0 then mret (- EBADF)
  else
    f ← fload fp;
    match fops_at f.(f_op) ≫= ioctl_op with
    | Some op => op f.(f_inode) fp cmd arg
    | None => mret (- EINVAL)
    end.

End fileops.
