(* ===== verification/Descr.v ===== *)
(** * File descriptors and reference counts (fs/open.c, fs/read_write.c, fs/stat.c,
      fs/fcntl.c, fs/ioctl.c, fs/inode.c)

    Theorems about the system calls of Fileops: the descriptor tables of all processes,
    the open files and the inodes behind them stay consistent whatever calls a process
    makes, so that no call goes through a dangling pointer, and calls on descriptors
    that are not open are refused. *)

From S2P Require Import Prelude Abi Addr Vma Timer Sig Sched Vfs Namei Ramfs Fileops.

Create HintDb calm.

(** ** Counting references *)

Lemma occ_app (a : Z) (l l' : list Z) : occ a (l ++ l') = occ a l + occ a l'.
Proof. induction l as [| b l IH]; simpl; lia. Qed.

Lemma occ_none (a : Z) (l : list Z) : a ∉ l -> occ a l = 0.
Proof.
  induction l as [| b l IH]; [reflexivity|]. rewrite not_elem_of_cons. intros [Hb Hl]. cbn [occ].
  rewrite (proj2 (Z.eqb_neq a b) Hb), (IH Hl). reflexivity.
Qed.

Lemma occ_zero (l : list Z) : occ 0 l = 0.
Proof. induction l as [| b l IH]; [reflexivity|]. cbn [occ]. rewrite Z.eqb_refl, andb_false_r. lia. Qed.

(** One more reference when [a] is [b], which is not null. *)
Definition one (a b : Z) : Z := if (a =? b) && negb (a =? 0) then 1 else 0.

Lemma one_same (a : Z) : a <> 0 -> one a a = 1.
Proof. intros H. unfold one. rewrite Z.eqb_refl, (proj2 (Z.eqb_neq a 0) H). reflexivity. Qed.

Lemma one_other (a b : Z) : a <> b -> one a b = 0.
Proof. intros H. unfold one. rewrite (proj2 (Z.eqb_neq a b) H). reflexivity. Qed.

Lemma one_null (a : Z) : one a 0 = 0.
Proof. unfold one. destruct (Z.eqb_spec a 0); reflexivity. Qed.

Lemma one_bounds (a b : Z) : 0 <= one a b <= 1.
Proof. unfold one. destruct (_ && _); lia. Qed.

Lemma occ_cons (a b : Z) (l : list Z) : occ a (b :: l) = one a b + occ a l.
Proof. reflexivity. Qed.

Lemma occ_insert (a x y : Z) (l : list Z) (i : nat) : l !! i = Some x -> occ a (<[i := y]> l) = occ a l - one a x + one a y.
Proof.
  revert i. induction l as [| b l IH]; intros [| i] Hi; try discriminate.
  - injection Hi as ->. change (<[0%nat := y]> (x :: l)) with (y :: l). rewrite !occ_cons. lia.
  - change (<[S i := y]> (b :: l)) with (b :: <[i := y]> l). rewrite !occ_cons, (IH i Hi). lia.
Qed.

(** ** The part of the state that counts *)

(** An open file by its inode and count, an inode by its count, super block and
    flags. *)
Definition fkey (f : file) : Z * Z := (f.(f_inode), f.(f_count)).

Definition ikey (i : inode) : Z * Z * Z := (i.(i_count), i.(i_sb), i.(i_flags)).

Record view : Type := View {
  v_current : Z;
  v_filp : list (list Z);
  v_files : gmap Z (Z * Z);
  v_flist : list Z;
  v_inodes : gmap Z (Z * Z * Z);
  v_supers : nat;
}.

(** All descriptors of all processes. *)
Definition fds (l : list (list Z)) : list Z := mjoin l.

(** The references that open files hold on inodes. *)
Definition irefs (m : gmap Z (Z * Z)) : list Z := (fun x => x.2.1) <$> map_to_list m.

(** The super block of an inode, which an inode of a file system in memory need not
    have. *)
Definition sb_ok (n : nat) (i : Z * Z * Z) : Prop := 0 < i.1.2 <= Z.of_nat n \/ i.1.2 = 0 /\ flag_set i.2 MS_MEMFS = true.

(** Every descriptor leads to an open file; the count of a file is the number of its
    descriptors and of the references [extra] kept by mappings; an inode has at least
    one reference for every open file that uses it. *)
Record view_wf (extra : Z -> Z) (v : view) : Prop := {
  dw_current : 0 <= v.(v_current) /\ is_Some (v.(v_filp) !! Z.to_nat v.(v_current));
  dw_filp : Forall (fun l => length l = 8%nat) v.(v_filp);
  dw_procs : (length v.(v_filp) <= 256)%nat;
  dw_null : v.(v_files) !! 0 = None;
  dw_live f : 1 <= occ f (fds v.(v_filp)) -> is_Some (v.(v_files) !! f);
  dw_count f x : v.(v_files) !! f = Some x -> x.2 = occ f (fds v.(v_filp)) + extra f /\ 1 <= x.2 /\ f ∈ v.(v_flist);
  dw_extra f : 0 <= extra f <= 60000;
  dw_inode f x : v.(v_files) !! f = Some x -> x.1 <> 0 -> exists i, v.(v_inodes) !! x.1 = Some i /\ sb_ok v.(v_supers) i;
  dw_refs a i : v.(v_inodes) !! a = Some i -> a <> 0 -> occ a (irefs v.(v_files)) <= i.1.1 < 65536;
}.

Lemma fds_cons (p : list Z) (l : list (list Z)) : fds (p :: l) = p ++ fds l.
Proof. reflexivity. Qed.

Lemma fds_insert (a : Z) (l : list (list Z)) (i : nat) (p q : list Z) :
  l !! i = Some p -> occ a (fds (<[i := q]> l)) = occ a (fds l) - occ a p + occ a q.
Proof.
  revert i. induction l as [| b l IH]; intros [| i] Hi; try discriminate.
  - injection Hi as ->. change (<[0%nat := q]> (p :: l)) with (q :: l). rewrite !fds_cons, !occ_app. lia.
  - change (<[S i := q]> (b :: l)) with (b :: <[i := q]> l). rewrite !fds_cons, !occ_app, (IH i Hi). lia.
Qed.

Lemma fds_elem (a : Z) (l : list (list Z)) (i : nat) (p : list Z) : l !! i = Some p -> occ a p <= occ a (fds l).
Proof.
  revert i. induction l as [| b l IH]; intros [| i] Hi; try discriminate; rewrite fds_cons, occ_app.
  - injection Hi as ->. pose proof (occ_bounds a (fds l)). lia.
  - specialize (IH i Hi). pose proof (occ_bounds a b). lia.
Qed.

Lemma fds_length (l : list (list Z)) : Forall (fun p => length p = 8%nat) l -> length (fds l) = (8 * length l)%nat.
Proof. induction 1 as [| p l Hp _ IH]; [reflexivity|]. rewrite fds_cons, length_app, Hp, IH. cbn [length]. lia. Qed.

Lemma irefs_delete (a b : Z) (m : gmap Z (Z * Z)) (f : Z * Z) :
  m !! b = Some f -> occ a (irefs m) = one a f.1 + occ a (irefs (delete b m)).
Proof. intros H. unfold irefs. rewrite <- (occ_perm a _ _ (fmap_Permutation _ _ _ (map_to_list_delete m b f H))). reflexivity. Qed.

Lemma irefs_insert (a b : Z) (m : gmap Z (Z * Z)) (f g : Z * Z) :
  m !! b = Some f -> g.1 = f.1 -> occ a (irefs (<[b := g]> m)) = occ a (irefs m).
Proof.
  intros H Eq. rewrite (irefs_delete a b (<[b := g]> m) g) by apply lookup_insert_eq. rewrite (irefs_delete a b m f H), Eq, delete_insert_eq. reflexivity.
Qed.

(** ** Changes of the view *)

(** Slot [fd] of process [c] gets [y] instead of [x]. *)
Definition v_slot (v : view) (fd : nat) (y : Z) : list (list Z) :=
  alter (fun l => <[fd := y]> l) (Z.to_nat v.(v_current)) v.(v_filp).

Definition slot_is (v : view) (fd : nat) (x : Z) : Prop :=
  exists l, v.(v_filp) !! Z.to_nat v.(v_current) = Some l /\ l !! fd = Some x.

Lemma slot_count (v : view) (fd : nat) (x y a : Z) :
  slot_is v fd x -> occ a (fds (v_slot v fd y)) = occ a (fds v.(v_filp)) - one a x + one a y.
Proof.
  intros (l & Hl & Hx). unfold v_slot. assert (alter (fun l => <[fd := y]> l) (Z.to_nat v.(v_current)) v.(v_filp) = <[Z.to_nat v.(v_current) := <[fd := y]> l]> v.(v_filp)) as ->.
  { apply list_eq. intros j. destruct (decide (j = Z.to_nat v.(v_current))) as [-> | Hne].
    - rewrite list_lookup_alter_eq, Hl, list_lookup_insert_eq; [reflexivity | eapply lookup_lt_Some, Hl].
    - rewrite list_lookup_alter_ne, list_lookup_insert_ne by congruence. reflexivity. }
  rewrite (fds_insert a _ _ l _ Hl), (occ_insert a x y l fd Hx). lia.
Qed.

Lemma slot_elem (v : view) (fd : nat) (x : Z) : slot_is v fd x -> x <> 0 -> 1 <= occ x (fds v.(v_filp)).
Proof.
  intros (l & Hl & Hx) Hne. pose proof (fds_elem x _ _ _ Hl). pose proof (occ_elem x l Hne ltac:(eapply list_elem_of_lookup_2, Hx)). lia.
Qed.

Section views.
Context (extra : Z -> Z).

Lemma v_slot_wf (v : view) (fd : nat) (y : Z) :
  view_wf extra v -> Forall (fun l => length l = 8%nat) (v_slot v fd y) /\ length (v_slot v fd y) = length v.(v_filp) /\
  is_Some (v_slot v fd y !! Z.to_nat v.(v_current)).
Proof.
  intros W. unfold v_slot. split; [| split].
  - apply Forall_alter; [exact (dw_filp _ _ W)|]. intros l _ Hl. rewrite length_insert. exact Hl.
  - apply length_alter.
  - destruct (dw_current _ _ W) as [_ H]. apply lookup_lt_is_Some. rewrite length_alter. apply lookup_lt_is_Some. exact H.
Qed.

Lemma count_bound (v : view) (f : Z) : view_wf extra v -> 0 <= occ f (fds v.(v_filp)) <= 2048.
Proof. intros W. pose proof (occ_bounds f (fds v.(v_filp))). rewrite (fds_length _ (dw_filp _ _ W)) in H. pose proof (dw_procs _ _ W). lia. Qed.

(** A descriptor more or less for a file that stays open. *)
Lemma wf_recount (v : view) (fd : nat) (x y f : Z) (k : Z * Z) (n := k.2 - one f x + one f y) :
  view_wf extra v -> slot_is v fd x -> v.(v_files) !! f = Some k -> x = 0 /\ y = f \/ x = f /\ y = 0 -> 1 <= n ->
  view_wf extra (View v.(v_current) (v_slot v fd y) (<[f := (k.1, n)]> v.(v_files)) v.(v_flist) v.(v_inodes) v.(v_supers)).
Proof.
  intros W Hs Hx Hxy H1. assert (f <> 0) as Hf by (intros ->; rewrite (dw_null _ _ W) in Hx; discriminate).
  destruct (v_slot_wf v fd y W) as (L1 & L2 & L3). pose proof (fun a => slot_count v fd x y a Hs) as Hc.
  assert (forall g, g <> f -> one g x = 0 /\ one g y = 0) as Ho
    by (intros g Hg; destruct Hxy as [[-> ->] | [-> ->]]; rewrite one_null, one_other by exact Hg; auto).
  split; cbn [v_current v_filp v_files v_flist v_inodes v_supers].
  - split; [exact (proj1 (dw_current _ _ W)) | exact L3].
  - exact L1.
  - rewrite L2. exact (dw_procs _ _ W).
  - rewrite lookup_insert_ne by exact Hf. exact (dw_null _ _ W).
  - intros g. rewrite Hc. destruct (decide (g = f)) as [-> | Hne]; [intros _; rewrite lookup_insert_eq; eauto|].
    destruct (Ho g Hne) as [-> ->]. rewrite lookup_insert_ne by congruence. intros H. apply (dw_live _ _ W). lia.
  - intros g z Hz. rewrite Hc. apply lookup_insert_Some in Hz as [[<- <-] | [Hne Hz]].
    + destruct (dw_count _ _ W f k Hx) as (E1 & E2 & E3). cbn [snd]. unfold n in *. split; [lia|]. split; [lia | exact E3].
    + destruct (Ho g ltac:(congruence)) as [-> ->]. destruct (dw_count _ _ W g z Hz) as (E1 & E2 & E3). split; [lia|]. auto.
  - exact (dw_extra _ _ W).
  - intros g z Hz Hne. apply lookup_insert_Some in Hz as [[<- <-] | [_ Hz]]; [exact (dw_inode _ _ W f k Hx Hne) | exact (dw_inode _ _ W g z Hz Hne)].
  - intros a i Hi Hne. rewrite (irefs_insert a f _ k _ Hx) by reflexivity. exact (dw_refs _ _ W a i Hi Hne).
Qed.

(** An inode loses a reference; without references it goes unless it lives in
    memory. *)
Definition v_iput (a : Z) (m : gmap Z (Z * Z * Z)) : gmap Z (Z * Z * Z) :=
  if a =? 0 then m
  else match m !! a with
       | Some i => if (i.1.1 - 1 =? 0) && negb (flag_set i.2 MS_MEMFS) then delete a m else <[a := (i.1.1 - 1, i.1.2, i.2)]> m
       | None => m
       end.

Lemma v_iput_lookup (a b : Z) (m : gmap Z (Z * Z * Z)) (i' : Z * Z * Z) :
  v_iput a m !! b = Some i' -> exists i, m !! b = Some i /\ i'.1.2 = i.1.2 /\ i'.2 = i.2 /\ i'.1.1 = i.1.1 - one b a.
Proof.
  unfold v_iput. destruct (Z.eqb_spec a 0) as [-> | Ha]; [intros H; exists i'; rewrite one_null; auto with lia|].
  destruct (m !! a) as [i |] eqn:Ei.
  - destruct (_ && _); intros H.
    + apply lookup_delete_Some in H as [Hne H]. exists i'. rewrite one_other by congruence. auto with lia.
    + apply lookup_insert_Some in H as [[<- <-] | [Hne H]]; [exists i; rewrite one_same by exact Ha; auto|]. exists i'. rewrite one_other by congruence. auto with lia.
  - intros H. exists i'. rewrite one_other by congruence. auto with lia.
Qed.

Lemma v_iput_keep (a b : Z) (m : gmap Z (Z * Z * Z)) (i : Z * Z * Z) :
  m !! b = Some i -> 1 < i.1.1 \/ b <> a -> exists i', v_iput a m !! b = Some i' /\ i'.1.2 = i.1.2 /\ i'.2 = i.2.
Proof.
  intros Hb Hor. unfold v_iput. destruct (Z.eqb_spec a 0) as [-> | Ha]; [eauto|]. destruct (m !! a) as [j |] eqn:Ej; [|eauto].
  destruct (decide (b = a)) as [-> | Hne].
  - rewrite Hb in Ej. injection Ej as <-. rewrite (proj2 (Z.eqb_neq _ 0)) by lia. cbn [andb]. rewrite lookup_insert_eq. eauto.
  - destruct (_ && _); [rewrite lookup_delete_ne by congruence | rewrite lookup_insert_ne by congruence]; eauto.
Qed.

(** The last descriptor of a file goes, and the file with it. *)
Lemma wf_last (v : view) (fd : nat) (f : Z) (x : Z * Z) :
  view_wf extra v -> slot_is v fd f -> v.(v_files) !! f = Some x -> x.2 = 1 ->
  view_wf extra (View v.(v_current) (v_slot v fd 0) (delete f v.(v_files)) (without f v.(v_flist)) (v_iput x.1 v.(v_inodes)) v.(v_supers)).
Proof.
  intros W Hs Hx H1. assert (f <> 0) as Hf by (intros ->; rewrite (dw_null _ _ W) in Hx; discriminate).
  destruct (v_slot_wf v fd 0 W) as (L1 & L2 & L3). pose proof (fun a => slot_count v fd f 0 a Hs) as Hc.
  pose proof (slot_elem v fd f Hs Hf) as He. destruct (dw_count _ _ W f x Hx) as (E1 & E2 & E3). pose proof (dw_extra _ _ W f) as Ex.
  split; cbn [v_current v_filp v_files v_flist v_inodes v_supers].
  - split; [exact (proj1 (dw_current _ _ W)) | exact L3].
  - exact L1.
  - rewrite L2. exact (dw_procs _ _ W).
  - apply lookup_delete_None. right. exact (dw_null _ _ W).
  - intros g. rewrite Hc, one_null. destruct (decide (g = f)) as [-> | Hne]; [rewrite one_same by exact Hf; lia|].
    rewrite one_other, lookup_delete_ne by congruence. intros H. apply (dw_live _ _ W). lia.
  - intros g y Hy. apply lookup_delete_Some in Hy as [Hne Hy]. rewrite Hc, one_null, one_other by congruence.
    destruct (dw_count _ _ W g y Hy) as (G1 & G2 & G3). split; [lia|]. split; [exact G2|].
    unfold without. apply list_elem_of_In, List.filter_In. split; [apply list_elem_of_In, G3|]. apply negb_true_iff, Z.eqb_neq. congruence.
  - exact (dw_extra _ _ W).
  - intros g y Hy Hne. apply lookup_delete_Some in Hy as [Hgf Hy]. destruct (dw_inode _ _ W g y Hy Hne) as (i & Hi & Hsb).
    destruct (v_iput_keep x.1 y.1 v.(v_inodes) i Hi) as (i' & Hi' & F1 & F2).
    { destruct (decide (y.1 = x.1)) as [Eq | Hn]; [left | auto]. pose proof (dw_refs _ _ W _ i Hi Hne) as Hr.
      rewrite (irefs_delete _ f _ x Hx), (irefs_delete _ g (delete f _) y) in Hr by (rewrite lookup_delete_ne by congruence; exact Hy).
      pose proof (occ_bounds y.1 (irefs (delete g (delete f v.(v_files))))). rewrite <- Eq, !one_same in Hr by exact Hne. lia. }
    exists i'. split; [exact Hi'|]. unfold sb_ok in *. rewrite F1, F2. exact Hsb.
  - intros a i' Hi' Hne. destruct (v_iput_lookup _ _ _ _ Hi') as (i & Hi & _ & _ & ->). pose proof (dw_refs _ _ W a i Hi Hne) as Hr.
    rewrite (irefs_delete a f _ x Hx) in Hr. pose proof (one_bounds a x.1). pose proof (occ_bounds a (irefs (delete f v.(v_files)))). lia.
Qed.

(** An inode that two open files use has two references. *)
Lemma two_users (v : view) (f g : Z) (x y : Z * Z) (i : Z * Z * Z) :
  view_wf extra v -> f <> g -> v.(v_files) !! f = Some x -> v.(v_files) !! g = Some y -> y.1 = x.1 -> x.1 <> 0 ->
  v.(v_inodes) !! x.1 = Some i -> 2 <= i.1.1.
Proof.
  intros W Hfg Hx Hy Eq Hne Hi. pose proof (dw_refs _ _ W _ i Hi Hne) as Hr.
  rewrite (irefs_delete _ f _ x Hx), (irefs_delete _ g (delete f _) y), Eq, !one_same in Hr
    by (try exact Hne; rewrite lookup_delete_ne by congruence; exact Hy).
  pose proof (occ_bounds x.1 (irefs (delete g (delete f v.(v_files))))). lia.
Qed.
End views.

(** ** The calls *)

(** What the file systems keep true of the open files and the inodes behind them. *)
Class FileInv (P : Type) : Type := { file_inv : vfs P -> Prop }.

Section calls.

Context {P : Type} `{E : VfsEnv P} `{Op : VfsOps P} `{FI : FileInv P}.

Abbreviation k := (kst (vfs P)).
Abbreviation M := (ST k).

Definition view_of (s : k) : view :=
  View s.(current) (filp <$> s.(proctab)) (fkey <$> s.(env).(files)) s.(env).(flist) (ikey <$> s.(env).(inodes))
    (length s.(env).(super_blocks)).

Definition descr_wf (extra : Z -> Z) (s : k) : Prop := view_wf extra (view_of s).

(** Steps that leave descriptors and counts alone. *)
Definition quiet (s s' : k) : Prop := view_of s' = view_of s.

(** Such a step that also keeps what the file systems rely on. *)
Definition step (s s' : k) : Prop := quiet s s' /\ file_inv s'.(env).

(** File [f] is open. *)
Definition opened (s : k) (f : Z) (y : file) : Prop := file_inv s.(env) /\ s.(env).(files) !! f = Some y.

(** What the calls need from the file systems.  The operations of an open file, called
    with the file and its inode in a state that satisfies the invariant, return and
    leave descriptors, counts and the invariant alone; and the invariant is neither
    about counts and positions nor about files and inodes that are gone. *)
Class FileLaws : Prop := {
  lseek_law op f y o w s : opened s f y -> fops_at y.(f_op) ≫= lseek_op = Some op ->
    exists r s', op y.(f_inode) f o w s = Ok (r, s') /\ step s s';
  read_law op f y n p s : opened s f y -> fops_at y.(f_op) ≫= read_op = Some op ->
    exists r s', op f n p s = Ok (r, s') /\ step s s';
  write_law op f y b p s : opened s f y -> fops_at y.(f_op) ≫= write_op = Some op ->
    exists r s', op f b p s = Ok (r, s') /\ step s s';
  readdir_law op f y d n s : opened s f y -> fops_at y.(f_op) ≫= readdir_op = Some op -> 0 <= d.(d_off) ->
    exists r s', op y.(f_inode) f d n s = Ok (r, s') /\ step s s';
  release_law op f y s : opened s f y -> fops_at y.(f_op) ≫= release_op = Some op ->
    exists r s', op y.(f_inode) f s = Ok (r, s') /\ step s s';
  ioctl_law op f y c g s : opened s f y -> fops_at y.(f_op) ≫= ioctl_op = Some op ->
    exists r s', op y.(f_inode) f c g s = Ok (r, s') /\ step s s';
  put_law x op a s : sops_at x ≫= put_inode_op = Some op -> file_inv s.(env) -> is_Some (s.(env).(inodes) !! a) ->
    exists s', op a s = Ok (tt, s') /\ step s s';
  inv_file v f y y' : file_inv v -> v.(files) !! f = Some y ->
    y'.(f_inode) = y.(f_inode) -> y'.(f_op) = y.(f_op) -> y'.(f_private) = y.(f_private) ->
    file_inv (set_files v (<[f := y']> v.(files)) v.(flist));
  inv_no_file v f l : file_inv v -> file_inv (set_files v (delete f v.(files)) l);
  inv_count v a i c : file_inv v -> v.(inodes) !! a = Some i ->
    file_inv (set_inodes v (<[a := i_set_count i c]> v.(inodes)));
  inv_no_inode v a : file_inv v -> (forall f y, v.(files) !! f = Some y -> y.(f_inode) <> a) ->
    file_inv (set_inodes (set_ihash v (without a <$> v.(ihash))) (delete a v.(inodes)));
}.

Context {L : FileLaws} (extra : Z -> Z).

(** What all calls keep. *)
Definition sound (s : k) : Prop := descr_wf extra s /\ file_inv s.(env).

Lemma step_sound (s s' : k) : descr_wf extra s -> step s s' -> sound s'.
Proof. unfold sound, descr_wf, step, quiet. intros W [-> Hi]. split; [exact W | exact Hi]. Qed.

Lemma files_view (s : k) (f : Z) (x : file) : s.(env).(files) !! f = Some x -> (view_of s).(v_files) !! f = Some (fkey x).
Proof. intros H. cbn [view_of v_files]. rewrite lookup_fmap, H. reflexivity. Qed.

Lemma view_files (s : k) (f : Z) (x : Z * Z) : (view_of s).(v_files) !! f = Some x -> exists y, s.(env).(files) !! f = Some y /\ x = fkey y.
Proof.
  cbn [view_of v_files]. rewrite lookup_fmap. destruct (s.(env).(files) !! f) as [y |]; [|discriminate]. intros [= <-]. eauto.
Qed.

Lemma view_inodes (s : k) (a : Z) (x : Z * Z * Z) : (view_of s).(v_inodes) !! a = Some x -> exists i, s.(env).(inodes) !! a = Some i /\ x = ikey i.
Proof.
  cbn [view_of v_inodes]. rewrite lookup_fmap. destruct (s.(env).(inodes) !! a) as [y |]; [|discriminate]. intros [= <-]. eauto.
Qed.

Lemma cur_wf (s : k) : descr_wf extra s -> exists p, 0 <= s.(current) /\ s.(proctab) !! Z.to_nat s.(current) = Some p /\ length p.(filp) = 8%nat.
Proof.
  intros W. destruct (dw_current _ _ W) as [H1 [l Hl]]. cbn [view_of v_current v_filp] in *. rewrite list_lookup_fmap in Hl.
  destruct (s.(proctab) !! _) as [p |] eqn:Ep; [|discriminate]. exists p. split; [exact H1|]. split; [reflexivity|]. injection Hl as <-.
  pose proof (dw_filp _ _ W) as Hf. cbn [view_of v_filp] in Hf. rewrite Forall_fmap in Hf. exact (Forall_lookup_1 _ _ _ _ Hf Ep).
Qed.

Lemma cur_proc_ok (s : k) (p : pcb) : 0 <= s.(current) -> s.(proctab) !! Z.to_nat s.(current) = Some p -> cur_proc s = Ok (p, s).
Proof. intros Hc Hp. unfold cur_proc. erewrite bind_ok by reflexivity. apply (proc_run s _ p Hc Hp). Qed.

(** Every slot of the running process. *)
Lemma slot_any (s : k) (fd : Z) : descr_wf extra s -> 0 <= fd < 8 -> exists f, slot_is (view_of s) (Z.to_nat fd) f /\
  (f = 0 \/ exists x, s.(env).(files) !! f = Some x).
Proof.
  intros W Hfd. destruct (cur_wf s W) as (p & Hc & Hp & Hl). destruct (lookup_lt_is_Some_2 p.(filp) (Z.to_nat fd)) as [f Hf]; [lia|]. exists f.
  assert (slot_is (view_of s) (Z.to_nat fd) f) as Hs.
  { exists p.(filp). split; [cbn [view_of v_filp v_current]; rewrite list_lookup_fmap, Hp; reflexivity | exact Hf]. }
  split; [exact Hs|]. destruct (Z.eq_dec f 0) as [-> | Hne]; [auto|]. right.
  destruct (dw_live _ _ W f (slot_elem _ _ _ Hs Hne)) as [x Hx]. destruct (view_files s f x Hx) as (y & Hy & _). eauto.
Qed.

(** A descriptor is unused or leads to an open file. *)
Lemma cur_file_wf (s : k) (fd : Z) :
  descr_wf extra s -> 0 <= fd ->
  exists f, cur_file fd s = Ok (f, s) /\ (fd < 8 -> slot_is (view_of s) (Z.to_nat fd) f) /\
    (f <> 0 -> fd < 8 /\ exists x, s.(env).(files) !! f = Some x).
Proof.
  intros W Hfd. destruct (cur_wf s W) as (p & Hc & Hp & Hl). unfold cur_file. rewrite (bind_ok _ _ _ _ _ (cur_proc_ok s p Hc Hp)).
  cbv beta. unfold NR_FILES. destruct (Z.leb_spec 8 fd); [exists 0; split; [reflexivity | split; [lia | contradiction]]|].
  destruct (slot_any s fd W ltac:(lia)) as (f & Hs & Hf). exists f. split; [| split; [auto | intros Hne; destruct Hf; [contradiction | auto]]].
  destruct Hs as (l & Hl' & Hs). cbn [view_of v_filp v_current] in Hl'. rewrite list_lookup_fmap, Hp in Hl'. injection Hl' as <-.
  unfold st_res. rewrite (proj2 (aload_ok _ fd f)) by auto. reflexivity.
Qed.

Lemma fload_run (s : k) (f : Z) (x : file) : s.(env).(files) !! f = Some x -> fload f s = Ok (x, s).
Proof. unfold fload. intros ->. reflexivity. Qed.

(** The state in which file [f] is [y]. *)
Definition with_file (s : k) (f : Z) (y : file) : k := set_env s (set_files s.(env) (<[f := y]> s.(env).(files)) s.(env).(flist)).

Lemma fupd_run (s : k) (f : Z) (g : file -> file) (x : file) : s.(env).(files) !! f = Some x -> fupd f g s = Ok (tt, with_file s f (g x)).
Proof. intros H. unfold fupd. erewrite bind_ok; [| apply fload_run, H]. reflexivity. Qed.

Lemma view_with_file (s : k) (f : Z) (y : file) :
  view_of (with_file s f y) = View (view_of s).(v_current) (view_of s).(v_filp) (<[f := fkey y]> (view_of s).(v_files)) (view_of s).(v_flist)
    (view_of s).(v_inodes) (view_of s).(v_supers).
Proof. unfold view_of, with_file. cbn. rewrite fmap_insert. reflexivity. Qed.

(** Storing a position. *)
Lemma set_pos_quiet (s : k) (f v : Z) :
  file_inv s.(env) -> is_Some ((view_of s).(v_files) !! f) -> exists s', fupd f (fun x => f_set_pos x v) s = Ok (tt, s') /\ step s s'.
Proof.
  intros Hfi [x Hx]. destruct (view_files s f x Hx) as (y & Hy & ->). eexists. split; [apply (fupd_run s f _ y Hy)|].
  split; [|apply (inv_file _ _ y); auto]. unfold quiet. rewrite view_with_file. change (fkey (f_set_pos y v)) with (fkey y). rewrite insert_id by exact Hx. reflexivity.
Qed.

(** The state in which slot [fd] of the running process is [a]. *)
Definition with_slot (s : k) (fd a : Z) (p : pcb) : k :=
  set_procs s (<[Z.to_nat s.(current) := p_files p (<[Z.to_nat fd := a]> p.(filp)) p.(pwd) p.(root)]> s.(proctab)).

Lemma set_cur_file_run (s : k) (fd a : Z) :
  descr_wf extra s -> 0 <= fd < 8 ->
  exists p, s.(proctab) !! Z.to_nat s.(current) = Some p /\ set_cur_file fd a s = Ok (tt, with_slot s fd a p) /\
  view_of (with_slot s fd a p) = View (view_of s).(v_current) (v_slot (view_of s) (Z.to_nat fd) a) (view_of s).(v_files)
    (view_of s).(v_flist) (view_of s).(v_inodes) (view_of s).(v_supers).
Proof.
  intros W Hfd. destruct (cur_wf s W) as (p & Hc & Hp & Hl). exists p. split; [exact Hp|]. split.
  - unfold set_cur_file. erewrite bind_ok by reflexivity. erewrite bind_ok; [| apply (proc_run s _ p Hc Hp)]. cbv beta.
    erewrite bind_ok; [| unfold st_res; rewrite astore_in by lia; reflexivity]. cbv beta. rewrite (upd_run s _ _ p Hc Hp). reflexivity.
  - unfold view_of, with_slot. cbn [current proctab env set_procs v_current v_files v_flist v_inodes v_supers v_filp]. f_equal.
    rewrite list_fmap_insert. cbn [filp p_files]. unfold v_slot. cbn [v_current v_filp].
    apply list_eq. intros j. destruct (decide (j = Z.to_nat s.(current))) as [-> | Hne].
    + rewrite list_lookup_alter_eq, list_lookup_insert_eq by (rewrite length_fmap; eapply lookup_lt_Some, Hp). rewrite list_lookup_fmap, Hp. reflexivity.
    + rewrite list_lookup_alter_ne, list_lookup_insert_ne by congruence. reflexivity.
Qed.

Lemma with_inodes_view (s : k) (m : gmap Z inode) :
  view_of (set_env s (set_inodes s.(env) m)) = View (view_of s).(v_current) (view_of s).(v_filp) (view_of s).(v_files) (view_of s).(v_flist)
    (ikey <$> m) (view_of s).(v_supers).
Proof. reflexivity. Qed.

Lemma sbload_ok (s : k) (n : Z) : 0 < n <= Z.of_nat (length s.(env).(super_blocks)) -> exists sb, sbload n s = Ok (sb, s).
Proof.
  intros Hn. destruct (aload_lt s.(env).(super_blocks) (n - 1)) as [sb Hsb]; [lia|]. exists sb.
  unfold sbload, vfs_of. erewrite bind_ok by reflexivity. unfold st_res. rewrite Hsb. reflexivity.
Qed.

(** Releasing a reference to an inode. *)
Lemma iput_view (s : k) (a f : Z) (v := view_of s) :
  file_inv s.(env) ->
  (forall i, v.(v_inodes) !! a = Some i -> i.1.1 = 1 -> a <> 0 -> forall g y, g <> f -> v.(v_files) !! g = Some y -> y.1 <> a) ->
  (a <> 0 -> exists i, v.(v_inodes) !! a = Some i /\ sb_ok v.(v_supers) i /\ 1 <= i.1.1 < 65536) ->
  exists s', iput a s = Ok (tt, s') /\
    view_of s' = View v.(v_current) v.(v_filp) v.(v_files) v.(v_flist) (v_iput a v.(v_inodes)) v.(v_supers) /\
    forall l, file_inv (set_files s'.(env) (delete f s'.(env).(files)) l).
Proof.
  intros Hfi Hu Ha. unfold iput, v_iput. destruct (Z.eqb_spec a 0) as [-> | Hne]; [exists s; split_and!; try reflexivity; intros l; apply inv_no_file, Hfi|].
  destruct (Ha Hne) as (x & Hx & Hsb & Hc). rewrite Hx. destruct (view_inodes s a x Hx) as (i & Hi & ->). cbn [ikey fst snd] in *.
  erewrite bind_ok; [| apply (iupd_run s a _ i Hi)]. cbv beta. rewrite uN_id by lia. set (i1 := i_set_count i _). set (s1 := set_env s _).
  assert (s1.(env).(inodes) !! a = Some i1) as Hi1 by apply lookup_insert_eq.
  assert (view_of s1 = View v.(v_current) v.(v_filp) v.(v_files) v.(v_flist) (<[a := (i.(i_count) - 1, i.(i_sb), i.(i_flags))]> v.(v_inodes)) v.(v_supers)) as V1.
  { unfold s1. rewrite with_inodes_view, fmap_insert. reflexivity. }
  assert (file_inv s1.(env)) as Hf1 by (apply inv_count; auto).
  erewrite bind_ok; [| apply iload_run, Hi1]. cbv beta. unfold i1. cbn [i_count i_set_count i_flags i_sb].
  destruct ((i_count i - 1 =? 0) && negb (flag_set (i_flags i) MS_MEMFS)) eqn:Eb; [| exists s1; split_and!; [reflexivity | exact V1 | intros l; apply inv_no_file, Hf1]].
  apply andb_true_iff in Eb as [Ez Em]. apply Z.eqb_eq in Ez. apply negb_true_iff in Em. destruct Hsb as [Hsb | [_ Hm]]; [| cbn in Hm; congruence].
  destruct (sbload_ok s1 i.(i_sb)) as [sb Esb]; [exact Hsb|]. erewrite bind_ok; [| exact Esb]. cbv beta.
  assert (exists s2, match sops_at sb.(s_op) ≫= put_inode_op with Some op => op a | None => mret tt end s1 = Ok (tt, s2) /\ step s1 s2) as (s2 & E2 & Q2 & Hf2).
  { destruct (sops_at (s_op sb) ≫= put_inode_op) as [op |] eqn:Eop; [apply (put_law _ _ a s1 Eop); eauto | exists s1; split; [reflexivity | split; [reflexivity | exact Hf1]]]. }
  erewrite bind_ok; [| exact E2]. cbv beta. erewrite bind_ok by reflexivity. eexists. split; [reflexivity|].
  unfold quiet in Q2. rewrite V1 in Q2. split.
  2: { intros l. set (v2 := set_files s2.(env) (delete f s2.(env).(files)) l).
       change (file_inv (set_inodes (set_ihash v2 (without a <$> v2.(ihash))) (delete a v2.(inodes)))). apply inv_no_inode; [apply inv_no_file, Hf2|].
       intros g y Hy. cbn in Hy. apply lookup_delete_Some in Hy as [Hg Hy]. apply (Hu _ Hx ltac:(cbn; lia) Hne g (fkey y)); [congruence|].
       rewrite <- (f_equal v_files Q2 : (view_of s2).(v_files) = v.(v_files)). apply files_view, Hy. }
  unfold view_of at 1. cbn [current proctab env set_env files flist inodes super_blocks set_inodes set_ihash].
  injection Q2 as Q2a Q2b Q2c Q2d Q2e Q2f. rewrite fmap_delete, Q2a, Q2b, Q2c, Q2d, Q2e, Q2f, delete_insert_eq. reflexivity.
Qed.

(** Dropping the reference of a descriptor that has just been cleared. *)
Lemma file_unref_wf (s : k) (fd : nat) (f : Z) (x : Z * Z) (s1 : k) :
  descr_wf extra s -> slot_is (view_of s) fd f -> (view_of s).(v_files) !! f = Some x ->
  view_of s1 = View (view_of s).(v_current) (v_slot (view_of s) fd 0) (view_of s).(v_files) (view_of s).(v_flist) (view_of s).(v_inodes) (view_of s).(v_supers) ->
  file_inv s1.(env) ->
  exists s', file_unref f s1 = Ok (tt, s') /\ sound s' /\ (view_of s').(v_current) = (view_of s).(v_current) /\
    (view_of s').(v_filp) = v_slot (view_of s) fd 0.
Proof.
  intros W Hs Hx V1 Hfi. destruct (dw_count _ _ W f x Hx) as (C1 & C2 & C3). pose proof (count_bound extra _ f W). pose proof (dw_extra _ _ W f).
  assert (f <> 0) as Hf by (intros ->; rewrite (dw_null _ _ W) in Hx; discriminate).
  assert ((view_of s1).(v_files) !! f = Some x) as Hx1 by (rewrite V1; exact Hx). destruct (view_files s1 f x Hx1) as (y & Hy & ->). cbn [fkey fst snd] in *.
  unfold file_unref. erewrite bind_ok; [| apply (fupd_run s1 f _ y Hy)]. cbv beta. rewrite uN_id by lia. set (y1 := f_set_count y _). set (s2 := with_file s1 f y1).
  assert (s2.(env).(files) !! f = Some y1) as Hy1 by apply lookup_insert_eq.
  assert (file_inv s2.(env)) as Hf2 by (apply (inv_file _ _ y); auto).
  pose proof (view_with_file s1 f y1) as V2. fold s2 in V2. rewrite V1 in V2. cbn [v_current v_filp v_files v_flist v_inodes v_supers] in V2.
  erewrite bind_ok; [| apply (fload_run s2 f y1 Hy1)]. cbv beta. change (f_count y1) with (f_count y - 1).
  destruct (Z.ltb_spec 0 (f_count y - 1)) as [Hpos | Hz].
  - exists s2. split; [reflexivity|]. split; [| rewrite V2; split; reflexivity]. split; [|exact Hf2]. unfold descr_wf. rewrite V2.
    pose proof (wf_recount extra _ fd f 0 f _ W Hs Hx ltac:(auto)) as Hw. rewrite one_same, one_null, Z.add_0_r in Hw by exact Hf. apply Hw. cbn [fkey snd]. lia.
  - assert (exists s3, match fops_at y1.(f_op) ≫= release_op with Some op => _ ← op y1.(f_inode) f; mret tt | None => mret tt end s2 = Ok (tt, s3) /\ step s2 s3) as (s3 & E3 & Q3 & Hf3).
    { destruct (fops_at (f_op y1) ≫= release_op) as [op |] eqn:Eop; [| exists s2; split; [reflexivity | split; [reflexivity | exact Hf2]]].
      destruct (release_law op f y1 s2 (conj Hf2 Hy1) Eop) as (r & s3 & E3 & Q3). exists s3. erewrite bind_ok; [| exact E3]. split; [reflexivity | exact Q3]. }
    erewrite bind_ok; [| exact E3]. cbv beta. pose proof Q3 as V3. unfold quiet in V3. rewrite V2 in V3.
    assert ((view_of s3).(v_files) !! f = Some (fkey y1)) as Hy3 by (rewrite V3; apply lookup_insert_eq).
    destruct (view_files s3 f _ Hy3) as (y3 & Hy3' & Ek). injection Ek as Ei Ec. erewrite bind_ok; [| apply (fload_run s3 f y3 Hy3')]. cbv beta. rewrite <- Ei.
    change (f_inode y1) with (f_inode y).
    destruct (iput_view s3 y.(f_inode) f) as (s4 & E4 & V4 & Hf4); [exact Hf3 | |
      intros Hne | ].
    { intros i Hi Hc1 Hne g z Hg Hgz Ez. rewrite V3 in Hi, Hgz. cbn [v_inodes v_files] in Hi, Hgz. rewrite lookup_insert_ne in Hgz by congruence.
      pose proof (two_users extra (view_of s) f g _ z i W ltac:(congruence) Hx Hgz Ez ltac:(exact Hne) Hi). lia. }
    { rewrite V3. cbn [v_inodes v_supers]. destruct (dw_inode _ _ W f _ Hx Hne) as (i & Hi & Hsb). exists i. split; [exact Hi|]. split; [exact Hsb|].
      pose proof (dw_refs _ _ W _ i Hi Hne) as Hr. rewrite (irefs_delete _ f _ _ Hx) in Hr. cbn [fkey fst] in Hr. rewrite one_same in Hr by exact Hne.
      pose proof (occ_bounds y.(f_inode) (irefs (delete f (view_of s).(v_files)))). lia. }
    rewrite V3 in V4. cbn [v_current v_filp v_files v_flist v_inodes v_supers] in V4.
    erewrite bind_ok; [| exact E4]. cbv beta. unfold free_file. erewrite bind_ok by reflexivity. cbv beta.
    assert (s4.(env).(flist) = (view_of s).(v_flist)) as El by exact (f_equal v_flist V4).
    rewrite bool_decide_eq_true_2 by (rewrite El; exact C3). eexists. split; [reflexivity|].
    split; [| split; [exact (f_equal v_current V4) | exact (f_equal v_filp V4)]]. split; [|apply Hf4].
    pose proof (wf_last extra _ fd f _ W Hs Hx ltac:(cbn [fkey snd]; lia)) as Hw. unfold descr_wf.
    match goal with |- view_wf _ ?v => replace v with (View (view_of s).(v_current) (v_slot (view_of s) fd 0) (delete f (view_of s).(v_files)) (without f (view_of s).(v_flist))
      (v_iput y.(f_inode) (view_of s).(v_inodes)) (view_of s).(v_supers)); [exact Hw|] end.
    injection V4 as A1 A2 A3 A4 A5 A6. unfold view_of at 7. cbn [current proctab env set_env files flist inodes super_blocks set_files].
    rewrite fmap_delete, A1, A2, A3, A4, A5, A6, delete_insert_eq. reflexivity.
Qed.

Lemma v_slot_eq (v : view) (fd : nat) (a b : Z) (v' : view) :
  v'.(v_current) = v.(v_current) -> v'.(v_filp) = v_slot v fd a -> slot_is v fd b -> slot_is v' fd a.
Proof.
  intros Ec Ef (l & Hl & Hb). exists (<[fd := a]> l). rewrite Ec, Ef. unfold v_slot. rewrite list_lookup_alter_eq, Hl.
  split; [reflexivity|]. apply list_lookup_insert_eq. eapply lookup_lt_Some, Hb.
Qed.

Lemma v_slot_ne (v : view) (fd j : nat) (a b : Z) (v' : view) :
  v'.(v_current) = v.(v_current) -> v'.(v_filp) = v_slot v fd a -> j <> fd -> slot_is v j b -> slot_is v' j b.
Proof.
  intros Ec Ef Hne (l & Hl & Hb). exists (<[fd := a]> l). rewrite Ec, Ef. unfold v_slot. rewrite list_lookup_alter_eq, Hl.
  split; [reflexivity|]. rewrite list_lookup_insert_ne by congruence. exact Hb.
Qed.

Lemma sys_close_wf (s : k) (fd : Z) :
  sound s -> 0 <= fd ->
  exists r s', sys_close fd s = Ok (r, s') /\ sound s' /\ (fd < 8 -> slot_is (view_of s') (Z.to_nat fd) 0) /\
    (forall j x, j <> Z.to_nat fd -> slot_is (view_of s) j x -> slot_is (view_of s') j x).
Proof.
  intros [W Hfi] Hfd. unfold sys_close. destruct (cur_file_wf s fd W Hfd) as (f & Ef & Hs & Hf). rewrite (bind_ok _ _ _ _ _ Ef). cbv beta.
  destruct (Z.eqb_spec f 0) as [-> | Hne]; [exists (- EBADF), s; split_and!; auto; split; auto|].
  destruct (Hf Hne) as (Hlt & x & Hx). specialize (Hs Hlt). destruct (set_cur_file_run s fd 0 W ltac:(lia)) as (p & _ & E1 & V1).
  rewrite (bind_ok _ _ _ _ _ E1). cbv beta. erewrite bind_ok; [| apply fload_run; exact Hx]. cbv beta.
  pose proof (files_view s f x Hx) as Hv. destruct (dw_count _ _ W f _ Hv) as (_ & C2 & _). cbn [fkey snd] in C2.
  rewrite (proj2 (Z.eqb_neq _ 0)) by lia. destruct (file_unref_wf s (Z.to_nat fd) f _ _ W Hs Hv V1 Hfi) as (s2 & E2 & W2 & Vc & Vf).
  rewrite (bind_ok _ _ _ _ _ E2). exists 0, s2. split; [reflexivity|]. split; [exact W2|]. split.
  - intros _. exact (v_slot_eq _ _ _ _ _ Vc Vf Hs).
  - intros j y Hj Hy. exact (v_slot_ne _ _ _ _ _ _ Vc Vf Hj Hy).
Qed.

(** Copying a descriptor into an unused slot. *)
Lemma dupfd_wf (s : k) (old new f : Z) :
  sound s -> 0 <= old -> 0 <= new < 8 -> slot_is (view_of s) (Z.to_nat old) f -> f <> 0 -> slot_is (view_of s) (Z.to_nat new) 0 ->
  exists s', dupfd old new s = Ok (new, s') /\ sound s'.
Proof.
  intros [W Hfi] Hold Hnew Hs Hne H0. unfold dupfd. destruct (cur_wf s W) as (p & Hc & Hp & Hl).
  rewrite (bind_ok _ _ _ _ _ (cur_proc_ok s p Hc Hp)). cbv beta.
  assert (p.(filp) !! Z.to_nat old = Some f) as Hof.
  { destruct Hs as (l & Hl' & Hf). cbn [view_of v_filp v_current] in Hl'. rewrite list_lookup_fmap, Hp in Hl'. injection Hl' as <-. exact Hf. }
  erewrite bind_ok; [| unfold st_res; rewrite (proj2 (aload_ok _ old f)) by auto; reflexivity]. cbv beta.
  destruct (set_cur_file_run s new f W Hnew) as (q & Hq & E1 & V1). rewrite (bind_ok _ _ _ _ _ E1). cbv beta.
  destruct (dw_live _ _ W f (slot_elem _ _ _ Hs Hne)) as [y Hy]. destruct (view_files s f y Hy) as (x & Hx & ->).
  destruct (dw_count _ _ W f _ Hy) as (C1 & C2 & _). pose proof (count_bound extra _ f W). pose proof (dw_extra _ _ W f). cbn [fkey fst snd] in *.
  erewrite bind_ok; [| apply (fupd_run _ f _ x); exact Hx]. cbv beta. eexists. split; [reflexivity|]. split; [|apply (inv_file _ _ x); auto].
  unfold descr_wf. rewrite view_with_file, V1. cbn [v_current v_filp v_files v_flist v_inodes v_supers]. unfold fkey at 1. cbn [f_inode f_count f_set_count].
  rewrite uN_id by lia. pose proof (wf_recount extra _ (Z.to_nat new) 0 f f _ W H0 Hy ltac:(auto)) as Hw.
  rewrite one_same, one_null in Hw by exact Hne. cbn [fkey fst snd] in Hw. replace (f_count x - 0 + 1) with (f_count x + 1) in Hw by lia. apply Hw. lia.
Qed.

(** The descriptor is open. *)
Lemma fd_ok_wf (s : k) (fd : Z) :
  descr_wf extra s -> 0 <= fd ->
  exists b, fd_ok s.(current) fd s = Ok (b, s) /\ (b = true -> fd < 8 /\ exists f, slot_is (view_of s) (Z.to_nat fd) f /\ f <> 0).
Proof.
  intros W Hfd. destruct (cur_wf s W) as (p & Hc & Hp & Hl). unfold fd_ok. erewrite bind_ok; [| apply (proc_run s _ p Hc Hp)]. cbv beta. unfold NR_FILES.
  destruct (Z.ltb_spec fd 8) as [Hlt | Hge]; [| exists false; split; [reflexivity | discriminate]].
  destruct (lookup_lt_is_Some_2 p.(filp) (Z.to_nat fd)) as [f Hf]; [lia|].
  erewrite bind_ok; [| unfold st_res; rewrite (proj2 (aload_ok _ fd f)) by auto; reflexivity]. exists (negb (f =? 0)). split; [reflexivity|].
  intros Hb. split; [exact Hlt|]. exists f. split; [| apply Z.eqb_neq, negb_true_iff, Hb].
  exists p.(filp). split; [cbn [view_of v_filp v_current]; rewrite list_lookup_fmap, Hp; reflexivity | exact Hf].
Qed.

Lemma first_unused_spec (l : list Z) (i : Z) :
  0 <= i -> first_unused l i = - EMFILE \/ exists j, first_unused l i = i + Z.of_nat j /\ l !! j = Some 0.
Proof.
  revert i. induction l as [| f l IH]; intros i Hi; [left; reflexivity|]. cbn [first_unused].
  destruct (Z.eqb_spec f 0) as [-> | Hne]; [right; exists 0%nat; split; [lia | reflexivity]|].
  destruct (IH (i + 1) ltac:(lia)) as [H | (j & H & Hj)]; [left; exact H | right; exists (S j); split; [lia | exact Hj]].
Qed.

Lemma get_fd_wf (s : k) (start : Z) :
  descr_wf extra s -> 0 <= start ->
  exists n, get_fd s.(current) start s = Ok (n, s) /\ (n < 0 \/ 0 <= n < 8 /\ slot_is (view_of s) (Z.to_nat n) 0).
Proof.
  intros W Hst. destruct (cur_wf s W) as (p & Hc & Hp & Hl). unfold get_fd. erewrite bind_ok; [| apply (proc_run s _ p Hc Hp)]. cbv beta. unfold NR_FILES.
  destruct (Z.leb_spec 8 start); [exists (- EINVAL); split; [reflexivity | left; unfold EINVAL; lia]|]. rewrite (proj2 (Z.ltb_ge start 0)) by lia.
  eexists. split; [reflexivity|]. destruct (first_unused_spec (drop (Z.to_nat start) p.(filp)) start Hst) as [-> | (j & -> & Hj)]; [left; unfold EMFILE; lia|].
  rewrite lookup_drop in Hj. pose proof (lookup_lt_Some _ _ _ Hj). right. split; [lia|]. exists p.(filp).
  split; [cbn [view_of v_filp v_current]; rewrite list_lookup_fmap, Hp; reflexivity|]. rewrite <- Hj. f_equal. lia.
Qed.

Lemma sys_fcntl_wf (s : k) (fd cmd arg : Z) :
  sound s -> (cmd = F_DUPFD \/ cmd = F_DUP2FD -> 0 <= fd /\ 0 <= arg) -> exists r s', sys_fcntl fd cmd arg s = Ok (r, s') /\ sound s'.
Proof.
  intros S Hargs. pose proof S as [W Hfi]. unfold sys_fcntl.
  assert (forall r : Z, exists r' s', (mret r : M Z) s = Ok (r', s') /\ sound s') as Hret by (intros r; exists r, s; split; [reflexivity | exact S]).
  destruct (Z.eqb_spec cmd F_DUPFD) as [-> |]; [| destruct (Z.eqb_spec cmd F_DUP2FD) as [-> |]; [| destruct (_ && _); apply Hret]];
    (destruct Hargs as [Hfd Harg]; [auto|]); destruct (fd_ok_wf s fd W Hfd) as (b & Eb & Hb).
  - unfold do_dup. erewrite bind_ok by reflexivity. cbv beta. rewrite (bind_ok _ _ _ _ _ Eb). cbv beta. destruct b; [|apply Hret]. cbn [negb].
    destruct (Hb eq_refl) as (_ & f & Hf & Hne). destruct (get_fd_wf s arg W Harg) as (n & En & Hn). rewrite (bind_ok _ _ _ _ _ En). cbv beta.
    destruct (Z.ltb_spec n 0); [apply Hret|]. destruct Hn as [Hn | [Hn H0]]; [lia|].
    destruct (dupfd_wf s fd n f S Hfd Hn Hf Hne H0) as (s' & E' & W'). exists n, s'. auto.
  - unfold do_dup2. erewrite bind_ok by reflexivity. cbv beta. rewrite (bind_ok _ _ _ _ _ Eb). cbv beta. destruct b; [|apply Hret]. cbn [negb].
    destruct (Hb eq_refl) as (Hfd8 & f & Hf & Hne). destruct (Z.eqb_spec arg fd) as [-> | Hd]; [apply Hret|]. unfold NR_FILES.
    destruct (Z.leb_spec 8 arg); [apply Hret|]. rewrite (uN_id 32 arg) by lia. destruct (sys_close_wf s arg S Harg) as (r & s1 & E1 & W1 & H0 & Hk).
    rewrite (bind_ok _ _ _ _ _ E1). cbv beta. destruct (dupfd_wf s1 fd arg f W1 Hfd ltac:(lia) (Hk (Z.to_nat fd) f ltac:(lia) Hf) Hne (H0 ltac:(lia))) as (s' & E' & W').
    exists arg, s'. auto.
Qed.

(** ** Calls that leave the tables alone *)

Definition calm {A : Type} (m : M A) (s : k) : Prop := exists r s', m s = Ok (r, s') /\ step s s'.

Lemma calm_ret {A : Type} (a : A) (s : k) : file_inv s.(env) -> calm (mret a) s.
Proof. exists a, s. split; [reflexivity | split; [reflexivity | assumption]]. Qed.

Lemma calm_bind {A B : Type} (m : M A) (f : A -> M B) (s : k) :
  calm m s -> (forall a s', m s = Ok (a, s') -> quiet s s' -> file_inv s'.(env) -> calm (f a) s') -> calm (mbind f m) s.
Proof.
  intros (a & s1 & E1 & Q1 & I1) Hf. destruct (Hf a s1 E1 Q1 I1) as (b & s2 & E2 & Q2 & I2). exists b, s2.
  rewrite (bind_ok _ _ _ _ _ E1). split; [exact E2|]. split; [|exact I2]. unfold quiet in *. congruence.
Qed.

(** The file is open. *)
Definition open (s : k) (f : Z) : Prop := is_Some ((view_of s).(v_files) !! f).

Lemma open_quiet (s s' : k) (f : Z) : quiet s s' -> open s f -> open s' f.
Proof. unfold quiet, open. intros ->. auto. Qed.

Lemma calm_fload {B : Type} (s : k) (f : Z) (g : file -> M B) :
  open s f -> (forall x, s.(env).(files) !! f = Some x -> calm (g x) s) -> calm (mbind g (fload f)) s.
Proof.
  intros [x Hx] Hg. destruct (view_files s f x Hx) as (y & Hy & _). destruct (Hg y Hy) as (r & s' & E1 & Q).
  exists r, s'. rewrite (bind_ok _ _ _ _ _ (fload_run s f y Hy)). auto.
Qed.

(** The inode of an open file. *)
Lemma open_inode (s : k) (f : Z) (x : file) :
  descr_wf extra s -> s.(env).(files) !! f = Some x -> x.(f_inode) <> 0 ->
  exists i, s.(env).(inodes) !! x.(f_inode) = Some i /\ sb_ok (length s.(env).(super_blocks)) (ikey i).
Proof.
  intros W Hx Hne. destruct (dw_inode _ _ W f _ (files_view s f x Hx) Hne) as (j & Hj & Hsb). cbn [fkey fst] in Hj.
  destruct (view_inodes s _ j Hj) as (i & Hi & ->). eauto.
Qed.

Lemma calm_iload {B : Type} (s : k) (f : Z) (x : file) (g : inode -> M B) :
  sound s -> s.(env).(files) !! f = Some x -> x.(f_inode) <> 0 -> (forall i, calm (g i) s) -> calm (mbind g (iload x.(f_inode))) s.
Proof.
  intros [W _] Hx Hne Hg. destruct (open_inode s f x W Hx Hne) as (i & Hi & _). destruct (Hg i) as (r & s' & E1 & Q).
  exists r, s'. rewrite (bind_ok _ _ _ _ _ (iload_run s _ i Hi)). auto.
Qed.

Lemma calm_bad_user {B : Type} (s : k) (a n flags : Z) (r0 : B) (m : M B) :
  sound s -> calm m s -> calm (bad ← bad_user a n flags; if bad : bool then mret r0 else m) s.
Proof.
  intros [W Hfi] Hm. destruct (cur_wf s W) as (p & Hc & Hp & _). unfold bad_user.
  assert (calm (if negb (vm_verify p.(mm) a n flags =? 0) then mret r0 else m) s) as (r & s' & E1 & Q) by (destruct (negb _); [apply calm_ret, Hfi | exact Hm]).
  exists r, s'. erewrite bind_ok; [exact (conj E1 Q)|]. rewrite (bind_ok _ _ _ _ _ (cur_proc_ok s p Hc Hp)). reflexivity.
Qed.

(** The file behind a descriptor. *)
Lemma calm_cur_file {B : Type} (s : k) (fd : Z) (r0 : B) (g : Z -> M B) :
  sound s -> 0 <= fd -> (forall f, f <> 0 -> open s f -> calm (g f) s) ->
  calm (fp ← cur_file fd; if fp =? 0 then mret r0 else g fp) s.
Proof.
  intros [W Hfi] Hfd Hg. destruct (cur_file_wf s fd W Hfd) as (f & Ef & _ & Hf).
  assert (calm (if f =? 0 then mret r0 else g f) s) as (r & s' & E1 & Q).
  { destruct (Z.eqb_spec f 0) as [_ | Hne]; [apply calm_ret, Hfi|].
    destruct (Hf Hne) as (_ & x & Hx). apply Hg; [exact Hne|]. exists (fkey x). apply files_view, Hx. }
  exists r, s'. rewrite (bind_ok _ _ _ _ _ Ef). auto.
Qed.

Lemma calm_do_read (s : k) (f n pos : Z) : file_inv s.(env) -> open s f -> calm (do_read f n pos) s.
Proof.
  intros Hfi Ho. unfold do_read. apply calm_fload; [exact Ho|]. intros x Hx. destruct (negb _); [apply calm_ret, Hfi|].
  destruct (_ =? 0); [apply calm_ret, Hfi|].
  destruct (fops_at (f_op x) ≫= read_op) as [op |] eqn:Eop; [exact (read_law op f x n pos s (conj Hfi Hx) Eop) | apply calm_ret, Hfi].
Qed.

Lemma rdonly_run (s : k) (f : Z) (x : file) :
  descr_wf extra s -> s.(env).(files) !! f = Some x ->
  exists b, (if x.(f_inode) =? 0 then mret false else IS_RDONLY x.(f_inode)) s = Ok (b, s).
Proof.
  intros W Hx. destruct (Z.eqb_spec x.(f_inode) 0) as [_ | Hne]; [exists false; reflexivity|].
  destruct (open_inode s f x W Hx Hne) as (i & Hi & Hsb). unfold IS_RDONLY. rewrite (bind_ok _ _ _ _ _ (iload_run s _ i Hi)). cbv beta.
  destruct (Z.eqb_spec i.(i_sb) 0) as [_ | Hs0]; [exists false; reflexivity|].
  destruct (sbload_ok s i.(i_sb)) as [sb Esb]; [destruct Hsb as [H | [H _]]; [exact H | cbn in H; congruence]|].
  eexists. rewrite (bind_ok _ _ _ _ _ Esb). reflexivity.
Qed.

Lemma calm_do_write (s : k) (f : Z) (b : list Z) (pos : Z) : sound s -> open s f -> calm (do_write f b pos) s.
Proof.
  intros [W Hfi] Ho. unfold do_write. apply calm_fload; [exact Ho|]. intros x Hx. destruct (negb _); [apply calm_ret, Hfi|].
  destruct (rdonly_run s f x W Hx) as (ro & Ero). unfold calm. rewrite (bind_ok _ _ _ _ _ Ero). cbv beta.
  destruct ro; [apply calm_ret, Hfi|]. case_bool_decide; [apply calm_ret, Hfi|].
  destruct (fops_at (f_op x) ≫= write_op) as [op |] eqn:Eop; [exact (write_law op f x b pos s (conj Hfi Hx) Eop) | apply calm_ret, Hfi].
Qed.

Lemma calm_set_pos (s : k) (f v : Z) : file_inv s.(env) -> open s f -> calm (fupd f (fun x => f_set_pos x v)) s.
Proof. intros Hfi Ho. destruct (set_pos_quiet s f v Hfi Ho) as (s' & E1 & Q). exists tt, s'. auto. Qed.

#[local] Hint Resolve calm_ret calm_set_pos calm_do_read calm_do_write open_quiet : calm.

Lemma calm_read (s : k) (fd buf n : Z) : sound s -> 0 <= fd -> calm (sys_read fd buf n) s.
Proof.
  intros S Hfd. pose proof (proj2 S). unfold sys_read. apply calm_bad_user; [exact S|]. apply (calm_cur_file s fd); [exact S | exact Hfd|].
  intros f _ Ho. apply calm_fload; [exact Ho|]. intros x _. apply calm_bind; [auto with calm|]. intros [[rc d] pos] s1 _ Q1 I1.
  apply calm_bind; eauto with calm.
Qed.

Lemma calm_pread (s : k) (fd buf n pos : Z) : sound s -> 0 <= fd -> calm (sys_pread fd buf n pos) s.
Proof.
  intros S Hfd. pose proof (proj2 S). unfold sys_pread. apply calm_bad_user; [exact S|]. apply (calm_cur_file s fd); [exact S | exact Hfd|].
  intros f _ Ho. apply calm_fload; [exact Ho|]. intros x _. destruct (_ =? 0); [auto with calm|].
  apply calm_bind; [auto with calm|]. intros [[rc d] p] s1 _ _ I1. auto with calm.
Qed.

Lemma calm_write (s : k) (fd buf : Z) (d : list Z) : sound s -> 0 <= fd -> calm (sys_write fd buf d) s.
Proof.
  intros S Hfd. unfold sys_write. apply calm_bad_user; [exact S|]. apply (calm_cur_file s fd); [exact S | exact Hfd|].
  intros f _ Ho. apply calm_fload; [exact Ho|]. intros x _. apply calm_bind; [auto with calm|]. intros r s1 _ Q1 I1.
  apply calm_bind; eauto with calm.
Qed.

Lemma calm_pwrite (s : k) (fd buf : Z) (d : list Z) (pos : Z) : sound s -> 0 <= fd -> calm (sys_pwrite fd buf d pos) s.
Proof.
  intros S Hfd. pose proof (proj2 S). unfold sys_pwrite. apply calm_bad_user; [exact S|]. apply (calm_cur_file s fd); [exact S | exact Hfd|].
  intros f _ Ho. apply calm_fload; [exact Ho|]. intros x _. destruct (_ =? 0); [auto with calm|].
  apply calm_bind; [auto with calm|]. intros r s1 _ _ I1. auto with calm.
Qed.

Lemma calm_lseek (s : k) (fd off whence : Z) : sound s -> 0 <= fd -> calm (sys_lseek fd off whence) s.
Proof.
  intros S Hfd. pose proof (proj2 S) as Hfi. unfold sys_lseek. apply (calm_cur_file s fd); [exact S | exact Hfd|]. intros f _ Ho.
  apply calm_fload; [exact Ho|]. intros x Hx.
  destruct (Z.eqb_spec x.(f_inode) 0) as [_ | Hne]; [auto with calm|]. destruct (_ <=? _); [auto with calm|].
  destruct (fops_at (f_op x) ≫= lseek_op) as [op |] eqn:Eop; [exact (lseek_law op f x off whence s (conj Hfi Hx) Eop)|]. apply calm_bind.
  - unfold seek_pos. destruct (_ =? _); [auto with calm|]. destruct (_ =? _); [auto with calm|]. apply (calm_iload s f x); auto with calm.
  - intros v s1 _ Q1 I1. destruct (_ <? 0); [auto with calm|]. apply calm_bind; eauto with calm.
Qed.

Lemma calm_ioctl (s : k) (fd cmd arg : Z) : sound s -> 0 <= fd -> calm (sys_ioctl fd cmd arg) s.
Proof.
  intros S Hfd. pose proof (proj2 S) as Hfi. unfold sys_ioctl. apply (calm_cur_file s fd); [exact S | exact Hfd|]. intros f _ Ho.
  apply calm_fload; [exact Ho|]. intros x Hx.
  destruct (fops_at (f_op x) ≫= ioctl_op) as [op |] eqn:Eop; [exact (ioctl_law op f x cmd arg s (conj Hfi Hx) Eop) | auto with calm].
Qed.

Lemma calm_fstat (s : k) (fd st : Z) : sound s -> 0 <= fd -> calm (sys_fstat fd st) s.
Proof.
  intros S Hfd. pose proof (proj2 S). unfold sys_fstat. apply calm_bad_user; [exact S|]. apply (calm_cur_file s fd); [exact S | exact Hfd|].
  intros f _ Ho. apply calm_fload; [exact Ho|]. intros x Hx. destruct (Z.eqb_spec x.(f_inode) 0) as [_ | Hne]; [auto with calm|].
  apply (calm_iload s f x); auto with calm.
Qed.

Lemma calm_readdir (s : k) (fd a n : Z) (d : Vfs.dirent) : sound s -> 0 <= fd -> 0 <= d.(d_off) -> calm (sys_readdir fd a d n) s.
Proof.
  intros S Hfd Hd. pose proof (proj2 S) as Hfi. unfold sys_readdir. apply calm_bad_user; [exact S|]. apply (calm_cur_file s fd); [exact S | exact Hfd|].
  intros f _ Ho. apply calm_fload; [exact Ho|]. intros x Hx. destruct (_ =? 0); [auto with calm|].
  destruct (fops_at (f_op x) ≫= readdir_op) as [op |] eqn:Eop; [exact (readdir_law op f x d n s (conj Hfi Hx) Eop Hd) | auto with calm].
Qed.

(** ** Any sequence of calls *)

(** The calls with the values a program passes.  All but [fcntl] and [fstat] take the
    descriptor as an [unsigned int]. *)
Inductive dcall : Type :=
| DClose (fd : Z)
| DFcntl (fd cmd arg : Z)
| DRead (fd buf n : Z)
| DPread (fd buf n pos : Z)
| DWrite (fd buf : Z) (data : list Z)
| DPwrite (fd buf : Z) (data : list Z) (pos : Z)
| DLseek (fd off whence : Z)
| DIoctl (fd cmd arg : Z)
| DFstat (fd st : Z)
| DReaddir (fd dirent : Z) (d : Vfs.dirent) (count : Z).

(** The descriptor the call works with. *)
Definition dcall_fd (c : dcall) : Z :=
  match c with
  | DFcntl fd _ _ | DFstat fd _ => fd
  | DClose fd | DRead fd _ _ | DPread fd _ _ _ | DWrite fd _ _ | DPwrite fd _ _ _ | DLseek fd _ _
  | DIoctl fd _ _ | DReaddir fd _ _ _ => u32 fd
  end.

(** The result and the bytes stored into the caller's buffer. *)
Definition dcall_run (c : dcall) : M (Z * list Z) :=
  let plain (m : M Z) := r ← m; mret (r, []) in
  match c with
  | DClose fd => plain (sys_close (u32 fd))
  | DFcntl fd cmd arg => plain (sys_fcntl fd cmd arg)
  | DRead fd buf n => sys_read (u32 fd) buf n
  | DPread fd buf n pos => sys_pread (u32 fd) buf n pos
  | DWrite fd buf data => plain (sys_write (u32 fd) buf data)
  | DPwrite fd buf data pos => plain (sys_pwrite (u32 fd) buf data pos)
  | DLseek fd off whence => plain (sys_lseek (u32 fd) off whence)
  | DIoctl fd cmd arg => plain (sys_ioctl (u32 fd) cmd arg)
  | DFstat fd st => r ← sys_fstat fd st; mret (r.1, [])
  | DReaddir fd a d n => r ← sys_readdir (u32 fd) a d n; mret (r.1, [])
  end.

Fixpoint dcalls_run (l : list dcall) : M (list (Z * list Z)) :=
  match l with
  | [] => mret []
  | c :: l => r ← dcall_run c; rs ← dcalls_run l; mret (r :: rs)
  end.

(** The calls that take the descriptor as an [int] do not refuse a negative one; the
    offset in a directory entry is an [unsigned long]. *)
Definition dcall_ok (c : dcall) : Prop :=
  match c with
  | DFcntl fd cmd arg => cmd = F_DUPFD \/ cmd = F_DUP2FD -> 0 <= fd /\ 0 <= arg
  | DFstat fd _ => 0 <= fd
  | DReaddir _ _ d _ => 0 <= d.(d_off)
  | _ => True
  end.

Lemma u32_nonneg (a : Z) : 0 <= u32 a.
Proof. apply uN_range. lia. Qed.

Lemma calm_sound {A B : Type} (m : M A) (g : A -> B) (s : k) :
  sound s -> calm m s -> exists r s', (a ← m; mret (g a)) s = Ok (r, s') /\ sound s'.
Proof.
  intros [W _] (a & s1 & E1 & Q1). exists (g a), s1. rewrite (bind_ok _ _ _ _ _ E1). split; [reflexivity | exact (step_sound s s1 W Q1)].
Qed.

Lemma dcall_wf (s : k) (c : dcall) : sound s -> dcall_ok c -> exists r s', dcall_run c s = Ok (r, s') /\ sound s'.
Proof.
  intros S Hok. pose proof u32_nonneg as Hu.
  assert (forall (A : Type) (m : M A), calm m s -> exists r s', m s = Ok (r, s') /\ sound s') as Hcalm.
  { intros A m (r & s' & E1 & Q). exists r, s'. split; [exact E1 | exact (step_sound s s' (proj1 S) Q)]. }
  destruct c; cbn [dcall_run dcall_ok] in *.
  - destruct (sys_close_wf s (u32 fd) S (Hu fd)) as (r & s' & E1 & W' & _). exists (r, []), s'. rewrite (bind_ok _ _ _ _ _ E1). split; [reflexivity | exact W'].
  - destruct (sys_fcntl_wf s fd cmd arg S Hok) as (r & s' & E1 & W'). exists (r, []), s'. rewrite (bind_ok _ _ _ _ _ E1). split; [reflexivity | exact W'].
  - apply Hcalm, calm_read; auto.
  - apply Hcalm, calm_pread; auto.
  - apply calm_sound, calm_write; auto.
  - apply calm_sound, calm_pwrite; auto.
  - apply calm_sound, calm_lseek; auto.
  - apply calm_sound, calm_ioctl; auto.
  - apply calm_sound, calm_fstat; auto.
  - apply calm_sound, calm_readdir; auto.
Qed.

(** C29: descriptor tables are well formed.  Start in any state in which every
    descriptor of every process is unused or names an open file, the count of every
    open file is the number of descriptors that name it plus the references kept by
    mappings, every inode has a reference for each open file that uses it, and the
    invariant of the file systems holds.  Any sequence of closes, duplications, reads,
    writes, seeks, device controls, status and directory reads by the running process
    then runs without following a dangling pointer and ends in such a state again:
    files are freed exactly when their last descriptor goes, counts do not wrap, and
    no freed file is named.  Excluded are [fstat] and the duplications of [fcntl] with
    a negative descriptor, which the code does not refuse.  The file systems must
    satisfy [FileLaws]; the memory file system does. *)
Theorem descriptors_well_formed (s : k) (l : list dcall) :
  descr_wf extra s -> file_inv s.(env) -> Forall dcall_ok l ->
  exists rs s', dcalls_run l s = Ok (rs, s') /\ descr_wf extra s' /\ file_inv s'.(env).
Proof.
  intros W Hfi Hl. assert (sound s) as S by (split; assumption). clear W Hfi.
  revert s S. induction Hl as [| c l Hc _ IH]; intros s S; [exists [], s; split; [reflexivity | exact S]|].
  destruct (dcall_wf s c S Hc) as (r & s1 & E1 & S1). destruct (IH s1 S1) as (rs & s2 & E2 & S2). exists (r :: rs), s2.
  cbn [dcalls_run]. rewrite (bind_ok _ _ _ _ _ E1). cbv beta. rewrite (bind_ok _ _ _ _ _ E2). split; [reflexivity | exact S2].
Qed.

(** ** Calls on descriptors that are not open *)

(** The running process has an open file at [fd]. *)
Definition fd_open (s : k) (fd : Z) : Prop := 0 <= fd < 8 /\ exists f, slot_is (view_of s) (Z.to_nat fd) f /\ f <> 0.

Definition user_bad (s : k) (a n flags : Z) : bool :=
  match s.(proctab) !! Z.to_nat s.(current) with
  | Some p => negb (vm_verify p.(mm) a n flags =? 0)
  | None => false
  end.

(** The error of a call whose descriptor is not open: a buffer outside the memory of
    the caller is reported first, and a command of [fcntl] that does not use the
    descriptor has its own error. *)
Definition refusal (s : k) (c : dcall) : Z :=
  let checked a n flags := if user_bad s a n flags then - EFAULT else - EBADF in
  match c with
  | DClose _ | DLseek _ _ _ | DIoctl _ _ _ => - EBADF
  | DFcntl _ cmd _ => if (cmd =? F_DUPFD) || (cmd =? F_DUP2FD) then - EBADF
                      else if (3 <=? cmd) && (cmd <=? 12) then - ENOTSUP else - EINVAL
  | DRead _ buf n | DPread _ buf n _ => checked buf n VM_WRITE
  | DWrite _ buf d | DPwrite _ buf d _ => checked buf (Z.of_nat (length d)) VM_READ
  | DFstat _ st => checked st 68 VM_WRITE
  | DReaddir _ a _ _ => checked a 264 VM_WRITE
  end.

(** The calls that read in front of the table: those that take the descriptor as an
    [int] and get to look at a negative one. *)
Definition reads_in_front (s : k) (c : dcall) : bool :=
  match c with
  | DFcntl fd cmd _ => (fd <? 0) && ((cmd =? F_DUPFD) || (cmd =? F_DUP2FD))
  | DFstat fd st => (fd <? 0) && negb (user_bad s st 68 VM_WRITE)
  | _ => false
  end.

Lemma cur_file_closed (s : k) (fd : Z) : descr_wf extra s -> 0 <= fd -> ~ fd_open s fd -> cur_file fd s = Ok (0, s).
Proof.
  intros W Hfd Hn. destruct (cur_file_wf s fd W Hfd) as (f & Ef & Hs & Hf). destruct (Z.eq_dec f 0) as [-> | Hne]; [exact Ef|].
  exfalso. apply Hn. destruct (Hf Hne) as [Hlt _]. split; [lia|]. exists f. split; [exact (Hs Hlt) | exact Hne].
Qed.

Lemma bad_user_run (s : k) (a n flags : Z) : descr_wf extra s -> bad_user a n flags s = Ok (user_bad s a n flags, s).
Proof.
  intros W. destruct (cur_wf s W) as (p & Hc & Hp & _). unfold bad_user, user_bad. rewrite (bind_ok _ _ _ _ _ (cur_proc_ok s p Hc Hp)), Hp. reflexivity.
Qed.

Lemma fd_ok_closed (s : k) (fd : Z) :
  descr_wf extra s -> ~ fd_open s fd -> fd_ok s.(current) fd s = if fd <? 0 then Fault else Ok (false, s).
Proof.
  intros W Hn. destruct (Z.ltb_spec fd 0) as [Hneg | Hfd].
  - destruct (cur_wf s W) as (p & Hc & Hp & Hl). unfold fd_ok. rewrite (bind_ok _ _ _ _ _ (proc_run s _ p Hc Hp)). cbv beta. unfold NR_FILES.
    rewrite (proj2 (Z.ltb_lt fd 8)) by lia. unfold st_res, aload. rewrite (proj2 (Z.ltb_lt fd 0)) by lia. reflexivity.
  - destruct (fd_ok_wf s fd W Hfd) as (b & Eb & Hb). destruct b; [| exact Eb].
    exfalso. destruct (Hb eq_refl) as [Hlt Hf]. exact (Hn (conj (conj Hfd Hlt) Hf)).
Qed.

(** The two checks every call with a buffer starts with. *)
Lemma checked_closed {A : Type} (s : k) (a n flags fd : Z) (e1 e2 : A) (g : Z -> M A) :
  descr_wf extra s -> cur_file fd s = Ok (0, s) ->
  (bad ← bad_user a n flags; if bad : bool then mret e1 else fp ← cur_file fd; if fp =? 0 then mret e2 else g fp) s =
  Ok (if user_bad s a n flags then e1 else e2, s).
Proof.
  intros W Ec. rewrite (bind_ok _ _ _ _ _ (bad_user_run s _ _ _ W)). destruct (user_bad _ _ _ _); [reflexivity|].
  rewrite (bind_ok _ _ _ _ _ Ec). reflexivity.
Qed.

Lemma bind_fault {A B : Type} (m : M A) (g : A -> M B) (s : k) : m s = Fault -> mbind g m s = Fault.
Proof. intros H. unfold mbind, st_bind. rewrite H. reflexivity. Qed.

Lemma fcntl_closed (s : k) (fd cmd arg : Z) (c := DFcntl fd cmd arg) :
  descr_wf extra s -> ~ fd_open s fd -> dcall_run c s = if reads_in_front s c then Fault else Ok ((refusal s c, []), s).
Proof.
  intros W Hn. pose proof (fd_ok_closed s fd W Hn) as Eo. subst c. cbn [dcall_run reads_in_front refusal]. unfold sys_fcntl, do_dup, do_dup2.
  destruct (cmd =? F_DUPFD); [| destruct (cmd =? F_DUP2FD); [| rewrite andb_false_r; destruct (_ && _); reflexivity]];
    cbn [orb]; rewrite andb_true_r; destruct (fd <? 0).
  - apply bind_fault. rewrite (bind_ok cur _ s s s.(current)) by reflexivity. apply bind_fault, Eo.
  - erewrite bind_ok; [| rewrite (bind_ok cur _ s s s.(current)) by reflexivity; rewrite (bind_ok _ _ _ _ _ Eo); reflexivity]. reflexivity.
  - apply bind_fault. rewrite (bind_ok cur _ s s s.(current)) by reflexivity. apply bind_fault, Eo.
  - erewrite bind_ok; [| rewrite (bind_ok cur _ s s s.(current)) by reflexivity; rewrite (bind_ok _ _ _ _ _ Eo); reflexivity]. reflexivity.
Qed.

Lemma fstat_closed (s : k) (fd st : Z) (c := DFstat fd st) :
  descr_wf extra s -> ~ fd_open s fd -> dcall_run c s = if reads_in_front s c then Fault else Ok ((refusal s c, []), s).
Proof.
  intros W Hn. subst c. cbn [dcall_run reads_in_front refusal]. destruct (Z.ltb_spec fd 0) as [Hneg | Hfd].
  - cbn [andb]. destruct (cur_wf s W) as (p & Hc & Hp & Hl). unfold sys_fstat.
    destruct (user_bad s st 68 VM_WRITE) eqn:Eb; cbn [negb].
    + erewrite bind_ok; [| rewrite (bind_ok _ _ _ _ _ (bad_user_run s _ _ _ W)), Eb; reflexivity]. reflexivity.
    + apply bind_fault. rewrite (bind_ok _ _ _ _ _ (bad_user_run s _ _ _ W)), Eb. apply bind_fault. unfold cur_file.
      rewrite (bind_ok _ _ _ _ _ (cur_proc_ok s p Hc Hp)). unfold NR_FILES. rewrite (proj2 (Z.leb_gt 8 fd)) by lia.
      unfold st_res, aload. rewrite (proj2 (Z.ltb_lt fd 0)) by lia. reflexivity.
  - cbn [andb]. unfold sys_fstat. rewrite (bind_ok _ _ _ _ _ (checked_closed s _ _ _ fd _ _ _ W (cur_file_closed s fd W Hfd Hn))).
    destruct (user_bad _ _ _ _); reflexivity.
Qed.

(** C30: unopened descriptors.  A call on a descriptor that is beyond the table, has
    no open file behind it or is negative changes nothing at all and returns the error
    the interface promises: EBADF, or EFAULT when the caller's buffer is not its own to
    use, and for a [fcntl] command that does not look at the descriptor the error of
    that command.  The exception are a duplication by [fcntl] and an [fstat] with a
    usable buffer of a negative descriptor: they read in front of the table. *)
Theorem unopened_descriptor_refused (s : k) (c : dcall) :
  descr_wf extra s -> ~ fd_open s (dcall_fd c) ->
  dcall_run c s = if reads_in_front s c then Fault else Ok ((refusal s c, []), s).
Proof.
  intros W Hn. pose proof (fun fd => cur_file_closed s (u32 fd) W (u32_nonneg fd)) as Ec.
  destruct c; cbn [dcall_fd] in Hn; try (specialize (Ec _ Hn));
    [| exact (fcntl_closed s _ _ _ W Hn) | | | | | | | exact (fstat_closed s _ _ W Hn) |]; cbn [dcall_run refusal reads_in_front].
  - unfold sys_close. erewrite bind_ok; [| rewrite (bind_ok _ _ _ _ _ Ec); reflexivity]. reflexivity.
  - unfold sys_read. rewrite (checked_closed s buf n VM_WRITE _ _ _ _ W Ec). destruct (user_bad _ _ _ _); reflexivity.
  - unfold sys_pread. rewrite (checked_closed s buf n VM_WRITE _ _ _ _ W Ec). destruct (user_bad _ _ _ _); reflexivity.
  - unfold sys_write. rewrite (bind_ok _ _ _ _ _ (checked_closed s _ _ _ _ _ _ _ W Ec)). reflexivity.
  - unfold sys_pwrite. rewrite (bind_ok _ _ _ _ _ (checked_closed s _ _ _ _ _ _ _ W Ec)). reflexivity.
  - unfold sys_lseek. erewrite bind_ok; [| rewrite (bind_ok _ _ _ _ _ Ec); reflexivity]. reflexivity.
  - unfold sys_ioctl. erewrite bind_ok; [| rewrite (bind_ok _ _ _ _ _ Ec); reflexivity]. reflexivity.
  - unfold sys_readdir. rewrite (bind_ok _ _ _ _ _ (checked_closed s _ _ _ _ _ _ _ W Ec)). destruct (user_bad _ _ _ _); reflexivity.
Qed.
End calls.

(** ** The memory file system keeps its part *)

Section ramfs_files.

Context `{E : VfsEnv ramfs} `{R : RamfsEnv}.

Abbreviation k := (kst (vfs ramfs)).

(** An open regular file has the frames of its inode in memory, and an open directory
    has as many entries as its size says. *)
#[export] Instance ramfs_file_inv : FileInv ramfs := {
  file_inv v := forall f y, v.(files) !! f = Some y ->
    (y.(f_op) = ramfs_reg_fops_p -> exists i, v.(inodes) !! y.(f_inode) = Some i /\ i.(i_op) = ramfs_reg_iops_p /\
       forall b, b ∈ i.(i_list) -> is_Some (v.(fdata).(frames) !! b)) /\
    (y.(f_op) = ramfs_dir_fops_p -> exists i, v.(inodes) !! y.(f_inode) = Some i /\ i.(i_op) = ramfs_dir_iops_p /\
       i.(i_size) <= Z.of_nat (length i.(i_list)) /\ forall e, e ∈ i.(i_list) -> is_Some (v.(fdata).(dirents) !! e));
}.

(** The state [s] differs from [s0] in the pages and the size of inode [a] and in the
    contents of frames; all pages of [a] exist. *)
Definition rewritten (a : Z) (s0 s : k) : Prop :=
  exists i0 i fr, s0.(env).(inodes) !! a = Some i0 /\
    s = set_env s0 (set_fdata (set_inodes s0.(env) (<[a := i]> s0.(env).(inodes))) (set_frames s0.(env).(fdata) fr)) /\
    ikey i = ikey i0 /\ i.(i_op) = i0.(i_op) /\
    (forall b, is_Some (s0.(env).(fdata).(frames) !! b) -> is_Some (fr !! b)) /\
    (forall b, b ∈ i.(i_list) -> is_Some (fr !! b)).

Lemma rewritten_refl (a : Z) (i : inode) (s : k) :
  s.(env).(inodes) !! a = Some i -> (forall b, b ∈ i.(i_list) -> is_Some (s.(env).(fdata).(frames) !! b)) -> rewritten a s s.
Proof.
  intros Hi Hl. exists i, i, s.(env).(fdata).(frames). split_and!; auto. rewrite insert_id by exact Hi.
  destruct s as [? ? ? ? ? ? ? [? ? ? ? ? ? [? ? ?]]]; reflexivity.
Qed.

Lemma rewritten_inode (a : Z) (s0 s : k) :
  rewritten a s0 s -> exists i, s.(env).(inodes) !! a = Some i /\ forall b, b ∈ i.(i_list) -> is_Some (s.(env).(fdata).(frames) !! b).
Proof. intros (i0 & i & fr & _ & -> & _ & _ & _ & Hl). exists i. split; [apply lookup_insert_eq | exact Hl]. Qed.

Lemma rewritten_frame (a f : Z) (b : list Z) (s0 s : k) :
  rewritten a s0 s -> rewritten a s0 (set_env s (set_fdata s.(env) (set_frames s.(env).(fdata) (<[f := b]> s.(env).(fdata).(frames))))).
Proof.
  intros (i0 & i & fr & H0 & -> & Hk & Ho & Hf & Hl). exists i0, i, (<[f := b]> fr). split_and!; auto; intros c Hc;
    (destruct (decide (c = f)) as [-> |]; [rewrite lookup_insert_eq; eauto | rewrite lookup_insert_ne by congruence; auto]).
Qed.

Lemma rewritten_iupd (a : Z) (g : inode -> inode) (s0 s : k) :
  rewritten a s0 s -> (forall i, ikey (g i) = ikey i /\ (g i).(i_op) = i.(i_op)) ->
  (forall i, s.(env).(inodes) !! a = Some i -> forall b, b ∈ (g i).(i_list) -> b ∈ i.(i_list) \/ is_Some (s.(env).(fdata).(frames) !! b)) ->
  exists s', iupd a g s = Ok (tt, s') /\ rewritten a s0 s'.
Proof.
  intros (i0 & i & fr & H0 & -> & Hk & Ho & Hf & Hl) Hg Hb. eexists. split; [apply iupd_run; apply lookup_insert_eq|].
  exists i0, (g i), fr. split_and!; auto; try (etransitivity; [apply Hg | assumption]).
  - cbn. rewrite insert_insert_eq. reflexivity.
  - intros b Hin. destruct (Hb i (lookup_insert_eq _ _ _) b Hin); auto.
Qed.

(** Such a change keeps the invariant when the file is a regular one. *)
Lemma rewritten_step (f : Z) (y : file) (s0 s : k) :
  opened s0 f y -> y.(f_op) = ramfs_reg_fops_p -> rewritten y.(f_inode) s0 s -> step s0 s.
Proof.
  intros [Hfi Hy] Hop (i0 & i & fr & H0 & -> & Hk & Ho & Hf & Hl). destruct (Hfi f y Hy) as [Hreg _].
  destruct (Hreg Hop) as (j & Hj & Hjo & _). rewrite H0 in Hj. injection Hj as <-. split.
  - unfold quiet, view_of. cbn. rewrite fmap_insert, Hk, insert_id by (rewrite lookup_fmap, H0; reflexivity). reflexivity.
  - intros g z Hz. cbn in Hz. destruct (Hfi g z Hz) as [Hr Hd]. split; intros Hzo; cbn.
    + destruct (Hr Hzo) as (j & Hj & Hjp & Hjl). destruct (decide (z.(f_inode) = y.(f_inode))) as [-> | Hne].
      * exists i. rewrite lookup_insert_eq. split_and!; auto. congruence.
      * exists j. rewrite lookup_insert_ne by congruence. split_and!; auto.
    + destruct (Hd Hzo) as (j & Hj & Hjp & Hjl). exists j. rewrite lookup_insert_ne; [auto|]. intros Eq. rewrite <- Eq, H0 in Hj.
      injection Hj as <-. rewrite Hjo in Hjp. discriminate.
Qed.

Lemma read_loop_total (s : k) (l : list Z) : forall offset len,
  (forall b, b ∈ l -> is_Some (s.(env).(fdata).(frames) !! b)) -> exists r, read_loop l offset len s = Ok (r, s).
Proof.
  induction l as [| f l IH]; intros offset len Hl; cbn [read_loop]; [eexists; reflexivity|].
  destruct (Hl f) as [b Hb]; [left|]. rewrite (bind_ok (frame_load f) _ s s b) by (unfold frame_load; rewrite Hb; reflexivity). cbv beta zeta.
  destruct (_ <=? _); [eexists; reflexivity|]. destruct (IH 0 (len - (FRAME_SIZE - offset))) as [r Hr]; [intros c Hc; apply Hl; right; exact Hc|].
  rewrite (bind_ok _ _ _ _ _ Hr). eexists. reflexivity.
Qed.

Lemma elem_of_drop {A : Type} (n : nat) (l : list A) (x : A) : x ∈ drop n l -> x ∈ l.
Proof. intros H. rewrite <- (take_drop n l). apply elem_of_app. auto. Qed.

Lemma ramfs_read_total (f n p : Z) (y : file) (s : k) :
  opened s f y -> y.(f_op) = ramfs_reg_fops_p -> exists r, ramfs_read f n p s = Ok (r, s).
Proof.
  intros [Hfi Hy] Hop. destruct (proj1 (Hfi f y Hy) Hop) as (i & Hi & _ & Hl). unfold ramfs_read.
  rewrite (bind_ok _ _ _ _ _ (fload_run s f y Hy)). cbv beta. rewrite (bind_ok _ _ _ _ _ (iload_run s _ i Hi)). cbv beta.
  destruct (_ || _); [eexists; reflexivity|].
  destruct (read_loop_total s (drop (Z.to_nat (p / FRAME_SIZE)) i.(i_list)) (p mod FRAME_SIZE) (Z.min n (i.(i_size) - p))) as [r Hr];
    [intros b Hb; eapply Hl, elem_of_drop, Hb|].
  rewrite (bind_ok _ _ _ _ _ Hr). eexists. reflexivity.
Qed.

Lemma grow_loop_total (a : Z) (s0 : k) (n : nat) : forall s,
  rewritten a s0 s -> exists r s', grow_loop n a s = Ok (r, s') /\ rewritten a s0 s'.
Proof.
  induction n as [| n IH]; intros s Hs; cbn [grow_loop]; [eexists _, s; split; [reflexivity | exact Hs]|].
  erewrite bind_ok by reflexivity. cbv beta. destruct (frame_cache _) as [[f junk] |]; [|eexists _, s; split; [reflexivity | exact Hs]].
  erewrite bind_ok by reflexivity. cbv beta.
  destruct (rewritten_iupd a (fun i => i_set_list i (i.(i_list) ++ [f])) s0 _ (rewritten_frame a f junk s0 s Hs)) as (s2 & E2 & H2).
  - intros i. split; reflexivity.
  - intros i _ b Hb. cbn in Hb. apply elem_of_app in Hb as [Hb | Hb]; [auto|]. apply list_elem_of_singleton in Hb as ->. right. cbn. rewrite lookup_insert_eq. eauto.
  - rewrite (bind_ok _ _ _ _ _ E2). apply IH, H2.
Qed.

Lemma grow_file_total (a n : Z) (s0 s : k) : rewritten a s0 s -> exists r s', grow_file a n s = Ok (r, s') /\ rewritten a s0 s'.
Proof.
  intros Hs. destruct (rewritten_inode a s0 s Hs) as (i & Hi & _). unfold grow_file. rewrite (bind_ok _ _ _ _ _ (iload_run s _ i Hi)). cbv beta zeta.
  set (nr := u32 _). assert (exists r s', (if nr =? 0 then mret 0 else grow_loop (Z.to_nat nr) a) s = Ok (r, s') /\ rewritten a s0 s') as (r & s1 & E1 & H1).
  { destruct (nr =? 0); [eexists _, s; split; [reflexivity | exact Hs] | apply grow_loop_total, Hs]. }
  rewrite (bind_ok _ _ _ _ _ E1). cbv beta. destruct (negb _); [eexists _, s1; split; [reflexivity | exact H1]|].
  destruct (rewritten_iupd a (fun i => i_set_size i (i.(i_size) +% n)) s0 s1 H1) as (s2 & E2 & H2); [intros j; split; reflexivity | intros j _ b Hb; auto |].
  rewrite (bind_ok _ _ _ _ _ E2). eexists _, s2. split; [reflexivity | exact H2].
Qed.

(** One turn of the loops that store into frames. *)
Lemma frame_turn {B : Type} (a f : Z) (s0 s : k) (g : list Z -> list Z) (m : ST k B) :
  rewritten a s0 s -> is_Some (s.(env).(fdata).(frames) !! f) ->
  (forall s', rewritten a s0 s' -> (forall b, is_Some (s.(env).(fdata).(frames) !! b) -> is_Some (s'.(env).(fdata).(frames) !! b)) ->
     exists r s'', m s' = Ok (r, s'') /\ rewritten a s0 s'') ->
  exists r s'', (b ← frame_load f; frame_store f (g b) ;; m) s = Ok (r, s'') /\ rewritten a s0 s''.
Proof.
  intros Hs [b Hb] Hm. rewrite (bind_ok (frame_load f) _ s s b) by (unfold frame_load; rewrite Hb; reflexivity). cbv beta.
  erewrite bind_ok by reflexivity. apply Hm; [apply rewritten_frame, Hs|]. intros c Hc. cbn.
  destruct (decide (c = f)) as [-> |]; [rewrite lookup_insert_eq; eauto | rewrite lookup_insert_ne by congruence; exact Hc].
Qed.

Lemma write_loop_total (a : Z) (s0 : k) (l : list Z) : forall s buf offset,
  rewritten a s0 s -> (forall b, b ∈ l -> is_Some (s.(env).(fdata).(frames) !! b)) ->
  exists r s', write_loop l buf offset s = Ok (r, s') /\ rewritten a s0 s'.
Proof.
  induction l as [| f l IH]; intros s buf offset Hs Hl; cbn [write_loop]; [eexists _, s; split; [reflexivity | exact Hs]|].
  apply (frame_turn a f s0 s (fun b => splice _ _ b)); [exact Hs | apply Hl; left|]. intros s' Hs' Hf.
  destruct (_ <=? _); [eexists _, s'; split; [reflexivity | exact Hs']|]. apply IH; [exact Hs'|]. intros b Hb. apply Hf, Hl. right. exact Hb.
Qed.

Lemma zero_loop_total (a : Z) (s0 : k) (l : list Z) : forall s offset len,
  rewritten a s0 s -> (forall b, b ∈ l -> is_Some (s.(env).(fdata).(frames) !! b)) ->
  exists r s', zero_loop l offset len s = Ok (r, s') /\ rewritten a s0 s'.
Proof.
  induction l as [| f l IH]; intros s offset len Hs Hl; cbn [zero_loop]; [eexists _, s; split; [reflexivity | exact Hs]|].
  apply (frame_turn a f s0 s (fun b => splice _ _ b)); [exact Hs | apply Hl; left|]. intros s' Hs' Hf.
  destruct (_ <=? _); [eexists _, s'; split; [reflexivity | exact Hs']|]. apply IH; [exact Hs'|]. intros b Hb. apply Hf, Hl. right. exact Hb.
Qed.

Lemma rewritten_files (a : Z) (s0 s : k) : rewritten a s0 s -> s.(env).(files) = s0.(env).(files).
Proof. intros (i0 & i & fr & _ & -> & _). reflexivity. Qed.

Lemma ramfs_write_total (f p : Z) (buf : list Z) (y : file) (s : k) :
  opened s f y -> y.(f_op) = ramfs_reg_fops_p -> exists r s', ramfs_write f buf p s = Ok (r, s') /\ step s s'.
Proof.
  intros Ho Hop. pose proof Ho as [Hfi Hy]. destruct (proj1 (Hfi f y Hy) Hop) as (i & Hi & _ & Hl).
  assert (exists r s', ramfs_write f buf p s = Ok (r, s') /\ rewritten y.(f_inode) s s') as (r & s' & E1 & H1);
    [|exists r, s'; split; [exact E1 | exact (rewritten_step f y s s' Ho Hop H1)]].
  set (a := y.(f_inode)) in *. unfold ramfs_write. rewrite (bind_ok _ _ _ _ _ (fload_run s f y Hy)). cbv beta.
  rewrite (bind_ok _ _ _ _ _ (iload_run s _ i Hi)). cbv beta zeta. fold a.
  pose proof (rewritten_refl a i s Hi Hl) as H0.
  assert (exists r s1, (if i_size i <? p +% Z.of_nat (length buf) then grow_file a (p +% Z.of_nat (length buf) - i_size i) else mret 0) s = Ok (r, s1) /\
    rewritten a s s1) as (e & s1 & E1 & H1) by (destruct (_ <? _); [apply grow_file_total, H0 | eexists _, s; split; [reflexivity | exact H0]]).
  rewrite (bind_ok _ _ _ _ _ E1). cbv beta. destruct (negb _); [eexists _, s1; split; [reflexivity | exact H1]|].
  assert (exists r s2, (if i_size i <? p then zero_fill a (i_size i) (p - i_size i) else mret tt) s1 = Ok (r, s2) /\ rewritten a s s2) as (u & s2 & E2 & H2).
  { destruct (i_size i <? p); [|eexists _, s1; split; [reflexivity | exact H1]]. destruct (rewritten_inode a s s1 H1) as (i1 & Hi1 & Hl1).
    unfold zero_fill. rewrite (bind_ok _ _ _ _ _ (iload_run s1 _ i1 Hi1)). apply zero_loop_total; [exact H1|]. intros b Hb. eapply Hl1, elem_of_drop, Hb. }
  rewrite (bind_ok _ _ _ _ _ E2). cbv beta. destruct (rewritten_inode a s s2 H2) as (i2 & Hi2 & Hl2).
  assert (exists r s3, ramfs_do_write f buf p s2 = Ok (r, s3) /\ rewritten a s s3) as (rc & s3 & E3 & H3).
  { unfold ramfs_do_write. rewrite (bind_ok _ _ _ _ _ (fload_run s2 f y ltac:(rewrite (rewritten_files a s s2 H2); exact Hy))). cbv beta. fold a.
    rewrite (bind_ok _ _ _ _ _ (iload_run s2 _ i2 Hi2)). apply write_loop_total; [exact H2|]. intros b Hb. eapply Hl2, elem_of_drop, Hb. }
  rewrite (bind_ok _ _ _ _ _ E3). eexists _, s3. split; [reflexivity | exact H3].
Qed.

Lemma ramfs_readdir_total (f n : Z) (d : Vfs.dirent) (y : file) (s : k) :
  opened s f y -> y.(f_op) = ramfs_dir_fops_p -> 0 <= d.(d_off) -> exists r, ramfs_readdir y.(f_inode) f d n s = Ok (r, s).
Proof.
  intros [Hfi Hy] Hop Hd. destruct (proj2 (Hfi f y Hy) Hop) as (i & Hi & _ & Hsz & Hl). unfold ramfs_readdir.
  rewrite (bind_ok _ _ _ _ _ (iload_run s _ i Hi)). cbv beta. destruct (Z.leb_spec i.(i_size) d.(d_off)); [eexists; reflexivity|].
  destruct (aload_lt i.(i_list) d.(d_off)) as [e He]; [lia|]. erewrite bind_ok; [|unfold st_res; rewrite He; reflexivity]. cbv beta.
  apply aload_ok in He as [_ He]. destruct (Hl e (list_elem_of_lookup_2 _ _ _ He)) as [x Hx].
  rewrite (bind_ok _ _ _ _ _ (dload_run s e x Hx)). eexists. reflexivity.
Qed.

(** The operations behind the table a file points to. *)
Lemma ramfs_fops (x : Z) :
  x = ramfs_dir_fops_p /\ fops_at x = Some ramfs_dir_fops \/ x = ramfs_reg_fops_p /\ fops_at x = Some ramfs_reg_fops \/
  fops_at x = (None : option (file_operations k)).
Proof.
  simpl. destruct (Z.eqb_spec x ramfs_dir_fops_p) as [-> |]; [auto|]. destruct (Z.eqb_spec x ramfs_reg_fops_p) as [-> |]; auto.
Qed.

Lemma ramfs_file_laws : (forall x, sops_at x ≫= put_inode_op = None) -> FileLaws (P := ramfs).
Proof.
  intros Hput.
  assert (forall s f y (A : Type) (field : file_operations k -> option A) op, opened s f y -> fops_at y.(f_op) ≫= field = Some op ->
    y.(f_op) = ramfs_dir_fops_p /\ field ramfs_dir_fops = Some op \/ y.(f_op) = ramfs_reg_fops_p /\ field ramfs_reg_fops = Some op) as Htab.
  { intros s f y A field op _ H. destruct (ramfs_fops y.(f_op)) as [[Eq Ef] | [[Eq Ef] | Ef]]; rewrite Ef in H; auto; discriminate. }
  split;
    try (intros op f y; intros;
         match goal with Ho : opened _ _ _, Hf : _ = Some _ |- _ => destruct (Htab _ _ _ _ _ _ Ho Hf) as [[Ht H'] | [Ht H']]; try discriminate H';
           injection H' as <- end).
  - destruct (ramfs_read_total f n p y s) as [r Hr]; [assumption..|]. exists r, s. split; [exact Hr | split; [reflexivity | apply H]].
  - apply (ramfs_write_total f _ _ y); assumption.
  - destruct (ramfs_readdir_total f n d y s) as [r Hr]; [assumption..|]. exists r, s. split; [exact Hr | split; [reflexivity | apply H]].
  - intros x op a s Hop. rewrite Hput in Hop. discriminate.
  - intros v f y y' Hv Hy E1 E2 _ g z Hz. simpl in Hz. apply lookup_insert_Some in Hz as [[<- <-] | [_ Hz]]; [|exact (Hv g z Hz)].
    rewrite E1, E2. exact (Hv f y Hy).
  - intros v f l Hv g z Hz. simpl in Hz. apply lookup_delete_Some in Hz as [_ Hz]. exact (Hv g z Hz).
  - intros v a i c Hv Hi g z Hz. destruct (Hv g z Hz) as [Hr Hd]. simpl. destruct (decide (a = z.(f_inode))) as [-> | Hne].
    + rewrite lookup_insert_eq. split; intros Ho; [destruct (Hr Ho) as (j & Hj & Hx) | destruct (Hd Ho) as (j & Hj & Hx)];
        rewrite Hi in Hj; injection Hj as <-; eexists; (split; [reflexivity|]); exact Hx.
    + rewrite lookup_insert_ne by congruence. auto.
  - intros v a Hv Hu g z Hz. simpl. rewrite lookup_delete_ne by (intros Eq; exact (Hu g z Hz (eq_sym Eq))). exact (Hv g z Hz).
Qed.
End ramfs_files.

(** ** An instance *)

Lemma plain_file_laws : FileLaws (P := ramfs).
Proof. apply ramfs_file_laws. intros x. simpl. destruct (x =? ramfs_super_ops_p); reflexivity. Qed.

(** One process whose first two descriptors name the same regular file, and the third
    the root directory. *)
Definition two_fds : kst (vfs ramfs) :=
  Kst [Pcb 0 0 0 (MM 0 [Vma 1 4096 8192 6 0 0] 0) 7 1 0 PROC_RUNNING [] [] 0 [] 0 (SigStruct 0 0 0 [] []) [64; 64; 65; 0; 0; 0; 0; 0] 10 10]
    0 [] [] 256 (Timers ∅ [] 0) ∅
    (Vfs (<[12 := example_reg]> example_vfs.(inodes)) example_vfs.(ihash)
       (<[64 := File 12 3 0 0 0 2 0 ramfs_reg_fops_p]> {[65 := File 10 1 0 0 0 1 0 ramfs_dir_fops_p]}) [65; 64]
       [example_super] example_statics example_data).

Lemma two_fds_file (f : Z) (y : file) : two_fds.(env).(files) !! f = Some y ->
  f = 64 /\ y = File 12 3 0 0 0 2 0 ramfs_reg_fops_p \/ f = 65 /\ y = File 10 1 0 0 0 1 0 ramfs_dir_fops_p.
Proof.
  change two_fds.(env).(files) with (<[64 := File 12 3 0 0 0 2 0 ramfs_reg_fops_p]> {[65 := File 10 1 0 0 0 1 0 ramfs_dir_fops_p]} : gmap Z file).
  rewrite lookup_insert_Some, lookup_singleton_Some. naive_solver.
Qed.

Lemma two_fds_inv : file_inv two_fds.(env).
Proof.
  intros f y Hy. apply two_fds_file in Hy as [[-> ->] | [-> ->]]; split; intros Ho; try discriminate Ho; eexists; (split; [reflexivity|]); (split; [reflexivity|]).
  - intros b Hb. apply elem_of_nil in Hb. destruct Hb.
  - split; [simpl; lia|]. intros e He. simpl in He. repeat (apply elem_of_cons in He as [-> | He]; [eexists; reflexivity|]). apply elem_of_nil in He. destruct He.
Qed.

Lemma two_fds_wf : descr_wf (fun _ => 0) two_fds.
Proof.
  assert (view_of two_fds = View 0 [[64; 64; 65; 0; 0; 0; 0; 0]] (<[64 := (12, 2)]> {[65 := (10, 1)]}) [65; 64]
    (<[12 := (1, 1, 64)]> (<[10 := (3, 1, 64)]> {[11 := (0, 1, 64)]})) 1) as V by (vm_compute; reflexivity).
  assert (forall f x, (<[64 := (12, 2)]> {[65 := (10, 1)]} : gmap Z (Z * Z)) !! f = Some x -> f = 64 /\ x = (12, 2) \/ f = 65 /\ x = (10, 1)) as Hfiles.
  { intros f x. rewrite lookup_insert_Some, lookup_singleton_Some. naive_solver. }
  unfold descr_wf. rewrite V. split; cbn [v_current v_filp v_files v_flist v_inodes v_supers].
  - split; [lia | eexists; reflexivity].
  - repeat constructor.
  - cbn. lia.
  - reflexivity.
  - intros f Hf. destruct (decide (f = 64)) as [-> | H1]; [eexists; reflexivity|]. destruct (decide (f = 65)) as [-> | H2]; [eexists; reflexivity|].
    exfalso. revert Hf. unfold fds. cbn [mjoin list_join app]. rewrite !occ_cons.
    rewrite !(one_other f 64), !(one_other f 65), !one_null by assumption. cbn. lia.
  - intros f x Hx. apply Hfiles in Hx as [[-> ->] | [-> ->]]; (split; [reflexivity | split; [cbn; lia|]]); [right; left | left].
  - lia.
  - intros f x Hx Hne. apply Hfiles in Hx as [[-> ->] | [-> ->]]; (eexists; split; [reflexivity | left; cbn; lia]).
  - intros a i Hi _. change (irefs _) with [10; 12].
    rewrite !lookup_insert_Some, lookup_singleton_Some in Hi. destruct Hi as [[<- <-] | [_ [[<- <-] | [_ [<- <-]]]]]; cbn; lia.
Qed.

Lemma descriptors_well_formed_witness :
  exists rs s', dcalls_run [DWrite 0 4100 [7; 8]; DLseek 1 0 0; DRead 1 4100 2; DReaddir 2 4100 (Dirent 0 1 []) 1; DFcntl 1 F_DUPFD 0;
                            DClose 0; DClose 1; DClose (-1); DClose 2; DClose 3] two_fds = Ok (rs, s') /\
    descr_wf (fun _ => 0) s' /\ file_inv s'.(env).
Proof.
  pose proof plain_file_laws as L. apply (descriptors_well_formed (fun _ => 0)); [exact two_fds_wf | exact two_fds_inv |].
  repeat constructor; cbn; lia.
Defined.

(** Descriptor 3 is not open, and -1 is refused by [read]. *)
Lemma unopened_descriptor_refused_witness :
  dcall_run (DRead 3 4100 2) two_fds = Ok ((- EBADF, []), two_fds) /\ dcall_run (DRead (-1) 4100 2) two_fds = Ok ((- EBADF, []), two_fds) /\
  dcall_run (DFcntl (-1) F_DUPFD 0) two_fds = Fault.
Proof.
  split_and!.
  - apply (unopened_descriptor_refused (fun _ => 0) two_fds (DRead 3 4100 2)); [exact two_fds_wf|].
    intros (_ & f & (l & Hl & Hf) & Hne). injection Hl as <-. injection Hf as <-. contradiction.
  - apply (unopened_descriptor_refused (fun _ => 0) two_fds (DRead (-1) 4100 2)); [exact two_fds_wf|]. intros [H _]. destruct H as [_ H]. discriminate H.
  - apply (unopened_descriptor_refused (fun _ => 0) two_fds (DFcntl (-1) F_DUPFD 0)); [exact two_fds_wf|]. intros [H _]. cbn in H. lia.
Defined.
