(* ===== verification/Pipe.v ===== *)
(** * Pipes (fs/pipe.c)

    The private data of the file system layer are the pipes and the pages of
    their buffers.  A process that has to wait leaves the call at
    [wait_interruptible]: the function up to that point returns [None] with
    another process running, and the [_resume] function continues it when it is
    scheduled again.  The local variables of a write that waits are
    [write_local]. *)

From S2P Require Import Prelude Timer Abi Addr Vma Sched Vfs Flexbuf Fileops.

Record pipe_private : Type := Pipe {
  buf : flexbuf;
  write_end : Z;
  read_end : Z;
  read_wait : list Z;
  write_wait : list Z;
}.

Record pipe_data (P : Type) : Type := PipeData {
  pipes : gmap Z pipe_private;
  ppages : pages P;
}.

Arguments PipeData {P}.
Arguments pipes {P}.
Arguments ppages {P}.

(** [nr_bytes] of [pipe_write], and [len] and [nr_bytes] of [pipe_do_write]. *)
Record write_local : Type := WriteLocal {
  w_done : Z;
  w_len : Z;
  w_chunk : Z;
}.

Definition pipe_read_operations_p : Z := 10.
Definition pipe_write_operations_p : Z := 11.

Definition pi_set_buf (p : pipe_private) (b : flexbuf) : pipe_private :=
  Pipe b p.(write_end) p.(read_end) p.(read_wait) p.(write_wait).
Definition pi_set_ends (p : pipe_private) (w r : Z) : pipe_private :=
  Pipe p.(buf) w r p.(read_wait) p.(write_wait).
Definition pi_set_waits (p : pipe_private) (r w : list Z) : pipe_private :=
  Pipe p.(buf) p.(write_end) p.(read_end) r w.

(** The slab cache of pipes. *)
Class PipeEnv : Type := { pipe_cache : gmap Z pipe_private -> option (Z * pipe_private) }.

Section pipe.

Context {P : Type} `{PA : PageAllocator P} (kfree_page : Z -> P -> P) (junk : Z -> list Z).
Context `{E : VfsEnv (pipe_data P)} `{PE : PipeEnv}.

Abbreviation M := (ST (kst (vfs (pipe_data P)))).

Definition pdata_set (f : pipe_data P -> pipe_data P) : M unit := vfs_set (fun v => set_fdata v (f v.(fdata))).

Definition pload (a : Z) : M pipe_private := fun s =>
  match s.(env).(fdata).(pipes) !! a with
  | Some p => Ok (p, s)
  | None => Fault
  end.

Definition pupd (a : Z) (f : pipe_private -> pipe_private) : M unit :=
  p ← pload a;
  pdata_set (fun d => PipeData (<[a := f p]> d.(pipes)) d.(ppages)).

(** An operation on the pages. *)
Definition on_pages {A : Type} (m : ST (pages P) A) : M A := fun s =>
  match m s.(env).(fdata).(ppages) with
  | Ok (a, g) => Ok (a, set_env s (set_fdata s.(env) (PipeData s.(env).(fdata).(pipes) g)))
  | Panic => Panic
  | Fault => Fault
  end.

Definition pipe_lseek (inode file pos whence : Z) : M Z := mret (- ESPIPE).

(** [flexbuf_dequeue(pipe->buf, dst, len)] *)
Definition pipe_dequeue (a len : Z) : M (Z * list Z) :=
  p ← pload a;
  r ← on_pages (flexbuf_dequeue p.(buf) len);
  let '(fb, n, data) := r in
  pupd a (fun p => pi_set_buf p fb) ;;
  mret (n, data).

(** [flexbuf_enqueue(&pipe->buf, src, len)] *)
Definition pipe_enqueue (a : Z) (src : list Z) (len : Z) : M Z :=
  p ← pload a;
  r ← on_pages (flexbuf_enqueue kfree_page junk p.(buf) src len);
  pupd a (fun p => pi_set_buf p r.1) ;;
  mret r.2.

(** [pipe_read] up to a wait: the result and the bytes. *)
Definition pipe_read (file len : Z) : M (option (Z * list Z)) :=
  f ← fload file;
  let a := f.(f_private) in
  r ← pipe_dequeue a len;
  p ← pload a;
  if negb (r.1 =? 0) then wake_all p.(write_wait) 0 ;; mret (Some (s32 r.1, r.2))
  else if p.(write_end) =? 0 then mret (Some (0, []))
  else if flag_set f.(f_flags) O_NONBLOCK then mret (Some (- EAGAIN, []))
  else
    q ← wait_begin p.(read_wait);
    pupd a (fun p => pi_set_waits p q p.(write_wait)) ;;
    mret None.

Definition pipe_read_resume (file len : Z) : M (option (Z * list Z)) :=
  f ← fload file;
  p ← pload f.(f_private);
  r ← wait_end p.(read_wait);
  pupd f.(f_private) (fun p => pi_set_waits p r.2 p.(write_wait)) ;;
  if negb (r.1 =? 0) then mret (Some (- EINTR, [])) else pipe_read file len.

Definition pipe_headroom (p : pipe_private) : Z := PIPE_BUF -% p.(buf).(fsize).

(** One turn of [pipe_do_write]: [inl] the number of bytes of the block when it is
    complete, [inr] the bytes so far when the process waits. *)
Definition pipe_do_write (a : Z) (src : list Z) (len nr_bytes : Z) : M (Z + Z) :=
  p ← pload a;
  let this_len := Z.min (len -% nr_bytes) (pipe_headroom p) in
  this_bytes ← pipe_enqueue a (take (Z.to_nat this_len) (drop (Z.to_nat nr_bytes) src)) this_len;
  p ← pload a;
  (if negb (this_bytes =? 0) then wake_all p.(read_wait) 0 else mret tt) ;;
  let nr_bytes := nr_bytes +% this_bytes in
  if nr_bytes =? len then mret (inl nr_bytes)
  else
    q ← wait_begin p.(write_wait);
    pupd a (fun p => pi_set_waits p p.(read_wait) q) ;;
    mret (inr nr_bytes).

(** The loop of [pipe_write] from [nr_bytes] on. *)
Fixpoint pipe_write_loop (fuel : nat) (a : Z) (src : list Z) (len nr_bytes : Z) : M (Z + write_local) :=
  if nr_bytes <? len then
    match fuel with
    | O => fault
    | S fuel =>
        let this_len := Z.min (len -% nr_bytes) PIPE_BUF in
        r ← pipe_do_write a (drop (Z.to_nat nr_bytes) src) this_len 0;
        match r with
        | inl n => pipe_write_loop fuel a src len (nr_bytes +% n)
        | inr n => mret (inr (WriteLocal nr_bytes this_len n))
        end
    end
  else mret (inl (s32 nr_bytes)).

Definition write_blocks (src : list Z) : nat := S (length src).

Definition pipe_write (file : Z) (src : list Z) : M (Z + write_local) :=
  f ← fload file;
  let a := f.(f_private) in
  let len := Z.of_nat (length src) in
  p ← pload a;
  let headroom := pipe_headroom p in
  if flag_set f.(f_flags) O_NONBLOCK && (len <=? PIPE_BUF) && (headroom <? len) then mret (inl (- EAGAIN))
  else if flag_set f.(f_flags) O_NONBLOCK && (PIPE_BUF <? len) then
    if headroom =? 0 then mret (inl (- EAGAIN))
    else n ← pipe_enqueue a (take (Z.to_nat headroom) src) headroom; mret (inl (s32 n))
  else pipe_write_loop (write_blocks src) a src len 0.

(** An interrupted block counts with its bytes or with [-EINTR], and the loop goes
    on. *)
Definition pipe_write_resume (file : Z) (src : list Z) (w : write_local) : M (Z + write_local) :=
  f ← fload file;
  let a := f.(f_private) in
  let len := Z.of_nat (length src) in
  p ← pload a;
  r ← wait_end p.(write_wait);
  pupd a (fun p => pi_set_waits p p.(read_wait) r.2) ;;
  if negb (r.1 =? 0) then
    pipe_write_loop (write_blocks src) a src len
      (w.(w_done) +% (if negb (w.(w_chunk) =? 0) then w.(w_chunk) else - EINTR))
  else
    d ← pipe_do_write a (drop (Z.to_nat w.(w_done)) src) w.(w_len) w.(w_chunk);
    match d with
    | inl n => pipe_write_loop (write_blocks src) a src len (w.(w_done) +% n)
    | inr n => mret (inr (WriteLocal w.(w_done) w.(w_len) n))
    end.

Definition pipe_release (inode file : Z) : M Z :=
  f ← fload file;
  let a := f.(f_private) in
  p ← pload a;
  (if file =? p.(read_end)
   then pupd a (fun p => pi_set_ends p p.(write_end) 0) ;; wake_all p.(write_wait) 0 else mret tt) ;;
  p ← pload a;
  (if file =? p.(write_end)
   then pupd a (fun p => pi_set_ends p 0 p.(read_end)) ;; wake_all p.(read_wait) 0 else mret tt) ;;
  p ← pload a;
  (if (p.(read_end) =? 0) && (p.(write_end) =? 0)
   then pdata_set (fun d => PipeData (delete a d.(pipes)) d.(ppages)) else mret tt) ;;
  mret 0.

(** [slab_alloc(pipe_cachep)]; 0 stands for [NULL]. *)
Definition pipe_alloc : M Z :=
  v ← vfs_of;
  match pipe_cache v.(fdata).(pipes) with
  | Some (a, p) => pdata_set (fun d => PipeData (<[a := p]> d.(pipes)) d.(ppages)) ;; mret a
  | None => mret 0
  end.

(** The two descriptors on success. *)
Definition sys_pipe (read_p write_p flags : Z) : M (Z * option (Z * Z)) :=
  bad ← bad_user read_p 4 VM_WRITE;
  if bad : bool then mret (- EFAULT, None)
  else
    bad ← bad_user write_p 4 VM_WRITE;
    if bad : bool then mret (- EFAULT, None)
    else
      rf ← get_empty_file;
      wf ← get_empty_file;
      pipe ← pipe_alloc;
      c ← cur;
      read_fd ← get_fd c 0;
      if read_fd <? 0 then mret (read_fd, None)
      else
        set_cur_file read_fd rf ;;
        write_fd ← get_fd c 0;
        if write_fd <? 0 then set_cur_file read_fd 0 ;; mret (write_fd, None)
        else
          set_cur_file write_fd wf ;;
          fb ← on_pages (flexbuf_alloc junk 0);
          pupd pipe (fun _ => Pipe fb wf rf [] []) ;;
          fupd rf (fun f => File 0 O_READ 0 f.(f_pos) (u16 flags) f.(f_count) pipe pipe_read_operations_p) ;;
          fupd wf (fun f => File 0 O_WRITE 0 f.(f_pos) (u16 flags) f.(f_count) pipe pipe_write_operations_p) ;;
          set_cur_file read_fd rf ;;
          set_cur_file write_fd wf ;;
          mret (0, Some (read_fd, write_fd)).

End pipe.

(** ** Bytes in order *)

Section proofs.

Context {P : Type} `{PA : PageAllocator P} `{!PageAllocatorLaws P}.
Context (kfree_page : Z -> P -> P) (junk : Z -> list Z).

Abbreviation K := (kst (vfs (pipe_data P))).

Definition pipe_at (s : K) (a : Z) (p : pipe_private) (l : list Z) : Prop :=
  s.(env).(fdata).(pipes) !! a = Some p /\ fifo_inv s.(env).(fdata).(ppages) p.(buf) l.

Lemma asleep_app (s : K) (t : list pcb) (e : vfs (pipe_data P)) (q q' : list Z) :
  asleep s (q ++ q') -> length t = length s.(proctab) ->
  asleep (set_env (set_queues (set_procs s t) (s.(ready_queue) ++ q) s.(zombies)) e) q'.
Proof.
  intros (Hnd & Hv & Hq) Ht. apply NoDup_app in Hnd as (_ & Hd & Hnd). apply Forall_app in Hv as [_ Hv].
  split; [exact Hnd|]. split.
  - eapply Forall_impl; [exact Hv|]. intros x. unfold valid. simpl. rewrite Ht. auto.
  - intros x Hx. simpl. pose proof (Hq x) as Hn. pose proof (Hd x). set_solver.
Qed.

Lemma pload_run (s : K) (a : Z) (p : pipe_private) :
  s.(env).(fdata).(pipes) !! a = Some p -> pload a s = Ok (p, s).
Proof. intros H. unfold pload. rewrite H. reflexivity. Qed.

Lemma pfload_run (s : K) (a : Z) (f : file) : s.(env).(files) !! a = Some f -> fload a s = Ok (f, s).
Proof. intros H. unfold fload. rewrite H. reflexivity. Qed.

Lemma pipe_enqueue_run (s : K) (a : Z) (p : pipe_private) (l d : list Z) :
  (forall x, page_sized (junk x)) -> pipe_at s a p l -> fifo_ok (Enq d) l ->
  supplies 2 s.(env).(fdata).(ppages).(pool) ->
  exists e fb, pipe_enqueue kfree_page junk a d (Z.of_nat (length d)) s = Ok (Z.of_nat (length d), set_env s e) /\
    e.(files) = s.(env).(files) /\ pipe_at (set_env s e) a (pi_set_buf p fb) (l ++ d).
Proof.
  intros Hj (Hp & Hinv) Hok Hsup.
  destruct (fifo_enqueue_run kfree_page junk _ _ l d 0 Hj Hinv Hok Hsup) as (g & fb & E & Hinv' & _).
  eexists _, fb. split; [|split].
  - unfold pipe_enqueue. erewrite bind_ok; [| apply (pload_run s a p Hp)]. cbv beta.
    erewrite bind_ok; [| unfold on_pages; rewrite E; reflexivity]. cbv beta.
    erewrite bind_ok; [reflexivity|]. unfold pupd.
    erewrite bind_ok; [| apply (pload_run _ a p); exact Hp]. reflexivity.
  - reflexivity.
  - split; [simpl; apply lookup_insert_eq | exact Hinv'].
Qed.

Lemma pipe_dequeue_run (s : K) (a : Z) (p : pipe_private) (l : list Z) (n : Z) :
  pipe_at s a p l -> fifo_ok (Deq n) l ->
  exists e fb, pipe_dequeue a n s =
      Ok ((Z.of_nat (length (take (Z.to_nat n) l)), take (Z.to_nat n) l), set_env s e) /\
    e.(files) = s.(env).(files) /\ pipe_at (set_env s e) a (pi_set_buf p fb) (drop (Z.to_nat n) l).
Proof.
  intros (Hp & Hinv) Hok. destruct (fifo_dequeue_run kfree_page junk _ _ l n Hinv Hok) as (fb & E & Hinv').
  eexists _, fb. split; [|split].
  - unfold pipe_dequeue. erewrite bind_ok; [| apply (pload_run s a p Hp)]. cbv beta.
    erewrite bind_ok; [| unfold on_pages; rewrite E; reflexivity]. cbv beta iota.
    erewrite bind_ok; [reflexivity|]. unfold pupd.
    erewrite bind_ok; [| apply (pload_run _ a p); exact Hp]. reflexivity.
  - reflexivity.
  - split; [simpl; apply lookup_insert_eq | exact Hinv'].
Qed.

(** A write of the bytes that fit in one block is complete at once, whether or not
    the descriptor blocks. *)
Lemma pipe_write_run (s : K) (wf : Z) (f : file) (p : pipe_private) (l d : list Z) :
  (forall x, page_sized (junk x)) -> s.(env).(files) !! wf = Some f -> pipe_at s f.(f_private) p l ->
  fifo_ok (Enq d) l -> supplies 2 s.(env).(fdata).(ppages).(pool) -> asleep s p.(read_wait) ->
  exists e fb t, pipe_write kfree_page junk wf d s =
      Ok (inl (Z.of_nat (length d)), set_env (set_queues (set_procs s t) (s.(ready_queue) ++ p.(read_wait)) s.(zombies)) e) /\
    length t = length s.(proctab) /\ e.(files) = s.(env).(files) /\
    pipe_at (set_env s e) f.(f_private) (pi_set_buf p fb) (l ++ d).
Proof.
  intros Hj Hf Hp Hok Hsup Hsl. pose proof Hok as [Hne Hcap]. unfold PIPE_BUF in Hcap.
  pose proof Hp as (Hpa & (_ & (ps & _ & Hs & Hb & _) & _ & Hsz)). unfold PIPE_BUF in Hsz.
  assert (0 < Z.of_nat (length d)) as Hd by (destruct d; [contradiction | simpl; lia]).
  destruct (pipe_enqueue_run s f.(f_private) p l d Hj Hp Hok Hsup) as (e & fb & E & Hfs & Hp').
  destruct (wake_all_run p.(read_wait) 0 (set_env s e)) as (t & Ew & Ht & _); [exact Hsl|].
  exists e, fb, t. split; [|split; [exact Ht | auto]].
  unfold pipe_write. erewrite bind_ok; [| apply (pfload_run s wf f Hf)]. cbv beta.
  erewrite bind_ok; [| apply (pload_run s _ p Hpa)]. cbv beta zeta.
  assert (pipe_headroom p = 4096 - Z.of_nat (length l)) as Hh by (unfold pipe_headroom, PIPE_BUF; word_lia).
  rewrite Hh. unfold PIPE_BUF. rewrite (proj2 (Z.ltb_ge _ (Z.of_nat (length d)))) by lia. rewrite andb_false_r.
  rewrite (proj2 (Z.ltb_ge 4096 _)) by lia. rewrite andb_false_r.
  unfold write_blocks. cbn [pipe_write_loop]. rewrite (proj2 (Z.ltb_lt 0 _)) by lia. change (Z.to_nat 0) with 0%nat. rewrite ?drop_0.
  replace (Z.min (Z.of_nat (length d) -% 0) PIPE_BUF) with (Z.of_nat (length d)) by (unfold PIPE_BUF; word_lia).
  erewrite bind_ok.
  2: { unfold pipe_do_write. erewrite bind_ok; [| apply (pload_run s _ p Hpa)]. cbv beta zeta. rewrite Hh.
       replace (Z.min (Z.of_nat (length d) -% 0) _) with (Z.of_nat (length d)) by word_lia.
       change (Z.to_nat 0) with 0%nat. rewrite ?drop_0. rewrite Nat2Z.id, take_ge by lia.
       erewrite bind_ok; [| exact E]. cbv beta. destruct Hp' as [Hpa' _].
       erewrite bind_ok; [| apply (pload_run _ _ _ Hpa')]. cbv beta. rewrite (proj2 (Z.eqb_neq _ 0)) by lia.
       cbn [negb]. cbv iota. erewrite bind_ok; [| exact Ew]. cbv beta.
       replace (0 +% Z.of_nat (length d)) with (Z.of_nat (length d)) by word_lia. rewrite Z.eqb_refl. reflexivity. }
  cbv beta iota. replace (0 +% Z.of_nat (length d)) with (Z.of_nat (length d)) by word_lia.
  destruct (length d) as [| k] eqn:Ek; [lia|]. cbn [pipe_write_loop].
  rewrite Z.ltb_irrefl. unfold mret, st_ret. do 3 f_equal. apply sN_id; lia.
Qed.

Lemma pipe_read_run (s : K) (rf : Z) (f : file) (p : pipe_private) (l : list Z) (n : Z) :
  s.(env).(files) !! rf = Some f -> pipe_at s f.(f_private) p l -> fifo_ok (Deq n) l -> asleep s p.(write_wait) ->
  let out := take (Z.to_nat n) l in
  exists e fb t, pipe_read rf n s =
      Ok (Some (Z.of_nat (length out), out),
          set_queues (set_procs (set_env s e) t) (s.(ready_queue) ++ p.(write_wait)) s.(zombies)) /\
    pipe_at (set_env s e) f.(f_private) (pi_set_buf p fb) (drop (Z.to_nat n) l).
Proof.
  intros Hf Hp Hok Hsl out. pose proof Hok as [Hne Hn].
  pose proof Hp as (Hpa & (_ & (ps & _ & Hs & Hb & _) & _ & Hsz)). unfold PIPE_BUF in Hsz.
  assert (0 < Z.of_nat (length out) <= 4096) as Hout
    by (unfold out; rewrite length_take; destruct l; [contradiction | simpl in *; lia]).
  destruct (pipe_dequeue_run s f.(f_private) p l n Hp Hok) as (e & fb & E & Hfs & Hp').
  destruct (wake_all_run p.(write_wait) 0 (set_env s e)) as (t & Ew & Ht & _); [exact Hsl|].
  exists e, fb, t. split; [|exact Hp'].
  unfold pipe_read. erewrite bind_ok; [| apply (pfload_run s rf f Hf)]. cbv beta zeta.
  erewrite bind_ok; [| exact E]. cbv beta. destruct Hp' as [Hpa' _].
  erewrite bind_ok; [| apply (pload_run _ _ _ Hpa')]. cbv beta. cbn [fst snd].
  fold out. rewrite (proj2 (Z.eqb_neq _ 0)) by lia. cbn [negb]. cbv iota. erewrite bind_ok; [| exact Ew].
  unfold mret, st_ret. do 4 f_equal. apply sN_id; lia.
Qed.

(** Bytes written to a pipe with room for them are accepted at once, and a
    read then returns the oldest bytes, in the order in which they were written,
    and leaves the rest; the write makes every sleeping reader ready, and the
    read every sleeping writer. *)
Theorem pipe_write_read (s : K) (wf rf a n : Z) (w r : file) (p : pipe_private) (l d : list Z) :
  (forall x, page_sized (junk x)) ->
  s.(env).(files) !! wf = Some w -> w.(f_private) = a -> s.(env).(files) !! rf = Some r -> r.(f_private) = a ->
  pipe_at s a p l -> d <> [] -> Z.of_nat (length l + length d) <= PIPE_BUF -> 0 < n < 2 ^ 31 ->
  supplies 2 s.(env).(fdata).(ppages).(pool) -> asleep s (p.(read_wait) ++ p.(write_wait)) ->
  let out := take (Z.to_nat n) (l ++ d) in
  exists s1 s2 p',
    pipe_write kfree_page junk wf d s = Ok (inl (Z.of_nat (length d)), s1) /\
    pipe_read rf n s1 = Ok (Some (Z.of_nat (length out), out), s2) /\
    pipe_at s2 a p' (drop (Z.to_nat n) (l ++ d)) /\
    s2.(ready_queue) = s.(ready_queue) ++ p.(read_wait) ++ p.(write_wait).
Proof.
  intros Hj Hw Hwa Hr Hra Hp Hd Hcap Hn Hsup Hsl out. subst a.
  assert (asleep s p.(read_wait)) as Hsl1.
  { destruct Hsl as (Hnd & Hv & Hq). apply NoDup_app in Hnd as (Hnd & _). apply Forall_app in Hv as [Hv _].
    split; [exact Hnd|]. split; [exact Hv|]. intros x Hx. apply Hq, elem_of_app. auto. }
  destruct (pipe_write_run s wf w p l d Hj Hw Hp (conj Hd Hcap) Hsup Hsl1) as (e & fb & t & E & Ht & Hfs & Hp').
  set (s1 := set_env _ e) in E. rewrite <- Hra in Hp'.
  destruct (pipe_read_run s1 rf r (pi_set_buf p fb) (l ++ d) n) as (e' & fb' & t' & E' & Hp'').
  - unfold s1. simpl. rewrite Hfs. exact Hr.
  - exact Hp'.
  - split; [destruct d; [contradiction | destruct l; discriminate] | exact Hn].
  - apply asleep_app; auto.
  - exists s1. eexists _, (pi_set_buf (pi_set_buf p fb) fb'). split; [exact E|]. split; [exact E'|].
    split; [rewrite <- Hra; exact Hp'' | simpl; rewrite app_assoc; reflexivity].
Qed.

End proofs.

(** ** Two processes and a pipe *)

Definition example_pages (b : Z) : list Z := replicate (Z.to_nat 4096) b.

(** Process 1 runs, process 2 is ready, and process 3 sleeps in a read; the pipe
    at address 1 has the files 1 and 2 as its ends and [n] bytes in a page. *)
Definition kst_pipe (n : Z) (readers ready : list Z) : kst (vfs (pipe_data Z)) := {|
  proctab := [blank_pcb 256 PROC_READY; blank_pcb 1 PROC_READY; blank_pcb 2 PROC_READY;
              blank_pcb 3 PROC_INTERRUPTIBLE];
  current := 1;
  ready_queue := ready;
  zombies := [];
  idle_pid := 256;
  timers_of := Timers ∅ [] 0;
  umem := ∅;
  env := Vfs ∅ ∅ (<[1 := File 0 O_READ 0 0 0 1 1 pipe_read_operations_p]>
                  (<[2 := File 0 O_WRITE 0 0 0 1 1 pipe_write_operations_p]> ∅)) [1; 2] []
           (Statics [] [] [] [] false 0)
           (PipeData (<[1 := Pipe (Flexbuf n 0 8 (Some 4096 :: replicate 7 None)) 2 1 readers []]> ∅)
              (Pages (<[4096 := example_pages 5]> ∅) 2));
|}.

Lemma pipe_write_read_witness :
  exists s1 s2,
    @pipe_write Z bump_pages (fun _ p => p) (fun _ => example_pages 0) 2 [6; 7] (kst_pipe 3 [3] [0; 2]) = Ok (inl 2, s1) /\
    pipe_read 1 4 s1 = Ok (Some (4, [5; 5; 5; 6]), s2) /\ s2.(ready_queue) = [0; 2; 3].
Proof.
  destruct (@pipe_write_read Z bump_pages bump_pages_laws (fun _ p => p) (fun _ => example_pages 0)
              (kst_pipe 3 [3] [0; 2]) 2 1 1 4 (File 0 O_WRITE 0 0 0 1 1 pipe_write_operations_p)
              (File 0 O_READ 0 0 0 1 1 pipe_read_operations_p)
              (Pipe (Flexbuf 3 0 8 (Some 4096 :: replicate 7 None)) 2 1 [3] []) [5; 5; 5] [6; 7])
    as (s1 & s2 & p' & E1 & E2 & _ & Er); try reflexivity; try discriminate; try lia.
  - split; [reflexivity|]. split; [|split; [|simpl; unfold PIPE_BUF; lia]].
    + intros a [b Hb]. simpl in Hb. apply lookup_insert_Some in Hb as [[<- _] | [_ Hb]]; [simpl; unfold FRAME_SIZE; lia|].
      rewrite lookup_empty in Hb. discriminate.
    + exists [4096]. split; [simpl; lia|]. split; [reflexivity|]. split; [simpl; lia|]. split; [simpl; lia|].
      exists [example_pages 5]. split; [|split; reflexivity].
      split; [split; [apply NoDup_singleton | repeat constructor] | eexists; reflexivity].
  - repeat (eexists _, _; split; [reflexivity|]). exact I.
  - split; [|split].
    + repeat constructor. set_solver.
    + repeat constructor; simpl; lia.
    + intros x Hx. simpl in *. set_solver.
  - exists s1, s2. auto.
Defined.

(** Process 1 writes two bytes when there is room for one and sleeps; process 2
    reads one byte and writes one of its own; process 1 then writes the rest.
    The block of process 1, which is far smaller than [PIPE_BUF], is interleaved. *)
Lemma pipe_blocks_interleave :
  let w := @pipe_write Z bump_pages (fun _ p => p) (fun _ => example_pages 0) 2 in
  match (a ← w [1; 2]; b ← pipe_read 1 4095; c ← w [9]; switch ;;
         match a with
         | inr local => d ← @pipe_write_resume Z bump_pages (fun _ p => p) (fun _ => example_pages 0) 2 [1; 2] local;
                        r ← pipe_read 1 4096; mret (c, d, r)
         | inl _ => fault
         end) (kst_pipe 4095 [] [2]) with
  | Ok ((c, d, r), _) => c = inl 1 /\ d = inl 2 /\ r = Some (3, [1; 9; 2])
  | _ => False
  end.
Proof. vm_compute. split_and!; reflexivity. Qed.
