(* ===== verification/Console.v ===== *)
(** * The screen and the keyboard (drivers/pc_console.c, lib/kbtoa.c)

    A console has 80 columns and 25 rows of cells of two bytes, a character and
    its attribute.  The visible console lives in the video memory, the others in
    their [mem].  Writes to the ports of the video controller are logged.

    The theorem of this file states that the consoles are independent terminals:
    each console shows what an ideal terminal shows that got the characters
    written to it, whichever console is visible. *)

From S2P Require Import Prelude Abi Numstr Vsprintf.

Definition NR_CONSOLES : Z := 2.
Definition COL : Z := 80.
Definition ROW : Z := 25.
Definition CHR : Z := 2.
Definition CONSOLE_SIZE : Z := COL * ROW * CHR.
Definition TAB_WIDTH : nat := 8.
Definition DEFAULT_ATTR : Z := 7.
Definition TXT_CLR : Z := 7.
Definition VGA_COLOR_BASE : Z := 980.

Record console : Type := Console {
  cmem : list Z;
  offset : Z;
}.

Record screen : Type := Screen {
  constab : list console;
  visible : Z;
  vga : list Z;
  ports : list (Z * Z);
}.

Abbreviation M := (ST screen).

Definition outb (port data : Z) : M unit :=
  modify (fun s => Screen s.(constab) s.(visible) s.(vga) (s.(ports) ++ [(port, u8 data)])).

Definition cursor (pos : Z) : M unit :=
  outb VGA_COLOR_BASE 14 ;;
  outb (VGA_COLOR_BASE + 1) (Z.shiftr pos 8) ;;
  outb VGA_COLOR_BASE 15 ;;
  outb (VGA_COLOR_BASE + 1) (Z.land pos 255).

(** The memory [console_mem(index)] points to, read and written. *)
Definition console_mem (index : Z) : M (list Z) :=
  s ← gets id;
  if index =? s.(visible) then mret s.(vga)
  else c ← st_res (aload s.(constab) index); mret c.(cmem).

Definition console_mem_set (index : Z) (m : list Z) : M unit :=
  s ← gets id;
  if index =? s.(visible) then modify (fun s => Screen s.(constab) s.(visible) m s.(ports))
  else
    c ← st_res (aload s.(constab) index);
    t ← st_res (astore s.(constab) index (Console m c.(offset)));
    modify (fun s => Screen t s.(visible) s.(vga) s.(ports)).

Definition get_offset (idx : Z) : M Z :=
  s ← gets id;
  c ← st_res (aload s.(constab) idx);
  mret c.(offset).

Definition set_offset (idx o : Z) : M unit :=
  s ← gets id;
  c ← st_res (aload s.(constab) idx);
  t ← st_res (astore s.(constab) idx (Console c.(cmem) o));
  modify (fun s => Screen t s.(visible) s.(vga) s.(ports)).

Definition store_byte (idx i b : Z) : M unit :=
  m ← console_mem idx;
  m ← st_res (astore m i b);
  console_mem_set idx m.

(** [memcpy(m, m + d, n)] from byte [i] on; it copies forwards. *)
Fixpoint copy_down (n : nat) (i d : Z) (m : list Z) : res (list Z) :=
  match n with
  | O => Ok m
  | S n =>
      do b <- aload m (d + i);
      do m <- astore m i b;
      copy_down n (i + 1) d m
  end.

(** [for (i = ...; n turns; i += CHR) m[i] = ' '] *)
Fixpoint blank_loop (n : nat) (i : Z) (m : list Z) : res (list Z) :=
  match n with
  | O => Ok m
  | S n =>
      do m <- astore m i 32;
      blank_loop n (i + CHR) m
  end.

Definition scroll (idx : Z) : M unit :=
  m ← console_mem idx;
  m ← st_res (copy_down (Z.to_nat (COL * (ROW - 1) * CHR)) 0 (COL * CHR) m);
  m ← st_res (blank_loop (Z.to_nat COL) (COL * (ROW - 1) * CHR) m);
  console_mem_set idx m.

(** A tab is eight calls with a space, one level deep. *)
Fixpoint putc (depth : nat) (c attr idx : Z) : M unit :=
  o ← get_offset idx;
  (if c =? 10 then
     let o := o +% COL * CHR in set_offset idx (o -% o mod (COL * CHR))
   else if c =? 13 then set_offset idx (o -% o mod (COL * CHR))
   else if c =? 9 then
     match depth with
     | O => fault
     | S depth => for_each (seq 0 TAB_WIDTH) (fun _ => putc depth 32 attr idx)
     end
   else if c =? 8 then
     let o := if o <=? CHR then 0 else o -% CHR in
     set_offset idx o ;; store_byte idx o 32
   else
     store_byte idx o c ;;
     store_byte idx (o +% 1) (Z.land attr 15) ;;
     set_offset idx (o +% CHR)) ;;
  o ← get_offset idx;
  (if CONSOLE_SIZE <=? o then scroll idx ;; set_offset idx (o -% COL * CHR) else mret tt) ;;
  o ← get_offset idx;
  v ← gets visible;
  if idx =? v then cursor (o / 2) else mret tt.

Definition console_putc (c attr idx : Z) : M unit := putc 1 c attr idx.

Fixpoint clear_loop (n : nat) (i : Z) (m : list Z) : res (list Z) :=
  match n with
  | O => Ok m
  | S n =>
      do m <- astore m i 32;
      do m <- astore m (i + 1) DEFAULT_ATTR;
      clear_loop n (i + CHR) m
  end.

Definition console_clear (index : Z) : M unit :=
  m ← console_mem index;
  m ← st_res (clear_loop (Z.to_nat (COL * ROW)) 0 m);
  console_mem_set index m ;;
  cursor 0 ;;
  set_offset index 0.

(** [memcpy(dst, src, CONSOLE_SIZE)] between two objects. *)
Definition copy_screen (dst src : list Z) : res (list Z) :=
  if (CONSOLE_SIZE <=? Z.of_nat (length dst)) && (CONSOLE_SIZE <=? Z.of_nat (length src))
  then Ok (take (Z.to_nat CONSOLE_SIZE) src ++ drop (Z.to_nat CONSOLE_SIZE) dst) else Fault.

Definition console_switch (index : Z) : M Z :=
  s ← gets id;
  if NR_CONSOLES <=? index then mret (- EINVAL)
  else if index =? s.(visible) then mret 0
  else
    old ← st_res (aload s.(constab) s.(visible));
    m ← st_res (copy_screen old.(cmem) s.(vga));
    t ← st_res (astore s.(constab) s.(visible) (Console m old.(offset)));
    modify (fun s => Screen t s.(visible) s.(vga) s.(ports)) ;;
    new ← st_res (aload t index);
    v ← st_res (copy_screen s.(vga) new.(cmem));
    modify (fun s => Screen s.(constab) s.(visible) v s.(ports)) ;;
    cursor (new.(offset) / 2) ;;
    modify (fun s => Screen s.(constab) index s.(vga) s.(ports)) ;;
    mret 0.

(** The loop of [console_write]. *)
Definition console_puts (idx : Z) (buf : list Z) : M unit := for_each buf (fun c => console_putc (u8 c) TXT_CLR idx).

(** [kputs] of a NUL-terminated string. *)
Fixpoint kputs (s : list Z) (attr : Z) : M unit :=
  match s with
  | [] => fault
  | c :: s =>
      if c =? 0 then mret tt
      else v ← gets visible; console_putc (u8 c) attr v ;; kputs s attr
  end.

(** A conversion that does not end is not a result either. *)
Definition _kvprintf (cstr_at : Z -> list Z) (p : Z) (buf : list Z) (attr : Z) (fmt ap : list Z) : M Z :=
  match vsnprintf cstr_at p buf 1024 fmt ap with
  | VOk (ret, o) => kputs o.(obuf) attr ;; mret ret
  | _ => fault
  end.

Definition _kprintf := _kvprintf.

(** ** Scan codes *)

Definition NOCHAR : Z := 256.
Definition KEY_UP : Z := 128.
Definition LSHIFT : Z := 42.
Definition RSHIFT : Z := 54.
Definition LMETA : Z := 56.
Definition LCTL : Z := 29.
Definition CAPSL : Z := 58.
Definition INCTL : Z := 1.
Definition INSHIFT : Z := 2.
Definition INCAPS : Z := 4.
Definition INMETA : Z := 8.

Definition kbcode : list Z :=
  [0;
   27; 49; 50; 51; 52; 53; 54; 55; 56; 57;
   48; 45; 61; 8; 9; 113; 119; 101; 114; 116;
   121; 117; 105; 111; 112; 91; 93; 10; 0; 97;
   115; 100; 102; 103; 104; 106; 107; 108; 59; 39;
   96; 0; 92; 122; 120; 99; 118; 98; 110; 109;
   44; 46; 47; 0; 0; 0; 32].

Definition kbshift : list Z :=
  [0;
   0; 33; 64; 35; 36; 37; 94; 38; 42; 40;
   41; 95; 43; 8; 9; 81; 87; 69; 82; 84;
   89; 85; 73; 79; 80; 123; 125; 10; 0; 65;
   83; 68; 70; 71; 72; 74; 75; 76; 58; 34;
   126; 0; 124; 90; 88; 67; 86; 66; 78; 77;
   60; 62; 63; 0; 0; 0; 32].

Definition kbctl : list Z :=
  [0;
   0; 0; 0; 0; 0; 0; 0; 0; 0; 0;
   0; 31; 0; 8; 9; 17; 23; 5; 18; 20;
   25; 21; 9; 15; 16; 27; 29; 10; 0; 1;
   19; 4; 6; 7; 8; 10; 11; 12; 0; 0;
   0; 0; 28; 26; 24; 3; 22; 2; 14; 13].

Definition in_state (state bit : Z) : bool := negb (Z.land state bit =? 0).

(** The keys whose release and press change the state. *)
Definition key_up (state code : Z) : Z :=
  if (code =? LSHIFT) || (code =? RSHIFT) then Z.land state (Z.lnot INSHIFT)
  else if code =? LCTL then Z.land state (Z.lnot INCTL)
  else if code =? LMETA then Z.land state (Z.lnot INMETA)
  else state.

Definition key_down (state code : Z) : option Z :=
  if (code =? LSHIFT) || (code =? RSHIFT) then Some (Z.lor state INSHIFT)
  else if code =? CAPSL then Some (Z.lxor state INCAPS)
  else if code =? LCTL then Some (Z.lor state INCTL)
  else if code =? LMETA then Some (Z.lor state INMETA)
  else None.

Definition key_char (state code : Z) : Z :=
  if in_state state INCTL && (code <? Z.of_nat (length kbctl)) then default NOCHAR (kbctl !! Z.to_nat code)
  else if code <? Z.of_nat (length kbcode) then
    default NOCHAR ((if xorb (in_state state INCAPS) (in_state state INSHIFT) then kbshift else kbcode) !! Z.to_nat code)
  else NOCHAR.

(** The character and the new state. *)
Definition kbtoa (state code : Z) : Z * Z :=
  if in_state code KEY_UP then (NOCHAR, key_up state (Z.land code 127))
  else match key_down state code with
       | Some state => (NOCHAR, state)
       | None =>
           let ch := key_char state code in
           (if in_state state INMETA then ch + 128 else ch, state)
       end.

(** ** An ideal terminal *)

Record term : Type := Term {
  cells : list Z;
  tpos : Z;
}.

Definition term_scroll (t : term) : term :=
  if COL * ROW <=? t.(tpos)
  then Term (drop (Z.to_nat COL) t.(cells) ++ replicate (Z.to_nat COL) 32) (t.(tpos) - COL) else t.

(** Any character but a tab. *)
Definition term_step (c : Z) (t : term) : term :=
  term_scroll
    (if c =? 10 then Term t.(cells) ((t.(tpos) / COL + 1) * COL)
     else if c =? 13 then Term t.(cells) (t.(tpos) / COL * COL)
     else if c =? 8 then
       let p := Z.max 0 (t.(tpos) - 1) in Term (<[Z.to_nat p := 32]> t.(cells)) p
     else Term (<[Z.to_nat t.(tpos) := c]> t.(cells)) (t.(tpos) + 1)).

Definition term_putc (c : Z) (t : term) : term :=
  if c =? 9 then Nat.iter TAB_WIDTH (term_step 32) t else term_step c t.

Definition term_write (buf : list Z) (t : term) : term := foldl (fun t c => term_putc (u8 c) t) t buf.

Definition term_blank : term := Term (replicate (Z.to_nat (COL * ROW)) 32) 0.

(** The characters of a screen memory. *)
Fixpoint evens (m : list Z) : list Z :=
  match m with
  | [] => []
  | [a] => [a]
  | a :: _ :: m => a :: evens m
  end.

Lemma evens_ind (Q : list Z -> Prop) :
  Q [] -> (forall a, Q [a]) -> (forall a b m, Q m -> Q (a :: b :: m)) -> forall m, Q m.
Proof.
  intros H0 H1 H2. assert (forall m, Q m /\ forall a, Q (a :: m)) as H; [|intros m; apply H].
  induction m as [| b m [IH1 IH2]]; split; auto.
Qed.

Lemma evens_length (m : list Z) : Z.of_nat (length (evens m)) = (Z.of_nat (length m) + 1) / 2.
Proof. induction m using evens_ind; simpl in *; lia. Qed.

Lemma evens_insert (m : list Z) : forall (i : nat) (v : Z), evens (<[(2 * i)%nat := v]> m) = <[i := v]> (evens m).
Proof.
  induction m as [| a | a b m IH] using evens_ind; intros i v; [reflexivity | |].
  - destruct i as [| i]; [reflexivity|]. replace (2 * S i)%nat with (S (S (2 * i))) by lia. reflexivity.
  - destruct i as [| i]; [reflexivity|]. replace (2 * S i)%nat with (S (S (2 * i))) by lia. simpl. f_equal. apply IH.
Qed.

Lemma evens_insert_odd (m : list Z) : forall (i : nat) (v : Z), evens (<[S (2 * i) := v]> m) = evens m.
Proof.
  induction m as [| a | a b m IH] using evens_ind; intros i v; [reflexivity | |].
  - destruct i as [| i]; [reflexivity|]. replace (2 * S i)%nat with (S (S (2 * i))) by lia. reflexivity.
  - destruct i as [| i]; [reflexivity|]. replace (2 * S i)%nat with (S (S (2 * i))) by lia. simpl. f_equal. apply IH.
Qed.

Lemma evens_drop (m : list Z) : forall k : nat, evens (drop (2 * k) m) = drop k (evens m).
Proof.
  induction m as [| a | a b m IH] using evens_ind; intros k; [destruct k; reflexivity | |].
  - destruct k as [| k]; [reflexivity|]. replace (2 * S k)%nat with (S (S (2 * k))) by lia. destruct k; reflexivity.
  - destruct k as [| k]; [reflexivity|]. replace (2 * S k)%nat with (S (S (2 * k))) by lia. apply IH.
Qed.

Lemma evens_app (m m' : list Z) : Nat.even (length m) = true -> evens (m ++ m') = evens m ++ evens m'.
Proof.
  induction m as [| a | a b m IH] using evens_ind; intros H; [reflexivity | discriminate |].
  simpl. f_equal. apply IH. exact H.
Qed.

(** ** Loops over the memory of a screen *)

Lemma copy_down_run (m : list Z) (d n : nat) :
  (d + n <= length m)%nat -> forall i, (i <= n)%nat ->
  copy_down (n - i) (Z.of_nat i) (Z.of_nat d) (take i (drop d m) ++ drop i m) = Ok (take n (drop d m) ++ drop n m).
Proof.
  intros Hn i Hi. remember (n - i)%nat as k eqn:Ek. revert i Hi Ek. induction k as [| k IH]; intros i Hi Ek.
  - replace i with n by lia. reflexivity.
  - cbn [copy_down]. destruct (lookup_lt_is_Some_2 m (d + i)) as [b Hb]; [lia|].
    assert (length (take i (drop d m)) = i) as Hl by (rewrite length_take, length_drop; lia).
    rewrite (proj2 (aload_ok _ _ b)); [|split; [lia|]]; cbn [res_bind].
    2: { rewrite lookup_app_r by lia. rewrite Hl, lookup_drop. replace (i + _)%nat with (d + i)%nat by lia. exact Hb. }
    rewrite astore_in by (rewrite length_app, Hl, length_drop; lia). cbn [res_bind].
    rewrite <- (IH (S i)) by lia. f_equal; [lia|]. rewrite Nat2Z.id.
    rewrite insert_app_r_alt by lia. rewrite Hl, Nat.sub_diag.
    destruct (lookup_lt_is_Some_2 m i) as [x Hx]; [lia|]. rewrite (drop_S m x i Hx). simpl.
    rewrite (take_S_r (drop d m) i b) by (rewrite lookup_drop; exact Hb). rewrite <- app_assoc. reflexivity.
Qed.

Lemma blank_loop_run (n : nat) :
  forall (i : nat) (m : list Z), Z.of_nat (length m) = 2 * Z.of_nat (i + n) ->
  exists m', blank_loop n (2 * Z.of_nat i) m = Ok m' /\ length m' = length m /\
    evens m' = take i (evens m) ++ replicate n 32.
Proof.
  induction n as [| n IH]; intros i m Hm.
  - exists m. split; [reflexivity|]. split; [reflexivity|]. simpl. rewrite app_nil_r, take_ge; [reflexivity|].
    pose proof (evens_length m). lia.
  - cbn [blank_loop]. rewrite astore_in by lia. cbn [res_bind].
    replace (2 * Z.of_nat i + CHR) with (2 * Z.of_nat (S i)) by (unfold CHR; lia).
    replace (Z.to_nat (2 * Z.of_nat i)) with (2 * i)%nat by lia.
    destruct (IH (S i) (<[(2 * i)%nat := 32]> m)) as (m' & E & Hl & He); [rewrite length_insert; lia|].
    exists m'. split; [exact E|]. split; [rewrite Hl; apply length_insert|].
    rewrite He, evens_insert. pose proof (evens_length m) as Hel.
    rewrite (take_S_r _ i 32) by (apply list_lookup_insert_eq; lia).
    rewrite take_insert_ge by lia. rewrite <- app_assoc. reflexivity.
Qed.

Lemma clear_loop_run (n : nat) :
  forall (i : nat) (m : list Z), Z.of_nat (length m) = 2 * Z.of_nat (i + n) ->
  exists m', clear_loop n (2 * Z.of_nat i) m = Ok m' /\ length m' = length m /\
    evens m' = take i (evens m) ++ replicate n 32.
Proof.
  induction n as [| n IH]; intros i m Hm.
  - exists m. split; [reflexivity|]. split; [reflexivity|]. simpl. rewrite app_nil_r, take_ge; [reflexivity|].
    pose proof (evens_length m). lia.
  - cbn [clear_loop]. rewrite astore_in by lia. cbn [res_bind].
    rewrite astore_in by (rewrite length_insert; lia). cbn [res_bind].
    replace (2 * Z.of_nat i + CHR) with (2 * Z.of_nat (S i)) by (unfold CHR; lia).
    replace (Z.to_nat (2 * Z.of_nat i)) with (2 * i)%nat by lia.
    replace (Z.to_nat (2 * Z.of_nat i + 1)) with (S (2 * i)) by lia.
    set (m1 := <[S (2 * i) := DEFAULT_ATTR]> (<[(2 * i)%nat := 32]> m)).
    assert (evens m1 = <[i := 32]> (evens m)) as Hm1 by (unfold m1; rewrite evens_insert_odd; apply evens_insert).
    destruct (IH (S i) m1) as (m' & E & Hl & He); [unfold m1; rewrite !length_insert; lia|].
    exists m'. split; [exact E|]. split; [rewrite Hl; unfold m1; rewrite !length_insert; reflexivity|].
    rewrite He, Hm1. pose proof (evens_length m) as Hel.
    rewrite (take_S_r _ i 32) by (apply list_lookup_insert_eq; lia).
    rewrite take_insert_ge by lia. rewrite <- app_assoc. reflexivity.
Qed.

(** The copy and the blank row together: the text moves up by a row. *)
Lemma scroll_run (m : list Z) :
  Z.of_nat (length m) = CONSOLE_SIZE ->
  exists m1 m2, copy_down (Z.to_nat (COL * (ROW - 1) * CHR)) 0 (COL * CHR) m = Ok m1 /\
    blank_loop (Z.to_nat COL) (COL * (ROW - 1) * CHR) m1 = Ok m2 /\ length m2 = length m /\
    evens m2 = drop (Z.to_nat COL) (evens m) ++ replicate (Z.to_nat COL) 32.
Proof.
  unfold CONSOLE_SIZE, COL, ROW, CHR. intros Hm. set (n := Z.to_nat 3840). set (d := Z.to_nat 160).
  assert (d + n <= length m)%nat as Hd by (unfold d, n; lia).
  pose proof (copy_down_run m d n Hd 0 ltac:(lia)) as E1. rewrite Nat.sub_0_r, take_0, drop_0, app_nil_l in E1.
  change (Z.of_nat 0) with 0 in E1. replace (Z.of_nat d) with (80 * 2) in E1 by (unfold d; lia).
  set (m1 := take n (drop d m) ++ drop n m) in E1.
  assert (length m1 = length m) as Hl1.
  { unfold m1. rewrite length_app, length_take, !length_drop. unfold d, n in *. lia. }
  destruct (blank_loop_run (Z.to_nat 80) (Z.to_nat 1920) m1) as (m2 & E2 & Hl2 & He); [unfold n in *; lia|].
  exists m1, m2. split; [exact E1|]. split; [exact E2|]. split; [lia|]. rewrite He. f_equal.
  unfold m1. rewrite evens_app
    by (rewrite length_take, length_drop; replace (n `min` (length m - d))%nat with n by lia; vm_compute; reflexivity).
  assert (length (evens (take n (drop d m))) = Z.to_nat 1920) as Hle.
  { pose proof (evens_length (take n (drop d m))) as H. rewrite length_take, length_drop in H. unfold d, n in *. lia. }
  rewrite take_app_le by lia. rewrite take_ge by lia. rewrite (take_ge (drop d m)) by (rewrite length_drop; unfold d, n in *; lia).
  replace d with (2 * Z.to_nat 80)%nat by (unfold d; lia). apply evens_drop.
Qed.

(** ** One console of the screen *)

Definition view (s : screen) (idx : Z) (m : list Z) (o : Z) : Prop :=
  0 <= idx /\ exists c, s.(constab) !! Z.to_nat idx = Some c /\ c.(offset) = o /\
                        m = if idx =? s.(visible) then s.(vga) else c.(cmem).

Definition upd_view (s : screen) (idx : Z) (m : list Z) (o : Z) (p : list (Z * Z)) : screen :=
  let old := default [] (cmem <$> s.(constab) !! Z.to_nat idx) in
  if idx =? s.(visible) then Screen (<[Z.to_nat idx := Console old o]> s.(constab)) s.(visible) m p
  else Screen (<[Z.to_nat idx := Console m o]> s.(constab)) s.(visible) s.(vga) p.

Lemma view_upd (s : screen) (idx : Z) (m m' : list Z) (o o' : Z) (p : list (Z * Z)) :
  view s idx m o -> view (upd_view s idx m' o' p) idx m' o'.
Proof.
  intros (Hi & c & Hc & _). split; [exact Hi|]. apply lookup_lt_Some in Hc as Hl. unfold upd_view.
  destruct (Z.eqb_spec idx s.(visible)); simpl; rewrite list_lookup_insert_eq by exact Hl;
    eexists; (split; [reflexivity|]); (split; [reflexivity|]); destruct (Z.eqb_spec idx s.(visible)); simpl; congruence.
Qed.

Lemma upd_view_twice (s : screen) (idx : Z) (m m' m'' : list Z) (o o' o'' : Z) (p p' : list (Z * Z)) :
  view s idx m o -> upd_view (upd_view s idx m' o' p) idx m'' o'' p' = upd_view s idx m'' o'' p'.
Proof.
  intros (Hi & c & Hc & _). apply lookup_lt_Some in Hc as Hl. unfold upd_view.
  destruct (Z.eqb_spec idx s.(visible)) as [E | E]; simpl.
  - rewrite (proj2 (Z.eqb_eq _ _) E). rewrite list_lookup_insert_eq by exact Hl. rewrite list_insert_insert_eq. reflexivity.
  - rewrite (proj2 (Z.eqb_neq _ _) E). rewrite list_insert_insert_eq. reflexivity.
Qed.

Lemma upd_view_same (s : screen) (idx : Z) (m : list Z) (o : Z) :
  view s idx m o -> upd_view s idx m o s.(ports) = s.
Proof.
  intros (Hi & c & Hc & <- & ->). unfold upd_view. rewrite Hc. simpl.
  assert (Console c.(cmem) c.(offset) = c) as Ec by (destruct c; reflexivity).
  destruct (idx =? s.(visible)); rewrite Ec, list_insert_id by exact Hc; destruct s; reflexivity.
Qed.

Lemma outb_upd (s : screen) (idx port data : Z) (m : list Z) (o : Z) (p : list (Z * Z)) :
  outb port data (upd_view s idx m o p) = Ok (tt, upd_view s idx m o (p ++ [(port, u8 data)])).
Proof. unfold outb, modify, upd_view. destruct (idx =? s.(visible)); reflexivity. Qed.

Lemma cursor_upd (s : screen) (idx pos : Z) (m : list Z) (o : Z) (p : list (Z * Z)) :
  exists p', cursor pos (upd_view s idx m o p) = Ok (tt, upd_view s idx m o p').
Proof. eexists. unfold cursor. do 3 (erewrite bind_ok; [| apply outb_upd]; cbv beta). apply outb_upd. Qed.

Lemma console_mem_run (s : screen) (idx : Z) (m : list Z) (o : Z) :
  view s idx m o -> console_mem idx s = Ok (m, s).
Proof.
  intros (Hi & c & Hc & _ & ->). unfold console_mem. erewrite (bind_ok _ _ s) by reflexivity. unfold id. cbv beta.
  destruct (idx =? s.(visible)); [reflexivity|].
  erewrite bind_ok; [| unfold st_res; rewrite (proj2 (aload_ok _ idx c)) by auto; reflexivity]. reflexivity.
Qed.

Lemma get_offset_run (s : screen) (idx : Z) (m : list Z) (o : Z) :
  view s idx m o -> get_offset idx s = Ok (o, s).
Proof.
  intros (Hi & c & Hc & <- & _). unfold get_offset. erewrite (bind_ok _ _ s) by reflexivity. unfold id. cbv beta.
  erewrite bind_ok; [| unfold st_res; rewrite (proj2 (aload_ok _ idx c)) by auto; reflexivity]. reflexivity.
Qed.

Lemma console_mem_set_run (s : screen) (idx : Z) (m m' : list Z) (o : Z) :
  view s idx m o -> console_mem_set idx m' s = Ok (tt, upd_view s idx m' o s.(ports)).
Proof.
  intros (Hi & c & Hc & <- & ->). apply lookup_lt_Some in Hc as Hl. unfold console_mem_set, upd_view.
  erewrite (bind_ok _ _ s) by reflexivity. unfold id. cbv beta. rewrite Hc. simpl default.
  destruct (idx =? s.(visible)).
  - unfold modify. replace (Console c.(cmem) c.(offset)) with c by (destruct c; reflexivity).
    rewrite list_insert_id by exact Hc. reflexivity.
  - erewrite bind_ok; [| unfold st_res; rewrite (proj2 (aload_ok _ idx c)) by auto; reflexivity]. cbv beta.
    erewrite bind_ok; [| unfold st_res; rewrite astore_in by lia; reflexivity]. reflexivity.
Qed.

Lemma set_offset_run (s : screen) (idx : Z) (m : list Z) (o o' : Z) :
  view s idx m o -> set_offset idx o' s = Ok (tt, upd_view s idx m o' s.(ports)).
Proof.
  intros (Hi & c & Hc & <- & ->). apply lookup_lt_Some in Hc as Hl. unfold set_offset, upd_view.
  erewrite (bind_ok _ _ s) by reflexivity. unfold id. cbv beta. rewrite Hc. simpl default.
  erewrite bind_ok; [| unfold st_res; rewrite (proj2 (aload_ok _ idx c)) by auto; reflexivity]. cbv beta.
  erewrite bind_ok; [| unfold st_res; rewrite astore_in by lia; reflexivity].
  destruct (idx =? s.(visible)); reflexivity.
Qed.

Lemma ports_upd (s : screen) (idx : Z) (m : list Z) (o : Z) (p : list (Z * Z)) : (upd_view s idx m o p).(ports) = p.
Proof. unfold upd_view. destruct (idx =? s.(visible)); reflexivity. Qed.

(** Stepping through an operation on console [idx] of [s], whose state is always
    [upd_view s idx m o p]. *)
Section one.

Context (s : screen) (idx : Z) (m0 : list Z) (o0 : Z) (Hv : view s idx m0 o0).

Abbreviation U := (upd_view s idx).

Lemma U_mem (m : list Z) (o : Z) (p : list (Z * Z)) : console_mem idx (U m o p) = Ok (m, U m o p).
Proof. apply (console_mem_run _ _ m o). eapply view_upd, Hv. Qed.

Lemma U_off (m : list Z) (o : Z) (p : list (Z * Z)) : get_offset idx (U m o p) = Ok (o, U m o p).
Proof. apply (get_offset_run _ _ m o). eapply view_upd, Hv. Qed.

Lemma U_set_mem (m m' : list Z) (o : Z) (p : list (Z * Z)) : console_mem_set idx m' (U m o p) = Ok (tt, U m' o p).
Proof.
  rewrite (console_mem_set_run _ _ m m' o) by (eapply view_upd, Hv).
  erewrite upd_view_twice by exact Hv. rewrite ports_upd. reflexivity.
Qed.

Lemma U_set_off (m : list Z) (o o' : Z) (p : list (Z * Z)) : set_offset idx o' (U m o p) = Ok (tt, U m o' p).
Proof.
  rewrite (set_offset_run _ _ m o o') by (eapply view_upd, Hv).
  erewrite upd_view_twice by exact Hv. rewrite ports_upd. reflexivity.
Qed.

Lemma U_store (m : list Z) (i b o : Z) (p : list (Z * Z)) :
  0 <= i < Z.of_nat (length m) -> store_byte idx i b (U m o p) = Ok (tt, U (<[Z.to_nat i := b]> m) o p).
Proof.
  intros Hi. unfold store_byte. erewrite bind_ok; [| apply U_mem]. cbv beta.
  erewrite bind_ok; [| unfold st_res; rewrite astore_in by exact Hi; reflexivity]. apply U_set_mem.
Qed.

Definition shows (m : list Z) (o : Z) (t : term) : Prop :=
  Z.of_nat (length m) = CONSOLE_SIZE /\ evens m = t.(cells) /\ o = 2 * t.(tpos) /\ 0 <= t.(tpos) < COL * ROW.

(** The end of [console_putc]: scrolling and the cursor. *)
Lemma putc_end (m : list Z) (o : Z) (p : list (Z * Z)) (t : term) :
  Z.of_nat (length m) = CONSOLE_SIZE -> evens m = t.(cells) -> o = 2 * t.(tpos) ->
  0 <= t.(tpos) < COL * ROW + COL ->
  exists m' o' p',
    (o ← get_offset idx;
     (if CONSOLE_SIZE <=? o then scroll idx ;; set_offset idx (o -% COL * CHR) else mret tt) ;;
     o ← get_offset idx;
     v ← gets visible;
     if idx =? v then cursor (o / 2) else mret tt) (U m o p) = Ok (tt, U m' o' p') /\
    shows m' o' (term_scroll t).
Proof.
  intros Hm He Ho Ht. erewrite bind_ok; [| apply U_off]. cbv beta.
  assert (exists m' o', (if CONSOLE_SIZE <=? o then scroll idx ;; set_offset idx (o -% COL * CHR) else mret tt) (U m o p)
                        = Ok (tt, U m' o' p) /\ shows m' o' (term_scroll t)) as (m' & o' & E & Hs).
  { unfold term_scroll. destruct (Z.leb_spec CONSOLE_SIZE o), (Z.leb_spec (COL * ROW) t.(tpos));
      try (unfold CONSOLE_SIZE, COL, ROW, CHR in *; lia).
    - destruct (scroll_run m Hm) as (m1 & m2 & E1 & E2 & Hl & He2). exists m2, (o -% COL * CHR). split.
      + erewrite bind_ok; [apply U_set_off|]. unfold scroll. erewrite bind_ok; [| apply U_mem]. cbv beta.
        erewrite bind_ok; [| unfold st_res; rewrite E1; reflexivity]. cbv beta.
        erewrite bind_ok; [| unfold st_res; rewrite E2; reflexivity]. apply U_set_mem.
      + split; [lia|]. split; [simpl; rewrite He2, He; reflexivity|].
        split; cbn [tpos]; unfold CONSOLE_SIZE, COL, ROW, CHR in *; [word_lia | lia].
    - exists m, o. split; [reflexivity|]. split; [exact Hm|]. split; [exact He|]. split; [exact Ho | lia]. }
  erewrite bind_ok; [| exact E]. cbv beta. erewrite bind_ok; [| apply U_off]. cbv beta.
  erewrite bind_ok by reflexivity. cbv beta. exists m', o'.
  destruct (idx =? _); [| exists p; split; [reflexivity | exact Hs]].
  destruct (cursor_upd s idx (o' / 2) m' o' p) as [p' Ec]. exists p'. split; [exact Ec | exact Hs].
Qed.

Lemma putc_step (d : nat) (c attr o : Z) (m : list Z) (p : list (Z * Z)) (t : term) :
  c <> 9 -> shows m o t ->
  exists m' o' p', putc d c attr idx (U m o p) = Ok (tt, U m' o' p') /\ shows m' o' (term_step c t).
Proof.
  intros Hc (Hm & He & Ho & Ht).
  assert (putc d c attr idx = putc 0 c attr idx) as -> by (destruct d; [reflexivity | simpl; rewrite (proj2 (Z.eqb_neq c 9) Hc); reflexivity]).
  cbn [putc]. rewrite (proj2 (Z.eqb_neq c 9) Hc). erewrite bind_ok; [| apply U_off]. cbv beta zeta.
  unfold CONSOLE_SIZE, COL, ROW, CHR in Hm, Ht. unfold term_step. pose proof (evens_length m) as Hel.
  destruct (c =? 10); [| destruct (c =? 13); [| destruct (c =? 8)]]; cbv iota.
  - erewrite bind_ok; [| apply U_set_off]. apply putc_end; auto; cbn [tpos cells]; unfold COL, ROW, CHR; [word_lia | lia].
  - erewrite bind_ok; [| apply U_set_off]. apply putc_end; auto; cbn [tpos cells]; unfold COL, ROW, CHR; [word_lia | lia].
  - set (o1 := if o <=? CHR then 0 else o -% CHR).
    assert (o1 = 2 * Z.max 0 (t.(tpos) - 1)) as Ho1
      by (unfold o1, CHR; destruct (Z.leb_spec o 2); [lia | word_lia]).
    erewrite bind_ok; [| erewrite bind_ok; [| apply U_set_off]; apply U_store; lia]. apply putc_end; auto.
    + rewrite length_insert. exact Hm.
    + cbn [cells]. rewrite Ho1, <- He. replace (Z.to_nat (2 * _)) with (2 * Z.to_nat (Z.max 0 (t.(tpos) - 1)))%nat by lia.
      apply evens_insert.
    + cbn [tpos]. unfold COL, ROW. lia.
  - replace (o +% 1) with (o + 1) by word_lia. replace (o +% CHR) with (o + 2) by (unfold CHR; word_lia).
    erewrite bind_ok; [| erewrite bind_ok; [| apply U_store; lia];
                         erewrite bind_ok; [| apply U_store; rewrite length_insert; lia]; apply U_set_off].
    apply putc_end; auto.
    + rewrite !length_insert. exact Hm.
    + cbn [cells]. rewrite Ho, <- He. replace (Z.to_nat (2 * _ + 1)) with (S (2 * Z.to_nat t.(tpos)))%nat by lia.
      rewrite evens_insert_odd. replace (Z.to_nat (2 * _)) with (2 * Z.to_nat t.(tpos))%nat by lia. apply evens_insert.
    + cbn [tpos]. lia.
    + cbn [tpos]. unfold COL, ROW. lia.
Qed.

Lemma putc_tabs (attr : Z) (l : list nat) :
  forall (o : Z) (m : list Z) (p : list (Z * Z)) (t : term), shows m o t ->
  exists m' o' p', for_each l (fun _ => putc 0 32 attr idx) (U m o p) = Ok (tt, U m' o' p') /\
    shows m' o' (Nat.iter (length l) (term_step 32) t).
Proof.
  induction l as [| x l IH]; intros o m p t Hs; [exists m, o, p; auto|].
  destruct (putc_step 0 32 attr o m p t ltac:(lia) Hs) as (m1 & o1 & p1 & E1 & Hs1).
  destruct (IH o1 m1 p1 _ Hs1) as (m2 & o2 & p2 & E2 & Hs2). exists m2, o2, p2.
  cbn [for_each length]. split; [erewrite bind_ok; [exact E2 | exact E1] | rewrite Nat.iter_succ_r; exact Hs2].
Qed.

Lemma term_scroll_id (t : term) : t.(tpos) < COL * ROW -> term_scroll t = t.
Proof. intros H. unfold term_scroll. destruct (Z.leb_spec (COL * ROW) t.(tpos)); [lia | reflexivity]. Qed.

Lemma console_putc_run (c attr o : Z) (m : list Z) (p : list (Z * Z)) (t : term) :
  shows m o t ->
  exists m' o' p', console_putc c attr idx (U m o p) = Ok (tt, U m' o' p') /\ shows m' o' (term_putc c t).
Proof.
  intros Hs. unfold console_putc, term_putc. destruct (Z.eqb_spec c 9) as [-> | Hc]; [| apply putc_step; auto].
  destruct (putc_tabs attr (seq 0 TAB_WIDTH) o m p t Hs) as (m1 & o1 & p1 & E1 & Hs1). rewrite length_seq in Hs1.
  pose proof Hs1 as (Hm1 & He1 & Ho1 & Ht1).
  destruct (putc_end m1 o1 p1 _ Hm1 He1 Ho1) as (m2 & o2 & p2 & E2 & Hs2); [unfold COL, ROW in *; lia|].
  rewrite term_scroll_id in Hs2 by lia. exists m2, o2, p2. split; [|exact Hs2].
  cbn [putc]. erewrite bind_ok; [| apply U_off]. cbv beta iota zeta.
  change (9 =? 10) with false. change (9 =? 13) with false. change (9 =? 9) with true. cbv iota.
  erewrite bind_ok; [exact E2 | exact E1].
Qed.

Lemma console_puts_run (buf : list Z) :
  forall (o : Z) (m : list Z) (p : list (Z * Z)) (t : term), shows m o t ->
  exists m' o' p', console_puts idx buf (U m o p) = Ok (tt, U m' o' p') /\ shows m' o' (term_write buf t).
Proof.
  induction buf as [| c buf IH]; intros o m p t Hs; [exists m, o, p; auto|].
  destruct (console_putc_run (u8 c) TXT_CLR o m p t Hs) as (m1 & o1 & p1 & E1 & Hs1).
  destruct (IH o1 m1 p1 _ Hs1) as (m2 & o2 & p2 & E2 & Hs2). exists m2, o2, p2.
  unfold console_puts in *. cbn [for_each]. split; [erewrite bind_ok; [exact E2 | exact E1] | exact Hs2].
Qed.

Lemma console_clear_run (o : Z) (m : list Z) (p : list (Z * Z)) :
  Z.of_nat (length m) = CONSOLE_SIZE ->
  exists m' p', console_clear idx (U m o p) = Ok (tt, U m' 0 p') /\ shows m' 0 term_blank.
Proof.
  unfold CONSOLE_SIZE, COL, ROW, CHR. intros Hm.
  destruct (clear_loop_run (Z.to_nat 2000) 0 m) as (m' & E & Hl & He); [lia|].
  change (2 * Z.of_nat 0) with 0 in E. rewrite take_0 in He.
  destruct (cursor_upd s idx 0 m' o p) as [p' Ec]. exists m', p'. split.
  - unfold console_clear. erewrite bind_ok; [| apply U_mem]. cbv beta.
    erewrite bind_ok; [| unfold st_res; change (COL * ROW) with 2000; rewrite E; reflexivity]. cbv beta.
    erewrite bind_ok; [| apply U_set_mem]. erewrite bind_ok; [| exact Ec]. apply U_set_off.
  - split; [unfold CONSOLE_SIZE, COL, ROW, CHR; lia|]. split; [exact He|]. unfold COL, ROW. simpl. lia.
Qed.

End one.

(** ** All consoles *)

Record cons_rep (s : screen) (ts : list term) : Prop := {
  rep_visible : 0 <= s.(visible) < NR_CONSOLES;
  rep_vga : Z.of_nat (length s.(vga)) = CONSOLE_SIZE;
  rep_mem : Forall (fun c => Z.of_nat (length c.(cmem)) = CONSOLE_SIZE) s.(constab);
  rep_nr : Z.of_nat (length s.(constab)) = NR_CONSOLES;
  rep_terms : length ts = length s.(constab);
  rep_shows idx t : 0 <= idx -> ts !! Z.to_nat idx = Some t -> exists m o, view s idx m o /\ shows m o t;
}.

Inductive cons_op : Type :=
| CPuts (idx : Z) (buf : list Z)
| CClear (idx : Z)
| CSwitch (index : Z).

Definition cons_step (o : cons_op) : M Z :=
  match o with
  | CPuts idx buf => console_puts idx buf ;; mret 0
  | CClear idx => console_clear idx ;; mret 0
  | CSwitch index => console_switch index
  end.

(** The terminals after an operation, and its result. *)
Definition terms_step (o : cons_op) (ts : list term) : list term * Z :=
  match o with
  | CPuts idx buf => (alter (term_write buf) (Z.to_nat idx) ts, 0)
  | CClear idx => (<[Z.to_nat idx := term_blank]> ts, 0)
  | CSwitch index => (ts, if index <? NR_CONSOLES then 0 else - EINVAL)
  end.

Definition cons_op_ok (o : cons_op) : Prop :=
  match o with
  | CPuts idx _ | CClear idx => 0 <= idx < NR_CONSOLES
  | CSwitch index => 0 <= index
  end.

Lemma rep_upd (s : screen) (ts : list term) (idx : Z) (m m' : list Z) (o o' : Z) (p : list (Z * Z)) (t : term) :
  cons_rep s ts -> 0 <= idx < NR_CONSOLES -> view s idx m o -> shows m' o' t ->
  cons_rep (upd_view s idx m' o' p) (<[Z.to_nat idx := t]> ts).
Proof.
  intros [Hvis Hvga Hmem Hnr Hts Hsh] Hi Hv Hs. pose proof Hs as (Hm' & _).
  pose proof Hv as (_ & c & Hc & _). pose proof (lookup_lt_Some _ _ _ Hc) as Hl.
  assert (Z.of_nat (length c.(cmem)) = CONSOLE_SIZE) as Hcm by (eapply (Forall_lookup_1 _ _ _ _ Hmem), Hc).
  pose proof (view_upd s idx m m' o o' p Hv) as Hv'.
  split.
  - unfold upd_view. destruct (idx =? _); exact Hvis.
  - unfold upd_view. destruct (idx =? _); [exact Hm' | exact Hvga].
  - unfold upd_view. rewrite Hc. destruct (idx =? _); simpl; apply Forall_insert; auto.
  - unfold upd_view. destruct (idx =? _); simpl; rewrite length_insert; exact Hnr.
  - rewrite length_insert, Hts. unfold upd_view. destruct (idx =? _); simpl; rewrite length_insert; reflexivity.
  - intros i t' Hi0 Ht'. destruct (Z.eq_dec i idx) as [-> | Hne].
    + rewrite list_lookup_insert_eq in Ht' by lia. injection Ht' as <-. eauto.
    + rewrite list_lookup_insert_ne in Ht' by lia. destruct (Hsh i t' Hi0 Ht') as (mi & oi & Hvi & Hsi).
      exists mi, oi. split; [|exact Hsi]. destruct Hvi as (_ & ci & Hci & Hoi & Hmi). split; [exact Hi0|].
      exists ci. unfold upd_view. destruct (Z.eqb_spec idx s.(visible)) as [E | E]; simpl.
      * rewrite list_lookup_insert_ne by lia. split; [exact Hci|]. split; [exact Hoi|].
        destruct (Z.eqb_spec i s.(visible)); [congruence | exact Hmi].
      * rewrite list_lookup_insert_ne by lia. auto.
Qed.

Lemma copy_screen_run (dst src : list Z) :
  Z.of_nat (length dst) = CONSOLE_SIZE -> Z.of_nat (length src) = CONSOLE_SIZE -> copy_screen dst src = Ok src.
Proof.
  intros Hd Hs. unfold copy_screen. rewrite Hd, Hs, Z.leb_refl. simpl andb. cbv iota.
  rewrite take_ge, drop_ge, app_nil_r by lia. reflexivity.
Qed.

Lemma view_rep (s : screen) (ts : list term) (idx : Z) :
  cons_rep s ts -> 0 <= idx < NR_CONSOLES ->
  exists m o t, view s idx m o /\ ts !! Z.to_nat idx = Some t /\ shows m o t.
Proof.
  intros [Hvis Hvga Hmem Hnr Hts Hsh] Hi.
  destruct (lookup_lt_is_Some_2 ts (Z.to_nat idx)) as [t Ht]; [lia|].
  destruct (Hsh idx t ltac:(lia) Ht) as (m & o & Hv & Hs). eauto 7.
Qed.

Lemma cursor_run (s : screen) (pos : Z) :
  exists p, cursor pos s = Ok (tt, Screen s.(constab) s.(visible) s.(vga) p).
Proof. eexists. reflexivity. Qed.

Lemma console_switch_run (s : screen) (ts : list term) (index : Z) :
  cons_rep s ts -> 0 <= index ->
  exists s', console_switch index s = Ok (if index <? NR_CONSOLES then 0 else - EINVAL, s') /\ cons_rep s' ts /\
    s'.(visible) = if index <? NR_CONSOLES then index else s.(visible).
Proof.
  intros Hrep Hi. pose proof Hrep as [Hvis Hvga Hmem Hnr Hts Hsh]. unfold console_switch.
  erewrite (bind_ok _ _ s) by reflexivity. unfold id. cbv beta.
  destruct (Z.leb_spec NR_CONSOLES index), (Z.ltb_spec index NR_CONSOLES); try lia; [exists s; auto|].
  destruct (Z.eqb_spec index s.(visible)) as [-> | Hne]; [exists s; auto|].
  destruct (lookup_lt_is_Some_2 s.(constab) (Z.to_nat s.(visible))) as [old Hold]; [lia|].
  destruct (lookup_lt_is_Some_2 s.(constab) (Z.to_nat index)) as [new Hnew]; [lia|].
  pose proof (Forall_lookup_1 _ _ _ _ Hmem Hold) as Hlo. pose proof (Forall_lookup_1 _ _ _ _ Hmem Hnew) as Hln.
  cbv beta in Hlo, Hln. set (t := <[Z.to_nat s.(visible) := Console s.(vga) old.(offset)]> s.(constab)).
  assert (t !! Z.to_nat index = Some new) as Ht by (unfold t; rewrite list_lookup_insert_ne by lia; exact Hnew).
  erewrite bind_ok; [| unfold st_res; rewrite (proj2 (aload_ok _ _ old)) by (split; [lia | exact Hold]); reflexivity]. cbv beta.
  erewrite bind_ok; [| unfold st_res; rewrite copy_screen_run by assumption; reflexivity]. cbv beta.
  erewrite bind_ok; [| unfold st_res; rewrite astore_in by lia; reflexivity]. cbv beta.
  fold t. erewrite bind_ok by reflexivity. cbv beta.
  erewrite bind_ok; [| unfold st_res; rewrite (proj2 (aload_ok _ _ new)) by (split; [lia | exact Ht]); reflexivity]. cbv beta.
  erewrite bind_ok; [| unfold st_res; rewrite copy_screen_run by assumption; reflexivity]. cbv beta.
  erewrite bind_ok by reflexivity. cbv beta. cbn [constab visible vga ports].
  match goal with |- context [cursor ?pos] => set (q := pos) end.
  match goal with |- context [mbind _ (cursor q) ?st] => destruct (cursor_run st q) as [p Ec] end.
  erewrite bind_ok; [| exact Ec]. cbv beta. erewrite bind_ok by reflexivity. cbn [constab visible vga ports].
  eexists. split; [reflexivity|]. split; [|reflexivity]. split; cbn [constab visible vga ports].
  - lia.
  - exact Hln.
  - unfold t. apply Forall_insert; [exact Hmem | exact Hvga].
  - unfold t. rewrite length_insert. exact Hnr.
  - unfold t. rewrite length_insert. exact Hts.
  - intros idx ti Hi0 Hti. destruct (Hsh idx ti Hi0 Hti) as (m & o & (_ & c & Hc & Ho & Hm) & Hs).
    exists m, o. split; [|exact Hs]. split; [exact Hi0|]. cbn [constab visible vga]. unfold t.
    destruct (Z.eq_dec idx s.(visible)) as [E | E].
    + rewrite E. rewrite list_lookup_insert_eq by lia. eexists. split; [reflexivity|].
      rewrite E in Hc, Hm. rewrite Z.eqb_refl in Hm. destruct (Z.eqb_spec s.(visible) index); [lia|].
      replace c with old in * by congruence. auto.
    + rewrite list_lookup_insert_ne by lia. exists c. split; [exact Hc|]. split; [exact Ho|].
      rewrite (proj2 (Z.eqb_neq idx s.(visible)) E) in Hm. destruct (Z.eqb_spec idx index) as [-> | _]; [congruence | exact Hm].
Qed.

Lemma cons_step_run (s : screen) (ts : list term) (o : cons_op) :
  cons_rep s ts -> cons_op_ok o ->
  exists s', cons_step o s = Ok ((terms_step o ts).2, s') /\ cons_rep s' (terms_step o ts).1.
Proof.
  intros Hrep Ho. destruct o as [idx buf | idx | index]; simpl in Ho.
  - destruct (view_rep s ts idx Hrep Ho) as (m & o & t & Hv & Ht & Hs).
    destruct (console_puts_run s idx m o Hv buf o m s.(ports) t Hs) as (m' & o' & p & E & Hs').
    rewrite upd_view_same in E by exact Hv. eexists. split; [simpl; erewrite bind_ok; [reflexivity | exact E]|].
    simpl. replace (alter _ _ ts) with (<[Z.to_nat idx := term_write buf t]> ts).
    + eapply rep_upd; eauto.
    + rewrite list_insert_alter. apply list_alter_ext; [|reflexivity]. intros x Hx. simpl in *. congruence.
  - destruct (view_rep s ts idx Hrep Ho) as (m & o & t & Hv & Ht & Hs).
    destruct (console_clear_run s idx m o Hv o m s.(ports)) as (m' & p & E & Hs'); [apply Hs|].
    rewrite upd_view_same in E by exact Hv. eexists. split; [simpl; erewrite bind_ok; [reflexivity | exact E]|].
    eapply rep_upd; eauto.
  - destruct (console_switch_run s ts index Hrep Ho) as (s' & E & Hrep' & _). exists s'. auto.
Qed.

Fixpoint cons_run (ops : list cons_op) : M (list Z) :=
  match ops with
  | [] => mret []
  | o :: ops => r ← cons_step o; rs ← cons_run ops; mret (r :: rs)
  end.

Fixpoint terms_run (ops : list cons_op) (ts : list term) : list term * list Z :=
  match ops with
  | [] => (ts, [])
  | o :: ops =>
      let '(ts, r) := terms_step o ts in
      let '(ts, rs) := terms_run ops ts in
      (ts, r :: rs)
  end.

(** C31: any sequence of writes, clears and switches of the consoles stays inside
    the screen memory, and after it every console shows exactly what an ideal
    terminal shows that got only the characters written to that console, with
    line feed, carriage return, backspace, tab and scrolling; switching moves no
    text between consoles. *)
Theorem consoles_refine (ops : list cons_op) :
  forall (s : screen) (ts : list term), cons_rep s ts -> Forall cons_op_ok ops ->
  exists s', cons_run ops s = Ok ((terms_run ops ts).2, s') /\ cons_rep s' (terms_run ops ts).1.
Proof.
  induction ops as [| o ops IH]; intros s ts Hrep Hops; [exists s; auto|].
  apply Forall_cons in Hops as [Ho Hops].
  destruct (cons_step_run s ts o Hrep Ho) as (s1 & E1 & Hrep1). cbn [cons_run terms_run].
  destruct (terms_step o ts) as [ts1 r] eqn:Eo. simpl in *.
  destruct (IH s1 ts1 Hrep1 Hops) as (s2 & E2 & Hrep2). destruct (terms_run ops ts1) as [ts2 rs]. simpl in *.
  exists s2. split; [|exact Hrep2]. erewrite bind_ok; [|exact E1]. erewrite bind_ok; [|exact E2]. reflexivity.
Qed.

(** The machine at power-on, with text left in the video memory. *)
Definition screen_example : screen :=
  Screen (replicate 2 (Console (replicate (Z.to_nat CONSOLE_SIZE) 0) 0)) 0 (replicate (Z.to_nat CONSOLE_SIZE) 1) [].

Lemma screen_example_rep :
  cons_rep screen_example [Term (replicate (Z.to_nat (COL * ROW)) 1) 0; Term (replicate (Z.to_nat (COL * ROW)) 0) 0].
Proof.
  split; [vm_compute; split; congruence | reflexivity | repeat constructor | reflexivity | reflexivity |].
  assert (forall b, shows (replicate (Z.to_nat CONSOLE_SIZE) b) 0 (Term (replicate (Z.to_nat (COL * ROW)) b) 0)) as Hsh
    by (intros b; split; [reflexivity|]; split; [reflexivity|]; cbn [tpos]; unfold COL, ROW; lia).
  intros idx t Hi Ht. destruct (Z.eq_dec idx 0) as [-> | H0]; [|destruct (Z.eq_dec idx 1) as [-> | H1]].
  - injection Ht as <-. eexists _, _. split; [|apply Hsh]. split; [lia|]. eexists. split; [reflexivity|]. auto.
  - injection Ht as <-. eexists _, _. split; [|apply Hsh]. split; [lia|]. eexists. split; [reflexivity|]. auto.
  - apply lookup_lt_Some in Ht. simpl in Ht. lia.
Qed.

(** "a", tab, "b" on console 0, "c" on console 1 while it is hidden. *)
Lemma consoles_refine_witness :
  exists s', cons_run [CClear 0; CPuts 0 [97; 9; 98]; CClear 1; CPuts 1 [99; 10; 100]; CSwitch 1; CSwitch 2] screen_example
             = Ok ([0; 0; 0; 0; 0; - EINVAL], s') /\
    exists m o, view s' 1 m o /\ take 2 (evens m) = [99; 32] /\ o = 162.
Proof.
  destruct (consoles_refine [CClear 0; CPuts 0 [97; 9; 98]; CClear 1; CPuts 1 [99; 10; 100]; CSwitch 1; CSwitch 2]
              screen_example _ screen_example_rep) as (s' & E & Hrep).
  - repeat constructor; simpl; unfold NR_CONSOLES; lia.
  - exists s'. split; [exact E|]. destruct (rep_shows _ _ Hrep 1 (term_write [99; 10; 100] term_blank)) as (m & o & Hv & _ & He & Ho & _).
    + lia.
    + vm_compute. reflexivity.
    + exists m, o. split; [exact Hv|]. rewrite He, Ho. vm_compute. auto.
Defined.

(** ** Where the code disagrees with its purpose *)

(** Clearing a console moves the cursor to the corner, also when the console is
    hidden and the cursor is that of another one. *)
Lemma clear_moves_cursor (s : screen) (idx : Z) (m : list Z) (o : Z) :
  view s idx m o -> Z.of_nat (length m) = CONSOLE_SIZE ->
  exists s', console_clear idx s = Ok (tt, s') /\ s'.(visible) = s.(visible) /\
    s'.(ports) = s.(ports) ++ [(980, 14); (981, 0); (980, 15); (981, 0)].
Proof.
  intros Hv Hm. rewrite <- (upd_view_same s idx m o Hv). set (p := ports _). unfold CONSOLE_SIZE, COL, ROW, CHR in Hm.
  destruct (clear_loop_run (Z.to_nat 2000) 0 m) as (m' & E & _); [lia|]. change (2 * Z.of_nat 0) with 0 in E.
  exists (upd_view s idx m' 0 ((((s.(ports) ++ [(980, 14)]) ++ [(981, 0)]) ++ [(980, 15)]) ++ [(981, 0)])). split; [|split].
  - unfold console_clear. erewrite bind_ok; [| apply (U_mem s idx m o Hv)]. cbv beta.
    erewrite bind_ok; [| unfold st_res; change (COL * ROW) with 2000; rewrite E; reflexivity]. cbv beta.
    erewrite bind_ok; [| apply (U_set_mem s idx m o Hv)]. unfold cursor.
    erewrite bind_ok; [| do 3 (erewrite bind_ok; [| apply outb_upd]; cbv beta); apply outb_upd].
    rewrite (U_set_off s idx m o Hv). reflexivity.
  - unfold upd_view. destruct (idx =? s.(visible)); reflexivity.
  - rewrite ports_upd. unfold p. rewrite <- !app_assoc. rewrite ports_upd. reflexivity.
Qed.

(** With the meta key held, a key without a character gives one. *)
Lemma kbtoa_meta_nochar : (kbtoa INMETA 70).1 <> NOCHAR /\ u8 (kbtoa INMETA 70).1 = 128.
Proof. vm_compute. split; congruence. Qed.
