(* ===== verification/Tty.v ===== *)
(** * Terminals (drivers/tty.c, and the driver in drivers/pc_console.c)

    The private data of the file system layer are the table of terminals, the
    drivers, the line buffers and the state of the devices.  A terminal is
    referred to by its index in the table plus one, a driver and a buffer by an
    address; 0 is [NULL].  A read that sleeps is split as the pipe's is.

    [TtyDriver] is what the terminals need of a driver: writing bytes succeeds and
    changes only the device.  The consoles provide it. *)

From S2P Require Import Prelude Timer Abi Addr Vma Sched Vfs Super Fileops Console.

Definition NR_TTYS : Z := 64.
Definition TTY_BUFFER_SIZE : Z := 16.
Definition VEOF : Z := 0.
Definition VEOL : Z := 1.
Definition VERASE : Z := 2.
Definition NCCS : Z := 11.
Definition ECHO : Z := 1.
Definition ECHOE : Z := 2.
Definition TCGETS : Z := 4294967295.
Definition TTY_MAJOR : Z := 4.
Definition CONSOLE_IOCTL_SWITCH : Z := 0.
Definition CONSOLE_IOCTL_CLEAR : Z := 1.

Record termios : Type := Termios {
  c_iflag : Z;
  c_oflag : Z;
  c_cflag : Z;
  c_lflag : Z;
  c_cc : list Z;
}.

Record tty_buffer : Type := TtyBuffer {
  bpos : Z;
  bread : Z;
  bdata : list Z;
}.

Record tty : Type := Tty {
  tflags : Z;
  topen : Z;
  tindex : Z;
  driver : Z;
  buffer : Z;
  twait : list Z;
  flushed : list Z;
  tios : termios;
  tty_private : Z;
}.

Record tty_driver : Type := TtyDrv {
  dmajor : Z;
  minor_start : Z;
  dnum : Z;
  dname : list Z;
  dttys : list Z;
  dop : Z;
}.

Record tty_data (D : Type) : Type := TtyData {
  tty_table : list tty;
  drivers : gmap Z tty_driver;
  tty_drivers : list Z;
  tty_buffers : list Z;
  buffers : gmap Z tty_buffer;
  dev : D;
}.

Arguments TtyData {D}.
Arguments tty_table {D}.
Arguments drivers {D}.
Arguments tty_drivers {D}.
Arguments tty_buffers {D}.
Arguments buffers {D}.
Arguments dev {D}.

Record tty_operations (S : Type) : Type := TtyOps {
  t_open : option (Z -> Z -> ST S Z);
  t_close : option (Z -> Z -> ST S Z);
  t_write : option (Z -> list Z -> ST S Z);
  t_ioctl : option (Z -> Z -> Z -> ST S Z);
}.

Arguments TtyOps {S}.
Arguments t_open {S}.
Arguments t_close {S}.
Arguments t_write {S}.
Arguments t_ioctl {S}.

(** The tables of driver operations, by address, and [kmalloc] of a buffer. *)
Class TtyEnv (D : Type) : Type := {
  tops_at : Z -> option (tty_operations (kst (vfs (tty_data D))));
  buffer_cache : gmap Z tty_buffer -> option (Z * tty_buffer);
}.

Definition tty_fops_p : Z := 20.

Definition t_set_flags (t : tty) (f : Z) : tty :=
  Tty f t.(topen) t.(tindex) t.(driver) t.(buffer) t.(twait) t.(flushed) t.(tios) t.(tty_private).
Definition t_set_open (t : tty) (n : Z) : tty :=
  Tty t.(tflags) n t.(tindex) t.(driver) t.(buffer) t.(twait) t.(flushed) t.(tios) t.(tty_private).
Definition t_set_driver (t : tty) (d : Z) : tty :=
  Tty t.(tflags) t.(topen) t.(tindex) d t.(buffer) t.(twait) t.(flushed) t.(tios) t.(tty_private).
Definition t_set_buffer (t : tty) (b : Z) : tty :=
  Tty t.(tflags) t.(topen) t.(tindex) t.(driver) b t.(twait) t.(flushed) t.(tios) t.(tty_private).
Definition t_set_wait (t : tty) (q : list Z) : tty :=
  Tty t.(tflags) t.(topen) t.(tindex) t.(driver) t.(buffer) q t.(flushed) t.(tios) t.(tty_private).
Definition t_set_flushed (t : tty) (l : list Z) : tty :=
  Tty t.(tflags) t.(topen) t.(tindex) t.(driver) t.(buffer) t.(twait) l t.(tios) t.(tty_private).
Definition t_set_tios (t : tty) (x : termios) : tty :=
  Tty t.(tflags) t.(topen) t.(tindex) t.(driver) t.(buffer) t.(twait) t.(flushed) x t.(tty_private).
Definition t_set_private (t : tty) (x : Z) : tty :=
  Tty t.(tflags) t.(topen) t.(tindex) t.(driver) t.(buffer) t.(twait) t.(flushed) t.(tios) x.

Definition init_tty (t : tty) : tty := Tty 1 0 t.(tindex) 0 0 [] [] t.(tios) t.(tty_private).

Definition default_termios : termios :=
  Termios 0 0 0 (Z.lor ECHO ECHOE) [4; 10; 8; 0; 0; 0; 0; 0; 0; 0; 0].

Fixpoint free_entry (l : list tty) (i : Z) : option Z :=
  match l with
  | [] => None
  | t :: l => if t.(tflags) =? 0 then Some i else free_entry l (i + 1)
  end.

Section tty.

Context {D : Type} `{E : VfsEnv (tty_data D)} `{TE : TtyEnv D}.

Abbreviation M := (ST (kst (vfs (tty_data D)))).

Definition tdata : M (tty_data D) := v ← vfs_of; mret v.(fdata).

Definition tdata_set (f : tty_data D -> tty_data D) : M unit := vfs_set (fun v => set_fdata v (f v.(fdata))).

Definition td_set_ttys (d : tty_data D) (l : list tty) : tty_data D :=
  TtyData l d.(drivers) d.(tty_drivers) d.(tty_buffers) d.(buffers) d.(dev).
Definition td_set_drivers (d : tty_data D) (m : gmap Z tty_driver) (l : list Z) : tty_data D :=
  TtyData d.(tty_table) m l d.(tty_buffers) d.(buffers) d.(dev).
Definition td_set_buffers (d : tty_data D) (l : list Z) (m : gmap Z tty_buffer) : tty_data D :=
  TtyData d.(tty_table) d.(drivers) d.(tty_drivers) l m d.(dev).
Definition td_set_dev (d : tty_data D) (x : D) : tty_data D :=
  TtyData d.(tty_table) d.(drivers) d.(tty_drivers) d.(tty_buffers) d.(buffers) x.

Definition tload (a : Z) : M tty :=
  d ← tdata;
  st_res (aload d.(tty_table) (a - 1)).

Definition tupd (a : Z) (f : tty -> tty) : M unit :=
  d ← tdata;
  t ← st_res (aload d.(tty_table) (a - 1));
  l ← st_res (astore d.(tty_table) (a - 1) (f t));
  tdata_set (fun d => td_set_ttys d l).

Definition drv (a : Z) : M tty_driver := fun s =>
  match s.(env).(fdata).(drivers) !! a with
  | Some d => Ok (d, s)
  | None => Fault
  end.

(** [tty->driver->op] *)
Definition drv_ops (a : Z) : M (tty_operations (kst (vfs (tty_data D)))) :=
  t ← tload a;
  d ← drv t.(driver);
  match tops_at d.(dop) with
  | Some op => mret op
  | None => fault
  end.

Definition buf_load (a : Z) : M tty_buffer := fun s =>
  match s.(env).(fdata).(buffers) !! a with
  | Some b => Ok (b, s)
  | None => Fault
  end.

Definition buf_upd (a : Z) (f : tty_buffer -> tty_buffer) : M unit :=
  b ← buf_load a;
  tdata_set (fun d => td_set_buffers d d.(tty_buffers) (<[a := f b]> d.(buffers))).

Definition alloc_tty : M Z :=
  d ← tdata;
  match free_entry d.(tty_table) 1 with
  | Some a => tupd a init_tty ;; mret a
  | None => mret 0
  end.

Definition free_tty (a : Z) : M unit := tupd a (fun t => t_set_flags t 0).

Definition buf_reset (b : tty_buffer) : tty_buffer := TtyBuffer 0 0 b.(bdata).

Definition alloc_tty_buffer : M Z :=
  d ← tdata;
  match d.(tty_buffers) with
  | b :: l =>
      tdata_set (fun d => td_set_buffers d l d.(buffers)) ;;
      buf_upd b buf_reset ;;
      mret b
  | [] =>
      match buffer_cache d.(buffers) with
      | Some (b, junk) =>
          tdata_set (fun d => td_set_buffers d d.(tty_buffers) (<[b := buf_reset junk]> d.(buffers))) ;;
          mret b
      | None => mret 0
      end
  end.

Definition free_tty_buffer (b : Z) : M unit :=
  tdata_set (fun d => td_set_buffers d (b :: d.(tty_buffers)) d.(buffers)).

Fixpoint find_driver (m : gmap Z tty_driver) (l : list Z) (maj : Z) : res Z :=
  match l with
  | [] => Ok 0
  | a :: l =>
      match m !! a with
      | Some d => if d.(dmajor) =? maj then Ok a else find_driver m l maj
      | None => Fault
      end
  end.

Definition get_tty_driver (device : Z) : M Z :=
  d ← tdata;
  st_res (find_driver d.(drivers) d.(tty_drivers) (major device)).

Definition tty_driver_lookup_tty (a index : Z) : M Z :=
  d ← drv a;
  st_res (aload d.(dttys) index).

Definition file_tty (f : Z) : M Z := x ← fload f; mret x.(f_private).

Definition tty_init_file (a f : Z) : M unit :=
  fupd f (fun x => File x.(f_inode) x.(f_mode) x.(f_rdev) x.(f_pos) x.(f_flags) x.(f_count) a x.(f_op)).

(** The number of bytes and the bytes. *)
Definition tty_buffer_copy (b len : Z) : M (Z * list Z) :=
  x ← buf_load b;
  let bytes := Z.min len (x.(bpos) -% x.(bread)) in
  if x.(bread) + bytes <=? Z.of_nat (length x.(bdata)) then
    buf_upd b (fun x => TtyBuffer x.(bpos) (x.(bread) +% bytes) x.(bdata)) ;;
    mret (bytes, take (Z.to_nat bytes) (drop (Z.to_nat x.(bread)) x.(bdata)))
  else fault.

Definition tty_buffer_empty (b : Z) : M bool := x ← buf_load b; mret (x.(bread) =? x.(bpos)).

(** The first buffer of the list leaves it. *)
Definition drop_flushed (a b : Z) : M unit :=
  tupd a (fun t => t_set_flushed t (List.tl t.(flushed))) ;; free_tty_buffer b.

Definition tty_read (f len : Z) : M (option (Z * list Z)) :=
  a ← file_tty f;
  t ← tload a;
  match t.(flushed) with
  | [] =>
      q ← wait_begin t.(twait);
      tupd a (fun t => t_set_wait t q) ;;
      mret None
  | b :: _ =>
      e ← tty_buffer_empty b;
      if e : bool then drop_flushed a b ;; mret (Some (0, []))
      else
        r ← tty_buffer_copy b len;
        e ← tty_buffer_empty b;
        (if e : bool then drop_flushed a b else mret tt) ;;
        mret (Some (s32 r.1, r.2))
  end.

Definition tty_read_resume (f len : Z) : M (option (Z * list Z)) :=
  a ← file_tty f;
  t ← tload a;
  r ← wait_end t.(twait);
  tupd a (fun t => t_set_wait t r.2) ;;
  if negb (r.1 =? 0) then mret (Some (- EINTR, [])) else tty_read f len.

Definition tty_write (f : Z) (buf : list Z) : M Z :=
  a ← file_tty f;
  op ← drv_ops a;
  match op.(t_write) with
  | None => mret (- EIO)
  | Some w => w a buf
  end.

(** [driver->ttys[index] = tty] *)
Definition set_dtty (d index a : Z) : M unit :=
  x ← drv d;
  l ← st_res (astore x.(dttys) index a);
  tdata_set (fun t =>
    td_set_drivers t (<[d := TtyDrv x.(dmajor) x.(minor_start) x.(dnum) x.(dname) l x.(dop)]> t.(drivers)) t.(tty_drivers)).

Definition tty_open_tty (d index : Z) : M Z :=
  a ← tty_driver_lookup_tty d index;
  if negb (a =? 0) then mret a
  else
    a ← alloc_tty;
    if a =? 0 then mret 0 else tupd a (fun t => t_set_driver t d) ;; mret a.

Definition tty_open (inode file : Z) : M Z :=
  i ← iload inode;
  d ← get_tty_driver i.(i_rdev);
  if d =? 0 then mret (- ENXIO)
  else
    x ← drv d;
    let index := minor i.(i_rdev) -% x.(minor_start) in
    if x.(dnum) <=? index then mret (- ENXIO)
    else
      a ← tty_open_tty d index;
      if a =? 0 then mret (- ENOMEM)
      else
        tty_init_file a file ;;
        op ← drv_ops a;
        rc ← (match op.(t_open) with Some o => o a file | None => mret 0 end);
        if negb (rc =? 0) then mret rc
        else
          t ← tload a;
          set_dtty t.(driver) index a ;;
          (if t.(topen) =? 0 then tupd a (fun t => t_set_tios t default_termios) else mret tt) ;;
          tupd a (fun t => t_set_open t (t.(topen) +% 1)) ;;
          mret 0.

Definition tty_release (inode file : Z) : M Z :=
  i ← iload inode;
  d ← get_tty_driver i.(i_rdev);
  if d =? 0 then mret (- ENXIO)
  else
    a ← tty_driver_lookup_tty d (minor i.(i_rdev));
    if a =? 0 then mret (- ENXIO)
    else
      op ← drv_ops a;
      rc ← (match op.(t_close) with Some o => o a file | None => mret 0 end);
      if negb (rc =? 0) then mret rc
      else
        tupd a (fun t => t_set_open t (t.(topen) -% 1)) ;;
        t ← tload a;
        (if t.(topen) =? 0 then free_tty a else mret tt) ;;
        mret 0.

(** The attributes that are stored at the user's address. *)
Definition tty_getattr (a p : Z) : M (Z * option termios) :=
  bad ← bad_user p 60 VM_WRITE;
  if bad : bool then mret (- EFAULT, None)
  else t ← tload a; mret (0, Some t.(tios)).

Definition tty_ioctl (file command arg : Z) : M (Z * option termios) :=
  a ← file_tty file;
  if command =? TCGETS then tty_getattr a arg
  else
    op ← drv_ops a;
    match op.(t_ioctl) with
    | Some i => r ← i a command arg; mret (r, None)
    | None => mret (- EINVAL, None)
    end.

Definition tty_register_driver (d : Z) : M unit :=
  x ← drv d;
  _ ← register_chrdev x.(dmajor) x.(dname) tty_fops_p;
  tdata_set (fun t => td_set_drivers t t.(drivers) (t.(tty_drivers) ++ [d])).

Definition tty_buffer_flush (a : Z) : M unit :=
  t ← tload a;
  (if t.(buffer) =? 0 then fault else mret tt) ;;
  tupd a (fun t => t_set_flushed t (t.(flushed) ++ [t.(buffer)])) ;;
  wake_first t.(twait) 0 ;;
  b ← alloc_tty_buffer;
  tupd a (fun t => t_set_buffer t b).

(** A driver without [write] is called through a null pointer. *)
Definition echo (a c : Z) : M unit :=
  op ← drv_ops a;
  match op.(t_write) with
  | Some w => w a [c] ;; mret tt
  | None => fault
  end.

Definition _tty_insert_char (a c : Z) : M unit :=
  t ← tload a;
  b ← buf_load t.(buffer);
  l ← st_res (astore b.(bdata) b.(bpos) c);
  buf_upd t.(buffer) (fun b => TtyBuffer (b.(bpos) +% 1) b.(bread) l) ;;
  if Z.land t.(tios).(c_lflag) ECHO =? 0 then mret tt else echo a c.

(** [c_cc[i]] *)
Definition cc (t : tty) (i : Z) : Z := default 0 (t.(tios).(c_cc) !! Z.to_nat i).

Definition erase_char (a : Z) : M unit :=
  t ← tload a;
  b ← buf_load t.(buffer);
  (if 0 <? b.(bpos) then buf_upd t.(buffer) (fun b => TtyBuffer (b.(bpos) -% 1) b.(bread) b.(bdata)) else mret tt) ;;
  if Z.land t.(tios).(c_lflag) ECHOE =? 0 then mret tt else echo a 8.

(** What follows the branches: a full buffer is flushed. *)
Definition flush_full (a : Z) : M Z :=
  t ← tload a;
  b ← buf_load t.(buffer);
  if b.(bpos) <? TTY_BUFFER_SIZE then mret 0 else tty_buffer_flush a ;; mret 0.

Definition tty_insert_char (a c : Z) : M Z :=
  t ← tload a;
  b ← (if t.(buffer) =? 0
       then b ← alloc_tty_buffer; tupd a (fun t => t_set_buffer t b) ;; mret b
       else mret t.(buffer));
  if b =? 0 then mret (- ENOMEM)
  else if c =? cc t VERASE then erase_char a ;; flush_full a
  else if c =? cc t VEOL then _tty_insert_char a c ;; tty_buffer_flush a ;; mret 0
  else if c =? cc t VEOF then tty_buffer_flush a ;; mret 0
  else _tty_insert_char a c ;; flush_full a.

End tty.

(** ** The console driver *)

(** The screen and the state of the keyboard. *)
Record pc : Type := Pc {
  scr : screen;
  kbd : Z;
}.

Definition pc_console_driver_p : Z := 1.
Definition console_tty_ops_p : Z := 1.
Definition PIC1_CMD : Z := 32.
Definition PIC2_CMD : Z := 160.
Definition PIC_EOI : Z := 32.

Section console.

Context `{E : VfsEnv (tty_data pc)}.

Abbreviation M := (ST (kst (vfs (tty_data pc)))).

Definition on_screen {A : Type} (m : ST screen A) : M A := fun s =>
  let d := s.(env).(fdata) in
  match m d.(dev).(scr) with
  | Ok (a, x) => Ok (a, set_env s (set_fdata s.(env) (td_set_dev d (Pc x d.(dev).(kbd)))))
  | Panic => Panic
  | Fault => Fault
  end.

(** [&constab[i]] as a value of [tty_private]. *)
Definition console_at (i : Z) : Z := i + 1.

Definition console_open (a file : Z) : M Z :=
  t ← tload a;
  if negb (t.(topen) =? 0) then mret 0
  else
    on_screen (set_offset t.(tindex) 0) ;;
    tupd a (fun t => t_set_private t (console_at t.(tindex))) ;;
    on_screen (console_clear t.(tindex)) ;;
    mret 0.

Definition console_close (a file : Z) : M Z :=
  t ← tload a;
  if negb (t.(topen) =? 0) then mret 0
  else on_screen (console_clear t.(tindex)) ;; mret 0.

Definition console_write (a : Z) (buf : list Z) : M Z :=
  t ← tload a;
  on_screen (console_puts t.(tindex) buf) ;;
  mret (s32 (Z.of_nat (length buf))).

Definition console_ioctl (a command arg : Z) : M Z :=
  t ← tload a;
  if command =? CONSOLE_IOCTL_SWITCH then on_screen (console_switch t.(tindex)) ;; mret 0
  else if command =? CONSOLE_IOCTL_CLEAR then on_screen (console_clear t.(tindex)) ;; mret 0
  else mret (- EINVAL).

Definition console_tty_ops : tty_operations (kst (vfs (tty_data pc))) :=
  TtyOps (Some console_open) (Some console_close) (Some console_write) (Some console_ioctl).

(** Its terminals are [console_tty_table], empty at first. *)
Definition pc_console_driver : tty_driver :=
  TtyDrv TTY_MAJOR 0 NR_CONSOLES [99; 111; 110; 115; 111; 108; 101] (replicate (Z.to_nat NR_CONSOLES) 0) console_tty_ops_p.

End console.

#[export] Instance pc_tty_env : TtyEnv pc := {
  tops_at p := if p =? console_tty_ops_p then Some console_tty_ops else None;
  buffer_cache m := Some (above m, TtyBuffer 0 0 (replicate (Z.to_nat TTY_BUFFER_SIZE) 0));
}.

Section keyboard.

Abbreviation M := (ST (kst (vfs (tty_data pc)))).

Definition pic_eoi : M unit := on_screen (outb PIC1_CMD PIC_EOI ;; outb PIC2_CMD PIC_EOI).

(** The interrupt of the keyboard; [s] is the scan code read from its port. *)
Definition int_keyboard (s : Z) : M unit :=
  d ← tdata;
  drvr ← drv pc_console_driver_p;
  a ← st_res (aload drvr.(dttys) d.(dev).(scr).(visible));
  let '(c, state) := kbtoa d.(dev).(kbd) s in
  tdata_set (fun d => td_set_dev d (Pc d.(dev).(scr) state)) ;;
  (if (59 <=? s) && (s <? 59 + NR_CONSOLES) then on_screen (console_switch (s - 59)) ;; mret tt
   else if negb (a =? 0) && negb (c =? NOCHAR) then tty_insert_char a (u8 c) ;; mret tt
   else mret tt) ;;
  pic_eoi.

End keyboard.

(** ** Lines *)

(** What the terminals need of a driver. *)
Class TtyDriver (D : Type) `{TE : TtyEnv D} : Type := {
  dev_ok : D -> Prop;
  tty_writes (op : Z) (t : tty) : Prop;
  write_device (s : kst (vfs (tty_data D))) (o : tty_operations (kst (vfs (tty_data D)))) (op a : Z) (t : tty) (c : Z) :
    tops_at op = Some o -> tty_writes op t -> 0 < a ->
    s.(env).(fdata).(tty_table) !! Z.to_nat (a - 1) = Some t -> dev_ok s.(env).(fdata).(dev) ->
    exists w r x, o.(t_write) = Some w /\ dev_ok x /\
      w a [c] s = Ok (r, set_env s (set_fdata s.(env) (td_set_dev s.(env).(fdata) x)));
  tty_writes_lines (op : Z) (t : tty) (b : Z) (f : list Z) :
    tty_writes op t -> tty_writes op (t_set_flushed (t_set_buffer t b) f);
  buffer_fresh (m : gmap Z tty_buffer) :
    exists b x, buffer_cache m = Some (b, x) /\ 0 < b /\ m !! b = None /\ length x.(bdata) = 16%nat;
}.

(** The ideal line discipline: the line that is typed, and the finished lines. *)
Record line : Type := Line {
  pend : list Z;
  queue : list (list Z);
}.

Definition line_type (t : tty) (c : Z) (l : line) : line :=
  if c =? cc t VERASE then Line (removelast l.(pend)) l.(queue)
  else if c =? cc t VEOL then Line [] (l.(queue) ++ [l.(pend) ++ [c]])
  else if c =? cc t VEOF then Line [] (l.(queue) ++ [l.(pend)])
  else
    let p := l.(pend) ++ [c] in
    if Z.of_nat (length p) <? TTY_BUFFER_SIZE then Line p l.(queue) else Line [] (l.(queue) ++ [p]).

(** The bytes a read returns; [None] when it sleeps. *)
Definition line_read (n : Z) (l : line) : option (list Z * line) :=
  match l.(queue) with
  | [] => None
  | h :: q =>
      let r := drop (Z.to_nat n) h in
      Some (take (Z.to_nat n) h, Line l.(pend) (match r with [] => q | _ => r :: q end))
  end.

Definition holds (x : tty_buffer) (ln : list Z) : Prop :=
  0 <= x.(bread) /\ x.(bpos) = x.(bread) + Z.of_nat (length ln) /\ x.(bpos) <= TTY_BUFFER_SIZE /\
  ln = take (length ln) (drop (Z.to_nat x.(bread)) x.(bdata)).

Definition holds_at (m : gmap Z tty_buffer) (b : Z) (ln : list Z) : Prop :=
  exists x, m !! b = Some x /\ holds x ln.

(** Buffers in use and free ones are different and in memory. *)
Definition bufs_ok (m : gmap Z tty_buffer) (l : list Z) : Prop :=
  NoDup l /\ forall b, b ∈ l -> 0 < b /\ exists x, m !! b = Some x /\ length x.(bdata) = 16%nat.

(** The buffer being filled. *)
Definition filling (m : gmap Z tty_buffer) (b : Z) (ln : list Z) : Prop :=
  exists x, m !! b = Some x /\ holds x ln /\ x.(bread) = 0.

Lemma bufs_ok_insert (m : gmap Z tty_buffer) (l : list Z) (b : Z) (x : tty_buffer) :
  bufs_ok m l -> length x.(bdata) = 16%nat -> bufs_ok (<[b := x]> m) l.
Proof.
  intros [Hnd H] Hx. split; [exact Hnd|]. intros c Hc. destruct (H c Hc) as (H0 & y & Hy & Hly). split; [exact H0|].
  destruct (decide (b = c)) as [-> | Hne]; [exists x; rewrite lookup_insert_eq | exists y; rewrite lookup_insert_ne by exact Hne]; auto.
Qed.

Lemma holds_at_insert (m : gmap Z tty_buffer) (b : Z) (x : tty_buffer) (f : list Z) (q : list (list Z)) :
  b ∉ f -> Forall2 (holds_at m) f q -> Forall2 (holds_at (<[b := x]> m)) f q.
Proof.
  intros Hb H. induction H as [| c ln f q (y & Hy & Hh) _ IH]; [constructor|]. apply not_elem_of_cons in Hb as [Hne Hb].
  constructor; [|auto]. exists y. rewrite lookup_insert_ne by congruence. auto.
Qed.

Section lines.

Context {D : Type} `{TE : TtyEnv D} `{TD : !TtyDriver D}.

Abbreviation K := (kst (vfs (tty_data D))).

Context (s : K) (a : Z) (t0 : tty) (dr : tty_driver) (op : tty_operations K).
Context (Ha : 0 < a) (Ht : s.(env).(fdata).(tty_table) !! Z.to_nat (a - 1) = Some t0).
Context (Hdr : s.(env).(fdata).(drivers) !! t0.(driver) = Some dr) (Hop : tops_at dr.(dop) = Some op).
Context (Hw : tty_writes dr.(dop) t0) (Hwait : t0.(twait) = []).

Definition tt (b : Z) (f : list Z) : tty := t_set_flushed (t_set_buffer t0 b) f.

(** The states of the computation. *)
Definition U (b : Z) (f fr : list Z) (m : gmap Z tty_buffer) (x : D) : K :=
  let d := s.(env).(fdata) in
  set_env s (set_fdata s.(env)
    (TtyData (<[Z.to_nat (a - 1) := tt b f]> d.(tty_table)) d.(drivers) d.(tty_drivers) fr m x)).

Lemma U_entry (b : Z) (f fr : list Z) (m : gmap Z tty_buffer) (x : D) :
  (U b f fr m x).(env).(fdata).(tty_table) !! Z.to_nat (a - 1) = Some (tt b f).
Proof. simpl. apply list_lookup_insert_eq. apply lookup_lt_Some in Ht. exact Ht. Qed.

Lemma U_tload (b : Z) (f fr : list Z) (m : gmap Z tty_buffer) (x : D) :
  tload a (U b f fr m x) = Ok (tt b f, U b f fr m x).
Proof.
  unfold tload, tdata. erewrite bind_ok by reflexivity. cbv beta. unfold st_res.
  rewrite (proj2 (aload_ok _ _ (tt b f))) by (split; [lia | apply U_entry]). reflexivity.
Qed.

Lemma U_tupd (g : tty -> tty) (b b' : Z) (f f' fr : list Z) (m : gmap Z tty_buffer) (x : D) :
  g (tt b f) = tt b' f' -> tupd a g (U b f fr m x) = Ok (Datatypes.tt, U b' f' fr m x).
Proof.
  intros Hg. unfold tupd, tdata. erewrite bind_ok by reflexivity. cbv beta.
  erewrite bind_ok; [| unfold st_res; rewrite (proj2 (aload_ok _ _ (tt b f))) by (split; [lia | apply U_entry]); reflexivity].
  cbv beta. pose proof (lookup_lt_Some _ _ _ (U_entry b f fr m x)) as Hl.
  erewrite bind_ok; [| unfold st_res; rewrite astore_in by lia; reflexivity]. cbv beta.
  unfold tdata_set, vfs_set, modify. rewrite Hg. do 2 f_equal. unfold U, td_set_ttys, set_fdata, set_env. simpl.
  rewrite list_insert_insert_eq. reflexivity.
Qed.

Lemma U_bload (b c : Z) (f fr : list Z) (m : gmap Z tty_buffer) (x : D) (y : tty_buffer) :
  m !! c = Some y -> buf_load c (U b f fr m x) = Ok (y, U b f fr m x).
Proof. intros H. unfold buf_load. simpl. rewrite H. reflexivity. Qed.

Lemma U_bupd (g : tty_buffer -> tty_buffer) (b c : Z) (f fr : list Z) (m : gmap Z tty_buffer) (x : D) (y : tty_buffer) :
  m !! c = Some y -> buf_upd c g (U b f fr m x) = Ok (Datatypes.tt, U b f fr (<[c := g y]> m) x).
Proof. intros H. unfold buf_upd. erewrite bind_ok; [| apply (U_bload _ _ _ _ _ _ _ H)]. reflexivity. Qed.

(** A new buffer is none of those in use. *)
Lemma U_alloc (b : Z) (f fr l : list Z) (m : gmap Z tty_buffer) (x : D) (q : list (list Z)) (bs : list Z) :
  bufs_ok m (l ++ fr) -> Forall2 (holds_at m) bs q -> (forall c, c ∈ bs -> c ∈ l) ->
  exists nb fr' m', alloc_tty_buffer (U b f fr m x) = Ok (nb, U b f fr' m' x) /\ 0 < nb /\
    bufs_ok m' (nb :: l ++ fr') /\ Forall2 (holds_at m') bs q /\ filling m' nb [].
Proof.
  intros Hok Hq Hbs. pose proof Hok as [Hnd Hin]. unfold alloc_tty_buffer, tdata. erewrite bind_ok by reflexivity. cbv beta.
  assert (forall y, length y.(bdata) = 16%nat -> holds (buf_reset y) []) as Hh
    by (intros y Hy; split; [simpl; lia|]; split; [reflexivity|]; split; [simpl; unfold TTY_BUFFER_SIZE; lia | reflexivity]).
  destruct fr as [| nb fr']; simpl.
  - destruct (buffer_fresh m) as (nb & y & E & H0 & Hf & Hy). rewrite E. simpl.
    exists nb, [], (<[nb := buf_reset y]> m). split; [reflexivity|]. split; [exact H0|].
    assert (nb ∉ l ++ []) as Hn by (intros Hc; destruct (Hin nb Hc) as (_ & z & Hz & _); congruence).
    split; [|split; [apply holds_at_insert; [rewrite app_nil_r in Hn; auto | exact Hq]|]].
    + pose proof (bufs_ok_insert m (l ++ []) nb (buf_reset y) Hok Hy) as [_ Hin'].
      split; [constructor; assumption|]. intros c [-> | Hc]%elem_of_cons; [|auto].
      split; [exact H0|]. eexists. rewrite lookup_insert_eq. auto.
    + eexists. rewrite lookup_insert_eq. split; [reflexivity|]. split; [apply Hh, Hy | reflexivity].
  - destruct (Hin nb) as (H0 & y & Hy & Hly); [apply elem_of_app; right; left|].
    exists nb, fr', (<[nb := buf_reset y]> m). split; [|split; [exact H0|]].
    + erewrite bind_ok by reflexivity. erewrite bind_ok; [reflexivity|]. apply (U_bupd buf_reset _ _ _ fr' _ _ y Hy).
    + assert (nb :: l ++ fr' ≡ₚ l ++ nb :: fr') as Hp by apply Permutation_middle.
      rewrite <- Hp in Hnd. split; [|split].
      * split; [exact Hnd|]. intros c Hc. rewrite Hp in Hc. apply (bufs_ok_insert m _ nb (buf_reset y) Hok Hly); exact Hc.
      * apply holds_at_insert; [|exact Hq]. apply NoDup_cons in Hnd as [Hn _]. intros Hc. apply Hn, elem_of_app. auto.
      * eexists. rewrite lookup_insert_eq. split; [reflexivity|]. split; [apply Hh, Hly | reflexivity].
Qed.

Lemma U_echo (c b : Z) (f fr : list Z) (m : gmap Z tty_buffer) (x : D) :
  dev_ok x -> exists x', echo a c (U b f fr m x) = Ok (Datatypes.tt, U b f fr m x') /\ dev_ok x'.
Proof.
  intros Hx. unfold echo, drv_ops.
  destruct (write_device (U b f fr m x) op dr.(dop) a (tt b f) c Hop) as (w & r & x' & E & Hx' & Ew);
    [apply tty_writes_lines, Hw | exact Ha | apply U_entry | exact Hx |].
  exists x'. split; [|exact Hx'].
  erewrite bind_ok.
  2: { erewrite bind_ok; [| apply U_tload]. cbv beta.
       erewrite bind_ok; [| unfold drv; simpl; rewrite Hdr; reflexivity]. rewrite Hop. reflexivity. }
  cbv beta. rewrite E. erewrite bind_ok; [reflexivity | exact Ew].
Qed.

Lemma U_flush (b : Z) (f fr : list Z) (m : gmap Z tty_buffer) (x : D) (ln : list Z) (q : list (list Z)) :
  b <> 0 -> bufs_ok m (b :: f ++ fr) -> Forall2 (holds_at m) f q -> filling m b ln ->
  exists nb fr' m', tty_buffer_flush a (U b f fr m x) = Ok (Datatypes.tt, U nb (f ++ [b]) fr' m' x) /\ 0 < nb /\
    bufs_ok m' (nb :: (f ++ [b]) ++ fr') /\ Forall2 (holds_at m') (f ++ [b]) (q ++ [ln]) /\ filling m' nb [].
Proof.
  intros Hb Hok Hq (y & Hy & Hh & _).
  assert (Forall2 (holds_at m) (f ++ [b]) (q ++ [ln])) as Hq' by (apply Forall2_app; [exact Hq | repeat constructor; exists y; auto]).
  assert (b :: f ++ fr ≡ₚ (f ++ [b]) ++ fr) as Hp by (rewrite <- app_assoc; apply Permutation_middle).
  assert (bufs_ok m ((f ++ [b]) ++ fr)) as Hok'.
  { destruct Hok as [Hnd Hin]. split; [rewrite <- Hp; exact Hnd|]. intros c Hc. apply Hin. rewrite Hp. exact Hc. }
  destruct (U_alloc b (f ++ [b]) fr (f ++ [b]) m x _ _ Hok' Hq' (fun c H => H)) as (nb & fr' & m' & E & H0 & H1 & H2 & H3).
  exists nb, fr', m'. split; [|auto]. unfold tty_buffer_flush. erewrite bind_ok; [| apply U_tload]. cbv beta.
  change (buffer (tt b f)) with b. rewrite (proj2 (Z.eqb_neq b 0) Hb). erewrite bind_ok by reflexivity.
  erewrite bind_ok; [| apply (U_tupd _ b b f (f ++ [b])); reflexivity].
  change (twait (tt b f)) with (twait t0). rewrite Hwait. erewrite bind_ok by reflexivity.
  erewrite bind_ok; [| exact E]. cbv beta. apply U_tupd. reflexivity.
Qed.

Definition line_inv (b : Z) (f fr : list Z) (m : gmap Z tty_buffer) (x : D) (l : line) : Prop :=
  dev_ok x /\ Forall2 (holds_at m) f l.(queue) /\ Z.of_nat (length l.(pend)) < TTY_BUFFER_SIZE /\
  ((b = 0 /\ bufs_ok m (f ++ fr) /\ l.(pend) = []) \/
   (b <> 0 /\ bufs_ok m (b :: f ++ fr) /\ filling m b l.(pend))).

Lemma U_put (c b : Z) (f fr : list Z) (m : gmap Z tty_buffer) (x : D) (ln : list Z) (q : list (list Z)) :
  dev_ok x -> bufs_ok m (b :: f ++ fr) -> Forall2 (holds_at m) f q -> filling m b ln ->
  Z.of_nat (length ln) < TTY_BUFFER_SIZE ->
  exists m' x', _tty_insert_char a c (U b f fr m x) = Ok (Datatypes.tt, U b f fr m' x') /\
    dev_ok x' /\ bufs_ok m' (b :: f ++ fr) /\ Forall2 (holds_at m') f q /\ filling m' b (ln ++ [c]).
Proof.
  intros Hx Hok Hq (y & Hy & (Hr & Hp & Hps & Hln) & Hr0) Hl. unfold TTY_BUFFER_SIZE in *.
  pose proof Hok as [Hnd Hin]. destruct (Hin b) as (_ & y' & Hy' & Hly); [left|]. replace y' with y in * by congruence.
  set (y1 := TtyBuffer (y.(bpos) +% 1) y.(bread) (<[Z.to_nat y.(bpos) := c]> y.(bdata))).
  set (m' := <[b := y1]> m).
  assert (exists x', (if Z.land t0.(tios).(c_lflag) ECHO =? 0 then mret Datatypes.tt else echo a c) (U b f fr m' x)
                     = Ok (Datatypes.tt, U b f fr m' x') /\ dev_ok x') as (x' & Ee & Hx')
    by (destruct (_ =? 0); [exists x; auto | apply U_echo, Hx]).
  exists m', x'. split; [|split; [exact Hx'|split; [|split]]].
  - unfold _tty_insert_char. erewrite bind_ok; [| apply U_tload]. cbv beta. change (buffer (tt b f)) with b.
    erewrite bind_ok; [| apply (U_bload _ _ _ _ _ _ _ Hy)]. cbv beta.
    erewrite bind_ok; [| unfold st_res; rewrite astore_in by lia; reflexivity]. cbv beta.
    erewrite bind_ok; [| apply (U_bupd _ _ _ _ _ _ _ _ Hy)]. exact Ee.
  - apply bufs_ok_insert; [exact Hok | unfold y1; simpl; rewrite length_insert; exact Hly].
  - apply holds_at_insert; [|exact Hq]. apply NoDup_cons in Hnd as [Hn _]. intros Hc. apply Hn, elem_of_app. auto.
  - exists y1. unfold m'. rewrite lookup_insert_eq. split; [reflexivity|]. split; [|exact Hr0].
    unfold holds, y1. cbn [bread bpos bdata]. rewrite length_app. cbn [length].
    split; [exact Hr|]. split; [word_lia|]. split; [unfold TTY_BUFFER_SIZE; word_lia|].
    rewrite Hr0 in *. change (Z.to_nat 0) with 0%nat in *. rewrite drop_0 in *.
    replace (length ln + 1)%nat with (S (length ln)) by lia. replace (Z.to_nat y.(bpos)) with (length ln) by lia.
    rewrite (take_S_r _ _ c) by (apply list_lookup_insert_eq; lia). rewrite take_insert_ge by lia. congruence.
Qed.

Lemma U_erase (b : Z) (f fr : list Z) (m : gmap Z tty_buffer) (x : D) (ln : list Z) (q : list (list Z)) :
  dev_ok x -> bufs_ok m (b :: f ++ fr) -> Forall2 (holds_at m) f q -> filling m b ln ->
  exists m' x', erase_char a (U b f fr m x) = Ok (Datatypes.tt, U b f fr m' x') /\
    dev_ok x' /\ bufs_ok m' (b :: f ++ fr) /\ Forall2 (holds_at m') f q /\ filling m' b (removelast ln).
Proof.
  intros Hx Hok Hq (y & Hy & (Hr & Hp & Hps & Hln) & Hr0). unfold TTY_BUFFER_SIZE in *.
  pose proof Hok as [Hnd Hin]. destruct (Hin b) as (_ & y' & Hy' & Hly); [left|]. replace y' with y in * by congruence.
  assert (exists m', (if 0 <? y.(bpos) then buf_upd b (fun b => TtyBuffer (b.(bpos) -% 1) b.(bread) b.(bdata)) else mret Datatypes.tt)
                       (U b f fr m x) = Ok (Datatypes.tt, U b f fr m' x) /\
            bufs_ok m' (b :: f ++ fr) /\ Forall2 (holds_at m') f q /\ filling m' b (removelast ln)) as (m' & E & H).
  { destruct (Z.ltb_spec 0 y.(bpos)) as [Hpos | Hpos].
    - eexists. split; [apply (U_bupd _ _ _ _ _ _ _ _ Hy)|]. split; [apply bufs_ok_insert; [exact Hok | exact Hly]|].
      split; [apply holds_at_insert; [|exact Hq]; apply NoDup_cons in Hnd as [Hn _]; intros Hc; apply Hn, elem_of_app; auto|].
      eexists. rewrite lookup_insert_eq. split; [reflexivity|]. split; [|exact Hr0].
      assert (length (removelast ln) = (length ln - 1)%nat) as Hrl
        by (rewrite removelast_firstn_len, length_take; lia).
      unfold holds. cbn [bread bpos bdata]. rewrite Hrl. split; [exact Hr|].
      split; [word_lia|]. split; [unfold TTY_BUFFER_SIZE; word_lia|].
      rewrite removelast_firstn_len. rewrite Hln at 2. rewrite take_take. f_equal. lia.
    - exists m. split; [reflexivity|]. split; [exact Hok|]. split; [exact Hq|].
      assert (ln = []) as -> by (apply length_zero_iff_nil; lia). exists y.
      split; [exact Hy|]. split; [|exact Hr0]. split; [exact Hr|]. split; [exact Hp|]. split; [exact Hps | reflexivity]. }
  assert (exists x', (if Z.land t0.(tios).(c_lflag) ECHOE =? 0 then mret Datatypes.tt else echo a 8) (U b f fr m' x)
                     = Ok (Datatypes.tt, U b f fr m' x') /\ dev_ok x') as (x' & Ee & Hx')
    by (destruct (_ =? 0); [exists x; auto | apply U_echo, Hx]).
  exists m', x'. split; [|auto]. unfold erase_char. erewrite bind_ok; [| apply U_tload]. cbv beta.
  change (buffer (tt b f)) with b. erewrite bind_ok; [| apply (U_bload _ _ _ _ _ _ _ Hy)]. cbv beta.
  erewrite bind_ok; [| exact E]. exact Ee.
Qed.

Lemma U_flush_full (b : Z) (f fr : list Z) (m : gmap Z tty_buffer) (x : D) (ln : list Z) (q : list (list Z)) :
  dev_ok x -> b <> 0 -> bufs_ok m (b :: f ++ fr) -> Forall2 (holds_at m) f q -> filling m b ln ->
  exists b' f' fr' m', flush_full a (U b f fr m x) = Ok (0, U b' f' fr' m' x) /\
    line_inv b' f' fr' m' x (if Z.of_nat (length ln) <? TTY_BUFFER_SIZE then Line ln q else Line [] (q ++ [ln])).
Proof.
  intros Hx Hb Hok Hq Hf. pose proof Hf as (y & Hy & (Hr & Hp & Hps & Hln) & Hr0).
  unfold flush_full. erewrite bind_ok; [| apply U_tload]. cbv beta. change (buffer (tt b f)) with b.
  erewrite bind_ok; [| apply (U_bload _ _ _ _ _ _ _ Hy)]. cbv beta.
  replace y.(bpos) with (Z.of_nat (length ln)) by lia.
  destruct (Z.ltb_spec (Z.of_nat (length ln)) TTY_BUFFER_SIZE) as [Hl | Hl].
  - exists b, f, fr, m. split; [reflexivity|]. split; [exact Hx|]. split; [exact Hq|]. split; [exact Hl|]. right. auto.
  - destruct (U_flush b f fr m x ln q Hb Hok Hq Hf) as (nb & fr' & m' & E & H0 & H1 & H2 & H3).
    exists nb, (f ++ [b]), fr', m'. split; [erewrite bind_ok; [reflexivity | exact E]|].
    split; [exact Hx|]. split; [exact H2|]. split; [simpl; unfold TTY_BUFFER_SIZE; lia|]. right. split; [lia|]. auto.
Qed.

(** One character. *)
Lemma U_type (c b : Z) (f fr : list Z) (m : gmap Z tty_buffer) (x : D) (l : line) :
  line_inv b f fr m x l ->
  exists b' f' fr' m' x', tty_insert_char a c (U b f fr m x) = Ok (0, U b' f' fr' m' x') /\
    line_inv b' f' fr' m' x' (line_type t0 c l).
Proof.
  intros (Hx & Hq & Hl & Hb).
  assert (exists b1 fr1 m1,
    (if b =? 0 then nb ← alloc_tty_buffer; tupd a (fun t => t_set_buffer t nb) ;; mret nb else mret b)
      (U b f fr m x) = Ok (b1, U b1 f fr1 m1 x) /\
    b1 <> 0 /\ bufs_ok m1 (b1 :: f ++ fr1) /\ Forall2 (holds_at m1) f l.(queue) /\ filling m1 b1 l.(pend))
    as (b1 & fr1 & m1 & E & Hb1 & Hok1 & Hq1 & Hf1).
  { destruct Hb as [(-> & Hok & Hp) | (Hb & Hok & Hf)].
    - destruct (U_alloc 0 f fr f m x _ _ Hok Hq (fun c H => H)) as (nb & fr' & m' & E & H0 & H1 & H2 & H3).
      exists nb, fr', m'. rewrite Hp. split; [|split; [lia | auto]]. simpl. erewrite bind_ok; [| exact E]. cbv beta.
      erewrite bind_ok; [reflexivity | apply U_tupd; reflexivity].
    - exists b, fr, m. rewrite (proj2 (Z.eqb_neq b 0) Hb). auto. }
  unfold tty_insert_char, line_type. erewrite bind_ok; [| apply U_tload]. cbv beta. change (buffer (tt b f)) with b.
  erewrite bind_ok; [| exact E]. cbv beta. rewrite (proj2 (Z.eqb_neq b1 0) Hb1). change (cc (tt b f)) with (cc t0).
  destruct (c =? cc t0 VERASE).
  - destruct (U_erase b1 f fr1 m1 x _ _ Hx Hok1 Hq1 Hf1) as (m2 & x2 & E2 & Hx2 & Hok2 & Hq2 & Hf2).
    destruct (U_flush_full b1 f fr1 m2 x2 _ _ Hx2 Hb1 Hok2 Hq2 Hf2) as (b3 & f3 & fr3 & m3 & E3 & Hi).
    exists b3, f3, fr3, m3, x2. split; [erewrite bind_ok; [exact E3 | exact E2]|].
    rewrite (proj2 (Z.ltb_lt _ _)) in Hi; [exact Hi|]. rewrite removelast_firstn_len, length_take. lia.
  - destruct (c =? cc t0 VEOL); [|destruct (c =? cc t0 VEOF)].
    + destruct (U_put c b1 f fr1 m1 x _ _ Hx Hok1 Hq1 Hf1 Hl) as (m2 & x2 & E2 & Hx2 & Hok2 & Hq2 & Hf2).
      destruct (U_flush b1 f fr1 m2 x2 _ _ Hb1 Hok2 Hq2 Hf2) as (nb & fr' & m' & E3 & H0 & H1 & H2 & H3).
      exists nb, (f ++ [b1]), fr', m', x2.
      split; [erewrite bind_ok; [| exact E2]; erewrite bind_ok; [reflexivity | exact E3]|].
      split; [exact Hx2|]. split; [exact H2|]. split; [simpl; unfold TTY_BUFFER_SIZE; lia|]. right. split; [lia | auto].
    + destruct (U_flush b1 f fr1 m1 x _ _ Hb1 Hok1 Hq1 Hf1) as (nb & fr' & m' & E3 & H0 & H1 & H2 & H3).
      exists nb, (f ++ [b1]), fr', m', x. split; [erewrite bind_ok; [reflexivity | exact E3]|].
      split; [exact Hx|]. split; [exact H2|]. split; [simpl; unfold TTY_BUFFER_SIZE; lia|]. right. split; [lia | auto].
    + destruct (U_put c b1 f fr1 m1 x _ _ Hx Hok1 Hq1 Hf1 Hl) as (m2 & x2 & E2 & Hx2 & Hok2 & Hq2 & Hf2).
      destruct (U_flush_full b1 f fr1 m2 x2 _ _ Hx2 Hb1 Hok2 Hq2 Hf2) as (b3 & f3 & fr3 & m3 & E3 & Hi).
      exists b3, f3, fr3, m3, x2. split; [erewrite bind_ok; [exact E3 | exact E2] | exact Hi].
Qed.

Lemma U_drop (b c : Z) (f fr : list Z) (m : gmap Z tty_buffer) (x : D) :
  drop_flushed a c (U b (c :: f) fr m x) = Ok (Datatypes.tt, U b f (c :: fr) m x).
Proof.
  unfold drop_flushed. erewrite bind_ok; [| apply (U_tupd _ b b (c :: f) f); reflexivity]. reflexivity.
Qed.

(** Reading moves a buffer from the finished lines to the free buffers. *)
Lemma bufs_ok_perm (m : gmap Z tty_buffer) (l l' : list Z) : l ≡ₚ l' -> bufs_ok m l -> bufs_ok m l'.
Proof.
  intros Hp [Hnd Hin]. split; [rewrite <- Hp; exact Hnd|]. intros c Hc. apply Hin. rewrite Hp. exact Hc.
Qed.

Lemma line_inv_drop (b c : Z) (f fr : list Z) (m : gmap Z tty_buffer) (x : D) (p : list Z) (h : list Z) (q : list (list Z)) :
  line_inv b (c :: f) fr m x (Line p (h :: q)) -> line_inv b f (c :: fr) m x (Line p q).
Proof.
  intros (Hx & Hq & Hl & Hb). apply Forall2_cons in Hq as [_ Hq]. simpl in *.
  assert ((c :: f) ++ fr ≡ₚ f ++ c :: fr) as Hp by apply Permutation_middle.
  split; [exact Hx|]. split; [exact Hq|]. split; [exact Hl|]. destruct Hb as [(E & Hok & Hn) | (E & Hok & Hf)].
  - left. split; [exact E|]. split; [eapply bufs_ok_perm; [exact Hp | exact Hok] | exact Hn].
  - right. split; [exact E|]. split; [|exact Hf]. eapply bufs_ok_perm; [apply perm_skip, Hp | exact Hok].
Qed.

Context (fp : Z) (fl : file) (Hfile : s.(env).(files) !! fp = Some fl) (Hfa : fl.(f_private) = a).

Lemma U_read (n b : Z) (f fr : list Z) (m : gmap Z tty_buffer) (x : D) (l l' : line) (out : list Z) :
  0 <= n < 2 ^ 31 -> line_inv b f fr m x l -> line_read n l = Some (out, l') ->
  exists f' fr' m', tty_read fp n (U b f fr m x) = Ok (Some (Z.of_nat (length out), out), U b f' fr' m' x) /\
    line_inv b f' fr' m' x l'.
Proof.
  intros Hn Hi Hr. destruct l as [p q0]. destruct q0 as [| h q]; [discriminate|]. unfold line_read in Hr.
  cbn [queue pend] in Hr. injection Hr as <- <-.
  pose proof Hi as (Hx & Hq & Hl & Hb). destruct f as [| c f]; [apply Forall2_nil_inv_l in Hq; discriminate|].
  pose proof Hq as Hqq. apply Forall2_cons in Hqq as [(y & Hy & (Hr0 & Hp & Hps & Hh)) Hq'].
  assert (bufs_ok m [c] /\ c <> b /\ c ∉ f) as (Hokc & Hcb & Hcf).
  { destruct Hb as [(-> & [Hnd Hin] & _) | (Hb & [Hnd Hin] & _)].
    - destruct (Hin c) as [H0 H1]; [left|]. apply NoDup_cons in Hnd as [Hc _].
      split; [split; [apply NoDup_singleton | intros z ->%list_elem_of_singleton; auto]|]. split; [lia|].
      intros H. apply Hc, elem_of_app. auto.
    - destruct (Hin c) as [H0 H1]; [right; left|]. apply NoDup_cons in Hnd as [Hbc Hnd]. apply NoDup_cons in Hnd as [Hc _].
      split; [split; [apply NoDup_singleton | intros z ->%list_elem_of_singleton; auto]|]. split; [intros ->; apply Hbc; left|].
      intros H. apply Hc, elem_of_app. auto. }
  destruct Hokc as [_ Hin]. destruct (Hin c) as (_ & y' & Hy' & Hly); [left|]. replace y' with y in * by congruence. clear y' Hy' Hin.
  unfold TTY_BUFFER_SIZE in Hps. unfold tty_read, file_tty.
  erewrite bind_ok; [| erewrite bind_ok; [reflexivity | unfold fload; simpl; rewrite Hfile; reflexivity]]. cbv beta.
  rewrite Hfa. erewrite bind_ok; [| apply U_tload]. cbv beta. change (flushed (tt b (c :: f))) with (c :: f). cbv iota.
  erewrite bind_ok; [| unfold tty_buffer_empty; erewrite bind_ok; [reflexivity | apply (U_bload _ _ _ _ _ _ _ Hy)]]. cbv beta.
  destruct (Z.eqb_spec y.(bread) y.(bpos)) as [E | E].
  - assert (h = []) as -> by (apply length_zero_iff_nil; lia). exists f, (c :: fr), m.
    rewrite take_nil, drop_nil. split; [erewrite bind_ok; [reflexivity | apply U_drop]|]. eapply line_inv_drop, Hi.
  - assert (h <> []) as Hne by (intros ->; simpl in Hp; lia).
    set (k := Z.min n (Z.of_nat (length h))).
    assert (Z.min n (y.(bpos) -% y.(bread)) = k) as Hk by (unfold k; word_lia).
    assert (take (Z.to_nat k) (drop (Z.to_nat y.(bread)) y.(bdata)) = take (Z.to_nat n) h) as Hout.
    { rewrite Hh at 1. rewrite take_take. f_equal. unfold k. lia. }
    assert (length (take (Z.to_nat n) h) = Z.to_nat k) as Hlo by (rewrite length_take; unfold k; lia).
    set (y1 := TtyBuffer y.(bpos) (y.(bread) +% k) y.(bdata)). set (m1 := <[c := y1]> m).
    assert (holds y1 (drop (Z.to_nat n) h)) as Hh1.
    { unfold holds, y1. cbn [bread bpos bdata]. rewrite length_drop. split; [word_lia|].
      split; [unfold k; word_lia|]. split; [unfold TTY_BUFFER_SIZE; lia|].
      rewrite Hh at 1. rewrite skipn_firstn_comm, drop_drop. destruct (Z_le_gt_dec n (Z.of_nat (length h))).
      - f_equal. f_equal. unfold k. word_lia.
      - replace (length h - Z.to_nat n)%nat with 0%nat by lia. reflexivity. }
    assert (line_inv b (c :: f) fr m1 x (Line p (drop (Z.to_nat n) h :: q))) as Hi1.
    { split; [exact Hx|]. split; [constructor; [exists y1; unfold m1; rewrite lookup_insert_eq; auto | apply holds_at_insert; auto]|].
      split; [exact Hl|]. destruct Hb as [(E0 & Hok & Hn0) | (E0 & Hok & (z & Hz & Hzh))].
      - left. split; [exact E0|]. split; [apply bufs_ok_insert; auto | exact Hn0].
      - right. split; [exact E0|]. split; [apply bufs_ok_insert; auto|]. exists z. unfold m1.
        rewrite lookup_insert_ne by exact Hcb. auto. }
    erewrite bind_ok.
    2: { unfold tty_buffer_copy. erewrite bind_ok; [| apply (U_bload _ _ _ _ _ _ _ Hy)]. cbv beta. rewrite Hk.
         rewrite (proj2 (Z.leb_le _ _)) by (unfold k; lia). erewrite bind_ok; [| apply (U_bupd _ _ _ _ _ _ _ _ Hy)]. reflexivity. }
    cbv beta. fold y1 m1.
    assert (m1 !! c = Some y1) as Hy1 by apply lookup_insert_eq.
    erewrite bind_ok; [| unfold tty_buffer_empty; erewrite bind_ok; [reflexivity | apply (U_bload _ _ _ _ _ _ _ Hy1)]]. cbv beta.
    cbn [fst snd]. rewrite Hlo, Hout. replace (s32 k) with k by (symmetry; apply sN_id; unfold k; lia).
    rewrite Z2Nat.id by (unfold k; lia). destruct Hh1 as (_ & Hp1 & _). clearbody y1.
    destruct (Z.eqb_spec y1.(bread) y1.(bpos)) as [E1 | E1].
    + assert (drop (Z.to_nat n) h = []) as Hd by (apply length_zero_iff_nil; lia). rewrite Hd in Hi1 |- *.
      exists f, (c :: fr), m1. split; [erewrite bind_ok; [reflexivity | apply U_drop]|]. eapply line_inv_drop, Hi1.
    + assert (drop (Z.to_nat n) h <> []) as Hd by (intros Hd; rewrite Hd in Hp1; simpl in Hp1; lia).
      exists (c :: f), fr, m1. split; [reflexivity|]. destruct (drop (Z.to_nat n) h); [contradiction | exact Hi1].
Qed.

End lines.

Inductive tty_op : Type :=
| TType (c : Z)
| TRead (n : Z).

Fixpoint line_run (t : tty) (ops : list tty_op) (l : line) : option (line * list (list Z)) :=
  match ops with
  | [] => Some (l, [])
  | TType c :: ops => line_run t ops (line_type t c l)
  | TRead n :: ops =>
      r ← line_read n l;
      rs ← line_run t ops r.2;
      Some (rs.1, r.1 :: rs.2)
  end.

Definition reads_ok (o : tty_op) : Prop :=
  match o with
  | TType _ => True
  | TRead n => 0 <= n < 2 ^ 31
  end.

Section theorem.

Context {D : Type} `{TE : TtyEnv D} `{TD : !TtyDriver D}.

Abbreviation K := (kst (vfs (tty_data D))).

(** What the reads return; a read that sleeps has no value. *)
Fixpoint tty_run (a fp : Z) (ops : list tty_op) : ST K (list (list Z)) :=
  match ops with
  | [] => mret []
  | TType c :: ops => tty_insert_char a c ;; tty_run a fp ops
  | TRead n :: ops =>
      r ← tty_read fp n;
      match r with
      | Some (len, out) =>
          if len =? Z.of_nat (length out) then rs ← tty_run a fp ops; mret (out :: rs) else fault
      | None => fault
      end
  end.

Lemma tty_run_ok (s : K) (a fp : Z) (t0 : tty) (dr : tty_driver) (op : tty_operations K) (fl : file) (ops : list tty_op) :
  0 < a -> s.(env).(fdata).(tty_table) !! Z.to_nat (a - 1) = Some t0 ->
  s.(env).(fdata).(drivers) !! t0.(driver) = Some dr -> tops_at dr.(dop) = Some op -> tty_writes dr.(dop) t0 ->
  t0.(twait) = [] -> s.(env).(files) !! fp = Some fl -> fl.(f_private) = a -> Forall reads_ok ops ->
  forall (b : Z) (f fr : list Z) (m : gmap Z tty_buffer) (x : D) (l l' : line) (outs : list (list Z)),
  line_inv b f fr m x l -> line_run t0 ops l = Some (l', outs) ->
  exists b' f' fr' m' x', tty_run a fp ops (U s a t0 b f fr m x) = Ok (outs, U s a t0 b' f' fr' m' x') /\
    line_inv b' f' fr' m' x' l'.
Proof.
  intros Ha Ht Hdr Hop Hw Hwait Hfile Hfa. induction ops as [| o ops IH]; intros Hops b f fr m x l l' outs Hi Hr.
  - injection Hr as <- <-. exists b, f, fr, m, x. auto.
  - apply Forall_cons in Hops as [Ho Hops]. destruct o as [c | n]; cbn [line_run tty_run] in *.
    + destruct (U_type s a t0 dr op Ha Ht Hdr Hop Hw Hwait c b f fr m x l Hi) as (b1 & f1 & fr1 & m1 & x1 & E1 & Hi1).
      destruct (IH Hops _ _ _ _ _ _ _ _ Hi1 Hr) as (b2 & f2 & fr2 & m2 & x2 & E2 & Hi2).
      exists b2, f2, fr2, m2, x2. split; [erewrite bind_ok; [exact E2 | exact E1] | exact Hi2].
    + destruct (line_read n l) as [[out l1] |] eqn:Er; [|discriminate]. simpl in Hr.
      destruct (line_run t0 ops l1) as [[l2 rs] |] eqn:Er2; [|discriminate]. simpl in Hr. injection Hr as <- <-.
      destruct (U_read s a t0 Ha Ht fp fl Hfile Hfa n b f fr m x l l1 out Ho Hi Er) as (f1 & fr1 & m1 & E1 & Hi1).
      destruct (IH Hops _ _ _ _ _ _ _ _ Hi1 Er2) as (b2 & f2 & fr2 & m2 & x2 & E2 & Hi2).
      exists b2, f2, fr2, m2, x2. split; [|exact Hi2]. erewrite bind_ok; [| exact E1]. cbv iota beta.
      rewrite Z.eqb_refl. erewrite bind_ok; [reflexivity | exact E2].
Qed.

(** C32: on a terminal that has just been opened, with a driver that meets the
    interface and memory for buffers, the reads return exactly what the ideal
    line discipline gives for the characters typed so far: lines with erased
    characters removed, an end of file as an empty read, long lines in pieces of
    sixteen characters, and a short read leaves the rest of its line. *)
Theorem tty_lines (s : K) (a fp : Z) (t0 : tty) (dr : tty_driver) (op : tty_operations K) (fl : file)
    (ops : list tty_op) (l : line) (outs : list (list Z)) :
  0 < a -> s.(env).(fdata).(tty_table) !! Z.to_nat (a - 1) = Some t0 ->
  s.(env).(fdata).(drivers) !! t0.(driver) = Some dr -> tops_at dr.(dop) = Some op -> tty_writes dr.(dop) t0 ->
  t0.(twait) = [] -> t0.(buffer) = 0 -> t0.(flushed) = [] -> dev_ok s.(env).(fdata).(dev) ->
  bufs_ok s.(env).(fdata).(buffers) s.(env).(fdata).(tty_buffers) ->
  s.(env).(files) !! fp = Some fl -> fl.(f_private) = a -> Forall reads_ok ops ->
  line_run t0 ops (Line [] []) = Some (l, outs) ->
  exists s', tty_run a fp ops s = Ok (outs, s') /\ dev_ok s'.(env).(fdata).(dev).
Proof.
  intros Ha Ht Hdr Hop Hw Hwait Hb Hf Hdev Hbufs Hfile Hfa Hops Hr.
  set (d := s.(env).(fdata)).
  assert (U s a t0 0 [] d.(tty_buffers) d.(buffers) d.(dev) = s) as Es.
  { unfold U, tt. replace (t_set_flushed (t_set_buffer t0 0) []) with t0 by (clear - Hb Hf; destruct t0; simpl in *; subst; reflexivity).
    fold d in Ht |- *. rewrite list_insert_id by exact Ht. unfold d, set_env, set_fdata. destruct s as [? ? ? ? ? ? ? [? ? ? ? ? ? []]].
    reflexivity. }
  destruct (tty_run_ok s a fp t0 dr op fl ops Ha Ht Hdr Hop Hw Hwait Hfile Hfa Hops
              0 [] d.(tty_buffers) d.(buffers) d.(dev) (Line [] []) l outs) as (b & f & fr & m & x & E & (Hx & _)).
  - split; [exact Hdev|]. split; [constructor|]. split; [simpl; unfold TTY_BUFFER_SIZE; lia|]. left. auto.
  - exact Hr.
  - rewrite Es in E. eexists. split; [exact E | exact Hx].
Qed.

End theorem.

(** ** The consoles as a driver *)

#[export] Instance pc_tty_driver : TtyDriver pc.
Proof.
  refine {| dev_ok x := exists ts, cons_rep x.(scr) ts;
            tty_writes op t := op = console_tty_ops_p /\ 0 <= t.(tindex) < NR_CONSOLES |}.
  - intros s o op a t c Hop [-> Ht] Ha Hl (ts & Hrep). injection Hop as <-.
    destruct (cons_step_run _ ts (CPuts t.(tindex) [c]) Hrep Ht) as (x & E & Hrep').
    eexists _, _, (Pc x _). split; [reflexivity|]. split; [exists (terms_step (CPuts t.(tindex) [c]) ts).1; exact Hrep'|].
    unfold console_write, tload, tdata. erewrite bind_ok.
    2: { erewrite bind_ok by reflexivity. cbv beta. unfold st_res.
         rewrite (proj2 (aload_ok _ _ t)) by (split; [lia | exact Hl]). reflexivity. }
    cbv beta. simpl in E. apply bind_inv in E as ([] & x1 & E & [= <-]).
    erewrite bind_ok; [| unfold on_screen; rewrite E; reflexivity]. reflexivity.
  - intros op t b f H. exact H.
  - intros m. destruct (above_fresh m) as [_ Hf]. destruct (above_spec m) as [H0 _].
    exists (above m), (TtyBuffer 0 0 (replicate (Z.to_nat TTY_BUFFER_SIZE) 0)). auto.
Defined.

(** ** A driver that keeps a log *)

(** It logs what is written, with the [index] of the terminal. *)
Definition log_write (a : Z) (buf : list Z) : ST (kst (vfs (tty_data (list (Z * list Z))))) Z :=
  t ← tload a;
  tdata_set (fun d => td_set_dev d (d.(dev) ++ [(t.(tindex), buf)])) ;;
  mret (Z.of_nat (length buf)).

Definition log_env : TtyEnv (list (Z * list Z)) := {|
  tops_at p := if p =? 1 then Some (TtyOps None None (Some log_write) None) else None;
  buffer_cache m := Some (above m, TtyBuffer 0 0 (replicate (Z.to_nat TTY_BUFFER_SIZE) 0));
|}.

Definition log_driver : @TtyDriver (list (Z * list Z)) log_env.
Proof.
  refine {| dev_ok _ := True; tty_writes op _ := op = 1 |}.
  - intros s o op a t c Hop -> Ha Hl _. injection Hop as <-.
    eexists _, _, _. split; [reflexivity|]. split; [exact I|]. unfold log_write, tload, tdata. erewrite bind_ok.
    2: { erewrite bind_ok by reflexivity. cbv beta. unfold st_res.
         rewrite (proj2 (aload_ok _ _ t)) by (split; [lia | exact Hl]). reflexivity. }
    reflexivity.
  - auto.
  - intros m. destruct (above_fresh m) as [_ Hf]. destruct (above_spec m) as [H0 _].
    exists (above m), (TtyBuffer 0 0 (replicate (Z.to_nat TTY_BUFFER_SIZE) 0)). auto.
Defined.

(** A table of two terminals and the registered driver; inode 1 is the device
    file of minor 0, inode 2 that of minor 1. *)
Definition dev_inode (n : Z) : inode := Inode [] n S_IFCHR 1 0 (makedev TTY_MAJOR (n - 1)) 0 1 0 false 0 0 0 0 0.

Definition closed_tty : tty := Tty 0 0 0 0 0 [] [] (Termios 0 0 0 0 []) 0.

Definition kst_tty : kst (vfs (tty_data (list (Z * list Z)))) := {|
  proctab := [];
  current := 0;
  ready_queue := [];
  zombies := [];
  idle_pid := 256;
  timers_of := Timers ∅ [] 0;
  umem := ∅;
  env := Vfs (<[1 := dev_inode 1]> (<[2 := dev_inode 2]> ∅)) ∅
           (<[1 := File 1 O_READ 0 0 0 1 0 tty_fops_p]> (<[2 := File 2 O_READ 0 0 0 1 0 tty_fops_p]> ∅)) [1; 2] []
           (Statics [] [] [] [] false 0)
           (TtyData (replicate 2 closed_tty) (<[1 := TtyDrv TTY_MAJOR 0 2 [] [0; 0] 1]> ∅) [1] [] ∅ []);
|}.

Definition opened_tty : tty := Tty 1 1 0 1 0 [] [] default_termios 0.

Definition kst_opened : kst (vfs (tty_data (list (Z * list Z)))) :=
  match @tty_open _ log_env 1 1 kst_tty with
  | Ok (_, s) => s
  | _ => kst_tty
  end.

(** "ho", erase, "i" and a newline; an end of file. *)
Lemma tty_lines_witness :
  exists s', @tty_run _ log_env 1 1 [TType 104; TType 111; TType 8; TType 105; TType 10; TType 4; TRead 2; TRead 9; TRead 9]
               kst_opened = Ok ([[104; 105]; [10]; []], s').
Proof.
  destruct (@tty_lines _ log_env log_driver kst_opened 1 1 opened_tty (TtyDrv TTY_MAJOR 0 2 [] [1; 0] 1)
              (TtyOps None None (Some log_write) None) (File 1 O_READ 0 0 0 1 1 tty_fops_p)
              [TType 104; TType 111; TType 8; TType 105; TType 10; TType 4; TRead 2; TRead 9; TRead 9]
              (Line [] []) [[104; 105]; [10]; []]) as (s' & E & _);
    [lia | vm_compute; reflexivity | vm_compute; reflexivity | reflexivity | reflexivity
    | reflexivity | reflexivity | reflexivity | exact I | | vm_compute; reflexivity | reflexivity
    | repeat constructor; simpl; lia | vm_compute; reflexivity | exists s'; exact E].
  vm_compute. split; [constructor | intros b Hb; set_solver].
Defined.

(** ** Where the code disagrees with its purpose *)

(** [index] of a terminal is never set: what is written to the second terminal
    reaches the driver as output of the first. *)
Lemma tty_index_unset :
  match (@tty_open _ log_env 1 1 ;; a ← @tty_open _ log_env 2 2; r ← @tty_write _ log_env 2 [97]; f ← fload 2; d ← tdata;
         mret (a, r, f, d)) kst_tty with
  | Ok ((a, r, f, d), _) => a = 0 /\ r = 1 /\ f.(f_private) = 2 /\ d.(dev) = [(0, [97])]
  | _ => False
  end.
Proof. vm_compute. auto. Qed.

(** Closing a terminal leaves it in the driver's table, so that the next open of
    its file and that of the other file share it. *)
Lemma tty_release_shared :
  match (@tty_open _ log_env 1 1 ;; @tty_release _ log_env 1 1 ;; @tty_open _ log_env 1 1 ;; @tty_open _ log_env 2 2 ;;
         f ← fload 1; g ← fload 2; mret (f, g)) kst_tty with
  | Ok ((f, g), _) => f.(f_private) = g.(f_private)
  | _ => False
  end.
Proof. vm_compute. reflexivity. Qed.
