(* ===== verification/Time.v ===== *)
(** * Clocks, sleeping, alarms and POSIX timers (dispatch/time.c)

    The environment of the kernel state holds the POSIX timers, their hash table
    and the system clock; the count of ticks is that of the kernel timers.  The
    callbacks of the kernel timers are named by numbers.  A sleep is split at the
    call of [schedule].

    The theorem of this file follows a sleeping process through the timer
    interrupts: it is woken by the right one. *)

From S2P Require Import Prelude Bitops Abi Addr Vma Mmap Timer Sig Sched Signal Process.

Definition CLOCK_REALTIME : Z := 0.
Definition CLOCK_MONOTONIC : Z := 1.
Definition __NR_CLOCKS : Z := 4.
Definition __TICKS_PER_SEC : Z := 100.
Definition __NSEC_PER_TICK : Z := 10000000.
Definition SIGEV_NONE : Z := 0.
Definition SIGEV_SIGNAL : Z := 1.

Record timespec : Type := Timespec { tv_sec : Z; tv_nsec : Z }.

Record itimerspec : Type := Itimerspec { it_interval : timespec; it_value : timespec }.

Record sigevent : Type := Sigevent {
  sigev_notify : Z;
  sigev_signo : Z;
  sigev_value : Z;
  sigev_notify_function : Z;
}.

(** The embedded kernel timer is [pt_timer]. *)
Record posix_timer : Type := PosixTimer {
  sev : sigevent;
  spec : itimerspec;
  pt_pid : Z;
  timerid : Z;
}.

Record time_env : Type := TimeEnv {
  ptimers : gmap Z posix_timer;
  phash : gmap Z (list Z);
  system_clock : Z;
}.

(** The slab cache of POSIX timers. *)
Class TimerCache : Type := { pt_cache : gmap Z posix_timer -> option (Z * posix_timer) }.

(** The name of the kernel timer embedded in the POSIX timer at [a]. *)
Definition pt_timer (a : Z) : Z := - a.

Definition wake_action : Z := 1.
Definition alrm_action : Z := 2.
Definition posix_timer_action : Z := 3.

Definition timespec_to_ticks (t : timespec) : Z := u32 (t.(tv_sec) * __TICKS_PER_SEC + Z.quot t.(tv_nsec) __NSEC_PER_TICK).

(** The macro assigns [tv_nsec] twice. *)
Definition ticks_to_timespec (t : timespec) (ticks : Z) : timespec :=
  Timespec t.(tv_sec) (ticks mod __TICKS_PER_SEC * __NSEC_PER_TICK).

Section time.

Context `{TC : TimerCache}.

Abbreviation k := (kst time_env).
Abbreviation M := (ST (kst time_env)).

Definition bad (start len flags : Z) : M bool :=
  p ← cur_proc; mret (negb (vm_verify p.(mm) start len flags =? 0)).

Definition put_timespec (a : Z) (t : timespec) : M unit := mstore a t.(tv_sec) ;; mstore (a + 4) (u32 t.(tv_nsec)).

Definition get_timespec (a : Z) : M timespec := x ← mload a; y ← mload (a + 4); mret (Timespec x (s32 y)).

Definition tenv_set (f : time_env -> time_env) : M unit := modify (fun s => set_env s (f s.(env))).

Definition set_clock (t : Z) : M unit := tenv_set (fun e => TimeEnv e.(ptimers) e.(phash) t).

Definition now : M Z := gets (fun s => s.(timers_of).(tick_count)).

(** An operation on the kernel timers. *)
Definition on_timers {A : Type} (f : timers -> res (A * timers)) : M A := fun s =>
  match f s.(timers_of) with
  | Ok (a, t) => Ok (a, set_timers s t)
  | Panic => Panic
  | Fault => Fault
  end.

Definition pt_load (a : Z) : M posix_timer := fun s =>
  match s.(env).(ptimers) !! a with
  | Some p => Ok (p, s)
  | None => Fault
  end.

Definition pt_upd (a : Z) (f : posix_timer -> posix_timer) : M unit :=
  p ← pt_load a;
  tenv_set (fun e => TimeEnv (<[a := f p]> e.(ptimers)) e.(phash) e.(system_clock)).

(** ** Sleeping and alarms *)

(** [sys_sleep] up to [schedule] and from there. *)
Definition sys_sleep (ticks : Z) : M unit :=
  c ← cur;
  on_timers (fun t => Ok (tt, ktimer_init t (t_sleep c) wake_action c TF_STATIC)) ;;
  _ ← on_timers (fun t => ktimer_start t (t_sleep c) ticks);
  upd c (fun a => p_state a PROC_INTERRUPTIBLE) ;;
  _ ← _schedule;
  mret tt.

Definition sys_sleep_resume : M Z :=
  c ← cur;
  a ← proc c;
  if negb (a.(rc) =? 0) then r ← on_timers (fun t => ktimer_remove t (t_sleep c)); mret (s32 r) else mret 0.

Definition sys_alarm (ticks : Z) : M Z :=
  c ← cur;
  t ← on_timers (fun t => do x <- tget t (t_alarm c); Ok (x, t));
  rc ← (if negb (Z.land t.(t_flags) TF_ARMED =? 0)
        then r ← on_timers (fun t => ktimer_remove t (t_alarm c)); mret (s32 r) else mret 0);
  if ticks =? 0 then mret rc
  else
    on_timers (fun t => Ok (tt, ktimer_init t (t_alarm c) alrm_action c TF_STATIC)) ;;
    _ ← on_timers (fun t => ktimer_start t (t_alarm c) ticks);
    mret rc.

(** ** Clocks *)

Record clock : Type := Clock {
  clock_get : option (M timespec);
  clock_set : option (timespec -> M unit);
  clock_res : timespec;
}.

Definition sys_time (t : Z) : M Z :=
  b ← bad t 4 VM_WRITE;
  if b : bool then mret (- EFAULT) else e ← gets env; mstore t e.(system_clock) ;; mret 0.

Definition posix_rtc_get : M timespec := e ← gets env; mret (Timespec e.(system_clock) 0).

Definition posix_rtc_set (tp : timespec) : M unit := set_clock tp.(tv_sec).

Definition posix_monotonic_get : M timespec :=
  n ← now;
  mret (Timespec (n / __TICKS_PER_SEC) (n mod __TICKS_PER_SEC * __NSEC_PER_TICK)).

Definition posix_clocks : list clock :=
  [Clock (Some posix_rtc_get) (Some posix_rtc_set) (Timespec 1 0);
   Clock (Some posix_monotonic_get) None (Timespec 0 __NSEC_PER_TICK);
   Clock None None (Timespec 0 0);
   Clock None None (Timespec 0 0)].

Definition clock_valid (clockid : Z) : bool := (0 <=? clockid) && (clockid <? __NR_CLOCKS).

Definition sys_clock_getres (clockid res : Z) : M Z :=
  if negb (clock_valid clockid) then mret (- EINVAL)
  else
    b ← bad res 8 VM_WRITE;
    if b : bool then mret (- EFAULT)
    else c ← st_res (aload posix_clocks clockid); put_timespec res c.(clock_res) ;; mret 0.

(** Two of the clocks have no functions. *)
Definition sys_clock_gettime (clockid tp : Z) : M Z :=
  if negb (clock_valid clockid) then mret (- EINVAL)
  else
    b ← bad tp 8 VM_WRITE;
    if b : bool then mret (- EFAULT)
    else
      c ← st_res (aload posix_clocks clockid);
      match c.(clock_get) with
      | Some get => t ← get; put_timespec tp t ;; mret 0
      | None => fault
      end.

Definition sys_clock_settime (clockid tp : Z) : M Z :=
  if negb (clock_valid clockid) then mret (- EINVAL)
  else
    c ← st_res (aload posix_clocks clockid);
    match c.(clock_set) with
    | None => mret (- EPERM)
    | Some set =>
        b ← bad tp 8 VM_READ;
        if b : bool then mret (- EFAULT) else t ← get_timespec tp; set t ;; mret 0
    end.

(** ** POSIX timers *)

Definition timer_bucket (id : Z) : Z := hash_32 id 9.

(** 0 stands for [NULL]. *)
Fixpoint find_timer (l : list Z) (owner id : Z) : M Z :=
  match l with
  | [] => mret 0
  | a :: l =>
      p ← pt_load a;
      if (p.(pt_pid) =? owner) && (p.(timerid) =? id) then mret a else find_timer l owner id
  end.

Definition get_timer_by_id (id : Z) : M Z :=
  e ← gets env;
  c ← cur_proc;
  find_timer (default [] (e.(phash) !! timer_bucket id)) c.(pid) id.

(** The value is stored for the process that runs when the timer expires. *)
Definition posix_timer_expired (a : Z) : M unit :=
  pt ← pt_load a;
  p ← get_pcb pt.(pt_pid);
  match p with
  | None => panic
  | Some p =>
      c ← cur;
      x ← proc c;
      i ← st_res (aload x.(sig).(infos) pt.(sev).(sigev_signo));
      l ← st_res (astore x.(sig).(infos) pt.(sev).(sigev_signo)
                    (SigInfo i.(si_signo) i.(si_code) i.(si_errno) i.(si_pid) i.(si_uid) i.(si_addr) i.(si_status)
                             i.(si_band) pt.(sev).(sigev_value)));
      upd_sig c (fun s => set_infos s l) ;;
      if pt.(sev).(sigev_notify) =? SIGEV_SIGNAL then __kill p pt.(sev).(sigev_signo) SI_TIMER else mret tt
  end.

Definition sigev_valid (s : sigevent) : bool :=
  ((s.(sigev_notify) =? SIGEV_NONE) || (s.(sigev_notify) =? SIGEV_SIGNAL)) && signo_valid s.(sigev_signo).

Definition get_sigevent (a : Z) : M sigevent :=
  n ← mload a;
  s ← mload (a + 4);
  v ← mload (a + 8);
  f ← mload (a + 12);
  mret (Sigevent (s32 n) (s32 s) v f).

(** The event of a timer created without one leaves the function unset. *)
Definition default_event (junk : sigevent) (id : Z) : sigevent :=
  Sigevent SIGEV_SIGNAL SIGALRM (s32 id) junk.(sigev_notify_function).

Definition sys_timer_create (clockid sevp tid : Z) : M Z :=
  if negb (clockid =? CLOCK_MONOTONIC) then mret (- ENOTSUP)
  else
    b ← (if sevp =? 0 then mret false else bad sevp 16 VM_READ);
    if b : bool then mret (- EFAULT)
    else
      b ← bad tid 4 VM_WRITE;
      if b : bool then mret (- EFAULT)
      else
        e ← gets env;
        match pt_cache e.(ptimers) with
        | None => mret (- ENOMEM)
        | Some (a, junk) =>
            c ← cur;
            x ← proc c;
            let id := x.(posix_timer_id) in
            upd c (fun x => p_timers x x.(posix_timers) (x.(posix_timer_id) +% 1)) ;;
            ev ← (if sevp =? 0 then mret (default_event junk.(sev) id) else get_sigevent sevp);
            if negb (sevp =? 0) && negb (sigev_valid ev) then mret (- EINVAL)
            else
              tenv_set (fun e => TimeEnv (<[a := PosixTimer ev junk.(spec) x.(pid) id]> e.(ptimers))
                                   (<[timer_bucket id := a :: default [] (e.(phash) !! timer_bucket id)]> e.(phash))
                                   e.(system_clock)) ;;
              on_timers (fun t => Ok (tt, ktimer_init t (pt_timer a) posix_timer_action a TF_STATIC)) ;;
              upd c (fun x => p_timers x (x.(posix_timers) ++ [a]) x.(posix_timer_id)) ;;
              mstore tid id ;;
              mret 0
        end.

(** The kernel timer stays armed. *)
Definition sys_timer_delete (id : Z) : M Z :=
  a ← get_timer_by_id id;
  if a =? 0 then mret (- EINVAL)
  else
    c ← cur;
    x ← proc c;
    (if bool_decide (a ∈ x.(posix_timers)) then mret tt else fault) ;;
    upd c (fun x => p_timers x (without a x.(posix_timers)) x.(posix_timer_id)) ;;
    tenv_set (fun e => TimeEnv (delete a e.(ptimers)) (without a <$> e.(phash)) e.(system_clock)) ;;
    mret 0.

Definition set_spec (p : posix_timer) (s : itimerspec) : posix_timer := PosixTimer p.(sev) s p.(pt_pid) p.(timerid).

Definition sys_timer_gettime (id curr_value : Z) : M Z :=
  a ← get_timer_by_id id;
  if a =? 0 then mret (- EINVAL)
  else
    b ← bad curr_value 16 VM_WRITE;
    if b : bool then mret (- EFAULT)
    else
      t ← on_timers (fun t => do x <- tget t (pt_timer a); Ok (x, t));
      n ← now;
      let ticks := t.(t_expires) -% n in
      let sec := if negb (ticks mod 100 =? 0) then ticks / 100 + 1 else ticks / 100 in
      pt_upd a (fun p => set_spec p (Itimerspec p.(spec).(it_interval) (Timespec sec 0))) ;;
      p ← pt_load a;
      put_timespec curr_value p.(spec).(it_interval) ;;
      put_timespec (curr_value + 8) p.(spec).(it_value) ;;
      mret 0.

Definition sys_timer_settime (id flags new_value old_value : Z) : M Z :=
  a ← get_timer_by_id id;
  if a =? 0 then mret (- EINVAL)
  else
    b ← bad new_value 16 VM_READ;
    if b : bool then mret (- EFAULT)
    else
      i ← get_timespec new_value;
      v ← get_timespec (new_value + 8);
      pt_upd a (fun p => set_spec p (Itimerspec i v)) ;;
      _ ← on_timers (fun t => ktimer_start t (pt_timer a) (timespec_to_ticks v));
      mret 0.

(** ** The timer interrupt *)

(** Calling the callback of a kernel timer. *)
Definition timer_callback (act data : Z) (s : k) : res k :=
  let m := if act =? wake_action then wake data 0
           else if act =? alrm_action then __kill data SIGALRM 0
           else if act =? posix_timer_action then posix_timer_expired data
           else fault in
  do ' (_, s) <- m s; Ok s.

(** The callbacks do not use the kernel timers. *)
Definition run_timers : M unit := fun s =>
  do ' (t, s') <- ktimers_tick timer_callback s.(timers_of) s;
  Ok (tt, set_timers s' t).

(** Acknowledging the interrupt has no effect on this state. *)
Definition tick : M unit :=
  n ← now;
  let n := n +% 1 in
  modify (fun s => set_timers s (Timers s.(timers_of).(tmem) s.(timers_of).(active) n)) ;;
  (if n mod __TICKS_PER_SEC =? 0 then e ← gets env; set_clock (e.(system_clock) +% 1) else mret tt) ;;
  run_timers ;;
  switch.

End time.

(** ** Sleeping processes wake on time *)

Section sleeping.

Abbreviation k := (kst time_env).

(** The running process and the ready ones. *)
Definition runnable (s : k) : list Z := s.(current) :: s.(ready_queue).

(** The armed timers are those of sleeping processes. *)
Definition sleepers_ok (s : k) : Prop :=
  sched_ok s /\ timers_ok s.(timers_of) /\ 0 <= s.(timers_of).(tick_count) /\
  forall t, t ∈ s.(timers_of).(active) -> exists p x, t = t_sleep p /\ s.(timers_of).(tmem) !! t = Some x /\
    x.(t_action) = wake_action /\ x.(t_data) = p /\ valid s p /\ p ∉ runnable s ++ s.(zombies).

(** [_schedule] runs one of the ready processes and keeps the others. *)
Lemma schedule_run (s : k) :
  s.(ready_queue) <> [] -> NoDup (s.(ready_queue) ++ s.(zombies)) -> Forall (valid s) (s.(ready_queue) ++ s.(zombies)) ->
  exists c q t, _schedule s = Ok (c, set_current (set_queues (set_procs s t) q s.(zombies)) c) /\
    c :: q ≡ₚ s.(ready_queue) /\ length t = length s.(proctab) /\ rc <$> t = rcs s.
Proof.
  intros Hne Hnd Hv. destruct s.(ready_queue) as [| h q] eqn:Eq; [contradiction|].
  set (s1 := set_queues s q s.(zombies)). simpl in Hnd, Hv. apply NoDup_cons in Hnd as [Hh Hnd]. apply Forall_cons in Hv as [Hvh Hv].
  destruct (valid_lookup s1 h Hvh) as (a & H0 & Ha). unfold _schedule, next_process.
  assert (next s = Ok (h, s1)) as En by (unfold next; rewrite Eq; reflexivity).
  destruct (decide (pid a = s.(idle_pid) /\ q <> [])) as [[Hi Hq] | Hi].
  - destruct (ready_keeps s1 h Hvh Hh) as (t & Er & _ & Hrc & Ht). simpl in Er. fold s1 in Er.
    destruct q as [| c q]; [contradiction|]. exists c, (q ++ [h]), t. split; [|split; [|auto]].
    + erewrite bind_ok.
      2: { erewrite bind_ok; [| exact En]. cbv beta. erewrite bind_ok; [| apply (proc_run s1 h a H0 Ha)]. cbv beta.
           do 2 (erewrite bind_ok by reflexivity; cbv beta). simpl. rewrite Hi, Z.eqb_refl. simpl.
           erewrite bind_ok; [| exact Er]. reflexivity. }
      cbv beta. reflexivity.
    + rewrite (Permutation_app_comm q [h]). simpl. apply perm_swap.
  - exists h, q, s.(proctab). split; [|split; [reflexivity | auto]]. erewrite bind_ok.
    2: { erewrite bind_ok; [| exact En]. cbv beta. erewrite bind_ok; [| apply (proc_run s1 h a H0 Ha)]. cbv beta.
         do 2 (erewrite bind_ok by reflexivity; cbv beta).
         destruct ((a.(pid) =? idle_pid s1) && negb (bool_decide (ready_queue s1 = []))) eqn:Ec; [|reflexivity].
         exfalso. apply Hi. apply andb_true_iff in Ec as [E1%Z.eqb_eq E2%negb_true_iff%bool_decide_eq_false]. split; [exact E1 | exact E2]. }
    cbv beta. destruct s. reflexivity.
Qed.

(** The callbacks of sleep timers wake their processes. *)
Lemma run_actions_wake (m : tmemory) (ps : list Z) (data : Z -> Z) :
  (forall t, t ∈ ps -> exists x, m !! t = Some x /\ x.(t_action) = wake_action /\ x.(t_data) = data t) ->
  forall s : k, run_actions timer_callback m ps s = (do ' (_, s') <- wake_all (data <$> ps) 0 s; Ok s').
Proof.
  induction ps as [| t ps IH]; intros Hps s; [reflexivity|].
  destruct (Hps t) as (x & Hx & Ha & Hd); [left|]. simpl run_actions. rewrite Hx, Ha, Hd. unfold wake_all in *. simpl.
  unfold timer_callback at 1. simpl. unfold mbind, st_bind. destruct (wake (data t) 0 s) as [[[] s1] | |]; [|reflexivity..].
  simpl. apply IH. intros t' Ht'. apply Hps. right. exact Ht'.
Qed.

Definition sleeper (t : Z) : Z := (t - 1) / 2.

Lemma sleeper_of (p : Z) : sleeper (t_sleep p) = p.
Proof. unfold sleeper, t_sleep. lia. Qed.

Lemma run_timers_run (s : k) :
  sleepers_ok s ->
  let woken := sleeper <$> expired s.(timers_of) in
  exists t, run_timers s =
      Ok (tt, set_timers (set_queues (set_procs s t) (s.(ready_queue) ++ woken) s.(zombies))
                (Timers (foldl disarm s.(timers_of).(tmem) (expired s.(timers_of))) (remaining s.(timers_of))
                        s.(timers_of).(tick_count))) /\
    length t = length s.(proctab) /\ asleep s woken /\ (forall p, p ∈ woken -> p <> s.(current)) /\
    (forall p, 0 <= p -> p ∈ woken -> (rc <$> t) !! Z.to_nat p = Some 0).
Proof.
  intros (Hsch & Htok & H0 & Hsl) woken.
  assert (forall t, t ∈ expired s.(timers_of) -> t ∈ s.(timers_of).(active)) as Hex
    by (intros t Ht; apply elem_of_lfilter in Ht as [Ht _]; exact Ht).
  assert (asleep s woken) as Has.
  { split; [|split].
    - apply NoDup_fmap_2_strong.
      + intros x y Hx Hy E. destruct (Hsl x (Hex x Hx)) as (p & ? & -> & _). destruct (Hsl y (Hex y Hy)) as (q & ? & -> & _).
        rewrite !sleeper_of in E. congruence.
      + destruct Htok as (Hnd & _). apply NoDup_ListNoDup, List.NoDup_filter, NoDup_ListNoDup, Hnd.
    - apply Forall_forall. intros p Hp. apply list_elem_of_fmap in Hp as (t & -> & Ht).
      destruct (Hsl t (Hex t Ht)) as (p & x & -> & _ & _ & _ & Hv & _). rewrite sleeper_of. exact Hv.
    - intros p Hp Hq. apply list_elem_of_fmap in Hp as (t & -> & Ht).
      destruct (Hsl t (Hex t Ht)) as (p & x & -> & _ & _ & _ & _ & Hn). rewrite sleeper_of in Hq. apply Hn. right. exact Hq. }
  destruct (wake_all_run woken 0 s Has) as (t & E & Ht & _ & Hrc). exists t.
  destruct (ktimers_tick_spec timer_callback s.(timers_of) s Htok) as [Ek _].
  rewrite (run_actions_wake _ _ sleeper) in Ek.
  2: { intros y Hy. destruct (Hsl y (Hex y Hy)) as (p & x & -> & Hx & Ha & Hd & _). exists x. rewrite sleeper_of. auto. }
  split; [|split; [exact Ht | split; [exact Has|split]]].
  - unfold run_timers. rewrite Ek. fold woken. rewrite E. reflexivity.
  - intros p Hp ->. apply list_elem_of_fmap in Hp as (y & Ep & Hy).
    destruct (Hsl y (Hex y Hy)) as (p & x & -> & _ & _ & _ & _ & Hn). rewrite sleeper_of in Ep. apply Hn. rewrite <- Ep. left.
  - intros p Hp Hin. rewrite Hrc by exact Hp. rewrite bool_decide_eq_true_2 by exact Hin. reflexivity.
Qed.

(** The count and the clock of a tick. *)
Definition ticked (s : k) : k :=
  let n := s.(timers_of).(tick_count) +% 1 in
  let s := set_timers s (Timers s.(timers_of).(tmem) s.(timers_of).(active) n) in
  if n mod __TICKS_PER_SEC =? 0
  then set_env s (TimeEnv s.(env).(ptimers) s.(env).(phash) (s.(env).(system_clock) +% 1)) else s.

Lemma ticked_keeps (s : k) :
  (ticked s).(proctab) = s.(proctab) /\ (ticked s).(current) = s.(current) /\ (ticked s).(ready_queue) = s.(ready_queue) /\
  (ticked s).(zombies) = s.(zombies) /\ (ticked s).(timers_of) = advance s.(timers_of).
Proof. unfold ticked. destruct (_ =? 0); auto. Qed.

Lemma tick_eq (s : k) : tick s = (run_timers ;; switch) (ticked s).
Proof. unfold tick, ticked. erewrite bind_ok by reflexivity. cbv beta zeta. erewrite bind_ok by reflexivity. destruct (_ =? 0); reflexivity. Qed.

Lemma sleepers_ticked (s : k) :
  sleepers_ok s -> s.(timers_of).(tick_count) + 1 < 2 ^ 32 -> sleepers_ok (ticked s).
Proof.
  intros (Hsch & Htok & H0 & Hsl) Hw. destruct (ticked_keeps s) as (E1 & E2 & E3 & E4 & E5).
  unfold sleepers_ok, sched_ok, runnable, valid in *. rewrite E1, E2, E3, E4, E5. simpl.
  split; [exact Hsch|]. split; [exact Htok|]. split; [rewrite uN_id by lia; lia | exact Hsl].
Qed.

(** Another process is chosen, or the same one; the queues keep their members. *)
Lemma switch_sleepers (s : k) :
  sleepers_ok s -> exists s', switch s = Ok (tt, s') /\ sleepers_ok s' /\ s'.(timers_of) = s.(timers_of) /\
    runnable s' ≡ₚ runnable s /\ rcs s' = rcs s.
Proof.
  intros ((Hnd & Hv) & Htok & H0 & Hsl). pose proof Hnd as Hnd'. pose proof Hv as Hv'.
  apply NoDup_cons in Hnd' as [Hc Hnd1]. apply Forall_cons in Hv' as [Hvc Hv1].
  destruct (ready_keeps s s.(current) Hvc Hc) as (t & E1 & _ & Hrc1 & Ht). set (s1 := set_queues _ _ _) in E1.
  assert (valid s1 = valid s) as Hval1 by (unfold valid, s1; simpl; rewrite Ht; reflexivity).
  assert (s1.(ready_queue) ++ s1.(zombies) ≡ₚ s.(current) :: s.(ready_queue) ++ s.(zombies)) as Hp1
    by (unfold s1; simpl; rewrite <- app_assoc; symmetry; apply Permutation_middle).
  destruct (schedule_run s1) as (c & q & t2 & E2 & Hp2 & Ht2 & Hrc2);
    [unfold s1; simpl; destruct (ready_queue s); discriminate | rewrite Hp1; exact Hnd | rewrite Hp1, Hval1; exact Hv |].
  set (s2 := set_current _ c) in E2. assert (valid s2 = valid s) as Hval2 by (unfold valid, s2; simpl; rewrite Ht2; unfold s1; simpl; rewrite Ht; reflexivity).
  assert (runnable s2 ≡ₚ runnable s) as Hrun
    by (change (c :: q ≡ₚ s.(current) :: s.(ready_queue)); rewrite Hp2; symmetry; apply (Permutation_cons_append (ready_queue s))).
  assert (s2.(current) :: s2.(ready_queue) ++ s2.(zombies) ≡ₚ s.(current) :: s.(ready_queue) ++ s.(zombies)) as Hall
    by (change (runnable s2 ++ s.(zombies) ≡ₚ runnable s ++ s.(zombies)); rewrite Hrun; reflexivity).
  exists s2. split_and!; auto.
  - unfold switch. erewrite bind_ok by reflexivity. erewrite bind_ok; [| exact E1]. erewrite bind_ok; [| exact E2]. reflexivity.
  - split; [split; [rewrite Hall; exact Hnd | rewrite Hall, Hval2; exact Hv]|]. split; [exact Htok|]. split; [exact H0|].
    intros y Hy. destruct (Hsl y Hy) as (p & x & -> & Hx & Ha & Hd & Hvp & Hn). exists p, x. split_and!; auto; [rewrite Hval2; exact Hvp|].
    change (p ∉ runnable s2 ++ s.(zombies)). rewrite Hrun. exact Hn.
  - unfold rcs at 1, s2. simpl. rewrite Hrc2. exact Hrc1.
Qed.

(** The timers that have expired wake their processes, with the result 0. *)
Lemma run_timers_sleepers (s : k) :
  sleepers_ok s ->
  exists s', run_timers s = Ok (tt, s') /\ sleepers_ok s' /\ s'.(timers_of).(tick_count) = s.(timers_of).(tick_count) /\
    forall p, t_sleep p ∈ s.(timers_of).(active) ->
      if expires_of s.(timers_of).(tmem) (t_sleep p) <=? s.(timers_of).(tick_count)
      then p ∈ runnable s' /\ rcs s' !! Z.to_nat p = Some 0
      else t_sleep p ∈ s'.(timers_of).(active) /\
           expires_of s'.(timers_of).(tmem) (t_sleep p) = expires_of s.(timers_of).(tmem) (t_sleep p).
Proof.
  intros Hok. destruct (run_timers_run s Hok) as (t & Er & Ht & (Hwnd & Hwv & Hwq) & Hwc & Hrc).
  set (woken := sleeper <$> expired s.(timers_of)) in *. set (s2 := set_timers _ _) in Er.
  pose proof Hok as ((Hnd & Hv) & Htok & H0 & Hsl).
  assert (valid s2 = valid s) as Hval by (unfold valid, s2; simpl; rewrite Ht; reflexivity).
  assert (forall p, t_sleep p ∈ s.(timers_of).(active) -> 0 <= p) as Hge.
  { intros p Hp. destruct (Hsl _ Hp) as (p' & x & Ep & _ & _ & _ & Hvp & _). apply (f_equal sleeper) in Ep. rewrite !sleeper_of in Ep. subst p'. apply Hvp. }
  assert (s2.(current) :: s2.(ready_queue) ++ s2.(zombies) ≡ₚ woken ++ s.(current) :: s.(ready_queue) ++ s.(zombies)) as Hall.
  { change (s.(current) :: (s.(ready_queue) ++ woken) ++ s.(zombies) ≡ₚ woken ++ (s.(current) :: s.(ready_queue)) ++ s.(zombies)).
    rewrite (app_assoc woken), (Permutation_app_comm woken). reflexivity. }
  exists s2. split; [exact Er|]. split; [split; [split|split; [|split]]|split; [reflexivity|]].
  - rewrite Hall. apply NoDup_app. split; [exact Hwnd|]. split; [|exact Hnd]. intros x Hx Hin.
    apply elem_of_cons in Hin as [-> | Hin]; [exact (Hwc _ Hx eq_refl) | exact (Hwq x Hx Hin)].
  - rewrite Hall, Hval. apply Forall_app. split; [exact Hwv | exact Hv].
  - apply tick_ok, Htok.
  - exact H0.
  - intros y Hy. apply elem_of_lfilter in Hy as [Hy Hlt]. apply Z.ltb_lt in Hlt.
    destruct (Hsl y Hy) as (p & x & -> & Hx & Ha & Hd & Hvp & Hn). exists p, x. split; [reflexivity|].
    split; [cbn [s2 timers_of set_timers tmem]; rewrite disarms_ne; [exact Hx|]; intros Hex; apply elem_of_lfilter in Hex as [_ Hle]; apply Z.leb_le in Hle; lia|].
    split; [exact Ha|]. split; [exact Hd|]. split; [rewrite Hval; exact Hvp|].
    change (p ∉ s2.(current) :: s2.(ready_queue) ++ s2.(zombies)). rewrite Hall. intros [Hin | Hin]%elem_of_app; [|exact (Hn Hin)].
    apply list_elem_of_fmap in Hin as (z & Ez & Hz). apply elem_of_lfilter in Hz as [Hz Hle]. apply Z.leb_le in Hle.
    destruct (Hsl z Hz) as (p' & x' & -> & _). rewrite sleeper_of in Ez. subst p'. lia.
  - intros p Hp. cbn [s2 timers_of set_timers tmem active]. rewrite expires_of_disarms.
    destruct (Z.leb_spec (expires_of (tmem (timers_of s)) (t_sleep p)) (tick_count (timers_of s))) as [Hle | Hlt].
    + assert (p ∈ woken) as Hpw.
      { apply list_elem_of_fmap. exists (t_sleep p). rewrite sleeper_of. split; [reflexivity|].
        apply elem_of_lfilter. split; [exact Hp | apply Z.leb_le; exact Hle]. }
      split; [right; apply elem_of_app; auto | apply Hrc; [exact (Hge p Hp) | exact Hpw]].
    + split; [|reflexivity]. apply elem_of_lfilter. split; [exact Hp | apply Z.ltb_lt; exact Hlt].
Qed.

(** One timer interrupt: the processes whose time has come become runnable, with
    the result 0, and the others sleep on. *)
Lemma tick_run (s : k) :
  sleepers_ok s -> s.(timers_of).(tick_count) + 1 < 2 ^ 32 ->
  exists s', tick s = Ok (tt, s') /\ sleepers_ok s' /\
    s'.(timers_of).(tick_count) = s.(timers_of).(tick_count) + 1 /\
    forall p, t_sleep p ∈ s.(timers_of).(active) ->
      if expires_of s.(timers_of).(tmem) (t_sleep p) <=? s.(timers_of).(tick_count) + 1
      then p ∈ runnable s' /\ rcs s' !! Z.to_nat p = Some 0
      else t_sleep p ∈ s'.(timers_of).(active) /\
           expires_of s'.(timers_of).(tmem) (t_sleep p) = expires_of s.(timers_of).(tmem) (t_sleep p).
Proof.
  intros Hok Hw. assert (0 <= s.(timers_of).(tick_count)) as Hge by apply Hok. rewrite tick_eq. pose proof (sleepers_ticked s Hok Hw) as Hok1.
  destruct (ticked_keeps s) as (_ & _ & _ & _ & E5). set (s1 := ticked s) in *. clearbody s1.
  destruct (run_timers_sleepers s1 Hok1) as (s2 & E2 & Hok2 & Ht2 & H2). destruct (switch_sleepers s2 Hok2) as (s3 & E3 & Hok3 & Ht3 & Hr3 & Hrc3).
  exists s3. split; [erewrite bind_ok; [exact E3 | exact E2]|]. split; [exact Hok3|]. rewrite E5 in *. cbn [advance tmem active tick_count] in *.
  rewrite uN_id in * by lia. rewrite Ht3. split; [exact Ht2|]. intros p Hp. specialize (H2 p Hp).
  destruct (_ <=? _); [|exact H2]. destruct H2 as [H2 H2']. split; [rewrite Hr3; exact H2 | rewrite Hrc3; exact H2'].
Qed.

(** What happens while a process sleeps: timer interrupts, and system calls of the
    process that runs, which gives way or goes to sleep itself.  The last process
    that can run, which is the idle one, does not sleep. *)
Inductive event : Type :=
| ETick
| EYield
| ESleep (ticks : Z).

Definition event_run (e : event) : ST k unit :=
  match e with
  | ETick => tick
  | EYield => sys_yield
  | ESleep m => fun s => if bool_decide (s.(ready_queue) = []) then Ok (tt, s) else sys_sleep m s
  end.

Fixpoint events (l : list event) : ST k unit :=
  match l with
  | [] => mret tt
  | e :: l => event_run e ;; events l
  end.

(** The number of timer interrupts. *)
Definition tick_no (l : list event) : Z := Z.of_nat (length (List.filter (fun e => match e with ETick => true | _ => false end) l)).

(** Sleeps that end before the count of ticks wraps around, [lim] being the count at
    the end of the sequence. *)
Definition event_ok (lim : Z) (e : event) : Prop :=
  match e with
  | ESleep m => 0 < m /\ lim + m < 2 ^ 32
  | _ => True
  end.

(** The running process does not sleep. *)
Lemma running_awake (s : k) : sleepers_ok s -> t_sleep s.(current) ∉ s.(timers_of).(active).
Proof.
  intros (_ & _ & _ & H) Hin. destruct (H _ Hin) as (q & x & Ep & _ & _ & _ & _ & Hn).
  apply (f_equal sleeper) in Ep. rewrite !sleeper_of in Ep. subst q. apply Hn. left.
Qed.

(** What [ktimer_start] stores. *)
Lemma start_tmem (t t' : timers) (p n r : Z) (x : timer) :
  t.(tmem) !! p = Some x -> ktimer_start t p n = Ok (r, t') ->
  exists e f, t'.(tmem) !! p = Some (Timer x.(t_action) x.(t_data) e f).
Proof.
  intros Hx E. unfold ktimer_start, tget in E. rewrite Hx in E. simpl in E.
  destruct (bool_decide _); [discriminate|]. destruct (_ <? _); injection E as <- <-; simpl; rewrite lookup_insert_eq; eauto.
Qed.

(** Going to sleep: the timer of the process is armed and another process runs. *)
Lemma sys_sleep_run (s : k) (n : Z) :
  sleepers_ok s -> s.(ready_queue) <> [] -> 0 < n -> s.(timers_of).(tick_count) + n < 2 ^ 32 ->
  exists s', sys_sleep n s = Ok (tt, s') /\ sleepers_ok s' /\
    t_sleep s.(current) ∈ s'.(timers_of).(active) /\
    s'.(timers_of).(tick_count) = s.(timers_of).(tick_count) /\
    expires_of s'.(timers_of).(tmem) (t_sleep s.(current)) = s.(timers_of).(tick_count) + n /\
    forall q, q ∈ s.(timers_of).(active) ->
      q ∈ s'.(timers_of).(active) /\ expires_of s'.(timers_of).(tmem) q = expires_of s.(timers_of).(tmem) q.
Proof.
  intros Hok Hne Hn Hw. pose proof (running_awake s Hok) as Hna. destruct Hok as ((Hnd & Hv) & Htok & H0 & Hsl). set (c := s.(current)) in *.
  set (t1 := ktimer_init s.(timers_of) (t_sleep c) wake_action c TF_STATIC).
  assert (forall q, q <> t_sleep c -> t1.(tmem) !! q = s.(timers_of).(tmem) !! q) as Hot
    by (intros q Hq; unfold t1, ktimer_init, tput; simpl; apply lookup_insert_ne; congruence).
  assert (forall q, q ∈ s.(timers_of).(active) -> q <> t_sleep c) as Hqc by (intros q Hq ->; contradiction).
  assert (timers_ok t1) as Htok1.
  { destruct Htok as (Hn1 & Hn2 & Hn3). split; [exact Hn1|]. split.
    - eapply StronglySorted_ext; [|exact Hn2]. intros a b Ha Hb. unfold expires_of.
      change (active t1) with (active (timers_of s)) in *. rewrite !Hot by (apply Hqc; assumption). auto.
    - intros q Hq. rewrite Hot by (apply Hqc, Hq). auto. }
  destruct (start_spec t1 (t_sleep c) n (Timer wake_action c (expires_of s.(timers_of).(tmem) (t_sleep c)) (Z.land TF_STATIC (~% TF_ARMED))))
    as (t2 & Es & Htok2 & Hact & Hexp & Htc & Hoth); auto; [apply lookup_insert_eq | lia |].
  destruct (start_tmem t1 t2 (t_sleep c) n 0 _ (lookup_insert_eq _ _ _) Es) as (e & f & Hmem). simpl in Hmem.
  apply NoDup_cons in Hnd as [Hc Hnd]. apply Forall_cons in Hv as [Hvc Hv].
  destruct (valid_lookup s c Hvc) as (a & Hc0 & Ha).
  set (s2 := set_procs (set_timers (set_timers s t1) t2) (<[Z.to_nat c := p_state a PROC_INTERRUPTIBLE]> s.(proctab))).
  assert (valid s2 = valid s) as Hval2 by (unfold valid, s2; simpl; rewrite length_insert; reflexivity).
  destruct (schedule_run s2) as (c' & q & t & E & Hp & Ht & _); [exact Hne | exact Hnd | rewrite Hval2; exact Hv |].
  set (s3 := set_current _ c') in E.
  assert (valid s3 = valid s) as Hval3 by (unfold valid, s3; simpl; rewrite Ht; unfold s2; simpl; rewrite length_insert; reflexivity).
  assert (c' :: q ++ s.(zombies) ≡ₚ s.(ready_queue) ++ s.(zombies)) as Hp3
    by (change (c' :: q ++ zombies s) with ((c' :: q) ++ zombies s); rewrite Hp; reflexivity).
  exists s3. split; [|split; [|split; [|split; [|split]]]].
  - unfold sys_sleep. erewrite bind_ok by reflexivity. cbv beta. erewrite bind_ok by reflexivity.
    erewrite bind_ok; [| unfold on_timers; simpl; fold c t1; rewrite Es; reflexivity]. cbv beta.
    erewrite bind_ok; [| exact (upd_run (set_timers (set_timers s t1) t2) c _ a Hc0 Ha)].
    erewrite bind_ok; [| exact E]. reflexivity.
  - split; [split; [change (NoDup (c' :: q ++ s.(zombies))) | change (Forall (valid s3) (c' :: q ++ s.(zombies)))]|split; [|split]].
    + rewrite Hp3. exact Hnd.
    + rewrite Hval3, Hp3. exact Hv.
    + exact Htok2.
    + change (0 <= tick_count t2). rewrite Htc. exact H0.
    + change (timers_of s3) with t2. intros y Hy. rewrite Hact in Hy. apply elem_of_cons in Hy as [-> | Hy].
      * eexists c, _. split; [reflexivity|]. split; [exact Hmem|]. split; [reflexivity|]. split; [reflexivity|].
        split; [rewrite Hval3; exact Hvc|]. change (c ∉ c' :: q ++ s.(zombies)). rewrite Hp3. exact Hc.
      * destruct (Hsl y Hy) as (p & x & -> & Hx & Ha' & Hd & Hvp & Hnp). exists p, x. split; [reflexivity|].
        split; [rewrite Hoth, Hot by (apply Hqc, Hy); exact Hx|]. split; [exact Ha'|]. split; [exact Hd|].
        split; [rewrite Hval3; exact Hvp|]. change (p ∉ c' :: q ++ s.(zombies)). rewrite Hp3. intros Hin. apply Hnp. right. exact Hin.
  - change (timers_of s3) with t2. rewrite Hact. left.
  - exact Htc.
  - exact Hexp.
  - change (timers_of s3) with t2. intros q' Hq. split; [rewrite Hact; right; exact Hq|]. unfold expires_of. rewrite Hoth, Hot by (apply Hqc, Hq). reflexivity.
Qed.

(** The timer of a sleeping process is untouched by events before it expires. *)
Lemma events_run (p lim : Z) (l : list event) :
  forall s : k, sleepers_ok s -> t_sleep p ∈ s.(timers_of).(active) -> Forall (event_ok lim) l ->
  s.(timers_of).(tick_count) + tick_no l <= lim -> lim < 2 ^ 32 ->
  s.(timers_of).(tick_count) + tick_no l < expires_of s.(timers_of).(tmem) (t_sleep p) ->
  exists s', events l s = Ok (tt, s') /\ sleepers_ok s' /\ t_sleep p ∈ s'.(timers_of).(active) /\
    s'.(timers_of).(tick_count) = s.(timers_of).(tick_count) + tick_no l /\
    expires_of s'.(timers_of).(tmem) (t_sleep p) = expires_of s.(timers_of).(tmem) (t_sleep p).
Proof.
  induction l as [| e l IH]; intros s Hok Hp Hl Hlim Hw He; [exists s; change (tick_no []) with 0; rewrite Z.add_0_r; auto|].
  apply Forall_cons in Hl as [Hev Hl]. set (d := match e with ETick => 1 | _ => 0 end).
  assert (tick_no (e :: l) = d + tick_no l) as Hd by (unfold tick_no, d; destruct e; simpl; lia).
  assert (0 <= tick_no l) as Hnn by (unfold tick_no; lia). rewrite Hd in *. clear Hd.
  assert (exists s1, event_run e s = Ok (tt, s1) /\ sleepers_ok s1 /\ t_sleep p ∈ s1.(timers_of).(active) /\
    s1.(timers_of).(tick_count) = s.(timers_of).(tick_count) + d /\
    expires_of s1.(timers_of).(tmem) (t_sleep p) = expires_of s.(timers_of).(tmem) (t_sleep p)) as (s1 & E1 & Hok1 & Hp1 & Ht1 & He1).
  { destruct e as [| | m]; cbn [event_run event_ok d] in *.
    - destruct (tick_run s Hok ltac:(lia)) as (s1 & E1 & Hok1 & Ht1 & H1). specialize (H1 p Hp).
      rewrite (proj2 (Z.leb_gt _ _)) in H1 by lia. destruct H1 as [Hp1 He1]. exists s1. auto.
    - destruct (switch_sleepers s Hok) as (s1 & E1 & Hok1 & Ht1 & _). exists s1. rewrite Ht1, Z.add_0_r. auto.
    - case_bool_decide as Eq; [exists s; rewrite Z.add_0_r; auto|].
      destruct (sys_sleep_run s m Hok Eq) as (s1 & E1 & Hok1 & _ & Ht1 & _ & Hk); [lia | lia |].
      destruct (Hk _ Hp) as [Hp1 He1]. exists s1. rewrite Z.add_0_r. auto. }
  destruct (IH s1 Hok1 Hp1 Hl) as (s' & E & Hok' & Hp' & Ht' & He'); [lia | exact Hw | lia |].
  exists s'. cbn [events]. split; [erewrite bind_ok; [exact E | exact E1]|]. split; [exact Hok'|]. split; [exact Hp'|].
  split; [lia | congruence].
Qed.

Lemma sleeper_queued (s : k) (p : Z) : sleepers_ok s -> t_sleep p ∈ s.(timers_of).(active) -> p ∉ runnable s ++ s.(zombies).
Proof.
  intros (_ & _ & _ & H) Hin. destruct (H _ Hin) as (q & x & Ep & _ & _ & _ & _ & Hn).
  apply (f_equal sleeper) in Ep. rewrite !sleeper_of in Ep. subst q. exact Hn.
Qed.

(** C33: a process calls sleep for [n] ticks in a state in which only sleeping
    processes have timers, another process is ready and the count of ticks does not
    wrap around before the end.  After any sequence of timer interrupts and of calls
    of yield and sleep by whichever process runs then, with fewer than [n] interrupts,
    it is on no queue; if there were [n - 1] of them, the next interrupt makes it
    runnable with the result 0.  Calls that send it a signal are not among these
    events: they end a sleep early. *)
Theorem sleep_wakes_on_time (s : k) (n : Z) (l : list event) :
  sleepers_ok s -> s.(ready_queue) <> [] -> s.(timers_of).(tick_count) + n < 2 ^ 32 ->
  Forall (event_ok (s.(timers_of).(tick_count) + n)) l -> tick_no l < n ->
  exists s1 s2, sys_sleep n s = Ok (tt, s1) /\ events l s1 = Ok (tt, s2) /\ sleepers_ok s2 /\
    s.(current) ∉ runnable s2 ++ s2.(zombies) /\
    (tick_no l = n - 1 -> exists s3, tick s2 = Ok (tt, s3) /\ sleepers_ok s3 /\
       s.(current) ∈ runnable s3 /\ rcs s3 !! Z.to_nat s.(current) = Some 0).
Proof.
  intros Hok Hne Hw Hl Hn. assert (0 <= s.(timers_of).(tick_count)) as Hge by apply Hok. assert (0 <= tick_no l) as Hnn by (unfold tick_no; lia).
  destruct (sys_sleep_run s n Hok Hne) as (s1 & E1 & Hok1 & Hp1 & Ht1 & He1 & _); [lia | exact Hw |].
  destruct (events_run s.(current) (s.(timers_of).(tick_count) + n) l s1 Hok1 Hp1 Hl) as (s2 & E2 & Hok2 & Hp2 & Ht2 & He2); [lia | exact Hw | lia |].
  exists s1, s2. split; [exact E1|]. split; [exact E2|]. split; [exact Hok2|]. split; [exact (sleeper_queued s2 _ Hok2 Hp2)|]. intros Hlast.
  destruct (tick_run s2 Hok2 ltac:(lia)) as (s3 & E3 & Hok3 & _ & H3). specialize (H3 _ Hp2).
  rewrite (proj2 (Z.leb_le _ _)) in H3 by lia. exists s3. auto.
Qed.

End sleeping.

(** ** Examples *)

(** Process 1 runs, the idle process 256 and process 2 are ready, and process 3
    sleeps until tick 4. *)
Definition kst_sleep : kst time_env := {|
  proctab := [blank_pcb 256 PROC_READY; blank_pcb 1 PROC_READY; blank_pcb 2 PROC_READY; blank_pcb 3 PROC_INTERRUPTIBLE];
  current := 1;
  ready_queue := [0; 2];
  zombies := [];
  idle_pid := 256;
  timers_of := Timers (<[7 := Timer wake_action 3 4 6]> ∅) [7] 2;
  umem := ∅;
  env := TimeEnv ∅ ∅ 1000;
|}.

Lemma kst_sleep_ok : sleepers_ok kst_sleep.
Proof.
  split; [split|split; [|split]].
  - apply (bool_decide_unpack (NoDup _)). vm_compute. exact I.
  - unfold valid. simpl. repeat constructor; lia.
  - split; [apply NoDup_singleton|]. split; [repeat constructor|].
    intros p Hp. apply list_elem_of_singleton in Hp as ->. eexists. split; [reflexivity | discriminate].
  - simpl. lia.
  - intros t Ht. apply list_elem_of_singleton in Ht as ->. eexists 3, _. split; [reflexivity|]. split; [reflexivity|].
    split; [reflexivity|]. split; [reflexivity|]. split; [unfold valid; simpl; lia|].
    apply (bool_decide_unpack (3 ∉ _)). vm_compute. exact I.
Qed.

(** Process 1 sleeps for three ticks; process 2 sleeps too, after two interrupts and
    a yield. *)
Lemma sleep_wakes_on_time_witness :
  exists s1 s2 s3, sys_sleep 3 kst_sleep = Ok (tt, s1) /\ events [ETick; EYield; ETick; ESleep 7] s1 = Ok (tt, s2) /\ tick s2 = Ok (tt, s3) /\
    1 ∉ runnable s2 ++ s2.(zombies) /\ 1 ∈ runnable s3 /\ rcs s3 !! 1%nat = Some 0.
Proof.
  destruct (sleep_wakes_on_time kst_sleep 3 [ETick; EYield; ETick; ESleep 7] kst_sleep_ok) as (s1 & s2 & E1 & E2 & _ & H2 & H3);
    [discriminate | simpl; lia | repeat constructor; simpl; lia | vm_compute; reflexivity |].
  destruct (H3 ltac:(vm_compute; reflexivity)) as (s3 & E3 & _ & H4 & H5). exists s1, s2, s3.
  split_and!; [exact E1 | exact E2 | exact E3 | exact H2 | exact H4 | exact H5].
Defined.

(** A signal to the sleeping process wakes it before its time. *)
Lemma sleep_signalled :
  match sys_sleep 3 kst_sleep with
  | Ok (_, s) => match __kill 1 SIGALRM 0 s with Ok (_, s) => bool_decide (1 ∈ runnable s) = true /\ s.(timers_of).(active) = [7; 3] | _ => False end
  | _ => False
  end.
Proof. vm_compute. auto. Qed.

(** ** Where the code disagrees with its purpose *)

(** Process 1 owns the POSIX timer 9, armed until tick 3. *)
Definition kst_posix (c : Z) : kst time_env := {|
  proctab := [blank_pcb 256 PROC_READY; p_timers (blank_pcb 1 PROC_READY) [9] 1; blank_pcb 2 PROC_READY];
  current := c;
  ready_queue := [0];
  zombies := [];
  idle_pid := 256;
  timers_of := Timers (<[- 9 := Timer posix_timer_action 9 3 6]> ∅) [- 9] 2;
  umem := ∅;
  env := TimeEnv (<[9 := PosixTimer (Sigevent SIGEV_SIGNAL SIGALRM 77 0) (Itimerspec (Timespec 0 0) (Timespec 0 0)) 1 0]> ∅)
           (<[timer_bucket 0 := [9]]> ∅) 1000;
|}.

(** A deleted timer is still armed, and its expiry uses what has been freed. *)
Lemma timer_delete_leaves_armed :
  match sys_timer_delete 0 (kst_posix 1) with
  | Ok (r, s) => r = 0 /\ s.(timers_of).(active) = [- 9] /\ tick s = Fault
  | _ => False
  end.
Proof. vm_compute. auto. Qed.

(** The value of an expired timer is stored for the process that happens to run. *)
Lemma timer_value_misplaced :
  match posix_timer_expired 9 (kst_posix 2) with
  | Ok (_, s) => (fun a => si_value <$> a.(sig).(infos) !! Z.to_nat SIGALRM) <$> s.(proctab) = [Some 0; Some 0; Some 77]
  | _ => False
  end.
Proof. vm_compute. auto. Qed.

(** [ticks_to_timespec] loses the seconds. *)
Lemma ticks_to_timespec_seconds : ticks_to_timespec (Timespec 0 0) 250 = Timespec 0 500000000.
Proof. reflexivity. Qed.
