(* ===== verification/Block.v ===== *)
(** * Block devices and the buffer cache

    fs/buffer.c, drivers/block/rw_block.c, drivers/block/block.h,
    drivers/block/bootmod.c and the part of include/kernel/fs.h on buffers.

    A buffer holds one block of one device in a page of its own.  [bufs], [bpages]
    and [bios] are the memory of buffers, of their pages and of I/O vectors, by
    address; the hash table maps a bucket number to the buffers of the bucket, most
    recent first.  Function pointers are numbers: a driver table entry is 0 or
    [mod_get_device_p], the only driver there is, and a device's request handler 0
    or [mod_handle_request_p].

    The driver completes a request before it returns.  A buffer is therefore
    unlocked whenever code outside this file runs, and [buffer_wait] of a locked
    buffer, where the caller would sleep, is a [Fault] of the model.

    The slab caches, the page allocator and the heap are parameters that yield a
    free address and the contents it happens to have. *)

From S2P Require Import Prelude Abi Bitops Vma Sched Vfs Super.

(** ** Constants *)

Definition BUF_UPTODATE : Z := 1.
Definition BUF_DIRTY : Z := 2.
Definition READ : Z := 1.
Definition WRITE : Z := 2.
Definition SECTOR_SIZE : Z := 512.
Definition MAX_MODDEV : Z := 16.
Definition SMALL_BIO_MAX : Z := 8.

Definition mod_get_device_p : Z := 1.
Definition mod_handle_request_p : Z := 1.

(** ** Data *)

(** Without [b_chain], which is not used, and [b_wait], on which no one sleeps. *)
Record buffer : Type := Buffer {
  b_data : Z;
  b_dev : Z;
  b_size : Z;
  b_blocknr : Z;
  b_flags : Z;
  b_count : Z;
  b_lock : bool;
}.

Record request : Type := Request {
  rq_rw : Z;
  rq_sector : Z;
  rq_nr_sectors : Z;
  rq_mem : Z;
  rq_buf : Z;
}.

Record block_device : Type := BlockDevice {
  requests : list request;
  dv_handle_request : Z;
  blksize : Z;
  sectors : Z;
  dv_private : Z;
}.

(** [md_bytes] are the bytes at [md_mem]. *)
Record mod_device : Type := ModDevice {
  md_mem : Z;
  md_len : Z;
  md_bytes : list Z;
}.

Record bio_vec : Type := BioVec {
  v_dev : Z;
  v_blkcnt : Z;
  v_blksize : Z;
  v_block : list Z;
}.

(** The static variables of the four files and the memory they use. *)
Record blk : Type := Blk {
  bufs : gmap Z buffer;
  bpages : gmap Z (list Z);
  ht_blocks : gmap Z (list Z);
  bios : gmap Z bio_vec;
  moddev : list mod_device;
  modblk : list block_device;
  blkdev : list Z;
}.

Definition set_bufs (s : blk) (m : gmap Z buffer) : blk :=
  Blk m s.(bpages) s.(ht_blocks) s.(bios) s.(moddev) s.(modblk) s.(blkdev).
Definition set_bpages (s : blk) (m : gmap Z (list Z)) : blk :=
  Blk s.(bufs) m s.(ht_blocks) s.(bios) s.(moddev) s.(modblk) s.(blkdev).
Definition set_ht (s : blk) (h : gmap Z (list Z)) : blk :=
  Blk s.(bufs) s.(bpages) h s.(bios) s.(moddev) s.(modblk) s.(blkdev).
Definition set_bios (s : blk) (m : gmap Z bio_vec) : blk :=
  Blk s.(bufs) s.(bpages) s.(ht_blocks) m s.(moddev) s.(modblk) s.(blkdev).
Definition set_moddev (s : blk) (l : list mod_device) : blk :=
  Blk s.(bufs) s.(bpages) s.(ht_blocks) s.(bios) l s.(modblk) s.(blkdev).
Definition set_modblk (s : blk) (l : list block_device) : blk :=
  Blk s.(bufs) s.(bpages) s.(ht_blocks) s.(bios) s.(moddev) l s.(blkdev).
Definition set_blkdev (s : blk) (l : list Z) : blk :=
  Blk s.(bufs) s.(bpages) s.(ht_blocks) s.(bios) s.(moddev) s.(modblk) l.

Definition b_set_flags (b : buffer) (v : Z) : buffer :=
  Buffer b.(b_data) b.(b_dev) b.(b_size) b.(b_blocknr) v b.(b_count) b.(b_lock).
Definition b_set_count (b : buffer) (v : Z) : buffer :=
  Buffer b.(b_data) b.(b_dev) b.(b_size) b.(b_blocknr) b.(b_flags) v b.(b_lock).
Definition b_set_lock (b : buffer) (v : bool) : buffer :=
  Buffer b.(b_data) b.(b_dev) b.(b_size) b.(b_blocknr) b.(b_flags) b.(b_count) v.

Definition dv_set_requests (d : block_device) (l : list request) : block_device :=
  BlockDevice l d.(dv_handle_request) d.(blksize) d.(sectors) d.(dv_private).
Definition dv_set_blksize (d : block_device) (v : Z) : block_device :=
  BlockDevice d.(requests) d.(dv_handle_request) v d.(sectors) d.(dv_private).

(** Allocation: [None] is failure. *)
Class BlkEnv : Type := {
  buffer_cachep : gmap Z buffer -> option Z;
  page_alloc : gmap Z (list Z) -> option (Z * list Z);
  request_cachep : blk -> bool;
  bio_alloc : Z -> gmap Z bio_vec -> option (Z * (Z -> Z));
}.

(** ** block.h *)

(** [ilog2] of a value that is not a constant. *)
Definition ilog2 (n : Z) : Z := __ilog2_u32 n.

Definition io_block_start (blksize off : Z) : Z := s32 (Z.land off (Z.lnot (blksize - 1))).

Definition io_block_off (blksize off : Z) : Z := off -% io_block_start blksize off.

Definition io_block_to_off (blksize blocknr : Z) : Z := s32 (Z.shiftl blocknr (ilog2 blksize)).

Definition io_off_to_block (blksize off : Z) : Z := Z.shiftr (s32 off) (ilog2 blksize).

Definition io_block_count (blksize off len : Z) : Z :=
  let len := (off +% len) -% io_block_start blksize off in
  s32 (Z.shiftr (u32 (len + blksize - 1)) (ilog2 blksize)).

Definition request_queue_empty (d : block_device) : bool :=
  match d.(requests) with
  | [] => true
  | _ => false
  end.

Definition INIT_BLOCK_DEVICE (d : block_device) (handle_request blksize sectors : Z) : block_device :=
  BlockDevice [] handle_request blksize sectors d.(dv_private).

(** [memcpy(dst + doff, src + soff, n)] *)
Definition memcpy_at (dst : list Z) (doff : Z) (src : list Z) (soff n : Z) : res (list Z) :=
  if (0 <=? doff) && (0 <=? soff) && (doff + n <=? Z.of_nat (length dst)) && (soff + n <=? Z.of_nat (length src))
  then Ok (splice (Z.to_nat doff) (take (Z.to_nat n) (drop (Z.to_nat soff) src)) dst)
  else Fault.

(** [memset(dst + doff, 0, n)] *)
Definition memzero_at (dst : list Z) (doff n : Z) : res (list Z) :=
  if (0 <=? doff) && (doff + n <=? Z.of_nat (length dst))
  then Ok (splice (Z.to_nat doff) (replicate (Z.to_nat n) 0) dst)
  else Fault.

Section block.

Context `{E : BlkEnv}.

Abbreviation B := (ST blk).

(** ** Access through pointers *)

Definition bufload (a : Z) : B buffer := fun s =>
  match s.(bufs) !! a with
  | Some b => Ok (b, s)
  | None => Fault
  end.

Definition bufupd (a : Z) (f : buffer -> buffer) : B unit :=
  b ← bufload a;
  modify (fun s => set_bufs s (<[a := f b]> s.(bufs))).

Definition pgload (a : Z) : B (list Z) := fun s =>
  match s.(bpages) !! a with
  | Some p => Ok (p, s)
  | None => Fault
  end.

Definition pgstore (a : Z) (p : list Z) : B unit := modify (fun s => set_bpages s (<[a := p]> s.(bpages))).

Definition bioload (a : Z) : B bio_vec := fun s =>
  match s.(bios) !! a with
  | Some v => Ok (v, s)
  | None => Fault
  end.

Definition dvload (d : Z) : B block_device := l ← gets modblk; st_res (aload l d).

Definition dvupd (d : Z) (f : block_device -> block_device) : B unit :=
  l ← gets modblk;
  dv ← st_res (aload l d);
  l ← st_res (astore l d (f dv));
  modify (fun s => set_modblk s l).

(** ** Buffers and requests *)

Definition release_buffer (a : Z) : B unit :=
  if a =? 0 then mret tt
  else bufupd a (fun b => b_set_count b (u16 (b.(b_count) - 1))).

Definition buffer_wait (a : Z) : B unit :=
  b ← bufload a; if b.(b_lock) then fault else mret tt.

Definition buffer_lock (a : Z) : B unit :=
  buffer_wait a ;; bufupd a (fun b => b_set_lock b true).

Definition buffer_unlock (a : Z) : B unit := bufupd a (fun b => b_set_lock b false).

Definition NR_SECTORS (b : buffer) : Z := Z.quot b.(b_size) SECTOR_SIZE.

Definition SECTOR (b : buffer) : Z := s32 (b.(b_blocknr) * NR_SECTORS b).

Definition make_request (rw a : Z) : B request :=
  ok ← gets request_cachep;
  if negb ok then panic
  else
    b ← bufload a;
    bufupd a (fun b => b_set_count b (u16 (b.(b_count) + 1))) ;;
    mret (Request rw (SECTOR b) (NR_SECTORS b) b.(b_data) a).

(** The driver's [get_device]: an index into [modblk], or [None] for [NULL]. *)
Definition mod_get_device (minor : Z) : B (option Z) :=
  l ← gets moddev;
  m ← st_res (aload l minor);
  mret (if m.(md_mem) =? 0 then None else Some minor).

Definition get_device (dev : Z) : B (option Z) :=
  l ← gets blkdev;
  g ← st_res (aload l (major dev));
  if g =? mod_get_device_p then mod_get_device (minor dev) else fault.

(** Signals the completion of a request; [handle] is the handler of the device,
    which gets the next request of the queue. *)
Definition block_request_completed (handle : Z -> request -> B unit) (d : Z) (req : request) : B unit :=
  bufupd req.(rq_buf) (fun b => b_set_flags b (Z.lor b.(b_flags) BUF_UPTODATE)) ;;
  release_buffer req.(rq_buf) ;;
  buffer_unlock req.(rq_buf) ;;
  dv ← dvload d;
  match dv.(requests) with
  | [] => mret tt
  | r :: l =>
      dvupd d (fun dv => dv_set_requests dv l) ;;
      if dv.(dv_handle_request) =? mod_handle_request_p then handle d r else fault
  end.

(** The request handler of boot modules.  [fuel] bounds the requests served, at
    most one more than the queue holds. *)
Fixpoint handle_request (fuel : nat) (d : Z) (req : request) : B unit :=
  match fuel with
  | O => fault
  | S fuel =>
      dv ← dvload d;
      l ← gets moddev;
      dev ← st_res (aload l dv.(dv_private));
      let off := s32 (req.(rq_sector) * SECTOR_SIZE) in
      let req_size := s32 (req.(rq_nr_sectors) * SECTOR_SIZE) in
      let len := Z.min req_size (s32 (dev.(md_len) - off)) in
      mem ← pgload req.(rq_mem);
      (if req.(rq_rw) =? READ then
         mem ← st_res (memcpy_at mem 0 dev.(md_bytes) off (u32 len));
         mem ← (if len =? req_size then mret mem else st_res (memzero_at mem len (req_size - len)));
         pgstore req.(rq_mem) mem
       else
         bytes ← st_res (memcpy_at dev.(md_bytes) off mem 0 (u32 len));
         l ← st_res (astore l dv.(dv_private) (ModDevice dev.(md_mem) dev.(md_len) bytes));
         modify (fun s => set_moddev s l)) ;;
      block_request_completed (handle_request fuel) d req
  end.

Definition submit_block (rw a : Z) : B Z :=
  b ← bufload a;
  d ← get_device b.(b_dev);
  req ← make_request rw a;
  buffer_lock a ;;
  match d with
  | None => fault
  | Some d =>
      dv ← dvload d;
      if request_queue_empty dv then
        (if dv.(dv_handle_request) =? mod_handle_request_p
         then handle_request (S (length dv.(requests))) d req else fault) ;;
        mret 0
      else dvupd d (fun dv => dv_set_requests dv (dv.(requests) ++ [req])) ;; mret 0
  end.

(** ** The buffer cache *)

Definition buffer_key (dev block size : Z) : Z := s32 (dev + block).

Definition buffer_bucket (key : Z) : Z := hash_32 (u32 key) 9.

(** A buffer of this block with another size is reported on the console and
    passed over. *)
Fixpoint find_in_chain (dev block size : Z) (l : list Z) : B Z :=
  match l with
  | [] => mret 0
  | a :: l =>
      b ← bufload a;
      if (b.(b_dev) =? dev) && (b.(b_blocknr) =? block) && (b.(b_size) =? size)
      then mret a else find_in_chain dev block size l
  end.

Definition find_buffer (dev block size : Z) : B Z :=
  h ← gets ht_blocks;
  find_in_chain dev block size (default [] (h !! buffer_bucket (buffer_key dev block size))).

Definition make_buffer (dev block size : Z) : B Z :=
  s ← gets id;
  match buffer_cachep s.(bufs) with
  | None => mret 0
  | Some a =>
      match page_alloc s.(bpages) with
      | None => mret 0
      | Some (p, junk) =>
          pgstore p junk ;;
          modify (fun s => set_bufs s (<[a := Buffer p dev size block 0 1 false]> s.(bufs))) ;;
          let k := buffer_bucket (buffer_key dev block size) in
          modify (fun s => set_ht s (<[k := a :: default [] (s.(ht_blocks) !! k)]> s.(ht_blocks))) ;;
          mret a
      end
  end.

Definition get_buffer (dev block size : Z) : B Z :=
  a ← find_buffer dev block size;
  if negb (a =? 0) then mret a else make_buffer dev block size.

Definition read_buffer (a : Z) : B Z :=
  b ← bufload a;
  (if flag_set b.(b_flags) BUF_UPTODATE then mret tt
   else _ ← submit_block READ a; buffer_wait a) ;;
  mret a.

Definition read_block (dev block size : Z) : B Z :=
  a ← get_buffer dev block size;
  if a =? 0 then mret 0 else read_buffer a.

Definition flush_buffer (a : Z) : B unit :=
  b ← bufload a;
  if flag_set b.(b_flags) BUF_DIRTY then _ ← submit_block WRITE a; buffer_wait a else mret tt.

(** [hash_del] runs after the object is freed, on links that [slab_free] leaves
    as they are. *)
Definition free_buffer (a : Z) : B unit :=
  b ← bufload a;
  if negb (b.(b_count) =? 0) then panic
  else
    modify (fun s => set_bpages s (delete b.(b_data) s.(bpages))) ;;
    modify (fun s => set_bufs s (delete a s.(bufs))) ;;
    modify (fun s => set_ht s (without a <$> s.(ht_blocks))).

(** One bucket of the loop of [free_device_buffers]. *)
Fixpoint free_chain (dev : Z) (l : list Z) : B Z :=
  match l with
  | [] => mret 0
  | a :: l =>
      b ← bufload a;
      if negb (b.(b_dev) =? dev) then free_chain dev l
      else
        (if b.(b_lock) then buffer_wait a else mret tt) ;;
        b ← bufload a;
        if negb (b.(b_count) =? 0) then mret (- EBUSY)
        else flush_buffer a ;; free_buffer a ;; free_chain dev l
  end.

Fixpoint free_buckets (dev : Z) (ks : list Z) : B Z :=
  match ks with
  | [] => mret 0
  | k :: ks =>
      h ← gets ht_blocks;
      r ← free_chain dev (default [] (h !! k));
      if negb (r =? 0) then mret r else free_buckets dev ks
  end.

Definition free_device_buffers (dev : Z) : B Z := free_buckets dev (zseq 0 512).

(** One bucket of the loop of [clear_buffer_cache]. *)
Definition clear_one (a : Z) : B unit :=
  b ← bufload a;
  if b.(b_lock) || (0 <? b.(b_count)) then mret tt else flush_buffer a ;; free_buffer a.

Definition clear_buffer_cache : B unit :=
  for_each (zseq 0 512) (fun k => h ← gets ht_blocks; for_each (default [] (h !! k)) clear_one).

(** ** Block sizes *)

Definition blkdev_blksize (devno : Z) : B Z :=
  d ← get_device devno;
  match d with
  | None => mret (-1)
  | Some d => dv ← dvload d; mret dv.(blksize)
  end.

Definition valid_blksize (size : Z) : bool := (size =? 512) || (size =? 1024) || (size =? 2048) || (size =? 4096).

Definition set_blocksize (devno size : Z) : B Z :=
  if negb (valid_blksize size) then panic
  else
    d ← get_device devno;
    match d with
    | None => mret (- ENODEV)
    | Some d =>
        dv ← dvload d;
        if dv.(blksize) =? size then mret 0
        else
          error ← free_device_buffers devno;
          if negb (error =? 0) then mret error
          else dvupd d (fun dv => dv_set_blksize dv size) ;; mret 0
    end.

(** ** I/O vectors *)

Definition BIO_VEC_SIZE (blkcnt : Z) : Z := u32 (12 + 4 * blkcnt).

(** A small vector has room for [SMALL_BIO_MAX] blocks, a large one for as many as
    the requested size holds.  A null pointer from the allocator is dereferenced. *)
Definition alloc_bio_vec (dev blkcnt blksize : Z) : B Z :=
  let size := if blkcnt <=? SMALL_BIO_MAX then BIO_VEC_SIZE SMALL_BIO_MAX else BIO_VEC_SIZE blkcnt in
  m ← gets bios;
  match bio_alloc size m with
  | None => fault
  | Some (a, junk) =>
      modify (fun s => set_bios s (<[a := BioVec dev blkcnt blksize (junk <$> zseq 0 (Z.to_nat ((size - 12) / 4)))]> s.(bios))) ;;
      mret a
  end.

Definition free_bio_vec (a : Z) : B unit :=
  _ ← bioload a;
  modify (fun s => set_bios s (delete a s.(bios))).

(** [bio->block[i] = x] *)
Definition bio_set (a i x : Z) : B unit :=
  v ← bioload a;
  l ← st_res (astore v.(v_block) i x);
  modify (fun s => set_bios s (<[a := BioVec v.(v_dev) v.(v_blkcnt) v.(v_blksize) l]> s.(bios))).

(** I/O within one block: the loop body up to the counts. *)
Definition block_io (vec : bio_vec) (iobuf : list Z) (rw b nr start end_ : Z) : B (list Z) :=
  bl ← st_res (aload vec.(v_block) b);
  a ← read_block vec.(v_dev) bl vec.(v_blksize);
  bf ← bufload a;
  page ← pgload bf.(b_data);
  iobuf ← (if rw =? READ then st_res (memcpy_at iobuf nr page start (u32 (end_ - start)))
           else
             page ← st_res (memcpy_at page start iobuf nr (u32 (end_ - start)));
             pgstore bf.(b_data) page ;;
             bufupd a (fun b => b_set_flags b (Z.lor b.(b_flags) BUF_DIRTY)) ;;
             mret iobuf);
  release_buffer a ;;
  mret iobuf.

(** The loop of [bio_do_io] over [n] blocks from the [b]-th. *)
Fixpoint io_loop (n : nat) (vec : bio_vec) (iobuf : list Z) (len rw b nr start end_ : Z) : B (Z * list Z) :=
  match n with
  | O => mret (nr, iobuf)
  | S n =>
      iobuf ← block_io vec iobuf rw b nr start end_;
      let nr := nr +% (end_ - start) in
      io_loop n vec iobuf len rw (b + 1) nr 0 (s32 (Z.min (u32 vec.(v_blksize)) (len -% nr)))
  end.

(** Returns the number of bytes and the contents of [iobuf]. *)
Definition bio_do_io (a : Z) (iobuf : list Z) (len pos rw : Z) : B (Z * list Z) :=
  vec ← bioload a;
  let blocks := io_block_count vec.(v_blksize) pos len in
  let first_block := io_off_to_block vec.(v_blksize) pos in
  let start := s32 (io_block_off vec.(v_blksize) pos) in
  let end_ := s32 (Z.min (u32 vec.(v_blksize)) (start +% len)) in
  r ← io_loop (Z.to_nat blocks) vec iobuf len rw first_block 0 start end_;
  mret (s32 r.1, r.2).

(** The two functions return the new [*pos] too. *)
Definition bio_read (a : Z) (iobuf : list Z) (len pos : Z) : B (Z * list Z * Z) :=
  r ← bio_do_io a iobuf len pos READ;
  mret (if r.1 <? 0 then (r, pos) else (r, pos +% r.1)).

Definition bio_write (a : Z) (iobuf : list Z) (len pos : Z) : B (Z * list Z * Z) :=
  r ← bio_do_io a iobuf len pos WRITE;
  mret (if r.1 <? 0 then (r, pos) else (r, pos +% r.1)).

(** [for (i = 0; i < count; i++) bio->block[i] = first + i] *)
Definition fill_sequential (a first count : Z) : B unit :=
  for_each (zseq 0 (Z.to_nat count)) (fun i => bio_set a i (s32 (first + i))).

Definition blkdev_generic_io (rdev : Z) (iobuf : list Z) (len pos rw : Z) : B (Z * list Z * Z) :=
  d ← get_device rdev;
  match d with
  | None => fault
  | Some d =>
      dv ← dvload d;
      let len := Z.min len (u32 (s32 (dv.(sectors) * SECTOR_SIZE) - pos)) in
      let count := io_block_count dv.(blksize) pos len in
      let first := io_off_to_block dv.(blksize) pos in
      let io_off := io_block_off dv.(blksize) pos in
      bio ← alloc_bio_vec rdev count dv.(blksize);
      fill_sequential bio first count ;;
      r ← bio_do_io bio iobuf len io_off rw;
      free_bio_vec bio ;;
      mret (r, if 0 <? r.1 then pos +% r.1 else pos)
  end.

Definition blkdev_read (dev : Z) (dst : list Z) (len pos : Z) : B (Z * list Z) :=
  r ← blkdev_generic_io dev dst len pos READ; mret r.1.

Definition blkdev_write (dev : Z) (src : list Z) (len pos : Z) : B (Z * list Z) :=
  r ← blkdev_generic_io dev src len pos WRITE; mret r.1.

(** ** Boot modules *)

Fixpoint free_moddev (l : list mod_device) (i : Z) : option Z :=
  match l with
  | [] => None
  | m :: l => if m.(md_mem) =? 0 then Some i else free_moddev l (i + 1)
  end.

(** A module given by the addresses of its start and end and its bytes. *)
Definition register_moddev (start end_ : Z) (bytes : list Z) : B Z :=
  l ← gets moddev;
  match free_moddev l 0 with
  | None => mret (-1)
  | Some i =>
      let size := end_ -% start in
      let n := s32 (size / SECTOR_SIZE) in
      let n := if size mod SECTOR_SIZE =? 0 then n else n + 1 in
      dvupd i (fun d => INIT_BLOCK_DEVICE d mod_handle_request_p SECTOR_SIZE n) ;;
      l ← st_res (astore l i (ModDevice start (s32 size) bytes));
      modify (fun s => set_moddev s l) ;;
      dvupd i (fun d => BlockDevice d.(requests) d.(dv_handle_request) d.(blksize) d.(sectors) i) ;;
      mret i
  end.

End block.

(** ** Block devices as files

    The block layer's state is part of the private data of the file systems. *)

Class HasBlk (P : Type) : Type := {
  blk_of : P -> blk;
  with_blk : P -> blk -> P;
}.

Definition blkdev_generic_fops_p : Z := 40.

Section files.

Context {P : Type} `{V : VfsEnv P} `{H : HasBlk P} `{E : BlkEnv}.

Abbreviation M := (ST (kst (vfs P))).

(** Runs block layer code. *)
Definition in_blk {A : Type} (m : ST blk A) : M A := fun s =>
  do ' (a, b) <- m (blk_of s.(env).(fdata));
  Ok (a, set_env s (set_fdata s.(env) (with_blk s.(env).(fdata) b))).

(** A read returns the result, the bytes read and the new position. *)
Definition read_result (r : Z * list Z * Z) : Z * list Z * Z := (r.1.1, take (Z.to_nat r.1.1) r.1.2, r.2).

Definition bio_file_read (file len pos : Z) : M (Z * list Z * Z) :=
  f ← fload file;
  i ← iload f.(f_inode);
  if i.(i_size) <? pos then mret (0, [], pos)
  else
    let len := Z.min len (i.(i_size) -% pos) in
    r ← in_blk (bio_read i.(i_bio) (replicate (Z.to_nat len) 0) len pos);
    mret (read_result r).

Definition blkdev_generic_read (file len pos : Z) : M (Z * list Z * Z) :=
  f ← fload file;
  r ← in_blk (blkdev_generic_io f.(f_rdev) (replicate (Z.to_nat len) 0) len pos READ);
  mret (read_result r).

Definition blkdev_generic_write (file : Z) (src : list Z) (pos : Z) : M (Z * Z) :=
  f ← fload file;
  r ← in_blk (blkdev_generic_io f.(f_rdev) src (Z.of_nat (length src)) pos WRITE);
  mret (r.1.1, r.2).

Definition blkdev_generic_open (inode file : Z) : M Z :=
  i ← iload inode;
  d ← in_blk (get_device i.(i_rdev));
  mret (match d with None => - ENXIO | Some _ => 0 end).

Definition blkdev_generic_fops : file_operations (kst (vfs P)) :=
  FileOps None (Some blkdev_generic_read) (Some blkdev_generic_write) None (Some blkdev_generic_open) None None.

Definition register_block_driver (maj : Z) (nm : list Z) (get_device fops : Z) : M unit :=
  in_blk (l ← gets blkdev; l ← st_res (astore l maj get_device); modify (fun s => set_blkdev s l)) ;;
  _ ← register_blkdev maj nm (if fops =? 0 then blkdev_generic_fops_p else fops);
  mret tt.

Fixpoint register_mods (mods : list (Z * Z * list Z)) : M unit :=
  match mods with
  | [] => mret tt
  | (start, end_, bytes) :: mods =>
      r ← in_blk (register_moddev start end_ bytes);
      if r <? 0 then mret tt else register_mods mods
  end.

(** [SYSINIT(modblk)], given the boot loader's list of modules; the name is "mod". *)
Definition modblk_init (mods : list (Z * Z * list Z)) : M unit :=
  register_block_driver MOD_MAJOR [109; 111; 100] mod_get_device_p 0 ;; register_mods mods.

End files.

(** ** Block arithmetic *)

Lemma valid_blksize_log (bs : Z) :
  valid_blksize bs = true -> exists k, 9 <= k <= 12 /\ bs = 2 ^ k /\ ilog2 bs = k.
Proof.
  unfold valid_blksize. intros H. apply orb_true_iff in H as [H | H]; [apply orb_true_iff in H as [H | H];
    [apply orb_true_iff in H as [H | H]|]|]; apply Z.eqb_eq in H; subst.
  - exists 9. repeat split; lia.
  - exists 10. repeat split; lia.
  - exists 11. repeat split; lia.
  - exists 12. repeat split; lia.
Qed.

Lemma valid_blksize_bounds (bs : Z) :
  valid_blksize bs = true -> 512 <= bs <= 4096 /\ bs mod 512 = 0.
Proof.
  unfold valid_blksize. intros H. rewrite !orb_true_iff, !Z.eqb_eq in H.
  destruct H as [[[H | H] | H] | H]; subst; split; reflexivity || lia.
Qed.

Lemma io_block_start_spec (bs off : Z) :
  valid_blksize bs = true -> 0 <= off < 2 ^ 31 -> io_block_start bs off = off - off mod bs.
Proof.
  intros Hb Ho. destruct (valid_blksize_log bs Hb) as (k & Hk & -> & _). unfold io_block_start.
  replace (2 ^ k - 1) with (Z.ones k) by (rewrite Z.ones_equiv; lia).
  rewrite <- Z.ldiff_land, Z.ldiff_ones_r, Z.shiftl_mul_pow2, Z.shiftr_div_pow2 by lia.
  pose proof (Z.div_mod off (2 ^ k) ltac:(lia)). pose proof (Z.mod_pos_bound off (2 ^ k) ltac:(lia)).
  pose proof (Z.mod_le off (2 ^ k) ltac:(lia) ltac:(lia)).
  replace (off / 2 ^ k * 2 ^ k) with (off - off mod 2 ^ k) by lia. apply sN_id; [lia|].
  change (2 ^ (32 - 1)) with (2 ^ 31). lia.
Qed.

Lemma io_block_off_spec (bs off : Z) :
  valid_blksize bs = true -> 0 <= off < 2 ^ 31 -> io_block_off bs off = off mod bs.
Proof.
  intros Hb Ho. unfold io_block_off. rewrite io_block_start_spec by assumption.
  pose proof (valid_blksize_bounds bs Hb) as [? _].
  replace (off - (off - off mod bs)) with (off mod bs) by lia.
  apply uN_id. pose proof (Z.mod_pos_bound off bs ltac:(lia)). lia.
Qed.

Lemma io_off_to_block_spec (bs off : Z) :
  valid_blksize bs = true -> 0 <= off < 2 ^ 31 -> io_off_to_block bs off = off / bs.
Proof.
  intros Hb Ho. unfold io_off_to_block. destruct (valid_blksize_log bs Hb) as (k & Hk & -> & ->).
  rewrite sN_id by (change (2 ^ (32 - 1)) with (2 ^ 31); lia). apply Z.shiftr_div_pow2. lia.
Qed.

Lemma io_block_count_spec (bs off len : Z) :
  valid_blksize bs = true -> 0 <= off -> 0 <= len -> off + len < 2 ^ 31 ->
  io_block_count bs off len = (off mod bs + len + bs - 1) / bs.
Proof.
  intros Hb Ho Hl Hs. unfold io_block_count. cbv zeta. rewrite io_block_start_spec by (auto; lia).
  destruct (valid_blksize_log bs Hb) as (k & Hk & E & ->).
  pose proof (valid_blksize_bounds bs Hb) as [? _].
  pose proof (Z.mod_pos_bound off bs ltac:(lia)).
  rewrite (uN_id 32 (off + len)) by lia.
  replace (off + len - (off - off mod bs)) with (off mod bs + len) by lia.
  assert (off mod bs <= off) by (apply Z.mod_le; lia).
  rewrite (uN_id 32 (off mod bs + len)) by lia. rewrite uN_id by lia.
  rewrite Z.shiftr_div_pow2, <- E by lia. apply sN_id; [lia|]. change (2 ^ (32 - 1)) with (2 ^ 31).
  assert (0 <= (off mod bs + len + bs - 1) / bs) by (apply Z.div_pos; lia).
  assert ((off mod bs + len + bs - 1) / bs < 2 ^ 31); [|lia]. apply Z.div_lt_upper_bound; nia.
Qed.

(** Block numbers and offsets are inverse to each other. *)
Lemma io_block_to_off_spec (bs bl : Z) :
  valid_blksize bs = true -> 0 <= bl -> bl * bs < 2 ^ 31 -> io_block_to_off bs bl = bl * bs.
Proof.
  intros Hb Ho Hs. unfold io_block_to_off. destruct (valid_blksize_log bs Hb) as (k & Hk & E & ->).
  rewrite Z.shiftl_mul_pow2, <- E by lia. pose proof (valid_blksize_bounds bs Hb) as [? _].
  apply sN_id; [lia|]. change (2 ^ (32 - 1)) with (2 ^ 31). nia.
Qed.


(** * The cache over the devices refines flat disks

    [refines D s]: device [i] reads as the bytes [D i], some of them held by
    buffers and the rest by the module's memory. *)

Definition mod_dev (i : nat) : Z := makedev MOD_MAJOR (Z.of_nat i).

Lemma mod_dev_spec (i : nat) :
  (i < 16)%nat -> major (mod_dev i) = MOD_MAJOR /\ minor (mod_dev i) = Z.of_nat i /\ mod_dev i = 1280 + Z.of_nat i.
Proof.
  intros Hi. do 16 (destruct i as [| i]; [repeat split; reflexivity|]). lia.
Qed.

Lemma mod_dev_inj (i j : nat) : (i < 16)%nat -> (j < 16)%nat -> mod_dev i = mod_dev j -> i = j.
Proof.
  intros Hi Hj H. destruct (mod_dev_spec i Hi) as (_ & _ & Ei), (mod_dev_spec j Hj) as (_ & _ & Ej). lia.
Qed.

(** Contents in which [n] bytes from [base] are those of [page], as far as the
    contents go. *)
Definition agree (page : list Z) (base n : nat) (D : list Z) : Prop :=
  forall k, (k < n)%nat -> (base + k < length D)%nat -> page !! k = D !! (base + k)%nat.

(** The first byte of a buffer's block on the device. *)
Definition base (b : buffer) : nat := Z.to_nat (b.(b_blocknr) * b.(b_size)).

Definition span (b : buffer) : nat := Z.to_nat b.(b_size).

Definition covers (b : buffer) (j : nat) : Prop := (base b <= j < base b + span b)%nat.

Definition bucket_of (b : buffer) : Z := buffer_bucket (buffer_key b.(b_dev) b.(b_blocknr) b.(b_size)).

(** A registered module of whole sectors, with nothing queued. *)
Record device_ok (D : list Z) (i : nat) (md : mod_device) (dv : block_device) : Prop := {
  d_mem : md.(md_mem) <> 0;
  d_len : md.(md_len) = Z.of_nat (length D);
  d_bytes : length md.(md_bytes) = length D;
  d_queue : dv.(requests) = [];
  d_handler : dv.(dv_handle_request) = mod_handle_request_p;
  d_private : dv.(dv_private) = Z.of_nat i;
  d_blksize : valid_blksize dv.(blksize) = true;
  d_sectors : dv.(sectors) * SECTOR_SIZE = Z.of_nat (length D);
  d_small : Z.of_nat (length D) + 4096 < 2 ^ 31;
}.

(** A buffer of a block of such a device, with a page of its own. *)
Record buffer_ok (b : buffer) (i : nat) (D : list Z) (dv : block_device) (page : list Z) : Prop := {
  o_dev : b.(b_dev) = mod_dev i;
  o_size : b.(b_size) = dv.(blksize);
  o_block : 0 <= b.(b_blocknr) /\ b.(b_blocknr) * b.(b_size) < Z.of_nat (length D);
  o_count : 0 <= b.(b_count) < 65536;
  o_lock : b.(b_lock) = false;
  o_page : Z.of_nat (length page) = 4096;
}.

Definition device (s : blk) (i : nat) (md : mod_device) (dv : block_device) : Prop :=
  s.(moddev) !! i = Some md /\ s.(modblk) !! i = Some dv.

Record refines (D : nat -> list Z) (s : blk) : Prop := {
  r_driver : s.(blkdev) !! 5%nat = Some mod_get_device_p;
  r_slots : length s.(moddev) = 16%nat /\ length s.(modblk) = 16%nat;
  r_devs : forall i md dv, device s i md dv -> md.(md_mem) <> 0 -> device_ok (D i) i md dv;
  r_bufs : forall a b, s.(bufs) !! a = Some b -> a <> 0 /\ exists i md dv page, device s i md dv /\
    md.(md_mem) <> 0 /\ s.(bpages) !! b.(b_data) = Some page /\ buffer_ok b i (D i) dv page /\
    flag_set b.(b_flags) BUF_UPTODATE = true /\
    agree page (base b) (span b) (D i) /\
    (flag_set b.(b_flags) BUF_DIRTY = false -> agree page (base b) (span b) md.(md_bytes));
  r_hash : forall k a, a ∈ default [] (s.(ht_blocks) !! k) -> exists b, s.(bufs) !! a = Some b /\ bucket_of b = k;
  r_hashed : forall a b, s.(bufs) !! a = Some b -> a ∈ default [] (s.(ht_blocks) !! bucket_of b);
  r_nodup : forall k, NoDup (default [] (s.(ht_blocks) !! k));
  r_uniq : forall a a' b b', s.(bufs) !! a = Some b -> s.(bufs) !! a' = Some b' ->
    b.(b_dev) = b'.(b_dev) -> b.(b_blocknr) = b'.(b_blocknr) -> a = a';
  r_pages : forall a a' b b', s.(bufs) !! a = Some b -> s.(bufs) !! a' = Some b' ->
    b.(b_data) = b'.(b_data) -> a = a';
  r_disk : forall i md dv j, device s i md dv -> md.(md_mem) <> 0 -> (j < length (D i))%nat ->
    (forall a b, s.(bufs) !! a = Some b -> b.(b_dev) = mod_dev i -> ~ covers b j) ->
    md.(md_bytes) !! j = D i !! j;
}.

(** Memory is available. *)
Class BlkLaws `{E : BlkEnv} : Prop := {
  buffer_fresh : forall m, exists a, buffer_cachep m = Some a /\ a <> 0 /\ m !! a = None;
  page_fresh : forall m, exists p junk, page_alloc m = Some (p, junk) /\ m !! p = None /\ Z.of_nat (length junk) = 4096;
  request_available : forall s, request_cachep s = true;
  bio_fresh : forall n m, exists a junk, bio_alloc n m = Some (a, junk) /\ m !! a = None;
}.

Ltac run_ok := erewrite bind_ok; [| cbn; reflexivity]; cbv beta.

Section requests.

Context `{E : BlkEnv} {L : BlkLaws}.

Lemma bufload_run (s : blk) (a : Z) (b : buffer) : s.(bufs) !! a = Some b -> bufload a s = Ok (b, s).
Proof. intros H. unfold bufload. rewrite H. reflexivity. Qed.

Lemma bufupd_run (s : blk) (a : Z) (b : buffer) (f : buffer -> buffer) :
  s.(bufs) !! a = Some b -> bufupd a f s = Ok (tt, set_bufs s (<[a := f b]> s.(bufs))).
Proof. intros H. unfold bufupd. rewrite (bind_ok _ _ _ _ _ (bufload_run s a b H)). reflexivity. Qed.

Lemma pgload_run (s : blk) (p : Z) (l : list Z) : s.(bpages) !! p = Some l -> pgload p s = Ok (l, s).
Proof. intros H. unfold pgload. rewrite H. reflexivity. Qed.

Lemma get_device_run (s : blk) (i : nat) (md : mod_device) :
  (i < 16)%nat -> s.(blkdev) !! 5%nat = Some mod_get_device_p -> s.(moddev) !! i = Some md -> md.(md_mem) <> 0 ->
  get_device (mod_dev i) s = Ok (Some (Z.of_nat i), s).
Proof.
  intros Hi Hd Hm Hn. destruct (mod_dev_spec i Hi) as (Ema & Emi & _). unfold get_device.
  run_ok. rewrite Ema, Emi. unfold st_res at 1.
  assert (aload (blkdev s) MOD_MAJOR = Ok mod_get_device_p) as -> by (apply aload_ok; split; [unfold MOD_MAJOR; lia | exact Hd]).
  run_ok. rewrite Z.eqb_refl. unfold mod_get_device. run_ok.
  assert (aload (moddev s) (Z.of_nat i) = Ok md) as Hl by (apply aload_ok; rewrite Nat2Z.id; split; [lia | exact Hm]).
  unfold st_res. rewrite Hl. run_ok. rewrite (proj2 (Z.eqb_neq _ _) Hn). reflexivity.
Qed.

Lemma dvload_run (s : blk) (i : nat) (dv : block_device) :
  s.(modblk) !! i = Some dv -> dvload (Z.of_nat i) s = Ok (dv, s).
Proof.
  intros H. unfold dvload. run_ok. unfold st_res.
  assert (aload (modblk s) (Z.of_nat i) = Ok dv) as -> by (apply aload_ok; rewrite Nat2Z.id; split; [lia | exact H]).
  reflexivity.
Qed.

(** What the device's memory yields for a block: [n] bytes from [off], then zeros
    to the end of the block. *)
Definition block_read (bytes : list Z) (off n bs : nat) (page : list Z) : list Z :=
  splice n (replicate (bs - n) 0) (splice 0 (take n (drop off bytes)) page).

Definition after_read (s : blk) (a : Z) (b : buffer) (page : list Z) : blk :=
  Blk (<[a := b_set_flags b (Z.lor b.(b_flags) BUF_UPTODATE)]> s.(bufs)) (<[b.(b_data) := page]> s.(bpages))
    s.(ht_blocks) s.(bios) s.(moddev) s.(modblk) s.(blkdev).

Definition after_write (s : blk) (a : Z) (b : buffer) (l : list mod_device) : blk :=
  Blk (<[a := b_set_flags b (Z.lor b.(b_flags) BUF_UPTODATE)]> s.(bufs)) s.(bpages)
    s.(ht_blocks) s.(bios) l s.(modblk) s.(blkdev).

(** How many bytes of the buffer's block the device has. *)
Definition in_range (b : buffer) (D : list Z) : nat := Nat.min (span b) (length D - base b).

End requests.

Section geometry.

Context (b : buffer) (i : nat) (D : list Z) (md : mod_device) (dv : block_device) (page : list Z).

Context (Hd : device_ok D i md dv) (Ho : buffer_ok b i D dv page).

Lemma span_bounds : (512 <= span b <= 4096)%nat /\ Z.of_nat (span b) = b.(b_size).
Proof.
  destruct Ho as [_ Es _ _ _ _]. destruct (valid_blksize_bounds _ (d_blksize _ _ _ _ Hd)) as [Hr _].
  unfold span. rewrite Es. lia.
Qed.

Lemma base_bounds : (base b < length D)%nat /\ Z.of_nat (base b) = b.(b_blocknr) * b.(b_size).
Proof.
  destruct Ho as [_ _ [H0 Hlt] _ _ _]. destruct span_bounds as [? ?]. unfold base. nia.
Qed.

Lemma request_geometry :
  s32 (SECTOR b * SECTOR_SIZE) = Z.of_nat (base b) /\ s32 (NR_SECTORS b * SECTOR_SIZE) = Z.of_nat (span b) /\
  Z.min (Z.of_nat (span b)) (s32 (md.(md_len) - Z.of_nat (base b))) = Z.of_nat (in_range b D).
Proof.
  destruct base_bounds as [Hlt Eb]. destruct span_bounds as [Hs Es].
  pose proof (d_small _ _ _ _ Hd) as Hsm. rewrite (d_len _ _ _ _ Hd).
  destruct (valid_blksize_bounds _ (d_blksize _ _ _ _ Hd)) as [Hr Hm]. rewrite <- (o_size _ _ _ _ _ Ho) in Hr, Hm.
  destruct (o_block _ _ _ _ _ Ho) as [H0 _].
  assert (NR_SECTORS b * 512 = b.(b_size)) as En.
  { unfold NR_SECTORS, SECTOR_SIZE. rewrite Z.quot_div_nonneg by lia. lia. }
  change (2 ^ 31) with 2147483648 in *.
  assert (SECTOR b = b.(b_blocknr) * NR_SECTORS b) as Esec.
  { unfold SECTOR. apply sN_id; [lia|]. change (2 ^ (32 - 1)) with 2147483648. nia. }
  unfold SECTOR_SIZE. rewrite Esec. replace (b_blocknr b * NR_SECTORS b * 512) with (b_blocknr b * b_size b) by (rewrite <- En; ring).
  rewrite En, <- Eb. rewrite !sN_id by (change (2 ^ (32 - 1)) with 2147483648; lia).
  unfold in_range. lia.
Qed.

Lemma in_range_bounds : (0 < in_range b D <= span b)%nat /\ (base b + in_range b D <= length D)%nat.
Proof. destruct base_bounds, span_bounds. unfold in_range. lia. Qed.

End geometry.

Section submit.

Context `{E : BlkEnv} {L : BlkLaws}.

Context (s : blk) (a : Z) (b : buffer) (i : nat) (D : list Z) (md : mod_device) (dv : block_device) (page : list Z).

Context (Hi : (i < 16)%nat) (Ha : a <> 0) (Hb : s.(bufs) !! a = Some b) (Hdr : s.(blkdev) !! 5%nat = Some mod_get_device_p)
  (Hdev : device s i md dv) (Hp : s.(bpages) !! b.(b_data) = Some page)
  (Hd : device_ok D i md dv) (Ho : buffer_ok b i D dv page).

Lemma completed_run (s1 : blk) (b1 : buffer) (h : Z -> request -> ST blk unit) (req : request) :
  s1.(bufs) !! a = Some b1 -> s1.(modblk) = s.(modblk) -> req.(rq_buf) = a ->
  block_request_completed h (Z.of_nat i) req s1 =
    Ok (tt, set_bufs s1 (<[a := Buffer b1.(b_data) b1.(b_dev) b1.(b_size) b1.(b_blocknr)
                                  (Z.lor b1.(b_flags) BUF_UPTODATE) (u16 (b1.(b_count) - 1)) false]> s1.(bufs))).
Proof.
  intros H1 Hm Hq. unfold block_request_completed. rewrite Hq.
  erewrite bind_ok; [| apply bufupd_run, H1]. cbv beta.
  unfold release_buffer. rewrite (proj2 (Z.eqb_neq a 0) Ha).
  erewrite bind_ok; [| apply bufupd_run, lookup_insert_eq]. cbv beta.
  unfold buffer_unlock. erewrite bind_ok; [| apply bufupd_run, lookup_insert_eq]. cbv beta.
  erewrite bind_ok; [| apply dvload_run; cbn [modblk set_bufs]; rewrite Hm; apply Hdev]. cbv beta.
  rewrite (d_queue _ _ _ _ Hd). unfold set_bufs. cbn. rewrite !insert_insert_eq. reflexivity.
Qed.

Definition locked : buffer :=
  Buffer b.(b_data) b.(b_dev) b.(b_size) b.(b_blocknr) b.(b_flags) (u16 (b.(b_count) + 1)) true.

Lemma unlock_locked :
  Buffer locked.(b_data) locked.(b_dev) locked.(b_size) locked.(b_blocknr) (Z.lor locked.(b_flags) BUF_UPTODATE)
    (u16 (locked.(b_count) - 1)) false = b_set_flags b (Z.lor b.(b_flags) BUF_UPTODATE).
Proof.
  pose proof (o_count _ _ _ _ _ Ho) as Hc. pose proof (o_lock _ _ _ _ _ Ho) as Hl. unfold locked, b_set_flags. cbn.
  rewrite Hl. f_equal. unfold uN. lia.
Qed.

Lemma make_request_run (rw : Z) :
  make_request rw a s = Ok (Request rw (SECTOR b) (NR_SECTORS b) b.(b_data) a,
    set_bufs s (<[a := b_set_count b (u16 (b.(b_count) + 1))]> s.(bufs))).
Proof.
  unfold make_request. erewrite bind_ok; [| unfold gets; reflexivity]. cbv beta. rewrite request_available. cbn [negb].
  erewrite bind_ok; [| apply bufload_run, Hb]. cbv beta.
  erewrite bind_ok; [| apply bufupd_run, Hb]. cbv beta. reflexivity.
Qed.

Lemma buffer_lock_run :
  buffer_lock a (set_bufs s (<[a := b_set_count b (u16 (b.(b_count) + 1))]> s.(bufs))) =
    Ok (tt, set_bufs s (<[a := locked]> s.(bufs))).
Proof.
  unfold buffer_lock. erewrite bind_ok.
  2: { unfold buffer_wait. erewrite bind_ok; [| apply bufload_run; cbn; apply lookup_insert_eq]. cbv beta.
       cbn [b_lock b_set_count]. rewrite (o_lock _ _ _ _ _ Ho). reflexivity. }
  cbv beta. erewrite bufupd_run; [| cbn; apply lookup_insert_eq]. unfold set_bufs. cbn. rewrite insert_insert_eq. reflexivity.
Qed.

Lemma submit_begin (rw : Z) (r : res (unit * blk)) :
  handle_request 1 (Z.of_nat i) (Request rw (SECTOR b) (NR_SECTORS b) b.(b_data) a)
    (set_bufs s (<[a := locked]> s.(bufs))) = r ->
  submit_block rw a s = do ' (_, s) <- r; Ok (0, s).
Proof.
  intros Hr. unfold submit_block. erewrite bind_ok; [| apply bufload_run, Hb]. cbv beta.
  rewrite (o_dev _ _ _ _ _ Ho).
  erewrite bind_ok; [| eapply get_device_run; [exact Hi | exact Hdr | apply Hdev | apply (d_mem _ _ _ _ Hd)]]. cbv beta.
  erewrite bind_ok; [| apply make_request_run]. cbv beta.
  erewrite bind_ok; [| apply buffer_lock_run]. cbv beta.
  erewrite bind_ok; [| apply dvload_run; cbn; apply Hdev]. cbv beta.
  unfold request_queue_empty. rewrite (d_queue _ _ _ _ Hd), (d_handler _ _ _ _ Hd), Z.eqb_refl. cbn [length].
  unfold mbind, st_bind. rewrite Hr. destruct r as [[[] s'] | |]; reflexivity.
Qed.

Lemma submit_read_run :
  submit_block READ a s = Ok (0, after_read s a b (block_read md.(md_bytes) (base b) (in_range b D) (span b) page)).
Proof.
  destruct (request_geometry b i D md dv page Hd Ho) as (Eo & En & El).
  pose proof (in_range_bounds b i D md dv page Hd Ho) as [Hn Hl]. pose proof (span_bounds b i D md dv page Hd Ho) as [Hs _].
  pose proof (o_page _ _ _ _ _ Ho) as Hpl. pose proof (d_bytes _ _ _ _ Hd) as Hbl. pose proof (d_small _ _ _ _ Hd) as Hsm.
  rewrite (submit_begin READ (Ok (tt, after_read s a b (block_read md.(md_bytes) (base b) (in_range b D) (span b) page)))); [reflexivity|].
  cbn [handle_request]. erewrite bind_ok; [| apply dvload_run; cbn; apply Hdev]. cbv beta.
  run_ok. rewrite (d_private _ _ _ _ Hd).
  assert (aload (moddev s) (Z.of_nat i) = Ok md) as Hm by (apply aload_ok; rewrite Nat2Z.id; split; [lia | apply Hdev]).
  cbn [moddev set_bufs]. unfold st_res at 1. rewrite Hm. run_ok. cbn [rq_sector rq_nr_sectors rq_mem rq_rw]. rewrite Eo, En, El.
  erewrite bind_ok; [| apply pgload_run; cbn; exact Hp]. cbv beta.
  rewrite Z.eqb_refl. rewrite uN_id by lia.
  assert (memcpy_at page 0 (md_bytes md) (Z.of_nat (base b)) (Z.of_nat (in_range b D)) =
          Ok (splice 0 (take (in_range b D) (drop (base b) md.(md_bytes))) page)) as Hc.
  { unfold memcpy_at. rewrite !(proj2 (Z.leb_le _ _)) by lia. cbn [andb]. rewrite !Nat2Z.id. reflexivity. }
  assert ((if Z.of_nat (in_range b D) =? Z.of_nat (span b)
           then mret (splice 0 (take (in_range b D) (drop (base b) md.(md_bytes))) page)
           else st_res (memzero_at (splice 0 (take (in_range b D) (drop (base b) md.(md_bytes))) page)
                          (Z.of_nat (in_range b D)) (Z.of_nat (span b) - Z.of_nat (in_range b D))))
          (set_bufs s (<[a := locked]> s.(bufs)))
          = Ok (block_read (md_bytes md) (base b) (in_range b D) (span b) page, set_bufs s (<[a := locked]> s.(bufs)))) as Hz.
  { unfold block_read. destruct (Z.eqb_spec (Z.of_nat (in_range b D)) (Z.of_nat (span b))) as [Eq | Ne].
    - replace (span b - in_range b D)%nat with 0%nat by lia. cbn [replicate]. rewrite splice_nil. reflexivity.
    - unfold st_res, memzero_at. rewrite splice_length by (rewrite length_take, length_drop; lia).
      rewrite !(proj2 (Z.leb_le _ _)) by lia. cbn [andb res_bind]. rewrite Nat2Z.id.
      replace (Z.to_nat (Z.of_nat (span b) - Z.of_nat (in_range b D))) with (span b - in_range b D)%nat by lia. reflexivity. }
  erewrite bind_ok; [| unfold st_res at 1; rewrite Hc; cbn [res_bind]; unfold pgstore;
                       erewrite bind_ok; [| reflexivity]; cbv beta; erewrite bind_ok; [| exact Hz]; cbv beta; reflexivity].
  cbv beta. erewrite completed_run; [| cbn; apply lookup_insert_eq | reflexivity | reflexivity].
  rewrite unlock_locked.
  unfold after_read, set_bufs, set_bpages. cbn. rewrite insert_insert_eq. reflexivity.
Qed.

Definition md_store (md : mod_device) (bytes : list Z) : mod_device := ModDevice md.(md_mem) md.(md_len) bytes.

Lemma submit_write_run :
  submit_block WRITE a s = Ok (0, after_write s a b
    (<[i := md_store md (splice (base b) (take (in_range b D) page) md.(md_bytes))]> s.(moddev))).
Proof.
  destruct (request_geometry b i D md dv page Hd Ho) as (Eo & En & El).
  pose proof (in_range_bounds b i D md dv page Hd Ho) as [Hn Hl]. pose proof (span_bounds b i D md dv page Hd Ho) as [Hs _].
  pose proof (o_page _ _ _ _ _ Ho) as Hpl. pose proof (d_bytes _ _ _ _ Hd) as Hbl. pose proof (d_small _ _ _ _ Hd) as Hsm.
  set (s' := after_write s a b (<[i := md_store md (splice (base b) (take (in_range b D) page) md.(md_bytes))]> s.(moddev))).
  rewrite (submit_begin WRITE (Ok (tt, s'))); [reflexivity|].
  cbn [handle_request]. erewrite bind_ok; [| apply dvload_run; cbn; apply Hdev]. cbv beta.
  run_ok. rewrite (d_private _ _ _ _ Hd).
  assert (aload (moddev s) (Z.of_nat i) = Ok md) as Hm by (apply aload_ok; rewrite Nat2Z.id; split; [lia | apply Hdev]).
  cbn [moddev set_bufs]. unfold st_res at 1. rewrite Hm. run_ok. cbn [rq_sector rq_nr_sectors rq_mem rq_rw]. rewrite Eo, En, El.
  erewrite bind_ok; [| apply pgload_run; cbn; exact Hp]. cbv beta.
  change (WRITE =? READ) with false. cbv iota. rewrite uN_id by lia.
  assert (memcpy_at (md_bytes md) (Z.of_nat (base b)) page 0 (Z.of_nat (in_range b D)) =
          Ok (splice (base b) (take (in_range b D) page) (md_bytes md))) as Hc.
  { unfold memcpy_at. rewrite !(proj2 (Z.leb_le _ _)) by lia. cbn [andb]. rewrite !Nat2Z.id. reflexivity. }
  assert (length s.(moddev) > i)%nat as Hlen by (apply lookup_lt_Some with md; apply Hdev).
  erewrite bind_ok; [| unfold st_res at 1; rewrite Hc; cbn [res_bind]; erewrite bind_ok; [| reflexivity]; cbv beta;
                       unfold st_res; rewrite astore_in by lia; cbn [res_bind]; erewrite bind_ok; [| reflexivity]; cbv beta;
                       unfold modify; reflexivity].
  cbv beta. erewrite completed_run; [| cbn; apply lookup_insert_eq | reflexivity | reflexivity].
  rewrite unlock_locked. rewrite Nat2Z.id.
  unfold s', after_write, set_bufs, set_moddev. cbn. rewrite insert_insert_eq. reflexivity.
Qed.

End submit.

Lemma block_read_length (bytes : list Z) (off n bs : nat) (page : list Z) :
  (n <= bs <= length page)%nat -> (off + n <= length bytes)%nat -> length (block_read bytes off n bs page) = length page.
Proof.
  intros Hn Hb. unfold block_read. assert (length (splice 0 (take n (drop off bytes)) page) = length page) as E0
    by (apply splice_length; rewrite length_take, length_drop; lia).
  rewrite splice_length; rewrite ?length_replicate; lia.
Qed.

Lemma block_read_lookup (bytes : list Z) (off n bs : nat) (page : list Z) (k : nat) :
  (n <= bs <= length page)%nat -> (off + n <= length bytes)%nat -> (k < n)%nat ->
  block_read bytes off n bs page !! k = bytes !! (off + k)%nat.
Proof.
  intros Hn Hb Hk. unfold block_read.
  rewrite lookup_splice by (rewrite length_replicate, splice_length; rewrite ?length_take, ?length_drop; lia).
  rewrite decide_False by lia. rewrite lookup_splice by (rewrite length_take, length_drop; lia).
  rewrite decide_True by (rewrite length_take, length_drop; lia).
  rewrite lookup_take_lt, lookup_drop by lia. f_equal. lia.
Qed.

(** ** Steps that keep the relation *)

Lemma flag_set_lor (f m x : Z) : flag_set (Z.lor f m) x = flag_set f x || flag_set m x.
Proof.
  unfold flag_set. rewrite Z.land_lor_distr_l. destruct (Z.eqb_spec (Z.land f x) 0) as [E1 | N1].
  - rewrite E1, Z.lor_0_l. reflexivity.
  - cbn. destruct (Z.eqb_spec (Z.lor (Z.land f x) (Z.land m x)) 0) as [E2 | N2]; [|reflexivity].
    apply Z.lor_eq_0_iff in E2 as [? _]. contradiction.
Qed.

Definition same_ids (b b' : buffer) : Prop :=
  b.(b_data) = b'.(b_data) /\ b.(b_dev) = b'.(b_dev) /\ b.(b_size) = b'.(b_size) /\ b.(b_blocknr) = b'.(b_blocknr).

#[export] Instance same_ids_refl : Reflexive same_ids.
Proof. intros b. repeat split. Qed.

(** The same buffers of the same blocks in the same chains. *)
Record shape (s s' : blk) : Prop := {
  sh_ht : s'.(ht_blocks) = s.(ht_blocks);
  sh_driver : s'.(blkdev) = s.(blkdev);
  sh_slots : length s'.(moddev) = length s.(moddev) /\ length s'.(modblk) = length s.(modblk);
  sh_bufs : forall a b', s'.(bufs) !! a = Some b' -> exists b, s.(bufs) !! a = Some b /\ same_ids b b';
  sh_bufs' : forall a b, s.(bufs) !! a = Some b -> exists b', s'.(bufs) !! a = Some b' /\ same_ids b b';
}.

Lemma same_ids_bucket (b b' : buffer) : same_ids b b' -> bucket_of b = bucket_of b'.
Proof. intros (_ & E1 & E2 & E3). unfold bucket_of. rewrite E1, E2, E3. reflexivity. Qed.

Lemma same_ids_covers (b b' : buffer) (j : nat) : same_ids b b' -> covers b j <-> covers b' j.
Proof. intros (_ & _ & E2 & E3). unfold covers, base, span. rewrite E2, E3. reflexivity. Qed.

Lemma refines_shape (D D' : nat -> list Z) (s s' : blk) :
  refines D s -> shape s s' ->
  (forall i md dv, device s' i md dv -> md.(md_mem) <> 0 -> device_ok (D' i) i md dv) ->
  (forall a b, s'.(bufs) !! a = Some b -> exists i md dv page, device s' i md dv /\
    md.(md_mem) <> 0 /\ s'.(bpages) !! b.(b_data) = Some page /\ buffer_ok b i (D' i) dv page /\
    flag_set b.(b_flags) BUF_UPTODATE = true /\
    agree page (base b) (span b) (D' i) /\
    (flag_set b.(b_flags) BUF_DIRTY = false -> agree page (base b) (span b) md.(md_bytes))) ->
  (forall i md dv j, device s' i md dv -> md.(md_mem) <> 0 -> (j < length (D' i))%nat ->
    (forall a b, s.(bufs) !! a = Some b -> b.(b_dev) = mod_dev i -> ~ covers b j) ->
    md.(md_bytes) !! j = D' i !! j) ->
  refines D' s'.
Proof.
  intros R [Ht Hd [Hs1 Hs2] Hf Hb] Hdev Hbuf Hdisk. split.
  - rewrite Hd. apply R.
  - rewrite Hs1, Hs2. apply R.
  - exact Hdev.
  - intros a b Hab. destruct (Hf a b Hab) as (b0 & H0 & _). split; [apply (r_bufs _ _ R a b0 H0) | apply (Hbuf a b Hab)].
  - intros k a Ha. rewrite Ht in Ha. destruct (r_hash _ _ R k a Ha) as (b & Hab & <-).
    destruct (Hb a b Hab) as (b' & Hab' & Hid). exists b'. split; [exact Hab' | symmetry; apply same_ids_bucket, Hid].
  - intros a b' Hab'. destruct (Hf a b' Hab') as (b & Hab & Hid). rewrite Ht, <- (same_ids_bucket b b' Hid). apply (r_hashed _ _ R a b Hab).
  - intros k. rewrite Ht. apply R.
  - intros a a' b b' Ha Ha'. destruct (Hf a b Ha) as (c & Hc & (_ & E1 & _ & E2)), (Hf a' b' Ha') as (c' & Hc' & (_ & E1' & _ & E2')).
    rewrite <- E1, <- E2, <- E1', <- E2'. apply (r_uniq _ _ R a a' c c' Hc Hc').
  - intros a a' b b' Ha Ha'. destruct (Hf a b Ha) as (c & Hc & (E1 & _)), (Hf a' b' Ha') as (c' & Hc' & (E1' & _)).
    rewrite <- E1, <- E1'. apply (r_pages _ _ R a a' c c' Hc Hc').
  - intros i md dv j Hdv Hm Hj Hnc. apply (Hdisk i md dv j Hdv Hm Hj).
    intros a b Hab Hbd Hc. destruct (Hb a b Hab) as (b' & Hab' & Hid). apply (Hnc a b' Hab').
    + destruct Hid as (_ & <- & _). exact Hbd.
    + apply (same_ids_covers b b' j Hid), Hc.
Qed.

Lemma insert_shape (s s' : blk) (a : Z) (b b' : buffer) :
  s.(bufs) !! a = Some b -> same_ids b b' -> s'.(bufs) = <[a := b']> s.(bufs) ->
  s'.(ht_blocks) = s.(ht_blocks) -> s'.(blkdev) = s.(blkdev) -> length s'.(moddev) = length s.(moddev) ->
  s'.(modblk) = s.(modblk) -> shape s s'.
Proof.
  intros Hab Hid Eb Eh Ed Em Ek. split; try assumption.
  - rewrite Ek. auto.
  - intros x c Hx. rewrite Eb in Hx. apply lookup_insert_Some in Hx as [[<- <-] | [_ Hx]]; [exists b; auto | exists c; split; [exact Hx | reflexivity]].
  - intros x c Hx. rewrite Eb. destruct (decide (x = a)) as [-> | Ne].
    + rewrite lookup_insert_eq. simplify_eq. exists b'. auto.
    + rewrite lookup_insert_ne by auto. exists c. split; [exact Hx | reflexivity].
Qed.

Lemma device_lt (D : nat -> list Z) (s : blk) (i : nat) (md : mod_device) (dv : block_device) :
  refines D s -> device s i md dv -> (i < 16)%nat.
Proof. intros R [H _]. apply lookup_lt_Some in H. pose proof (r_slots _ _ R) as [? _]. lia. Qed.

Lemma device_fun (s : blk) (i : nat) (md md' : mod_device) (dv dv' : block_device) :
  device s i md dv -> device s i md' dv' -> md = md' /\ dv = dv'.
Proof. intros [E1 E2] [E1' E2']. split; congruence. Qed.

(** The device of a buffer is determined. *)
Lemma buffer_device (D : nat -> list Z) (s : blk) (a : Z) (b : buffer) (i : nat) (md : mod_device) (dv : block_device) :
  refines D s -> s.(bufs) !! a = Some b -> b.(b_dev) = mod_dev i -> device s i md dv ->
  a <> 0 /\ md.(md_mem) <> 0 /\ exists page, s.(bpages) !! b.(b_data) = Some page /\ buffer_ok b i (D i) dv page /\
    flag_set b.(b_flags) BUF_UPTODATE = true /\ agree page (base b) (span b) (D i) /\
    (flag_set b.(b_flags) BUF_DIRTY = false -> agree page (base b) (span b) md.(md_bytes)).
Proof.
  intros R Ha Ed Hdv. destruct (r_bufs _ _ R a b Ha) as (Hn & j & md' & dv' & pg & Hdv' & Hm & Hp & Ho & Hr).
  assert (j = i) as ->.
  { apply mod_dev_inj; [eapply device_lt; eassumption.. |]. rewrite <- Ed. symmetry. apply (o_dev _ _ _ _ _ Ho). }
  destruct (device_fun _ _ _ _ _ _ Hdv Hdv') as [<- <-]. split; [exact Hn|]. split; [exact Hm|]. exists pg. auto.
Qed.

Lemma disjoint_blocks (D : nat -> list Z) (s : blk) (a a' : Z) (b b' : buffer) (j : nat) :
  refines D s -> s.(bufs) !! a = Some b -> s.(bufs) !! a' = Some b' -> a <> a' -> b.(b_dev) = b'.(b_dev) ->
  covers b j -> covers b' j -> False.
Proof.
  intros R Ha Ha' Ne Ed. destruct (r_bufs _ _ R a b Ha) as (_ & i & md & dv & pg & Hdv & Hm & _ & Ho & _).
  assert (b'.(b_dev) = mod_dev i) as Ed' by (rewrite <- Ed; apply Ho).
  destruct (buffer_device _ _ _ _ _ _ _ R Ha' Ed' Hdv) as (_ & _ & pg' & _ & Ho' & _).
  destruct (valid_blksize_bounds _ (d_blksize _ _ _ _ (r_devs _ _ R i md dv Hdv Hm))) as [Hb _].
  destruct (Z.eq_dec b.(b_blocknr) b'.(b_blocknr)) as [Eq | Nq]; [exfalso; apply Ne, (r_uniq _ _ R a a' b b' Ha Ha' Ed Eq)|].
  pose proof (o_size _ _ _ _ _ Ho) as Es. pose proof (o_size _ _ _ _ _ Ho') as Es'.
  pose proof (o_block _ _ _ _ _ Ho) as [H0 _]. pose proof (o_block _ _ _ _ _ Ho') as [H0' _].
  unfold covers, base, span. rewrite Es, Es'. clear - Hb Nq H0 H0'. intros Hc Hc'.
  assert (b_blocknr b < b_blocknr b' \/ b_blocknr b' < b_blocknr b) as [Hlt | Hlt] by lia; nia.
Qed.

(** A change of the count or of the flags. *)
Lemma refines_touch (D : nat -> list Z) (s : blk) (a : Z) (b b' : buffer) :
  refines D s -> s.(bufs) !! a = Some b -> same_ids b b' -> b'.(b_lock) = false -> 0 <= b'.(b_count) < 65536 ->
  flag_set b'.(b_flags) BUF_UPTODATE = true ->
  (flag_set b'.(b_flags) BUF_DIRTY = false -> flag_set b.(b_flags) BUF_DIRTY = false) ->
  refines D (set_bufs s (<[a := b']> s.(bufs))).
Proof.
  intros R Hab Hid Hl Hc Hu Hdi. eapply refines_shape; [exact R | eapply insert_shape; eauto; reflexivity | apply R | | apply R].
  intros x c Hx. cbn in Hx. apply lookup_insert_Some in Hx as [[<- <-] | [_ Hx]].
  - destruct (r_bufs _ _ R a b Hab) as (_ & i & md & dv & pg & Hdv & Hm & Hp & Ho & _ & Hag & Hcl).
    exists i, md, dv, pg. pose proof Hid as (E1 & E2 & E3 & E4). unfold base, span in *. rewrite <- E1, <- E3, <- E4.
    split; [exact Hdv|]. split; [exact Hm|]. split; [exact Hp|]. split; [|auto].
    destruct Ho. split; congruence || auto.
  - apply (r_bufs _ _ R x c Hx).
Qed.

Definition upd_disk (D : nat -> list Z) (i : nat) (l : list Z) : nat -> list Z :=
  fun j => if decide (j = i) then l else D j.

Lemma upd_disk_eq (D : nat -> list Z) (i : nat) (l : list Z) : upd_disk D i l i = l.
Proof. unfold upd_disk. rewrite decide_True by reflexivity. reflexivity. Qed.

Lemma upd_disk_ne (D : nat -> list Z) (i j : nat) (l : list Z) : j <> i -> upd_disk D i l j = D j.
Proof. intros H. unfold upd_disk. rewrite decide_False by exact H. reflexivity. Qed.

Lemma device_ok_length (D D' : list Z) (i : nat) (md : mod_device) (dv : block_device) :
  length D' = length D -> device_ok D i md dv -> device_ok D' i md dv.
Proof. intros E []. split; congruence. Qed.

Lemma buffer_ok_length (b : buffer) (i : nat) (D D' : list Z) (dv : block_device) (page page' : list Z) :
  length D' = length D -> length page' = length page -> buffer_ok b i D dv page -> buffer_ok b i D' dv page'.
Proof. intros E E' []. split; congruence. Qed.

(** A store into the page of a buffer, which becomes dirty. *)
Lemma refines_store (D : nat -> list Z) (s : blk) (a : Z) (b : buffer) (i : nat) (md : mod_device) (dv : block_device)
    (page d : list Z) (start : nat) :
  refines D s -> s.(bufs) !! a = Some b -> b.(b_dev) = mod_dev i -> device s i md dv -> s.(bpages) !! b.(b_data) = Some page ->
  (start + length d <= span b)%nat -> (base b + start + length d <= length (D i))%nat ->
  refines (upd_disk D i (splice (base b + start) d (D i)))
    (Blk (<[a := b_set_flags b (Z.lor b.(b_flags) BUF_DIRTY)]> s.(bufs)) (<[b.(b_data) := splice start d page]> s.(bpages))
       s.(ht_blocks) s.(bios) s.(moddev) s.(modblk) s.(blkdev)).
Proof.
  intros R Hab Ebd Hdv Hp Hst Hle.
  destruct (buffer_device _ _ _ _ _ _ _ R Hab Ebd Hdv) as (Hn & Hm & pg & Hp' & Ho & Hu & Hag & Hcl). rewrite Hp in Hp'. injection Hp' as ->.
  assert (forall j, length (upd_disk D i (splice (base b + start) d (D i)) j) = length (D j)) as Hlen.
  { intros j. unfold upd_disk. case_decide; [subst; apply splice_length; lia | reflexivity]. }
  pose proof (r_devs _ _ R i md dv Hdv Hm) as Hd. pose proof (span_bounds b i (D i) md dv pg Hd Ho) as [Hsp _].
  pose proof (o_page _ _ _ _ _ Ho) as Hpl.
  assert (length (splice start d pg) = length pg) as Hspl by (apply splice_length; lia).
  eapply refines_shape; [exact R | eapply (insert_shape s _ a b); [exact Hab | | reflexivity..]; repeat split | | |].
  - intros j md' dv' Hj Hmj. eapply device_ok_length; [apply Hlen | apply (r_devs _ _ R j md' dv' Hj Hmj)].
  - intros x c Hx. cbn in Hx. apply lookup_insert_Some in Hx as [[<- <-] | [Nx Hx]].
    + exists i, md, dv, (splice start d pg). cbn. rewrite lookup_insert_eq. split; [exact Hdv|]. split; [exact Hm|].
      split; [reflexivity|]. split; [eapply buffer_ok_length; [apply Hlen | exact Hspl |]; destruct Ho; split; assumption|].
      split; [rewrite flag_set_lor, Hu; reflexivity|]. split; [|rewrite flag_set_lor, orb_true_r; discriminate].
      change (base (b_set_flags b (Z.lor b.(b_flags) BUF_DIRTY))) with (base b). intros k Hk Hkl.
      rewrite Hlen in Hkl. rewrite upd_disk_eq, !lookup_splice by lia.
      destruct (decide (start <= k < start + length d)%nat).
      * rewrite decide_True by lia. f_equal. lia.
      * rewrite decide_False by lia. apply Hag; [exact Hk | exact Hkl].
    + destruct (r_bufs _ _ R x c Hx) as (_ & j & md' & dv' & pg' & Hdv' & Hm' & Hp'' & Ho' & Hu' & Hag' & Hcl').
      exists j, md', dv', pg'. cbn. rewrite lookup_insert_ne by (intros Ec; apply Nx; eapply (r_pages _ _ R a x b c); eauto).
      split; [exact Hdv'|]. split; [exact Hm'|]. split; [exact Hp''|].
      split; [eapply buffer_ok_length; [apply Hlen | reflexivity | exact Ho']|]. split; [exact Hu'|]. split; [|exact Hcl'].
      intros k Hk Hkl. rewrite Hlen in Hkl. rewrite (Hag' k Hk Hkl). destruct (decide (j = i)) as [-> | Ne]; [|rewrite upd_disk_ne by exact Ne; reflexivity].
      rewrite upd_disk_eq, lookup_splice by lia. destruct (decide _) as [Hin | _]; [exfalso | reflexivity].
      eapply (disjoint_blocks D s x a c b (base c + k) R Hx Hab); [congruence | rewrite (o_dev _ _ _ _ _ Ho'); congruence | unfold covers; lia..].
  - intros j md' dv' x Hdv' Hm' Hx Hnc. rewrite Hlen in Hx. rewrite (r_disk _ _ R j md' dv' x Hdv' Hm' Hx Hnc).
    destruct (decide (j = i)) as [-> | Ne]; [|rewrite upd_disk_ne by exact Ne; reflexivity].
    rewrite upd_disk_eq, lookup_splice by lia. destruct (decide _) as [Hin | _]; [exfalso | reflexivity].
    apply (Hnc a b Hab Ebd). unfold covers. lia.
Qed.

(** A request to write a buffer back. *)
Lemma refines_flush (D : nat -> list Z) (s : blk) (a : Z) (b : buffer) (i : nat) (md : mod_device) (dv : block_device) (page : list Z) :
  refines D s -> s.(bufs) !! a = Some b -> b.(b_dev) = mod_dev i -> device s i md dv -> s.(bpages) !! b.(b_data) = Some page ->
  let bytes := splice (base b) (take (in_range b (D i)) page) md.(md_bytes) in
  refines D (after_write s a b (<[i := md_store md bytes]> s.(moddev))) /\ agree page (base b) (span b) bytes.
Proof.
  intros R Hab Ebd Hdv Hp bytes.
  destruct (buffer_device _ _ _ _ _ _ _ R Hab Ebd Hdv) as (Hn & Hm & pg & Hp' & Ho & Hu & Hag & Hcl). rewrite Hp in Hp'. injection Hp' as ->.
  pose proof (r_devs _ _ R i md dv Hdv Hm) as Hd. pose proof (span_bounds b i (D i) md dv pg Hd Ho) as [Hsp _].
  pose proof (in_range_bounds b i (D i) md dv pg Hd Ho) as [Hr Hrl]. pose proof (base_bounds b i (D i) md dv pg Hd Ho) as [Hba _].
  pose proof (o_page _ _ _ _ _ Ho) as Hpl. pose proof (d_bytes _ _ _ _ Hd) as Hbl.
  assert (length (take (in_range b (D i)) pg) = in_range b (D i)) as Htk by (rewrite length_take; lia).
  assert (length bytes = length (D i)) as Hlen by (unfold bytes; rewrite splice_length; lia).
  assert (forall j, bytes !! j = if decide (base b <= j < base b + in_range b (D i))%nat then pg !! (j - base b)%nat else md.(md_bytes) !! j) as Hlk.
  { intros j. unfold bytes. rewrite lookup_splice by lia. rewrite Htk. case_decide; [|reflexivity]. apply lookup_take_lt. lia. }
  assert (agree pg (base b) (span b) bytes) as Hagb.
  { intros k Hk Hkl. rewrite Hlen in Hkl. rewrite Hlk, decide_True by (unfold in_range; lia). f_equal. lia. }
  assert (forall j md' dv', device (after_write s a b (<[i := md_store md bytes]> s.(moddev))) j md' dv' ->
            (j = i /\ md' = md_store md bytes /\ dv' = dv) \/ (j <> i /\ device s j md' dv')) as Hdevs.
  { intros j md' dv' [H1 H2]. cbn in H1, H2. destruct (decide (j = i)) as [-> | Ne].
    - left. rewrite list_lookup_insert_eq in H1 by (eapply lookup_lt_Some, Hdv).
      destruct Hdv as [_ Hdv2]. repeat split; congruence.
    - right. rewrite list_lookup_insert_ne in H1 by auto. split; [exact Ne | split; assumption]. }
  assert (device (after_write s a b (<[i := md_store md bytes]> s.(moddev))) i (md_store md bytes) dv) as Hdv1.
  { split; cbn; [apply list_lookup_insert_eq; eapply lookup_lt_Some, Hdv | apply Hdv]. }
  split; [|exact Hagb].
  eapply refines_shape; [exact R | eapply (insert_shape s _ a b);
    [exact Hab | | reflexivity | reflexivity | reflexivity | cbn; apply length_insert | reflexivity]; repeat split | | |].
  - intros j md' dv' Hj Hmj. destruct (Hdevs _ _ _ Hj) as [(-> & -> & ->) | [_ Hj']]; [|apply (r_devs _ _ R j md' dv' Hj' Hmj)].
    destruct Hd. split; cbn; assumption.
  - intros x c Hx. cbn in Hx. apply lookup_insert_Some in Hx as [[<- <-] | [Nx Hx]].
    + exists i, (md_store md bytes), dv, pg. split; [exact Hdv1|]. split; [exact Hm|]. split; [exact Hp|].
      split; [destruct Ho; split; assumption|]. cbn. rewrite flag_set_lor, Hu. split; [reflexivity|]. split; [exact Hag | intros _; exact Hagb].
    + destruct (r_bufs _ _ R x c Hx) as (_ & j & md' & dv' & pg' & Hdv' & Hm' & Hp'' & Ho' & Hu' & Hag' & Hcl').
      destruct (decide (j = i)) as [-> | Ne].
      * destruct (device_fun _ _ _ _ _ _ Hdv Hdv') as [<- <-]. exists i, (md_store md bytes), dv, pg'.
        split; [exact Hdv1|]. split; [exact Hm|]. split; [exact Hp''|]. split; [exact Ho'|]. split; [exact Hu'|]. split; [exact Hag'|].
        intros Hdc k Hk Hkl. cbn in Hkl |- *. rewrite (Hcl' Hdc k Hk) by lia. rewrite Hlk. destruct (decide _) as [Hin | _]; [exfalso | reflexivity].
        eapply (disjoint_blocks D s x a c b (base c + k) R Hx Hab); [congruence | rewrite (o_dev _ _ _ _ _ Ho'); congruence | unfold covers; lia..].
      * exists j, md', dv', pg'. split; [|auto 10]. destruct Hdv' as [H1 H2]. split; cbn; [rewrite list_lookup_insert_ne by auto|]; assumption.
  - intros j md' dv' x Hj Hmj Hx Hnc. destruct (Hdevs _ _ _ Hj) as [(-> & -> & ->) | [_ Hj']]; [|apply (r_disk _ _ R j md' dv' x Hj' Hmj Hx Hnc)].
    cbn. rewrite Hlk. destruct (decide _) as [Hin | _]; [exfalso; apply (Hnc a b Hab Ebd); unfold covers; lia|].
    apply (r_disk _ _ R i md dv x Hdv Hm Hx Hnc).
Qed.

Definition new_buffer (p : Z) (i : nat) (bs bl : Z) : buffer := Buffer p (mod_dev i) bs bl BUF_UPTODATE 1 false.

Definition cached (s : blk) (a p : Z) (b : buffer) (page : list Z) : blk :=
  Blk (<[a := b]> s.(bufs)) (<[p := page]> s.(bpages))
    (<[bucket_of b := a :: default [] (s.(ht_blocks) !! bucket_of b)]> s.(ht_blocks)) s.(bios) s.(moddev) s.(modblk) s.(blkdev).

Lemma chain_insert (h : gmap Z (list Z)) (k k' x a : Z) :
  x ∈ default [] (<[k := a :: default [] (h !! k)]> h !! k') <-> (k = k' /\ x = a) \/ x ∈ default [] (h !! k').
Proof.
  destruct (decide (k = k')) as [<- | Ne].
  - rewrite lookup_insert_eq. cbn. rewrite elem_of_cons. tauto.
  - rewrite lookup_insert_ne by exact Ne. tauto.
Qed.

(** A new buffer that holds what the device has. *)
Lemma refines_insert (D : nat -> list Z) (s : blk) (a p : Z) (i : nat) (md : mod_device) (dv : block_device) (bl : Z) (page : list Z)
    (b := new_buffer p i dv.(blksize) bl) :
  refines D s -> device s i md dv -> md.(md_mem) <> 0 -> a <> 0 -> s.(bufs) !! a = None -> s.(bpages) !! p = None ->
  0 <= bl -> bl * dv.(blksize) < Z.of_nat (length (D i)) ->
  (forall x c, s.(bufs) !! x = Some c -> c.(b_dev) = mod_dev i -> c.(b_blocknr) <> bl) ->
  Z.of_nat (length page) = 4096 -> agree page (base b) (span b) md.(md_bytes) ->
  refines D (cached s a p b page).
Proof.
  intros R Hdv Hm Ha Hfa Hfp H0 Hlt Hnew Hpl Hag.
  pose proof (r_devs _ _ R i md dv Hdv Hm) as Hd.
  assert (buffer_ok b i (D i) dv page) as Ho by (split; cbn; auto; lia).
  assert (forall x c, s.(bufs) !! x = Some c -> c.(b_data) <> p) as Hpne.
  { intros x c Hx E. destruct (r_bufs _ _ R x c Hx) as (_ & j & md' & dv' & pg & _ & _ & Hpg & _). congruence. }
  assert (forall x c j, s.(bufs) !! x = Some c -> c.(b_dev) = mod_dev i -> covers c j -> covers b j -> False) as Hdis.
  { intros x c j Hx Ec. pose proof (Hnew x c Hx Ec) as Nb.
    destruct (buffer_device _ _ _ _ _ _ _ R Hx Ec Hdv) as (_ & _ & pg & _ & Hoc & _).
    destruct (valid_blksize_bounds _ (d_blksize _ _ _ _ Hd)) as [Hb _].
    pose proof (o_size _ _ _ _ _ Hoc) as Es. pose proof (o_block _ _ _ _ _ Hoc) as [H0' _].
    unfold covers, base, span. rewrite Es. cbn. clear - Hb Nb H0 H0'. intros Hc Hc'.
    assert (b_blocknr c < bl \/ bl < b_blocknr c) as [Hl | Hl] by lia; nia. }
  split.
  - apply R.
  - apply R.
  - apply R.
  - intros x c Hx. cbn in Hx. apply lookup_insert_Some in Hx as [[<- <-] | [Nx Hx]].
    + split; [exact Ha|]. exists i, md, dv, page. cbn. rewrite lookup_insert_eq. repeat (split; [solve [auto]|]).
      split; [|intros _; exact Hag]. intros k Hk Hkl. rewrite (Hag k Hk) by (rewrite (d_bytes _ _ _ _ Hd); exact Hkl).
      apply (r_disk _ _ R i md dv _ Hdv Hm Hkl). intros x c Hx Ec Hc. apply (Hdis x c _ Hx Ec Hc). unfold covers. lia.
    + destruct (r_bufs _ _ R x c Hx) as (Hn & j & md' & dv' & pg & Hdv' & Hm' & Hpg & Hr). split; [exact Hn|].
      exists j, md', dv', pg. cbn. rewrite lookup_insert_ne by (intros E; exact (Hpne x c Hx (eq_sym E))). auto.
  - intros k x Hx. cbn in Hx. apply chain_insert in Hx as [[<- ->] | Hx].
    + exists b. cbn. rewrite lookup_insert_eq. auto.
    + destruct (r_hash _ _ R k x Hx) as (c & Hc & Hk). exists c. cbn. rewrite lookup_insert_ne by congruence. auto.
  - intros x c Hx. cbn in Hx |- *. apply chain_insert. apply lookup_insert_Some in Hx as [[<- <-] | [Nx Hx]]; [auto|].
    right. apply (r_hashed _ _ R x c Hx).
  - intros k. cbn. destruct (decide (bucket_of b = k)) as [<- | Ne].
    + rewrite lookup_insert_eq. cbn. constructor; [|apply R]. intros Hin. destruct (r_hash _ _ R _ a Hin) as (c & Hc & _). congruence.
    + rewrite lookup_insert_ne by exact Ne. apply R.
  - intros x x' c c' Hx Hx' E1 E2. cbn in Hx, Hx'.
    apply lookup_insert_Some in Hx as [[<- <-] | [Nx Hx]]; apply lookup_insert_Some in Hx' as [[<- <-] | [Nx' Hx']]; [reflexivity | exfalso.. |].
    + apply (Hnew x' c' Hx'); auto.
    + apply (Hnew x c Hx); auto.
    + apply (r_uniq _ _ R x x' c c' Hx Hx' E1 E2).
  - intros x x' c c' Hx Hx' E1. cbn in Hx, Hx'.
    apply lookup_insert_Some in Hx as [[<- <-] | [Nx Hx]]; apply lookup_insert_Some in Hx' as [[<- <-] | [Nx' Hx']]; [reflexivity | exfalso.. |].
    + apply (Hpne x' c' Hx'). rewrite <- E1. reflexivity.
    + apply (Hpne x c Hx). exact E1.
    + apply (r_pages _ _ R x x' c c' Hx Hx' E1).
  - intros j md' dv' y Hdv' Hm' Hy Hnc. apply (r_disk _ _ R j md' dv' y Hdv' Hm' Hy).
    intros x c Hx. apply (Hnc x c). cbn. rewrite lookup_insert_ne by congruence. exact Hx.
Qed.

Definition freed (s : blk) (a : Z) (b : buffer) : blk :=
  Blk (delete a s.(bufs)) (delete b.(b_data) s.(bpages)) (without a <$> s.(ht_blocks)) s.(bios) s.(moddev) s.(modblk) s.(blkdev).

Lemma elem_of_without (x a : Z) (l : list Z) : x ∈ without a l <-> x <> a /\ x ∈ l.
Proof.
  unfold without. rewrite !list_elem_of_In, filter_In. rewrite negb_true_iff, Z.eqb_neq. tauto.
Qed.

Lemma NoDup_without (a : Z) (l : list Z) : NoDup l -> NoDup (without a l).
Proof. rewrite !NoDup_ListNoDup. apply List.NoDup_filter. Qed.

Lemma chain_without (h : gmap Z (list Z)) (a k : Z) :
  default [] ((without a <$> h) !! k) = without a (default [] (h !! k)).
Proof. rewrite lookup_fmap. destruct (h !! k); reflexivity. Qed.

(** A buffer that the device agrees with may go. *)
Lemma refines_remove (D : nat -> list Z) (s : blk) (a : Z) (b : buffer) (i : nat) (md : mod_device) (dv : block_device) (page : list Z) :
  refines D s -> s.(bufs) !! a = Some b -> b.(b_dev) = mod_dev i -> device s i md dv -> s.(bpages) !! b.(b_data) = Some page ->
  agree page (base b) (span b) md.(md_bytes) -> refines D (freed s a b).
Proof.
  intros R Hab Ebd Hdv Hp Hagb.
  destruct (buffer_device _ _ _ _ _ _ _ R Hab Ebd Hdv) as (Hn & Hm & pg & Hp' & Ho & Hu & Hag & Hcl). rewrite Hp in Hp'. injection Hp' as ->.
  pose proof (r_devs _ _ R i md dv Hdv Hm) as Hd.
  split.
  - apply R.
  - apply R.
  - apply R.
  - intros x c Hx. cbn in Hx. apply lookup_delete_Some in Hx as [Nx Hx].
    destruct (r_bufs _ _ R x c Hx) as (Hnx & j & md' & dv' & pg' & Hdv' & Hm' & Hpg & Hr). split; [exact Hnx|].
    exists j, md', dv', pg'. cbn. rewrite lookup_delete_ne by (intros E; apply Nx; eapply (r_pages _ _ R a x b c); eauto). auto.
  - intros k x Hx. cbn in Hx. rewrite chain_without in Hx. apply elem_of_without in Hx as [Nx Hx].
    destruct (r_hash _ _ R k x Hx) as (c & Hc & Hk). exists c. cbn. rewrite lookup_delete_ne by auto. auto.
  - intros x c Hx. cbn in Hx |- *. apply lookup_delete_Some in Hx as [Nx Hx]. rewrite chain_without. apply elem_of_without.
    split; [auto | apply (r_hashed _ _ R x c Hx)].
  - intros k. cbn. rewrite chain_without. apply NoDup_without, R.
  - intros x x' c c' Hx Hx'. cbn in Hx, Hx'. apply lookup_delete_Some in Hx as [_ Hx], Hx' as [_ Hx']. apply (r_uniq _ _ R x x' c c' Hx Hx').
  - intros x x' c c' Hx Hx'. cbn in Hx, Hx'. apply lookup_delete_Some in Hx as [_ Hx], Hx' as [_ Hx']. apply (r_pages _ _ R x x' c c' Hx Hx').
  - intros j md' dv' y Hdv' Hm' Hy Hnc. destruct (decide (j = i /\ covers b y)) as [[-> Hc] | Nc].
    + destruct (device_fun _ _ _ _ _ _ Hdv Hdv') as [<- <-]. unfold covers in Hc.
      replace y with (base b + (y - base b))%nat by lia. rewrite <- (Hagb (y - base b)%nat), <- (Hag (y - base b)%nat);
        rewrite ?(d_bytes _ _ _ _ Hd); reflexivity || lia.
    + apply (r_disk _ _ R j md' dv' y Hdv' Hm' Hy). intros x c Hx Ec Hc. destruct (decide (x = a)) as [-> | Ne].
      * apply Nc. rewrite Hab in Hx. injection Hx as <-. split; [|exact Hc].
        apply mod_dev_inj; [eapply device_lt; eassumption.. | congruence].
      * apply (Hnc x c); [cbn; rewrite lookup_delete_ne by auto; exact Hx | exact Ec | exact Hc].
Qed.

(** A device without buffers may change its block size. *)
Lemma refines_resize (D : nat -> list Z) (s : blk) (i : nat) (md : mod_device) (dv : block_device) (size : Z) :
  refines D s -> device s i md dv -> valid_blksize size = true ->
  (forall a b, s.(bufs) !! a = Some b -> b.(b_dev) <> mod_dev i) ->
  refines D (set_modblk s (<[i := dv_set_blksize dv size]> s.(modblk))).
Proof.
  intros R Hdv Hv Hno.
  assert (forall j md' dv', device (set_modblk s (<[i := dv_set_blksize dv size]> s.(modblk))) j md' dv' ->
            exists dv0, device s j md' dv0 /\ (dv' = dv0 \/ (j = i /\ dv' = dv_set_blksize dv0 size))) as Hdevs.
  { intros j md' dv' [H1 H2]. cbn in H1, H2. destruct (decide (j = i)) as [-> | Ne].
    - rewrite list_lookup_insert_eq in H2 by (eapply lookup_lt_Some, Hdv). injection H2 as <-.
      exists dv. split; [split; [exact H1 | apply Hdv] | auto].
    - rewrite list_lookup_insert_ne in H2 by auto. exists dv'. split; [split; assumption | auto]. }
  split; try apply R.
  - cbn. rewrite length_insert. apply R.
  - intros j md' dv' Hj Hmj. destruct (Hdevs _ _ _ Hj) as (dv0 & Hj0 & Hcase). pose proof (r_devs _ _ R j md' dv0 Hj0 Hmj) as Hd.
    destruct Hcase as [-> | [-> ->]]; [exact Hd|]. destruct Hd. split; cbn; assumption.
  - intros x c Hx. cbn in Hx. destruct (r_bufs _ _ R x c Hx) as (Hnx & j & md' & dv' & pg' & Hdv' & Hm' & Hpg & Ho & Hr).
    split; [exact Hnx|]. exists j, md', dv', pg'. split; [|auto]. destruct Hdv' as [H1 H2]. split; [exact H1|]. cbn.
    rewrite list_lookup_insert_ne; [exact H2|]. intros ->. apply (Hno x c Hx), Ho.
  - intros j md' dv' y Hj Hmj. destruct (Hdevs _ _ _ Hj) as (dv0 & Hj0 & _). apply (r_disk _ _ R j md' dv0 y Hj0 Hmj).
Qed.

(** ** Reading a block *)

(** The parts of the state that reading a block does not change. *)
Definition same_devices (s s' : blk) : Prop :=
  s'.(moddev) = s.(moddev) /\ s'.(modblk) = s.(modblk) /\ s'.(bios) = s.(bios).

Lemma same_devices_device (s s' : blk) (i : nat) (md : mod_device) (dv : block_device) :
  same_devices s s' -> device s i md dv -> device s' i md dv.
Proof. intros (E1 & E2 & _) [H1 H2]. split; congruence. Qed.

(** Buffers and pages are kept as they are; there may be new ones. *)
Record grows (s s' : blk) : Prop := {
  g_pages : forall p l, s.(bpages) !! p = Some l -> s'.(bpages) !! p = Some l;
  g_bufs : forall a b, s.(bufs) !! a = Some b -> exists b', s'.(bufs) !! a = Some b' /\ same_ids b b';
}.

#[export] Instance grows_preorder : PreOrder grows.
Proof.
  split.
  - intros s. split; [auto|]. intros a b Hb. exists b. split; [exact Hb | reflexivity].
  - intros s1 s2 s3 [H1 H2] [H1' H2']. split; [auto|]. intros a b Hb. destruct (H2 a b Hb) as (b2 & Hb2 & (E1 & E2 & E3 & E4)).
    destruct (H2' a b2 Hb2) as (b3 & Hb3 & (E1' & E2' & E3' & E4')). exists b3. split; [exact Hb3 | repeat split; congruence].
Qed.

Section cache.

Context `{E : BlkEnv} {L : BlkLaws}.

Definition matches (dev block size : Z) (b : buffer) : bool :=
  (b.(b_dev) =? dev) && (b.(b_blocknr) =? block) && (b.(b_size) =? size).

Lemma matches_true (dev block size : Z) (b : buffer) :
  matches dev block size b = true <-> b.(b_dev) = dev /\ b.(b_blocknr) = block /\ b.(b_size) = size.
Proof. unfold matches. rewrite !andb_true_iff, !Z.eqb_eq. tauto. Qed.

Lemma find_in_chain_run (s : blk) (dev block size : Z) (l : list Z) :
  (forall a, a ∈ l -> exists b, s.(bufs) !! a = Some b) -> 
  (exists a b, find_in_chain dev block size l s = Ok (a, s) /\ a ∈ l /\ s.(bufs) !! a = Some b /\ matches dev block size b = true) \/
  (find_in_chain dev block size l s = Ok (0, s) /\ forall a b, a ∈ l -> s.(bufs) !! a = Some b -> matches dev block size b = false).
Proof.
  induction l as [| x l IH]; intros Hl; [right; split; [reflexivity | intros a b Ha; apply not_elem_of_nil in Ha; contradiction]|].
  destruct (Hl x (list_elem_of_here _ _)) as (c & Hc). cbn [find_in_chain].
  rewrite (bind_ok _ _ _ _ _ (bufload_run s x c Hc)). cbv beta. fold (matches dev block size c).
  destruct (matches dev block size c) eqn:Em.
  - left. exists x, c. split; [reflexivity|]. split; [apply list_elem_of_here | auto].
  - destruct IH as [(a & b & Hr & Ha & Hb & Hm) | [Hr Hno]]; [intros a Ha; apply Hl, list_elem_of_further, Ha | left | right].
    + exists a, b. split; [exact Hr|]. split; [apply list_elem_of_further, Ha | auto].
    + split; [exact Hr|]. intros a b Ha Hb. apply elem_of_cons in Ha as [-> | Ha]; [congruence | apply (Hno a b Ha Hb)].
Qed.

(** The buffer of a block, if there is one. *)
Lemma find_buffer_run (D : nat -> list Z) (s : blk) (i : nat) (md : mod_device) (dv : block_device) (bl : Z) :
  refines D s -> device s i md dv ->
  (exists a b, find_buffer (mod_dev i) bl dv.(blksize) s = Ok (a, s) /\ s.(bufs) !! a = Some b /\
     b.(b_dev) = mod_dev i /\ b.(b_blocknr) = bl) \/
  (find_buffer (mod_dev i) bl dv.(blksize) s = Ok (0, s) /\
   forall x c, s.(bufs) !! x = Some c -> c.(b_dev) = mod_dev i -> c.(b_blocknr) <> bl).
Proof.
  intros R Hdv. unfold find_buffer. erewrite bind_ok; [| unfold gets; reflexivity]. cbv beta.
  destruct (find_in_chain_run s (mod_dev i) bl dv.(blksize)
    (default [] (s.(ht_blocks) !! buffer_bucket (buffer_key (mod_dev i) bl dv.(blksize))))) as [(a & b & Hr & _ & Hb & Hm) | [Hr Hno]].
  - intros a Ha. destruct (r_hash _ _ R _ a Ha) as (b & Hb & _). eauto.
  - left. apply matches_true in Hm as (E1 & E2 & _). exists a, b. auto.
  - right. split; [exact Hr|]. intros x c Hx Ec Eb. pose proof (r_hashed _ _ R x c Hx) as Hin.
    destruct (buffer_device _ _ _ _ _ _ _ R Hx Ec Hdv) as (_ & _ & pg & _ & Ho & _). pose proof (o_size _ _ _ _ _ Ho) as Es.
    unfold bucket_of in Hin. rewrite Ec, Eb, Es in Hin. specialize (Hno x c Hin Hx).
    assert (matches (mod_dev i) bl dv.(blksize) c = true) by (apply matches_true; auto). congruence.
Qed.

Lemma make_buffer_run (s : blk) (i : nat) (bs bl : Z) :
  exists a p junk, make_buffer (mod_dev i) bl bs s = Ok (a, cached s a p (Buffer p (mod_dev i) bs bl 0 1 false) junk) /\
    a <> 0 /\ s.(bufs) !! a = None /\ s.(bpages) !! p = None /\ Z.of_nat (length junk) = 4096.
Proof.
  destruct (buffer_fresh s.(bufs)) as (a & Ea & Ha & Hfa). destruct (page_fresh s.(bpages)) as (p & junk & Ep & Hfp & Hl).
  exists a, p, junk. split; [|auto]. unfold make_buffer. erewrite bind_ok; [| unfold gets, id; reflexivity]. cbv beta.
  rewrite Ea, Ep. reflexivity.
Qed.

Lemma read_block_run (D : nat -> list Z) (s : blk) (i : nat) (md : mod_device) (dv : block_device) (bl : Z) :
  refines D s -> device s i md dv -> md.(md_mem) <> 0 -> 0 <= bl -> bl * dv.(blksize) < Z.of_nat (length (D i)) ->
  exists a b s', read_block (mod_dev i) bl dv.(blksize) s = Ok (a, s') /\ refines D s' /\ same_devices s s' /\
    s'.(bufs) !! a = Some b /\ b.(b_dev) = mod_dev i /\ b.(b_blocknr) = bl /\ grows s s'.
Proof.
  intros R Hdv Hm H0 Hlt. unfold read_block, get_buffer.
  destruct (find_buffer_run D s i md dv bl R Hdv) as [(a & b & Hr & Hb & Ed & Eb) | [Hr Hno]].
  - destruct (buffer_device _ _ _ _ _ _ _ R Hb Ed Hdv) as (Hn & _ & pg & _ & _ & Hu & _).
    exists a, b, s. split; [|split; [exact R | split; [repeat split | split; [exact Hb | split; [exact Ed | split; [exact Eb | reflexivity]]]]]].
    erewrite bind_ok; [| rewrite (bind_ok _ _ _ _ _ Hr); cbv beta; rewrite (proj2 (Z.eqb_neq a 0) Hn); reflexivity]. cbv beta.
    rewrite (proj2 (Z.eqb_neq a 0) Hn). unfold read_buffer. rewrite (bind_ok _ _ _ _ _ (bufload_run s a b Hb)). cbv beta.
    rewrite Hu. reflexivity.
  - destruct (make_buffer_run s i dv.(blksize) bl) as (a & p & junk & Hmk & Hn & Hfa & Hfp & Hl).
    pose proof (r_devs _ _ R i md dv Hdv Hm) as Hd.
    set (b0 := Buffer p (mod_dev i) dv.(blksize) bl 0 1 false) in *.
    assert (buffer_ok b0 i (D i) dv junk) as Ho by (split; cbn; auto; lia).
    pose proof (in_range_bounds b0 i (D i) md dv junk Hd Ho) as [Hrg Hrl]. pose proof (span_bounds b0 i (D i) md dv junk Hd Ho) as [Hsp _].
    pose proof (d_bytes _ _ _ _ Hd) as Hbl.
    set (page := block_read md.(md_bytes) (base b0) (in_range b0 (D i)) (span b0) junk).
    assert (submit_block READ a (cached s a p b0 junk) = Ok (0, cached s a p (new_buffer p i dv.(blksize) bl) page)) as Hsub.
    { rewrite (submit_read_run (cached s a p b0 junk) a b0 i (D i) md dv junk); [| eapply device_lt; eassumption | exact Hn | cbn; apply lookup_insert_eq
        | apply R | exact Hdv | cbn; apply lookup_insert_eq | exact Hd | exact Ho].
      fold page. unfold after_read, cached. cbn. rewrite !insert_insert_eq. reflexivity. }
    exists a, (new_buffer p i dv.(blksize) bl), (cached s a p (new_buffer p i dv.(blksize) bl) page).
    split; [|split; [eapply refines_insert; eauto | split; [repeat split | split; [cbn; apply lookup_insert_eq | split; [reflexivity | split; [reflexivity|]]]]]].
    + erewrite bind_ok; [| rewrite (bind_ok _ _ _ _ _ Hr); cbv beta; rewrite Z.eqb_refl; cbn [negb]; exact Hmk]. cbv beta.
      rewrite (proj2 (Z.eqb_neq a 0) Hn). unfold read_buffer. erewrite bind_ok; [| apply bufload_run; cbn; apply lookup_insert_eq]. cbv beta.
      change (flag_set (b_flags b0) BUF_UPTODATE) with false. cbv iota.
      erewrite bind_ok; [reflexivity|]. rewrite (bind_ok _ _ _ _ _ Hsub). cbv beta.
      unfold buffer_wait. erewrite bind_ok; [| apply bufload_run; cbn; apply lookup_insert_eq]. reflexivity.
    + unfold page. rewrite block_read_length; lia.
    + intros k Hk Hkl. change (base (new_buffer p i dv.(blksize) bl)) with (base b0) in *. change (span (new_buffer p i dv.(blksize) bl)) with (span b0) in *.
      rewrite Hbl in Hkl. unfold page. apply block_read_lookup; unfold in_range in *; lia.
    + split; cbn.
      * intros q l Hq. rewrite lookup_insert_ne by congruence. exact Hq.
      * intros x c Hx. exists c. rewrite lookup_insert_ne by congruence. split; [exact Hx | reflexivity].
Qed.

End cache.

(** ** I/O on blocks *)

Lemma refines_ext (D D' : nat -> list Z) (s : blk) : (forall i, D i = D' i) -> refines D s -> refines D' s.
Proof.
  intros Heq [H1 H2 H3 H4 H5 H6 H7 H8 H9 H10]. split; try assumption.
  - intros i md dv Hd Hm. rewrite <- Heq. auto.
  - intros a b Hab. destruct (H4 a b Hab) as (Hn & i & md & dv & pg & Hr). split; [exact Hn|]. exists i, md, dv, pg. rewrite <- Heq. exact Hr.
  - intros i md dv j. rewrite <- Heq. apply H10.
Qed.

Lemma upd_disk_twice (D : nat -> list Z) (i : nat) (l l' : list Z) (j : nat) :
  upd_disk (upd_disk D i l) i l' j = upd_disk D i l' j.
Proof. unfold upd_disk. case_decide; reflexivity. Qed.

Lemma same_devices_trans (s1 s2 s3 : blk) : same_devices s1 s2 -> same_devices s2 s3 -> same_devices s1 s3.
Proof. intros (E1 & E2 & E3) (E1' & E2' & E3'). repeat split; congruence. Qed.

Lemma agree_slice (page D : list Z) (bs n start len : nat) :
  agree page bs n D -> (start + len <= n)%nat -> (bs + start + len <= length D)%nat -> (n <= length page)%nat ->
  take len (drop start page) = take len (drop (bs + start) D).
Proof.
  intros Ha Hn Hl Hp. apply list_eq. intros k. destruct (decide (k < len)%nat).
  - rewrite !lookup_take_lt, !lookup_drop by lia. rewrite (Ha (start + k)%nat) by lia. f_equal. lia.
  - rewrite !lookup_take_ge by lia. reflexivity.
Qed.

Section io.

Context `{E : BlkEnv} {L : BlkLaws}.

Lemma release_buffer_run (D : nat -> list Z) (s : blk) (a : Z) (b : buffer) :
  refines D s -> s.(bufs) !! a = Some b ->
  exists s', release_buffer a s = Ok (tt, s') /\ refines D s' /\ same_devices s s' /\ grows s s'.
Proof.
  intros R Hb. destruct (r_bufs _ _ R a b Hb) as (Hn & i & md & dv & pg & Hdv & _ & _ & Ho & Hu & _).
  unfold release_buffer. rewrite (proj2 (Z.eqb_neq a 0) Hn). rewrite (bufupd_run s a b _ Hb).
  eexists. split; [reflexivity|]. split; [|split; [repeat split | split; [auto|]]].
  - eapply refines_touch; [exact R | exact Hb | repeat split | apply Ho | | exact Hu | auto]. cbn. unfold uN. lia.
  - intros x c Hx. cbn. destruct (decide (x = a)) as [-> | Ne].
    + rewrite lookup_insert_eq. rewrite Hb in Hx. injection Hx as <-. eexists. split; [reflexivity | repeat split].
    + rewrite lookup_insert_ne by auto. exists c. split; [exact Hx | reflexivity].
Qed.

Context (i : nat) (bs : Z) (vec : bio_vec).

Context (Hvd : vec.(v_dev) = mod_dev i) (Hvs : vec.(v_blksize) = bs).

Abbreviation nb := (Z.to_nat bs).

Definition on_device (s : blk) : Prop := exists md dv, device s i md dv /\ md.(md_mem) <> 0 /\ dv.(blksize) = bs.

Lemma on_device_same (s s' : blk) : same_devices s s' -> on_device s -> on_device s'.
Proof. intros H (md & dv & Hdv & Hr). exists md, dv. split; [eapply same_devices_device; eassumption | exact Hr]. Qed.

(** Up to the copy: the buffer of the block is there, with the device's bytes. *)
Lemma block_io_begin (D : nat -> list Z) (s : blk) (iobuf : list Z) (rw : Z) (b nr start end_ : nat) (bl : Z) :
  refines D s -> on_device s -> vec.(v_block) !! b = Some bl -> 0 <= bl -> bl * bs < Z.of_nat (length (D i)) ->
  (start <= end_ <= nb)%nat ->
  exists a bf page s1, refines D s1 /\ same_devices s s1 /\ on_device s1 /\ s1.(bufs) !! a = Some bf /\ bf.(b_dev) = mod_dev i /\
    s1.(bpages) !! bf.(b_data) = Some page /\ base bf = Z.to_nat (bl * bs) /\ span bf = nb /\ Z.of_nat (length page) = 4096 /\
    (nb <= 4096)%nat /\ agree page (base bf) (span bf) (D i) /\
    block_io vec iobuf rw (Z.of_nat b) (Z.of_nat nr) (Z.of_nat start) (Z.of_nat end_) s =
    (iobuf ← (if rw =? READ then st_res (memcpy_at iobuf (Z.of_nat nr) page (Z.of_nat start) (Z.of_nat (end_ - start)))
              else
                page ← st_res (memcpy_at page (Z.of_nat start) iobuf (Z.of_nat nr) (Z.of_nat (end_ - start)));
                pgstore bf.(b_data) page ;;
                bufupd a (fun b => b_set_flags b (Z.lor b.(b_flags) BUF_DIRTY)) ;;
                mret iobuf);
     release_buffer a ;;
     mret iobuf) s1.
Proof.
  intros R Hon Hv H0 Hlt Hse. destruct Hon as (md & dv & Hdv & Hm & Hbs).
  rewrite <- Hbs in Hlt. destruct (read_block_run D s i md dv bl R Hdv Hm H0 Hlt) as (a & bf & s1 & Hr & R1 & Hsd & Hb & Ed & Eb & _).
  pose proof (same_devices_device _ _ _ _ _ Hsd Hdv) as Hdv1.
  destruct (buffer_device _ _ _ _ _ _ _ R1 Hb Ed Hdv1) as (_ & _ & page & Hp & Ho & _ & Hag & _).
  pose proof (r_devs _ _ R i md dv Hdv Hm) as Hd. destruct (valid_blksize_bounds _ (d_blksize _ _ _ _ Hd)) as [Hbb _].
  pose proof (o_size _ _ _ _ _ Ho) as Es.
  exists a, bf, page, s1. split; [exact R1|]. split; [exact Hsd|]. split; [exists md, dv; auto|]. split; [exact Hb|]. split; [exact Ed|].
  split; [exact Hp|]. split; [unfold base; rewrite Eb, Es, Hbs; reflexivity|]. split; [unfold span; rewrite Es, Hbs; reflexivity|].
  split; [apply Ho|]. split; [lia|]. split; [exact Hag|].
  unfold block_io. assert (aload (v_block vec) (Z.of_nat b) = Ok bl) as Hl by (apply aload_ok; rewrite Nat2Z.id; split; [lia | exact Hv]).
  erewrite bind_ok; [| unfold st_res; rewrite Hl; reflexivity]. cbv beta. rewrite Hvd, Hvs, <- Hbs.
  rewrite (bind_ok _ _ _ _ _ Hr). cbv beta. rewrite (bind_ok _ _ _ _ _ (bufload_run s1 a bf Hb)). cbv beta.
  rewrite (bind_ok _ _ _ _ _ (pgload_run s1 _ page Hp)). cbv beta.
  replace (u32 (Z.of_nat end_ - Z.of_nat start)) with (Z.of_nat (end_ - start)); [reflexivity|].
  rewrite uN_id; [lia|]. change (2 ^ 32) with 4294967296. lia.
Qed.

Lemma memcpy_at_in (dst src : list Z) (doff soff n : nat) :
  (doff + n <= length dst)%nat -> (soff + n <= length src)%nat ->
  memcpy_at dst (Z.of_nat doff) src (Z.of_nat soff) (Z.of_nat n) = Ok (splice doff (take n (drop soff src)) dst).
Proof.
  intros H1 H2. unfold memcpy_at. rewrite !(proj2 (Z.leb_le _ _)) by lia. cbn [andb]. rewrite !Nat2Z.id. reflexivity.
Qed.

Lemma block_io_read (D : nat -> list Z) (s : blk) (iobuf : list Z) (b nr start n : nat) (bl : Z) :
  refines D s -> on_device s -> vec.(v_block) !! b = Some bl -> 0 <= bl -> bl * bs < Z.of_nat (length (D i)) ->
  (start + n <= nb)%nat -> (Z.to_nat (bl * bs) + start + n <= length (D i))%nat -> (nr + n <= length iobuf)%nat ->
  exists s', block_io vec iobuf READ (Z.of_nat b) (Z.of_nat nr) (Z.of_nat start) (Z.of_nat (start + n)) s =
      Ok (splice nr (take n (drop (Z.to_nat (bl * bs) + start) (D i))) iobuf, s') /\
    refines D s' /\ same_devices s s'.
Proof.
  intros R Hon Hv H0 Hlt Hn Hd Hi.
  destruct (block_io_begin D s iobuf READ b nr start (start + n) bl R Hon Hv H0 Hlt ltac:(lia))
    as (a & bf & page & s1 & R1 & Hsd & Hon1 & Hb & Ed & Hp & Eba & Esp & Hpl & Hnb & Hag & ->).
  destruct (release_buffer_run D s1 a bf R1 Hb) as (s2 & Hr & R2 & Hsd2 & _).
  exists s2. split; [|split; [exact R2 | eapply same_devices_trans; eassumption]].
  rewrite Z.eqb_refl. replace (start + n - start)%nat with n by lia.
  erewrite bind_ok; [| unfold st_res; rewrite memcpy_at_in by lia; reflexivity]. cbv beta.
  rewrite (bind_ok _ _ _ _ _ Hr). cbv beta. rewrite Eba, Esp in Hag.
  rewrite (agree_slice _ _ _ _ _ _ Hag) by lia. reflexivity.
Qed.

Lemma block_io_write (D : nat -> list Z) (s : blk) (iobuf : list Z) (b nr start n : nat) (bl : Z) :
  refines D s -> on_device s -> vec.(v_block) !! b = Some bl -> 0 <= bl -> bl * bs < Z.of_nat (length (D i)) ->
  (start + n <= nb)%nat -> (Z.to_nat (bl * bs) + start + n <= length (D i))%nat -> (nr + n <= length iobuf)%nat ->
  exists s', block_io vec iobuf WRITE (Z.of_nat b) (Z.of_nat nr) (Z.of_nat start) (Z.of_nat (start + n)) s = Ok (iobuf, s') /\
    refines (upd_disk D i (splice (Z.to_nat (bl * bs) + start) (take n (drop nr iobuf)) (D i))) s' /\ same_devices s s'.
Proof.
  intros R Hon Hv H0 Hlt Hn Hd Hi.
  destruct (block_io_begin D s iobuf WRITE b nr start (start + n) bl R Hon Hv H0 Hlt ltac:(lia))
    as (a & bf & page & s1 & R1 & Hsd & (md & dv & Hdv & Hm & Hbs) & Hb & Ed & Hp & Eba & Esp & Hpl & Hnb & Hag & ->).
  set (d := take n (drop nr iobuf)). assert (length d = n) as Hdl by (unfold d; rewrite length_take, length_drop; lia).
  assert (refines (upd_disk D i (splice (Z.to_nat (bl * bs) + start) d (D i)))
    (Blk (<[a := b_set_flags bf (Z.lor bf.(b_flags) BUF_DIRTY)]> s1.(bufs)) (<[bf.(b_data) := splice start d page]> s1.(bpages))
       s1.(ht_blocks) s1.(bios) s1.(moddev) s1.(modblk) s1.(blkdev))) as R2.
  { rewrite <- Eba. eapply refines_store; [exact R1 | exact Hb | exact Ed | exact Hdv | exact Hp | lia | lia]. }
  destruct (release_buffer_run _ _ a _ R2 (lookup_insert_eq _ _ _)) as (s3 & Hr & R3 & Hsd3 & _).
  exists s3. split; [|split; [exact R3 | eapply same_devices_trans; [exact Hsd | exact Hsd3]]].
  change (WRITE =? READ) with false. cbv iota. replace (start + n - start)%nat with n by lia.
  erewrite bind_ok; [| erewrite bind_ok; [| unfold st_res; rewrite memcpy_at_in by lia; reflexivity]; cbv beta; fold d;
    erewrite bind_ok; [| reflexivity]; cbv beta; erewrite bind_ok; [| apply bufupd_run; exact Hb]; cbv beta; reflexivity].
  cbv beta. rewrite (bind_ok _ _ _ _ _ Hr). reflexivity.
Qed.

(** [n] blocks hold [start + rem] bytes and no fewer blocks do. *)
Definition blocks_for (n start rem : nat) : Prop :=
  (start + rem <= n * nb)%nat /\ (n = O -> start = O) /\ forall m, n = S m -> (start < nb)%nat /\ (m * nb < start + rem)%nat.

Lemma blocks_for_step (n start rem : nat) :
  blocks_for (S n) start rem ->
  let k := (Nat.min nb (start + rem) - start)%nat in
  (start + k <= nb)%nat /\ (k <= rem)%nat /\ blocks_for n 0 (rem - k) /\ Nat.min nb (start + rem) = (start + k)%nat /\
  (rem - k = 0 \/ start + k = nb)%nat.
Proof.
  intros (H1 & _ & H2) k. destruct (H2 n eq_refl) as [Hs Hn]. unfold k. 
  split; [lia|]. split; [lia|]. split; [|lia]. split; [lia|]. split; [auto|]. intros m ->. split; [lia|]. cbn in *. lia.
Qed.

Lemma blocks_for_rem (n rem : nat) : blocks_for n 0 rem -> n <> O -> (0 < rem)%nat.
Proof. intros (_ & _ & H) Hn. destruct n as [| n]; [contradiction|]. destruct (H n eq_refl). lia. Qed.

Lemma next_end (rem nr k : nat) :
  valid_blksize bs = true -> (k <= rem)%nat -> Z.of_nat (nr + rem) < 2 ^ 31 ->
  s32 (Z.min (u32 bs) (Z.of_nat (nr + rem) -% Z.of_nat (nr + k))) = Z.of_nat (Nat.min nb (0 + (rem - k))).
Proof.
  intros Hv Hk Hs. destruct (valid_blksize_bounds _ Hv) as [Hb _]. change (2 ^ 31) with 2147483648 in *.
  rewrite !uN_id by (change (2 ^ 32) with 4294967296; lia).
  rewrite sN_id by (change (2 ^ (32 - 1)) with 2147483648; lia). lia.
Qed.

(** The blocks of the vector, read one after the other, are the file [F]. *)
Definition vec_reads (D F : list Z) : Prop :=
  forall b, (b * nb < length F)%nat -> exists bl, vec.(v_block) !! b = Some bl /\ 0 <= bl /\
    forall k, (k < nb)%nat -> (b * nb + k < length F)%nat ->
      (Z.to_nat (bl * bs) + k < length D)%nat /\ F !! (b * nb + k)%nat = D !! (Z.to_nat (bl * bs) + k)%nat.

Lemma vec_slice (D F : list Z) (b start n : nat) :
  (0 < nb)%nat -> vec_reads D F -> (b * nb < length F)%nat -> (start + n <= nb)%nat -> (b * nb + start + n <= length F)%nat ->
  exists bl, vec.(v_block) !! b = Some bl /\ 0 <= bl /\ bl * bs < Z.of_nat (length D) /\
    (Z.to_nat (bl * bs) + start + n <= length D)%nat /\
    take n (drop (Z.to_nat (bl * bs) + start) D) = take n (drop (b * nb + start) F).
Proof.
  intros Hnb HF Hb Hn Hl. destruct (HF b Hb) as (bl & Hv & H0 & Hk). exists bl. split; [exact Hv|]. split; [exact H0|].
  destruct (Hk 0%nat) as [Hk0 _]; [lia | lia |]. split; [lia|]. split.
  - destruct (decide (start + n = 0)%nat); [lia|]. destruct (Hk (start + n - 1)%nat); lia.
  - apply list_eq. intros k. destruct (decide (k < n)%nat).
    + rewrite !lookup_take_lt, !lookup_drop by lia. destruct (Hk (start + k)%nat) as [_ Hkk]; [lia | lia |].
      rewrite <- !Nat.add_assoc, Hkk. reflexivity.
    + rewrite !lookup_take_ge by lia. reflexivity.
Qed.

Lemma take_take_drop_split {A : Type} (k n x : nat) (l : list A) :
  (k <= n)%nat -> take k (drop x l) ++ take (n - k) (drop (x + k) l) = take n (drop x l).
Proof. intros H. apply take_join; lia. Qed.

Lemma io_loop_read (F : list Z) (D : nat -> list Z) (n : nat) : 
  valid_blksize bs = true -> vec_reads (D i) F ->
  forall b nr start rem iobuf s, refines D s -> on_device s -> blocks_for n start rem ->
  (n <> 0 -> b * nb < length F /\ b * nb + start + rem <= length F)%nat -> (nr + rem <= length iobuf)%nat -> Z.of_nat (nr + rem) < 2 ^ 31 ->
  exists s', io_loop n vec iobuf (Z.of_nat (nr + rem)) READ (Z.of_nat b) (Z.of_nat nr) (Z.of_nat start)
      (Z.of_nat (Nat.min nb (start + rem))) s =
      Ok ((Z.of_nat (nr + rem), splice nr (take rem (drop (b * nb + start) F)) iobuf), s') /\
    refines D s' /\ same_devices s s'.
Proof.
  intros Hv HF. destruct (valid_blksize_bounds _ Hv) as [Hbb _].
  induction n as [| n IH]; intros b nr start rem iobuf s R Hon Hbf HlF Hli Hsm.
  - destruct Hbf as [H1 _]. assert (rem = 0)%nat as -> by lia. exists s. rewrite take_0, splice_nil, Nat.add_0_r.
    split; [reflexivity|]. split; [exact R | repeat split].
  - destruct (blocks_for_step n start rem Hbf) as (Hk1 & Hk2 & Hbf' & Ee & Hlast).
    set (k := (Nat.min nb (start + rem) - start)%nat) in *. rewrite Ee. destruct (HlF ltac:(lia)) as [HbF HeF].
    destruct (vec_slice (D i) F b start k) as (bl & Hvb & H0 & Hlt & Hd & Esl); [lia | exact HF | exact HbF | exact Hk1 | lia |].
    destruct (block_io_read D s iobuf b nr start k bl R Hon Hvb H0 Hlt Hk1 Hd ltac:(lia)) as (s1 & Hr & R1 & Hsd).
    cbn [io_loop]. rewrite (bind_ok _ _ _ _ _ Hr). cbv beta zeta. rewrite Hvs, Esl.
    set (iobuf1 := splice nr (take k (drop (b * nb + start) F)) iobuf).
    assert (length (take k (drop (b * nb + start) F)) = k) as Hlk by (rewrite length_take, length_drop; lia).
    assert (length iobuf1 = length iobuf) as Hl1 by (unfold iobuf1; apply splice_length; lia).
    replace (Z.of_nat nr +% (Z.of_nat (start + k) - Z.of_nat start)) with (Z.of_nat (nr + k))
      by (rewrite uN_id; change (2 ^ 32) with 4294967296; change (2 ^ 31) with 2147483648 in *; lia).
    rewrite next_end by assumption. replace (Z.of_nat b + 1) with (Z.of_nat (Datatypes.S b)) by lia.
    replace (nr + rem)%nat with (nr + k + (rem - k))%nat in * by lia.
    destruct (IH (Datatypes.S b) (nr + k)%nat 0%nat (rem - k)%nat iobuf1 s1 R1) as (s2 & Hl & R2 & Hsd2);
      [eapply on_device_same; eassumption | exact Hbf' | | lia | exact Hsm |].
    { intros Hn. apply blocks_for_rem in Hbf'; [|exact Hn]. cbn. lia. }
    exists s2. split; [|split; [exact R2 | eapply same_devices_trans; eassumption]].
    change 0 with (Z.of_nat 0) at 1. rewrite Hl. f_equal. f_equal. f_equal. unfold iobuf1.
    rewrite <- Hlk at 1. rewrite splice_splice by lia. f_equal. apply take_join; [lia|]. destruct Hlast; [left; lia | right; lia].
Qed.

(** The blocks of the vector are consecutive. *)
Definition vec_seq (first : Z) (n : nat) : Prop := forall b, (b < n)%nat -> vec.(v_block) !! b = Some (first + Z.of_nat b).

Lemma io_loop_write (first : Z) (total : nat) (iobuf : list Z) (n : nat) :
  valid_blksize bs = true -> 0 <= first -> vec_seq first total ->
  forall b nr start rem D s, refines D s -> on_device s -> blocks_for n start rem -> (b + n <= total)%nat ->
  let at_ := (Z.to_nat (first * bs) + b * nb)%nat in
  (n <> 0 -> at_ < length (D i) /\ at_ + start + rem <= length (D i))%nat -> (nr + rem <= length iobuf)%nat ->
  Z.of_nat (nr + rem) < 2 ^ 31 ->
  exists s', io_loop n vec iobuf (Z.of_nat (nr + rem)) WRITE (Z.of_nat b) (Z.of_nat nr) (Z.of_nat start)
      (Z.of_nat (Nat.min nb (start + rem))) s = Ok ((Z.of_nat (nr + rem), iobuf), s') /\
    refines (upd_disk D i (splice (at_ + start) (take rem (drop nr iobuf)) (D i))) s' /\ same_devices s s'.
Proof.
  intros Hv Hf HS. destruct (valid_blksize_bounds _ Hv) as [Hbb _].
  induction n as [| n IH]; intros b nr start rem D s R Hon Hbf Hbn at_ Hat Hli Hsm.
  - destruct Hbf as [H1 _]. assert (rem = 0)%nat as -> by lia. exists s. rewrite Nat.add_0_r. split; [reflexivity|].
    split; [|repeat split]. eapply refines_ext; [|exact R]. intros j. rewrite take_0, splice_nil. unfold upd_disk. case_decide; congruence.
  - destruct (blocks_for_step n start rem Hbf) as (Hk1 & Hk2 & Hbf' & Ee & Hlast).
    set (k := (Nat.min nb (start + rem) - start)%nat) in *. rewrite Ee.
    destruct (Hat ltac:(lia)) as [Hat1 Hat2].
    assert (Z.to_nat ((first + Z.of_nat b) * bs) = at_) as Eat by (unfold at_; nia).
    destruct (block_io_write D s iobuf b nr start k (first + Z.of_nat b) R Hon) as (s1 & Hr & R1 & Hsd);
      [apply HS; lia | lia | nia | exact Hk1 | rewrite Eat; lia | lia |].
    cbn [io_loop]. rewrite (bind_ok _ _ _ _ _ Hr). cbv beta zeta. rewrite Hvs. rewrite Eat in R1.
    set (D1 := upd_disk D i (splice (at_ + start) (take k (drop nr iobuf)) (D i))) in *.
    assert (length (take k (drop nr iobuf)) = k) as Hlk by (rewrite length_take, length_drop; lia).
    assert (D1 i = splice (at_ + start) (take k (drop nr iobuf)) (D i)) as ED1 by apply upd_disk_eq.
    assert (length (D1 i) = length (D i)) as Hl1 by (rewrite ED1; apply splice_length; lia).
    replace (Z.of_nat nr +% (Z.of_nat (start + k) - Z.of_nat start)) with (Z.of_nat (nr + k))
      by (rewrite uN_id; change (2 ^ 32) with 4294967296; change (2 ^ 31) with 2147483648 in *; lia).
    rewrite next_end by assumption. replace (Z.of_nat b + 1) with (Z.of_nat (Datatypes.S b)) by lia.
    replace (nr + rem)%nat with (nr + k + (rem - k))%nat in * by lia.
    assert (Z.to_nat (first * bs) + Datatypes.S b * nb = at_ + nb)%nat as Eat' by (unfold at_; cbn; lia).
    destruct (IH (Datatypes.S b) (nr + k)%nat 0%nat (rem - k)%nat D1 s1 R1) as (s2 & Hl2 & R2 & Hsd2);
      [eapply on_device_same; eassumption | exact Hbf' | lia | | lia | exact Hsm |].
    { intros Hn. apply blocks_for_rem in Hbf'; [|exact Hn]. rewrite Eat', Hl1. lia. }
    exists s2. split; [|split; [|eapply same_devices_trans; eassumption]].
    + change 0 with (Z.of_nat 0) at 1. exact Hl2.
    + eapply refines_ext; [|exact R2]. intros j. unfold D1 at 1. rewrite upd_disk_twice, ED1. f_equal.
      rewrite Eat', <- (take_take_drop_split k rem nr iobuf) by lia.
      destruct Hlast as [E0 | E0].
      * rewrite E0, take_0, splice_nil, app_nil_r. reflexivity.
      * replace (at_ + nb + 0)%nat with (at_ + start + length (take k (drop nr iobuf)))%nat by lia. apply splice_splice. lia.
Qed.

End io.

(** ** Whole requests *)

Lemma io_geometry (bs : Z) (pos len : nat) (nb := Z.to_nat bs) (n := Z.to_nat (io_block_count bs (Z.of_nat pos) (Z.of_nat len))) :
  valid_blksize bs = true -> Z.of_nat (pos + len) < 2 ^ 31 ->
  blocks_for bs n (pos mod nb) len /\ io_off_to_block bs (Z.of_nat pos) = Z.of_nat (pos / nb) /\
  io_block_off bs (Z.of_nat pos) = Z.of_nat (pos mod nb) /\
  s32 (Z.of_nat (pos mod nb)) = Z.of_nat (pos mod nb) /\
  s32 (Z.min (u32 bs) (Z.of_nat (pos mod nb) +% Z.of_nat len)) = Z.of_nat (Nat.min nb (pos mod nb + len)) /\
  (pos / nb * nb + pos mod nb = pos)%nat /\ io_block_count bs (Z.of_nat pos) (Z.of_nat len) = Z.of_nat n.
Proof.
  intros Hv Hs. destruct (valid_blksize_bounds _ Hv) as [Hb _]. assert (Z.of_nat nb = bs) as Enb by lia.
  pose proof (Nat.div_mod_eq pos nb) as Hdm. pose proof (Nat.mod_upper_bound pos nb ltac:(lia)) as Hmb.
  assert (Z.of_nat (pos mod nb) = Z.of_nat pos mod bs) as Em by (rewrite Nat2Z.inj_mod, Enb; reflexivity).
  assert (Z.of_nat (pos / nb) = Z.of_nat pos / bs) as Ed by (rewrite Nat2Z.inj_div, Enb; reflexivity).
  assert (io_block_count bs (Z.of_nat pos) (Z.of_nat len) = (Z.of_nat (pos mod nb) + Z.of_nat len + bs - 1) / bs) as Ec
    by (rewrite io_block_count_spec by (auto; lia); rewrite Em; reflexivity).
  rewrite io_off_to_block_spec, io_block_off_spec, <- Em, <- Ed by (auto; lia).
  set (r := (pos mod nb)%nat) in *. change (2 ^ 31) with 2147483648 in *.
  pose proof (Z.div_mod (Z.of_nat r + Z.of_nat len + bs - 1) bs ltac:(lia)) as Hq.
  pose proof (Z.mod_pos_bound (Z.of_nat r + Z.of_nat len + bs - 1) bs ltac:(lia)) as Hqb.
  set (q := (Z.of_nat r + Z.of_nat len + bs - 1) / bs) in *. assert (0 <= q) by (apply Z.div_pos; lia).
  assert (Z.of_nat n = q) as En by (unfold n; lia). clearbody q r n.
  split.
  { unfold blocks_for. fold nb. split; [nia|]. split; [intros E0; nia|]. intros m ->. split; [lia | nia]. }
  split; [reflexivity|]. split; [reflexivity|]. split; [apply sN_id; change (2 ^ (32 - 1)) with 2147483648; lia|].
  split; [|split; lia].
  rewrite !uN_id by (change (2 ^ 32) with 4294967296; lia).
  rewrite sN_id by (change (2 ^ (32 - 1)) with 2147483648; lia). lia.
Qed.

Lemma refines_bios (D : nat -> list Z) (s : blk) (m : gmap Z bio_vec) : refines D s -> refines D (set_bios s m).
Proof. intros R. split; apply R. Qed.

Section requests_run.

Context `{E : BlkEnv} {L : BlkLaws}.

Lemma bioload_run (s : blk) (a : Z) (v : bio_vec) : s.(bios) !! a = Some v -> bioload a s = Ok (v, s).
Proof. intros H. unfold bioload. rewrite H. reflexivity. Qed.

(** Reading through a vector is reading from the file its blocks make up. *)
Lemma bio_do_io_read (D : nat -> list Z) (s : blk) (a : Z) (vec : bio_vec) (i : nat) (F iobuf : list Z) (pos len : nat) :
  refines D s -> s.(bios) !! a = Some vec -> vec.(v_dev) = mod_dev i -> on_device i vec.(v_blksize) s ->
  vec_reads vec.(v_blksize) vec (D i) F -> valid_blksize vec.(v_blksize) = true ->
  (pos + len <= length F)%nat -> Z.of_nat (pos + len) < 2 ^ 31 -> (len <= length iobuf)%nat ->
  exists s', bio_do_io a iobuf (Z.of_nat len) (Z.of_nat pos) READ s =
      Ok ((Z.of_nat len, splice 0 (take len (drop pos F)) iobuf), s') /\ refines D s' /\ same_devices s s'.
Proof.
  intros R Ha Hd Hon HF Hv Hl Hs Hi. destruct (io_geometry vec.(v_blksize) pos len Hv Hs) as (Hbf & Eo & Eb & Es & Ee & Ep & _).
  destruct (valid_blksize_bounds _ Hv) as [Hb _].
  unfold bio_do_io. rewrite (bind_ok _ _ _ _ _ (bioload_run s a vec Ha)). cbv beta zeta. rewrite Eb, Es, Ee, Eo.
  destruct (io_loop_read i _ vec Hd eq_refl F D _ Hv HF (pos / Z.to_nat vec.(v_blksize))%nat 0%nat (pos mod Z.to_nat vec.(v_blksize))%nat
    len iobuf s R Hon Hbf) as (s' & Hr & R' & Hsd); [| lia | cbn; change (2 ^ 31) with 2147483648 in *; lia |].
  { intros Hn. rewrite Ep. split; [|exact Hl]. destruct Hbf as (_ & _ & Hm).
    destruct (Z.to_nat (io_block_count (v_blksize vec) (Z.of_nat pos) (Z.of_nat len))) as [| m]; [contradiction|].
    destruct (Hm m eq_refl). lia. }
  exists s'. split; [|auto]. change 0 with (Z.of_nat 0) at 1. rewrite (bind_ok _ _ _ _ _ Hr). cbv beta. cbn [fst snd]. rewrite Ep.
  cbn [Nat.add]. rewrite sN_id; [reflexivity | lia | change (2 ^ (32 - 1)) with (2 ^ 31); lia].
Qed.

Lemma bio_do_io_write (D : nat -> list Z) (s : blk) (a : Z) (vec : bio_vec) (i : nat) (first : Z) (n : nat) (iobuf : list Z) (start len : nat) :
  refines D s -> s.(bios) !! a = Some vec -> vec.(v_dev) = mod_dev i -> on_device i vec.(v_blksize) s ->
  0 <= first -> vec_seq vec first n -> valid_blksize vec.(v_blksize) = true -> (start < Z.to_nat vec.(v_blksize))%nat ->
  io_block_count vec.(v_blksize) (Z.of_nat start) (Z.of_nat len) = Z.of_nat n ->
  let p := (Z.to_nat (first * vec.(v_blksize)) + start)%nat in
  (p + len <= length (D i))%nat -> Z.of_nat (p + len) < 2 ^ 31 -> (len <= length iobuf)%nat ->
  exists s', bio_do_io a iobuf (Z.of_nat len) (Z.of_nat start) WRITE s = Ok ((Z.of_nat len, iobuf), s') /\
    refines (upd_disk D i (splice p (take len iobuf) (D i))) s' /\ same_devices s s'.
Proof.
  intros R Ha Hd Hon Hf Hseq Hv Hst Hn p Hl Hs Hi.
  destruct (io_geometry vec.(v_blksize) start len Hv ltac:(unfold p in *; lia)) as (Hbf & Eo & Eb & Es & Ee & Ep & _).
  destruct (valid_blksize_bounds _ Hv) as [Hb _]. rewrite Hn, Nat2Z.id in Hbf.
  rewrite (Nat.mod_small start) in * by lia. rewrite (Nat.div_small start) in * by lia.
  unfold bio_do_io. rewrite (bind_ok _ _ _ _ _ (bioload_run s a vec Ha)). cbv beta zeta. rewrite Eb, Es, Ee, Eo, Hn, Nat2Z.id.
  destruct (io_loop_write i _ vec Hd eq_refl first n iobuf n Hv Hf Hseq 0%nat 0%nat start len D s R Hon Hbf) as (s' & Hr & R' & Hsd);
    [lia | | lia | cbn; change (2 ^ 31) with 2147483648 in *; lia |].
  { intros Hn0. destruct Hbf as (_ & _ & Hm). destruct n as [| m]; [contradiction|]. destruct (Hm m eq_refl) as [_ Hm0]. apply (Nat.le_lt_trans 0) in Hm0; [|apply Nat.le_0_l].
    unfold p in *. cbn. clear - Hl Hm0. lia. }
  exists s'. rewrite Nat.mul_0_l, Nat.add_0_r in R'. split; [|auto].
  change 0 with (Z.of_nat 0) at 1. rewrite (bind_ok _ _ _ _ _ Hr). cbv beta. cbn [fst snd Nat.add].
  rewrite sN_id; [reflexivity | lia | change (2 ^ (32 - 1)) with (2 ^ 31); lia].
Qed.

Lemma fill_sequential_run (s : blk) (a dev cnt bs first : Z) (l0 : list Z) (n : nat) :
  s.(bios) !! a = Some (BioVec dev cnt bs l0) -> (n <= length l0)%nat -> 0 <= first -> first + Z.of_nat n < 2 ^ 31 ->
  exists l, fill_sequential a first (Z.of_nat n) s = Ok (tt, set_bios s (<[a := BioVec dev cnt bs l]> s.(bios))) /\
    forall b, (b < n)%nat -> l !! b = Some (first + Z.of_nat b).
Proof.
  intros Ha Hl Hf Hs. unfold fill_sequential. rewrite Nat2Z.id.
  destruct (for_each_rule (fun (done : list Z) s' => exists l, s' = set_bios s (<[a := BioVec dev cnt bs l]> s.(bios)) /\ length l = length l0 /\
      forall b, (b < length done)%nat -> l !! b = Some (first + Z.of_nat b)) (fun i => bio_set a i (s32 (first + i))) (zseq 0 n) s)
    as (s' & Hr & l & -> & _ & Hlk).
  - exists l0. split; [|split; [reflexivity | cbn; intros; lia]]. rewrite insert_id by exact Ha. destruct s. reflexivity.
  - intros done x rest s1 Eq (l & -> & Hll & Hlk).
    apply zseq_split in Eq as [-> Hdn]. rewrite Z.add_0_l.
    unfold bio_set. erewrite bind_ok; [| apply bioload_run; cbn; apply lookup_insert_eq]. cbv beta.
    erewrite bind_ok; [| unfold st_res; cbn [v_block]; rewrite astore_in by lia; cbn [res_bind]; reflexivity]. cbv beta.
    eexists. split; [reflexivity|]. rewrite Nat2Z.id. eexists. split; [unfold set_bios; cbn; rewrite insert_insert_eq; reflexivity|].
    split; [rewrite length_insert; exact Hll|]. intros b Hb. rewrite length_app in Hb. cbn in Hb.
    destruct (decide (b = length done)) as [-> | Ne].
    + rewrite list_lookup_insert_eq by lia. f_equal. apply sN_id; [lia|]. change (2 ^ (32 - 1)) with (2 ^ 31). lia.
    + rewrite list_lookup_insert_ne by lia. apply Hlk. lia.
  - exists l. split; [exact Hr|]. intros b Hb. apply Hlk. rewrite zseq_length. exact Hb.
Qed.

End requests_run.

(** ** Writing back *)

(** Buffers may go, devices stay. *)
Record shrinks (s s' : blk) : Prop := {
  k_bufs : forall a b, s'.(bufs) !! a = Some b -> s.(bufs) !! a = Some b;
  k_modblk : s'.(modblk) = s.(modblk);
  k_mods : forall i md, s.(moddev) !! i = Some md -> exists md', s'.(moddev) !! i = Some md' /\ md'.(md_mem) = md.(md_mem);
}.

#[export] Instance shrinks_preorder : PreOrder shrinks.
Proof.
  split.
  - intros s. split; eauto.
  - intros s1 s2 s3 [H1 H2 H3] [H1' H2' H3']. split; [auto | congruence |]. intros i md Hi. destruct (H3 i md Hi) as (md2 & Hi2 & <-). auto.
Qed.

Section write_back.

Context `{E : BlkEnv} {L : BlkLaws}.

Lemma freed_shrinks (s s' : blk) (a : Z) (b : buffer) :
  s'.(bufs) = delete a s.(bufs) -> s'.(modblk) = s.(modblk) ->
  (forall i md, s.(moddev) !! i = Some md -> exists md', s'.(moddev) !! i = Some md' /\ md'.(md_mem) = md.(md_mem)) -> shrinks s s'.
Proof. intros E1 E2 E3. split; [|exact E2 | exact E3]. intros x c Hx. rewrite E1 in Hx. apply lookup_delete_Some in Hx as [_ Hx]. exact Hx. Qed.

Lemma free_buffer_run (s : blk) (a : Z) (b : buffer) :
  s.(bufs) !! a = Some b -> b.(b_count) = 0 -> free_buffer a s = Ok (tt, freed s a b).
Proof.
  intros Hb Hc. unfold free_buffer. rewrite (bind_ok _ _ _ _ _ (bufload_run s a b Hb)). cbv beta. rewrite Hc, Z.eqb_refl. reflexivity.
Qed.

Lemma flush_free_run (D : nat -> list Z) (s : blk) (a : Z) (b : buffer) :
  refines D s -> s.(bufs) !! a = Some b -> b.(b_count) = 0 ->
  exists s', (flush_buffer a ;; free_buffer a) s = Ok (tt, s') /\ refines D s' /\ shrinks s s' /\ s'.(bufs) = delete a s.(bufs).
Proof.
  intros R Hb Hc. destruct (r_bufs _ _ R a b Hb) as (Hn & i & md & dv & pg & Hdv & Hm & Hp & Ho & Hu & Hag & Hcl).
  pose proof (r_devs _ _ R i md dv Hdv Hm) as Hd. pose proof (o_dev _ _ _ _ _ Ho) as Ed.
  unfold flush_buffer. destruct (flag_set b.(b_flags) BUF_DIRTY) eqn:Hdi.
  - destruct (refines_flush D s a b i md dv pg R Hb Ed Hdv Hp) as [R1 Hagb].
    set (bytes := splice (base b) (take (in_range b (D i)) pg) md.(md_bytes)) in *.
    set (s1 := after_write s a b (<[i := md_store md bytes]> s.(moddev))) in *.
    set (b1 := b_set_flags b (Z.lor b.(b_flags) BUF_UPTODATE)).
    assert (s1.(bufs) !! a = Some b1) as Hb1 by (cbn; apply lookup_insert_eq).
    exists (freed s1 a b1). split; [|split; [|split]].
    + erewrite bind_ok; [| rewrite (bind_ok _ _ _ _ _ (bufload_run s a b Hb)); cbv beta; rewrite Hdi;
        erewrite bind_ok; [| exact (submit_write_run s a b i (D i) md dv pg (device_lt D s i md dv R Hdv) Hn Hb (r_driver _ _ R) Hdv Hp Hd Ho)]; cbv beta; fold bytes s1;
        unfold buffer_wait; erewrite bind_ok; [| apply bufload_run, Hb1]; cbv beta; cbn [b_lock b_set_flags b1];
        rewrite (o_lock _ _ _ _ _ Ho); reflexivity].
      cbv beta. apply free_buffer_run; [exact Hb1 | exact Hc].
    + eapply (refines_remove D s1 a b1 i (md_store md bytes) dv pg); [exact R1 | exact Hb1 | exact Ed | | exact Hp | exact Hagb].
      split; [cbn; apply list_lookup_insert_eq; eapply lookup_lt_Some, Hdv | apply Hdv].
    + eapply freed_shrinks; [exact b1 | cbn; rewrite delete_insert_eq; reflexivity | reflexivity|]. cbn. intros j mdj Hj.
      destruct (decide (j = i)) as [-> | Ne].
      * rewrite list_lookup_insert_eq by (eapply lookup_lt_Some, Hj). eexists. split; [reflexivity|]. cbn. destruct Hdv as [E1 _]. congruence.
      * rewrite list_lookup_insert_ne by auto. eauto.
    + cbn. rewrite delete_insert_eq. reflexivity.
  - exists (freed s a b). split; [|split; [|split]].
    + erewrite bind_ok; [| rewrite (bind_ok _ _ _ _ _ (bufload_run s a b Hb)); cbv beta; rewrite Hdi; reflexivity].
      cbv beta. apply free_buffer_run; assumption.
    + eapply refines_remove; eauto.
    + eapply freed_shrinks; [exact b | reflexivity.. | eauto].
    + reflexivity.
Qed.

Lemma clear_one_run (D : nat -> list Z) (s : blk) (a : Z) (b : buffer) :
  refines D s -> s.(bufs) !! a = Some b ->
  exists s', clear_one a s = Ok (tt, s') /\ refines D s' /\ shrinks s s' /\ (forall x, x <> a -> s'.(bufs) !! x = s.(bufs) !! x).
Proof.
  intros R Hb. unfold clear_one. destruct (r_bufs _ _ R a b Hb) as (_ & i & md & dv & pg & _ & _ & _ & Ho & _).
  rewrite (bind_ok _ _ _ _ _ (bufload_run s a b Hb)). cbv beta. rewrite (o_lock _ _ _ _ _ Ho). cbn [orb].
  destruct (Z.ltb_spec 0 b.(b_count)) as [Hc | Hc].
  - exists s. split; [reflexivity|]. split; [exact R|]. split; [reflexivity | reflexivity].
  - pose proof (o_count _ _ _ _ _ Ho). destruct (flush_free_run D s a b R Hb ltac:(lia)) as (s' & Hr & R' & Hk & Eb).
    exists s'. split; [exact Hr|]. split; [exact R'|]. split; [exact Hk|]. intros x Hx. rewrite Eb. apply lookup_delete_ne. auto.
Qed.

Lemma clear_chain_run (D : nat -> list Z) (l : list Z) (s : blk) :
  refines D s -> NoDup l -> (forall a, a ∈ l -> is_Some (s.(bufs) !! a)) ->
  exists s', for_each l clear_one s = Ok (tt, s') /\ refines D s' /\ shrinks s s'.
Proof.
  intros R Hnd Hl. destruct (for_each_rule (fun done s' => refines D s' /\ shrinks s s' /\ forall a, a ∈ l -> a ∉ done -> is_Some (s'.(bufs) !! a)) clear_one l s)
    as (s' & Hr & R' & Hk & _); [split; [exact R | split; [reflexivity | auto]] | | exists s'; auto].
  intros done x rest s1 Eq (R1 & Hk & Hin).
  assert (x ∉ done) as Hx by (rewrite Eq in Hnd; apply NoDup_app in Hnd as (_ & Hdis & _); intros Hd; apply (Hdis x Hd), list_elem_of_here).
  assert (x ∈ l) as Hxl by (rewrite Eq; apply elem_of_app; right; apply list_elem_of_here).
  destruct (Hin x Hxl Hx) as [b Hb]. destruct (clear_one_run D s1 x b R1 Hb) as (s2 & Hr & R2 & Hk2 & Hne).
  exists s2. split; [exact Hr|]. split; [exact R2|]. split; [etransitivity; eassumption|].
  intros a Ha Hnd'. rewrite not_elem_of_app, list_elem_of_singleton in Hnd'. destruct Hnd' as [Hnd1 Hnx]. rewrite Hne by exact Hnx. auto.
Qed.

Lemma chain_bufs (D : nat -> list Z) (s : blk) (k a : Z) :
  refines D s -> a ∈ default [] (s.(ht_blocks) !! k) -> is_Some (s.(bufs) !! a).
Proof. intros R Ha. destruct (r_hash _ _ R k a Ha) as (b & Hb & _). eauto. Qed.

Lemma clear_buffer_cache_run (D : nat -> list Z) (s : blk) :
  refines D s -> exists s', clear_buffer_cache s = Ok (tt, s') /\ refines D s' /\ shrinks s s'.
Proof.
  intros R. unfold clear_buffer_cache.
  destruct (for_each_rule (fun _ s' => refines D s' /\ shrinks s s') (fun k => h ← gets ht_blocks; for_each (default [] (h !! k)) clear_one) (zseq 0 512) s)
    as (s' & Hr & R' & Hk); [split; [exact R | reflexivity] | | exists s'; auto].
  intros done k rest s1 _ [R1 Hk]. erewrite bind_ok; [| unfold gets; reflexivity]. cbv beta.
  destruct (clear_chain_run D (default [] (s1.(ht_blocks) !! k)) s1 R1) as (s2 & Hr & R2 & Hk2); [apply R1 | intros a; apply (chain_bufs D), R1 |].
  exists s2. split; [exact Hr|]. split; [exact R2 | etransitivity; eassumption].
Qed.

Definition result_ok (r : Z) : Prop := r = 0 \/ r = - EBUSY.

Lemma free_chain_run (D : nat -> list Z) (dev : Z) (l : list Z) : forall s,
  refines D s -> NoDup l -> (forall a, a ∈ l -> is_Some (s.(bufs) !! a)) ->
  exists r s', free_chain dev l s = Ok (r, s') /\ refines D s' /\ shrinks s s' /\ result_ok r /\
    (r = 0 -> forall a b, a ∈ l -> s'.(bufs) !! a = Some b -> b.(b_dev) <> dev).
Proof.
  induction l as [| x l IH]; intros s R Hnd Hl.
  - exists 0, s. split; [reflexivity|]. split; [exact R|]. split; [reflexivity|]. split; [left; reflexivity|].
    intros _ a b Ha. apply not_elem_of_nil in Ha. contradiction.
  - apply NoDup_cons in Hnd as [Hx Hnd]. destruct (Hl x (list_elem_of_here _ _)) as [b Hb].
    assert (forall a, a ∈ l -> is_Some (s.(bufs) !! a)) as Hl' by (intros a Ha; apply Hl, list_elem_of_further, Ha).
    destruct (r_bufs _ _ R x b Hb) as (_ & i & md & dv & pg & _ & _ & _ & Ho & _).
    cbn [free_chain]. rewrite (bind_ok _ _ _ _ _ (bufload_run s x b Hb)). cbv beta.
    destruct (Z.eqb_spec b.(b_dev) dev) as [Ed | Nd]; cbn [negb].
    + rewrite (o_lock _ _ _ _ _ Ho). erewrite bind_ok; [| reflexivity]. cbv beta. rewrite (bind_ok _ _ _ _ _ (bufload_run s x b Hb)). cbv beta.
      destruct (Z.eqb_spec b.(b_count) 0) as [Hc | Hc]; cbn [negb].
      * destruct (flush_free_run D s x b R Hb Hc) as (s1 & Hr & R1 & Hk & Eb).
        destruct (IH s1 R1 Hnd) as (r & s2 & Hr2 & R2 & Hk2 & Hok & Hres).
        { intros a Ha. rewrite Eb, lookup_delete_ne by (intros ->; contradiction). auto. }
        exists r, s2. split; [|split; [exact R2 | split; [etransitivity; eassumption | split; [exact Hok |]]]].
        -- apply bind_inv in Hr as ([] & s0 & Hf1 & Hf2). rewrite (bind_ok _ _ _ _ _ Hf1). cbv beta. rewrite (bind_ok _ _ _ _ _ Hf2). exact Hr2.
        -- intros Hr0 a c Ha Hac. apply elem_of_cons in Ha as [-> | Ha]; [|apply (Hres Hr0 a c Ha Hac)].
           apply (k_bufs _ _ Hk2) in Hac. rewrite Eb, lookup_delete_eq in Hac. discriminate.
      * exists (- EBUSY), s. split; [reflexivity|]. split; [exact R|]. split; [reflexivity|]. split; [right; reflexivity | discriminate].
    + destruct (IH s R Hnd Hl') as (r & s2 & Hr2 & R2 & Hk2 & Hok & Hres).
      exists r, s2. split; [exact Hr2|]. split; [exact R2|]. split; [exact Hk2|]. split; [exact Hok|].
      intros Hr0 a c Ha Hac. apply elem_of_cons in Ha as [-> | Ha]; [|apply (Hres Hr0 a c Ha Hac)].
      apply (k_bufs _ _ Hk2) in Hac. congruence.
Qed.

Lemma free_buckets_run (D : nat -> list Z) (dev : Z) (ks : list Z) : forall s,
  refines D s ->
  exists r s', free_buckets dev ks s = Ok (r, s') /\ refines D s' /\ shrinks s s' /\ result_ok r /\
    (r = 0 -> forall a b, s'.(bufs) !! a = Some b -> bucket_of b ∈ ks -> b.(b_dev) <> dev).
Proof.
  induction ks as [| k ks IH]; intros s R.
  - exists 0, s. split; [reflexivity|]. split; [exact R|]. split; [reflexivity|]. split; [left; reflexivity|].
    intros _ a b _ Ha. apply not_elem_of_nil in Ha. contradiction.
  - cbn [free_buckets]. erewrite bind_ok; [| unfold gets; reflexivity]. cbv beta.
    destruct (free_chain_run D dev (default [] (s.(ht_blocks) !! k)) s R) as (r & s1 & Hr & R1 & Hk & Hok & Hres);
      [apply R | intros a; apply (chain_bufs D), R |].
    rewrite (bind_ok _ _ _ _ _ Hr). cbv beta. destruct (Z.eqb_spec r 0) as [Hr0 | Hr0]; cbn [negb].
    + destruct (IH s1 R1) as (r2 & s2 & Hr2 & R2 & Hk2 & Hok2 & Hres2).
      exists r2, s2. split; [exact Hr2|]. split; [exact R2|]. split; [etransitivity; eassumption|]. split; [exact Hok2|].
      intros E0 a b Hb Hin. apply elem_of_cons in Hin as [Hin | Hin]; [|apply (Hres2 E0 a b Hb Hin)].
      apply (k_bufs _ _ Hk2) in Hb. apply (Hres Hr0 a b); [|exact Hb].
      rewrite <- Hin. apply (r_hashed _ _ R a b). apply (k_bufs _ _ Hk), Hb.
    + exists r, s1. split; [reflexivity|]. split; [exact R1|]. split; [exact Hk|]. split; [exact Hok | contradiction].
Qed.

Lemma bucket_of_range (b : buffer) : bucket_of b ∈ zseq 0 512.
Proof.
  apply elem_of_zseq. unfold bucket_of, buffer_bucket. pose proof (hash_32_range (u32 (buffer_key b.(b_dev) b.(b_blocknr) b.(b_size))) 9 ltac:(lia)).
  change (2 ^ 9) with 512 in *. lia.
Qed.

Lemma free_device_buffers_run (D : nat -> list Z) (dev : Z) (s : blk) :
  refines D s ->
  exists r s', free_device_buffers dev s = Ok (r, s') /\ refines D s' /\ shrinks s s' /\ result_ok r /\
    (r = 0 -> forall a b, s'.(bufs) !! a = Some b -> b.(b_dev) <> dev).
Proof.
  intros R. destruct (free_buckets_run D dev (zseq 0 512) s R) as (r & s' & Hr & R' & Hk & Hok & Hres).
  exists r, s'. split; [exact Hr|]. split; [exact R'|]. split; [exact Hk|]. split; [exact Hok|].
  intros H0 a b Hb. apply (Hres H0 a b Hb), bucket_of_range.
Qed.

End write_back.

(** ** Devices as arrays of bytes *)

Definition registered (s : blk) (i : nat) : Prop := exists md, s.(moddev) !! i = Some md /\ md.(md_mem) <> 0.

Section device_io.

Context `{E : BlkEnv} {L : BlkLaws}.

Lemma registered_device (D : nat -> list Z) (s : blk) (i : nat) :
  refines D s -> registered s i -> exists md dv, device s i md dv /\ md.(md_mem) <> 0.
Proof.
  intros R (md & Hi & Hm). pose proof (r_slots _ _ R) as [H1 H2]. pose proof (lookup_lt_Some _ _ _ Hi) as Hlt.
  destruct (lookup_lt_is_Some_2 s.(modblk) i) as [dv Hdv]; [lia|]. exists md, dv. split; [split|]; assumption.
Qed.

(** A fresh vector with room for the blocks. *)
Lemma alloc_bio_vec_run (s : blk) (dev bs : Z) (n : nat) :
  Z.of_nat n < 2 ^ 29 ->
  exists a l, alloc_bio_vec dev (Z.of_nat n) bs s = Ok (a, set_bios s (<[a := BioVec dev (Z.of_nat n) bs l]> s.(bios))) /\
    s.(bios) !! a = None /\ (n <= length l)%nat.
Proof.
  intros Hs. change (2 ^ 29) with 536870912 in *.
  set (size := if Z.of_nat n <=? SMALL_BIO_MAX then BIO_VEC_SIZE SMALL_BIO_MAX else BIO_VEC_SIZE (Z.of_nat n)).
  destruct (bio_fresh size s.(bios)) as (a & junk & Ha & Hfr).
  exists a, (junk <$> zseq 0 (Z.to_nat ((size - 12) / 4))). split; [|split; [exact Hfr|]].
  - unfold alloc_bio_vec. erewrite bind_ok; [| unfold gets; reflexivity]. cbv beta zeta. fold size. rewrite Ha. reflexivity.
  - rewrite length_fmap, zseq_length. unfold size, SMALL_BIO_MAX, BIO_VEC_SIZE, uN. change (2 ^ 32) with 4294967296.
    destruct (Z.leb_spec (Z.of_nat n) 8); lia.
Qed.

(** ... filled with consecutive numbers. *)
Lemma sequential_vec_run (s : blk) (dev bs first : Z) (n : nat) :
  0 <= first -> first + Z.of_nat n < 2 ^ 29 ->
  exists a l s1, s1 = set_bios s (<[a := BioVec dev (Z.of_nat n) bs l]> s.(bios)) /\ s.(bios) !! a = None /\
    (forall b, (b < n)%nat -> l !! b = Some (first + Z.of_nat b)) /\
    forall (A : Type) (k : Z -> ST blk A), (bio ← alloc_bio_vec dev (Z.of_nat n) bs; fill_sequential bio first (Z.of_nat n) ;; k bio) s = k a s1.
Proof.
  intros Hf Hs. destruct (alloc_bio_vec_run s dev bs n ltac:(lia)) as (a & l0 & Ha & Hfr & Hcap). change (2 ^ 29) with 536870912 in *.
  set (s0 := set_bios s (<[a := BioVec dev (Z.of_nat n) bs l0]> s.(bios))) in *.
  destruct (fill_sequential_run s0 a dev (Z.of_nat n) bs first l0 n) as (l & Hr & Hl);
    [cbn; apply lookup_insert_eq | exact Hcap | exact Hf | change (2 ^ 31) with 2147483648; lia |].
  exists a, l, (set_bios s (<[a := BioVec dev (Z.of_nat n) bs l]> s.(bios))). split; [reflexivity|]. split; [exact Hfr|]. split; [exact Hl|].
  intros A k. rewrite (bind_ok _ _ _ _ _ Ha). cbv beta. rewrite (bind_ok _ _ _ _ _ Hr). cbv beta.
  unfold s0, set_bios. cbn. rewrite insert_insert_eq. reflexivity.
Qed.

(** How many bytes a request for [len] bytes at [pos] transfers. *)
Definition xfer (D : list Z) (pos len : nat) : nat := Nat.min len (length D - pos).

Lemma free_bio_vec_run (s : blk) (a : Z) (v : bio_vec) :
  s.(bios) !! a = Some v -> free_bio_vec a s = Ok (tt, set_bios s (delete a s.(bios))).
Proof. intros H. unfold free_bio_vec. rewrite (bind_ok _ _ _ _ _ (bioload_run s a v H)). reflexivity. Qed.

(** Up to the transfer of [blkdev_generic_io]. *)
Lemma generic_io_begin (D : nat -> list Z) (s : blk) (i : nat) (md : mod_device) (dv : block_device) (iobuf : list Z) (pos len : nat) (rw : Z)
    (n := xfer (D i) pos len) (bs := dv.(blksize)) (nb := Z.to_nat bs) :
  refines D s -> device s i md dv -> md.(md_mem) <> 0 -> (pos <= length (D i))%nat ->
  exists a l s1, refines D s1 /\ moddev s1 = moddev s /\ modblk s1 = modblk s /\ s.(bios) !! a = None /\
    s1.(bios) = <[a := BioVec (mod_dev i) (io_block_count bs (Z.of_nat pos) (Z.of_nat n)) bs l]> s.(bios) /\
    (forall b, (b < Z.to_nat (io_block_count bs (Z.of_nat pos) (Z.of_nat n)))%nat -> l !! b = Some (Z.of_nat (pos / nb) + Z.of_nat b)) /\
    blkdev_generic_io (mod_dev i) iobuf (Z.of_nat len) (Z.of_nat pos) rw s =
      (r ← bio_do_io a iobuf (Z.of_nat n) (Z.of_nat (pos mod nb)) rw;
       free_bio_vec a ;;
       mret (r, if 0 <? r.1 then Z.of_nat pos +% r.1 else Z.of_nat pos)) s1.
Proof.
  intros R Hdv Hm Hpos. pose proof (r_devs _ _ R i md dv Hdv Hm) as Hd. pose proof (d_small _ _ _ _ Hd) as Hsm.
  pose proof (d_blksize _ _ _ _ Hd) as Hv. destruct (valid_blksize_bounds _ Hv) as [Hbb _]. fold bs in Hbb, Hv.
  assert (pos + n <= length (D i))%nat as Hn by (unfold n, xfer; lia).
  change (2 ^ 31) with 2147483648 in *.
  destruct (io_geometry bs pos n Hv ltac:(change (2 ^ 31) with 2147483648; lia)) as (Hbf & Eo & Eb & _ & _ & Ep & Ec). fold nb in Hbf, Eo, Eb, Ep.
  set (cnt := Z.to_nat (io_block_count bs (Z.of_nat pos) (Z.of_nat n))) in *.
  assert (Z.of_nat (pos / nb) + Z.of_nat cnt < 536870912) as Hcl.
  { destruct Hbf as (_ & H1 & H2). assert (512 <= nb)%nat by lia. destruct cnt as [| m]; [nia|].
    destruct (H2 m eq_refl) as [_ H3]. fold nb in H3. nia. }
  destruct (sequential_vec_run s (mod_dev i) bs (Z.of_nat (pos / nb)) cnt) as (a & l & s1 & -> & Hfr & Hl & Hk); [lia | exact Hcl |].
  exists a, l, (set_bios s (<[a := BioVec (mod_dev i) (Z.of_nat cnt) bs l]> s.(bios))).
  split; [apply refines_bios, R|]. split; [reflexivity|]. split; [reflexivity|]. split; [exact Hfr|]. split; [rewrite Ec; reflexivity|]. split; [exact Hl|].
  unfold blkdev_generic_io.
  erewrite bind_ok; [| eapply get_device_run; [eapply device_lt; eassumption | apply R | apply Hdv | exact Hm]]. cbv beta iota.
  erewrite bind_ok; [| apply dvload_run; apply Hdv]. cbv beta zeta. rewrite (d_sectors _ _ _ _ Hd).
  replace (Z.min (Z.of_nat len) (u32 (s32 (Z.of_nat (length (D i))) - Z.of_nat pos))) with (Z.of_nat n).
  - fold bs. rewrite Eo, Eb, Ec. apply Hk.
  - rewrite sN_id by (change (2 ^ (32 - 1)) with 2147483648; lia). rewrite uN_id by (change (2 ^ 32) with 4294967296; lia). unfold n, xfer. lia.
Qed.

Lemma sequential_reads (bs : Z) (D : list Z) (dev cnt : Z) (l : list Z) (pos n c : nat) (nb := Z.to_nat bs) :
  0 < bs -> (pos + n <= length D)%nat -> (pos mod nb + n <= c * nb)%nat ->
  (forall b, (b < c)%nat -> l !! b = Some (Z.of_nat (pos / nb) + Z.of_nat b)) ->
  vec_reads bs (BioVec dev cnt bs l) D (take (pos mod nb + n) (drop (pos / nb * nb) D)).
Proof.
  intros Hb Hl Hc Hk b Hlt. pose proof (Nat.div_mod_eq pos nb) as Hdm. fold nb in Hlt |- *.
  rewrite length_take, length_drop in Hlt. exists (Z.of_nat (pos / nb) + Z.of_nat b).
  split; [apply Hk; nia|]. split; [lia|]. intros k Hkn Hkl. rewrite length_take, length_drop in Hkl.
  assert (Z.to_nat ((Z.of_nat (pos / nb) + Z.of_nat b) * bs) = pos / nb * nb + b * nb)%nat as -> by (unfold nb in *; nia).
  split; [lia|]. rewrite lookup_take_lt, lookup_drop by lia. f_equal. lia.
Qed.

Lemma generic_io_end (D : nat -> list Z) (s s1 s2 : blk) (a pos : Z) (v : bio_vec) (r : Z * list Z) :
  refines D s2 -> moddev s1 = moddev s -> modblk s1 = modblk s -> s1.(bios) = <[a := v]> s.(bios) -> same_devices s1 s2 ->
  exists s3, (free_bio_vec a ;; mret (r, if 0 <? r.1 then pos +% r.1 else pos)) s2 = Ok ((r, if 0 <? r.1 then pos +% r.1 else pos), s3) /\
    refines D s3 /\ moddev s3 = moddev s /\ modblk s3 = modblk s.
Proof.
  intros R Em Ek Eb (E1 & E2 & E3). eexists. split; [|split; [apply refines_bios, R | split; cbn; congruence]].
  erewrite bind_ok; [reflexivity|]. apply (free_bio_vec_run s2 a v). rewrite E3, Eb. apply lookup_insert_eq.
Qed.

Lemma generic_io_read (D : nat -> list Z) (s : blk) (i : nat) (iobuf : list Z) (pos len : nat) (n := xfer (D i) pos len) :
  refines D s -> registered s i -> (pos <= length (D i))%nat -> (len <= length iobuf)%nat ->
  exists p s', blkdev_generic_io (mod_dev i) iobuf (Z.of_nat len) (Z.of_nat pos) READ s =
      Ok (((Z.of_nat n, splice 0 (take n (drop pos (D i))) iobuf), p), s') /\
    refines D s' /\ moddev s' = moddev s /\ modblk s' = modblk s.
Proof.
  intros R Hreg Hpos Hio. destruct (registered_device D s i R Hreg) as (md & dv & Hdv & Hm).
  pose proof (r_devs _ _ R i md dv Hdv Hm) as Hd. pose proof (d_small _ _ _ _ Hd) as Hsm. pose proof (d_blksize _ _ _ _ Hd) as Hv.
  destruct (valid_blksize_bounds _ Hv) as [Hbb _]. assert (pos + n <= length (D i))%nat as Hn by (unfold n, xfer; lia).
  destruct (generic_io_begin D s i md dv iobuf pos len READ R Hdv Hm Hpos) as (a & l & s1 & R1 & Em & Ek & Hfr & Eb & Hl & ->). fold n in Eb, Hl |- *.
  set (bs := dv.(blksize)) in *. set (nb := Z.to_nat bs) in *.
  destruct (io_geometry bs pos n Hv ltac:(lia)) as ((Hbf & _) & _ & _ & _ & _ & Ep & _). fold nb in Hbf, Ep.
  pose proof (Nat.mod_upper_bound pos nb ltac:(lia)) as Hmb.
  destruct (bio_do_io_read D s1 a (BioVec (mod_dev i) (io_block_count bs (Z.of_nat pos) (Z.of_nat n)) bs l) i
    (take (pos mod nb + n) (drop (pos / nb * nb) (D i))) iobuf (pos mod nb) n) as (s2 & Hr & R2 & Hsd).
  - exact R1.
  - rewrite Eb. apply lookup_insert_eq.
  - reflexivity.
  - exists md, dv. destruct Hdv as [H1 H2]. split; [split; congruence | auto].
  - eapply sequential_reads; [lia | exact Hn | exact Hbf | exact Hl].
  - exact Hv.
  - rewrite length_take, length_drop. lia.
  - lia.
  - unfold n, xfer in *. lia.
  - destruct (generic_io_end D s s1 s2 a (Z.of_nat pos) _ (Z.of_nat n, splice 0 (take n (drop pos (D i))) iobuf) R2 Em Ek Eb Hsd) as (s3 & Hf & Hres).
    eexists _, s3. split; [|exact Hres]. rewrite (bind_ok _ _ _ _ _ Hr). cbv beta.
    rewrite skipn_firstn_comm, take_take, drop_drop, Ep. replace (Nat.min n (pos mod nb + n - pos mod nb)) with n by lia. exact Hf.
Qed.

Lemma generic_io_write (D : nat -> list Z) (s : blk) (i : nat) (iobuf : list Z) (pos len : nat) (n := xfer (D i) pos len) :
  refines D s -> registered s i -> (pos <= length (D i))%nat -> (len <= length iobuf)%nat ->
  exists p s', blkdev_generic_io (mod_dev i) iobuf (Z.of_nat len) (Z.of_nat pos) WRITE s = Ok (((Z.of_nat n, iobuf), p), s') /\
    refines (upd_disk D i (splice pos (take n iobuf) (D i))) s' /\ moddev s' = moddev s /\ modblk s' = modblk s.
Proof.
  intros R Hreg Hpos Hio. destruct (registered_device D s i R Hreg) as (md & dv & Hdv & Hm).
  pose proof (r_devs _ _ R i md dv Hdv Hm) as Hd. pose proof (d_small _ _ _ _ Hd) as Hsm. pose proof (d_blksize _ _ _ _ Hd) as Hv.
  destruct (valid_blksize_bounds _ Hv) as [Hbb _]. assert (pos + n <= length (D i))%nat as Hn by (unfold n, xfer; lia).
  destruct (generic_io_begin D s i md dv iobuf pos len WRITE R Hdv Hm Hpos) as (a & l & s1 & R1 & Em & Ek & Hfr & Eb & Hl & ->). fold n in Eb, Hl |- *.
  set (bs := dv.(blksize)) in *. set (nb := Z.to_nat bs) in *.
  destruct (io_geometry bs pos n Hv ltac:(lia)) as (_ & _ & _ & _ & _ & Ep & Ec). fold nb in Ep. 
  pose proof (Nat.mod_upper_bound pos nb ltac:(lia)) as Hmb.
  set (cnt := Z.to_nat (io_block_count bs (Z.of_nat pos) (Z.of_nat n))) in *.
  assert (io_block_count bs (Z.of_nat (pos mod nb)) (Z.of_nat n) = Z.of_nat cnt) as Ec'.
  { rewrite <- Ec, !io_block_count_spec by (auto; lia). rewrite Nat2Z.inj_mod. unfold nb. rewrite Z2Nat.id, Zmod_mod by lia. reflexivity. }
  assert (Z.to_nat (Z.of_nat (pos / nb) * bs) + pos mod nb = pos)%nat as Ep' by nia.
  destruct (bio_do_io_write D s1 a (BioVec (mod_dev i) (io_block_count bs (Z.of_nat pos) (Z.of_nat n)) bs l) i (Z.of_nat (pos / nb)) cnt iobuf (pos mod nb) n)
    as (s2 & Hr & R2 & Hsd).
  - exact R1.
  - rewrite Eb. apply lookup_insert_eq.
  - reflexivity.
  - exists md, dv. destruct Hdv as [H1 H2]. split; [split; congruence | auto].
  - lia.
  - exact Hl.
  - exact Hv.
  - exact Hmb.
  - exact Ec'.
  - cbn [v_blksize]. rewrite Ep'. exact Hn.
  - cbn [v_blksize]. rewrite Ep'. lia.
  - unfold n, xfer in *. lia.
  - cbn [v_blksize] in R2. rewrite Ep' in R2.
    destruct (generic_io_end _ s s1 s2 a (Z.of_nat pos) _ (Z.of_nat n, iobuf) R2 Em Ek Eb Hsd) as (s3 & Hf & Hres).
    eexists _, s3. split; [|exact Hres]. rewrite (bind_ok _ _ _ _ _ Hr). exact Hf.
Qed.

Lemma set_blocksize_run (D : nat -> list Z) (s : blk) (i : nat) (size : Z) :
  refines D s -> registered s i -> valid_blksize size = true ->
  exists r s', set_blocksize (mod_dev i) size s = Ok (r, s') /\ refines D s' /\ result_ok r /\
    (forall j, registered s j -> registered s' j).
Proof.
  intros R Hreg Hv. destruct (registered_device D s i R Hreg) as (md & dv & Hdv & Hm).
  unfold set_blocksize. rewrite Hv. cbn [negb].
  erewrite bind_ok; [| eapply get_device_run; [eapply device_lt; eassumption | apply R | apply Hdv | exact Hm]]. cbv beta iota.
  erewrite bind_ok; [| apply dvload_run; apply Hdv]. cbv beta. destruct (Z.eqb_spec dv.(blksize) size) as [Es | Ns].
  - exists 0, s. split; [reflexivity|]. split; [exact R|]. split; [left; reflexivity | auto].
  - destruct (free_device_buffers_run D (mod_dev i) s R) as (r & s1 & Hr & R1 & Hk & Hok & Hres).
    assert (forall j, registered s j -> registered s1 j) as Hreg1.
    { intros j (mdj & Hj & Hmj). destruct (k_mods _ _ Hk j mdj Hj) as (md' & Hj' & Emj). exists md'. split; [exact Hj' | congruence]. }
    rewrite (bind_ok _ _ _ _ _ Hr). cbv beta. destruct (Z.eqb_spec r 0) as [H0 | H0]; cbn [negb].
    + destruct (k_mods _ _ Hk i md (proj1 Hdv)) as (md1 & Hi1 & Em1).
      assert (device s1 i md1 dv) as Hdv1 by (split; [exact Hi1 | rewrite (k_modblk _ _ Hk); apply Hdv]).
      exists 0, (set_modblk s1 (<[i := dv_set_blksize dv size]> s1.(modblk))). split; [|split; [|split; [left; reflexivity | exact Hreg1]]].
      * unfold dvupd. erewrite bind_ok; [reflexivity|]. erewrite bind_ok; [| unfold gets; reflexivity]. cbv beta.
        assert (aload (modblk s1) (Z.of_nat i) = Ok dv) as Hld by (apply aload_ok; rewrite Nat2Z.id; split; [lia | apply Hdv1]).
        erewrite bind_ok; [| unfold st_res; rewrite Hld; reflexivity]. cbv beta.
        pose proof (lookup_lt_Some _ _ _ (proj2 Hdv1)) as Hlt.
        erewrite bind_ok; [| unfold st_res; rewrite astore_in by lia; reflexivity]. cbv beta. rewrite Nat2Z.id. reflexivity.
      * eapply refines_resize; [exact R1 | exact Hdv1 | exact Hv | exact (Hres H0)].
    + exists r, s1. split; [reflexivity|]. split; [exact R1|]. split; [exact Hok | exact Hreg1].
Qed.

End device_io.

(** ** Sequences of operations *)

Inductive disk_op : Type :=
| DRead (i : nat) (dst : list Z) (pos : nat)
| DWrite (i : nat) (src : list Z) (pos : nat)
| DClear
| DSetBlocksize (i : nat) (size : Z).

Definition run_disk_op `{E : BlkEnv} (o : disk_op) : ST blk (Z * list Z) :=
  match o with
  | DRead i dst pos => blkdev_read (mod_dev i) dst (Z.of_nat (length dst)) (Z.of_nat pos)
  | DWrite i src pos => blkdev_write (mod_dev i) src (Z.of_nat (length src)) (Z.of_nat pos)
  | DClear => clear_buffer_cache ;; mret (0, [])
  | DSetBlocksize i size => r ← set_blocksize (mod_dev i) size; mret (r, [])
  end.

Fixpoint run_disk_ops `{E : BlkEnv} (l : list disk_op) : ST blk (list (Z * list Z)) :=
  match l with
  | [] => mret []
  | o :: l => r ← run_disk_op o; rs ← run_disk_ops l; mret (r :: rs)
  end.

(** What the operations do to flat disks: reads and writes stop at the end of the
    disk; changing the block size may fail, and neither that nor dropping buffers
    shows. *)
Inductive disk_step : (nat -> list Z) -> disk_op -> Z * list Z -> (nat -> list Z) -> Prop :=
| step_read D i dst pos (n := Nat.min (length dst) (length (D i) - pos)) :
    disk_step D (DRead i dst pos) (Z.of_nat n, splice 0 (take n (drop pos (D i))) dst) D
| step_write D i src pos (n := Nat.min (length src) (length (D i) - pos)) :
    disk_step D (DWrite i src pos) (Z.of_nat n, src) (upd_disk D i (splice pos (take n src) (D i)))
| step_clear D : disk_step D DClear (0, []) D
| step_blksize D i size : disk_step D (DSetBlocksize i size) (0, []) D
| step_blksize_busy D i size : disk_step D (DSetBlocksize i size) (- EBUSY, []) D.

Inductive disk_steps : (nat -> list Z) -> list disk_op -> list (Z * list Z) -> (nat -> list Z) -> Prop :=
| steps_nil D : disk_steps D [] [] D
| steps_cons D D' D'' o l r rs : disk_step D o r D' -> disk_steps D' l rs D'' -> disk_steps D (o :: l) (r :: rs) D''.

(** The operations the theorem is about. *)
Definition op_valid (D : nat -> list Z) (s : blk) (o : disk_op) : Prop :=
  match o with
  | DRead i _ pos | DWrite i _ pos => registered s i /\ (pos <= length (D i))%nat
  | DClear => True
  | DSetBlocksize i size => registered s i /\ valid_blksize size = true
  end.

Lemma disk_op_run `{E : BlkEnv} {L : BlkLaws} (D : nat -> list Z) (s : blk) (o : disk_op) :
  refines D s -> op_valid D s o ->
  exists r D' s', run_disk_op o s = Ok (r, s') /\ disk_step D o r D' /\ refines D' s' /\
    (forall i, length (D' i) = length (D i)) /\ (forall i, registered s i -> registered s' i).
Proof.
  intros R Hv. destruct o as [i dst pos | i src pos | | i size]; cbn [run_disk_op op_valid] in *.
  - destruct Hv as [Hreg Hpos]. destruct (generic_io_read D s i dst pos (length dst) R Hreg Hpos (Nat.le_refl _)) as (p & s' & Hr & R' & Em & _).
    eexists _, D, s'. split; [|split; [apply step_read | split; [exact R' | split; [reflexivity|]]]].
    + unfold blkdev_read. rewrite (bind_ok _ _ _ _ _ Hr). reflexivity.
    + unfold registered. rewrite Em. auto.
  - destruct Hv as [Hreg Hpos]. destruct (generic_io_write D s i src pos (length src) R Hreg Hpos (Nat.le_refl _)) as (p & s' & Hr & R' & Em & _).
    eexists _, _, s'. split; [|split; [apply step_write | split; [exact R' | split]]].
    + unfold blkdev_write. rewrite (bind_ok _ _ _ _ _ Hr). reflexivity.
    + intros j. unfold upd_disk. case_decide; [subst; apply splice_length; rewrite length_take; lia | reflexivity].
    + unfold registered. rewrite Em. auto.
  - destruct (clear_buffer_cache_run D s R) as (s' & Hr & R' & Hk). eexists _, D, s'.
    split; [rewrite (bind_ok _ _ _ _ _ Hr); reflexivity|]. split; [constructor|]. split; [exact R'|]. split; [reflexivity|].
    intros j (mdj & Hj & Hmj). destruct (k_mods _ _ Hk j mdj Hj) as (md' & Hj' & Emj). exists md'. split; [exact Hj' | congruence].
  - destruct Hv as [Hreg Hv]. destruct (set_blocksize_run D s i size R Hreg Hv) as (r & s' & Hr & R' & Hok & Hreg').
    eexists _, D, s'. split; [rewrite (bind_ok _ _ _ _ _ Hr); reflexivity|].
    split; [destruct Hok as [-> | ->]; constructor|]. split; [exact R'|]. split; [reflexivity | exact Hreg'].
Qed.

(** C34: With memory to allocate, any sequence of reads and writes of registered
    module devices at positions up to the end of the device, of clearing the buffer
    cache and of setting one of the four valid block sizes runs without fault and
    returns what flat arrays of bytes return: a transfer stops at the end of the
    device, and cached, dirty and written back blocks together show the current
    contents.  A position past the end is left out, because the length that remains
    wraps around there ([blkdev_read_past_end]), and so is any other block size, for
    which the code panics. *)
Theorem disks_refine `{E : BlkEnv} {L : BlkLaws} (D : nat -> list Z) (s : blk) (l : list disk_op) :
  refines D s -> Forall (op_valid D s) l ->
  exists rs D' s', run_disk_ops l s = Ok (rs, s') /\ disk_steps D l rs D' /\ refines D' s'.
Proof.
  intros R Hv. revert D s R Hv. induction l as [| o l IH]; intros D s R Hv.
  - exists [], D, s. split; [reflexivity|]. split; [constructor | exact R].
  - apply Forall_cons in Hv as [Ho Hl]. destruct (disk_op_run D s o R Ho) as (r & D1 & s1 & Hr & Hst & R1 & Hlen & Hreg).
    destruct (IH D1 s1 R1) as (rs & D2 & s2 & Hrs & Hsts & R2).
    { eapply Forall_impl; [exact Hl|]. intros [i dst pos | i src pos | | i size]; cbn; rewrite ?Hlen; naive_solver. }
    exists (r :: rs), D2, s2. split; [|split; [econstructor; eassumption | exact R2]].
    cbn [run_disk_ops]. rewrite (bind_ok _ _ _ _ _ Hr). cbv beta. rewrite (bind_ok _ _ _ _ _ Hrs). reflexivity.
Qed.

(** Allocation above every address in use. *)
#[export] Instance plain_blk_env : BlkEnv := {
  buffer_cachep m := Some (above m);
  page_alloc m := Some (above m, replicate (Z.to_nat 4096) 0);
  request_cachep _ := true;
  bio_alloc _ m := Some (above m, fun _ => 0);
}.

#[export] Instance plain_blk_laws : BlkLaws.
Proof.
  split.
  - intros m. destruct (above_fresh m) as [H0 H]. exists (above m). auto.
  - intros m. destruct (above_fresh m) as [H0 H]. eexists _, _. split; [reflexivity|]. split; [exact H|].
    rewrite length_replicate, Z2Nat.id; lia.
  - reflexivity.
  - intros n m. destruct (above_fresh m) as [H0 H]. eexists _, _. split; [reflexivity | exact H].
Qed.

(** A module of two sectors, nothing cached. *)
Definition example_module : list Z := replicate 1024 7.

Definition no_device : block_device := BlockDevice [] 0 0 0 0.

Definition example_blk : blk :=
  Blk ∅ ∅ ∅ ∅ (ModDevice 4096 1024 example_module :: replicate 15 (ModDevice 0 0 []))
    (BlockDevice [] mod_handle_request_p 512 2 0 :: replicate 15 no_device) [0; 0; 0; 0; 0; mod_get_device_p].

Lemma example_blk_device (i : nat) (md : mod_device) (dv : block_device) :
  device example_blk i md dv -> md.(md_mem) <> 0 ->
  i = 0%nat /\ md = ModDevice 4096 1024 example_module /\ dv = BlockDevice [] mod_handle_request_p 512 2 0.
Proof.
  intros [H1 H2] Hm. destruct i as [| i]; [cbn in H1, H2; injection H1 as <-; injection H2 as <-; auto|].
  cbn [example_blk moddev] in H1. rewrite lookup_cons in H1. apply lookup_replicate in H1 as [-> _]. contradiction.
Qed.

Lemma example_refines : refines (fun _ => example_module) example_blk.
Proof.
  split; try (intros *; cbn; rewrite ?lookup_empty; discriminate).
  - reflexivity.
  - split; reflexivity.
  - intros i md dv Hdv Hm. destruct (example_blk_device i md dv Hdv Hm) as (-> & -> & ->). split; try reflexivity. discriminate.
  - intros k a Ha. cbn in Ha. rewrite lookup_empty in Ha. apply not_elem_of_nil in Ha. contradiction.
  - intros k. cbn. rewrite lookup_empty. constructor.
  - intros i md dv j Hdv Hm _ _. destruct (example_blk_device i md dv Hdv Hm) as (-> & -> & ->). reflexivity.
Qed.

Lemma disks_refine_witness :
  exists rs D' s', run_disk_ops [DWrite 0 [1; 2; 3] 511; DSetBlocksize 0 1024; DClear; DRead 0 [0; 0] 512] example_blk = Ok (rs, s') /\
    disk_steps (fun _ => example_module) [DWrite 0 [1; 2; 3] 511; DSetBlocksize 0 1024; DClear; DRead 0 [0; 0] 512] rs D' /\ refines D' s'.
Proof.
  apply (disks_refine (fun _ => example_module) example_blk); [exact example_refines|].
  assert (registered example_blk 0) by (eexists; split; [reflexivity | discriminate]).
  repeat constructor; cbn [op_valid]; auto; unfold example_module; rewrite length_replicate; lia.
Defined.

(** A read that starts past the end of the device is not cut short but goes outside
    the module. *)
Lemma blkdev_read_past_end : blkdev_read (mod_dev 0) [1; 2; 3] 3 2048 example_blk = Fault.
Proof. vm_compute. reflexivity. Qed.

(** ** Reference counts *)

(** [read_block] takes no reference to a block that is cached, so releasing it
    gives up one that was never taken: a buffer nobody holds is left with a count
    of 65535 and cannot be freed any more. *)
Lemma reread_pins `{E : BlkEnv} {L : BlkLaws} (D : nat -> list Z) (s : blk) (a : Z) (b : buffer) (i : nat) (md : mod_device) (dv : block_device) :
  refines D s -> device s i md dv -> s.(bufs) !! a = Some b -> b.(b_dev) = mod_dev i -> b.(b_count) = 0 ->
  exists s', (x ← read_block (mod_dev i) b.(b_blocknr) dv.(blksize); release_buffer x) s = Ok (tt, s') /\
    s'.(bufs) !! a = Some (b_set_count b 65535).
Proof.
  intros R Hdv Hb Ed Hc. destruct (buffer_device _ _ _ _ _ _ _ R Hb Ed Hdv) as (Hn & Hm & pg & _ & Ho & Hu & _).
  assert (read_block (mod_dev i) b.(b_blocknr) dv.(blksize) s = Ok (a, s)) as Hr.
  { unfold read_block, get_buffer. destruct (find_buffer_run D s i md dv b.(b_blocknr) R Hdv) as [(a' & b' & Hr & Hb' & Ed' & Eb') | [_ Hno]];
      [|exfalso; apply (Hno a b Hb Ed); reflexivity].
    assert (a' = a) as -> by (eapply (r_uniq _ _ R a' a b' b); congruence).
    erewrite bind_ok; [| rewrite (bind_ok _ _ _ _ _ Hr); cbv beta; rewrite (proj2 (Z.eqb_neq a 0) Hn); reflexivity]. cbv beta.
    rewrite (proj2 (Z.eqb_neq a 0) Hn). unfold read_buffer. rewrite (bind_ok _ _ _ _ _ (bufload_run s a b Hb)). cbv beta. rewrite Hu. reflexivity. }
  eexists. split.
  - rewrite (bind_ok _ _ _ _ _ Hr). cbv beta. unfold release_buffer. rewrite (proj2 (Z.eqb_neq a 0) Hn), (bufupd_run s a b _ Hb), Hc. reflexivity.
  - cbn. apply lookup_insert_eq.
Qed.
