(* ===== verification/Ext2.v ===== *)
(** * The ext2 file system (fs/ext2)

    super.c, inode.c, dir.c, file.c and ext2.h over the block layer of [Block].
    The driver only reads.  Structures on disk are read where they lie, in the pages
    of buffers: [e_sb] and [e_bg_table] are the pages of the super block and of the
    group descriptors, and a pointer to an inode is a page and an offset into it.
    Fields are little-endian numbers at the offsets of the packed structures.

    The private data of super blocks and inodes is held by address.  [kmalloc], the
    slab cache of inodes' private data and the contents of uninitialised local
    variables are parameters. *)

From S2P Require Import Prelude Abi Bitops Vma Timer Sched Vfs Super Block.

(** ** Structures on disk *)

(** The [n] bytes at [off], as a little-endian number. *)
Fixpoint le (n : nat) (b : list Z) (off : Z) : res Z :=
  match n with
  | O => Ok 0
  | S n => do x <- aload b off; do r <- le n b (off + 1); Ok (x + 256 * r)
  end.

(** [struct ext2_superblock] *)
Definition SB_BLOCKS_COUNT : Z := 4.
Definition SB_LOG_BLOCK_SIZE : Z := 24.
Definition SB_BLOCKS_PER_GROUP : Z := 32.
Definition SB_INODES_PER_GROUP : Z := 40.
Definition sizeof_ext2_superblock : Z := 1024.

(** [struct ext2_bg_descriptor] *)
Definition BG_INODE_TABLE : Z := 8.
Definition sizeof_ext2_bg_descriptor : Z := 32.

(** [struct ext2_inode] *)
Definition EI_MODE : Z := 0.
Definition EI_SIZE : Z := 4.
Definition EI_LINKS_COUNT : Z := 26.
Definition EI_BLOCKS : Z := 28.
Definition EI_BLOCK : Z := 40.
Definition sizeof_ext2_inode : Z := 128.

(** [struct ext2_dirent] *)
Definition DE_INO : Z := 0.
Definition DE_REC_LEN : Z := 4.
Definition DE_NAME_LEN : Z := 6.
Definition DE_NAME : Z := 8.
Definition sizeof_ext2_dirent : Z := 264.

Definition EXT2_ROOT_INO : Z := 2.

(** [1 << log], where the shift takes the count modulo 32. *)
Definition shift_size (n log : Z) : Z := s32 (Z.shiftl n (Z.land log 31)).

Definition block_size_of (log : Z) : Z := shift_size 1024 log.

(** Unsigned division, which traps on 0. *)
Definition udiv (a b : Z) : res Z := if b =? 0 then Fault else Ok (a / b).
Definition umod (a b : Z) : res Z := if b =? 0 then Fault else Ok (a mod b).

(** ** Data *)

Record ext2_sb_private : Type := SbPrivate {
  e_sb : Z;
  e_bg_table : Z;
  e_sb_buf : Z;
  e_bg_buf : Z;
}.

Record ext2_inode_private : Type := InodePrivate {
  p_page : Z;
  p_off : Z;
  p_buf : Z;
}.

Record ext2 : Type := Ext2 {
  e_blk : blk;
  e_supers : gmap Z ext2_sb_private;
  e_privs : gmap Z ext2_inode_private;
}.

Definition set_supers2 (d : ext2) (m : gmap Z ext2_sb_private) : ext2 := Ext2 d.(e_blk) m d.(e_privs).
Definition set_privs (d : ext2) (m : gmap Z ext2_inode_private) : ext2 := Ext2 d.(e_blk) d.(e_supers) m.

#[export] Instance ext2_blk : HasBlk ext2 := {
  blk_of := e_blk;
  with_blk d b := Ext2 b d.(e_supers) d.(e_privs);
}.

Class Ext2Env : Type := {
  sb_private_alloc : gmap Z ext2_sb_private -> option (Z * ext2_sb_private);
  inode_private_cachep : gmap Z ext2_inode_private -> option (Z * ext2_inode_private);
  stack_junk : Z -> list Z;
}.

(** The tables of operations. *)
Definition ext2_super_ops_p : Z := 11.
Definition ext2_reg_iops_p : Z := 12.
Definition ext2_dir_iops_p : Z := 13.
Definition chrdev_inode_operations_p : Z := 14.
Definition blkdev_inode_operations_p : Z := 15.
Definition ext2_reg_fops_p : Z := 16.
Definition ext2_dir_fops_p : Z := 17.

Section ext2.

Context `{X : Ext2Env} `{B : BlkEnv}.

Abbreviation M := (ST (kst (vfs ext2))).

Definition e_of : M ext2 := gets (fun s => s.(env).(fdata)).

Definition e_set (f : ext2 -> ext2) : M unit := vfs_set (fun v => set_fdata v (f v.(fdata))).

(** A field of a structure in a page. *)
Definition field (n : nat) (page off : Z) : M Z :=
  d ← e_of;
  match d.(e_blk).(bpages) !! page with
  | Some b => st_res (le n b off)
  | None => fault
  end.

Definition sbp_load (a : Z) : M ext2_sb_private := fun s =>
  match s.(env).(fdata).(e_supers) !! a with
  | Some p => Ok (p, s)
  | None => Fault
  end.

Definition ip_load (a : Z) : M ext2_inode_private := fun s =>
  match s.(env).(fdata).(e_privs) !! a with
  | Some p => Ok (p, s)
  | None => Fault
  end.

(** [buf->b_data] *)
Definition b_data_of (a : Z) : M Z := b ← in_blk (bufload a); mret b.(b_data).

(** ** super.c *)

(** The page of the ext2 super block. *)
Definition ext2_superblock (sb : Z) : M Z :=
  s ← sbload sb;
  p ← sbp_load s.(s_private);
  mret p.(e_sb).

Definition inodes_per_block (sb : Z) : M Z :=
  log ← field 4 sb SB_LOG_BLOCK_SIZE;
  mret (s32 (u32 (block_size_of log) / sizeof_ext2_inode)).

Definition inode_block_group_nr (sb ino : Z) : M Z :=
  n ← field 4 sb SB_INODES_PER_GROUP;
  st_res (udiv (ino -% 1) n).

Definition inode_local_index (sb ino : Z) : M Z :=
  n ← field 4 sb SB_INODES_PER_GROUP;
  st_res (umod (ino -% 1) n).

Definition ext2_block_size (sb : Z) : M Z :=
  log ← field 4 sb SB_LOG_BLOCK_SIZE;
  mret (block_size_of log).

Definition block_groups_count (sb : Z) : M Z :=
  n ← field 4 sb SB_BLOCKS_COUNT;
  p ← field 4 sb SB_BLOCKS_PER_GROUP;
  q ← st_res (udiv n p);
  mret (s32 (q + (if n mod p =? 0 then 0 else 1))).

(** The offset of the descriptor in the table's page. *)
Definition ino_to_bg (private : ext2_sb_private) (ino : Z) : M Z :=
  n ← inode_block_group_nr private.(e_sb) ino;
  mret (n * sizeof_ext2_bg_descriptor).

(** The page and the offset of the inode.  The buffer keeps its reference, and
    [*buf] is left as it was. *)
Definition ext2_iget (vsb ino : Z) : M (Z * Z) :=
  s ← sbload vsb;
  private ← sbp_load s.(s_private);
  bg ← ino_to_bg private ino;
  size ← ext2_block_size private.(e_sb);
  let per_block := u32 size / sizeof_ext2_inode in
  local_index ← inode_local_index private.(e_sb) ino;
  table_block ← st_res (udiv local_index per_block);
  block_index ← st_res (umod local_index per_block);
  table ← field 4 private.(e_bg_table) (bg + BG_INODE_TABLE);
  ibuf ← in_blk (read_block s.(s_dev) (s32 (table + table_block)) size);
  page ← b_data_of ibuf;
  mret (page, block_index * sizeof_ext2_inode).

Definition alloc_sb_private : M Z :=
  d ← e_of;
  match sb_private_alloc d.(e_supers) with
  | None => mret 0
  | Some (a, junk) =>
      e_set (fun d => set_supers2 d (<[a := SbPrivate junk.(e_sb) junk.(e_bg_table) 0 0]> d.(e_supers))) ;;
      mret a
  end.

Definition free_sb_private (a : Z) : M unit :=
  p ← sbp_load a;
  in_blk (release_buffer p.(e_sb_buf)) ;;
  in_blk (release_buffer p.(e_bg_buf)) ;;
  e_set (fun d => set_supers2 d (delete a d.(e_supers))).

Definition do_read_super (sb private : Z) : M Z :=
  s ← sbload sb;
  blksize ← in_blk (blkdev_blksize s.(s_dev));
  sb_buf ← in_blk (read_block s.(s_dev) (if blksize =? 1024 then 1 else 0) blksize);
  bg_buf ← in_blk (read_block s.(s_dev) (if blksize =? 1024 then 2 else 1) blksize);
  p ← sbp_load private;
  e_set (fun d => set_supers2 d (<[private := SbPrivate p.(e_sb) p.(e_bg_table) sb_buf bg_buf]> d.(e_supers))) ;;
  if (sb_buf =? 0) || (bg_buf =? 0) then
    in_blk (release_buffer sb_buf) ;;
    in_blk (release_buffer bg_buf) ;;
    mret (- EIO)
  else
    sbp ← b_data_of sb_buf;
    bgp ← b_data_of bg_buf;
    e_set (fun d => set_supers2 d (<[private := SbPrivate sbp bgp sb_buf bg_buf]> d.(e_supers))) ;;
    mret 0.

(** ** inode.c *)

Definition ext2_inode (vnode : Z) : M (Z * Z) :=
  i ← iload vnode;
  p ← ip_load i.(i_private);
  mret (p.(p_page), p.(p_off)).

Definition ext2_mode_iops (mode : Z) : M Z :=
  if S_ISREG mode then mret ext2_reg_iops_p
  else if S_ISDIR mode then mret ext2_dir_iops_p
  else if S_ISCHR mode then mret chrdev_inode_operations_p
  else if S_ISBLK mode then mret blkdev_inode_operations_p
  else panic.

Definition ext2_inode_blocks (sb page off : Z) : M Z :=
  log ← field 4 sb SB_LOG_BLOCK_SIZE;
  n ← field 4 page (off + EI_BLOCKS);
  st_res (udiv n (u32 (shift_size 2 log))).

(** The [k]-th number of a block of block numbers. *)
Definition block_ptr (page k : Z) : M Z := field 4 page (4 * k).

(** The destination [blocks] is the array of vector [bio] from index [at_]. *)
Definition buffers_from_indirect (dev block blksize bio at_ len : Z) : M Z :=
  let len := Z.min len (blksize / 4) in
  ibuf ← in_blk (read_block dev (s32 block) blksize);
  page ← b_data_of ibuf;
  for_each (zseq 0 (Z.to_nat len)) (fun i => x ← block_ptr page i; in_blk (bio_set bio (at_ + i) (s32 x))) ;;
  in_blk (release_buffer ibuf) ;;
  mret len.

(** The loop runs while [i * max_indirect < len]. *)
Definition buffers_from_indirect2 (dev block blksize bio at_ len : Z) : M Z :=
  let max_indirect := blksize / 4 in
  let len := Z.min len (max_indirect *% max_indirect) in
  i2buf ← in_blk (read_block dev (s32 block) blksize);
  page ← b_data_of i2buf;
  for_each (zseq 0 (Z.to_nat ((len + max_indirect - 1) / max_indirect))) (fun i =>
    x ← block_ptr page i;
    _ ← buffers_from_indirect dev x blksize bio (at_ + i * max_indirect) (len - i * max_indirect);
    mret tt) ;;
  in_blk (release_buffer i2buf) ;;
  mret len.

Definition buffers_from_indirect3 (dev block blksize bio at_ len : Z) : M Z :=
  let max_indirect := blksize / 4 in
  let max_indirect2 := max_indirect *% max_indirect in
  let len := Z.min len (max_indirect *% max_indirect2) in
  i3buf ← in_blk (read_block dev (s32 block) blksize);
  page ← b_data_of i3buf;
  for_each (zseq 0 (Z.to_nat ((len + max_indirect2 - 1) / max_indirect2))) (fun i =>
    x ← block_ptr page i;
    _ ← buffers_from_indirect2 dev x blksize bio (at_ + i * max_indirect2) (len - i * max_indirect2);
    mret tt) ;;
  in_blk (release_buffer i3buf) ;;
  mret len.

(** [inode->block[k]] *)
Definition inode_block (page off k : Z) : M Z := field 4 page (off + EI_BLOCK + 4 * k).

Definition ext2_inode_to_bio_vec (vnode : Z) : M Z :=
  v ← iload vnode;
  sb ← ext2_superblock v.(i_sb);
  ' (page, off) ← ext2_inode vnode;
  blksize ← in_blk (blkdev_blksize v.(i_dev));
  nr_blocks ← ext2_inode_blocks sb page off;
  bio ← in_blk (alloc_bio_vec v.(i_dev) (s32 nr_blocks) blksize);
  let i := Z.min 12 nr_blocks in
  for_each (zseq 0 (Z.to_nat i)) (fun k => x ← inode_block page off k; in_blk (bio_set bio k (s32 x))) ;;
  if i =? nr_blocks then mret bio
  else
    b ← inode_block page off 12;
    n ← buffers_from_indirect v.(i_dev) b (u32 blksize) bio i (nr_blocks - i);
    let i := i + n in
    if i =? nr_blocks then mret bio
    else
      b ← inode_block page off 13;
      n ← buffers_from_indirect2 v.(i_dev) b (u32 blksize) bio i (nr_blocks - i);
      let i := i + n in
      if i =? nr_blocks then mret bio
      else
        b ← inode_block page off 14;
        _ ← buffers_from_indirect3 v.(i_dev) b (u32 blksize) bio i (nr_blocks - i);
        mret bio.

Definition i_set_ext2 (i : inode) (mode rdev size nlink op private : Z) : inode :=
  Inode i.(i_list) i.(i_ino) mode nlink i.(i_dev) rdev size i.(i_count) i.(i_flags) i.(i_dirt) i.(i_bio) i.(i_mount)
    op i.(i_sb) private.

Definition i_set_bio (i : inode) (bio : Z) : inode :=
  Inode i.(i_list) i.(i_ino) i.(i_mode) i.(i_nlink) i.(i_dev) i.(i_rdev) i.(i_size) i.(i_count) i.(i_flags) i.(i_dirt)
    bio i.(i_mount) i.(i_op) i.(i_sb) i.(i_private).

Definition ext2_read_inode (vnode : Z) : M unit :=
  d ← e_of;
  match inode_private_cachep d.(e_privs) with
  | None => fault
  | Some (private, junk) =>
      v ← iload vnode;
      ' (page, off) ← ext2_iget v.(i_sb) v.(i_ino);
      e_set (fun d => set_privs d (<[private := InodePrivate page off junk.(p_buf)]> d.(e_privs))) ;;
      mode ← field 2 page (off + EI_MODE);
      rdev ← (if S_ISCHR mode || S_ISBLK mode then inode_block page off 0 else mret v.(i_rdev));
      size ← field 4 page (off + EI_SIZE);
      nlink ← field 2 page (off + EI_LINKS_COUNT);
      op ← ext2_mode_iops mode;
      iupd vnode (fun i => i_set_ext2 i mode rdev size nlink op private) ;;
      bio ← ext2_inode_to_bio_vec vnode;
      iupd vnode (fun i => i_set_bio i bio)
  end.

Definition ext2_put_inode (vnode : Z) : M unit :=
  v ← iload vnode;
  p ← ip_load v.(i_private);
  in_blk (release_buffer p.(p_buf)) ;;
  e_set (fun d => set_privs d (delete v.(i_private) d.(e_privs))) ;;
  in_blk (free_bio_vec v.(i_bio)).

Definition ext2_super_ops : super_operations (kst (vfs ext2)) :=
  SuperOps (Some ext2_read_inode) None (Some ext2_put_inode) None None None.

Context `{V : VfsEnv ext2}.

(** 0 stands for [NULL].  [goto fail] without private data frees a null pointer. *)
Definition ext2_read_super (sb silent : Z) : M Z :=
  private ← alloc_sb_private;
  if private =? 0 then free_sb_private 0 ;; mret 0
  else
    s ← sbload sb;
    ' (_, tmp) ← in_blk (blkdev_read s.(s_dev) (stack_junk sizeof_ext2_superblock) sizeof_ext2_superblock 1024);
    log ← st_res (le 4 tmp SB_LOG_BLOCK_SIZE);
    error ← in_blk (set_blocksize s.(s_dev) (block_size_of log));
    if negb (error =? 0) then free_sb_private private ;; mret 0
    else
      error ← do_read_super sb private;
      if error <? 0 then free_sb_private private ;; mret 0
      else
        sbupd sb (fun s => sb_set_fs s s.(s_mounted) ext2_super_ops_p private) ;;
        root ← iget sb EXT2_ROOT_INO;
        sbupd sb (fun s => sb_set_mounted s root) ;;
        mret sb.

(** ** dir.c *)

(** The next entry in use, with the position after it; [None] at the end of the
    directory.  A position past [i_size] ends the loop, so [fuel] entries with
    lengths that are not 0 are enough when [fuel] is the size. *)
Fixpoint next_dirent (fuel : nat) (dir off : Z) (dst : list Z) : M (option (list Z) * Z) :=
  match fuel with
  | O => fault
  | S fuel =>
      i ← iload dir;
      if i.(i_size) <=? off then mret (None, off)
      else
        ' (_, dst, _) ← in_blk (bio_read i.(i_bio) dst sizeof_ext2_dirent off);
        rec_len ← st_res (le 2 dst DE_REC_LEN);
        ino ← st_res (le 4 dst DE_INO);
        let off := off +% rec_len in
        if ino =? 0 then next_dirent fuel dir off dst else mret (Some dst, off)
  end.

Definition dirent_fuel (size : Z) : nat := S (Z.to_nat size).

Definition dirent_name (d : list Z) (n : Z) : list Z := take (Z.to_nat n) (drop (Z.to_nat DE_NAME) d).

Fixpoint lookup_entries (fuel : nat) (dir : Z) (nm : list Z) (pos : Z) (dst : list Z) : M (option Z) :=
  match fuel with
  | O => fault
  | S fuel =>
      i ← iload dir;
      ' (e, pos) ← next_dirent (dirent_fuel i.(i_size)) dir pos dst;
      match e with
      | None => mret None
      | Some d =>
          n ← st_res (le 1 d DE_NAME_LEN);
          if negb (n =? Z.of_nat (length nm)) then lookup_entries fuel dir nm pos d
          else if bool_decide (dirent_name d n = nm) then ino ← st_res (le 4 d DE_INO); mret (Some ino)
          else lookup_entries fuel dir nm pos d
      end
  end.

Definition ext2_lookup (dir : Z) (nm : list Z) : M (Z * Z) :=
  i ← iload dir;
  r ← lookup_entries (dirent_fuel i.(i_size)) dir nm 0 (stack_junk sizeof_ext2_dirent);
  match r with
  | Some ino => a ← iget i.(i_sb) ino; iput dir ;; mret (0, a)
  | None => iput dir ;; mret (- ENOENT, 0)
  end.

Definition ext2_readdir (dir file : Z) (de : dirent) (count : Z) : M (Z * dirent) :=
  i ← iload dir;
  f ← fload file;
  ' (e, pos) ← next_dirent (dirent_fuel i.(i_size)) dir f.(f_pos) (stack_junk sizeof_ext2_dirent);
  fupd file (fun f => f_set_pos f pos) ;;
  match e with
  | None => mret (- ENOENT, de)
  | Some d =>
      ino ← st_res (le 4 d DE_INO);
      n ← st_res (le 1 d DE_NAME_LEN);
      mret (0, Dirent ino de.(d_off) (splice 0 (dirent_name d n ++ [0]) de.(d_name)))
  end.

Definition ext2_dir_fops : file_operations (kst (vfs ext2)) :=
  FileOps None None None (Some ext2_readdir) None None None.

Definition ext2_dir_iops : inode_operations (kst (vfs ext2)) :=
  InodeOps None (Some ext2_lookup) None None None None None None None None ext2_dir_fops_p.

(** ** file.c *)

Definition ext2_reg_fops : file_operations (kst (vfs ext2)) :=
  FileOps None (Some bio_file_read) None None None None None.

Definition ext2_reg_iops : inode_operations (kst (vfs ext2)) :=
  InodeOps None None None None None None None None None None ext2_reg_fops_p.

(** [SYSINIT(ext2)]; the name is "ext2". *)
Definition ext2_read_super_p : Z := 18.

Definition ext2_init : M unit := _ ← register_filesystem ext2_read_super_p [101; 120; 116; 50] true; mret tt.

End ext2.

(** * Files are what the disk says they are *)

(** ** Numbers on the disk *)

(** The little-endian number of [n] bytes at [off], 0 outside the disk. *)
Definition dle (n : nat) (D : list Z) (off : nat) : Z :=
  match le n D (Z.of_nat off) with
  | Ok x => x
  | _ => 0
  end.

Lemma le_ok (n : nat) (b : list Z) (off : nat) : (off + n <= length b)%nat -> exists x, le n b (Z.of_nat off) = Ok x.
Proof.
  revert off. induction n as [| n IH]; intros off H; [exists 0; reflexivity|]. cbn [le].
  destruct (aload_lt b (Z.of_nat off)) as [x ->]; [lia|]. cbn. replace (Z.of_nat off + 1) with (Z.of_nat (Datatypes.S off)) by lia.
  destruct (IH (Datatypes.S off)) as [r ->]; [lia|]. cbn. eauto.
Qed.

Lemma le_agree (n : nat) (page D : list Z) (bs sz off : nat) :
  agree page bs sz D -> (off + n <= sz)%nat -> (bs + sz <= length D)%nat ->
  le n page (Z.of_nat off) = Ok (dle n D (bs + off)).
Proof.
  intros Ha Hn Hl. unfold dle.
  assert (le n page (Z.of_nat off) = le n D (Z.of_nat (bs + off))) as Eq.
  { clear - Ha Hn Hl. revert off Hn. induction n as [| n IH]; intros off Hn; [reflexivity|]. cbn [le].
    assert (aload page (Z.of_nat off) = aload D (Z.of_nat (bs + off))) as ->.
    { unfold aload. rewrite !(proj2 (Z.ltb_ge _ _)), !Nat2Z.id by lia. rewrite (Ha off) by lia. reflexivity. }
    replace (Z.of_nat off + 1) with (Z.of_nat (Datatypes.S off)) by lia. rewrite IH by lia.
    replace (Z.of_nat (bs + Datatypes.S off)) with (Z.of_nat (bs + off) + 1) by lia. reflexivity. }
  rewrite Eq. destruct (le_ok n D (bs + off)) as [x ->]; [lia | reflexivity].
Qed.

(** ** Steps of the block layer *)

Definition put (s : kst (vfs ext2)) (b : blk) : kst (vfs ext2) :=
  set_env s (set_fdata s.(env) (with_blk s.(env).(fdata) b)).

Definition blk_st (s : kst (vfs ext2)) : blk := s.(env).(fdata).(e_blk).

Lemma put_id (s : kst (vfs ext2)) : put s (blk_st s) = s.
Proof. destruct s as [? ? ? ? ? ? ? [? ? ? ? ? ? [? ? ?]]]. reflexivity. Qed.

Record ok_step (D : nat -> list Z) (b b' : blk) : Prop := {
  st_refines : refines D b';
  st_moddev : b'.(moddev) = b.(moddev);
  st_modblk : b'.(modblk) = b.(modblk);
  st_grows : grows b b';
}.

Lemma ok_step_refl (D : nat -> list Z) (b : blk) : refines D b -> ok_step D b b.
Proof. intros R. split; [exact R | reflexivity..]. Qed.

Lemma ok_step_trans (D : nat -> list Z) (b1 b2 b3 : blk) : ok_step D b1 b2 -> ok_step D b2 b3 -> ok_step D b1 b3.
Proof. intros [H1 H2 H3 H4] [H1' H2' H3' H4']. split; [exact H1' | congruence | congruence | etransitivity; eassumption]. Qed.

Lemma ok_step_device (D : nat -> list Z) (i : nat) (bs : Z) (b b' : blk) : ok_step D b b' -> on_device i bs b -> on_device i bs b'.
Proof. intros [_ E1 E2 _] (md & dv & [H1 H2] & Hr). exists md, dv. split; [split; congruence | exact Hr]. Qed.

Lemma ok_step_bios (D : nat -> list Z) (b : blk) (m : gmap Z bio_vec) : refines D b -> ok_step D b (set_bios b m).
Proof.
  intros R. split; [apply refines_bios, R | reflexivity | reflexivity | split; [auto|]].
  intros x c Hx. exists c. split; [exact Hx | reflexivity].
Qed.

Section files.

Context `{X : Ext2Env} `{B : BlkEnv} {L : BlkLaws}.

Context (s : kst (vfs ext2)).

Lemma in_blk_run {A : Type} (m : ST blk A) (b b' : blk) (a : A) : m b = Ok (a, b') -> in_blk m (put s b) = Ok (a, put s b').
Proof. intros H. unfold in_blk. change (blk_of (fdata (env (put s b)))) with b. rewrite H. reflexivity. Qed.

Lemma field_run (n : nat) (b : blk) (page off x : Z) (pg : list Z) :
  b.(bpages) !! page = Some pg -> le n pg off = Ok x -> field n page off (put s b) = Ok (x, put s b).
Proof.
  intros Hp Hx. unfold field. erewrite bind_ok; [| unfold e_of, gets; reflexivity]. cbv beta.
  change (bpages (e_blk (fdata (env (put s b))))) with b.(bpages). rewrite Hp. unfold st_res. rewrite Hx. reflexivity.
Qed.

Context (D : nat -> list Z) (i : nat) (bs : Z).

Abbreviation nb := (Z.to_nat bs).
Abbreviation disk := (D i).

(** A whole block of the disk. *)
Definition on_disk (bl : Z) : Prop := 0 <= bl /\ (bl + 1) * bs <= Z.of_nat (length disk).

(** [page] is the page of block [bl]. *)
Definition holds (b : blk) (page bl : Z) : Prop :=
  exists pg, b.(bpages) !! page = Some pg /\ agree pg (Z.to_nat (bl * bs)) nb disk.

Lemma holds_grows (b b' : blk) (page bl : Z) : grows b b' -> holds b page bl -> holds b' page bl.
Proof. intros G (pg & Hp & Ha). exists pg. split; [apply (g_pages _ _ G), Hp | exact Ha]. Qed.

Lemma on_device_bs (b : blk) : refines D b -> on_device i bs b -> 512 <= bs <= 4096 /\ bs mod 512 = 0 /\ Z.of_nat (length disk) + 4096 < 2 ^ 31.
Proof.
  intros R (md & dv & Hdv & Hm & <-). pose proof (r_devs _ _ R i md dv Hdv Hm) as Hd.
  destruct (valid_blksize_bounds _ (d_blksize _ _ _ _ Hd)) as [H1 H2]. split; [exact H1|]. split; [exact H2 | apply Hd].
Qed.

Lemma read_block_page (b : blk) (bl : Z) :
  refines D b -> on_device i bs b -> on_disk bl ->
  exists a page b', in_blk (read_block (mod_dev i) bl bs) (put s b) = Ok (a, put s b') /\
    b_data_of a (put s b') = Ok (page, put s b') /\ holds b' page bl /\ ok_step D b b' /\ b'.(bios) = b.(bios) /\ is_Some (b'.(bufs) !! a).
Proof.
  intros R Hon [H0 Hl]. pose proof Hon as (md & dv & Hdv & Hm & Ebs).
  destruct (on_device_bs b R Hon) as (Hb & _).
  destruct (read_block_run D b i md dv bl R Hdv Hm H0 ltac:(rewrite Ebs; nia)) as (a & bf & b' & Hr & R' & (E1 & E2 & E3) & Hbf & Ed & Eb & G). rewrite Ebs in Hr.
  assert (device b' i md dv) as Hdv' by (destruct Hdv; split; congruence).
  destruct (buffer_device _ _ _ _ _ _ _ R' Hbf Ed Hdv') as (_ & _ & pg & Hp & Ho & _ & Ha & _).
  exists a, bf.(b_data), b'. split; [apply in_blk_run, Hr|]. split.
  { unfold b_data_of. erewrite bind_ok; [| apply in_blk_run, bufload_run, Hbf]. reflexivity. }
  split; [|split; [split; assumption | split; [exact E3 | eauto]]].
  exists pg. split; [exact Hp|]. unfold base, span in Ha. rewrite Eb, (o_size _ _ _ _ _ Ho), Ebs in Ha. exact Ha.
Qed.

Lemma field_block (n : nat) (b : blk) (page bl : Z) (off : nat) :
  holds b page bl -> on_disk bl -> (off + n <= nb)%nat -> 0 < bs ->
  field n page (Z.of_nat off) (put s b) = Ok (dle n disk (Z.to_nat (bl * bs) + off), put s b).
Proof.
  intros (pg & Hp & Ha) [H0 Hl] Hn Hbs. eapply field_run; [exact Hp|]. apply (le_agree _ _ _ _ nb); [exact Ha | exact Hn | nia].
Qed.

Lemma release_run (b : blk) (a : Z) :
  refines D b -> is_Some (b.(bufs) !! a) ->
  exists b', in_blk (release_buffer a) (put s b) = Ok (tt, put s b') /\ ok_step D b b' /\ b'.(bios) = b.(bios).
Proof.
  intros R [bf Hbf]. destruct (release_buffer_run D b a bf R Hbf) as (b' & Hr & R' & (E1 & E2 & E3) & G).
  exists b'. split; [apply in_blk_run, Hr|]. split; [split; assumption | exact E3].
Qed.

(** ** Vectors *)

Context (a dev cnt : Z).

Definition has_vec (b : blk) (l : list Z) : Prop := b.(bios) !! a = Some (BioVec dev cnt bs l).

Lemma bio_set_run (b : blk) (l : list Z) (k : nat) (x : Z) :
  refines D b -> has_vec b l -> (k < length l)%nat ->
  exists b', in_blk (bio_set a (Z.of_nat k) x) (put s b) = Ok (tt, put s b') /\ ok_step D b b' /\ has_vec b' (<[k := x]> l).
Proof.
  intros R Hv Hk. eexists. split; [|split].
  - apply in_blk_run. unfold bio_set. rewrite (bind_ok _ _ _ _ _ (bioload_run b a _ Hv)). cbv beta. cbn [v_block v_dev v_blkcnt v_blksize].
    erewrite bind_ok; [| unfold st_res; rewrite astore_in by lia; reflexivity]. cbv beta. rewrite Nat2Z.id. reflexivity.
  - apply ok_step_bios, R.
  - unfold has_vec. cbn. apply lookup_insert_eq.
Qed.

(** Storing [f 0], ..., [f (n - 1)] from index [at_] on, in one way or another. *)
Lemma fill_run (f : nat -> Z) (get : Z -> ST (kst (vfs ext2)) Z) (b : blk) (l : list Z) (at_ n : nat) :
  refines D b -> has_vec b l -> (at_ + n <= length l)%nat ->
  (forall k b', (k < n)%nat -> ok_step D b b' -> get (Z.of_nat k) (put s b') = Ok (f k, put s b')) ->
  exists b', for_each (zseq 0 n) (fun k => x ← get k; in_blk (bio_set a (Z.of_nat at_ + k) (s32 x))) (put s b) = Ok (tt, put s b') /\
    ok_step D b b' /\ has_vec b' (splice at_ ((fun k => s32 (f k)) <$> seq 0 n) l).
Proof.
  intros R Hv Hl Hget.
  destruct (for_each_rule (fun (done : list Z) st => exists b', st = put s b' /\ ok_step D b b' /\
      has_vec b' (splice at_ ((fun k => s32 (f k)) <$> seq 0 (length done)) l))
    (fun k => x ← get k; in_blk (bio_set a (Z.of_nat at_ + k) (s32 x))) (zseq 0 n) (put s b)) as (st & Hr & b' & -> & Hst & Hv').
  - exists b. split; [reflexivity|]. split; [apply ok_step_refl, R|]. cbn. rewrite splice_nil. exact Hv.
  - intros done x rest st Eq (b1 & -> & Hst & Hv1). apply zseq_split in Eq as [-> Hdn]. rewrite Z.add_0_l.
    assert (length ((fun k => s32 (f k)) <$> seq 0 (length done)) = length done) as Hls by (rewrite length_fmap, length_seq; reflexivity).
    destruct (bio_set_run b1 _ (at_ + length done) (s32 (f (length done))) (st_refines _ _ _ Hst) Hv1) as (b2 & Hr2 & Hst2 & Hv2).
    { rewrite splice_length; lia. }
    exists (put s b2). split.
    + rewrite (bind_ok _ _ _ _ _ (Hget (length done) b1 Hdn Hst)). cbv beta. rewrite <- Nat2Z.inj_add. exact Hr2.
    + exists b2. split; [reflexivity|]. split; [eapply ok_step_trans; eassumption|].
      rewrite length_app, Nat.add_1_r. cbn [length]. rewrite seq_S, fmap_app. cbn. rewrite <- insert_splice_snoc by lia. rewrite Hls. exact Hv2.
  - rewrite zseq_length in Hv'. exists b'. auto.
Qed.

(** ** Blocks of block numbers *)

(** The [k]-th number of block [bl] of the disk. *)
Definition ptr (bl : Z) (k : nat) : Z := dle 4 disk (Z.to_nat (bl * bs) + 4 * k).

Abbreviation np := (nb / 4)%nat.

(** The numbers below a block, through one, two and three levels. *)
Definition below1 (bl : Z) (k : nat) : Z := ptr bl k.
Definition below2 (bl : Z) (k : nat) : Z := below1 (ptr bl (k / np)) (k mod np).
Definition below3 (bl : Z) (k : nat) : Z := below2 (ptr bl (k / (np * np))) (k mod (np * np)).

(** The blocks on the way to the first [n] numbers are on the disk. *)
Definition tree1 (bl : Z) (n : nat) : Prop := on_disk bl.
Definition tree2 (bl : Z) (n : nat) : Prop := on_disk bl /\ forall j, (j * np < n)%nat -> tree1 (ptr bl j) (Nat.min (n - j * np) np).
Definition tree3 (bl : Z) (n : nat) : Prop :=
  on_disk bl /\ forall j, (j * (np * np) < n)%nat -> tree2 (ptr bl j) (Nat.min (n - j * (np * np)) (np * np)).

(** [child bl at_ len] stores the first [min len m] of the numbers [f bl] from
    index [at_] on. *)
Definition fills (child : Z -> Z -> Z -> ST (kst (vfs ext2)) Z) (f : Z -> nat -> Z) (tree : Z -> nat -> Prop) (m : nat) : Prop :=
  forall bl at_ len b l, refines D b -> on_device i bs b -> tree bl (Nat.min len m) -> has_vec b l -> (at_ + Nat.min len m <= length l)%nat ->
  exists b', child bl (Z.of_nat at_) (Z.of_nat len) (put s b) = Ok (Z.of_nat (Nat.min len m), put s b') /\ ok_step D b b' /\
    has_vec b' (splice at_ ((fun k => s32 (f bl k)) <$> seq 0 (Nat.min len m)) l).

Lemma np_bounds (b : blk) : refines D b -> on_device i bs b -> (128 <= np <= 1024)%nat /\ (nb = 4 * np)%nat /\ bs / 4 = Z.of_nat np.
Proof. intros R Hon. destruct (on_device_bs b R Hon) as (Hb & Hm & _). 
  assert (Z.of_nat np = bs / 4) as E4 by (rewrite Nat2Z.inj_div, Z2Nat.id by lia; reflexivity).
  assert (nb = 4 * np)%nat by (clear - E4 Hb Hm; lia). split; [clear - E4 Hb; lia | auto].
Qed.

Lemma block_ptr_run (b : blk) (page bl : Z) (k : nat) :
  holds b page bl -> on_disk bl -> (4 * k + 4 <= nb)%nat -> 0 < bs ->
  block_ptr page (Z.of_nat k) (put s b) = Ok (ptr bl k, put s b).
Proof.
  intros Hh Hd Hk Hbs. unfold block_ptr. replace (4 * Z.of_nat k) with (Z.of_nat (4 * k)) by lia.
  rewrite (field_block 4 b page bl (4 * k)) by assumption. reflexivity.
Qed.

Lemma on_disk_s32 (b : blk) (bl : Z) : refines D b -> on_device i bs b -> on_disk bl -> s32 bl = bl.
Proof.
  intros R Hon [H0 Hl]. destruct (on_device_bs b R Hon) as (Hb & _ & Hsm). apply sN_id; [lia|]. change (2 ^ (32 - 1)) with (2 ^ 31). nia.
Qed.

(** Read a block, work on its page, release it. *)
Lemma with_block (b : blk) (l : list Z) (bl n : Z) (work : Z -> ST (kst (vfs ext2)) unit) (l' : list Z) :
  refines D b -> on_device i bs b -> on_disk bl -> has_vec b l ->
  (forall page b1, ok_step D b b1 -> holds b1 page bl -> has_vec b1 l ->
     exists b2, work page (put s b1) = Ok (tt, put s b2) /\ ok_step D b1 b2 /\ has_vec b2 l') ->
  exists b', (ibuf ← in_blk (read_block (mod_dev i) (s32 bl) bs); page ← b_data_of ibuf; work page ;; in_blk (release_buffer ibuf) ;; mret n)
      (put s b) = Ok (n, put s b') /\ ok_step D b b' /\ has_vec b' l'.
Proof.
  intros R Hon Hd Hv Hw. rewrite (on_disk_s32 b bl R Hon Hd).
  destruct (read_block_page b bl R Hon Hd) as (ibuf & page & b1 & Hr & Hp & Hh & Hst & Eb & [bf Hbf]).
  destruct (Hw page b1 Hst Hh) as (b2 & Hr2 & Hst2 & Hv2); [unfold has_vec; rewrite Eb; exact Hv|].
  destruct (g_bufs _ _ (st_grows _ _ _ Hst2) ibuf bf Hbf) as (bf' & Hbf' & _).
  destruct (release_run b2 ibuf (st_refines _ _ _ Hst2)) as (b3 & Hr3 & Hst3 & Eb3); [eauto|].
  exists b3. split.
  - rewrite (bind_ok _ _ _ _ _ Hr). cbv beta. rewrite (bind_ok _ _ _ _ _ Hp). cbv beta. rewrite (bind_ok _ _ _ _ _ Hr2). cbv beta.
    rewrite (bind_ok _ _ _ _ _ Hr3). reflexivity.
  - split; [eapply ok_step_trans; [eapply ok_step_trans; eassumption | exact Hst3] | unfold has_vec; rewrite Eb3; exact Hv2].
Qed.

Lemma indirect1_fills : fills (fun bl at_ len => buffers_from_indirect (mod_dev i) bl bs a at_ len) below1 tree1 np.
Proof.
  intros bl at_ len b l R Hon Ht Hv Hl. destruct (np_bounds b R Hon) as (Hp & En & Ep). destruct (on_device_bs b R Hon) as (Hb & _).
  unfold buffers_from_indirect. cbv zeta. rewrite Ep, <- Nat2Z.inj_min, Nat2Z.id.
  apply (with_block b l bl _ (fun page => for_each (zseq 0 (Nat.min len np)) (fun i0 => x ← block_ptr page i0; in_blk (bio_set a (Z.of_nat at_ + i0) (s32 x)))));
    [exact R | exact Hon | exact Ht | exact Hv |].
  intros page b1 Hst Hh Hv1. apply (fill_run (below1 bl) (block_ptr page) b1 l at_ _ (st_refines _ _ _ Hst) Hv1 Hl).
  intros k b' Hk Hst'. apply block_ptr_run; [eapply holds_grows; [apply Hst' | exact Hh] | exact Ht | lia | lia].
Qed.

Lemma children_run (child : Z -> Z -> Z -> ST (kst (vfs ext2)) Z) (f : Z -> nat -> Z) (tree : Z -> nat -> Prop) (m : nat)
    (page bl : Z) (b : blk) (l : list Z) (at_ n : nat) :
  fills child f tree m -> refines D b -> on_device i bs b -> (0 < m)%nat -> holds b page bl -> on_disk bl -> (n <= np * m)%nat ->
  (forall j, (j * m < n)%nat -> tree (ptr bl j) (Nat.min (n - j * m) m)) -> has_vec b l -> (at_ + n <= length l)%nat ->
  exists b', for_each (zseq 0 (Z.to_nat ((Z.of_nat n + Z.of_nat m - 1) / Z.of_nat m))) (fun j =>
      x ← block_ptr page j; _ ← child x (Z.of_nat at_ + j * Z.of_nat m) (Z.of_nat n - j * Z.of_nat m); mret tt) (put s b) = Ok (tt, put s b') /\
    ok_step D b b' /\ has_vec b' (splice at_ ((fun k => s32 (f (ptr bl (k / m)%nat) (k mod m)%nat)) <$> seq 0 n) l).
Proof.
  intros Hf R Hon Hm Hh Hd Hn Htree Hv Hl. destruct (np_bounds b R Hon) as (Hp & Enb & _). destruct (on_device_bs b R Hon) as (Hb & _).
  set (g := fun k => s32 (f (ptr bl (k / m)%nat) (k mod m)%nat)).
  pose proof (Z.div_mod (Z.of_nat n + Z.of_nat m - 1) (Z.of_nat m) ltac:(lia)) as Hq.
  pose proof (Z.mod_pos_bound (Z.of_nat n + Z.of_nat m - 1) (Z.of_nat m) ltac:(lia)) as Hqb.
  set (q := (Z.of_nat n + Z.of_nat m - 1) / Z.of_nat m) in *. assert (0 <= q) as Hq0 by (apply Z.div_pos; lia).
  destruct (for_each_rule (fun (done : list Z) st => exists b', st = put s b' /\ ok_step D b b' /\
      has_vec b' (splice at_ (g <$> seq 0 (Nat.min (length done * m) n)) l))
    (fun j => x ← block_ptr page j; _ ← child x (Z.of_nat at_ + j * Z.of_nat m) (Z.of_nat n - j * Z.of_nat m); mret tt)
    (zseq 0 (Z.to_nat q)) (put s b)) as (st & Hr & b' & -> & Hst & Hv').
  - exists b. split; [reflexivity|]. split; [apply ok_step_refl, R|]. cbn. rewrite splice_nil. exact Hv.
  - intros done x rest st Eq (b1 & -> & Hst & Hv1). apply zseq_split in Eq as [-> Hdn]. rewrite Z.add_0_l.
    set (j := length done) in *. assert (j * m < n)%nat as Hjn by nia.
    replace (Nat.min (j * m) n) with (j * m)%nat in Hv1 by lia.
    assert (length (g <$> seq 0 (j * m)) = j * m)%nat as Hls by (rewrite length_fmap, length_seq; reflexivity).
    destruct (Hf (ptr bl j) (at_ + j * m)%nat (n - j * m)%nat b1 (splice at_ (g <$> seq 0 (j * m)) l) (st_refines _ _ _ Hst)) as (b2 & Hr2 & Hst2 & Hv2);
      [eapply ok_step_device; eassumption | apply Htree, Hjn | exact Hv1 | rewrite splice_length; lia |].
    exists (put s b2). split.
    + erewrite bind_ok; [| apply (block_ptr_run b1 page bl j); [eapply holds_grows; [apply Hst | exact Hh] | exact Hd | nia | lia]]. cbv beta.
      replace (Z.of_nat at_ + Z.of_nat j * Z.of_nat m) with (Z.of_nat (at_ + j * m)) by lia.
      replace (Z.of_nat n - Z.of_nat j * Z.of_nat m) with (Z.of_nat (n - j * m)) by lia.
      rewrite (bind_ok _ _ _ _ _ Hr2). reflexivity.
    + exists b2. split; [reflexivity|]. split; [eapply ok_step_trans; eassumption|].
      rewrite length_app. cbn [length]. fold j. rewrite <- Hls in Hv2 at 1. rewrite splice_splice in Hv2 by lia.
      replace (Nat.min ((j + 1) * m) n) with (j * m + Nat.min (n - j * m) m)%nat by lia.
      rewrite seq_app, fmap_app, Nat.add_0_l. replace (g <$> seq (j * m) (Nat.min (n - j * m) m))
        with ((fun k => s32 (f (ptr bl j) k)) <$> seq 0 (Nat.min (n - j * m) m)); [exact Hv2|].
      apply list_eq. intros k. rewrite !list_lookup_fmap. destruct (decide (k < Nat.min (n - j * m) m)%nat) as [Hk | Hk].
      * rewrite !lookup_seq_lt by exact Hk. cbn. unfold g. do 2 f_equal.
        rewrite (Nat.add_comm (j * m)), Nat.div_add, Nat.Div0.mod_add, Nat.div_small, Nat.mod_small by lia. reflexivity.
      * rewrite !lookup_seq_ge by lia. reflexivity.
  - rewrite zseq_length in Hv'. replace (Nat.min (Z.to_nat q * m) n) with n in Hv' by nia. exists b'. auto.
Qed.

Lemma indirect2_fills : fills (fun bl at_ len => buffers_from_indirect2 (mod_dev i) bl bs a at_ len) below2 tree2 (np * np).
Proof.
  intros bl at_ len b l R Hon Ht Hv Hl. destruct (np_bounds b R Hon) as (Hp & En & Ep).
  unfold buffers_from_indirect2. cbv zeta. rewrite Ep.
  replace (Z.of_nat np *% Z.of_nat np) with (Z.of_nat (np * np)) by (rewrite uN_id; change (2 ^ 32) with 4294967296; nia).
  rewrite <- Nat2Z.inj_min. set (n := Nat.min len (np * np)) in *. destruct Ht as [Hd Ht].
  apply (with_block b l bl _ (fun page => for_each (zseq 0 (Z.to_nat ((Z.of_nat n + Z.of_nat np - 1) / Z.of_nat np))) (fun i0 =>
    x ← block_ptr page i0; _ ← buffers_from_indirect (mod_dev i) x bs a (Z.of_nat at_ + i0 * Z.of_nat np) (Z.of_nat n - i0 * Z.of_nat np); mret tt)));
    [exact R | exact Hon | exact Hd | exact Hv |].
  intros page b1 Hst Hh Hv1. apply (children_run _ below1 tree1 np page bl b1 l at_ n indirect1_fills (st_refines _ _ _ Hst));
    [eapply ok_step_device; eassumption | lia | exact Hh | exact Hd | unfold n; lia | exact Ht | exact Hv1 | exact Hl].
Qed.

Lemma indirect3_fills : fills (fun bl at_ len => buffers_from_indirect3 (mod_dev i) bl bs a at_ len) below3 tree3 (np * (np * np)).
Proof.
  intros bl at_ len b l R Hon Ht Hv Hl. destruct (np_bounds b R Hon) as (Hp & En & Ep).
  unfold buffers_from_indirect3. cbv zeta. rewrite Ep.
  replace (Z.of_nat np *% Z.of_nat np) with (Z.of_nat (np * np)) by (rewrite uN_id; change (2 ^ 32) with 4294967296; nia).
  replace (Z.of_nat np *% Z.of_nat (np * np)) with (Z.of_nat (np * (np * np))).
  2: { clear - Hp. set (p := np) in *. clearbody p. rewrite uN_id; [rewrite !Nat2Z.inj_mul; reflexivity|].
       change (2 ^ 32) with 4294967296. rewrite !Nat2Z.inj_mul. split; [lia|].
       apply Z.le_lt_trans with (1024 * (1024 * 1024)); [|lia]. repeat (apply Z.mul_le_mono_nonneg; try lia). }
  rewrite <- Nat2Z.inj_min. set (n := Nat.min len (np * (np * np))) in *. destruct Ht as [Hd Ht].
  apply (with_block b l bl _ (fun page => for_each (zseq 0 (Z.to_nat ((Z.of_nat n + Z.of_nat (np * np) - 1) / Z.of_nat (np * np)))) (fun i0 =>
    x ← block_ptr page i0; _ ← buffers_from_indirect2 (mod_dev i) x bs a (Z.of_nat at_ + i0 * Z.of_nat (np * np)) (Z.of_nat n - i0 * Z.of_nat (np * np)); mret tt)));
    [exact R | exact Hon | exact Hd | exact Hv |].
  intros page b1 Hst Hh Hv1. apply (children_run _ below2 tree2 (np * np) page bl b1 l at_ n indirect2_fills (st_refines _ _ _ Hst));
    [eapply ok_step_device; eassumption | nia | exact Hh | exact Hd | unfold n; lia | exact Ht | exact Hv1 | exact Hl].
Qed.

End files.

(** ** Inodes *)

(** The fields of the inode at byte [at_] of a disk, and its blocks in the order of
    the file: twelve named by the inode, then those below the indirect blocks. *)
Definition inode_field (disk : list Z) (n : nat) (at_ off : nat) : Z := dle n disk (at_ + off).

Definition iblock (disk : list Z) (at_ k : nat) : Z := inode_field disk 4 at_ (40 + 4 * k).

Section bmap.

Context (D : nat -> list Z) (i : nat) (bs : Z).

Abbreviation nb := (Z.to_nat bs).
Abbreviation np := (nb / 4)%nat.
Abbreviation disk := (D i).

Definition bmap (at_ k : nat) : Z :=
  if decide (k < 12)%nat then iblock disk at_ k
  else if decide (k - 12 < np)%nat then below1 D i bs (iblock disk at_ 12) (k - 12)
  else if decide (k - 12 - np < np * np)%nat then below2 D i bs (iblock disk at_ 13) (k - 12 - np)
  else below3 D i bs (iblock disk at_ 14) (k - 12 - np - np * np).

(** The numbers on the way from the inode to the [k]-th block of the file, the last
    one being that of the block.  A number 0 on the way means that the file has a hole
    there. *)
Definition block_path (at_ k : nat) : list Z :=
  let one bl k := [bl; ptr D i bs bl k] in
  let two bl k := bl :: one (ptr D i bs bl (k / np)%nat) (k mod np)%nat in
  let three bl k := bl :: two (ptr D i bs bl (k / (np * np))%nat) (k mod (np * np))%nat in
  if decide (k < 12)%nat then [iblock disk at_ k]
  else if decide (k - 12 < np)%nat then one (iblock disk at_ 12) (k - 12)%nat
  else if decide (k - 12 - np < np * np)%nat then two (iblock disk at_ 13) (k - 12 - np)%nat
  else three (iblock disk at_ 14) (k - 12 - np - np * np)%nat.

Lemma block_path_last (at_ k : nat) : last (block_path at_ k) = Some (bmap at_ k).
Proof. unfold block_path, bmap, below3, below2, below1. repeat case_decide; reflexivity. Qed.

(** The indirect blocks of a file of [n] blocks are on the disk. *)
Definition blocks_ok (at_ n : nat) : Prop :=
  (n <= 12 + np + np * np + np * (np * np))%nat /\
  ((12 < n)%nat -> tree1 D i bs (iblock disk at_ 12) (Nat.min (n - 12) np)) /\
  ((12 + np < n)%nat -> tree2 D i bs (iblock disk at_ 13) (Nat.min (n - 12 - np) (np * np))) /\
  ((12 + np + np * np < n)%nat -> tree3 D i bs (iblock disk at_ 14) (Nat.min (n - 12 - np - np * np) (np * (np * np)))).

(** The first [k] entries of a vector are done. *)
Definition mapped (at_ : nat) (l : list Z) (k : nat) : Prop := forall j, (j < k)%nat -> l !! j = Some (s32 (bmap at_ j)).

Lemma mapped_splice (at_ : nat) (l : list Z) (k n : nat) (g : nat -> Z) :
  mapped at_ l k -> (k + n <= length l)%nat -> (forall j, (j < n)%nat -> g j = bmap at_ (k + j)) ->
  mapped at_ (splice k ((fun j => s32 (g j)) <$> seq 0 n) l) (k + n).
Proof.
  intros Hm Hl Hg j Hj. assert (length ((fun j => s32 (g j)) <$> seq 0 n) = n) as Hn by (rewrite length_fmap, length_seq; reflexivity).
  rewrite lookup_splice, Hn by lia. destruct (decide (k <= j < k + n)%nat) as [Hk | Hk]; [|apply Hm; lia].
  rewrite list_lookup_fmap, lookup_seq_lt by lia. cbn. rewrite Hg by lia. do 3 f_equal. lia.
Qed.

Lemma bmap_direct (at_ k : nat) : (k < 12)%nat -> bmap at_ k = iblock disk at_ k.
Proof. intros H. unfold bmap. rewrite decide_True by exact H. reflexivity. Qed.

Lemma bmap_below1 (at_ k : nat) : (k < np)%nat -> bmap at_ (12 + k) = below1 D i bs (iblock disk at_ 12) k.
Proof.
  intros H. unfold bmap. rewrite decide_False, decide_True by lia. f_equal. lia.
Qed.

Lemma bmap_below2 (at_ k : nat) : (k < np * np)%nat -> bmap at_ (12 + np + k) = below2 D i bs (iblock disk at_ 13) k.
Proof.
  intros H. unfold bmap. set (p := np) in *. clearbody p. rewrite !decide_False by lia. rewrite decide_True by lia. f_equal. lia.
Qed.

Lemma bmap_below3 (at_ k : nat) : bmap at_ (12 + np + np * np + k) = below3 D i bs (iblock disk at_ 14) k.
Proof.
  unfold bmap. set (p := np) in *. clearbody p. rewrite !decide_False by lia. f_equal. lia.
Qed.

Context `{X : Ext2Env} `{B : BlkEnv} {L : BlkLaws}.

Context (s : kst (vfs ext2)).

(** [page] and [off] are where the inode at byte [at_] is in memory. *)
Definition inode_in (b : blk) (page : Z) (off at_ : nat) : Prop :=
  exists bl, holds D i bs b page bl /\ on_disk D i bs bl /\ (off + 128 <= nb)%nat /\ at_ = (Z.to_nat (bl * bs) + off)%nat.

Lemma inode_in_grows (b b' : blk) (page : Z) (off at_ : nat) : grows b b' -> inode_in b page off at_ -> inode_in b' page off at_.
Proof. intros G (bl & Hh & Hr). exists bl. split; [eapply holds_grows; eassumption | exact Hr]. Qed.

Lemma inode_field_run (b : blk) (page : Z) (off at_ n k : nat) :
  inode_in b page off at_ -> 0 < bs -> (k + n <= 128)%nat ->
  field n page (Z.of_nat off + Z.of_nat k) (put s b) = Ok (inode_field disk n at_ k, put s b).
Proof.
  intros (bl & Hh & Hd & Ho & ->) Hb Hk. rewrite <- Nat2Z.inj_add. unfold inode_field.
  rewrite (field_block s D i bs n b page bl (off + k) Hh Hd) by lia. rewrite Nat.add_assoc. reflexivity.
Qed.

Lemma inode_block_run (b : blk) (page : Z) (off at_ k : nat) :
  inode_in b page off at_ -> 0 < bs -> (k < 15)%nat ->
  inode_block page (Z.of_nat off) (Z.of_nat k) (put s b) = Ok (iblock disk at_ k, put s b).
Proof.
  intros Hin Hb Hk. unfold inode_block, EI_BLOCK. replace (Z.of_nat off + 40 + 4 * Z.of_nat k) with (Z.of_nat off + Z.of_nat (40 + 4 * k)) by lia.
  apply inode_field_run; [exact Hin | exact Hb | lia].
Qed.

Context (vnode : Z) (v : inode) (sb : Z) (sbr : super_block) (sp : ext2_sb_private) (page buf : Z) (off at_ : nat).

Context (Hv : s.(env).(inodes) !! vnode = Some v) (Hdev : v.(i_dev) = mod_dev i)
  (Hsb : aload s.(env).(super_blocks) (v.(i_sb) - 1) = Ok sbr) (Hsp : s.(env).(fdata).(e_supers) !! sbr.(s_private) = Some sp)
  (Hpr : s.(env).(fdata).(e_privs) !! v.(i_private) = Some (InodePrivate page (Z.of_nat off) buf)).

(** The number of blocks of the inode: it counts sectors of 512 bytes. *)
Definition nr_blocks (log : Z) : Z := inode_field disk 4 at_ 28 / (2 * 2 ^ log).

Lemma ext2_inode_blocks_run (b : blk) (log : Z) :
  inode_in b page off at_ -> 0 < bs -> 0 <= log <= 2 -> field 4 sp.(e_sb) SB_LOG_BLOCK_SIZE (put s b) = Ok (log, put s b) ->
  ext2_inode_blocks sp.(e_sb) page (Z.of_nat off) (put s b) = Ok (nr_blocks log, put s b).
Proof.
  intros Hin Hb Hl Hf. unfold ext2_inode_blocks. rewrite (bind_ok _ _ _ _ _ Hf). cbv beta.
  change EI_BLOCKS with (Z.of_nat 28). rewrite (bind_ok _ _ _ _ _ (inode_field_run b page off at_ 4 28 Hin Hb ltac:(lia))). cbv beta.
  assert (u32 (shift_size 2 log) = 2 * 2 ^ log) as ->.
  { assert (log = 0 \/ log = 1 \/ log = 2) as [-> | [-> | ->]] by lia; reflexivity. }
  unfold udiv, st_res, nr_blocks. assert (0 < 2 ^ log) by (apply Z.pow_pos_nonneg; lia). rewrite (proj2 (Z.eqb_neq _ _)) by lia. reflexivity.
Qed.

(** ** Filling the vector *)

Definition vec_done (b0 b : blk) (a : Z) (n k : nat) : Prop :=
  ok_step D b0 b /\ exists l, has_vec bs a (mod_dev i) (Z.of_nat n) b l /\ (n <= length l)%nat /\ mapped at_ l k.

Lemma vec_stage (b0 b : blk) (a : Z) (n k m : nat) (child : Z -> Z -> Z -> ST (kst (vfs ext2)) Z) (f : Z -> nat -> Z)
    (tree : Z -> nat -> Prop) (bl : Z) :
  fills s D i bs a (mod_dev i) (Z.of_nat n) child f tree m -> on_device i bs b0 -> vec_done b0 b a n k -> (k <= n)%nat ->
  tree bl (Nat.min (n - k) m) -> (forall j, (j < Nat.min (n - k) m)%nat -> f bl j = bmap at_ (k + j)) ->
  exists b', child bl (Z.of_nat k) (Z.of_nat n - Z.of_nat k) (put s b) = Ok (Z.of_nat (Nat.min (n - k) m), put s b') /\
    vec_done b0 b' a n (k + Nat.min (n - k) m).
Proof.
  intros Hf Hon [Hst (l & Hv1 & Hl & Hm)] Hk Ht Hg. rewrite <- Nat2Z.inj_sub by lia.
  destruct (Hf bl k (n - k)%nat b l (st_refines _ _ _ Hst)) as (b' & Hr & Hst' & Hv'); [eapply ok_step_device; eassumption | exact Ht | exact Hv1 | lia |].
  exists b'. split; [exact Hr|]. split; [eapply ok_step_trans; eassumption|]. eexists. split; [exact Hv'|]. split.
  - rewrite splice_length; rewrite ?length_fmap, ?length_seq; lia.
  - apply mapped_splice; [exact Hm | lia | exact Hg].
Qed.

Lemma direct_stage (b0 b : blk) (a : Z) (n : nat) :
  on_device i bs b0 -> inode_in b0 page off at_ -> vec_done b0 b a n 0 -> 0 < bs ->
  exists b', for_each (zseq 0 (Nat.min 12 n)) (fun k => x ← inode_block page (Z.of_nat off) k; in_blk (bio_set a k (s32 x))) (put s b) = Ok (tt, put s b') /\
    vec_done b0 b' a n (Nat.min 12 n).
Proof.
  intros Hon Hin [Hst (l & Hv1 & Hl & Hm)] Hb.
  destruct (fill_run s D bs a (mod_dev i) (Z.of_nat n) (iblock disk at_) (inode_block page (Z.of_nat off)) b l 0 (Nat.min 12 n) (st_refines _ _ _ Hst) Hv1)
    as (b' & Hr & Hst' & Hv'); [lia | |].
  { intros k b' Hk Hs'. apply inode_block_run; [|exact Hb | lia]. eapply inode_in_grows; [|exact Hin]. etransitivity; [apply Hst | apply Hs']. }
  exists b'. split; [exact Hr|]. split; [eapply ok_step_trans; eassumption|]. eexists. split; [exact Hv'|]. split.
  - rewrite splice_length; rewrite ?length_fmap, ?length_seq; lia.
  - apply (mapped_splice at_ l 0 (Nat.min 12 n)); [exact Hm | lia |]. intros j Hj. symmetry. apply bmap_direct. lia.
Qed.

Lemma nat_eqb (a b : nat) : (Z.of_nat a =? Z.of_nat b) = bool_decide (a = b).
Proof. destruct (Z.eqb_spec (Z.of_nat a) (Z.of_nat b)); symmetry; [apply bool_decide_eq_true | apply bool_decide_eq_false]; lia. Qed.

(** The loops of [ext2_inode_to_bio_vec]. *)
Definition fill_vec (a n : Z) : ST (kst (vfs ext2)) Z :=
  let k := Z.min 12 n in
  for_each (zseq 0 (Z.to_nat k)) (fun k => x ← inode_block page (Z.of_nat off) k; in_blk (bio_set a k (s32 x))) ;;
  if k =? n then mret a
  else
    b ← inode_block page (Z.of_nat off) 12;
    r ← buffers_from_indirect (mod_dev i) b bs a k (n - k);
    let k := k + r in
    if k =? n then mret a
    else
      b ← inode_block page (Z.of_nat off) 13;
      r ← buffers_from_indirect2 (mod_dev i) b bs a k (n - k);
      let k := k + r in
      if k =? n then mret a
      else
        b ← inode_block page (Z.of_nat off) 14;
        _ ← buffers_from_indirect3 (mod_dev i) b bs a k (n - k);
        mret a.

Lemma fill_vec_run (b0 b : blk) (a : Z) (n : nat) :
  refines D b0 -> on_device i bs b0 -> inode_in b0 page off at_ -> vec_done b0 b a n 0 -> blocks_ok at_ n ->
  exists b', fill_vec a (Z.of_nat n) (put s b) = Ok (a, put s b') /\ vec_done b0 b' a n n.
Proof.
  intros R Hon Hin Hd0 (Hmax & Ht1 & Ht2 & Ht3). destruct (on_device_bs D i bs b0 R Hon) as (Hb & _).
  assert (forall b' k c m, vec_done b0 b' a n k -> c = Z.of_nat m -> (m < 15)%nat ->
            inode_block page (Z.of_nat off) c (put s b') = Ok (iblock disk at_ m, put s b')) as Hib.
  { intros b' k c m [Hst _] -> Hm. apply inode_block_run; [|lia | exact Hm]. eapply inode_in_grows; [apply Hst | exact Hin]. }
  destruct (direct_stage b0 b a n Hon Hin Hd0 ltac:(lia)) as (b1 & Hr1 & Hd1).
  unfold fill_vec. cbv zeta. replace (Z.min 12 (Z.of_nat n)) with (Z.of_nat (Nat.min 12 n)) by lia.
  rewrite Nat2Z.id, (bind_ok _ _ _ _ _ Hr1). cbv beta.
  rewrite nat_eqb. case_bool_decide as E1; [rewrite E1 in Hd1; exists b1; auto|]. assert (12 < n)%nat as L1 by lia. replace (Nat.min 12 n) with 12%nat in * by lia.
  rewrite (bind_ok _ _ _ _ _ (Hib b1 _ 12 12%nat Hd1 eq_refl ltac:(lia))). cbv beta.
  destruct (vec_stage b0 b1 a n 12 np _ (below1 D i bs) (tree1 D i bs) (iblock disk at_ 12) (indirect1_fills s D i bs a (mod_dev i) (Z.of_nat n)) Hon Hd1)
    as (b2 & Hr2 & Hd2); [lia | apply Ht1; lia | intros j Hj; symmetry; apply bmap_below1; lia |].
  rewrite (bind_ok _ _ _ _ _ Hr2). cbv beta. rewrite <- Nat2Z.inj_add, nat_eqb. case_bool_decide as E2; [rewrite E2 in Hd2; exists b2; auto|].
  assert (12 + np < n)%nat as L2 by lia. replace (Nat.min (n - 12) np) with np in * by lia.
  rewrite (bind_ok _ _ _ _ _ (Hib b2 _ 13 13%nat Hd2 eq_refl ltac:(lia))). cbv beta.
  destruct (vec_stage b0 b2 a n (12 + np) (np * np) _ (below2 D i bs) (tree2 D i bs) (iblock disk at_ 13) (indirect2_fills s D i bs a (mod_dev i) (Z.of_nat n)) Hon Hd2)
    as (b3 & Hr3 & Hd3); [lia | replace (n - (12 + np))%nat with (n - 12 - np)%nat by lia; apply Ht2; lia | intros j Hj; symmetry; apply bmap_below2; lia |].
  rewrite (bind_ok _ _ _ _ _ Hr3). cbv beta. rewrite <- Nat2Z.inj_add, nat_eqb. case_bool_decide as E3; [rewrite E3 in Hd3; exists b3; auto|].
  assert (12 + np + np * np < n)%nat as L3 by lia. replace (Nat.min (n - (12 + np)) (np * np)) with (np * np)%nat in * by lia.
  rewrite (bind_ok _ _ _ _ _ (Hib b3 _ 14 14%nat Hd3 eq_refl ltac:(lia))). cbv beta.
  destruct (vec_stage b0 b3 a n (12 + np + np * np) (np * (np * np)) _ (below3 D i bs) (tree3 D i bs) (iblock disk at_ 14)
    (indirect3_fills s D i bs a (mod_dev i) (Z.of_nat n)) Hon Hd3) as (b4 & Hr4 & Hd4);
    [lia | replace (n - (12 + np + np * np))%nat with (n - 12 - np - np * np)%nat by lia; apply Ht3; lia | intros j Hj; symmetry; apply bmap_below3 |].
  rewrite (bind_ok _ _ _ _ _ Hr4). exists b4. split; [reflexivity|].
  replace (12 + np + np * np + Nat.min (n - (12 + np + np * np)) (np * (np * np)))%nat with n in Hd4 by lia. exact Hd4.
Qed.

(** The vector of a file holds its blocks in order. *)
Lemma ext2_inode_to_bio_vec_run (b : blk) (log : Z) (n : nat) :
  refines D b -> on_device i bs b -> inode_in b page off at_ -> 0 <= log <= 2 ->
  (forall b', grows b b' -> field 4 sp.(e_sb) SB_LOG_BLOCK_SIZE (put s b') = Ok (log, put s b')) ->
  nr_blocks log = Z.of_nat n -> Z.of_nat n < 2 ^ 29 -> blocks_ok at_ n ->
  exists a b' l, ext2_inode_to_bio_vec vnode (put s b) = Ok (a, put s b') /\ ok_step D b b' /\
    has_vec bs a (mod_dev i) (Z.of_nat n) b' l /\ mapped at_ l n.
Proof.
  intros R Hon Hin Hl Hf Hn Hsm Hok. destruct (on_device_bs D i bs b R Hon) as (Hb & _). pose proof Hon as (md & dv & Hdv & Hm & Ebs).
  unfold ext2_inode_to_bio_vec.
  erewrite bind_ok; [| unfold iload; change (inodes (env (put s b))) with (inodes (env s)); rewrite Hv; reflexivity]. cbv beta.
  assert (ext2_superblock v.(i_sb) (put s b) = Ok (sp.(e_sb), put s b)) as Hes.
  { unfold ext2_superblock, sbload. erewrite bind_ok; [| erewrite bind_ok; [| reflexivity]; cbv beta;
      change (super_blocks (env (put s b))) with (super_blocks (env s)); unfold st_res; rewrite Hsb; reflexivity]. cbv beta.
    erewrite bind_ok; [| unfold sbp_load; change (e_supers (fdata (env (put s b)))) with (e_supers (fdata (env s))); rewrite Hsp; reflexivity]. reflexivity. }
  rewrite (bind_ok _ _ _ _ _ Hes). cbv beta.
  assert (ext2_inode vnode (put s b) = Ok ((page, Z.of_nat off), put s b)) as Hei.
  { unfold ext2_inode. erewrite bind_ok; [| unfold iload; change (inodes (env (put s b))) with (inodes (env s)); rewrite Hv; reflexivity]. cbv beta.
    erewrite bind_ok; [| unfold ip_load; change (e_privs (fdata (env (put s b)))) with (e_privs (fdata (env s))); rewrite Hpr; reflexivity]. reflexivity. }
  rewrite (bind_ok _ _ _ _ _ Hei). cbv beta iota. rewrite Hdev.
  assert (blkdev_blksize (mod_dev i) b = Ok (bs, b)) as Hbl.
  { unfold blkdev_blksize. erewrite bind_ok; [| eapply get_device_run; [eapply device_lt; eassumption | apply R | apply Hdv | exact Hm]]. cbv beta iota.
    erewrite bind_ok; [| apply dvload_run; apply Hdv]. cbv beta. rewrite Ebs. reflexivity. }
  erewrite bind_ok; [| apply in_blk_run, Hbl]. cbv beta.
  rewrite (bind_ok _ _ _ _ _ (ext2_inode_blocks_run b log Hin ltac:(lia) Hl (Hf b ltac:(reflexivity)))). cbv beta. rewrite Hn.
  rewrite (sN_id 32 (Z.of_nat n)) by (change (2 ^ (32 - 1)) with (2 ^ 31); lia). rewrite (uN_id 32 bs) by lia.
  destruct (alloc_bio_vec_run b (mod_dev i) bs n Hsm) as (a & l0 & Ha & Hfr & Hcap).
  erewrite bind_ok; [| apply in_blk_run, Ha]. cbv beta.
  set (b1 := set_bios b (<[a := BioVec (mod_dev i) (Z.of_nat n) bs l0]> b.(bios))).
  destruct (fill_vec_run b b1 a n R Hon Hin) as (b' & Hr & Hst & l & Hvec & _ & Hmap).
  - split; [apply ok_step_bios, R|]. exists l0. split; [apply lookup_insert_eq|]. split; [exact Hcap | intros j Hj; lia].
  - exact Hok.
  - exists a, b', l. split; [exact Hr | auto].
Qed.

End bmap.

(** ** Reading files of a mounted disk

    With blocks of 1024 bytes the super block is block 1 and the group descriptors
    start in block 2. *)

Abbreviation KB := 1024.

(** Where inode number [ino] is on the disk. *)
Definition inodes_per_group (disk : list Z) : Z := dle 4 disk (1024 + 40).
Definition local_index (disk : list Z) (ino : Z) : Z := (ino - 1) mod inodes_per_group disk.
Definition group_nr (disk : list Z) (ino : Z) : Z := (ino - 1) / inodes_per_group disk.
Definition table_of (disk : list Z) (ino : Z) : Z := dle 4 disk (2048 + (32 * Z.to_nat (group_nr disk ino) + 8)).
Definition inode_blk (disk : list Z) (ino : Z) : Z := table_of disk ino + local_index disk ino / 8.
Definition inode_off (disk : list Z) (ino : Z) : nat := Z.to_nat (128 * (local_index disk ino mod 8)).
Definition inode_at (disk : list Z) (ino : Z) : nat := (Z.to_nat (inode_blk disk ino * KB) + inode_off disk ino)%nat.

Record mounted (D : nat -> list Z) (i : nat) (s : kst (vfs ext2)) (sb : Z) (sbr : super_block) (sp : ext2_sb_private) : Prop := {
  m_refines : refines D (blk_st s);
  m_device : on_device i KB (blk_st s);
  m_super : aload s.(env).(super_blocks) (sb - 1) = Ok sbr;
  m_dev : sbr.(s_dev) = mod_dev i;
  m_private : s.(env).(fdata).(e_supers) !! sbr.(s_private) = Some sp;
  m_sb : holds D i KB (blk_st s) sp.(e_sb) 1;
  m_bg : holds D i KB (blk_st s) sp.(e_bg_table) 2;
  m_size : 3072 <= Z.of_nat (length (D i));
  m_log : dle 4 (D i) (1024 + 24) = 0;
}.

(** The inode's descriptor is in block 2 and the inode on the disk. *)
Record inode_ok (D : nat -> list Z) (i : nat) (ino : Z) : Prop := {
  n_range : 1 <= ino < 2 ^ 32;
  n_groups : 0 < inodes_per_group (D i);
  n_group : group_nr (D i) ino < 32;
  n_disk : on_disk D i KB (inode_blk (D i) ino);
}.

Section mounted.

Context `{X : Ext2Env} `{B : BlkEnv} {L : BlkLaws}.

Context (D : nat -> list Z) (i : nat) (s : kst (vfs ext2)) (sb : Z) (sbr : super_block) (sp : ext2_sb_private) (ino : Z).

Abbreviation disk := (D i).

Context (M : mounted D i s sb sbr sp) (N : inode_ok D i ino).

Lemma block_1_2 : on_disk D i KB 1 /\ on_disk D i KB 2.
Proof. pose proof (m_size _ _ _ _ _ _ M). unfold on_disk. lia. Qed.

(** Fields of the super block and of the descriptors. *)
Lemma sb_field (s' : kst (vfs ext2)) (b : blk) (off : nat) (o : Z) :
  grows (blk_st s) b -> (off + 4 <= 1024)%nat -> o = Z.of_nat off ->
  field 4 sp.(e_sb) o (put s' b) = Ok (dle 4 disk (1024 + off), put s' b).
Proof.
  intros G Ho ->. apply (field_block s' D i KB 4 b sp.(e_sb) 1 off); [eapply holds_grows; [exact G | apply M] | apply block_1_2 | exact Ho | lia].
Qed.

Lemma bg_field (s' : kst (vfs ext2)) (b : blk) (off : nat) (o : Z) :
  grows (blk_st s) b -> (off + 4 <= 1024)%nat -> o = Z.of_nat off ->
  field 4 sp.(e_bg_table) o (put s' b) = Ok (dle 4 disk (2048 + off), put s' b).
Proof.
  intros G Ho ->. apply (field_block s' D i KB 4 b sp.(e_bg_table) 2 off); [eapply holds_grows; [exact G | apply M] | apply block_1_2 | exact Ho | lia].
Qed.

Lemma ext2_iget_run (b : blk) :
  ok_step D (blk_st s) b ->
  exists page b', ext2_iget sb ino (put s b) = Ok ((page, Z.of_nat (inode_off disk ino)), put s b') /\ ok_step D b b' /\
    inode_in D i KB b' page (inode_off disk ino) (inode_at disk ino).
Proof.
  intros Hst. destruct N as [Hino Hipg Hgrp Hdisk]. pose proof (st_grows _ _ _ Hst) as G.
  set (ipg := inodes_per_group disk) in *. set (li := local_index disk ino). set (gr := group_nr disk ino) in *.
  assert (0 <= li < ipg) as Hli by (apply Z.mod_pos_bound; lia). assert (0 <= gr) as Hgr by (apply Z.div_pos; lia).
  destruct (read_block_page s D i KB b (inode_blk disk ino) (st_refines _ _ _ Hst)) as (ibuf & page & b' & Hr & Hp & Hh & Hst' & _);
    [eapply ok_step_device; [exact Hst | apply M] | exact Hdisk |].
  exists page, b'. split; [|split; [exact Hst'|]].
  2: { exists (inode_blk disk ino). split; [exact Hh|]. split; [exact Hdisk|]. split; [unfold inode_off; lia | reflexivity]. }
  unfold ext2_iget, sbload.
  erewrite bind_ok; [| erewrite bind_ok; [| reflexivity]; cbv beta;
    change (super_blocks (env (put s b))) with (super_blocks (env s)); unfold st_res; rewrite (m_super _ _ _ _ _ _ M); reflexivity]. cbv beta.
  erewrite bind_ok; [| unfold sbp_load; change (e_supers (fdata (env (put s b)))) with (e_supers (fdata (env s))); rewrite (m_private _ _ _ _ _ _ M); reflexivity]. cbv beta.
  assert (ino -% 1 = ino - 1) as Ei by (apply uN_id; lia).
  erewrite bind_ok; [| unfold ino_to_bg, inode_block_group_nr; erewrite bind_ok; [| erewrite bind_ok;
      [| apply (sb_field s b 40); [exact G | lia | reflexivity]]; cbv beta; rewrite Ei; unfold st_res, udiv;
      rewrite (proj2 (Z.eqb_neq _ _)) by (unfold ipg, inodes_per_group in Hipg; lia); reflexivity]; cbv beta; reflexivity]. cbv beta.
  erewrite bind_ok; [| unfold ext2_block_size; erewrite bind_ok; [| apply (sb_field s b 24); [exact G | lia | reflexivity]]; cbv beta;
    rewrite (m_log _ _ _ _ _ _ M); reflexivity]. cbv beta zeta.
  change (block_size_of 0) with 1024. change (u32 1024 / sizeof_ext2_inode) with 8.
  erewrite bind_ok; [| unfold inode_local_index; erewrite bind_ok; [| apply (sb_field s b 40); [exact G | lia | reflexivity]]; cbv beta;
    rewrite Ei; unfold st_res, umod; rewrite (proj2 (Z.eqb_neq _ _)) by (unfold ipg, inodes_per_group in Hipg; lia); reflexivity]. cbv beta.
  fold (inodes_per_group disk). fold (local_index disk ino) (group_nr disk ino). fold gr li.
  erewrite bind_ok; [| reflexivity]. cbv beta. erewrite bind_ok; [| reflexivity]. cbv beta.
  erewrite bind_ok; [| apply (bg_field s b (32 * Z.to_nat gr + 8)); [exact G | lia | unfold sizeof_ext2_bg_descriptor, BG_INODE_TABLE; lia]]. cbv beta.
  fold gr. change (dle 4 disk (2048 + (32 * Z.to_nat gr + 8))) with (table_of disk ino). rewrite (m_dev _ _ _ _ _ _ M).
  change (table_of disk ino + li / 8) with (inode_blk disk ino).
  rewrite (on_disk_s32 D i KB b (inode_blk disk ino) (st_refines _ _ _ Hst)) by (exact Hdisk || (eapply ok_step_device; [exact Hst | apply M])).
  rewrite (bind_ok _ _ _ _ _ Hr). cbv beta. rewrite (bind_ok _ _ _ _ _ Hp). cbv beta.
  unfold inode_off, sizeof_ext2_inode. fold li. rewrite Z2Nat.id by lia. rewrite Z.mul_comm. reflexivity.
Qed.

Abbreviation iat := (inode_at disk ino).

Context (vnode : Z) (v : inode) (priv : Z) (junk : ext2_inode_private) (n : nat).

Context (Hv : s.(env).(inodes) !! vnode = Some v) (Hsb : v.(i_sb) = sb) (Hino : v.(i_ino) = ino) (Hdev : v.(i_dev) = mod_dev i)
  (Hcache : inode_private_cachep s.(env).(fdata).(e_privs) = Some (priv, junk)).

Context (Hreg : S_ISREG (inode_field disk 2 iat 0) = true) (Hn : nr_blocks D i iat 0 = Z.of_nat n) (Hsm : Z.of_nat n < 2 ^ 29)
  (Hok : blocks_ok D i KB iat n).

(** What [ext2_read_inode] makes of the inode. *)
Definition vnode_of (bio : Z) : inode :=
  i_set_bio (i_set_ext2 v (inode_field disk 2 iat 0) v.(i_rdev) (inode_field disk 4 iat 4) (inode_field disk 2 iat 26) ext2_reg_iops_p priv) bio.

Definition with_privs (s : kst (vfs ext2)) (m : gmap Z ext2_inode_private) : kst (vfs ext2) :=
  set_env s (set_fdata s.(env) (set_privs s.(env).(fdata) m)).

Definition with_inodes (s : kst (vfs ext2)) (m : gmap Z inode) : kst (vfs ext2) := set_env s (set_inodes s.(env) m).

Lemma reg_not_dev (mode : Z) : S_ISREG mode = true -> S_ISCHR mode || S_ISBLK mode = false.
Proof.
  unfold S_ISREG, S_ISCHR, S_ISBLK. intros H. apply Z.eqb_eq in H. rewrite H. reflexivity.
Qed.

Lemma vnode_upd_run (s' : kst (vfs ext2)) (b : blk) (w : inode) (f : inode -> inode) :
  s'.(env).(inodes) !! vnode = Some w ->
  iupd vnode f (put s' b) = Ok (tt, put (with_inodes s' (<[vnode := f w]> s'.(env).(inodes))) b).
Proof.
  intros Hw. unfold iupd. erewrite bind_ok; [| unfold iload; change (inodes (env (put s' b))) with (inodes (env s')); rewrite Hw; reflexivity].
  reflexivity.
Qed.

Lemma ext2_read_inode_run :
  exists bio b' l, ok_step D (blk_st s) b' /\ has_vec KB bio (mod_dev i) (Z.of_nat n) b' l /\ mapped D i KB iat l n /\
    exists m, ext2_read_inode vnode s = Ok (tt, put (with_inodes (with_privs s m) (<[vnode := vnode_of bio]> s.(env).(inodes))) b').
Proof.
  destruct (ext2_iget_run (blk_st s) (ok_step_refl D (blk_st s) (m_refines _ _ _ _ _ _ M))) as (page & b1 & Hig & Hst1 & Hin).
  set (off := inode_off disk ino) in *. set (m := <[priv := InodePrivate page (Z.of_nat off) junk.(p_buf)]> s.(env).(fdata).(e_privs)).
  set (s1 := with_privs s m). set (w := i_set_ext2 v (inode_field disk 2 iat 0) v.(i_rdev) (inode_field disk 4 iat 4) (inode_field disk 2 iat 26) ext2_reg_iops_p priv).
  set (s2 := with_inodes s1 (<[vnode := w]> s.(env).(inodes))).
  assert (forall t : kst (vfs ext2), forall k c : nat, (c + k <= 128)%nat ->
            field k page (Z.of_nat off + Z.of_nat c) (put t b1) = Ok (inode_field disk k iat c, put t b1)) as Hfl.
  { intros t k c Hc. apply (inode_field_run D i KB t b1 page off iat k c Hin); [lia | exact Hc]. }
  destruct (ext2_inode_to_bio_vec_run D i KB s2 vnode w sbr sp page junk.(p_buf) off iat) with (b := b1) (log := 0) (n := n)
    as (bio & b' & l & Hbv & Hst2 & Hvec & Hmap).
  - apply lookup_insert_eq.
  - exact Hdev.
  - cbn. rewrite Hsb. apply (m_super _ _ _ _ _ _ M).
  - apply (m_private _ _ _ _ _ _ M).
  - cbn. apply lookup_insert_eq.
  - apply Hst1.
  - eapply ok_step_device; [exact Hst1 | apply M].
  - exact Hin.
  - lia.
  - intros b2 G. rewrite (sb_field s2 b2 24); [rewrite (m_log _ _ _ _ _ _ M); reflexivity | | lia | reflexivity].
    etransitivity; [apply Hst1 | exact G].
  - exact Hn.
  - exact Hsm.
  - exact Hok.
  - exists bio, b', l. split; [eapply ok_step_trans; eassumption|]. split; [exact Hvec|]. split; [exact Hmap|]. exists m.
    rewrite put_id in Hig. unfold ext2_read_inode. erewrite bind_ok; [| unfold e_of, gets; reflexivity]. cbv beta. rewrite Hcache.
    erewrite bind_ok; [| unfold iload; rewrite Hv; reflexivity]. cbv beta. rewrite Hsb, Hino, (bind_ok _ _ _ _ _ Hig). cbv beta iota.
    erewrite bind_ok; [| unfold e_set, vfs_set, modify; reflexivity]. cbv beta.
    change (set_env (put s b1) _) with (put s1 b1).
    change EI_MODE with (Z.of_nat 0). rewrite (bind_ok _ _ _ _ _ (Hfl s1 2%nat 0%nat ltac:(lia))). cbv beta.
    rewrite (reg_not_dev _ Hreg). erewrite bind_ok; [| reflexivity]. cbv beta.
    change EI_SIZE with (Z.of_nat 4). rewrite (bind_ok _ _ _ _ _ (Hfl s1 4%nat 4%nat ltac:(lia))). cbv beta.
    change EI_LINKS_COUNT with (Z.of_nat 26). rewrite (bind_ok _ _ _ _ _ (Hfl s1 2%nat 26%nat ltac:(lia))). cbv beta.
    erewrite bind_ok; [| unfold ext2_mode_iops; rewrite Hreg; reflexivity]. cbv beta.
    rewrite (bind_ok _ _ _ _ _ (vnode_upd_run s1 b1 v _ Hv)). cbv beta. fold w. change (with_inodes s1 _) with s2.
    rewrite (bind_ok _ _ _ _ _ Hbv). cbv beta. rewrite (vnode_upd_run s2 b' w) by apply lookup_insert_eq.
    unfold s2, s1, with_inodes. cbn. rewrite insert_insert_eq. reflexivity.
Qed.

(** The bytes of the file, one by one: those of its blocks, and zeros in holes. *)
Definition file_byte (j : nat) : Z :=
  let path := block_path D i KB iat (j / 1024) in
  if bool_decide (0 ∈ path) then 0
  else default 0 (disk !! (Z.to_nat (default 0%Z (last path) * KB)%Z + j mod 1024)%nat).

Definition ext2_contents (size : nat) : list Z := file_byte <$> seq 0 size.

(** The block is there and on the disk. *)
Definition block_present (k : nat) : Prop := 0 ∉ block_path D i KB iat k /\ on_disk D i KB (bmap D i KB iat k).

Lemma contents_reads (bio : Z) (l : list Z) (size : nat) :
  mapped D i KB iat l n -> refines D (blk_st s) -> (size <= n * 1024)%nat ->
  (forall k, (k * 1024 < size)%nat -> block_present k) ->
  vec_reads KB (BioVec (mod_dev i) (Z.of_nat n) KB l) disk (ext2_contents size).
Proof.
  intros Hmap R Hsz Hd k Hk. unfold ext2_contents in *. rewrite length_fmap, length_seq in Hk. change (Z.to_nat KB) with 1024%nat in *.
  destruct (Hd k Hk) as [Hpath Hdk]. exists (bmap D i KB iat k). split; [|split; [apply Hdk|]].
  - cbn [v_block]. rewrite (Hmap k) by lia. f_equal. eapply on_disk_s32; [exact R | apply M | exact Hdk].
  - intros j Hj Hjl. rewrite length_fmap, length_seq in Hjl. destruct Hdk as [H0 Hl].
    split; [lia|]. rewrite list_lookup_fmap, lookup_seq_lt by exact Hjl. cbn [fmap option_fmap option_map]. unfold file_byte.
    rewrite Nat.add_0_l, (Nat.add_comm (k * 1024)), Nat.div_add, Nat.Div0.mod_add, Nat.div_small, Nat.mod_small by lia. rewrite Nat.add_0_l.
    cbv zeta. rewrite (bool_decide_eq_false_2 _ Hpath), block_path_last. change (default 0 (Some (bmap D i KB iat k))) with (bmap D i KB iat k).
    destruct (lookup_lt_is_Some_2 disk (Z.to_nat (bmap D i KB iat k * KB) + j)%nat) as [x ->]; [lia | reflexivity].
Qed.

Lemma read_result_run (bio : Z) (b : blk) (l F : list Z) (pos k : nat) :
  ok_step D (blk_st s) b -> has_vec KB bio (mod_dev i) (Z.of_nat n) b l -> vec_reads KB (BioVec (mod_dev i) (Z.of_nat n) KB l) disk F ->
  (pos + k <= length F)%nat -> Z.of_nat (pos + k) < 2 ^ 31 ->
  exists b', bio_read bio (replicate k 0) (Z.of_nat k) (Z.of_nat pos) b = Ok ((Z.of_nat k, take k (drop pos F)), Z.of_nat (pos + k), b') /\ refines D b'.
Proof.
  intros Hst Hvec HF Hl Hs. destruct (bio_do_io_read D b bio _ i F (replicate k 0) pos k (st_refines _ _ _ Hst) Hvec) as (b' & Hr & R' & _).
  - reflexivity.
  - eapply ok_step_device; [exact Hst | apply M].
  - exact HF.
  - reflexivity.
  - exact Hl.
  - exact Hs.
  - rewrite length_replicate. lia.
  - exists b'. split; [|exact R']. unfold bio_read. rewrite (bind_ok _ _ _ _ _ Hr). cbv beta. cbn [fst snd].
    rewrite (proj2 (Z.ltb_ge (Z.of_nat k) 0)) by lia. rewrite uN_id by lia. rewrite <- Nat2Z.inj_add.
    rewrite splice_all; [reflexivity|]. rewrite length_replicate, length_take, length_drop. lia.
Qed.

End mounted.

(** C35: On a mounted disk with blocks of 1024 bytes, reading the inode of a regular
    file without holes and then from the file returns the bytes that the disk holds in
    the file's blocks, direct and below the three kinds of indirect blocks, in order,
    up to the size the inode gives.  The inode is in one of the first 32 groups, whose
    descriptors fill one block; its size is below 2^31 and at most 1024 times the
    number of blocks it counts, its blocks are on the disk, and the read starts within
    the file.  Files with holes are left out: holes are read from block 0
    ([hole_reads_block_0]), and the vector of blocks is too short
    ([sparse_read_unset]). *)
Theorem ext2_file_read `{X : Ext2Env} `{B : BlkEnv} {L : BlkLaws} (D : nat -> list Z) (i : nat) (s : kst (vfs ext2)) (sb : Z)
    (sbr : super_block) (sp : ext2_sb_private) (vnode : Z) (v : inode) (priv : Z) (junk : ext2_inode_private) (fp : Z) (f : file)
    (n size pos len : nat) (at_ := inode_at (D i) v.(i_ino)) (k := Nat.min len (size - pos)) :
  mounted D i s sb sbr sp -> inode_ok D i v.(i_ino) ->
  s.(env).(inodes) !! vnode = Some v -> v.(i_sb) = sb -> v.(i_dev) = mod_dev i ->
  inode_private_cachep s.(env).(fdata).(e_privs) = Some (priv, junk) ->
  s.(env).(files) !! fp = Some f -> f.(f_inode) = vnode ->
  S_ISREG (inode_field (D i) 2 at_ 0) = true ->
  nr_blocks D i at_ 0 = Z.of_nat n -> Z.of_nat n < 2 ^ 29 -> blocks_ok D i KB at_ n ->
  inode_field (D i) 4 at_ 4 = Z.of_nat size -> (size <= n * 1024)%nat -> Z.of_nat size < 2 ^ 31 ->
  (forall j, (j * 1024 < size)%nat -> block_present D i v.(i_ino) j) -> (pos <= size)%nat ->
  exists s', (ext2_read_inode vnode ;; bio_file_read fp (Z.of_nat len) (Z.of_nat pos)) s =
    Ok ((Z.of_nat k, take k (drop pos (ext2_contents D i v.(i_ino) size)), Z.of_nat (pos + k)), s') /\ refines D (blk_st s').
Proof.
  intros M N Hv Hsb Hdev Hcache Hf Hfi Hreg Hn Hsm Hok Hsz Hszn Hs31 Hdata Hpos.
  destruct (ext2_read_inode_run D i s sb sbr sp v.(i_ino) M N vnode v priv junk n Hv Hsb eq_refl Hdev Hcache Hreg Hn Hsm Hok)
    as (bio & b' & l & Hst & Hvec & Hmap & m & Hr).
  pose proof (contents_reads D i s sb sbr sp v.(i_ino) M n bio l size Hmap (m_refines _ _ _ _ _ _ M) Hszn Hdata) as HF.
  assert (length (ext2_contents D i v.(i_ino) size) = size) as HlF by (unfold ext2_contents; rewrite length_fmap, length_seq; reflexivity).
  destruct (read_result_run D i s sb sbr sp M n bio b' l _ pos k Hst Hvec HF) as (b2 & Hr2 & R2); [unfold k; lia | unfold k; lia |].
  rewrite (bind_ok _ _ _ _ _ Hr). cbv beta. eexists. split; [|].
  - unfold bio_file_read. erewrite bind_ok; [| unfold fload; cbn; rewrite Hf; reflexivity]. cbv beta. rewrite Hfi.
    erewrite bind_ok; [| unfold iload; cbn; rewrite lookup_insert_eq; reflexivity]. cbv beta. cbn [i_size i_bio vnode_of i_set_bio i_set_ext2].
    fold at_. rewrite Hsz. rewrite (proj2 (Z.ltb_ge _ _)) by lia. cbv zeta.
    replace (Z.min (Z.of_nat len) (Z.of_nat size -% Z.of_nat pos)) with (Z.of_nat k) by (rewrite uN_id by lia; unfold k; lia).
    rewrite Nat2Z.id. erewrite bind_ok; [| apply in_blk_run; exact Hr2]. cbv beta.
    unfold read_result. cbn [fst snd]. rewrite Nat2Z.id, take_take, Nat.min_id. reflexivity.
  - exact R2.
Qed.

(** ** Mounting *)

Section mount.

Context `{X : Ext2Env} `{B : BlkEnv} {L : BlkLaws}.

(** The last steps of [ext2_read_super] before the root inode is read. *)
Definition mount_steps (sb private : Z) : ST (kst (vfs ext2)) unit :=
  _ ← do_read_super sb private;
  sbupd sb (fun s => sb_set_fs s s.(s_mounted) ext2_super_ops_p private).

Definition keeps_vfs (s s' : kst (vfs ext2)) : Prop :=
  s'.(env).(inodes) = s.(env).(inodes) /\ s'.(env).(files) = s.(env).(files) /\ s'.(env).(fdata).(e_privs) = s.(env).(fdata).(e_privs).

Definition with_supers2 (s : kst (vfs ext2)) (m : gmap Z ext2_sb_private) : kst (vfs ext2) :=
  set_env s (set_fdata s.(env) (set_supers2 s.(env).(fdata) m)).

Lemma e_set_supers_run (s : kst (vfs ext2)) (b : blk) (a : Z) (p : ext2_sb_private) :
  e_set (fun d => set_supers2 d (<[a := p]> d.(e_supers))) (put s b) =
  Ok (tt, put (with_supers2 s (<[a := p]> s.(env).(fdata).(e_supers))) b).
Proof. reflexivity. Qed.

Lemma mount_steps_run (D : nat -> list Z) (i : nat) (s : kst (vfs ext2)) (sb priv : Z) (sbr : super_block) (p : ext2_sb_private) :
  refines D (blk_st s) -> on_device i KB (blk_st s) -> aload s.(env).(super_blocks) (sb - 1) = Ok sbr -> sbr.(s_dev) = mod_dev i ->
  s.(env).(fdata).(e_supers) !! priv = Some p -> 3072 <= Z.of_nat (length (D i)) -> dle 4 (D i) (1024 + 24) = 0 ->
  exists s' sbr' sp, mount_steps sb priv s = Ok (tt, s') /\ mounted D i s' sb sbr' sp /\ keeps_vfs s s'.
Proof.
  intros R Hon Hsb Hdev Hp Hlen Hlog. rewrite <- (put_id s). pose proof Hon as (md & dv & Hdv & Hm & Ebs).
  assert (on_disk D i KB 1 /\ on_disk D i KB 2) as [Hd1 Hd2] by (unfold on_disk; lia).
  destruct (read_block_page s D i KB (blk_st s) 1 R Hon Hd1) as (a1 & g1 & b1 & Hr1 & Hp1 & Hh1 & Hst1 & _ & [f1 Hf1]).
  destruct (read_block_page s D i KB b1 2 (st_refines _ _ _ Hst1)) as (a2 & g2 & b2 & Hr2 & Hp2 & Hh2 & Hst2 & _ & [f2 Hf2]);
    [eapply ok_step_device; eassumption | exact Hd2 |].
  destruct (g_bufs _ _ (st_grows _ _ _ Hst2) a1 f1 Hf1) as (f1' & Hf1' & (Ef1 & _)).
  destruct (r_bufs _ _ (st_refines _ _ _ Hst2) a1 f1' Hf1') as [Hn1 _]. destruct (r_bufs _ _ (st_refines _ _ _ Hst2) a2 f2 Hf2) as [Hn2 _].
  set (m := <[priv := SbPrivate p.(e_sb) p.(e_bg_table) a1 a2]> s.(env).(fdata).(e_supers)).
  set (m' := <[priv := SbPrivate f1'.(b_data) f2.(b_data) a1 a2]> m).
  apply aload_ok in Hsb as [Hsb0 Hsb]. pose proof (lookup_lt_Some _ _ _ Hsb) as Hlt.
  set (sbr' := sb_set_fs sbr sbr.(s_mounted) ext2_super_ops_p priv).
  exists (put (set_env (with_supers2 s m') (set_supers (with_supers2 s m').(env) (<[Z.to_nat (sb - 1) := sbr']> s.(env).(super_blocks)))) b2), sbr',
    (SbPrivate f1'.(b_data) f2.(b_data) a1 a2).
  assert (g1 = f1'.(b_data)) as E1.
  { unfold b_data_of in Hp1. erewrite bind_ok in Hp1; [| apply in_blk_run, bufload_run, Hf1]. injection Hp1 as Hg. congruence. }
  assert (g2 = f2.(b_data)) as E2.
  { unfold b_data_of in Hp2. erewrite bind_ok in Hp2; [| apply in_blk_run, bufload_run, Hf2]. injection Hp2 as Hg. congruence. }
  split; [|split; [|repeat split]].
  - assert (do_read_super sb priv (put s (blk_st s)) = Ok (0, put (with_supers2 s m') b2)) as Hdo.
    { unfold do_read_super, sbload. erewrite bind_ok; [| erewrite bind_ok; [| reflexivity]; cbv beta; unfold st_res;
        change (super_blocks (env (put s (blk_st s)))) with (super_blocks (env s)); rewrite (proj2 (aload_ok _ _ _) (conj Hsb0 Hsb)); reflexivity]. cbv beta. rewrite Hdev.
      erewrite bind_ok; [| apply in_blk_run; unfold blkdev_blksize; erewrite bind_ok; [| eapply get_device_run; [eapply device_lt; eassumption | apply R | apply Hdv | exact Hm]];
        cbv beta iota; erewrite bind_ok; [| apply dvload_run; apply Hdv]; cbv beta; rewrite Ebs; reflexivity]. cbv beta.
      rewrite Z.eqb_refl. rewrite (bind_ok _ _ _ _ _ Hr1). cbv beta. rewrite (bind_ok _ _ _ _ _ Hr2). cbv beta.
      erewrite bind_ok; [| unfold sbp_load; change (e_supers (fdata (env (put s b2)))) with (e_supers (fdata (env s))); rewrite Hp; reflexivity]. cbv beta.
      erewrite bind_ok; [| apply e_set_supers_run]. cbv beta. fold m.
      rewrite (proj2 (Z.eqb_neq a1 0) Hn1), (proj2 (Z.eqb_neq a2 0) Hn2). cbn [orb].
      erewrite bind_ok; [| unfold b_data_of; erewrite bind_ok; [| apply in_blk_run, bufload_run, Hf1']; reflexivity]. cbv beta.
      erewrite bind_ok; [| unfold b_data_of; erewrite bind_ok; [| apply in_blk_run, bufload_run, Hf2]; reflexivity]. cbv beta.
      erewrite bind_ok; [| apply e_set_supers_run]. cbv beta. reflexivity. }
    unfold mount_steps. rewrite (bind_ok _ _ _ _ _ Hdo). cbv beta.
    unfold sbupd. erewrite bind_ok; [| reflexivity]. cbv beta.
    change (super_blocks (env (put (with_supers2 s m') b2))) with (super_blocks (env s)).
    erewrite bind_ok; [| unfold st_res; rewrite (proj2 (aload_ok _ _ _) (conj Hsb0 Hsb)); reflexivity]. cbv beta.
    erewrite bind_ok; [| unfold st_res; rewrite astore_in by lia; reflexivity]. cbv beta. reflexivity.
  - split.
    + apply Hst2.
    + exact (ok_step_device D i KB _ b2 (ok_step_trans D _ _ _ Hst1 Hst2) Hon).
    + apply aload_ok. split; [exact Hsb0|]. cbn. apply list_lookup_insert_eq. exact Hlt.
    + exact Hdev.
    + cbn. apply lookup_insert_eq.
    + cbn. rewrite <- E1. eapply holds_grows; [apply Hst2 | exact Hh1].
    + cbn. rewrite <- E2. exact Hh2.
    + exact Hlen.
    + exact Hlog.
Qed.

End mount.

(** ** A concrete disk

    Blocks of 1024 bytes: the super block, one group descriptor, a table with one
    inode in use and then the blocks of the file, which is inode 2. *)

Definition zeros (n : nat) : list Z := replicate n 0.

(** The first block, the size and the number of sectors in the inode, its numbers of
    blocks and the blocks of the file. *)
Definition make_disk (boot size sectors ptrs data : list Z) : list Z :=
  (boot ++ zeros (1024 - length boot)) ++
  (zeros 40 ++ [8; 0; 0; 0] ++ zeros 980) ++
  (zeros 8 ++ [3; 0; 0; 0] ++ zeros 1012) ++
  (zeros 128 ++ [0; 128; 0; 0] ++ size ++ zeros 20 ++ sectors ++ zeros 8 ++ ptrs ++ zeros (856 - length ptrs)) ++ data.

(** Twelve blocks from block 4 on, block 16 with the number of the thirteenth, which
    is block 17: a file of 12292 bytes in 14 blocks. *)
Definition example_disk : list Z :=
  make_disk [] [4; 48; 0; 0] [28; 0; 0; 0] (mjoin ((fun n => [n; 0; 0; 0]) <$> [4; 5; 6; 7; 8; 9; 10; 11; 12; 13; 14; 15; 16]))
    (([97; 98; 99; 100] ++ zeros 1020) ++ zeros (Z.to_nat 11264) ++ ([17] ++ zeros 1023) ++ ([101; 102; 103; 104] ++ zeros 1020)).

#[export] Instance plain_ext2_env : Ext2Env := {
  sb_private_alloc m := Some (above m, SbPrivate 0 0 0 0);
  inode_private_cachep m := Some (above m, InodePrivate 0 0 0);
  stack_junk n := replicate (Z.to_nat n) 0;
}.

Definition blk_with (disk : list Z) : blk :=
  Blk ∅ ∅ ∅ ∅ (ModDevice 4096 (Z.of_nat (length disk)) disk :: replicate 15 (ModDevice 0 0 []))
    (BlockDevice [] mod_handle_request_p 1024 (Z.of_nat (length disk) / 512) 0 :: replicate 15 no_device) [0; 0; 0; 0; 0; mod_get_device_p].

Definition disk_blk : blk := blk_with example_disk.

Lemma blk_with_device (disk : list Z) (i : nat) (md : mod_device) (dv : block_device) :
  device (blk_with disk) i md dv -> md.(md_mem) <> 0 ->
  i = 0%nat /\ md = ModDevice 4096 (Z.of_nat (length disk)) disk /\
  dv = BlockDevice [] mod_handle_request_p 1024 (Z.of_nat (length disk) / 512) 0.
Proof.
  intros [H1 H2] Hm. destruct i as [| i]; [cbn in H1, H2; injection H1 as <-; injection H2 as <-; auto|].
  cbn [blk_with moddev] in H1. rewrite lookup_cons in H1. apply lookup_replicate in H1 as [-> _]. contradiction.
Qed.

Lemma blk_with_refines (disk : list Z) :
  Z.of_nat (length disk) mod 512 = 0 -> Z.of_nat (length disk) + 4096 < 2 ^ 31 -> refines (fun _ => disk) (blk_with disk).
Proof.
  intros Hm Hs. split; try (intros *; cbn; rewrite ?lookup_empty; discriminate).
  - reflexivity.
  - split; reflexivity.
  - intros i md dv Hdv Hmd. destruct (blk_with_device disk i md dv Hdv Hmd) as (-> & -> & ->).
    split; try reflexivity; try discriminate; try exact Hs. cbn [sectors]. unfold SECTOR_SIZE. lia.
  - intros k a Ha. cbn in Ha. rewrite lookup_empty in Ha. apply not_elem_of_nil in Ha. contradiction.
  - intros k. cbn. rewrite lookup_empty. constructor.
  - intros i md dv j Hdv Hmd _ _. destruct (blk_with_device disk i md dv Hdv Hmd) as (-> & -> & ->). reflexivity.
Qed.

Lemma example_disk_length : length example_disk = Z.to_nat 18432.
Proof. unfold example_disk, make_disk, zeros. rewrite !length_app, !length_replicate. cbn [length mjoin list_join fmap list_fmap app]. lia. Qed.

Lemma disk_blk_refines : refines (fun _ => example_disk) disk_blk.
Proof. apply blk_with_refines; rewrite example_disk_length; reflexivity. Qed.

Definition vnode_2 : inode := Inode [] 2 0 0 (mod_dev 0) 0 0 1 0 false 0 0 0 1 0.

Definition file_2 : file := File 50 1 0 0 0 1 0 0.

(** Inode 2 is in memory, not yet read, and open as a file. *)
Definition state_with (b : blk) : kst (vfs ext2) :=
  Kst [] 0 [] [] 0 (Timers ∅ [] 0) ∅
    (Vfs {[50 := vnode_2]} ∅ {[60 := file_2]} [60] [SuperBlock (mod_dev 0) 0 0 0 0 0 70] (Statics [] [] [] [] false 0)
       (Ext2 b {[70 := SbPrivate 0 0 0 0]} ∅)).

Definition disk_state : kst (vfs ext2) := state_with disk_blk.

Definition mounted_with (b : blk) : kst (vfs ext2) :=
  match mount_steps 1 70 (state_with b) with
  | Ok (_, s) => s
  | _ => state_with b
  end.

Definition disk_mounted : kst (vfs ext2) := mounted_with disk_blk.

Lemma contents_range (D : nat -> list Z) (i : nat) (ino : Z) (size pos k : nat) :
  (pos + k <= size)%nat -> take k (drop pos (ext2_contents D i ino size)) = file_byte D i ino <$> seq pos k.
Proof.
  intros H. unfold ext2_contents. rewrite <- fmap_drop, <- fmap_take. f_equal.
  replace size with (pos + (k + (size - pos - k)))%nat by lia. rewrite !seq_app.
  rewrite drop_app_length' by (symmetry; apply length_seq). rewrite take_app_length' by (symmetry; apply length_seq). reflexivity.
Qed.

(** The first [n] blocks of the file of the example are there. *)
Definition present_upto (n : nat) : bool :=
  forallb (fun k => bool_decide (0 ∉ block_path (fun _ => example_disk) 0 KB (inode_at example_disk 2) k) &&
                    (0 <=? bmap (fun _ => example_disk) 0 KB (inode_at example_disk 2) k) &&
                    (bmap (fun _ => example_disk) 0 KB (inode_at example_disk 2) k <? 18)) (seq 0 n).

Lemma present_upto_spec (n k : nat) :
  present_upto n = true -> (k < n)%nat -> block_present (fun _ => example_disk) 0 2 k.
Proof.
  unfold present_upto. intros H Hk. rewrite forallb_forall in H. specialize (H k). rewrite in_seq, !andb_true_iff, bool_decide_eq_true, Z.leb_le, Z.ltb_lt in H.
  destruct H as [[H1 H2] H3]; [lia|]. split; [exact H1|]. split; [exact H2|]. rewrite example_disk_length. lia.
Qed.

(** Reading from the end of the twelfth block into the thirteenth, which is below
    the indirect block. *)
Lemma ext2_file_read_witness :
  exists s', (ext2_read_inode 50 ;; bio_file_read 60 100 12286) disk_mounted = Ok ((6, [0; 0; 101; 102; 103; 104], 12292), s') /\
    refines (fun _ => example_disk) (blk_st s').
Proof.
  destruct (mount_steps_run (fun _ => example_disk) 0 disk_state 1 70 (SuperBlock (mod_dev 0) 0 0 0 0 0 70) (SbPrivate 0 0 0 0)) as (s & sbr & sp & Hs & Hm & E1 & E2 & E3).
  - exact disk_blk_refines.
  - eexists _, _. split; [split; reflexivity | split; [discriminate | reflexivity]].
  - reflexivity.
  - reflexivity.
  - reflexivity.
  - rewrite example_disk_length. lia.
  - vm_compute. reflexivity.
  - unfold disk_mounted, mounted_with. unfold disk_state in Hs. rewrite Hs.
    destruct (ext2_file_read (fun _ => example_disk) 0 s 1 sbr sp 50 vnode_2 1 (InodePrivate 0 0 0) 60 file_2 14 (Z.to_nat 12292) (Z.to_nat 12286) 100 Hm) as (s' & Hr & R').
    + split; vm_compute; repeat split; discriminate || reflexivity.
    + rewrite E1. reflexivity.
    + reflexivity.
    + reflexivity.
    + rewrite E3. reflexivity.
    + rewrite E2. reflexivity.
    + reflexivity.
    + vm_compute. reflexivity.
    + vm_compute. reflexivity.
    + reflexivity.
    + assert (Z.to_nat KB / 4 = 256)%nat as Enp by (vm_compute; reflexivity). unfold blocks_ok. rewrite Enp.
      split; [lia|]. split; [|split; lia]. intros _. split; [vm_compute; discriminate|]. rewrite example_disk_length. vm_compute. discriminate.
    + vm_compute. reflexivity.
    + lia.
    + reflexivity.
    + intros j Hj. apply (present_upto_spec 13); [vm_compute; reflexivity | lia].
    + lia.
    + exists s'. split; [|exact R']. rewrite contents_range in Hr by lia. change 100 with (Z.of_nat 100). rewrite Z2Nat.id in Hr by lia. etransitivity; [exact Hr|].
      replace (Nat.min 100 (Z.to_nat 12292 - Z.to_nat 12286)) with 6%nat by lia. vm_compute. reflexivity.
Defined.

(** ** Holes

    A file of 1028 bytes that has only its second block, block 4, in a file system
    whose first block starts with 1, 2, 3, 4. *)
Definition sparse_disk : list Z :=
  make_disk [1; 2; 3; 4] [4; 4; 0; 0] [2; 0; 0; 0] [0; 0; 0; 0; 4; 0; 0; 0] ([101; 102; 103; 104] ++ zeros 1020).

Definition sparse_read (pos : Z) : option (Z * list Z * Z) :=
  match (ext2_read_inode 50 ;; bio_file_read 60 4 pos) (mounted_with (blk_with sparse_disk)) with
  | Ok (r, _) => Some r
  | _ => None
  end.

(** The hole reads as the first block of the disk and not as zeros. *)
Lemma hole_reads_block_0 :
  sparse_read 0 = Some (4, [1; 2; 3; 4], 4) /\ take 4 (ext2_contents (fun _ => sparse_disk) 0 2 4) = [0; 0; 0; 0].
Proof. vm_compute. auto. Qed.

(** The second block is behind the entries of the vector that have been set, of which
    there is one: the read uses what the memory of the vector happens to hold. *)
Lemma sparse_read_unset : sparse_read 1024 = Some (4, [1; 2; 3; 4], 1028).
Proof. vm_compute. reflexivity. Qed.
