(* ===== verification/Machine.v ===== *)
(** * Processor tables, interrupt controller and start-up

    kernel/gdt.c, kernel/pic.c, the descriptor half of kernel/interrupt.c and
    kernel/kernel.c.  Descriptors are records of bit-fields with the 64 bits they
    occupy in memory; [decode_segment] and [decode_gate] read these bits as the
    processor does.  Port writes are logged, and what a port read returns is a
    function of the log.  The entry points in kernel/entry.S are addresses. *)

From Stdlib Require Import String.
From stdpp Require Import sorting.
From S2P Require Import Prelude.

Local Open Scope Z_scope.

(** ** Segment descriptors *)

Definition SEGNR_KCODE : Z := 1.
Definition SEGNR_KDATA : Z := 2.
Definition SEGNR_UCODE : Z := 3.
Definition SEGNR_UDATA : Z := 4.
Definition SEGNR_TSS : Z := 5.

Definition SEG_KCODE : Z := Z.shiftl SEGNR_KCODE 3.
Definition SEG_KDATA : Z := Z.shiftl SEGNR_KDATA 3.
Definition SEG_TSS : Z := Z.shiftl SEGNR_TSS 3.

Record gdt_entry : Type := GdtEntry {
  limit_low : Z;
  base_low : Z;
  base_mid : Z;
  g_type : Z;
  g_sys : Z;
  g_dpl : Z;
  g_present : Z;
  limit_high : Z;
  g_avl : Z;
  g_l : Z;
  g_db : Z;
  g_gran : Z;
  base_high : Z;
}.

Definition SEG_NULL : gdt_entry := GdtEntry 0 0 0 0 0 0 0 0 0 0 0 0 0.

Definition SEG (base limit attr : Z) : gdt_entry :=
  GdtEntry (Z.land limit 65535) (Z.land base 65535) (Z.land (Z.shiftr base 16) 255)
    (Z.land attr 15) (Z.land (Z.shiftr attr 4) 1) (Z.land (Z.shiftr attr 5) 3)
    (Z.land (Z.shiftr attr 7) 1) (Z.land (Z.shiftr limit 16) 15) 0 0 1 1
    (Z.land (Z.shiftr base 24) 255).

(** The table as the object file holds it; the slot of the task state segment is
    zero. *)
Definition gdt_static : list gdt_entry :=
  [ SEG_NULL;
    SEG 0 4294967295 154;
    SEG 0 4294967295 146;
    SEG 0 4294967295 250;
    SEG 0 4294967295 242;
    SEG_NULL ].

(** Bit-fields fill their storage from the least significant bit. *)
Definition gdt_bits (e : gdt_entry) : Z :=
  e.(limit_low) + e.(base_low) * 2 ^ 16 + e.(base_mid) * 2 ^ 32 + e.(g_type) * 2 ^ 40 +
  e.(g_sys) * 2 ^ 44 + e.(g_dpl) * 2 ^ 45 + e.(g_present) * 2 ^ 47 + e.(limit_high) * 2 ^ 48 +
  e.(g_avl) * 2 ^ 52 + e.(g_l) * 2 ^ 53 + e.(g_db) * 2 ^ 54 + e.(g_gran) * 2 ^ 55 +
  e.(base_high) * 2 ^ 56.

(** ** Interrupt descriptors *)

Definition INTR_GATE : Z := 14.

Definition INTR_TIMER : Z := 32.
Definition INTR_KBD : Z := 33.
Definition INTR_SYSCALL : Z := 128.

Record idt_entry : Type := IdtEntry {
  off_low : Z;
  selector : Z;
  reserved : Z;
  zero : Z;
  gtype : Z;
  dpl : Z;
  present : Z;
  off_high : Z;
}.

Definition idt_zero : idt_entry := IdtEntry 0 0 0 0 0 0 0 0.

Definition idt_bits (e : idt_entry) : Z :=
  e.(off_low) + e.(selector) * 2 ^ 16 + e.(reserved) * 2 ^ 32 + e.(zero) * 2 ^ 37 +
  e.(gtype) * 2 ^ 40 + e.(dpl) * 2 ^ 45 + e.(present) * 2 ^ 47 + e.(off_high) * 2 ^ 48.

(** The entry points of kernel/entry.S: [exn_entry i] is [exn<i>]. *)
Record entry_points : Type := EntryPoints {
  exn_entry : Z -> Z;
  fpe_entry : Z;
  ill_entry : Z;
  pgf_entry : Z;
  timer_entry : Z;
  kbd_entry : Z;
  syscall_entry : Z;
}.

Record exn : Type := Exn {
  exn_name : string;
  has_code : bool;
  handler : Z;
}.

Definition exns (e : entry_points) : list exn :=
  [ Exn "Divide Error Exception" false e.(fpe_entry);
    Exn "Debug Exception" false (e.(exn_entry) 1);
    Exn "NMI Interrupt" false (e.(exn_entry) 2);
    Exn "Breakpoint Exception" false (e.(exn_entry) 3);
    Exn "Overflow Exception" false (e.(exn_entry) 4);
    Exn "BOUND Range Exceeded Exception" false (e.(exn_entry) 5);
    Exn "Invalid Opcode Exception" false e.(ill_entry);
    Exn "Device Not Available Exception" false (e.(exn_entry) 7);
    Exn "Double Fault Exception" true (e.(exn_entry) 8);
    Exn "Coprocessor Segment Overrun" false (e.(exn_entry) 9);
    Exn "Invalid TSS Exception" true (e.(exn_entry) 10);
    Exn "Segment Not Present" true (e.(exn_entry) 11);
    Exn "Stack Fault Exception" true (e.(exn_entry) 12);
    Exn "General Protection Exception" true (e.(exn_entry) 13);
    Exn "Page Fault Exception" true e.(pgf_entry);
    Exn "Reserved" false (e.(exn_entry) 15);
    Exn "x87 FPU Floating-Point Error" false (e.(exn_entry) 16);
    Exn "Alignment Check Exception" true (e.(exn_entry) 17);
    Exn "Machine-Check Exception" false (e.(exn_entry) 18);
    Exn "SIMD Floating-Point Exception" false (e.(exn_entry) 19);
    Exn "Virtualization Exception" false (e.(exn_entry) 20) ].

Definition NR_EXNS : nat := 21.

(** ** State *)

Record machine : Type := Machine {
  gdt : list gdt_entry;
  idt : list idt_entry;
  gdtr : Z * Z;
  idtr : Z * Z;
  tr : Z;
  seg_cs : Z;
  seg_data : Z;
  ports : list (Z * Z);
}.

Definition set_gdt (m : machine) (l : list gdt_entry) : machine :=
  Machine l m.(idt) m.(gdtr) m.(idtr) m.(tr) m.(seg_cs) m.(seg_data) m.(ports).
Definition set_idt (m : machine) (l : list idt_entry) : machine :=
  Machine m.(gdt) l m.(gdtr) m.(idtr) m.(tr) m.(seg_cs) m.(seg_data) m.(ports).
Definition set_ports (m : machine) (l : list (Z * Z)) : machine :=
  Machine m.(gdt) m.(idt) m.(gdtr) m.(idtr) m.(tr) m.(seg_cs) m.(seg_data) l.

(** ** Installing the tables *)

Section tables.

Context (e : entry_points) (gdt_p idt_p tss_p : Z).

Abbreviation M := (ST machine).

(** [lgdt], then [cs] is loaded by a far jump and [ds], [es], [ss] from [ax]. *)
Definition load_gdt (base size : Z) : M unit :=
  modify (fun m => Machine m.(gdt) m.(idt) (base, u16 size) m.(idtr) m.(tr) SEG_KCODE SEG_KDATA m.(ports)).

Definition load_tss (val : Z) : M unit :=
  modify (fun m => Machine m.(gdt) m.(idt) m.(gdtr) m.(idtr) (u16 val) m.(seg_cs) m.(seg_data) m.(ports)).

Definition load_idt (base size : Z) : M unit :=
  modify (fun m => Machine m.(gdt) m.(idt) m.(gdtr) (base, u16 size) m.(tr) m.(seg_cs) m.(seg_data) m.(ports)).

Definition sizeof_tss : Z := 104.

Definition gdt_install : M unit :=
  let tss_base := tss_p in
  let tss_limit := tss_base +% sizeof_tss in
  m ← gets gdt;
  l ← st_res (astore m SEGNR_TSS (SEG tss_base tss_limit 233));
  modify (fun s => set_gdt s l) ;;
  load_gdt gdt_p 48 ;;
  load_tss (Z.lor SEG_TSS 3).

Definition set_gate (num handler selector dpl : Z) : M unit :=
  t ← gets idt;
  l ← st_res (astore t num
        (IdtEntry (Z.land handler 65535) (u16 selector) 0 0 INTR_GATE (uN 2 dpl) 1 (u16 (Z.shiftr handler 16))));
  modify (fun s => set_idt s l).

Definition idt_install : M unit :=
  modify (fun s => set_idt s (replicate 256 idt_zero)) ;;
  for_each (zseq 0 NR_EXNS) (fun i =>
    x ← st_res (aload (exns e) i);
    set_gate i x.(handler) SEG_KCODE 2) ;;
  set_gate INTR_TIMER e.(timer_entry) SEG_KCODE 2 ;;
  set_gate INTR_KBD e.(kbd_entry) SEG_KCODE 2 ;;
  set_gate INTR_SYSCALL e.(syscall_entry) SEG_KCODE 3 ;;
  load_idt idt_p (8 * 256).

End tables.

(** ** Interrupt controller and timer *)

Definition PIC1_CMD : Z := 32.
Definition PIC1_DAT : Z := 33.
Definition PIC2_CMD : Z := 160.
Definition PIC2_DAT : Z := 161.
Definition PIC_EOI : Z := 32.
Definition PIT_CH0 : Z := 64.
Definition PIT_MODE : Z := 67.
Definition PIT_SEL0 : Z := 0.
Definition PIT_16BIT : Z := 48.
Definition PIT_RATEGEN : Z := 4.
Definition PIT_FREQ : Z := 1193182.

Definition PIT_DIV (x : Z) : Z := Z.quot (PIT_FREQ + Z.quot x 2) x.

Section pic.

(** What reading a port returns after the writes of a log. *)
Context (port_in : list (Z * Z) -> Z -> Z).

Abbreviation M := (ST machine).

Definition outb (port data : Z) : M unit := modify (fun m => set_ports m (m.(ports) ++ [(port, u8 data)])).

Definition inb (port : Z) : M Z := gets (fun m => u8 (port_in m.(ports) port)).

Definition pic_init (off1 off2 : Z) : M unit :=
  outb PIC1_CMD 17 ;;
  outb PIC1_DAT off1 ;;
  outb PIC1_DAT 4 ;;
  outb PIC1_DAT 1 ;;
  outb PIC1_CMD 11 ;;
  outb PIC2_CMD 17 ;;
  outb PIC2_DAT off2 ;;
  outb PIC2_DAT 2 ;;
  outb PIC2_DAT 11 ;;
  outb PIC2_CMD 11 ;;
  outb PIC2_DAT 255 ;;
  outb PIC1_DAT 255.

Definition pic_eoi : M unit :=
  outb PIC1_CMD PIC_EOI ;;
  outb PIC2_CMD PIC_EOI.

(** The port of the mask register of an interrupt line, and its bit there. *)
Definition irq_port (irq : Z) : Z * Z :=
  if irq <? 8 then (PIC1_DAT, irq) else (PIC2_DAT, Z.land irq 7).

Definition enable_irq (irq : Z) (disable : bool) : M unit :=
  let '(port, irq) := irq_port irq in
  val ← inb port;
  outb port (if disable then Z.lor val (Z.shiftl 1 irq) else Z.land val (Z.lnot (Z.shiftl 1 irq))).

Definition pit_init (div : Z) : M unit :=
  if div =? 0 then fault
  else
    outb PIT_MODE (Z.lor PIT_SEL0 (Z.lor PIT_16BIT PIT_RATEGEN)) ;;
    outb PIT_CH0 (Z.land (PIT_DIV div) 255) ;;
    outb PIT_CH0 (Z.shiftr (PIT_DIV div) 8) ;;
    enable_irq 0 false.

End pic.

(** ** Start-up *)

Definition SUB_MEMORY : Z := 0.
Definition SUB_SLAB : Z := 1.
Definition SUB_VFS : Z := 2.
Definition SUB_DRIVER : Z := 3.
Definition SUB_PROCESS : Z := 4.
Definition SUB_LAST : Z := 5.

(** A line feed, and a line. *)
Definition nl : string := String (Ascii.ascii_of_nat 10) EmptyString.
Definition ln (s : string) : string := (s ++ nl)%string.

Definition MULTIBOOT_BOOTLOADER_MAGIC : Z := 732803074.

Record kinit_struct : Type := KInit {
  subsystem : Z;
  k_name : Z;
  func : Z;
}.

(** The machine, the set of initialisation functions the linker collects, the
    boot loader's information, and the state of everything else. *)
Record boot (S : Type) : Type := Boot {
  mach : machine;
  kinit_set : list kinit_struct;
  mb_info : Z;
  others : S;
}.

Arguments Boot {S}.
Arguments mach {S}.
Arguments kinit_set {S}.
Arguments mb_info {S}.
Arguments others {S}.

(** The sort restarts at the front after each exchange.  The fuel bounds the
    number of comparisons. *)
Fixpoint sort_kinit (fuel : nat) (l : list kinit_struct) (i : nat) : res (list kinit_struct) :=
  match fuel with
  | O => Fault
  | Datatypes.S fuel =>
      if (i <? length l)%nat then
        match l !! i, l !! (i - 1)%nat with
        | Some a, Some b =>
            if a.(subsystem) <? b.(subsystem)
            then sort_kinit fuel (<[(i - 1)%nat := a]> (<[i := b]> l)) 1
            else sort_kinit fuel l (i + 1)
        | _, _ => Fault
        end
      else Ok l
  end.

Definition sort_fuel (l : list kinit_struct) : nat :=
  ((length l * length l + 1) * (length l + 1))%nat.

Section startup.

(** The functions kernel/kernel.c calls in other components: printing (with the
    attribute, the format and its arguments), the initialisation functions by
    their address, the console, the clock, mounting and the scheduler. *)
Context {S : Type} (_kprintf : Z -> string -> list Z -> ST S unit)
  (call : Z -> ST S unit) (console_clear : Z -> ST S unit) (clock_init mount_root sched_start : ST S unit)
  (version : string) (mem_max : Z -> Z) (e : entry_points) (gdt_p idt_p tss_p kstart kend ustart uend : Z)
  (port_in : list (Z * Z) -> Z -> Z).

Abbreviation M := (ST (boot S)).

Definition on_mach (f : ST machine unit) : M unit := fun b =>
  match f b.(mach) with
  | Ok (_, m) => Ok (tt, Boot m b.(kinit_set) b.(mb_info) b.(others))
  | Panic => Panic
  | Fault => Fault
  end.

Definition on_others (f : ST S unit) : M unit := fun b =>
  match f b.(others) with
  | Ok (_, s) => Ok (tt, Boot b.(mach) b.(kinit_set) b.(mb_info) s)
  | Panic => Panic
  | Fault => Fault
  end.

Definition TXT_CLR : Z := 7.

Definition kprintf (fmt : string) (args : list Z) : M unit := on_others (_kprintf TXT_CLR fmt args).

Definition bprintf (fmt : string) (args : list Z) : M unit := on_others (_kprintf 10 fmt args).

Definition init_one (k : kinit_struct) : M unit :=
  kprintf "Initializing %s... " [k.(k_name)] ;;
  on_others (call k.(func)) ;;
  kprintf (ln "done.") [].

Definition init_subsystems : M unit :=
  l ← gets kinit_set;
  l ← st_res (sort_kinit (sort_fuel l) l 1);
  modify (fun b => Boot b.(mach) l b.(mb_info) b.(others)) ;;
  for_each l init_one.

Definition kmain (info magic : Z) : M unit :=
  modify (fun b => Boot b.(mach) b.(kinit_set) info b.(others)) ;;
  on_others (console_clear 0) ;;
  if negb (magic =? MULTIBOOT_BOOTLOADER_MAGIC) then kprintf (ln "Invalid Multiboot magic number") []
  else
    bprintf (ln ("32 bit Telos " ++ version)%string) [] ;;
    bprintf (ln "Initializing machine state...") [] ;;
    on_mach (idt_install e idt_p) ;;
    on_mach (gdt_install gdt_p tss_p) ;;
    on_mach (pic_init 32 40) ;;
    on_mach (pit_init port_in 100) ;;
    on_others clock_init ;;
    bprintf (ln "Initializing kernel subsystems...") [] ;;
    init_subsystems ;;
    bprintf (ln (nl ++ "----------- MEMORY -----------")%string) [] ;;
    bprintf (ln "Kernel:    %p - %p") [kstart; kend] ;;
    bprintf (ln "Userspace: %p - %p") [ustart; uend] ;;
    info ← gets mb_info;
    bprintf (ln "Total:     %lx bytes") [mem_max info] ;;
    on_others mount_root ;;
    bprintf (ln (ln "Starting Telos...")) [] ;;
    on_others sched_start.

End startup.
(** ** What the processor reads *)

(** [n] bits of [x] from bit [k]. *)
Definition bits (x k n : Z) : Z := x / 2 ^ k mod 2 ^ n.

Record segment : Type := Segment {
  seg_base : Z;
  seg_last : Z;
  seg_type : Z;
  seg_s : Z;
  seg_dpl : Z;
  seg_p : Z;
}.

(** The limit counts pages when the granularity bit is set. *)
Definition decode_segment (x : Z) : segment :=
  let limit := bits x 0 16 + bits x 48 4 * 2 ^ 16 in
  Segment (bits x 16 24 + bits x 56 8 * 2 ^ 24)
    (if bits x 55 1 =? 1 then limit * 4096 + 4095 else limit)
    (bits x 40 4) (bits x 44 1) (bits x 45 2) (bits x 47 1).

Record gate : Type := Gate {
  g_offset : Z;
  g_selector : Z;
  gate_type : Z;
  gate_s : Z;
  gate_dpl : Z;
  gate_p : Z;
}.

Definition decode_gate (x : Z) : gate :=
  Gate (bits x 0 16 + bits x 48 16 * 2 ^ 16) (bits x 16 16) (bits x 40 4) (bits x 44 1)
    (bits x 45 2) (bits x 47 1).

(** The descriptors that the table registers make visible. *)
Definition segment_at (m : machine) (sel : Z) : option segment :=
  let i := Z.shiftr sel 3 in
  if i * 8 + 7 <=? m.(gdtr).2 then decode_segment ∘ gdt_bits <$> m.(gdt) !! Z.to_nat i else None.

Definition gate_at (m : machine) (n : Z) : option gate :=
  if n * 8 + 7 <=? m.(idtr).2 then decode_gate ∘ idt_bits <$> m.(idt) !! Z.to_nat n else None.

(** Entering the handler of vector [n] at privilege level [cpl], by an [int]
    instruction ([soft]) or otherwise: the new privilege level and instruction
    pointer, or nothing where the processor raises an exception instead.  The
    gate must be present and a 32-bit interrupt gate, an [int] instruction needs
    its privilege level, and its selector a present code segment that is at least
    as privileged as the interrupted code. *)
Definition enter (m : machine) (cpl n : Z) (soft : bool) : option (Z * Z) :=
  match gate_at m n with
  | None => None
  | Some g =>
      if (g.(gate_p) =? 1) && (g.(gate_type) =? 14) && (g.(gate_s) =? 0) &&
         (negb soft || (cpl <=? g.(gate_dpl)))
      then
        match segment_at m g.(g_selector) with
        | None => None
        | Some c =>
            if (c.(seg_p) =? 1) && (c.(seg_s) =? 1) && Z.testbit c.(seg_type) 3 && (c.(seg_dpl) <=? cpl) &&
               (g.(g_offset) <=? c.(seg_last))
            then Some (c.(seg_dpl), c.(seg_base) + g.(g_offset)) else None
        end
      else None
  end.

(** Fields with their widths, packed from the least significant bit. *)
Definition pack (l : list (Z * Z)) : Z := foldr (fun x acc => x.1 + 2 ^ x.2 * acc) 0 l.

Definition widths (l : list (Z * Z)) : Z := foldr (fun x acc => x.2 + acc) 0 l.

Definition fits (x : Z * Z) : Prop := 0 <= x.2 /\ 0 <= x.1 < 2 ^ x.2.

Lemma widths_nonneg (l : list (Z * Z)) : Forall fits l -> 0 <= widths l.
Proof. unfold fits. induction 1; simpl; lia. Qed.

Lemma bits_pack (l : list (Z * Z)) (i : nat) (k v w : Z) :
  Forall fits l -> l !! i = Some (v, w) -> k = widths (take i l) -> bits (pack l) k w = v.
Proof.
  intros Hl Hi ->. unfold bits. revert i Hi. induction Hl as [| [u n] l [Hn Hu] Hl IH]; intros [| i] Hi; simplify_eq/=.
  - rewrite Z.div_1_r, Z.mul_comm, Z.mod_add by lia. apply Z.mod_small, Hu.
  - assert (0 <= widths (take i l)) by (apply widths_nonneg, Forall_take, Hl).
    rewrite Z.pow_add_r, <- Z.div_div by lia.
    rewrite Z.mul_comm, Z.div_add, (Z.div_small u) by lia. exact (IH i Hi).
Qed.

Lemma decode_gate_fields (lo sel d hi : Z) :
  0 <= lo < 65536 -> 0 <= sel < 65536 -> 0 <= d < 4 -> 0 <= hi < 65536 ->
  decode_gate (idt_bits (IdtEntry lo sel 0 0 INTR_GATE d 1 hi)) = Gate (lo + hi * 2 ^ 16) sel 14 0 d 1.
Proof.
  intros. set (l := [(lo, 16); (sel, 16); (0, 8); (14, 4); (0, 1); (d, 2); (1, 1); (hi, 16)]).
  assert (Forall fits l) as Hl by (repeat constructor; simpl; lia).
  replace (idt_bits _) with (pack l) by (unfold pack, idt_bits, INTR_GATE, l; cbn -[Z.add Z.mul Z.pow]; lia).
  unfold decode_gate. f_equal; [f_equal; [|f_equal] |..].
  - exact (bits_pack l 0 _ _ _ Hl eq_refl eq_refl).
  - exact (bits_pack l 7 _ _ _ Hl eq_refl eq_refl).
  - exact (bits_pack l 1 _ _ _ Hl eq_refl eq_refl).
  - exact (bits_pack l 3 _ _ _ Hl eq_refl eq_refl).
  - exact (bits_pack l 4 _ _ _ Hl eq_refl eq_refl).
  - exact (bits_pack l 5 _ _ _ Hl eq_refl eq_refl).
  - exact (bits_pack l 6 _ _ _ Hl eq_refl eq_refl).
Qed.

Lemma decode_segment_fields (ll base ty s d p lh bh : Z) :
  0 <= ll < 65536 -> 0 <= base < 2 ^ 24 -> 0 <= ty < 16 -> 0 <= s < 2 -> 0 <= d < 4 -> 0 <= p < 2 -> 0 <= lh < 16 -> 0 <= bh < 256 ->
  decode_segment (gdt_bits (GdtEntry ll (base mod 65536) (base / 65536) ty s d p lh 0 0 1 1 bh)) =
  Segment (base + bh * 2 ^ 24) ((ll + lh * 2 ^ 16) * 4096 + 4095) ty s d p.
Proof.
  intros. set (l := [(ll, 16); (base, 24); (ty, 4); (s, 1); (d, 2); (p, 1); (lh, 4); (4, 3); (1, 1); (bh, 8)]).
  assert (Forall fits l) as Hl by (repeat constructor; simpl; lia).
  replace (gdt_bits _) with (pack l) by (unfold pack, gdt_bits, l; cbn -[Z.add Z.mul Z.pow Z.modulo Z.div]; lia).
  unfold decode_segment.
  rewrite (bits_pack l 0 0 ll 16 Hl eq_refl eq_refl), (bits_pack l 1 16 base 24 Hl eq_refl eq_refl),
    (bits_pack l 2 40 ty 4 Hl eq_refl eq_refl), (bits_pack l 3 44 s 1 Hl eq_refl eq_refl), (bits_pack l 4 45 d 2 Hl eq_refl eq_refl),
    (bits_pack l 5 47 p 1 Hl eq_refl eq_refl), (bits_pack l 6 48 lh 4 Hl eq_refl eq_refl), (bits_pack l 8 55 1 1 Hl eq_refl eq_refl),
    (bits_pack l 9 56 bh 8 Hl eq_refl eq_refl).
  reflexivity.
Qed.

Lemma decode_SEG (base limit attr : Z) :
  in_u32 base -> in_u32 limit -> 0 <= attr < 256 ->
  decode_segment (gdt_bits (SEG base limit attr)) =
  Segment base (limit mod 2 ^ 20 * 4096 + 4095) (attr mod 16) (attr / 16 mod 2) (attr / 32 mod 4) (attr / 128).
Proof.
  unfold in_u32. intros Hb Hl Ha.
  replace (SEG base limit attr) with
    (GdtEntry (limit mod 65536) ((base mod 2 ^ 24) mod 65536) ((base mod 2 ^ 24) / 65536) (attr mod 16) (attr / 16 mod 2)
       (attr / 32 mod 4) (attr / 128) (limit / 65536 mod 16) 0 0 1 1 (base / 2 ^ 24)).
  - rewrite decode_segment_fields by lia. f_equal; lia.
  - unfold SEG. change 65535 with (Z.ones 16). change 255 with (Z.ones 8). change 15 with (Z.ones 4). change 3 with (Z.ones 2).
    change (Z.land (Z.shiftr attr 4) 1) with (Z.land (Z.shiftr attr 4) (Z.ones 1)).
    change (Z.land (Z.shiftr attr 7) 1) with (Z.land (Z.shiftr attr 7) (Z.ones 1)).
    rewrite !Z.land_ones, !Z.shiftr_div_pow2 by lia. f_equal; lia.
Qed.

Lemma decode_set_gate (h sel d : Z) :
  in_u32 h -> 0 <= sel < 2 ^ 16 -> 0 <= d < 4 ->
  decode_gate (idt_bits (IdtEntry (Z.land h 65535) (u16 sel) 0 0 INTR_GATE (uN 2 d) 1 (u16 (Z.shiftr h 16)))) =
  Gate h sel 14 0 d 1.
Proof.
  intros Hh Hs Hd. unfold in_u32 in Hh. change 65535 with (Z.ones 16). rewrite Z.land_ones, Z.shiftr_div_pow2 by lia.
  rewrite (uN_id 16 sel), (uN_id 2 d), (uN_id 16) by lia. rewrite decode_gate_fields by lia. f_equal. lia.
Qed.

(** ** The installed tables *)

Section installed.

Context (e : entry_points) (gdt_p idt_p tss_p : Z).

(** The gate that [set_gate] stores. *)
Definition gate_entry (h d : Z) : idt_entry :=
  IdtEntry (Z.land h 65535) (u16 SEG_KCODE) 0 0 INTR_GATE (uN 2 d) 1 (u16 (Z.shiftr h 16)).

Lemma set_gate_run (m : machine) (num h d : Z) :
  length m.(idt) = 256%nat -> 0 <= num < 256 ->
  set_gate num h SEG_KCODE d m = Ok (tt, set_idt m (<[Z.to_nat num := gate_entry h d]> m.(idt))).
Proof.
  intros Hl Hn. unfold set_gate. erewrite bind_ok by reflexivity. cbv beta.
  erewrite bind_ok; [| unfold st_res; rewrite astore_in by lia; reflexivity]. reflexivity.
Qed.

(** Vectors that have a handler, with the privilege an [int] instruction needs. *)
Definition vector_of (n : Z) : option (Z * Z) :=
  if n =? INTR_SYSCALL then Some (e.(syscall_entry), 3)
  else if n =? INTR_KBD then Some (e.(kbd_entry), 2)
  else if n =? INTR_TIMER then Some (e.(timer_entry), 2)
  else (fun x => (x.(handler), 2)) <$> exns e !! Z.to_nat n.

Definition installed_idt (k : nat) : list idt_entry :=
  ((fun x => gate_entry x.(handler) 2) <$> take k (exns e)) ++ replicate (256 - k) idt_zero.

Lemma installed_idt_length (k : nat) : (k <= 21)%nat -> length (installed_idt k) = 256%nat.
Proof.
  intros Hk. unfold installed_idt. rewrite length_app, length_fmap, length_replicate, length_take. simpl length. lia.
Qed.

Lemma installed_idt_step (k : nat) (x : exn) :
  exns e !! k = Some x -> <[k := gate_entry x.(handler) 2]> (installed_idt k) = installed_idt (Datatypes.S k).
Proof.
  intros Hx. assert (k < 21)%nat as Hk by (apply lookup_lt_Some in Hx; exact Hx).
  assert (length ((fun x => gate_entry x.(handler) 2) <$> take k (exns e)) = k) as Hl.
  { rewrite length_fmap, length_take. simpl length. lia. }
  unfold installed_idt. rewrite (take_S_r _ _ _ Hx), fmap_app, <- app_assoc.
  replace (256 - k)%nat with (Datatypes.S (256 - Datatypes.S k)) by lia.
  rewrite <- Hl at 1. replace (<[_ := _]> _) with (<[length ((fun x => gate_entry x.(handler) 2) <$> take k (exns e)) + 0 := gate_entry x.(handler) 2]> (((fun x => gate_entry x.(handler) 2) <$> take k (exns e)) ++ idt_zero :: replicate (256 - Datatypes.S k) idt_zero))%nat by (rewrite Nat.add_0_r; reflexivity).
  rewrite insert_app_r. reflexivity.
Qed.

Definition with_idt (m : machine) (l : list idt_entry) : machine :=
  Machine m.(gdt) l m.(gdtr) (idt_p, 2048) m.(tr) m.(seg_cs) m.(seg_data) m.(ports).

Lemma idt_install_run (m : machine) :
  idt_install e idt_p m =
  Ok (tt, with_idt m (<[128%nat := gate_entry e.(syscall_entry) 3]>
            (<[33%nat := gate_entry e.(kbd_entry) 2]> (<[32%nat := gate_entry e.(timer_entry) 2]> (installed_idt 21))))).
Proof.
  unfold idt_install. erewrite bind_ok by reflexivity. cbv beta.
  destruct (for_each_rule (fun done s => s = set_idt m (installed_idt (length done)))
              (fun i => x ← st_res (aload (exns e) i); set_gate i x.(handler) SEG_KCODE 2)
              (zseq 0 NR_EXNS) (set_idt m (replicate 256 idt_zero))) as (s & Hs & ->).
  - reflexivity.
  - intros done i rest s E ->. apply zseq_split in E as [-> Hk]. rewrite Z.add_0_l.
    destruct (lookup_lt_is_Some_2 (exns e) (length done) Hk) as [x Hx].
    eexists. split.
    + erewrite bind_ok; [| unfold st_res, aload; rewrite (proj2 (Z.ltb_ge _ _)), Nat2Z.id, Hx by lia; reflexivity]. cbv beta.
      apply set_gate_run; [apply installed_idt_length; unfold NR_EXNS in Hk; lia | unfold NR_EXNS in Hk; lia].
    + simpl. rewrite Nat2Z.id, (installed_idt_step _ _ Hx), length_app, Nat.add_1_r. reflexivity.
  - rewrite zseq_length in Hs. rewrite (bind_ok _ _ _ _ _ Hs). cbv beta.
    assert (length (installed_idt 21) = 256%nat) as Hl by (apply installed_idt_length; lia).
    do 3 (erewrite bind_ok; [| apply set_gate_run; [cbn [idt set_idt]; rewrite ?length_insert; exact Hl | unfold INTR_TIMER, INTR_KBD, INTR_SYSCALL; lia]];
          cbv beta).
    reflexivity.
Qed.

Definition with_gdt (m : machine) (l : list gdt_entry) : machine :=
  Machine l m.(idt) (gdt_p, 48) m.(idtr) 43 SEG_KCODE SEG_KDATA m.(ports).

Lemma gdt_install_run (m : machine) :
  m.(gdt) = gdt_static ->
  gdt_install gdt_p tss_p m = Ok (tt, with_gdt m (<[5%nat := SEG tss_p (tss_p +% sizeof_tss) 233]> gdt_static)).
Proof. intros E. unfold gdt_install. erewrite bind_ok by reflexivity. cbv beta. rewrite E. reflexivity. Qed.

Definition booted (m : machine) : machine :=
  with_gdt (with_idt m (<[128%nat := gate_entry e.(syscall_entry) 3]>
              (<[33%nat := gate_entry e.(kbd_entry) 2]> (<[32%nat := gate_entry e.(timer_entry) 2]> (installed_idt 21)))))
    (<[5%nat := SEG tss_p (tss_p +% sizeof_tss) 233]> gdt_static).

(** The addresses of the entry points are 32-bit words. *)
Definition entries_ok : Prop :=
  Forall (fun x => in_u32 x.(handler)) (exns e) /\
  in_u32 e.(timer_entry) /\ in_u32 e.(kbd_entry) /\ in_u32 e.(syscall_entry).

Lemma booted_vector (m : machine) (n : Z) :
  0 <= n < 256 ->
  (booted m).(idt) !! Z.to_nat n =
  Some (match vector_of n with Some (h, d) => gate_entry h d | None => idt_zero end).
Proof.
  intros Hn. unfold booted, vector_of. cbn [idt with_gdt with_idt].
  assert (length (installed_idt 21) = 256%nat) as Hl by (apply installed_idt_length; lia).
  destruct (Z.eqb_spec n INTR_SYSCALL) as [-> | H1]; [rewrite list_lookup_insert_eq by (rewrite !length_insert, Hl; cbv; lia); reflexivity|].
  rewrite list_lookup_insert_ne by (unfold INTR_SYSCALL in H1; lia).
  destruct (Z.eqb_spec n INTR_KBD) as [-> | H2]; [rewrite list_lookup_insert_eq by (rewrite !length_insert, Hl; cbv; lia); reflexivity|].
  rewrite list_lookup_insert_ne by (unfold INTR_KBD in H2; lia).
  destruct (Z.eqb_spec n INTR_TIMER) as [-> | H3]; [rewrite list_lookup_insert_eq by (rewrite Hl; cbv; lia); reflexivity|].
  rewrite list_lookup_insert_ne by (unfold INTR_TIMER in H3; lia).
  unfold installed_idt. rewrite lookup_app, list_lookup_fmap. change (take 21 (exns e)) with (exns e).
  destruct (exns e !! Z.to_nat n) as [x |] eqn:Hx; [reflexivity|]. cbn [fmap option_fmap option_map].
  apply lookup_ge_None in Hx. rewrite length_fmap, lookup_replicate_2; [reflexivity|]. change (length (exns e)) with 21%nat in *. lia.
Qed.

Lemma vector_of_ok (n h d : Z) : entries_ok -> vector_of n = Some (h, d) -> in_u32 h /\ 0 <= d < 4.
Proof.
  intros (Hx & Ht & Hk & Hs). unfold vector_of. repeat case_match; intros E; simplify_eq/=; [split; [assumption | lia].. |].
  apply fmap_Some in E as (x & Hl & [= -> ->]). split; [| lia]. exact (proj1 (Forall_lookup _ _) Hx _ _ Hl).
Qed.

(** Only the system call vector has privilege level 3. *)
Lemma vector_of_dpl (n h d : Z) :
  vector_of n = Some (h, d) -> (n = INTR_SYSCALL /\ h = e.(syscall_entry) /\ d = 3) \/ (n <> INTR_SYSCALL /\ d = 2).
Proof.
  unfold vector_of. destruct (Z.eqb_spec n INTR_SYSCALL); [intros [= <- <-]; auto|]. intros E. right. split; [assumption|].
  destruct (n =? INTR_KBD); [congruence|]. destruct (n =? INTR_TIMER); [congruence|].
  destruct (exns e !! Z.to_nat n); cbn [fmap option_fmap option_map] in E; congruence.
Qed.

Lemma booted_gate (m : machine) (n : Z) :
  entries_ok -> 0 <= n < 256 ->
  gate_at (booted m) n =
  Some (match vector_of n with Some (h, d) => Gate h SEG_KCODE 14 0 d 1 | None => Gate 0 0 0 0 0 0 end).
Proof.
  intros He Hn. unfold gate_at. cbn [idtr booted with_gdt with_idt snd].
  rewrite (proj2 (Z.leb_le _ _)) by lia. rewrite booted_vector by exact Hn. cbn [fmap option_fmap option_map]. unfold compose.
  destruct (vector_of n) as [[h d] |] eqn:Hv; [| reflexivity].
  destruct (vector_of_ok n h d He Hv) as [Hh Hd]. unfold gate_entry. rewrite decode_set_gate by (assumption || (cbv; split; congruence)). reflexivity.
Qed.

Lemma booted_segment (m : machine) (i : nat) (s : segment) :
  (i < 5)%nat -> decode_segment ∘ gdt_bits <$> gdt_static !! i = Some s -> segment_at (booted m) (8 * Z.of_nat i) = Some s.
Proof.
  intros Hi Hs. unfold segment_at. cbn [gdtr gdt booted with_gdt snd].
  replace (Z.shiftr (8 * Z.of_nat i) 3) with (Z.of_nat i) by (rewrite Z.shiftr_div_pow2 by lia; change (2 ^ 3) with 8; lia).
  rewrite (proj2 (Z.leb_le _ _)), Nat2Z.id, list_lookup_insert_ne by lia. exact Hs.
Qed.

(** Segment [i] of the table covers all addresses, with the given type and privilege. *)
Definition flat (m : machine) (nr ty d : Z) : Prop :=
  segment_at m (Z.shiftl nr 3) = Some (Segment 0 (2 ^ 32 - 1) ty 1 d 1).

(** C36: After [idt_install] and [gdt_install], every vector that has a handler
    enters the kernel there at privilege level 0, whatever was interrupted, and no
    other vector is entered.  By an [int] instruction, user code enters the kernel
    only at the system call entry.  The four code and data segments cover all
    addresses, those of the kernel at level 0 and those of user code at level 3. *)
Theorem interrupt_entry (m : machine) :
  entries_ok -> m.(gdt) = gdt_static ->
  exists m', (idt_install e idt_p ;; gdt_install gdt_p tss_p) m = Ok (tt, m') /\
    (forall n, 0 <= n < 256 ->
       (forall cpl, 0 <= cpl <= 3 -> enter m' cpl n false = (fun v => (0, v.1)) <$> vector_of n) /\
       enter m' 3 n true = if n =? INTR_SYSCALL then Some (0, e.(syscall_entry)) else None) /\
    flat m' SEGNR_KCODE 10 0 /\ flat m' SEGNR_KDATA 2 0 /\ flat m' SEGNR_UCODE 10 3 /\ flat m' SEGNR_UDATA 2 3.
Proof.
  intros He Hg. exists (booted m). split.
  { erewrite bind_ok by apply idt_install_run. cbv beta. apply gdt_install_run. exact Hg. }
  assert (flat (booted m) SEGNR_KCODE 10 0) as Hc by (apply (booted_segment m 1); [lia | reflexivity]).
  split; [| split; [exact Hc|]; split; [apply (booted_segment m 2) | split; [apply (booted_segment m 3) | apply (booted_segment m 4)]]; lia || reflexivity].
  intros n Hn. unfold enter. rewrite (booted_gate m n He Hn). change (Z.shiftl SEGNR_KCODE 3) with SEG_KCODE in Hc. unfold flat in Hc.
  destruct (vector_of n) as [[h d] |] eqn:Hv.
  - destruct (vector_of_ok n h d He Hv) as [Hh Hd]. cbn [gate_p gate_type gate_s gate_dpl g_selector g_offset].
    change (Z.shiftl SEGNR_KCODE 3) with SEG_KCODE in Hc. rewrite Hc. cbn [seg_p seg_s seg_type seg_dpl seg_last seg_base].
    unfold in_u32 in Hh. split.
    + intros cpl Hcpl. cbn. rewrite (proj2 (Z.leb_le 0 cpl)), (proj2 (Z.leb_le h _)) by lia. reflexivity.
    + destruct (vector_of_dpl n h d Hv) as [(-> & -> & ->) | [Hne ->]].
      * cbn. rewrite (proj2 (Z.leb_le _ _)) by lia. reflexivity.
      * rewrite (proj2 (Z.eqb_neq _ _) Hne). reflexivity.
  - split; [reflexivity|]. unfold vector_of in Hv. destruct (n =? INTR_SYSCALL); [discriminate | reflexivity].
Qed.

End installed.

Definition entries_example : entry_points :=
  EntryPoints (fun i => 3222274048 + 16 * i) 3222274560 3222274576 3222274592 3222274608 3222274624 3222274640.

Definition machine_example : machine := Machine gdt_static [] (0, 0) (0, 0) 0 0 0 [].

Lemma interrupt_entry_witness :
  exists m', (idt_install entries_example 3223322624 ;; gdt_install 3223326720 3223330816) machine_example = Ok (tt, m') /\
    enter m' 3 128 true = Some (0, 3222274640) /\ enter m' 3 33 true = None /\ enter m' 3 14 false = Some (0, 3222274592).
Proof.
  destruct (interrupt_entry entries_example 3223326720 3223322624 3223330816 machine_example) as (m' & Hr & Hv & _).
  - repeat split; try (repeat constructor); cbv; congruence.
  - reflexivity.
  - exists m'. split; [exact Hr|].
    split; [exact (proj2 (Hv 128 ltac:(lia)))|]. split; [exact (proj2 (Hv 33 ltac:(lia)))|].
    exact (proj1 (Hv 14 ltac:(lia)) 3 ltac:(lia)).
Defined.

(** The limit stored for the task state segment is the low part of its end address,
    in pages, and not its size. *)
Lemma tss_limit_not_size (tss_p : Z) :
  in_u32 tss_p -> (decode_segment (gdt_bits (SEG tss_p (tss_p +% sizeof_tss) 233))).(seg_last) <> sizeof_tss - 1.
Proof.
  intros H. rewrite decode_SEG; [| exact H | apply u32_range | lia]. cbn [seg_last]. unfold sizeof_tss. lia.
Qed.

(** ** The order of initialisation *)

(** The functions of the set by subsystem, each subsystem's in the order of the
    set. *)
Definition of_subsystem (v : Z) (l : list kinit_struct) : list kinit_struct :=
  List.filter (fun k => k.(subsystem) =? v) l.

Definition by_subsystem (l : list kinit_struct) : list kinit_struct :=
  concat ((fun v => of_subsystem v l) <$> zseq SUB_MEMORY (Z.to_nat SUB_LAST)).

(** Pairs in the wrong order. *)
Definition smaller (k : kinit_struct) (l : list kinit_struct) : nat :=
  length (List.filter (fun y => y.(subsystem) <? k.(subsystem)) l).

Fixpoint inversions (l : list kinit_struct) : nat :=
  match l with
  | [] => 0
  | k :: l => smaller k l + inversions l
  end.

Definition le_sub (a b : kinit_struct) : Prop := a.(subsystem) <= b.(subsystem).

Lemma smaller_app (k : kinit_struct) (l l' : list kinit_struct) : smaller k (l ++ l') = (smaller k l + smaller k l')%nat.
Proof. unfold smaller. rewrite List.filter_app, length_app. reflexivity. Qed.

Lemma smaller_le (k : kinit_struct) (l : list kinit_struct) : (smaller k l <= length l)%nat.
Proof. apply List.filter_length_le. Qed.

Lemma inversions_le (l : list kinit_struct) : (inversions l <= length l * length l)%nat.
Proof. induction l as [| k l IH]; simpl; [lia|]. pose proof (smaller_le k l). lia. Qed.

Lemma inversions_swap (p q : list kinit_struct) (a b : kinit_struct) :
  a.(subsystem) < b.(subsystem) ->
  inversions (p ++ b :: a :: q) = Datatypes.S (inversions (p ++ a :: b :: q)).
Proof.
  intros H. induction p as [| k p IH].
  - simpl. unfold smaller. simpl.
    rewrite (proj2 (Z.ltb_lt _ _) H), (proj2 (Z.ltb_ge _ _)) by lia. simpl. lia.
  - simpl. rewrite IH, !smaller_app. replace (smaller k (b :: a :: q)) with (smaller k (a :: b :: q)); [lia|].
    unfold smaller. simpl. do 2 destruct (_ <? _); reflexivity.
Qed.

Lemma of_subsystem_swap (v : Z) (p q : list kinit_struct) (a b : kinit_struct) :
  a.(subsystem) < b.(subsystem) -> of_subsystem v (p ++ b :: a :: q) = of_subsystem v (p ++ a :: b :: q).
Proof.
  intros H. unfold of_subsystem. rewrite !List.filter_app. f_equal. simpl.
  destruct (Z.eqb_spec (subsystem a) v), (Z.eqb_spec (subsystem b) v); try reflexivity. lia.
Qed.

Lemma swap_app {A : Type} (p q : list A) (a b x y : A) :
  <[length p := a]> (<[Datatypes.S (length p) := b]> (p ++ x :: y :: q)) = p ++ a :: b :: q.
Proof. induction p as [| z p IH]; [reflexivity|]. cbn. f_equal. exact IH. Qed.

Lemma swap_split (l : list kinit_struct) (i : nat) (a b : kinit_struct) :
  (1 <= i)%nat -> l !! i = Some a -> l !! (i - 1)%nat = Some b ->
  exists p q, l = p ++ b :: a :: q /\ length p = (i - 1)%nat /\
    <[(i - 1)%nat := a]> (<[i := b]> l) = p ++ a :: b :: q.
Proof.
  intros Hi Ha Hb. exists (take (i - 1) l), (drop (i + 1) l).
  assert (i < length l)%nat as Hlt by (apply lookup_lt_Some in Ha; exact Ha).
  assert (length (take (i - 1) l) = (i - 1)%nat) as Hp by (rewrite length_take; lia).
  assert (l = take (i - 1) l ++ b :: a :: drop (i + 1) l) as E.
  { rewrite <- (take_drop_middle l (i - 1) b Hb) at 1. do 2 f_equal.
    replace (Datatypes.S (i - 1)) with i by lia. rewrite (drop_S l a i Ha). rewrite Nat.add_1_r. reflexivity. }
  repeat split; [exact E | exact Hp |]. rewrite E at 1.
  replace i with (Datatypes.S (length (take (i - 1) l))) at 2 by lia. rewrite <- Hp at 1. apply swap_app.
Qed.

(** Elements before position [i] are in order. *)
Definition sorted_to (i : nat) (l : list kinit_struct) : Prop := StronglySorted le_sub (take i l).

Lemma sorted_to_step (l : list kinit_struct) (i : nat) (a b : kinit_struct) :
  (1 <= i)%nat -> l !! i = Some a -> l !! (i - 1)%nat = Some b -> b.(subsystem) <= a.(subsystem) ->
  sorted_to i l -> sorted_to (i + 1) l.
Proof.
  intros Hi Ha Hb Hab Hs. unfold sorted_to in *. rewrite Nat.add_1_r, (take_S_r _ _ _ Ha).
  replace (take i l) with (take (i - 1) l ++ [b]) in *
    by (rewrite <- (take_S_r _ _ _ Hb); f_equal; lia).
  apply StronglySorted_app_2; [| exact Hs | repeat constructor].
  intros x y Hx Hy. apply list_elem_of_singleton in Hy as ->. unfold le_sub.
  apply elem_of_app in Hx as [Hx | Hx]; [| apply list_elem_of_singleton in Hx as ->; exact Hab].
  pose proof (StronglySorted_app_1_elem_of le_sub _ _ _ _ Hs Hx (proj2 (list_elem_of_singleton b b) eq_refl)) as Hle.
  unfold le_sub in Hle. lia.
Qed.

Lemma sort_kinit_run (fuel : nat) (l : list kinit_struct) (i : nat) :
  (1 <= i)%nat -> (l = [] \/ i <= length l)%nat -> sorted_to i l ->
  (inversions l * (length l + 1) + (length l + 1 - i) < fuel)%nat ->
  exists l', sort_kinit fuel l i = Ok l' /\ StronglySorted le_sub l' /\ forall v, of_subsystem v l' = of_subsystem v l.
Proof.
  revert l i. induction fuel as [| fuel IH]; intros l i Hi Hil Hs Hf; [lia|]. simpl.
  destruct (Nat.ltb_spec i (length l)) as [Hlt | Hge].
  - destruct (lookup_lt_is_Some_2 l i Hlt) as [a Ha].
    destruct (lookup_lt_is_Some_2 l (i - 1)) as [b Hb]; [lia|]. rewrite Ha, Hb.
    destruct (Z.ltb_spec (subsystem a) (subsystem b)) as [Hab | Hab].
    + destruct (swap_split l i a b Hi Ha Hb) as (p & q & El & Hp & ->).
      assert (length (p ++ a :: b :: q) = length l) as Hlen by (rewrite El, !length_app; reflexivity).
      rewrite El, (inversions_swap p q a b Hab) in Hf. rewrite <- El in Hf.
      destruct (IH (p ++ a :: b :: q) 1%nat) as (l' & Hr & Hl' & Hv).
      * lia.
      * right. lia.
      * unfold sorted_to. destruct p; simpl; repeat constructor.
      * rewrite Hlen. lia.
      * exists l'. repeat split; [exact Hr | exact Hl' |]. intros v. rewrite Hv, El. symmetry. apply of_subsystem_swap, Hab.
    + apply IH; [lia | right; lia | exact (sorted_to_step l i a b Hi Ha Hb Hab Hs) | lia].
  - exists l. repeat split. unfold sorted_to in Hs. rewrite take_ge in Hs by lia. exact Hs.
Qed.


(** A list in order starts with the elements of its lowest subsystem. *)
Lemma sorted_first (l : list kinit_struct) (lo : Z) :
  StronglySorted le_sub l -> Forall (fun k => lo <= k.(subsystem)) l ->
  l = of_subsystem lo l ++ List.filter (fun k => negb (k.(subsystem) =? lo)) l.
Proof.
  induction 1 as [| k l Hl IH Hk]; intros Hlo; [reflexivity|]. apply Forall_cons in Hlo as [Hlo1 Hlo]. cbn.
  destruct (Z.eqb_spec (subsystem k) lo) as [E | E]; cbn; [f_equal; exact (IH Hlo)|].
  assert (of_subsystem lo l = []) as E0.
  { clear IH Hl Hlo. unfold of_subsystem. induction Hk as [| y l Hy Hk IH]; [reflexivity|]. cbn. unfold le_sub in Hy.
    rewrite (proj2 (Z.eqb_neq _ _)) by lia. exact IH. }
  rewrite E0 in IH. fold (of_subsystem lo l). rewrite E0. cbn. f_equal. exact (IH Hlo).
Qed.

Lemma sorted_blocks (n : nat) (lo : Z) (l : list kinit_struct) :
  StronglySorted le_sub l -> Forall (fun k => lo <= k.(subsystem) < lo + Z.of_nat n) l ->
  l = concat ((fun v => of_subsystem v l) <$> zseq lo n).
Proof.
  revert lo l. induction n as [| n IH]; intros lo l Hs Hb.
  - destruct l as [| k l]; [reflexivity|]. apply Forall_cons in Hb as [Hb _]. lia.
  - rewrite zseq_cons. cbn [fmap list_fmap concat].
    rewrite (sorted_first l lo Hs) at 1 by (eapply Forall_impl; [exact Hb | simpl; lia]). f_equal.
    set (l' := List.filter _ l).
    assert (forall v, v <> lo -> of_subsystem v l' = of_subsystem v l) as Hv.
    { intros v Hne. unfold of_subsystem, l'. clear -Hne. induction l as [| k l IH]; [reflexivity|]. cbn.
      destruct (Z.eqb_spec (subsystem k) lo) as [E | E]; cbn.
      - rewrite (proj2 (Z.eqb_neq _ _)) by lia. exact IH.
      - destruct (subsystem k =? v); [f_equal|]; exact IH. }
    rewrite (IH (lo + 1) l') at 1.
    + f_equal. apply list_fmap_ext. intros j v Hj. apply list_elem_of_lookup_2, elem_of_zseq in Hj. apply Hv. lia.
    + unfold l'. clear -Hs. induction Hs as [| k l Hl IH Hk]; cbn; [constructor|]. case_match; [|exact IH].
      constructor; [exact IH|]. apply Forall_forall. intros x Hx. apply list_elem_of_In, List.filter_In in Hx as [Hx _].
      apply (proj1 (Forall_forall _ _) Hk), list_elem_of_In, Hx.
    + apply Forall_forall. intros k Hk. apply list_elem_of_In, List.filter_In in Hk as [Hk Hne].
      apply negb_true_iff, Z.eqb_neq in Hne. pose proof (proj1 (Forall_forall _ _) Hb k (proj2 (list_elem_of_In _ _) Hk)) as Hr.
      simpl in Hr. lia.
Qed.

Lemma sort_kinit_spec (l : list kinit_struct) :
  Forall (fun k => 0 <= k.(subsystem) < SUB_LAST) l -> sort_kinit (sort_fuel l) l 1 = Ok (by_subsystem l).
Proof.
  intros Hl. destruct (sort_kinit_run (sort_fuel l) l 1) as (l' & Hr & Hs & Hv).
  - lia.
  - destruct l; [left; reflexivity | right; simpl; lia].
  - unfold sorted_to. destruct l; simpl; repeat constructor.
  - pose proof (inversions_le l). unfold sort_fuel. nia.
  - rewrite Hr. f_equal. unfold by_subsystem. rewrite (sorted_blocks (Z.to_nat SUB_LAST) SUB_MEMORY l' Hs).
    + f_equal. apply list_fmap_ext. intros j v _. apply Hv.
    + apply Forall_forall. intros k Hk. apply list_elem_of_In in Hk.
      assert (In k (of_subsystem k.(subsystem) l')) as Hf by (apply List.filter_In; split; [exact Hk | apply Z.eqb_refl]).
      rewrite Hv in Hf. apply List.filter_In in Hf as [Hf _].
      exact (proj1 (Forall_forall _ _) Hl k (proj2 (list_elem_of_In _ _) Hf)).
Qed.

(** C37: When every function of the initialisation set has a subsystem, the sort ends
    and [init_subsystems] calls each function of the set once, memory first, then
    slab caches, file systems, drivers and processes, and the functions of one
    subsystem in the order of the set; the set is left in that order. *)
Theorem init_subsystems_order {S : Type} (_kprintf : Z -> string -> list Z -> ST S unit) (call : Z -> ST S unit) (b : boot S) :
  Forall (fun k => 0 <= k.(subsystem) < SUB_LAST) b.(kinit_set) ->
  init_subsystems _kprintf call b =
  for_each (by_subsystem b.(kinit_set)) (init_one _kprintf call)
    (Boot b.(mach) (by_subsystem b.(kinit_set)) b.(mb_info) b.(others)).
Proof.
  intros H. unfold init_subsystems. erewrite bind_ok by reflexivity. cbv beta.
  erewrite bind_ok; [| unfold st_res; rewrite (sort_kinit_spec _ H); reflexivity]. reflexivity.
Qed.

(** A set of five functions; the calls are recorded. *)
Definition kinit_example : list kinit_struct :=
  [KInit 4 1 40; KInit 2 2 20; KInit 3 3 30; KInit 2 4 21; KInit 0 5 10].

Lemma init_subsystems_order_witness :
  init_subsystems (fun _ _ _ => mret tt) (fun f => modify (fun l => l ++ [f])) (Boot machine_example kinit_example 0 []) =
  Ok (tt, Boot machine_example [KInit 0 5 10; KInit 2 2 20; KInit 2 4 21; KInit 3 3 30; KInit 4 1 40] 0 [10; 20; 21; 30; 40]).
Proof.
  rewrite (init_subsystems_order (fun _ _ _ => mret tt) (fun f => modify (fun l => l ++ [f])) (Boot machine_example kinit_example 0 [])).
  - reflexivity.
  - repeat constructor; simpl; unfold SUB_LAST; lia.
Defined.

(** ** Interrupt lines *)

(** Reading a mask register returns what was last written to it. *)
Definition reads_back (port_in : list (Z * Z) -> Z -> Z) : Prop :=
  forall log v port, port = PIC1_DAT \/ port = PIC2_DAT ->
    port_in (log ++ [v]) port = if v.1 =? port then v.2 else port_in log port.

(** Whether line [irq] is masked. *)
Definition masked (port_in : list (Z * Z) -> Z -> Z) (m : machine) (irq : Z) : bool :=
  let '(port, i) := irq_port irq in Z.testbit (port_in m.(ports) port) i.

Lemma irq_port_spec (q : Z) :
  0 <= q < 16 ->
  ((irq_port q).1 = PIC1_DAT /\ (irq_port q).2 = q /\ q < 8) \/
  ((irq_port q).1 = PIC2_DAT /\ (irq_port q).2 = q - 8 /\ 8 <= q).
Proof.
  intros Hq. unfold irq_port. destruct (Z.ltb_spec q 8); [left; auto|right]. repeat split; [|lia].
  cbn [snd]. change 7 with (Z.ones 3). rewrite Z.land_ones by lia. lia.
Qed.

Lemma enable_irq_line (port_in : list (Z * Z) -> Z -> Z) (m : machine) (irq : Z) (disable : bool) :
  reads_back port_in -> 0 <= irq < 16 ->
  exists m', enable_irq port_in irq disable m = Ok (tt, m') /\
    forall q, 0 <= q < 16 -> masked port_in m' q = if q =? irq then disable else masked port_in m q.
Proof.
  intros Hp Hi. unfold enable_irq, masked.
  pose proof (irq_port_spec irq Hi) as Hs. destruct (irq_port irq) as [port i]. cbn [fst snd] in Hs.
  eexists. split; [reflexivity|]. intros q Hq. pose proof (irq_port_spec q Hq) as Hsq. destruct (irq_port q) as [qp j]. cbn [fst snd] in Hsq.
  cbn [ports set_ports]. rewrite Hp by tauto. cbn [fst snd].
  destruct (Z.eqb_spec port qp) as [-> | Hne].
  - assert (0 <= i < 8 /\ 0 <= j < 8) as [Hi8 Hj8] by lia. rewrite testbit_uN, (proj2 (Z.ltb_lt j 8)) by lia. cbn [andb].
    rewrite Z.shiftl_1_l. replace (q =? irq) with (j =? i) by (apply eq_bool_prop_intro; rewrite !Is_true_true, !Z.eqb_eq; unfold PIC1_DAT, PIC2_DAT in *; lia).
    destruct disable; rewrite ?Z.lor_spec, ?Z.land_spec, ?Z.lnot_spec, testbit_pow2, testbit_uN, (proj2 (Z.ltb_lt j 8)) by lia;
      destruct (j =? i), (Z.testbit (port_in m.(ports) qp) j); reflexivity.
  - rewrite (proj2 (Z.eqb_neq q irq)) by (unfold PIC1_DAT, PIC2_DAT in *; intuition lia). reflexivity.
Qed.

(** The machine with more port writes. *)
Definition wrote (m : machine) (l : list (Z * Z)) : machine := set_ports m (m.(ports) ++ l).

Lemma outb_wrote (m : machine) (l : list (Z * Z)) (port data : Z) :
  outb port data (wrote m l) = Ok (tt, wrote m (l ++ [(port, u8 data)])).
Proof. unfold outb, modify, wrote, set_ports. cbn. rewrite <- app_assoc. reflexivity. Qed.

Lemma pic_init_run (m : machine) (l : list (Z * Z)) (off1 off2 : Z) :
  pic_init off1 off2 (wrote m l) =
  Ok (tt, wrote m (l ++ [(32, 17); (33, u8 off1); (33, 4); (33, 1); (32, 11); (160, 17); (161, u8 off2); (161, 2);
    (161, 11); (160, 11); (161, 255); (33, 255)])).
Proof.
  unfold pic_init. do 11 (erewrite bind_ok by apply outb_wrote; cbv beta). rewrite outb_wrote, <- !app_assoc. reflexivity.
Qed.

(** The lines after start-up: [pic_init] masks all of them, [pit_init] opens that of
    the timer. *)
Lemma boot_lines (port_in : list (Z * Z) -> Z -> Z) (m : machine) :
  reads_back port_in ->
  exists m', (pic_init 32 40 ;; pit_init port_in 100) m = Ok (tt, m') /\
    forall q, 0 <= q < 16 -> masked port_in m' q = negb (q =? 0).
Proof.
  intros Hp. assert (m = wrote m []) as E by (destruct m; unfold wrote, set_ports; cbn; rewrite app_nil_r; reflexivity).
  set (l := [(32, 17); (33, 32); (33, 4); (33, 1); (32, 11); (160, 17); (161, 40); (161, 2);
    (161, 11); (160, 11); (161, 255); (33, 255)]).
  destruct (enable_irq_line port_in (wrote m (l ++ [(67, 52); (64, 156); (64, 46)])) 0 false Hp ltac:(lia)) as (m' & Hr & Hm).
  exists m'. split.
  - rewrite E at 1. erewrite bind_ok by apply pic_init_run. cbv beta. unfold pit_init. change (100 =? 0) with false. cbv iota.
    do 3 (erewrite bind_ok by apply outb_wrote; cbv beta). rewrite <- !app_assoc. exact Hr.
  - intros q Hq. rewrite Hm by exact Hq. destruct (Z.eqb_spec q 0); [reflexivity|]. unfold masked. cbn [ports set_ports wrote].
    pose proof (irq_port_spec q Hq) as Hs. destruct (irq_port q) as [port i]. cbn [fst snd] in Hs.
    assert (port_in (m.(ports) ++ l ++ [(67, 52); (64, 156); (64, 46)]) port = 255) as ->.
    { change (l ++ _) with (take 10 l ++ [(161, 255)] ++ [(33, 255)] ++ [(67, 52)] ++ [(64, 156)] ++ [(64, 46)]).
      rewrite !app_assoc. unfold PIC1_DAT, PIC2_DAT in *.
      destruct Hs as [(-> & _) | (-> & _)]; rewrite !Hp by auto; reflexivity. }
    change 255 with (Z.ones 8). rewrite Z.testbit_ones_nonneg by lia. apply Z.ltb_lt. lia.
Qed.
