(* ===== verification/Trap.v ===== *)
(** * Processor exceptions (kernel/interrupt.c)

    The handlers run with the context of the interrupted code on the stack of the
    current process.  Where the processor pushes an error code, the words of the
    interrupt frame lie one word further up than in [struct ucontext] until
    [get_error_code] moves them.  Printing is a function of the environment. *)

From Stdlib Require Import String.
From S2P Require Import Paging Demand Machine Prelude Bitops Abi Addr Vma Timer Sig Sched Signal Process.

Local Open Scope Z_scope.

Definition PGF_PERM : Z := 1.
Definition PGF_WRITE : Z := 2.
Definition PGF_USER : Z := 4.

Definition ILL_ILLOPC : Z := 1.
Definition FPE_INTDIV : Z := 9.
Definition SEGV_MAPERR : Z := 17.
Definition SEGV_ACCERR : Z := 18.

(** An argument of [kprintf]. *)
Inductive parg : Type :=
| PInt (z : Z)
| PStr (s : string).

Section traps.

Context {S : Type} `{V : VmaEnv S} (kprintf : string -> list parg -> S -> S) (e : entry_points).

Abbreviation k := (kst S).

Definition kprint (fmt : string) (args : list parg) : ST k unit := env_do (kprintf fmt args).

(** [cx->reg.stack[i]], which overlays the interrupt frame. *)
Definition reg_stack (cx i : Z) : Z := cx +% (48 + 4 * i).

Definition is_kernel_context (cx : Z) : ST k bool :=
  cs ← mload (cx_cs cx);
  mret (Z.shiftr cs 3 =? SEGNR_KCODE).

(** Prints the word at [a]. *)
Definition dump_word (fmt : string) (a : Z) : ST k unit := w ← mload a; kprint (ln fmt) [PInt w].

Definition dump_registers (reg : Z) : ST k unit :=
  kprint (ln "Dumping registers...") [] ;;
  dump_word "[eax] = 0x%lx" (reg +% 20) ;;
  dump_word "[ecx] = 0x%lx" (reg +% 4) ;;
  dump_word "[edx] = 0x%lx" (reg +% 8) ;;
  dump_word "[ebx] = 0x%lx" (reg +% 0) ;;
  dump_word "[esi] = 0x%lx" (reg +% 16) ;;
  dump_word "[edi] = 0x%lx" (reg +% 12) ;;
  dump_word "[esp] = 0x%lx" (reg +% 28) ;;
  dump_word "[ebp] = 0x%lx" (reg +% 24).

Definition dump_context (cx : Z) : ST k unit :=
  dump_word "iret_eip    = 0x%lx" (cx_eip cx) ;;
  dump_word "iret_cs     = 0x%lx" (cx_cs cx) ;;
  dump_word "iret_elfags = 0x%lx" (cx_eflags cx) ;;
  kernel ← is_kernel_context cx;
  (if kernel : bool then mret tt
   else
     dump_word "iret_esp    = 0x%lx" (cx_esp cx) ;;
     dump_word "iret_ss     = 0x%lx" (cx_ss cx)) ;;
  dump_registers cx.

(** Copies word [i + 1] of the frame to word [i]. *)
Definition move_down (cx i : Z) : ST k unit :=
  w ← mload (reg_stack cx (i + 1));
  mstore (reg_stack cx i) w.

Definition get_error_code (cx : Z) : ST k Z :=
  error ← mload (reg_stack cx 0);
  move_down cx 0 ;;
  move_down cx 1 ;;
  move_down cx 2 ;;
  kernel ← is_kernel_context cx;
  (if kernel : bool then mret tt else move_down cx 3 ;; move_down cx 4) ;;
  mret error.

(** [error & flag] *)
Definition err_has (error flag : Z) : bool := negb (Z.land error flag =? 0).

Definition segfault (code error addr : Z) : ST k unit :=
  kprint (ln "Segmentation fault: %s mode %s at 0x%p%s")
    [PStr (if err_has error PGF_USER then "user" else "kernel");
     PStr (if err_has error PGF_WRITE then "write" else "read");
     PInt addr;
     PStr (if err_has error PGF_PERM then "" else " (page not present)")] ;;
  c ← cur;
  a ← proc c;
  dump_context a.(esp) ;;
  kernel ← is_kernel_context a.(esp);
  if kernel : bool then panic else __kill c SIGSEGV code.

(** [addr] is the contents of [cr2]. *)
Definition exn_page_fault (addr : Z) : ST k unit :=
  c ← cur;
  a ← proc c;
  error ← get_error_code a.(esp);
  match vma_get a.(mm) addr with
  | None => segfault SEGV_MAPERR error addr
  | Some v =>
      if negb (err_has error PGF_PERM) then
        r ← on_env (vm_map_page v addr);
        if r <? 0 then segfault SEGV_MAPERR error addr else mret tt
      else if err_has error PGF_WRITE then
        r ← on_env (vm_write_perm v addr);
        if r <? 0 then segfault SEGV_ACCERR error addr else mret tt
      else
        r ← on_env (vm_read_perm v addr);
        if r <? 0 then segfault SEGV_ACCERR error addr else mret tt
  end.

Definition exn_fpe : ST k unit :=
  kprint (ln "Arithmetic error") [] ;;
  c ← cur;
  __kill c SIGFPE FPE_INTDIV.

Definition exn_ill_instr : ST k unit :=
  kprint (ln "Illegal instruction") [] ;;
  c ← cur;
  __kill c SIGILL ILL_ILLOPC.

(** [cx] is the address of the context, which the entry code leaves on the stack as
    the second argument. *)
Definition exn_err (num cx : Z) : ST k unit :=
  kernel ← is_kernel_context cx;
  x ← st_res (aload (exns e) num);
  kprint (ln (nl ++ "trap!" ++ nl ++ "Exception %d (%s mode): %s")%string)
    [PInt num; PStr (if kernel : bool then "kernel" else "user");
     PStr (if num <? 20 then x.(exn_name) else "Unknown")] ;;
  (if x.(has_code) then error ← get_error_code cx; kprint (ln "error code  = 0x%lx") [PInt error] else mret tt) ;;
  dump_context cx ;;
  kernel ← is_kernel_context cx;
  if kernel : bool then panic
  else
    c ← cur;
    __kill c SIGKILL 0.

End traps.

(** ** Interrupt frames with an error code *)

Section trap_proofs.

Context {S : Type} `{V : VmaEnv S} (kprintf : string -> list parg -> S -> S).

Abbreviation k := (kst S).

(** The words from the saved registers to the end of a frame with an error code. *)
Definition context_at (s : k) (cx : Z) : Prop := forall i, 0 <= i < 18 -> present s (cx +% 4 * i).

(** The first [n] words of the frame moved down by one, and nothing else changed. *)
Definition popped (n cx : Z) (m m' : gmap Z Z) : Prop :=
  (forall i, 0 <= i < n -> m' !! reg_stack cx i = m !! reg_stack cx (i + 1)) /\
  (forall a, (forall i, 0 <= i < n -> a <> reg_stack cx i) -> m' !! a = m !! a).

Lemma reg_stack_inj (cx i j : Z) : 0 <= i < 8 -> 0 <= j < 8 -> reg_stack cx i = reg_stack cx j -> i = j.
Proof. unfold reg_stack, uN. change (2 ^ 32) with 4294967296. lia. Qed.

Lemma move_down_run (s : k) (cx i : Z) (m : gmap Z Z) :
  context_at s cx -> 0 <= i < 5 -> popped i cx s.(umem) m ->
  exists m', move_down cx i (set_umem s m) = Ok (tt, set_umem s m') /\ popped (i + 1) cx s.(umem) m'.
Proof.
  intros Hc Hi [Hp Hn].
  assert (forall j, i <= j <= 5 -> m !! reg_stack cx j = s.(umem) !! reg_stack cx j) as Hup.
  { intros j Hj. apply Hn. intros l Hl E. apply reg_stack_inj in E; lia. }
  assert (forall j, 0 <= j <= 5 -> present s (reg_stack cx j)) as Hpres.
  { intros j Hj. unfold reg_stack. replace (48 + 4 * j) with (4 * (12 + j)) by lia. apply Hc. lia. }
  destruct (Hpres (i + 1) ltac:(lia)) as [w Hw]. unfold move_down.
  erewrite bind_ok; [| apply mload_run; cbn [umem set_umem]; rewrite Hup by lia; exact Hw]. cbv beta.
  rewrite mstore_run by (unfold present; cbn [umem set_umem]; rewrite Hup by lia; apply Hpres; lia).
  eexists. split; [reflexivity|]. split.
  - intros j Hj. cbn [umem set_umem]. rewrite lookup_insert. case_decide as E.
    + apply reg_stack_inj in E; [subst; rewrite Hw; reflexivity | lia..].
    + apply Hp. assert (j <> i) by (intros ->; contradiction). lia.
  - intros a Ha. cbn [umem set_umem]. rewrite lookup_insert_ne by (apply not_eq_sym, Ha; lia). apply Hn. intros j Hj. apply Ha. lia.
Qed.

Lemma popped_0 (cx : Z) (m : gmap Z Z) : popped 0 cx m m.
Proof. split; [intros; lia | reflexivity]. Qed.

(** The number of frame words that [get_error_code] moves. *)
Lemma get_error_code_run (s : k) (cx err cs : Z) (kernel := Z.shiftr cs 3 =? SEGNR_KCODE) :
  context_at s cx -> s.(umem) !! reg_stack cx 0 = Some err -> s.(umem) !! reg_stack cx 2 = Some cs ->
  exists m, get_error_code cx s = Ok (err, set_umem s m) /\ popped (if kernel then 3 else 5) cx s.(umem) m.
Proof.
  intros Hc He Hcs. unfold get_error_code. erewrite bind_ok by (apply mload_run, He). cbv beta.
  assert (set_umem s s.(umem) = s) as Es by (destruct s; reflexivity).
  destruct (move_down_run s cx 0 _ Hc ltac:(lia) (popped_0 cx s.(umem))) as (m1 & E1 & P1). rewrite Es in E1. rewrite (bind_ok _ _ _ _ _ E1).
  destruct (move_down_run s cx 1 m1 Hc ltac:(lia) P1) as (m2 & E2 & P2). rewrite (bind_ok _ _ _ _ _ E2).
  destruct (move_down_run s cx 2 m2 Hc ltac:(lia) P2) as (m3 & E3 & P3). rewrite (bind_ok _ _ _ _ _ E3). cbv beta.
  erewrite bind_ok.
  2: { unfold is_kernel_context. erewrite bind_ok; [reflexivity|]. apply mload_run. cbn [umem set_umem].
       change (cx_cs cx) with (reg_stack cx 1). rewrite (proj1 P3) by lia. exact Hcs. }
  cbv beta. fold kernel. destruct kernel.
  - exists m3. split; [reflexivity | exact P3].
  - destruct (move_down_run s cx 3 m3 Hc ltac:(lia) P3) as (m4 & E4 & P4).
    destruct (move_down_run s cx 4 m4 Hc ltac:(lia) P4) as (m5 & E5 & P5).
    exists m5. split; [| exact P5]. erewrite bind_ok by (rewrite (bind_ok _ _ _ _ _ E4); exact E5). reflexivity.
Qed.

(** ** Printing changes the environment only *)

(** The environment after some printing. *)
Inductive printed : S -> S -> Prop :=
| printed_nil e : printed e e
| printed_cons e e' fmt args : printed (kprintf fmt args e) e' -> printed e e'.

Lemma printed_trans (e1 e2 e3 : S) : printed e1 e2 -> printed e2 e3 -> printed e1 e3.
Proof. induction 1; [auto | intros H2; eapply printed_cons; eauto]. Qed.

Definition prints (m : ST k unit) (s : k) : Prop :=
  forall e, exists e', m (set_env s e) = Ok (tt, set_env s e') /\ printed e e'.

Lemma prints_seq (m1 m2 : ST k unit) (s : k) : prints m1 s -> prints m2 s -> prints (m1 ;; m2) s.
Proof.
  intros H1 H2 e. destruct (H1 e) as (e1 & E1 & P1). rewrite (bind_ok _ _ _ _ _ E1).
  destruct (H2 e1) as (e2 & E2 & P2). exists e2. split; [exact E2 | eapply printed_trans; eauto].
Qed.

Lemma prints_kprint (s : k) (fmt : string) (args : list parg) : prints (kprint kprintf fmt args) s.
Proof. intros e. eexists. split; [reflexivity | eapply printed_cons, printed_nil]. Qed.

Lemma prints_word (s : k) (fmt : string) (a : Z) : present s a -> prints (dump_word kprintf fmt a) s.
Proof.
  intros [w Hw] e. unfold dump_word. erewrite bind_ok; [| apply mload_run; exact Hw]. cbv beta. apply prints_kprint.
Qed.

(** A word of the context, printed. *)
Ltac context_word Hc :=
  apply prints_word;
  match goal with
  | |- present _ (u32 (_ + ?n)) => let q := eval vm_compute in (n / 4) in change n with (4 * q); apply Hc; lia
  end.

Lemma prints_context (s : k) (cx : Z) : context_at s cx -> prints (dump_context kprintf cx) s.
Proof.
  intros Hc. unfold dump_context.
  do 3 (apply prints_seq; [unfold cx_eip, cx_cs, cx_eflags; context_word Hc |]).
  intros e. destruct (Hc 13 ltac:(lia)) as [cs Hcs]. change (cx +% 4 * 13) with (cx_cs cx) in Hcs.
  erewrite bind_ok; [| unfold is_kernel_context; erewrite bind_ok; [reflexivity | apply mload_run; exact Hcs]]. cbv beta. revert e.
  change (prints ((if Z.shiftr cs 3 =? SEGNR_KCODE then mret tt else dump_word kprintf "iret_esp    = 0x%lx" (cx_esp cx) ;; dump_word kprintf "iret_ss     = 0x%lx" (cx_ss cx)) ;; dump_registers kprintf cx) s).
  apply prints_seq.
  - case_match; [intros e; exists e; split; [reflexivity | apply printed_nil]|].
    apply prints_seq; apply prints_word; [apply (Hc 15) | apply (Hc 16)]; lia.
  - unfold dump_registers. apply prints_seq; [apply prints_kprint|].
    do 7 (apply prints_seq; [context_word Hc |]). context_word Hc.
Qed.

(** ** Signals for the current process *)

(** [__kill] on a running process marks the signal pending, and stores the code
    where the action asks for it. *)
Lemma kill_running (s : k) (c n code : Z) (a : pcb) :
  s.(current) = c -> 0 <= c -> s.(proctab) !! Z.to_nat c = Some a -> a.(state) = PROC_RUNNING ->
  signo_valid n = true -> is_Some (a.(sig).(actions) !! Z.to_nat n) -> is_Some (a.(sig).(infos) !! Z.to_nat n) ->
  present s (cx_eip a.(esp)) ->
  exists l, __kill c n code s =
    Ok (tt, set_procs s (<[Z.to_nat c := p_sig a (set_infos (set_pending a.(sig) (sigaddset a.(sig).(pending) n)) l)]> s.(proctab))).
Proof.
  intros Hc H0 Ha Hrun Hv [act Hact] [i Hi] [eip Heip]. pose proof (lookup_lt_Some _ _ _ Ha) as Hlt.
  assert (0 <= n) as Hn by (unfold signo_valid in Hv; lia).
  unfold __kill. rewrite (bind_ok _ _ _ _ _ (proc_run s c a H0 Ha)).
  erewrite bind_ok by (unfold st_res; rewrite word_set_bit_eq by exact Hv; reflexivity).
  rewrite (bind_ok _ _ _ _ _ (upd_sig_run s c _ a H0 Ha)). set (a1 := p_sig a _). set (s1 := set_procs s _).
  assert (proctab s1 !! Z.to_nat c = Some a1) as Ha1 by (apply list_lookup_insert_eq, Hlt).
  erewrite bind_ok by (unfold st_res; rewrite (proj2 (aload_ok _ _ _) (conj Hn Hact)); reflexivity). cbv beta.
  destruct (negb _).
  - pose proof (lookup_lt_Some _ _ _ Hi) as Hil.
    erewrite bind_ok.
    2: { erewrite bind_ok by (unfold st_res; rewrite (proj2 (aload_ok _ _ _) (conj Hn Hi)); reflexivity). cbv beta.
         erewrite bind_ok by (unfold cur_proc; erewrite bind_ok by reflexivity; cbv beta; change (current s1) with (current s); rewrite Hc; apply (proc_run s1 c a1 H0 Ha1)). cbv beta.
         erewrite bind_ok by (apply mload_run; exact Heip). cbv beta.
         erewrite bind_ok by (unfold st_res; rewrite astore_in by lia; reflexivity). cbv beta.
         apply (upd_sig_run s1 c _ a1 H0 Ha1). }
    cbv beta. set (a2 := p_sig a1 _). set (s2 := set_procs s1 _).
    assert (proctab s2 !! Z.to_nat c = Some a2) as Ha2 by (apply list_lookup_insert_eq; cbn; rewrite length_insert; exact Hlt).
    rewrite (bind_ok _ _ _ _ _ (proc_run s2 c a2 H0 Ha2)).
    assert (needs_wake a2 n = Ok false) as Hw by (unfold needs_wake; cbn [state a2 a1 p_sig]; rewrite Hrun; reflexivity).
    erewrite bind_ok by (unfold st_res; rewrite Hw; reflexivity). eexists. unfold s2, s1, set_procs. cbn. rewrite list_insert_insert_eq. reflexivity.
  - erewrite bind_ok by reflexivity. cbv beta. rewrite (bind_ok _ _ _ _ _ (proc_run s1 c a1 H0 Ha1)).
    assert (needs_wake a1 n = Ok false) as Hw by (unfold needs_wake; cbn [state a1 p_sig]; rewrite Hrun; reflexivity).
    erewrite bind_ok by (unfold st_res; rewrite Hw; reflexivity). exists a.(sig).(infos). unfold s1. reflexivity.
Qed.

(** A page fault of a running user process [a] with error code [err]. *)
Record user_fault (s : k) (a : pcb) (err : Z) : Prop := {
  uf_cur : 0 <= s.(current);
  uf_proc : s.(proctab) !! Z.to_nat s.(current) = Some a;
  uf_run : a.(state) = PROC_RUNNING;
  uf_cx : context_at s a.(esp);
  uf_err : s.(umem) !! reg_stack a.(esp) 0 = Some err;
  uf_user : exists cs, s.(umem) !! reg_stack a.(esp) 2 = Some cs /\ Z.shiftr cs 3 =? SEGNR_KCODE = false;
  uf_act : is_Some (a.(sig).(actions) !! Z.to_nat SIGSEGV);
  uf_info : is_Some (a.(sig).(infos) !! Z.to_nat SIGSEGV);
}.

(** What the area is asked for: the page when it is not present, and otherwise the
    permission that was missing. *)
Definition resolve (v : vma) (err addr : Z) : S -> Z * S :=
  if negb (err_has err PGF_PERM) then vm_map_page v addr
  else if err_has err PGF_WRITE then vm_write_perm v addr
  else vm_read_perm v addr.

(** [SIGSEGV] is pending for the current process, and nothing else has changed in
    the process table. *)
Definition segv_pending (s s' : k) (a : pcb) : Prop :=
  exists l, s'.(proctab) =
    <[Z.to_nat s.(current) := p_sig a (set_infos (set_pending a.(sig) (sigaddset a.(sig).(pending) SIGSEGV)) l)]> s.(proctab).

(** The parts of the state a fault leaves alone. *)
Definition undisturbed (s s' : k) : Prop :=
  s'.(current) = s.(current) /\ s'.(ready_queue) = s.(ready_queue) /\ s'.(zombies) = s.(zombies) /\ s'.(timers_of) = s.(timers_of).

Lemma context_popped (s : k) (cx : Z) (m : gmap Z Z) (e : S) :
  context_at s cx -> popped 5 cx s.(umem) m -> context_at (set_env (set_umem s m) e) cx.
Proof.
  intros Hc [Hp Hn] i Hi. unfold present. cbn [umem set_umem set_env].
  destruct (decide (12 <= i < 17)) as [Hin | Hout].
  - replace (cx +% 4 * i) with (reg_stack cx (i - 12)) by (unfold reg_stack; f_equal; lia). rewrite Hp by lia.
    unfold reg_stack. replace (48 + 4 * (i - 12 + 1)) with (4 * (i + 1)) by lia. apply Hc. lia.
  - rewrite Hn; [apply Hc, Hi|]. intros j Hj E. unfold reg_stack, uN in E. change (2 ^ 32) with 4294967296 in E. lia.
Qed.

Lemma segfault_run (s : k) (a : pcb) (err code addr : Z) (m : gmap Z Z) (e : S) :
  user_fault s a err -> popped 5 a.(esp) s.(umem) m ->
  exists s', segfault kprintf code err addr (set_env (set_umem s m) e) = Ok (tt, s') /\
    s'.(umem) = m /\ undisturbed s s' /\ segv_pending s s' a /\ printed e s'.(env).
Proof.
  intros F Hpop. set (s1 := set_umem s m). unfold segfault.
  destruct (prints_kprint s1 (ln "Segmentation fault: %s mode %s at 0x%p%s")
    [PStr (if err_has err PGF_USER then "user" else "kernel"); PStr (if err_has err PGF_WRITE then "write" else "read");
     PInt addr; PStr (if err_has err PGF_PERM then "" else " (page not present)")] e) as (e1 & E1 & P1).
  rewrite (bind_ok _ _ _ _ _ E1). cbv beta. erewrite bind_ok by reflexivity. cbv beta.
  pose proof (context_popped s a.(esp) m e1 (uf_cx _ _ _ F) Hpop) as Hc1.
  rewrite (bind_ok _ _ _ _ _ (proc_run (set_env s1 e1) s.(current) a (uf_cur _ _ _ F) (uf_proc _ _ _ F))).
  destruct (prints_context s1 a.(esp) (context_popped s a.(esp) m s1.(env) (uf_cx _ _ _ F) Hpop) e1) as (e2 & E2 & P2).
  rewrite (bind_ok _ _ _ _ _ E2). cbv beta.
  destruct (uf_user _ _ _ F) as (cs & Hcs & Huser).
  erewrite bind_ok.
  2: { unfold is_kernel_context. erewrite bind_ok; [reflexivity|]. apply mload_run. cbn [umem set_env s1 set_umem].
       change (cx_cs a.(esp)) with (reg_stack a.(esp) 1). rewrite (proj1 Hpop) by lia. exact Hcs. }
  cbv beta. rewrite Huser.
  destruct (kill_running (set_env s1 e2) s.(current) SIGSEGV code a eq_refl (uf_cur _ _ _ F) (uf_proc _ _ _ F) (uf_run _ _ _ F) eq_refl
    (uf_act _ _ _ F) (uf_info _ _ _ F)) as [l El].
  { apply (context_popped s a.(esp) m e2 (uf_cx _ _ _ F) Hpop 12). lia. }
  eexists. split; [exact El|]. split; [reflexivity|]. split; [repeat split|].
  split; [exists l; reflexivity | exact (printed_trans _ _ _ P1 P2)].
Qed.

(** The handler in terms of what the area answers.  Where it signals, printing is the
    only other change of the environment. *)
Lemma page_fault_run (s : k) (a : pcb) (err addr : Z) :
  user_fault s a err ->
  exists s', exn_page_fault kprintf addr s = Ok (tt, s') /\
    popped 5 a.(esp) s.(umem) s'.(umem) /\ undisturbed s s' /\
    match vma_get a.(mm) addr with
    | None => segv_pending s s' a /\ printed s.(env) s'.(env)
    | Some v =>
        let '(r, e) := resolve v err addr s.(env) in
        if r <? 0 then segv_pending s s' a /\ printed e s'.(env) else s'.(proctab) = s.(proctab) /\ s'.(env) = e
    end.
Proof.
  intros F. destruct (uf_user _ _ _ F) as (cs & Hcs & Huser).
  destruct (get_error_code_run s a.(esp) err cs (uf_cx _ _ _ F) (uf_err _ _ _ F) Hcs) as (m & Hg & Hpop). rewrite Huser in Hpop.
  unfold exn_page_fault. erewrite bind_ok by reflexivity. cbv beta.
  rewrite (bind_ok _ _ _ _ _ (proc_run s s.(current) a (uf_cur _ _ _ F) (uf_proc _ _ _ F))), (bind_ok _ _ _ _ _ Hg). cbv beta.
  assert (forall code e, exists s', segfault kprintf code err addr (set_env (set_umem s m) e) = Ok (tt, s') /\
    popped 5 a.(esp) s.(umem) s'.(umem) /\ undisturbed s s' /\ segv_pending s s' a /\ printed e s'.(env)) as Hsegv.
  { intros code e. destruct (segfault_run s a err code addr m e F Hpop) as (s' & E & <- & Hu & Hs & Hp). exists s'. auto. }
  destruct (vma_get a.(mm) addr) as [v |]; [| exact (Hsegv SEGV_MAPERR s.(env))].
  unfold resolve. destruct (negb (err_has err PGF_PERM)); [| destruct (err_has err PGF_WRITE)];
    match goal with |- context [on_env ?f] => destruct (f s.(env)) as [r e] eqn:Er end;
    (erewrite bind_ok by (unfold on_env; cbn [env set_umem]; rewrite Er; reflexivity)); cbv beta;
    destruct (r <? 0); try apply Hsegv; (eexists; split; [reflexivity|]; split; [exact Hpop|]; repeat split).
Qed.

(** Word [i] of the frame after the handler's [iret] for interrupted kernel code: the
    processor pops three words and leaves the stack pointer at word 3, while the
    interrupted code had it at word 4. *)
Lemma kernel_fault_leaves_word (s : k) (cx err cs : Z) :
  context_at s cx -> s.(umem) !! reg_stack cx 0 = Some err -> s.(umem) !! reg_stack cx 2 = Some cs ->
  Z.shiftr cs 3 = SEGNR_KCODE ->
  exists m, get_error_code cx s = Ok (err, set_umem s m) /\
    m !! reg_stack cx 3 = s.(umem) !! reg_stack cx 3 /\ m !! reg_stack cx 2 = s.(umem) !! reg_stack cx 3.
Proof.
  intros Hc He Hcs Hk. destruct (get_error_code_run s cx err cs Hc He Hcs) as (m & Hg & Hp & Hn). rewrite Hk in Hp, Hn.
  exists m. split; [exact Hg|]. split; [|exact (Hp 2 ltac:(cbn; lia))].
  apply Hn. intros i Hi E. cbn in Hi. apply reg_stack_inj in E; lia.
Qed.
End trap_proofs.

(** ** Page faults on the page tables of Paging.v *)

(** An environment whose page tables are those of Paging.v: [map_page] and [copy_page]
    are the functions there, where these return. *)
Class Paged (S : Type) `{V : VmaEnv S} : Type := {
  pages : S -> pg;
  with_pages : S -> pg -> S;
  pages_with s c : pages (with_pages s c) = c;
  map_page_paged addr flags s r c :
    Paging.map_page addr flags (pages s) = Ok (r, c) -> map_page addr flags s = (r, with_pages s c);
  copy_page_paged addr flags s r c :
    Paging.copy_page addr flags (pages s) = Ok (r, c) -> copy_page addr flags s = (r, with_pages s c);
}.

(** The address lies in an area; if its page is present, the access was a write and
    the area can be written. *)
Definition granted (mm : mm_struct) (err addr : Z) : Prop :=
  Exists (fun v => v.(vstart) <= addr < v.(vend) /\
            (err_has err PGF_PERM = false \/ err_has err PGF_WRITE = true /\ has v.(vflags) VM_WRITE = true)) mm.(mm_map).

(** The page tables at a fault: the page of [addr] is present with the contents [ws],
    or not present.  Two frames and two temporary windows are free. *)
Record fault_pages (c : pg) (m : slots) (cur addr : Z) (before : option (list Z)) : Prop := {
  fp_high : high_ok c;
  fp_frames : frames_ok c;
  fp_slots : slots_ok m;
  fp_windows : (size m < 1013)%nat;
  fp_pool : (2 <= length c.(frame_pool))%nat;
  fp_addr : in_u32 addr;
  fp_page : match before with
            | Some ws => exists tab pte f r, user_mapping c cur addr tab pte f r /\ c.(ram) !! frame_addr c f = Some ws
            | None => page_absent c cur addr
            end;
}.

(** The page of [addr] afterwards, in the area [v]: a frame of its own.  A page that was
    present keeps its contents and becomes writable; a new one gets the permissions of
    the area, and zeros if the area asks for them. *)
Definition resolved (v : vma) (c : pg) (m : slots) (cur addr : Z) (before : option (list Z)) (after : pg) : Prop :=
  exists c' tab pte g, after = view c' m /\ remapped c c' cur addr tab pte g /\
    match before with
    | Some ws => has pte PE_RW = true /\ c'.(ram) !! frame_addr c' g = Some ws
    | None => has pte PE_RW = has v.(vflags) VM_WRITE /\ has pte PE_U = has v.(vflags) VM_READ /\
        (has v.(vflags) VM_ZERO = true -> c'.(ram) !! frame_addr c' g = Some zero_page)
    end.

Section paged_faults.

Context {S : Type} `{V : VmaEnv S} {P : Paged S} (kprintf : string -> list parg -> S -> S).
Hypothesis kprintf_pages : forall fmt args e, pages (kprintf fmt args e) = pages e.

Lemma printed_pages (e e' : S) : printed kprintf e e' -> pages e' = pages e.
Proof. induction 1 as [| e e' fmt args _ IH]; [reflexivity|]. rewrite IH. apply kprintf_pages. Qed.

Lemma granted_iff (mm : mm_struct) (err addr : Z) :
  mm_ok mm ->
  granted mm err addr <-> exists v, vma_get mm addr = Some v /\
    (err_has err PGF_PERM = false \/ err_has err PGF_WRITE = true /\ has v.(vflags) VM_WRITE = true).
Proof.
  intros Hok. unfold granted. rewrite Exists_exists. split; intros (v & H1 & H2); exists v.
  - rewrite (vma_get_spec mm addr v Hok), vma_contains_iff. tauto.
  - rewrite (vma_get_spec mm addr v Hok), vma_contains_iff in H1. tauto.
Qed.

(** What an area without operations answers. *)
Lemma resolve_plain (v : vma) (e : S) (c : pg) (m : slots) (cur err addr : Z) (before : option (list Z)) :
  vma_ops v.(vop) = None -> pages e = view c m -> fault_pages c m cur addr before ->
  err_has err PGF_PERM = bool_decide (is_Some before) ->
  if bool_decide (err_has err PGF_PERM = false \/ err_has err PGF_WRITE = true /\ has v.(vflags) VM_WRITE = true)
  then exists e', resolve v err addr e = (0, e') /\ resolved v c m cur addr before (pages e')
  else resolve v err addr e = (- EFAULT, e).
Proof.
  intros Hop He [Hh Hf Hm Hw Hp Ha Hb] Hperm. unfold resolve, vm_map_page, vm_write_perm, vm_read_perm, vop_of. rewrite Hop, Hperm.
  destruct before as [ws |].
  - rewrite (bool_decide_eq_true_2 (is_Some (Some ws))) by eauto. destruct (err_has err PGF_WRITE); cbn [negb].
    2: { rewrite bool_decide_eq_false_2 by (intros [? | [? ?]]; discriminate). reflexivity. }
    destruct (has v.(vflags) VM_WRITE) eqn:Hvw; [| rewrite bool_decide_eq_false_2 by (intros [? | [? ?]]; discriminate); reflexivity].
    rewrite bool_decide_eq_true_2 by auto. destruct Hb as (tab & pte & f & r & U & Hws).
    destruct (copy_page_remaps c m cur addr v.(vflags) tab pte f r ws) as (c' & pte' & g & E & R & Hrw & Hc); auto.
    { intros E. rewrite E in Hp. cbn in Hp. lia. }
    rewrite <- He in E. rewrite (copy_page_paged addr v.(vflags) e 0 _ E). eexists. split; [reflexivity|].
    rewrite pages_with. exists c', tab, pte', g. auto.
  - rewrite (bool_decide_eq_false_2 (is_Some None)) by (intros [? ?]; discriminate). rewrite bool_decide_eq_true_2 by auto. cbn [negb].
    destruct (map_page_absent c m cur addr v.(vflags)) as (c' & tab & pte & g & E & R & _ & H1 & H2 & H3); auto; [unfold room; lia|].
    rewrite <- He in E. rewrite (map_page_paged addr v.(vflags) e 0 _ E). eexists. split; [reflexivity|].
    rewrite pages_with. exists c', tab, pte, g. auto.
Qed.


End paged_faults.

(** The page tables themselves as the environment, with the two functions a page fault
    calls. *)
Definition or_else (m : ST pg Z) (s : pg) : Z * pg :=
  match m s with Ok x => x | _ => (- ENOMEM, s) end.

Definition page_tables : VmaEnv pg := {|
  alloc_vma s := None;
  free_vma _ s := s;
  map_page addr flags := or_else (Paging.map_page addr flags);
  copy_page addr flags := or_else (Paging.copy_page addr flags);
  pm_unmap _ s := (0, s);
  pm_disable_write _ s := (0, s);
  new_pgdir s := (0, s);
  clone_pgdir s := (0, s);
  free_pgdir _ s := s;
  vma_ops _ := None;
|}.

#[refine] Definition paged_tables : @Paged pg page_tables := {| pages s := s; with_pages _ c := c |}.
Proof.
  - reflexivity.
  - intros addr flags s r c E. cbn. unfold or_else. rewrite E. reflexivity.
  - intros addr flags s r c E. cbn. unfold or_else. rewrite E. reflexivity.
Defined.

(** A process whose area has one page shared with another address space, one page that
    is not present, and, 4 MB above, a page without a page table. *)
Definition fault_pcb : pcb :=
  Pcb 0 4000 0 (MM 8388608 [Vma 1 20480 28672 14 0 0; Vma 2 8388608 8392704 12 0 0] 0) 7 1 0 PROC_RUNNING [] [] 0 [] 0
    (SigStruct 0 0 0 (replicate 32 (SigAction 0 0 0)) (replicate 32 (SigInfo 0 0 0 0 0 0 0 0 0))) [] 0 0.

Definition fault_kst (err : Z) : kst pg :=
  Kst [fault_pcb] 0 [] [] 256 (Timers ∅ [] 0)
    (<[4048 := err]> (<[4052 := 134512640]> (<[4056 := 27]> (list_to_map ((fun i => (4000 + 4 * i, 0)) <$> zseq 0 18)))))
    (view pg_example left_over).

Lemma fault_kst_ok (err : Z) : user_fault (fault_kst err) fault_pcb err.
Proof.
  split; try (eexists; reflexivity); try reflexivity; [| exists 27; split; reflexivity].
  assert (Forall (fun i => is_Some ((fault_kst err).(umem) !! (4000 +% 4 * i))) (zseq 0 18)) as Hall
    by (repeat (constructor; [eexists; vm_compute; reflexivity|]); constructor).
  intros i Hi. apply (proj1 (Forall_forall _ _) Hall i). apply elem_of_zseq. lia.
Qed.

Lemma fault_pcb_ok : mm_ok fault_pcb.(mm).
Proof.
  split; [repeat (constructor; [cbv; split_and!; congruence|]); constructor|].
  repeat constructor; cbv; congruence.
Qed.

Lemma example_current : current_ok pg_example 8388608.
Proof. apply pg_example_mapping. Qed.

Lemma fault_present : fault_pages pg_example left_over 8388608 20484 (Some data_page).
Proof.
  split; [apply pg_example_high | apply pg_example_frames | apply left_over_ok | vm_compute; lia | cbn; lia | cbv; split; congruence |].
  eexists _, _, _, _. split; [apply pg_example_mapping | reflexivity].
Qed.

Lemma fault_absent (addr : Z) : addr = 24600 \/ addr = 8389000 -> fault_pages pg_example left_over 8388608 addr None.
Proof.
  intros Ha.
  split; [apply pg_example_high | apply pg_example_frames | apply left_over_ok | vm_compute; lia | cbn; lia | word_lia |].
  destruct Ha as [-> | ->].
  - right. exists 8396800, 0. split; [|reflexivity]. destruct pg_example_mapping as [Hcur _ _ _ _ _ (H1 & H2 & _) _ Hused Hlen].
    split; auto. eexists _, _, _. split_and!; reflexivity.
  - left. split; [apply example_current | | apply pg_example_mapping].
    eexists _, _. split_and!; reflexivity.
Qed.

