(* ===== verification/Exec.v ===== *)
(** * Program execution (dispatch/process.c, include/kernel/elf.h)

    [sys_execve]: checking the arguments, carrying the argument strings over the
    change of address space, and loading an ELF image.

    User memory and the kernel heap are one map of bytes, as in Cstring: an address
    is in it when the page is mapped or would be mapped by a page fault.  Creating a
    zero-filled area adds its bytes; [mm_exec] removes those of the areas it unmaps;
    a file mapping adds the pages of the file that faults would read, all at once when
    it is created, where [mmap_map] reads each page at its first fault: a change of the
    file in between is not seen here.  The words of
    kernel stacks, which hold the context, are in [umem].  Path lookup and files,
    which Namei and Fileops model, are an interface here. *)

From S2P Require Import Vfs Cstring Prelude Bitops Abi Addr Vma Mmap Timer Sig Sched Signal Process.

(** ** ELF files *)

Definition EI_CLASS : Z := 4.
Definition EI_DATA : Z := 5.
Definition ELF_CLASS_32 : Z := 1.
Definition ELF_DATA_LSB : Z := 1.
Definition ELF_PHTYPE_LOAD : Z := 1.
Definition ELF_PHTYPE_DYNAMIC : Z := 2.
Definition ELF_PHTYPE_INTERP : Z := 3.
Definition ELF_PHTYPE_SHLIB : Z := 5.

Record elf32_hdr : Type := ElfHdr {
  ident : list Z;
  e_type : Z;
  e_machine : Z;
  e_version : Z;
  e_entry : Z;
  e_phoff : Z;
  e_shoff : Z;
  e_flags : Z;
  e_ehsize : Z;
  e_phentsize : Z;
  e_phnum : Z;
  e_shentsize : Z;
  e_shnum : Z;
  e_shstrndx : Z;
}.

Record elf32_phdr : Type := ElfPhdr {
  ph_type : Z;
  ph_offset : Z;
  ph_vaddr : Z;
  ph_paddr : Z;
  ph_filesz : Z;
  ph_memsz : Z;
  ph_flags : Z;
  ph_align : Z;
}.

Definition sizeof_hdr : Z := 52.
Definition sizeof_phdr : Z := 32.

(** The little-endian number in the first [n] bytes. *)
Fixpoint le_num (n : nat) (b : list Z) : Z :=
  match n, b with
  | S n, x :: b => x + 256 * le_num n b
  | _, _ => 0
  end.

(** [n] bytes at offset [off]. *)
Definition le_at (n : nat) (off : nat) (b : list Z) : Z := le_num n (drop off b).

(** The packed structures as they lie in a buffer. *)
Definition hdr_of (b : list Z) : elf32_hdr :=
  ElfHdr (take 16 b) (le_at 2 16 b) (le_at 2 18 b) (le_at 4 20 b) (le_at 4 24 b) (le_at 4 28 b) (le_at 4 32 b)
    (le_at 4 36 b) (le_at 2 40 b) (le_at 2 42 b) (le_at 2 44 b) (le_at 2 46 b) (le_at 2 48 b) (le_at 2 50 b).

Definition phdr_of (b : list Z) : elf32_phdr :=
  ElfPhdr (le_at 4 0 b) (le_at 4 4 b) (le_at 4 8 b) (le_at 4 12 b) (le_at 4 16 b) (le_at 4 20 b) (le_at 4 24 b)
    (le_at 4 28 b).

Definition elf_magic : list Z := [127; 69; 76; 70].

Definition elf_header_valid (h : elf32_hdr) : bool :=
  if negb (bool_decide (take 4 h.(ident) = elf_magic)) then false
  else if negb (default 0 (h.(ident) !! Z.to_nat EI_CLASS) =? ELF_CLASS_32) then false
  else if negb (default 0 (h.(ident) !! Z.to_nat EI_DATA) =? ELF_DATA_LSB) then false
  else true.

Definition elf_program_header_valid (h : elf32_phdr) : bool :=
  if (h.(ph_type) =? ELF_PHTYPE_DYNAMIC) || (h.(ph_type) =? ELF_PHTYPE_INTERP) ||
     (h.(ph_type) =? ELF_PHTYPE_SHLIB)
  then false else true.

(** ** Interface *)

(** The byte memory, the kernel heap, and what [sys_execve] uses of the file system:
    [namei], [inode->i_mode], [file_open] for reading, whether the file can be read,
    and its read operation, which returns the count and the bytes. *)
Class ExecEnv (B : Type) : Type := {
  x_mem : B -> mem;
  x_set_mem : mem -> B -> B;
  x_kmalloc : Z -> B -> Z * B;
  x_kfree : Z -> B -> B;
  x_namei : list Z -> mstate B -> Z * Z * mstate B;
  x_mode : Z -> mstate B -> Z;
  x_open : Z -> mstate B -> Z * Z * mstate B;
  x_readable : Z -> mstate B -> bool;
  x_read : Z -> Z -> Z -> mstate B -> Z * list Z * mstate B;
}.

(** The bytes of a word. *)
Definition word_bytes (w : Z) : list Z := [u8 w; u8 (Z.shiftr w 8); u8 (Z.shiftr w 16); u8 (Z.shiftr w 24)].

Definition load32 (m : mem) (a : Z) : res Z :=
  do b0 <- ld m a;
  do b1 <- ld m (a +% 1);
  do b2 <- ld m (a +% 2);
  do b3 <- ld m (a +% 3);
  Ok (le_num 4 [b0; b1; b2; b3]).

Definition store32 (m : mem) (a w : Z) : res mem :=
  do m <- sto m a w;
  do m <- sto m (a +% 1) (Z.shiftr w 8);
  do m <- sto m (a +% 2) (Z.shiftr w 16);
  sto m (a +% 3) (Z.shiftr w 24).

(** [n] bytes from [a] on, taken from [l]. *)
Fixpoint put_bytes (m : mem) (a : Z) (l : list Z) : mem :=
  match l with
  | [] => m
  | b :: l => put_bytes (<[a := b]> m) (a + 1) l
  end.

(** The bytes outside the areas. *)
Definition unmap_bytes (l : list vma) (m : mem) : mem :=
  filter (fun x => Forall (fun v => vma_contains v x.1 = false) l) m.

(** ** Arguments *)

(** [struct exec_args]: the offsets of [pathname.len], [pathname.str], [argv],
    [envp], [argc] and [envc]; [struct _Telos_string] is a length and a pointer. *)
Definition sizeof_exec_args : Z := 24.
Definition XA_PATH_LEN : Z := 0.
Definition XA_PATH_STR : Z := 4.
Definition XA_ARGV : Z := 8.
Definition XA_ENVP : Z := 12.
Definition XA_ARGC : Z := 16.
Definition XA_ENVC : Z := 20.
Definition sizeof_string : Z := 8.

Section exec.

Context {B : Type} `{V : VmaEnv B} `{Mm : MmapEnv B} `{X : ExecEnv B}.

(** Default actions, see Sig. *)
Context (sig_terminate sig_stop : Z).

Abbreviation M := (ST (kst (mstate B))).

Definition bytes : M mem := gets (fun s => x_mem s.(env).(base)).

Definition set_bytes (m : mem) : M unit :=
  modify (fun s => let e := s.(env) in set_env s (MState e.(privates) e.(f_count) (x_set_mem m e.(base)))).

Definition base_do {A : Type} (f : B -> A * B) : M A := on_env (lift f).

(** [p->field] for a word field at offset [off]. *)
Definition wload (p off : Z) : M Z := m ← bytes; st_res (load32 m (p +% off)).

Definition wstore (a w : Z) : M unit := m ← bytes; m ← st_res (store32 m a w); set_bytes m.

Definition xmemcpy (dst src n : Z) : M unit := m ← bytes; m ← st_res (Cstring.memcpy m dst src n); set_bytes m.

(** [arr[i].len] and [arr[i].str], where [arr] is the field of [*args] at [off]. *)
Definition str_len (args off i : Z) : M Z := p ← wload args off; wload p (sizeof_string * i).

Definition str_ptr (args off i : Z) : M Z := p ← wload args off; wload p (sizeof_string * i + 4).

Definition verify_user_string (str len : Z) : M Z :=
  a ← cur_proc;
  if negb (vm_verify a.(mm) str len 0 =? 0) then mret (- EFAULT)
  else
    m ← bytes;
    b ← st_res (ld m (str +% len));
    if negb (b =? 0) then mret (- EINVAL) else mret 0.

(** The strings of the array at [off], from the [i]th to the last. *)
Fixpoint verify_strings (n : nat) (args off i : Z) : M Z :=
  match n with
  | O => mret 0
  | S n =>
      str ← str_ptr args off i;
      len ← str_len args off i;
      error ← verify_user_string str len;
      if negb (error =? 0) then mret error else verify_strings n args off (i + 1)
  end.

(** [vm_verify] of [n] bytes at [p] for reading. *)
Definition unreadable (p n : Z) : M bool :=
  a ← cur_proc;
  mret (negb (vm_verify a.(mm) p n VM_READ =? 0)).

Definition verify_exec_args (args : Z) : M Z :=
  bad ← unreadable args sizeof_exec_args;
  if bad : bool then mret (- EFAULT)
  else
    argv ← wload args XA_ARGV;
    argc ← wload args XA_ARGC;
    bad ← unreadable argv (sizeof_string *% argc);
    if bad : bool then mret (- EFAULT)
    else
      envp ← wload args XA_ENVP;
      envc ← wload args XA_ENVC;
      bad ← unreadable envp (sizeof_string *% envc);
      if bad : bool then mret (- EFAULT)
      else
        str ← wload args XA_PATH_STR;
        len ← wload args XA_PATH_LEN;
        error ← verify_user_string str len;
        if negb (error =? 0) then mret error
        else
          error ← verify_strings (Z.to_nat argc) args XA_ARGV 0;
          if negb (error =? 0) then mret error
          else verify_strings (Z.to_nat envc) args XA_ENVP 0.

(** The lengths of [n] strings from the [i]th on, with their terminators, added to
    [size]. *)
Fixpoint strings_size (n : nat) (args off i size : Z) : M Z :=
  match n with
  | O => mret size
  | S n => len ← str_len args off i; strings_size n args off (i + 1) (size +% (len +% 1))
  end.

Definition exec_mem_needed (args : Z) : M Z :=
  argc ← wload args XA_ARGC;
  envc ← wload args XA_ENVC;
  let size := 0 +% ((argc +% 1) *% 4) in
  let size := size +% ((envc +% 1) *% 4) in
  size ← strings_size (Z.to_nat argc) args XA_ARGV 0 size;
  strings_size (Z.to_nat envc) args XA_ENVP 0 size.

(** Copies [n] strings from the [i]th on to [mem]; the address after them. *)
Fixpoint copy_strings (n : nat) (args off i mem : Z) : M Z :=
  match n with
  | O => mret mem
  | S n =>
      str ← str_ptr args off i;
      len ← str_len args off i;
      xmemcpy mem str (len +% 1) ;;
      copy_strings n args off (i + 1) (mem +% (len +% 1))
  end.

(** Both arrays' strings, copied to [kmem] behind the room for the arrays. *)
Definition copy_args (args kmem : Z) : M unit :=
  argc ← wload args XA_ARGC;
  envc ← wload args XA_ENVC;
  let mem := kmem +% 4 * (argc + envc + 2) in
  mem ← copy_strings (Z.to_nat argc) args XA_ARGV 0 mem;
  _ ← copy_strings (Z.to_nat envc) args XA_ENVP 0 mem;
  mret tt.

(** The error, the heap block and its size. *)
Definition execve_copy_to_kernel (args : Z) : M (Z * Z * Z) :=
  size ← exec_mem_needed args;
  kmem ← base_do (x_kmalloc size);
  if kmem =? 0 then mret (- ENOMEM, 0, 0)
  else copy_args args kmem ;; mret (0, kmem, size).

(** Stores the addresses of [n] strings at [mem] into [arr], from the [i]th on; the
    address after the strings. *)
Fixpoint point_strings (n : nat) (args off arr i mem : Z) : M Z :=
  match n with
  | O => mret mem
  | S n =>
      wstore (arr +% 4 * i) mem ;;
      len ← str_len args off i;
      point_strings n args off arr (i + 1) (mem +% (len +% 1))
  end.

(** [vma_create_high] for a zero-filled area of the current process. *)
Definition create_zero_area (size flags : Z) : M (option vma) :=
  c ← cur;
  v ← on_mm c (fun mm s => vma_create_high mm user_base kernel_base size flags s);
  match v with
  | None => mret None
  | Some v =>
      m ← bytes;
      set_bytes (put_bytes m v.(vstart) (replicate (Z.to_nat (v.(vend) - v.(vstart))) 0)) ;;
      mret (Some v)
  end.

(** Fills the arrays at [argv] with the addresses of the strings behind them; the
    address of the second array. *)
Definition point_args (args argv : Z) : M Z :=
  argc ← wload args XA_ARGC;
  let envp := argv +% 4 * (argc + 1) in
  envc ← wload args XA_ENVC;
  let mem := envp +% 4 * (envc + 1) in
  mem ← point_strings (Z.to_nat argc) args XA_ARGV argv 0 mem;
  wstore (argv +% 4 * argc) 0 ;;
  _ ← point_strings (Z.to_nat envc) args XA_ENVP envp 0 mem;
  wstore (envp +% 4 * envc) 0 ;;
  mret envp.

(** The error, [argv] and [envp]. *)
Definition execve_copy_to_user (args kmem size : Z) : M (Z * Z * Z) :=
  v ← create_zero_area size (Z.lor (Z.lor VM_READ VM_WRITE) VM_ZERO);
  match v with
  | None => mret (- ENOMEM, 0, 0)
  | Some v =>
      xmemcpy v.(vstart) kmem size ;;
      envp ← point_args args v.(vstart);
      base_do (fun b => (tt, x_kfree kmem b)) ;;
      mret (0, v.(vstart), envp)
  end.

(** [mm_exec] for the current process: the bytes of the areas it drops go away. *)
Definition exec_unmap : M unit :=
  c ← cur;
  a ← proc c;
  on_mm c (fun mm s => let '(mm, s) := mm_exec mm s in (tt, mm, s)) ;;
  a' ← proc c;
  m ← bytes;
  set_bytes (unmap_bytes (List.filter (fun v => negb (existsb (fun w => w.(vid) =? v.(vid)) a'.(mm).(mm_map))) a.(mm).(mm_map)) m).

(** The arguments carried to the new address space, between the calls of
    [execve_copy_to_kernel] and [execve_copy_to_user] in [sys_execve]. *)
Definition carry_args (args : Z) : M (Z * Z * Z) :=
  r ← execve_copy_to_kernel args;
  let '(error, ptr, size) := r in
  if negb (error =? 0) then mret (error, 0, 0)
  else
    exec_unmap ;;
    execve_copy_to_user args ptr size.

(** ** Loading *)

Definition elf_read_program_header (file phoff : Z) : M (Z * elf32_phdr) :=
  r ← on_env (fun s => let '(n, b, s) := x_read file sizeof_phdr phoff s in ((n, b), s));
  let '(n, b) := r in
  if n <? 0 then mret (n, phdr_of [])
  else if n <? sizeof_phdr then mret (- EINVAL, phdr_of [])
  else mret (0, phdr_of b).

(** The bytes that faults on the pages from [page] on show, as far as they lie in the
    area: pages whose read fails are not there. *)
Fixpoint map_pages (n : nat) (v : vma) (file off page : Z) : M unit :=
  match n with
  | O => mret tt
  | S n =>
      r ← on_env (fun s => let '(k, b, s) := x_read file FRAME_SIZE (off +% (page -% v.(vstart))) s in ((k, b), s));
      let '(k, b) := r in
      m ← bytes;
      (if k <? 0 then mret tt
       else
         let l := take (Z.to_nat k) b ++ replicate (Z.to_nat (FRAME_SIZE - k)) 0 in
         let skip := Z.to_nat (v.(vstart) - page) in
         set_bytes (put_bytes m (page + Z.of_nat skip) (drop skip l))) ;;
      map_pages n v file off (page + FRAME_SIZE)
  end.

Definition pages_of (v : vma) : nat := Z.to_nat ((v.(vend) - page_base v.(vstart)) / FRAME_SIZE).

(** [memset] through a mapping: the first store to an area that is not writable is a
    fault in kernel mode. *)
Definition user_memset (v : vma) (a n : Z) : M unit :=
  if (0 <? n) && negb (has v.(vflags) VM_WRITE) then panic
  else m ← bytes; m ← st_res (Cstring.memset m a 0 n); set_bytes m.

Definition elf_map_segment (file : Z) (h : elf32_phdr) : M Z :=
  c ← cur;
  r ← on_mm c (fun mm s =>
        let '(error, vaddr, mm, s) :=
          do_mmap mm file h.(ph_vaddr) h.(ph_memsz) (Z.land h.(ph_flags) 7) MAP_FIXED h.(ph_offset) s in
        ((error, vaddr), mm, s));
  let '(error, vaddr) := r in
  if negb (error =? 0) then mret error
  else
    a ← proc c;
    match vma_get a.(mm) vaddr with
    | None => fault
    | Some v =>
        map_pages (pages_of v) v file h.(ph_offset) (page_base v.(vstart)) ;;
        (if h.(ph_filesz) <? h.(ph_memsz)
         then user_memset v (vaddr +% h.(ph_filesz)) (h.(ph_memsz) - h.(ph_filesz)) else mret tt) ;;
        mret 0
    end.

(** The program headers from the [i]th on, the first at [pos]; whether all were
    loaded. *)
Fixpoint load_segments (n : nat) (file phentsize pos : Z) : M bool :=
  match n with
  | O => mret true
  | S n =>
      r ← elf_read_program_header file pos;
      let '(error, h) := r in
      if negb (error =? 0) then mret false
      else if negb (elf_program_header_valid h) then mret false
      else if negb (h.(ph_type) =? ELF_PHTYPE_LOAD) then load_segments n file phentsize (pos +% phentsize)
      else
        error ← elf_map_segment file h;
        if negb (error =? 0) then mret false else load_segments n file phentsize (pos +% phentsize)
  end.

(** The entry point, 0 for [NULL]. *)
Definition load_elf (inode : Z) : M Z :=
  r ← on_env (fun s => let '(error, file, s) := x_open inode s in ((error, file), s));
  let '(error, file) := r in
  if negb (error =? 0) then mret 0
  else
    readable ← gets (fun s => x_readable file s.(env));
    if negb readable then mret 0
    else
      r ← on_env (fun s => let '(n, b, s) := x_read file sizeof_hdr 0 s in ((n, b), s));
      let '(n, b) := r in
      if (n <? 0) || (n <? sizeof_hdr) then mret 0
      else
        let h := hdr_of b in
        if negb (elf_header_valid h) then mret 0
        else
          ok ← load_segments (Z.to_nat h.(e_phnum)) file h.(e_phentsize) h.(e_phoff);
          if ok : bool then mret h.(e_entry) else mret 0.

(** ** The system call *)

(** The NUL-terminated string at [a]. *)
Fixpoint string_at (n : nat) (m : mem) (a : Z) : res (list Z) :=
  match n with
  | O => Fault
  | S n => do b <- ld m a; if b =? 0 then Ok [] else do l <- string_at n m (a + 1); Ok (b :: l)
  end.

Definition sys_execve (args : Z) : M Z :=
  error ← verify_exec_args args;
  if negb (error =? 0) then mret error
  else
    str ← wload args XA_PATH_STR;
    m ← bytes;
    path ← st_res (string_at (turns m) m str);
    r ← on_env (fun s => let '(error, inode, s) := x_namei path s in ((error, inode), s));
    let '(error, inode) := r in
    if negb (error =? 0) then mret error
    else
      mode ← gets (fun s => x_mode inode s.(env));
      if negb (S_ISREG mode) then mret (- EACCES)
      else
        r ← carry_args args;
        let '(error, argv, envp) := r in
        if negb (error =? 0) then mret error
        else
          entry ← load_elf inode;
          if entry =? 0 then mret (- ENOMEM)
          else
            c ← cur;
            a ← proc c;
            sg ← st_res (sig_exec sig_terminate sig_stop a.(sig));
            let ifp := KSTACK_END - 16 in
            let esp := ifp - sizeof_ucontext in
            upd c (fun a => p_cx (p_sig a sg) esp ifp) ;;
            let usp := STACK_END - 16 in
            put_iret_uframe esp entry usp ;;
            argc ← wload args XA_ARGC;
            wstore usp argc ;;
            wstore (usp +% 4) argv ;;
            wstore (usp +% 8) envp ;;
            mret 0.

End exec.

(** ** Blocks of bytes *)

Definition is_byte (b : Z) : Prop := 0 <= b < 256.

(** The bytes [l] lie at [a]. *)
Definition block_at (m : mem) (a : Z) (l : list Z) : Prop :=
  forall i b, l !! i = Some b -> m !! (a + Z.of_nat i) = Some b.

Lemma lookup_put_bytes (m : mem) (a : Z) (l : list Z) (x : Z) :
  put_bytes m a l !! x =
  if decide (a <= x < a + Z.of_nat (length l)) then l !! Z.to_nat (x - a) else m !! x.
Proof.
  revert m a. induction l as [| b l IH]; intros m a; simpl.
  - rewrite decide_False by lia. reflexivity.
  - rewrite IH. destruct (decide (x = a)) as [-> | Hne].
    + rewrite decide_False, decide_True by lia. rewrite lookup_insert_eq, Z.sub_diag. reflexivity.
    + rewrite lookup_insert_ne by congruence. repeat case_decide; try lia; [|reflexivity].
      replace (Z.to_nat (x - a)) with (S (Z.to_nat (x - (a + 1)))) by lia. reflexivity.
Qed.

Lemma put_bytes_out (m : mem) (a : Z) (l : list Z) (x : Z) :
  x < a \/ a + Z.of_nat (length l) <= x -> put_bytes m a l !! x = m !! x.
Proof. intros H. rewrite lookup_put_bytes, decide_False by lia. reflexivity. Qed.

Lemma block_put (m : mem) (a : Z) (l : list Z) : block_at (put_bytes m a l) a l.
Proof.
  intros i b Hi. pose proof (lookup_lt_Some _ _ _ Hi). rewrite lookup_put_bytes, decide_True by lia.
  replace (Z.to_nat (a + Z.of_nat i - a)) with i by lia. exact Hi.
Qed.

Lemma block_agree (m m' : mem) (a : Z) (l : list Z) :
  block_at m a l -> (forall x, a <= x < a + Z.of_nat (length l) -> m' !! x = m !! x) -> block_at m' a l.
Proof. intros H Hm i b Hi. pose proof (lookup_lt_Some _ _ _ Hi). rewrite Hm by lia. exact (H i b Hi). Qed.

Lemma block_app (m : mem) (a : Z) (l l' : list Z) :
  block_at m a (l ++ l') <-> block_at m a l /\ block_at m (a + Z.of_nat (length l)) l'.
Proof.
  split.
  - intros H. split.
    + intros i b Hi. apply H. apply lookup_app_l_Some, Hi.
    + intros i b Hi. rewrite <- Z.add_assoc, <- Nat2Z.inj_add. apply H. rewrite lookup_app_r by lia.
      replace (length l + i - length l)%nat with i by lia. exact Hi.
  - intros [H1 H2] i b Hi. destruct (decide (i < length l)%nat).
    + rewrite lookup_app_l in Hi by lia. exact (H1 i b Hi).
    + rewrite lookup_app_r in Hi by lia. specialize (H2 _ _ Hi). rewrite <- H2. f_equal. lia.
Qed.

Lemma put_bytes_app (m : mem) (a : Z) (l l' : list Z) :
  put_bytes m a (l ++ l') = put_bytes (put_bytes m a l) (a + Z.of_nat (length l)) l'.
Proof.
  revert m a. induction l as [| b l IH]; intros m a; simpl; [rewrite Z.add_0_r; reflexivity|].
  rewrite IH. f_equal. lia.
Qed.

Lemma u8_s8 (b : Z) : is_byte b -> u8 (s8 b) = b.
Proof.
  unfold is_byte. intros H. unfold sN, uN. cbv zeta. change (2 ^ 8) with 256. change (2 ^ (8 - 1)) with 128.
  rewrite (Z.mod_small b) by lia. destruct (Z.ltb_spec b 128); lia.
Qed.

(** Copying a block to addresses that are mapped and apart from it. *)
Lemma memcpy_put (m : mem) (dst src : Z) (l : list Z) :
  block_at m src l -> Forall is_byte l ->
  (forall i, 0 <= i < Z.of_nat (length l) -> is_Some (m !! (dst + i))) ->
  dst + Z.of_nat (length l) <= src \/ src + Z.of_nat (length l) <= dst ->
  Cstring.memcpy m dst src (Z.of_nat (length l)) = Ok (put_bytes m dst l).
Proof.
  unfold Cstring.memcpy. rewrite Nat2Z.id. revert m dst src. induction l as [| b l IH]; intros m dst src Hb Hl Hd Hap; [reflexivity|].
  apply Forall_cons in Hl as [Hb0 Hl]. simpl.
  pose proof (Hb 0%nat b eq_refl) as H0. rewrite Z.add_0_r in H0. unfold ldc, ld. rewrite H0. simpl.
  destruct (Hd 0 ltac:(simpl; lia)) as [x Hx]. rewrite Z.add_0_r in Hx. unfold sto. rewrite Hx. simpl.
  rewrite (u8_s8 b Hb0). apply IH.
  - intros i c Hi. pose proof (lookup_lt_Some _ _ _ Hi). simpl in Hap. rewrite lookup_insert_ne by lia.
    specialize (Hb (S i) c Hi). rewrite <- Hb. f_equal. lia.
  - exact Hl.
  - intros i Hi. rewrite lookup_insert. case_decide; [eauto|]. replace (dst + 1 + i) with (dst + (i + 1)) by lia. apply Hd. simpl. lia.
  - simpl in Hap. lia.
Qed.

(** ** Words *)

(** Word [w] lies at [a], at addresses that satisfy [K]. *)
Definition word_in (m : mem) (K : Z -> Prop) (a w : Z) : Prop :=
  0 <= a /\ a + 4 < 2 ^ 32 /\ in_u32 w /\ block_at m a (word_bytes w) /\ forall j, 0 <= j < 4 -> K (a + j).

Lemma word_bytes_num (w : Z) : in_u32 w -> le_num 4 (word_bytes w) = w.
Proof.
  unfold in_u32. intros H. unfold word_bytes, uN. rewrite !Z.shiftr_div_pow2 by lia. simpl le_num. lia.
Qed.

Lemma word_in_load (m : mem) (K : Z -> Prop) (a w : Z) : word_in m K a w -> load32 m a = Ok w.
Proof.
  intros (H0 & H1 & Hw & Hb & _). unfold load32, ld.
  pose proof (Hb 0%nat _ eq_refl) as B0. pose proof (Hb 1%nat _ eq_refl) as B1.
  pose proof (Hb 2%nat _ eq_refl) as B2. pose proof (Hb 3%nat _ eq_refl) as B3. 
  change (Z.of_nat 0) with 0 in B0. change (Z.of_nat 1) with 1 in B1. change (Z.of_nat 2) with 2 in B2. change (Z.of_nat 3) with 3 in B3.
  rewrite Z.add_0_r in B0. rewrite !uN_id by lia. rewrite B0, B1, B2, B3. cbn [res_bind]. f_equal.
  exact (word_bytes_num w Hw).
Qed.

Lemma word_in_agree (m m' : mem) (K : Z -> Prop) (a w : Z) :
  word_in m K a w -> (forall x, K x -> m' !! x = m !! x) -> word_in m' K a w.
Proof.
  intros (H0 & H1 & Hw & Hb & HK) Hm. repeat split; try assumption; try apply Hw.
  eapply block_agree; [exact Hb|]. intros x Hx. apply Hm. replace x with (a + (x - a)) by lia. apply HK.
  change (Z.of_nat (length (word_bytes w))) with 4 in Hx. lia.
Qed.

Lemma store32_put (m : mem) (a w : Z) :
  0 <= a -> a + 4 < 2 ^ 32 -> (forall j, 0 <= j < 4 -> is_Some (m !! (a + j))) ->
  store32 m a w = Ok (put_bytes m a (word_bytes w)).
Proof.
  intros H0 H1 Hp. unfold store32, sto. rewrite (uN_id 32 (a + 1)), (uN_id 32 (a + 2)), (uN_id 32 (a + 3)) by lia.
  destruct (Hp 0 ltac:(lia)) as [b0 B0], (Hp 1 ltac:(lia)) as [b1 B1], (Hp 2 ltac:(lia)) as [b2 B2], (Hp 3 ltac:(lia)) as [b3 B3].
  rewrite Z.add_0_r in B0. rewrite B0. cbn [res_bind].
  rewrite lookup_insert_ne, B1 by lia. cbn [res_bind].
  rewrite !lookup_insert_ne, B2 by lia. cbn [res_bind].
  rewrite !lookup_insert_ne, B3 by lia.
  unfold word_bytes. cbn [put_bytes]. rewrite <- !Z.add_assoc. reflexivity.
Qed.

(** ** What the interface promises *)

(** Bytes are read back as written; the caches of kernel objects and the page tables
    do not change what user memory and the heap hold; a heap block is new memory in
    the kernel's part of the address space; releasing one leaves user memory alone. *)
Class ExecLaws (B : Type) `{V : VmaEnv B} `{Mm : MmapEnv B} `{X : ExecEnv B} : Prop := {
  x_get_set (m : mem) (b : B) : x_mem (x_set_mem m b) = m;
  x_set_set (m m' : mem) (b : B) : x_set_mem m' (x_set_mem m b) = x_set_mem m' b;
  x_set_get (b : B) : x_set_mem (x_mem b) b = b;
  x_alloc_vma (b b' : B) (p : Z) : alloc_vma b = Some (p, b') -> x_mem b' = x_mem b;
  x_free_vma (b : B) (p : Z) : x_mem (free_vma p b) = x_mem b;
  x_pm_unmap (b : B) (v : vma) : x_mem (pm_unmap v b).2 = x_mem b;
  x_free_private (b : B) (p : Z) : x_mem (free_private_obj p b) = x_mem b;
  x_kmalloc_ok (n : Z) (b b' : B) (p : Z) :
    0 < n -> x_kmalloc n b = (p, b') -> p <> 0 ->
    kernel_base <= p /\ p + n < 2 ^ 32 /\
    (forall x c, x_mem b !! x = Some c -> ~ (p <= x < p + n) /\ x_mem b' !! x = Some c) /\
    (forall x, p <= x < p + n -> exists c, x_mem b' !! x = Some c /\ is_byte c);
  x_kfree_ok (b : B) (p x : Z) : x < kernel_base -> x_mem (x_kfree p b) !! x = x_mem b !! x;
}.

(** ** Argument lists *)

(** An argument: the pointer and the string in the caller's memory. *)
Abbreviation arg := (Z * list Z)%type.

(** The array at [p] describes the arguments, at addresses that satisfy [K]. *)
Definition arr_at (m : mem) (K : Z -> Prop) (p : Z) (l : list arg) : Prop :=
  forall i q s, l !! i = Some (q, s) ->
    word_in m K (p + 8 * Z.of_nat i) (Z.of_nat (length s)) /\ word_in m K (p + 8 * Z.of_nat i + 4) q.

(** The field of [*args] at [off] points to such an array. *)
Definition list_at (m : mem) (K : Z -> Prop) (args off : Z) (l : list arg) : Prop :=
  exists p, word_in m K (args + off) p /\ arr_at m K p l.

(** [struct exec_args] without the path. *)
Record args_at (m : mem) (K : Z -> Prop) (args : Z) (argv envp : list arg) : Prop := {
  aa_argv : list_at m K args XA_ARGV argv;
  aa_envp : list_at m K args XA_ENVP envp;
  aa_argc : word_in m K (args + XA_ARGC) (Z.of_nat (length argv));
  aa_envc : word_in m K (args + XA_ENVC) (Z.of_nat (length envp));
}.

(** The strings one after the other, each with its terminator. *)
Definition blob (l : list arg) : list Z := concat ((fun x => x.2 ++ [0]) <$> l).

(** A string that can be read outside [lo, hi). *)
Definition readable (m : mem) (lo hi : Z) (x : arg) : Prop :=
  0 <= x.1 /\ x.1 + Z.of_nat (length x.2) + 1 < 2 ^ 32 /\ block_at m x.1 (x.2 ++ [0]) /\ Forall is_byte x.2 /\
  (x.1 + Z.of_nat (length x.2) + 1 <= lo \/ hi <= x.1).

(** Addresses of strings that lie one after the other from [a] on. *)
Fixpoint ptrs (a : Z) (l : list arg) : list Z :=
  match l with
  | [] => []
  | x :: l => a :: ptrs (a + Z.of_nat (length x.2) + 1) l
  end.

Definition words (l : list Z) : list Z := concat (word_bytes <$> l).

(** The new array and strings at [a]. *)
Definition arg_image (a : Z) (argv envp : list arg) : list Z :=
  let b := a + 4 * Z.of_nat (length argv + length envp + 2) in
  words (ptrs b argv ++ [0] ++ ptrs (b + Z.of_nat (length (blob argv))) envp ++ [0]) ++ blob argv ++ blob envp.

Lemma blob_cons (x : arg) (l : list arg) : blob (x :: l) = (x.2 ++ [0]) ++ blob l.
Proof. reflexivity. Qed.

Lemma length_words (l : list Z) : length (words l) = (4 * length l)%nat.
Proof. unfold words. induction l as [| x l IH]; [reflexivity|]. cbn [fmap list_fmap concat]. rewrite length_app, IH. simpl. lia. Qed.

Lemma words_app (l l' : list Z) : words (l ++ l') = words l ++ words l'.
Proof. unfold words. rewrite fmap_app, concat_app. reflexivity. Qed.

Lemma length_ptrs (a : Z) (l : list arg) : length (ptrs a l) = length l.
Proof. revert a. induction l as [| x l IH]; intros a; simpl; [reflexivity|]. rewrite IH. reflexivity. Qed.

Lemma list_at_agree (m m' : mem) (K : Z -> Prop) (args off : Z) (l : list arg) :
  list_at m K args off l -> (forall x, K x -> m' !! x = m !! x) -> list_at m' K args off l.
Proof.
  intros (p & Hp & Ha) Hm. exists p. split; [exact (word_in_agree _ _ _ _ _ Hp Hm)|].
  intros i q s Hi. destruct (Ha i q s Hi). split; eapply word_in_agree; eassumption.
Qed.

Lemma args_at_agree (m m' : mem) (K : Z -> Prop) (args : Z) (argv envp : list arg) :
  args_at m K args argv envp -> (forall x, K x -> m' !! x = m !! x) -> args_at m' K args argv envp.
Proof.
  intros [H1 H2 H3 H4] Hm. split; [exact (list_at_agree _ _ _ _ _ _ H1 Hm) | exact (list_at_agree _ _ _ _ _ _ H2 Hm) | | ];
    eapply word_in_agree; eassumption.
Qed.

Lemma readable_agree (m m' : mem) (lo hi : Z) (x : arg) :
  readable m lo hi x -> (forall a, a < lo \/ hi <= a -> m' !! a = m !! a) -> readable m' lo hi x.
Proof.
  intros (H0 & H1 & Hb & Hl & Ho) Hm. repeat split; try assumption. eapply block_agree; [exact Hb|].
  intros a Ha. apply Hm. rewrite length_app in Ha. simpl in Ha. lia.
Qed.

Section carry.

Context {B : Type} `{V : VmaEnv B} `{Mm : MmapEnv B} `{X : ExecEnv B} {L : ExecLaws B}.

Abbreviation st := (kst (mstate B)).

Definition mem_of (s : st) : mem := x_mem s.(env).(base).

Definition put_mem (s : st) (m : mem) : st :=
  set_env s (MState s.(env).(privates) s.(env).(f_count) (x_set_mem m s.(env).(base))).

Lemma mem_of_put (s : st) (m : mem) : mem_of (put_mem s m) = m.
Proof. apply x_get_set. Qed.

Lemma put_mem_twice (s : st) (m m' : mem) : put_mem (put_mem s m) m' = put_mem s m'.
Proof. unfold put_mem, set_env. cbn. rewrite x_set_set. reflexivity. Qed.

Lemma put_mem_of (s : st) : put_mem s (mem_of s) = s.
Proof. unfold put_mem, mem_of, set_env. rewrite x_set_get. destruct s as [? ? ? ? ? ? ? []]; reflexivity. Qed.

Lemma wload_run (s : st) (K : Z -> Prop) (p off w : Z) :
  word_in (mem_of s) K (p + off) w -> 0 <= p + off -> wload p off s = Ok (w, s).
Proof.
  intros Hw H0. unfold wload. erewrite bind_ok by reflexivity. cbv beta. unfold st_res.
  rewrite uN_id by (destruct Hw as (? & ? & _); lia). change (x_mem (base (env s))) with (mem_of s).
  rewrite (word_in_load _ _ _ _ Hw). reflexivity.
Qed.

Lemma wstore_run (s : st) (m : mem) (a w : Z) :
  0 <= a -> a + 4 < 2 ^ 32 -> (forall j, 0 <= j < 4 -> is_Some (m !! (a + j))) ->
  wstore a w (put_mem s m) = Ok (tt, put_mem s (put_bytes m a (word_bytes w))).
Proof.
  intros H0 H1 Hp. unfold wstore. erewrite bind_ok by reflexivity. cbv beta.
  change (x_mem (base (env (put_mem s m)))) with (mem_of (put_mem s m)). rewrite mem_of_put.
  erewrite bind_ok by (unfold st_res; rewrite store32_put by assumption; reflexivity). cbv beta.
  change (Ok (tt, put_mem (put_mem s m) (put_bytes m a (word_bytes w))) = Ok (tt, put_mem s (put_bytes m a (word_bytes w)))).
  rewrite put_mem_twice. reflexivity.
Qed.

Lemma xmemcpy_run (s : st) (m : mem) (dst src : Z) (l : list Z) :
  block_at m src l -> Forall is_byte l -> (forall i, 0 <= i < Z.of_nat (length l) -> is_Some (m !! (dst + i))) ->
  dst + Z.of_nat (length l) <= src \/ src + Z.of_nat (length l) <= dst ->
  xmemcpy dst src (Z.of_nat (length l)) (put_mem s m) = Ok (tt, put_mem s (put_bytes m dst l)).
Proof.
  intros H1 H2 H3 H4. unfold xmemcpy. erewrite bind_ok by reflexivity. cbv beta.
  change (x_mem (base (env (put_mem s m)))) with (mem_of (put_mem s m)). rewrite mem_of_put.
  erewrite bind_ok by (unfold st_res; rewrite (memcpy_put m dst src l H1 H2 H3 H4); reflexivity). cbv beta.
  change (Ok (tt, put_mem (put_mem s m) (put_bytes m dst l)) = Ok (tt, put_mem s (put_bytes m dst l))).
  rewrite put_mem_twice. reflexivity.
Qed.

Lemma str_run (s : st) (K : Z -> Prop) (args off : Z) (l : list arg) (i : nat) (q : Z) (str : list Z) :
  list_at (mem_of s) K args off l -> l !! i = Some (q, str) ->
  str_len args off (Z.of_nat i) s = Ok (Z.of_nat (length str), s) /\ str_ptr args off (Z.of_nat i) s = Ok (q, s).
Proof.
  intros (p & Hp & Ha) Hi. destruct (Ha i q str Hi) as [Hl Hq]. unfold str_len, str_ptr, sizeof_string.
  pose proof Hp as (Hp0 & _). pose proof Hl as (Hl0 & _). pose proof Hq as (Hq0 & _).
  rewrite !(bind_ok _ _ _ _ _ (wload_run s K args off p Hp Hp0)). split.
  - apply (wload_run s K); [exact Hl | exact Hl0].
  - apply (wload_run s K); rewrite ?Z.add_assoc; [exact Hq | exact Hq0].
Qed.

Lemma strings_size_run (s : st) (K : Z -> Prop) (args off : Z) (pre l : list arg) (size : Z) :
  list_at (mem_of s) K args off (pre ++ l) -> 0 <= size -> size + Z.of_nat (length (blob l)) < 2 ^ 32 ->
  strings_size (length l) args off (Z.of_nat (length pre)) size s = Ok (size + Z.of_nat (length (blob l)), s).
Proof.
  revert pre size. induction l as [| [q str] l IH]; intros pre size Ha H0 Hb.
  - simpl. rewrite Z.add_0_r. reflexivity.
  - rewrite blob_cons, !length_app in *. cbn [snd length] in *. cbn [strings_size].
    destruct (str_run s K args off _ (length pre) q str Ha) as [E _]; [rewrite lookup_app_r, Nat.sub_diag by lia; reflexivity|].
    rewrite (bind_ok _ _ _ _ _ E). cbv beta. rewrite (uN_id 32 (_ + 1)), uN_id by lia.
    replace (Z.of_nat (length pre) + 1) with (Z.of_nat (length (pre ++ [(q, str)]))) by (rewrite length_app; simpl; lia).
    rewrite IH; [do 2 f_equal; lia | rewrite <- app_assoc; exact Ha | lia..].
Qed.

(** Copying strings into [lo, hi), which holds neither the descriptions nor the
    strings. *)
Lemma copy_strings_run (s : st) (K : Z -> Prop) (lo hi : Z) (m : mem) (args off : Z) (pre l : list arg) (dst : Z) :
  (forall x, K x -> x < lo \/ hi <= x) -> (forall x, lo <= x < hi -> is_Some (m !! x)) -> hi < 2 ^ 32 ->
  list_at m K args off (pre ++ l) -> Forall (readable m lo hi) l ->
  0 <= lo -> lo <= dst -> dst + Z.of_nat (length (blob l)) <= hi ->
  copy_strings (length l) args off (Z.of_nat (length pre)) dst (put_mem s m) =
  Ok (dst + Z.of_nat (length (blob l)), put_mem s (put_bytes m dst (blob l))).
Proof.
  intros HK. revert m pre dst. induction l as [| [q str] l IH]; intros m pre dst Hp Hhi Ha Hl H0 Hlo Hb.
  - simpl. rewrite Z.add_0_r. reflexivity.
  - apply Forall_cons in Hl as [Hr Hl]. pose proof Hr as (Hq0 & Hq1 & Hblk & Hbytes & Hout). cbn [fst snd] in *.
    rewrite blob_cons, !length_app in *. cbn [snd length] in *. cbn [copy_strings].
    destruct (str_run (put_mem s m) K args off (pre ++ (q, str) :: l) (length pre) q str) as [E1 E2];
      [rewrite mem_of_put; exact Ha | rewrite lookup_app_r, Nat.sub_diag by lia; reflexivity |].
    rewrite (bind_ok _ _ _ _ _ E2). cbv beta. rewrite (bind_ok _ _ _ _ _ E1). cbv beta.
    rewrite !(uN_id 32 (Z.of_nat (length str) + 1)) by lia.
    replace (Z.of_nat (length str) + 1) with (Z.of_nat (length (str ++ [0]))) by (rewrite length_app; simpl; lia).
    erewrite bind_ok.
    2: { apply (xmemcpy_run s m dst q (str ++ [0]) Hblk).
         - apply Forall_app. split; [exact Hbytes | repeat constructor; lia].
         - intros i Hi. apply Hp. rewrite length_app in Hi. simpl in Hi. lia.
         - rewrite length_app. simpl. lia. }
    cbv beta. rewrite uN_id by (rewrite length_app; simpl; lia).
    assert (forall x, x < lo \/ hi <= x -> put_bytes m dst (str ++ [0]) !! x = m !! x) as Hsame.
    { intros x Hx. apply put_bytes_out. rewrite length_app. simpl. lia. }
    replace (Z.of_nat (length pre) + 1) with (Z.of_nat (length (pre ++ [(q, str)]))) by (rewrite length_app; simpl; lia).
    rewrite IH.
    + rewrite (put_bytes_app m dst (str ++ [0]) (blob l)). do 2 f_equal. rewrite length_app. simpl. lia.
    + intros x Hx. rewrite lookup_put_bytes. case_decide; [apply lookup_lt_is_Some; lia | apply Hp, Hx].
    + exact Hhi.
    + rewrite <- app_assoc. eapply list_at_agree; [exact Ha|]. intros x Hx. apply Hsame, HK, Hx.
    + eapply Forall_impl; [exact Hl|]. intros y Hy. exact (readable_agree _ _ _ _ _ Hy Hsame).
    + exact H0.
    + rewrite length_app. simpl. lia.
    + rewrite length_app. simpl. lia.
Qed.

(** Storing the addresses of strings into an array in [lo, hi). *)
Lemma point_strings_run (s : st) (K : Z -> Prop) (lo hi : Z) (m : mem) (args off arr : Z) (pre l : list arg) (a : Z) :
  (forall x, K x -> x < lo \/ hi <= x) -> (forall x, lo <= x < hi -> is_Some (m !! x)) -> hi < 2 ^ 32 ->
  list_at m K args off (pre ++ l) -> 0 <= lo -> lo <= arr -> arr + 4 * Z.of_nat (length (pre ++ l)) < hi ->
  0 <= a -> a + Z.of_nat (length (blob l)) < 2 ^ 32 ->
  point_strings (length l) args off arr (Z.of_nat (length pre)) a (put_mem s m) =
  Ok (a + Z.of_nat (length (blob l)),
      put_mem s (put_bytes m (arr + 4 * Z.of_nat (length pre)) (words (ptrs a l)))).
Proof.
  intros HK. revert m pre a. induction l as [| [q str] l IH]; intros m pre a Hp Hhi Ha H0 Hlo Hb Ha0 Hab.
  - simpl. rewrite Z.add_0_r. reflexivity.
  - rewrite length_app in Hb. cbn [length] in Hb. rewrite blob_cons, !length_app in *. cbn [snd length] in *. cbn [point_strings].
    rewrite (uN_id 32 (arr + _)) by lia.
    erewrite bind_ok by (apply wstore_run; [lia | lia | intros j Hj; apply Hp; lia]). cbv beta.
    set (m1 := put_bytes m _ (word_bytes a)).
    assert (forall x, x < lo \/ hi <= x -> m1 !! x = m !! x) as Hsame.
    { intros x Hx. apply put_bytes_out. change (length (word_bytes a)) with 4%nat. lia. }
    assert (list_at m1 K args off (pre ++ (q, str) :: l)) as Ha1
      by (eapply list_at_agree; [exact Ha | intros x Hx; apply Hsame, HK, Hx]).
    destruct (str_run (put_mem s m1) K args off (pre ++ (q, str) :: l) (length pre) q str) as [E1 _];
      [rewrite mem_of_put; exact Ha1 | rewrite lookup_app_r, Nat.sub_diag by lia; reflexivity |].
    rewrite (bind_ok _ _ _ _ _ E1). cbv beta. rewrite (uN_id 32 (Z.of_nat (length str) + 1)), uN_id by lia.
    replace (Z.of_nat (length pre) + 1) with (Z.of_nat (length (pre ++ [(q, str)]))) by (rewrite length_app; simpl; lia).
    rewrite IH.
    + cbn [ptrs]. change (words (a :: ?t)) with (word_bytes a ++ words t). rewrite put_bytes_app. fold m1. cbn [snd].
      rewrite length_app. cbn [length]. change (length (word_bytes a)) with 4%nat.
      do 2 f_equal; [lia|]. f_equal. f_equal; [lia|]. do 2 f_equal. lia.
    + intros x Hx. unfold m1. rewrite lookup_put_bytes. case_decide; [apply lookup_lt_is_Some; lia | apply Hp, Hx].
    + exact Hhi.
    + rewrite <- app_assoc. exact Ha1.
    + exact H0.
    + exact Hlo.
    + rewrite <- app_assoc, length_app. cbn [app length]. lia.
    + lia.
    + lia.
Qed.


(** ** The three phases *)

Definition arg_count (argv envp : list arg) : nat := (length argv + length envp + 2)%nat.

(** The bytes the arrays and strings take. *)
Definition arg_size (argv envp : list arg) : Z :=
  4 * Z.of_nat (arg_count argv envp) + Z.of_nat (length (blob argv)) + Z.of_nat (length (blob envp)).

(** A string of the caller. *)
Definition string_ok (m : mem) (x : arg) : Prop :=
  0 <= x.1 /\ x.1 + Z.of_nat (length x.2) + 1 < 2 ^ 32 /\ block_at m x.1 (x.2 ++ [0]) /\ Forall is_byte x.2.

Lemma exec_mem_needed_run (s : st) (K : Z -> Prop) (args : Z) (argv envp : list arg) :
  args_at (mem_of s) K args argv envp -> arg_size argv envp < 2 ^ 30 ->
  exec_mem_needed args s = Ok (arg_size argv envp, s).
Proof.
  intros [H1 H2 H3 H4] Hs. unfold arg_size, arg_count in *. unfold exec_mem_needed.
  rewrite (bind_ok _ _ _ _ _ (wload_run s K args XA_ARGC _ H3 (proj1 H3))). cbv beta.
  rewrite (bind_ok _ _ _ _ _ (wload_run s K args XA_ENVC _ H4 (proj1 H4))). cbv beta zeta.
  rewrite !Nat2Z.id. rewrite (uN_id 32 (Z.of_nat (length argv) + 1)), (uN_id 32 (Z.of_nat (length envp) + 1)) by lia.
  rewrite (uN_id 32 ((Z.of_nat (length argv) + 1) * 4)), (uN_id 32 ((Z.of_nat (length envp) + 1) * 4)) by lia.
  rewrite (uN_id 32 (0 + _)), (uN_id 32 (0 + _ + _)) by lia.
  erewrite bind_ok; [| apply (strings_size_run s K args XA_ARGV [] argv); [exact H1 | lia | lia]]. cbv beta.
  rewrite (strings_size_run s K args XA_ENVP [] envp); [| exact H2 | lia | lia]. do 2 f_equal. lia.
Qed.

(** [n] bytes of memory as a list. *)
Definition bytes_from (m : mem) (a : Z) (n : nat) : list Z := (fun i => default 0 (m !! i)) <$> zseq a n.

Lemma bytes_from_block (m : mem) (a : Z) (n : nat) :
  (forall x, a <= x < a + Z.of_nat n -> exists c, m !! x = Some c /\ is_byte c) ->
  block_at m a (bytes_from m a n) /\ Forall is_byte (bytes_from m a n) /\ length (bytes_from m a n) = n.
Proof.
  intros H. unfold bytes_from. split_and!.
  - intros i b Hi. rewrite list_lookup_fmap in Hi. apply fmap_Some in Hi as (x & Hx & ->).
    pose proof (lookup_lt_Some _ _ _ Hx) as Hlt. rewrite zseq_length in Hlt. rewrite zseq_lookup in Hx by exact Hlt. injection Hx as <-.
    destruct (H (a + Z.of_nat i) ltac:(lia)) as (c & Hc & _). rewrite Hc. reflexivity.
  - apply Forall_fmap, Forall_forall. intros x Hx. apply elem_of_zseq in Hx. destruct (H x Hx) as (c & Hc & Hb). unfold compose. rewrite Hc. exact Hb.
  - rewrite length_fmap, zseq_length. reflexivity.
Qed.

(** Blocks that share no address are one behind the other. *)
Lemma apart (q n lo hi : Z) :
  0 < n -> lo < hi -> (forall x, q <= x < q + n -> ~ (lo <= x < hi)) -> q + n <= lo \/ hi <= q.
Proof.
  intros Hn Hlo H. destruct (Z.leb_spec (q + n) lo); [auto|]. right. destruct (Z.leb_spec lo q).
  - specialize (H q). lia.
  - specialize (H lo). lia.
Qed.

Lemma copy_args_run (s : st) (K : Z -> Prop) (args p : Z) (argv envp : list arg) (hi := p + arg_size argv envp)
    (dst := p + 4 * Z.of_nat (arg_count argv envp)) :
  args_at (mem_of s) K args argv envp -> (forall x, K x -> x < p \/ hi <= x) ->
  (forall x, p <= x < hi -> is_Some (mem_of s !! x)) -> 0 <= p -> hi < 2 ^ 32 ->
  Forall (readable (mem_of s) p hi) argv -> Forall (readable (mem_of s) p hi) envp ->
  copy_args args p s = Ok (tt, put_mem s (put_bytes (mem_of s) dst (blob argv ++ blob envp))).
Proof.
  intros [L1 L2 L3 L4] HKo Hpres H0 Hhi R1 R2. unfold copy_args.
  rewrite (bind_ok _ _ _ _ _ (wload_run s K args XA_ARGC _ L3 (proj1 L3))). cbv beta.
  rewrite (bind_ok _ _ _ _ _ (wload_run s K args XA_ENVC _ L4 (proj1 L4))). cbv beta zeta. rewrite !Nat2Z.id.
  assert (hi = dst + Z.of_nat (length (blob argv)) + Z.of_nat (length (blob envp)) /\ p <= dst) as [Ehi Hdst]
    by (unfold hi, dst, arg_size, arg_count; lia).
  replace (4 * _) with (dst - p) by (unfold dst, arg_count; lia). replace (p + (dst - p)) with dst by lia. rewrite uN_id by lia.
  rewrite <- (put_mem_of s) at 1.
  erewrite bind_ok; [| apply (copy_strings_run s K p hi (mem_of s) args XA_ARGV [] argv dst HKo Hpres); auto; lia].
  cbv beta. set (m2 := put_bytes (mem_of s) dst (blob argv)).
  assert (forall x, x < p \/ hi <= x -> m2 !! x = mem_of s !! x) as Hm2 by (intros x Hx; apply put_bytes_out; lia).
  erewrite bind_ok.
  2: { apply (copy_strings_run s K p hi m2 args XA_ENVP [] envp); auto; try lia.
       - intros x Hx. unfold m2. rewrite lookup_put_bytes. case_decide; [apply lookup_lt_is_Some; lia | apply Hpres, Hx].
       - eapply list_at_agree; [exact L2|]. intros x Hx. apply Hm2, HKo, Hx.
       - eapply Forall_impl; [exact R2|]. intros y Hy. exact (readable_agree _ _ _ _ _ Hy Hm2). }
  unfold m2. rewrite <- put_bytes_app. reflexivity.
Qed.

(** A string of the caller is readable after new memory was added at [lo, hi). *)
Lemma string_readable (m m' : mem) (lo hi : Z) (l : list arg) :
  lo < hi -> (forall x c, m !! x = Some c -> ~ (lo <= x < hi) /\ m' !! x = Some c) ->
  Forall (string_ok m) l -> Forall (readable m' lo hi) l.
Proof.
  intros Hlo Hold Hl. eapply Forall_impl; [exact Hl|]. intros [q str] (H0 & H1 & Hb & Hby). cbn [fst snd] in *. repeat split; try assumption.
  - intros i c Hi. apply Hold, Hb, Hi.
  - rewrite <- Z.add_assoc. apply apart; [lia | exact Hlo |]. intros x Hx. cbn [fst snd] in Hx.
    destruct (lookup_lt_is_Some_2 (str ++ [0]) (Z.to_nat (x - q))) as [c Hc]; [rewrite length_app; cbn [length]; lia|].
    apply (Hold x c). rewrite <- (Hb _ _ Hc). f_equal. lia.
Qed.

Lemma copy_to_kernel_run (s : st) (K : Z -> Prop) (args : Z) (argv envp : list arg) :
  args_at (mem_of s) K args argv envp -> (forall x, K x -> is_Some (mem_of s !! x)) ->
  Forall (string_ok (mem_of s)) argv -> Forall (string_ok (mem_of s)) envp -> arg_size argv envp < 2 ^ 30 ->
  exists r s1, execve_copy_to_kernel args s = Ok (r, s1) /\ s1.(current) = s.(current) /\ s1.(proctab) = s.(proctab) /\
    (r = (- ENOMEM, 0, 0) /\ (x_kmalloc (arg_size argv envp) s.(env).(base)).1 = 0 \/
     exists p junk, r = (0, p, arg_size argv envp) /\ kernel_base <= p /\ p + arg_size argv envp < 2 ^ 32 /\
       length junk = (4 * arg_count argv envp)%nat /\ Forall is_byte junk /\
       block_at (mem_of s1) p (junk ++ blob argv ++ blob envp) /\
       forall x c, mem_of s !! x = Some c -> mem_of s1 !! x = Some c).
Proof.
  intros Ha HK Hargv Henvp Hs. unfold execve_copy_to_kernel.
  rewrite (bind_ok _ _ _ _ _ (exec_mem_needed_run s K args argv envp Ha Hs)). cbv beta.
  destruct (x_kmalloc (arg_size argv envp) s.(env).(base)) as [p b'] eqn:Ek.
  set (s1 := set_env s (MState s.(env).(privates) s.(env).(f_count) b')).
  erewrite bind_ok; [| unfold base_do, on_env, lift; rewrite Ek; reflexivity]. cbv beta. fold s1.
  destruct (Z.eqb_spec p 0) as [-> | Hp]; [exists (- ENOMEM, 0, 0), s1; split; [reflexivity|]; split; [reflexivity|]; split; [reflexivity|]; left; split; reflexivity|].
  assert (0 < arg_size argv envp) as Hpos by (unfold arg_size, arg_count; lia).
  destruct (x_kmalloc_ok _ _ _ _ Hpos Ek Hp) as (Hkb & Hend & Hold & Hnew).
  change (x_mem b') with (mem_of s1) in *. change (x_mem (base (env s))) with (mem_of s) in Hold.
  erewrite bind_ok.
  2: { apply (copy_args_run s1 K args p argv envp); [| | | unfold kernel_base in Hkb; lia | exact Hend | |].
       - eapply args_at_agree; [exact Ha|]. intros x Hx. destruct (HK x Hx) as [c Hc]. rewrite Hc. apply Hold, Hc.
       - intros x Hx. destruct (HK x Hx) as [c Hc]. destruct (Hold x c Hc). lia.
       - intros x Hx. destruct (Hnew x Hx) as (c & Hc & _). eauto.
       - eapply string_readable; [lia | exact Hold | exact Hargv].
       - eapply string_readable; [lia | exact Hold | exact Henvp]. }
  cbv beta. eexists _, _. split; [reflexivity|]. split; [reflexivity|]. split; [reflexivity|]. right.
  set (n := (4 * arg_count argv envp)%nat).
  destruct (bytes_from_block (mem_of s1) p n) as (Hjb & Hjby & Hjl); [intros x Hx; apply Hnew; unfold n, arg_size in *; lia|].
  exists p, (bytes_from (mem_of s1) p n). split; [reflexivity|]. split; [exact Hkb|]. split; [exact Hend|].
  split; [exact Hjl|]. split; [exact Hjby|]. rewrite mem_of_put.
  replace (4 * Z.of_nat (arg_count argv envp)) with (Z.of_nat n) by (unfold n; lia). split.
  - apply block_app. rewrite Hjl. split; [| apply block_put].
    eapply block_agree; [exact Hjb|]. intros x Hx. rewrite Hjl in Hx. apply put_bytes_out. lia.
  - intros x c Hc. destruct (Hold x c Hc) as [Hx Hc']. rewrite put_bytes_out; [exact Hc'|]. rewrite length_app. unfold arg_size, n in *. lia.
Qed.

Definition memS (e : mstate B) : mem := x_mem e.(base).

Lemma vm_unmap_mem (v : vma) (e : mstate B) : memS (vm_unmap v e).2 = memS e.
Proof.
  assert (forall p e, memS (private_unref p e) = memS e) as Hp.
  { intros p e0. unfold private_unref, memS. cbv zeta. case_match; [apply x_free_private | reflexivity]. }
  unfold vm_unmap. case_match; [reflexivity|]. cbn [pm_unmap mmap_env]. unfold lift.
  pose proof (x_pm_unmap e.(base) v) as Hu. destruct (pm_unmap v e.(base)) as [err b]. cbn [snd] in Hu.
  case_match; [exact Hu|]. cbn [snd]. unfold memS. cbn [free_vma mmap_env base]. rewrite x_free_vma.
  unfold vop_of. cbn [vma_ops mmap_env]. repeat case_match; simplify_eq/=; try exact Hu; unfold mmap_unmap; cbn [snd];
    change (x_mem (base ?y)) with (memS y); rewrite Hp; exact Hu.
Qed.

Lemma unmap_areas_run (p : vma -> bool) (l l' : list vma) (e e' : mstate B) :
  unmap_areas p l e = (l', e') -> areas_ok l ->
  memS e' = memS e /\ areas_ok l' /\ (forall v, v ∈ l' -> v ∈ l) /\ (forall v, v ∈ l -> p v = false -> v ∈ l').
Proof.
  revert l' e. induction l as [| v l IH]; intros l' e E Hok; cbn [unmap_areas] in E.
  - injection E as <- <-. split_and!; auto.
  - apply areas_ok_cons in Hok as (Hv & Hb & Hok).
    pose proof (vm_unmap_mem v e) as Hm. destruct (vm_unmap v e) as [[err r] e1] eqn:Eu. cbn [snd] in Hm.
    assert (r = None \/ r = Some v) as Hr.
    { unfold vm_unmap in Eu. repeat case_match; simplify_eq; auto. }
    destruct (p v) eqn:Ep.
    + destruct (unmap_areas p l e1) as [l1 e2] eqn:E1. injection E as <- <-.
      destruct (IH l1 e1 E1 Hok) as (M1 & Ok1 & Sub & Keep). rewrite M1, Hm. destruct Hr as [-> | ->].
      * split_and!; [reflexivity | exact Ok1 | set_solver |]. intros w Hw Hp. apply elem_of_cons in Hw as [-> | Hw]; [congruence | auto].
      * split_and!; [reflexivity | | set_solver | set_solver].
        apply areas_ok_cons. split_and!; [exact Hv | | exact Ok1]. rewrite Forall_forall in Hb |- *. auto.
    + destruct (unmap_areas p l e) as [l1 e2] eqn:E1. injection E as <- <-.
      destruct (IH l1 e E1 Hok) as (M1 & Ok1 & Sub & Keep). split_and!; [exact M1 | | set_solver | set_solver].
      apply areas_ok_cons. split_and!; [exact Hv | | exact Ok1]. rewrite Forall_forall in Hb |- *. auto.
Qed.

Lemma lookup_unmap (l : list vma) (m : mem) (x : Z) :
  (forall v, v ∈ l -> vma_contains v x = false) -> unmap_bytes l m !! x = m !! x.
Proof.
  intros H. unfold unmap_bytes. rewrite map_lookup_filter. destruct (m !! x) as [c |]; [|reflexivity]. cbn.
  rewrite option_guard_True; [reflexivity|]. apply Forall_forall. exact H.
Qed.

(** Address [x] lies in an area. *)
Definition mapped_in (l : list vma) (x : Z) : Prop := exists v, v ∈ l /\ vma_contains v x = true.

Lemma exec_unmap_run (s : st) (a : pcb) (c := s.(current)) :
  0 <= c -> s.(proctab) !! Z.to_nat c = Some a -> mm_ok a.(mm) -> (forall v, v ∈ a.(mm).(mm_map) -> v.(vend) <= kernel_base) ->
  exists s' mm', exec_unmap s = Ok (tt, s') /\ s'.(current) = c /\ s'.(proctab) = <[Z.to_nat c := p_mm a mm']> s.(proctab) /\
    mm_ok mm' /\ (forall v, v ∈ mm'.(mm_map) -> v ∈ a.(mm).(mm_map)) /\
    (forall v, v ∈ a.(mm).(mm_map) -> has v.(vflags) VM_KEEPEXEC = true -> v ∈ mm'.(mm_map)) /\
    (forall x, mapped_in mm'.(mm_map) x \/ kernel_base <= x -> mem_of s' !! x = mem_of s !! x).
Proof.
  intros Hc Ha Hok Hkb. pose proof (lookup_lt_Some _ _ _ Ha) as Hlt. unfold exec_unmap.
  erewrite bind_ok by reflexivity. cbv beta. fold c. rewrite (bind_ok _ _ _ _ _ (proc_run s c a Hc Ha)). cbv beta.
  destruct (unmap_areas (fun v => negb (has v.(vflags) VM_KEEPEXEC)) a.(mm).(mm_map) s.(env)) as [l' e'] eqn:Eu.
  destruct (unmap_areas_run _ _ _ _ _ Eu Hok) as (Hm & Hok' & Hsub & Hkeep).
  erewrite bind_ok; [| apply (on_mm_run s c _ a tt (set_map a.(mm) l') e' Hc Ha); unfold mm_exec; rewrite Eu; reflexivity]. cbv beta.
  set (s1 := set_procs _ _).
  erewrite bind_ok; [| apply (proc_run s1 c (p_mm a (set_map a.(mm) l')) Hc); apply list_lookup_insert_eq, Hlt]. cbv beta.
  erewrite bind_ok by reflexivity. cbv beta. eexists _, (set_map a.(mm) l'). split; [reflexivity|].
  split; [reflexivity|]. split; [reflexivity|]. split; [exact Hok'|]. split; [exact Hsub|].
  split; [intros v Hv Hk; apply Hkeep; [exact Hv | rewrite Hk; reflexivity]|].
  intros x Hx.
  unfold mem_of at 1. cbn [env set_env base]. rewrite x_get_set.
  change (x_mem (base (env s1))) with (memS e'). rewrite Hm. apply lookup_unmap.
  intros w Hw. apply list_elem_of_In, List.filter_In in Hw as [Hw Hd]. apply list_elem_of_In in Hw. cbn [mm p_mm mm_map set_map] in Hd.
  destruct (vma_contains w x) eqn:Ew; [|reflexivity]. exfalso. destruct Hx as [(v & Hv & Hvx) | Hx].
  - assert (v = w) as -> by (eapply (areas_unique a.(mm).(mm_map)); [exact Hok | apply Hsub, Hv | exact Hw | exact Hvx | exact Ew]).
    apply negb_true_iff in Hd. rewrite <- not_true_iff_false in Hd. apply Hd. apply existsb_exists.
    exists w. split; [apply list_elem_of_In, Hv | apply Z.eqb_refl].
  - apply vma_contains_iff in Ew. specialize (Hkb w Hw). lia.
Qed.

Lemma create_high_none (mm : mm_struct) (start end_ len flags : Z) (e : mstate B) :
  alloc_vma e.(base) = None -> vma_create_high mm start end_ len flags e = (None, mm, e).
Proof.
  intros Ha. unfold vma_create_high, create_at, new_vma. cbn [alloc_vma mmap_env]. rewrite Ha. destruct (_ =? 0); reflexivity.
Qed.

(** There is no descriptor, or no free range of [size] bytes in the user part of the
    address space. *)
Definition no_room (s : st) (a : pcb) (size : Z) : Prop :=
  alloc_vma s.(env).(base) = None \/
  forall b, user_base <= b -> b + page_align size <= kernel_base -> ~ free_range a.(mm).(mm_map) b (b + page_align size).

Lemma create_zero_area_run (s : st) (a : pcb) (size flags : Z) (c := s.(current)) :
  0 <= c -> s.(proctab) !! Z.to_nat c = Some a -> mm_ok a.(mm) -> (forall v, v ∈ a.(mm).(mm_map) -> v.(vend) <= kernel_base) ->
  0 < size < 2 ^ 30 - 8192 ->
  exists r s', create_zero_area size flags s = Ok (r, s') /\ s'.(current) = c /\
    (r = None /\ no_room s a size \/
     exists v mm', r = Some v /\ s'.(proctab) = <[Z.to_nat c := p_mm a mm']> s.(proctab) /\
       created a.(mm) mm' v flags size /\ user_base <= v.(vstart) /\ v.(vend) <= kernel_base /\
       s' = put_mem s' (mem_of s') /\
       (forall x, v.(vstart) <= x < v.(vend) -> mem_of s' !! x = Some 0) /\
       (forall x, x < v.(vstart) \/ v.(vend) <= x -> mem_of s' !! x = mem_of s !! x)).
Proof.
  intros Hc Ha Hok Hkb Hsz. unfold create_zero_area. erewrite bind_ok by reflexivity. cbv beta. fold c.
  assert (exists r mm' e', vma_create_high a.(mm) user_base kernel_base size flags s.(env) = (r, mm', e') /\ memS e' = mem_of s /\
    (r = None /\ no_room s a size \/ exists v, r = Some v /\ created a.(mm) mm' v flags size /\ user_base <= v.(vstart) /\ v.(vend) <= kernel_base))
    as (r & mm' & e' & Ev & Hm & Hr).
  { destruct (alloc_vma s.(env).(base)) as [[p b'] |] eqn:Eal.
    - destruct (vma_create_high_spec a.(mm) user_base kernel_base size flags p s.(env) (MState s.(env).(privates) s.(env).(f_count) b'))
        as [(v & mm' & E & Hcr & H1 & H2) | [E Hno]]; try (unfold user_base, kernel_base; lia); [exact Hok | | | |].
      + cbn [alloc_vma mmap_env]. rewrite Eal. reflexivity.
      + intros v Hv. specialize (Hkb v Hv). pose proof (page_align_add 0 size ltac:(lia) eq_refl ltac:(lia) ltac:(lia)) as (_ & Hb & _).
        unfold kernel_base in Hkb. lia.
      + exists (Some v), mm', (MState s.(env).(privates) s.(env).(f_count) b'). split; [exact E|].
        split; [exact (x_alloc_vma _ _ _ Eal)|]. right. exists v. auto.
      + exists None, a.(mm), s.(env). split; [exact E|]. split; [reflexivity | left; split; [reflexivity | right; exact Hno]].
    - exists None, a.(mm), s.(env). split; [apply create_high_none, Eal|]. split; [reflexivity | left; split; [reflexivity | left; exact Eal]]. }
  erewrite bind_ok; [| apply (on_mm_run s c _ a r mm' e' Hc Ha Ev)]. cbv beta. set (s1 := set_procs _ _).
  destruct Hr as [[-> Hno] | (v & -> & Hcr & H1 & H2)]; [exists None, s1; split; [reflexivity|]; split; [reflexivity | left; auto]|].
  erewrite bind_ok by reflexivity. cbv beta. change (x_mem (base (env s1))) with (memS e'). rewrite Hm.
  set (m1 := put_bytes _ _ _).
  erewrite bind_ok; [| change (set_bytes m1 s1) with (Ok (tt, put_mem s1 m1)); reflexivity]. cbv beta.
  exists (Some v), (put_mem s1 m1). split; [reflexivity|]. split; [reflexivity|]. right. exists v, mm'.
  split; [reflexivity|]. split; [reflexivity|]. split; [exact Hcr|]. split; [exact H1|]. split; [exact H2|].
  rewrite mem_of_put. split; [rewrite put_mem_twice; reflexivity|]. unfold m1. split.
  - intros x Hx. rewrite lookup_put_bytes, length_replicate, decide_True by lia. apply lookup_replicate_2. lia.
  - intros x Hx. apply put_bytes_out. rewrite length_replicate. lia.
Qed.

Lemma length_arg_image (a : Z) (argv envp : list arg) : Z.of_nat (length (arg_image a argv envp)) = arg_size argv envp.
Proof.
  unfold arg_image, arg_size, arg_count. cbv zeta. rewrite !length_app, length_words, !length_app, !length_ptrs. cbn [length]. lia.
Qed.

(** The pointers stored over a copied block. *)
Definition pointed (m : mem) (a : Z) (argv envp : list arg) : mem :=
  let b := a + 4 * Z.of_nat (arg_count argv envp) in
  let e := a + 4 * (Z.of_nat (length argv) + 1) in
  put_bytes
    (put_bytes
       (put_bytes (put_bytes m a (words (ptrs b argv))) (a + 4 * Z.of_nat (length argv)) (word_bytes 0))
       e (words (ptrs (b + Z.of_nat (length (blob argv))) envp)))
    (e + 4 * Z.of_nat (length envp)) (word_bytes 0).

Lemma pointed_out (m : mem) (a : Z) (argv envp : list arg) (x : Z) :
  x < a \/ a + 4 * Z.of_nat (arg_count argv envp) <= x -> pointed m a argv envp !! x = m !! x.
Proof.
  intros Hx. unfold pointed, arg_count in *. cbv zeta.
  rewrite !put_bytes_out; [reflexivity | ..]; rewrite ?length_words, ?length_ptrs; change (length (word_bytes 0)) with 4%nat; lia.
Qed.

(** Stores of pointers over the copied block give the image. *)
Lemma image_block (m : mem) (a : Z) (argv envp : list arg) (junk : list Z) :
  length junk = (4 * arg_count argv envp)%nat -> block_at m a (junk ++ blob argv ++ blob envp) ->
  block_at (pointed m a argv envp) a (arg_image a argv envp).
Proof.
  intros Hj Hb. unfold pointed. set (b := a + 4 * Z.of_nat (arg_count argv envp)). set (e := a + 4 * (Z.of_nat (length argv) + 1)). cbv zeta. change (word_bytes 0) with (words [0]).
  assert (forall p l, length (words (ptrs p l)) = (4 * length l)%nat) as Hlen by (intros; rewrite length_words, length_ptrs; reflexivity).
  replace (a + 4 * Z.of_nat (length argv)) with (a + Z.of_nat (length (words (ptrs b argv)))) by (rewrite Hlen; lia).
  rewrite <- put_bytes_app.
  replace e with (a + Z.of_nat (length (words (ptrs b argv) ++ words [0]))) at 1 by (rewrite length_app, Hlen; unfold e; simpl length; lia).
  rewrite <- put_bytes_app.
  replace (e + 4 * Z.of_nat (length envp)) with
    (a + Z.of_nat (length ((words (ptrs b argv) ++ words [0]) ++ words (ptrs (b + Z.of_nat (length (blob argv))) envp))))
    by (rewrite !length_app, !Hlen; unfold e; simpl length; lia).
  rewrite <- put_bytes_app, <- !app_assoc, <- !words_app. unfold arg_image. fold (arg_count argv envp). fold b.
  set (W := words _). assert (length W = length junk) as HW.
  { unfold W. rewrite length_words, !length_app, !length_ptrs, Hj. unfold arg_count. simpl. lia. }
  apply block_app. split; [apply block_put|]. rewrite HW. apply block_app in Hb as [_ Hb].
  eapply block_agree; [exact Hb|]. intros x Hx. apply put_bytes_out. lia.
Qed.

Lemma point_args_run (s : st) (K : Z -> Prop) (m : mem) (args a : Z) (argv envp : list arg) (hi := a + arg_size argv envp) :
  args_at m K args argv envp -> (forall x, K x -> x < a \/ hi <= x) -> (forall x, a <= x < hi -> is_Some (m !! x)) ->
  0 <= a -> hi + 4 < 2 ^ 32 ->
  point_args args a (put_mem s m) = Ok (a + 4 * (Z.of_nat (length argv) + 1), put_mem s (pointed m a argv envp)).
Proof.
  intros [L1 L2 L3 L4] HK Hp H0 Hhi. unfold point_args, pointed, arg_size, arg_count in *.
  rewrite (bind_ok _ _ _ _ _ (wload_run (put_mem s m) K args XA_ARGC _ ltac:(rewrite mem_of_put; exact L3) (proj1 L3))). cbv beta zeta.
  rewrite (bind_ok _ _ _ _ _ (wload_run (put_mem s m) K args XA_ENVC _ ltac:(rewrite mem_of_put; exact L4) (proj1 L4))). cbv beta zeta.
  rewrite !Nat2Z.id. set (b := a + 4 * Z.of_nat (length argv + length envp + 2)).
  set (e := a + 4 * (Z.of_nat (length argv) + 1)). rewrite (uN_id 32 e) by lia.
  replace (e + 4 * (Z.of_nat (length envp) + 1)) with b by lia. rewrite (uN_id 32 b) by lia.
  assert (forall m q l, (forall x, a <= x < hi -> is_Some (m !! x)) -> (forall x, a <= x < hi -> is_Some (put_bytes m q l !! x))) as Hpres.
  { intros m' q l Hm x Hx. rewrite lookup_put_bytes. case_decide; [apply lookup_lt_is_Some; lia | auto]. }
  erewrite bind_ok; [| apply (point_strings_run s K a hi m args XA_ARGV a [] argv b HK Hp); [lia | exact L1 | lia | lia | cbn [app]; lia | lia | lia]].
  cbv beta. cbn [length]. rewrite Z.mul_0_r, Z.add_0_r. set (m1 := put_bytes m _ _). rewrite (uN_id 32 (a + _)) by lia.
  erewrite bind_ok; [| apply wstore_run; [lia | lia | intros j Hj; apply Hpres; [exact Hp | lia]]]. cbv beta. set (m2 := put_bytes m1 _ _).
  assert (length (words (ptrs b argv)) = (4 * length argv)%nat) as Hw1 by (rewrite length_words, length_ptrs; reflexivity).
  erewrite bind_ok.
  2: { apply (point_strings_run s K a hi m2 args XA_ENVP e [] envp); [exact HK | apply Hpres, Hpres, Hp | lia | | lia | lia | cbn [app]; lia | lia | lia].
       eapply list_at_agree; [exact L2|]. intros x Hx. specialize (HK x Hx). unfold m2, m1.
       rewrite !put_bytes_out by (change (length (word_bytes 0)) with 4%nat; lia). reflexivity. }
  cbv beta. cbn [length]. rewrite Z.mul_0_r, Z.add_0_r. set (m3 := put_bytes m2 _ _). rewrite (uN_id 32 (e + _)) by lia.
  erewrite bind_ok; [| apply wstore_run; [lia | lia | intros j Hj; apply Hpres; [apply Hpres, Hpres, Hp | lia]]]. reflexivity.
Qed.

Lemma blob_bytes (l : list arg) : Forall (fun x => Forall is_byte x.2) l -> Forall is_byte (blob l).
Proof.
  induction 1 as [| x l Hx Hl IH]; [constructor|]. rewrite blob_cons. apply Forall_app. split; [|exact IH].
  apply Forall_app. split; [exact Hx | repeat constructor; lia].
Qed.

Lemma copy_to_user_run (s : st) (a : pcb) (K : Z -> Prop) (args p : Z) (argv envp : list arg) (junk : list Z) (c := s.(current)) :
  0 <= c -> s.(proctab) !! Z.to_nat c = Some a -> mm_ok a.(mm) -> (forall v, v ∈ a.(mm).(mm_map) -> v.(vend) <= kernel_base) ->
  args_at (mem_of s) K args argv envp -> (forall x, K x -> mapped_in a.(mm).(mm_map) x) ->
  arg_size argv envp < 2 ^ 30 - 8192 -> kernel_base <= p -> p + arg_size argv envp < 2 ^ 32 ->
  length junk = (4 * arg_count argv envp)%nat -> Forall is_byte junk -> Forall (fun x => Forall is_byte x.2) argv ->
  Forall (fun x => Forall is_byte x.2) envp -> block_at (mem_of s) p (junk ++ blob argv ++ blob envp) ->
  exists r s', execve_copy_to_user args p (arg_size argv envp) s = Ok (r, s') /\ s'.(current) = c /\
    (r = (- ENOMEM, 0, 0) /\ no_room s a (arg_size argv envp) \/
     exists v mm', r = (0, v.(vstart), v.(vstart) + 4 * (Z.of_nat (length argv) + 1)) /\
       s'.(proctab) = <[Z.to_nat c := p_mm a mm']> s.(proctab) /\
       created a.(mm) mm' v (Z.lor (Z.lor VM_READ VM_WRITE) VM_ZERO) (arg_size argv envp) /\
       user_base <= v.(vstart) /\ v.(vend) <= kernel_base /\
       block_at (mem_of s') v.(vstart) (arg_image v.(vstart) argv envp) /\
       (forall x, x < kernel_base -> x < v.(vstart) \/ v.(vend) <= x -> mem_of s' !! x = mem_of s !! x)).
Proof.
  intros Hc Ha Hok Hkb Hargs HK Hsz Hp0 Hp1 Hj Hjb Hb1 Hb2 Hblk.
  assert (0 < arg_size argv envp) as Hpos by (unfold arg_size, arg_count; lia).
  unfold execve_copy_to_user.
  destruct (create_zero_area_run s a (arg_size argv envp) (Z.lor (Z.lor VM_READ VM_WRITE) VM_ZERO) Hc Ha Hok Hkb ltac:(lia))
    as (r & s1 & E & Hcur & Hr).
  rewrite (bind_ok _ _ _ _ _ E). cbv beta.
  destruct Hr as [[-> Hno] | (v & mm' & -> & Hpt & Hcr & Hu & Hk & Eput & Hin & Hout)];
    [exists (- ENOMEM, 0, 0), s1; split; [reflexivity|]; split; [exact Hcur | left; split; [reflexivity | exact Hno]]|].
  pose proof Hcr as (_ & _ & _ & Hfree & _ & _ & Hlen & _). unfold user_base, kernel_base in *.
  set (m1 := mem_of s1) in *. set (A := v.(vstart)) in *.
  assert (Z.of_nat (length (junk ++ blob argv ++ blob envp)) = arg_size argv envp) as Htot.
  { rewrite !length_app, Hj. unfold arg_size. lia. }
  rewrite Eput. rewrite <- Htot.
  erewrite bind_ok.
  2: { apply (xmemcpy_run s1 m1 A p (junk ++ blob argv ++ blob envp)).
       - eapply block_agree; [exact Hblk|]. intros x Hx. apply Hout. right. lia.
       - apply Forall_app. split; [exact Hjb|]. apply Forall_app. split; apply blob_bytes; assumption.
       - intros i Hi. exists 0. apply Hin. lia.
       - left. lia. }
  cbv beta zeta. set (m2 := put_bytes m1 A _).
  assert (forall x, x < A \/ A + arg_size argv envp <= x -> m2 !! x = m1 !! x) as Hm2 by (intros x Hx; apply put_bytes_out; lia).
  assert (forall x, K x -> x < A \/ v.(vend) <= x) as HKo.
  { intros x Hx. destruct (HK x Hx) as (w & Hw & Hwx). apply vma_contains_iff in Hwx. destruct (Hfree w Hw); lia. }
  erewrite bind_ok.
  2: { apply (point_args_run s1 K m2 args A argv envp); [| | | lia | lia].
       - eapply args_at_agree; [exact Hargs|]. intros x Hx. specialize (HKo x Hx). rewrite Hm2 by lia. apply Hout, HKo.
       - intros x Hx. specialize (HKo x Hx). lia.
       - intros x Hx. unfold m2. rewrite lookup_put_bytes, decide_True by lia. apply lookup_lt_is_Some. lia. }
  cbv beta. set (m3 := pointed m2 A argv envp).
  erewrite bind_ok by reflexivity. cbv beta. eexists _, _. split; [reflexivity|]. split; [exact Hcur|]. right. exists v, mm'.
  split; [reflexivity|]. split; [exact Hpt|]. split; [rewrite Htot; exact Hcr|]. split; [exact Hu|]. split; [exact Hk|].
  assert (forall x, x < kernel_base -> mem_of (set_env (put_mem s1 m3) (MState (privates (env s1)) (f_count (env s1)) (x_kfree p (x_set_mem m3 (base (env s1)))))) !! x = m3 !! x) as Hfin.
  { intros x Hx. unfold mem_of. cbn [env set_env base]. rewrite x_kfree_ok, x_get_set by exact Hx. reflexivity. }
  split.
  - eapply block_agree; [exact (image_block m2 A argv envp junk Hj (block_put m1 A _)) |]. intros x Hx. rewrite length_arg_image in Hx.
    apply Hfin. unfold kernel_base. lia.
  - intros x Hx Hxo. rewrite Hfin by exact Hx. unfold m3. rewrite pointed_out by (unfold arg_size in *; lia). rewrite Hm2 by lia. apply Hout. lia.
Qed.

(** ** The arguments of the new program *)

Lemma ptrs_lookup (b : Z) (l : list arg) (i : nat) (x : arg) :
  l !! i = Some x -> ptrs b l !! i = Some (b + Z.of_nat (length (blob (take i l)))).
Proof.
  revert b i. induction l as [| y l IH]; intros b [| i] Hi; simplify_eq/=; [rewrite Z.add_0_r; reflexivity|].
  rewrite (IH _ _ Hi). rewrite blob_cons, !length_app. cbn [length]. f_equal. lia.
Qed.

Lemma blob_lookup (m : mem) (b : Z) (l : list arg) (i : nat) (x : arg) :
  block_at m b (blob l) -> l !! i = Some x ->
  block_at m (b + Z.of_nat (length (blob (take i l)))) (x.2 ++ [0]) /\
  (length (blob (take i l)) + length x.2 < length (blob l))%nat.
Proof.
  revert b i. induction l as [| y l IH]; intros b [| i] Hb Hi; simplify_eq/=; rewrite blob_cons in *; apply block_app in Hb as [Hy Hb];
    rewrite !length_app in *; cbn [length] in *.
  - rewrite Z.add_0_r. split; [exact Hy | lia].
  - destruct (IH _ _ Hb Hi) as [H1 H2]. rewrite blob_cons, !length_app. cbn [length]. split; [| lia].
    rewrite <- Z.add_assoc, <- Nat2Z.inj_add in H1. exact H1.
Qed.

Lemma words_lookup (m : mem) (a : Z) (l : list Z) (i : nat) (w : Z) :
  block_at m a (words l) -> l !! i = Some w -> block_at m (a + 4 * Z.of_nat i) (word_bytes w).
Proof.
  revert a i. induction l as [| y l IH]; intros a [| i] Hb Hi; simplify_eq/=; change (words (?z :: l)) with (word_bytes z ++ words l) in Hb;
    apply block_app in Hb as [Hy Hb].
  - rewrite Z.add_0_r. exact Hy.
  - specialize (IH _ _ Hb Hi). change (length (word_bytes y)) with 4%nat in IH. replace (a + 4 * Z.of_nat (S i)) with (a + Z.of_nat 4 + 4 * Z.of_nat i) by lia. exact IH.
Qed.

(** A NULL-terminated array at [arr] of pointers to the strings, all inside the area. *)
Definition arg_vector (m : mem) (v : vma) (arr : Z) (l : list arg) : Prop :=
  (forall i q str, l !! i = Some (q, str) ->
     exists p, load32 m (arr + 4 * Z.of_nat i) = Ok p /\ v.(vstart) <= p /\ p + Z.of_nat (length str) < v.(vend) /\
       block_at m p (str ++ [0])) /\
  load32 m (arr + 4 * Z.of_nat (length l)) = Ok 0.

Lemma vector_of_block (m : mem) (v : vma) (arr b : Z) (l : list arg) :
  0 <= v.(vstart) -> v.(vend) + 4 < 2 ^ 32 -> v.(vstart) <= arr -> arr + 4 * Z.of_nat (length l) < v.(vend) ->
  v.(vstart) <= b -> b + Z.of_nat (length (blob l)) <= v.(vend) ->
  block_at m arr (words (ptrs b l ++ [0])) -> block_at m b (blob l) -> arg_vector m v arr l.
Proof.
  intros H0 H1 H2 H3 H4 H5 Hw Hb.
  assert (forall i w, (i <= length l)%nat -> (ptrs b l ++ [0]) !! i = Some w -> in_u32 w -> load32 m (arr + 4 * Z.of_nat i) = Ok w) as Hload.
  { intros i w Hi Hl Hu. apply (word_in_load m (fun _ => True)). split; [lia|]. split; [lia|]. split; [exact Hu|].
    split; [exact (words_lookup m arr _ i w Hw Hl) | auto]. }
  split.
  - intros i q str Hi. pose proof (lookup_lt_Some _ _ _ Hi) as Hlt. destruct (blob_lookup m b l i (q, str) Hb Hi) as [Hs Hlen]. cbn [snd] in *.
    exists (b + Z.of_nat (length (blob (take i l)))). split; [| split; [lia|]; split; [lia | exact Hs]].
    apply Hload; [lia | apply lookup_app_l_Some, (ptrs_lookup b l i _ Hi) | unfold in_u32; lia].
  - apply Hload; [lia | | unfold in_u32; lia]. rewrite lookup_app_r by (rewrite length_ptrs; lia). rewrite length_ptrs, Nat.sub_diag. reflexivity.
Qed.

Lemma image_vectors (m : mem) (v : vma) (argv envp : list arg) :
  user_base <= v.(vstart) -> v.(vend) <= kernel_base -> v.(vstart) + arg_size argv envp <= v.(vend) ->
  block_at m v.(vstart) (arg_image v.(vstart) argv envp) ->
  arg_vector m v v.(vstart) argv /\ arg_vector m v (v.(vstart) + 4 * (Z.of_nat (length argv) + 1)) envp.
Proof.
  unfold user_base, kernel_base, arg_size, arg_count, arg_image. cbv zeta. intros H1 H2 H3 Hb.
  set (a := v.(vstart)) in *. set (b := a + 4 * Z.of_nat (length argv + length envp + 2)) in *.
  apply block_app in Hb as [Hw Hs]. rewrite length_words, !length_app, !length_ptrs in Hs. cbn [length] in Hs.
  replace (a + _) with b in Hs by (unfold b; lia). apply block_app in Hs as [Hs1 Hs2].
  rewrite (app_assoc _ [0]), words_app in Hw. apply block_app in Hw as [Hw1 Hw2].
  rewrite length_words, length_app, length_ptrs in Hw2. cbn [length] in Hw2.
  split.
  - apply (vector_of_block m v a b); try assumption; lia.
  - apply (vector_of_block m v _ (b + Z.of_nat (length (blob argv)))); try assumption; try lia.
    replace (a + 4 * (Z.of_nat (length argv) + 1)) with (a + Z.of_nat (4 * (length argv + 1))) by lia. exact Hw2.
Qed.

(** Bytes in the areas of the process that survive [mm_exec]. *)
Definition kept (s : st) (a : pcb) (x : Z) : Prop :=
  is_Some (mem_of s !! x) /\ exists v, v ∈ a.(mm).(mm_map) /\ has v.(vflags) VM_KEEPEXEC = true /\ vma_contains v x = true.

(** C39: When [execve] replaces the address space, the new program finds its
    arguments: two NULL-terminated arrays, one behind the other, whose pointers lead
    to copies of the caller's strings, in order, each with its terminator, all inside
    one new readable and writable area.  The argument structure and the arrays that
    describe the strings must lie in areas that survive ([VM_KEEPEXEC], such as the
    stack): they are read again after the others are gone ([arguments_dropped]).  The
    strings may lie anywhere in user memory.  The areas of the process lie below the
    kernel, the strings and arrays take less than 1 GB less 8 KB, and there must be
    heap memory, a descriptor and a free range for the copies.  Memory that survives
    is unchanged. *)
Theorem execve_arguments (s : st) (a : pcb) (args : Z) (argv envp : list arg) (c := s.(current)) (size := arg_size argv envp) :
  0 <= c -> s.(proctab) !! Z.to_nat c = Some a -> mm_ok a.(mm) -> (forall v, v ∈ a.(mm).(mm_map) -> v.(vend) <= kernel_base) ->
  args_at (mem_of s) (kept s a) args argv envp ->
  Forall (string_ok (mem_of s)) argv -> Forall (string_ok (mem_of s)) envp -> size < 2 ^ 30 - 8192 ->
  (x_kmalloc size s.(env).(base)).1 <> 0 -> (forall b : B, is_Some (alloc_vma b)) ->
  (exists b, user_base <= b /\ b + page_align size <= kernel_base /\ free_range a.(mm).(mm_map) b (b + page_align size)) ->
  exists s' v mm', carry_args args s = Ok ((0, v.(vstart), v.(vstart) + 4 * (Z.of_nat (length argv) + 1)), s') /\
    s'.(proctab) = <[Z.to_nat c := p_mm a mm']> s.(proctab) /\ mm_ok mm' /\
    v ∈ mm'.(mm_map) /\ v.(vflags) = Z.lor (Z.lor VM_READ VM_WRITE) VM_ZERO /\
    arg_vector (mem_of s') v v.(vstart) argv /\
    arg_vector (mem_of s') v (v.(vstart) + 4 * (Z.of_nat (length argv) + 1)) envp /\
    (forall x, kept s a x -> mem_of s' !! x = mem_of s !! x).
Proof.
  intros Hc Ha Hok Hkb Hargs Hs1 Hs2 Hsz Hkm Hal (b & Hb1 & Hb2 & Hb3). pose proof (lookup_lt_Some _ _ _ Ha) as Hlt.
  unfold carry_args. destruct (copy_to_kernel_run s (kept s a) args argv envp Hargs) as (r1 & s1 & E1 & C1 & P1 & Hr1); try assumption.
  { intros x [Hx _]. exact Hx. } { fold size. lia. }
  destruct Hr1 as [[_ Hno] | (p & junk & -> & Hp0 & Hp1 & Hj & Hjb & Hblk & Hold)]; [contradiction|].
  rewrite (bind_ok _ _ _ _ _ E1). cbv beta iota.
  destruct (exec_unmap_run s1 a) as (s2 & mm2 & E2 & C2 & P2 & Hok2 & Hsub & Hkeep & Hmem);
    [rewrite C1; exact Hc | rewrite C1, P1; exact Ha | exact Hok | exact Hkb |].
  change (negb (0 =? 0)) with false. cbv iota. rewrite (bind_ok _ _ _ _ _ E2). cbv beta.
  assert (forall x, kept s a x -> mapped_in mm2.(mm_map) x) as Hkm2 by (intros x (_ & v & Hv & Hf & Hx); exists v; auto).
  assert (forall x, kept s a x -> mem_of s2 !! x = mem_of s !! x) as Hsame.
  { intros x Hx. pose proof Hx as [[y Hy] _]. rewrite Hmem by auto. rewrite Hy. apply Hold, Hy. }
  destruct (copy_to_user_run s2 (p_mm a mm2) (kept s a) args p argv envp junk) as (r3 & s3 & E3 & C3 & Hr3); try assumption.
  - rewrite C2, C1. exact Hc.
  - rewrite C2, C1, P2, C1, P1. apply list_lookup_insert_eq, Hlt.
  - intros v Hv. apply Hkb, Hsub, Hv.
  - eapply args_at_agree; [exact Hargs | exact Hsame].
  - eapply Forall_impl; [exact Hs1|]. intros x (_ & _ & _ & Hx). exact Hx.
  - eapply Forall_impl; [exact Hs2|]. intros x (_ & _ & _ & Hx). exact Hx.
  - eapply block_agree; [exact Hblk|]. intros x Hx. apply Hmem. right. lia.
  - destruct Hr3 as [[_ [Hno | Hno]] | (v & mm3 & -> & P3 & Hcr & Hu & Hk & Himg & Hout)].
    { destruct (Hal s2.(env).(base)) as [y Hy]. congruence. }
    { exfalso. apply (Hno b Hb1 Hb2). intros v Hv. apply Hb3, Hsub, Hv. }
    pose proof Hcr as (Hok3 & Hperm & _ & Hfree & Hfl & _ & Hlen & _).
    destruct (image_vectors (mem_of s3) v argv envp Hu Hk) as [V1 V2]; [lia | exact Himg |].
    exists s3, v, mm3. rewrite C2, C1, P2, C1, P1, list_insert_insert_eq in P3. split; [exact E3|]. split; [exact P3|].
    split; [exact Hok3|]. split; [rewrite Hperm; apply list_elem_of_here|]. split; [exact Hfl|]. split; [exact V1|]. split; [exact V2|].
    intros x Hx. destruct (Hkm2 x Hx) as (w & Hw & Hwx). apply vma_contains_iff in Hwx.
    rewrite Hout; [exact (Hsame x Hx) | | destruct (Hfree w Hw); lia].
    pose proof (Hkb w (Hsub w Hw)). lia.
Qed.

End carry.

(** ** Loading an image *)

(** [n] bytes of the file from [pos] on, with zeros behind its end. *)
Definition padded (F : list Z) (pos n : nat) : list Z := take n (drop pos F ++ replicate n 0).

Lemma length_padded (F : list Z) (pos n : nat) : length (padded F pos n) = n.
Proof. unfold padded. rewrite length_take, length_app, length_replicate. lia. Qed.

Lemma padded_lookup (F : list Z) (pos n i : nat) :
  (i < n)%nat -> padded F pos n !! i = Some (default 0 (F !! (pos + i)%nat)).
Proof.
  intros Hi. unfold padded. rewrite lookup_take_lt by exact Hi. rewrite lookup_app, lookup_drop.
  destruct (F !! (pos + i)%nat) eqn:E; [reflexivity|]. apply lookup_ge_None in E. rewrite length_drop. apply lookup_replicate_2. lia.
Qed.

(** What a page fault shows: the bytes read and zeros behind them. *)
Lemma padded_read (F : list Z) (pos n : nat) (k := Nat.min n (length F - pos)) :
  take k (drop pos F) ++ replicate (n - k) 0 = padded F pos n.
Proof.
  unfold padded. destruct (decide (n <= length F - pos)%nat) as [H | H].
  - replace k with n by lia. rewrite Nat.sub_diag, app_nil_r, take_app_le by (rewrite length_drop; lia). reflexivity.
  - replace k with (length (drop pos F)) by (rewrite length_drop; lia). rewrite take_app_ge by (rewrite length_drop; lia).
    rewrite firstn_all, take_replicate. do 2 f_equal. rewrite length_drop. lia.
Qed.

(** What the area of a segment shows at its address: its bytes of the file, and zeros. *)
Definition segment_image (F : list Z) (h : elf32_phdr) : list Z :=
  take (Z.to_nat h.(ph_filesz)) (drop (Z.to_nat h.(ph_offset)) F) ++ replicate (Z.to_nat (h.(ph_memsz) - h.(ph_filesz))) 0.

Lemma memset_put (m : mem) (a : Z) (n : nat) :
  (forall x, a <= x < a + Z.of_nat n -> is_Some (m !! x)) ->
  Cstring.memset m a 0 (Z.of_nat n) = Ok (put_bytes m a (replicate n 0)).
Proof.
  unfold Cstring.memset. rewrite Nat2Z.id. change (s8 0) with 0. revert m a. induction n as [| n IH]; intros m a H; [reflexivity|].
  cbn [memset_loop]. destruct (H a ltac:(lia)) as [b Hb]. unfold sto. rewrite Hb. cbn [res_bind]. change (u8 0) with 0.
  rewrite IH; [reflexivity|]. intros x Hx. rewrite lookup_insert. case_decide; [eauto | apply H; lia].
Qed.

Section load.

Context {B : Type} `{V : VmaEnv B} `{Mm : MmapEnv B} `{X : ExecEnv B} {L : ExecLaws B}.

Abbreviation st := (kst (mstate B)).

(** An open file with the bytes [F], in states that satisfy [inv].  A read inside one
    page gives the bytes of [F] from a position up to the end; behind the end, up to
    [limit], it gives some bytes or none.  Reading leaves user memory alone; reading,
    storing to user memory and allocating the kernel's records keep [inv]. *)
Record reads_file (inv : B -> Prop) (limit file : Z) (F : list Z) : Prop := {
  rf_within len pos (e : mstate B) (n := Nat.min (Z.to_nat len) (length F - Z.to_nat pos)) :
    inv e.(base) -> 0 <= len -> pos mod 4096 + len <= 4096 -> 0 <= pos <= Z.of_nat (length F) ->
    exists e', x_read file len pos e = (Z.of_nat n, take n (drop (Z.to_nat pos) F), e') /\ memS e' = memS e /\ inv e'.(base);
  rf_beyond len pos (e : mstate B) :
    inv e.(base) -> 0 <= len -> pos mod 4096 + len <= 4096 -> Z.of_nat (length F) < pos -> pos + len <= limit ->
    exists d e', x_read file len pos e = (Z.of_nat (length d), d, e') /\ Z.of_nat (length d) <= len /\ memS e' = memS e /\ inv e'.(base);
  rf_store m b : inv b -> inv (x_set_mem m b);
  rf_alloc_vma b p b' : inv b -> alloc_vma b = Some (p, b') -> inv b';
  rf_alloc_private b p b' : inv b -> alloc_private_obj b = Some (p, b') -> inv b';
}.

(** Steps that change user memory and nothing else that matters here. *)
Definition same_procs (s s' : st) : Prop := s'.(current) = s.(current) /\ s'.(proctab) = s.(proctab).

(** The state of the file system and the heap. *)
Definition base_of (s : st) : B := s.(env).(base).

Lemma read_run (inv : B -> Prop) (limit : Z) (s : st) (file len pos : Z) (F : list Z) (n := Nat.min (Z.to_nat len) (length F - Z.to_nat pos)) :
  reads_file inv limit file F -> inv (base_of s) -> 0 <= len -> pos mod 4096 + len <= 4096 -> 0 <= pos <= Z.of_nat (length F) ->
  exists s', on_env (fun e => let '(k, b, e) := x_read file len pos e in ((k, b), e)) s =
    Ok ((Z.of_nat n, take n (drop (Z.to_nat pos) F)), s') /\ same_procs s s' /\ mem_of s' = mem_of s /\ inv (base_of s').
Proof.
  intros HF Hi Hl Hm Hp. destruct (rf_within _ _ _ _ HF len pos s.(env) Hi Hl Hm Hp) as (e' & E & Hm' & Hi'). eexists. split; [unfold on_env; rewrite E; reflexivity|].
  split; [split; reflexivity | split; [exact Hm' | exact Hi']].
Qed.

(** What a fault on the page of the file at [q] shows: [l] has the bytes of the file
    that lie in it. *)
Lemma read_page (inv : B -> Prop) (limit : Z) (s : st) (file q : Z) (F : list Z) :
  reads_file inv limit file F -> inv (base_of s) -> 0 <= q -> (4096 | q) -> q + 4096 <= limit ->
  exists (k : Z) (d : list Z) s', on_env (fun e => let '(k, b, e) := x_read file 4096 q e in ((k, b), e)) s = Ok ((k, d), s') /\
    same_procs s s' /\ mem_of s' = mem_of s /\ inv (base_of s') /\ 0 <= k <= 4096 /\
    let l := take (Z.to_nat k) d ++ replicate (Z.to_nat (4096 - k)) 0 in
    length l = Z.to_nat 4096 /\
    forall i, (i < Z.to_nat 4096)%nat -> (Z.to_nat q + i < length F)%nat -> l !! i = F !! (Z.to_nat q + i)%nat.
Proof.
  intros HF Hi Hq Hm%Z.mod_divide Hlim; [|lia]. destruct (decide (q <= Z.of_nat (length F))) as [Hin | Hout].
  - destruct (read_run inv limit s file 4096 q F HF Hi ltac:(lia) ltac:(lia) ltac:(lia)) as (s' & E & Hs & Hmem & Hi').
    set (n := Nat.min _ _) in E. exists (Z.of_nat n), (take n (drop (Z.to_nat q) F)), s'. split_and!; auto; try lia. cbv zeta.
    rewrite Nat2Z.id, take_take, Nat.min_id. replace (Z.to_nat (4096 - Z.of_nat n)) with (Z.to_nat 4096 - n)%nat by lia.
    pose proof (padded_read F (Z.to_nat q) (Z.to_nat 4096)) as Ep. cbv zeta in Ep. fold n in Ep. rewrite Ep.
    split; [apply length_padded|]. intros i Hi1 Hi2. rewrite padded_lookup by exact Hi1.
    destruct (lookup_lt_is_Some_2 F _ Hi2) as [x ->]. reflexivity.
  - destruct (rf_beyond _ _ _ _ HF 4096 q s.(env) Hi ltac:(lia) ltac:(lia) ltac:(lia) Hlim) as (d & e' & E & Hd & Hmem & Hi').
    eexists _, d, _. split; [unfold on_env; rewrite E; reflexivity|]. split; [split; reflexivity|].
    split; [exact Hmem|]. split; [exact Hi'|]. split; [lia|]. split; [rewrite length_app, length_take, length_replicate; lia | intros i _ ?; lia].
Qed.

Lemma map_pages_run (inv : B -> Prop) (limit file : Z) (F : list Z) (v : vma) (off : Z) (n k : nat) (s : st) (a := v.(vstart)) :
  reads_file inv limit file F -> inv (base_of s) -> 0 <= a -> 0 <= off -> (4096 | off) ->
  off + 4096 * Z.of_nat (k + n) <= limit -> off + 4096 * Z.of_nat (k + n) < 2 ^ 32 -> a + 4096 * Z.of_nat (k + n) < 2 ^ 32 ->
  exists l s', map_pages n v file off (a + 4096 * Z.of_nat k) s = Ok (tt, s') /\ same_procs s s' /\ inv (base_of s') /\
    mem_of s' = put_bytes (mem_of s) (a + 4096 * Z.of_nat k) l /\ length l = (4096 * n)%nat /\
    forall i, (i < 4096 * n)%nat -> (Z.to_nat off + 4096 * k + i < length F)%nat -> l !! i = F !! (Z.to_nat off + 4096 * k + i)%nat.
Proof.
  intros HF Hi Ha Ho Hom. revert k s Hi. induction n as [| n IH]; intros k s Hi Hlim H1 H2.
  - exists [], s. split; [reflexivity|]. split; [split; reflexivity|]. split; [exact Hi|]. split; [reflexivity|]. split; [cbn; lia | intros; lia].
  - cbn [map_pages]. fold a. replace (a + 4096 * Z.of_nat k -% a) with (4096 * Z.of_nat k) by (rewrite uN_id; lia).
    rewrite (uN_id 32 (off + _)) by lia. unfold FRAME_SIZE.
    destruct (read_page inv limit s file (off + 4096 * Z.of_nat k) F HF Hi ltac:(lia) (Z.divide_add_r _ _ _ Hom (Z.divide_factor_l _ _)) ltac:(lia))
      as (r & d & s1 & E1 & [C1 P1] & M1 & I1 & Hr & Hlen & Hl).
    rewrite (bind_ok _ _ _ _ _ E1). cbv beta iota zeta. erewrite bind_ok by reflexivity. cbv beta.
    rewrite (proj2 (Z.ltb_ge _ 0)) by lia. cbv zeta in Hlen, Hl. set (l1 := take _ _ ++ _) in *.
    replace (Z.to_nat (a - (a + 4096 * Z.of_nat k))) with 0%nat by lia. cbn [drop Z.of_nat]. rewrite Z.add_0_r.
    change (x_mem (base (env s1))) with (mem_of s1). rewrite M1.
    set (m1 := put_bytes _ _ _).
    erewrite bind_ok; [| change (set_bytes m1 s1) with (Ok (tt, put_mem s1 m1)); reflexivity]. cbv beta.
    replace (a + 4096 * Z.of_nat k + 4096) with (a + 4096 * Z.of_nat (S k)) by lia.
    destruct (IH (S k) (put_mem s1 m1) (rf_store _ _ _ _ HF m1 _ I1) ltac:(lia) ltac:(lia) ltac:(lia)) as (l2 & s2 & E2 & [C2 P2] & I2 & M2 & Hlen2 & Hl2).
    exists (l1 ++ l2), s2. split; [exact E2|]. split; [split; [rewrite C2; exact C1 | rewrite P2; exact P1]|]. split; [exact I2|].
    split; [|split].
    + rewrite M2, mem_of_put, put_bytes_app. unfold m1. f_equal. lia.
    + rewrite length_app. lia.
    + intros i Hi1 Hi2. rewrite lookup_app. destruct (decide (i < Z.to_nat 4096)%nat) as [Hlt | Hge].
      * specialize (Hl i Hlt). destruct (lookup_lt_is_Some_2 l1 i) as [x Hx]; [lia|]. rewrite Hx in *. rewrite Hl by lia. f_equal. lia.
      * rewrite (lookup_ge_None_2 l1) by lia. rewrite Hlen, Hl2 by lia. f_equal. lia.
Qed.

(** Areas with the same bounds and flags in the same order. *)
Definition same_area (v w : vma) : Prop := v.(vstart) = w.(vstart) /\ v.(vend) = w.(vend) /\ v.(vflags) = w.(vflags).

Lemma set_area_same (p q op : Z) (l : list vma) :
  Forall2 same_area l (set_area p (fun v => Vma v.(vid) v.(vstart) v.(vend) v.(vflags) q op) l).
Proof. unfold set_area. induction l as [| v l IH]; simpl; constructor; [destruct (_ =? _); repeat split | exact IH]. Qed.

Lemma same_areas_ok (l l' : list vma) : Forall2 same_area l l' -> areas_ok l -> areas_ok l'.
Proof.
  induction 1 as [| v w l l' (H1 & H2 & _) Hl IH]; [auto|]. rewrite !areas_ok_cons. intros (Hv & Hb & Hok).
  split; [unfold area_ok in *; rewrite <- H1, <- H2; exact Hv|]. split; [| exact (IH Hok)].
  clear IH Hok. induction Hl as [| x y l l' (H3 & H4 & _) Hl IH]; constructor.
  - apply Forall_cons in Hb as [Hb _]. unfold before in *. rewrite <- H2, <- H3. exact Hb.
  - apply Forall_cons in Hb as [_ Hb]. exact (IH Hb).
Qed.

Lemma same_areas_in (l l' : list vma) (v : vma) : Forall2 same_area l l' -> v ∈ l -> exists w, w ∈ l' /\ same_area v w.
Proof. intros H Hv. apply list_elem_of_lookup in Hv as [i Hi]. destruct (Forall2_lookup_l _ _ _ _ _ H Hi) as (w & Hw & E). exists w. split; [eapply list_elem_of_lookup_2, Hw | exact E]. Qed.

Lemma same_areas_free (l l' : list vma) (a b : Z) : Forall2 same_area l l' -> free_range l a b -> free_range l' a b.
Proof.
  intros H Hf w Hw. apply list_elem_of_lookup in Hw as [i Hi]. destruct (Forall2_lookup_r _ _ _ _ _ H Hi) as (v & Hv & E1 & E2 & _).
  rewrite <- E1, <- E2. apply Hf. eapply list_elem_of_lookup_2, Hv.
Qed.

(** Descriptors and mapping records can be had. *)
Definition allocs_ok : Prop :=
  (forall b : B, exists p b', alloc_vma b = Some (p, b')) /\
  (forall b : B, exists p b', alloc_private_obj b = Some (p, b') /\ x_mem b' = x_mem b).

Lemma do_mmap_fixed_run (mm : mm_struct) (file addr len prot off : Z) (e : mstate B) :
  allocs_ok -> mm_ok mm -> 0 <= addr -> addr mod 4096 = 0 -> 0 < len -> addr + len + 4095 < 2 ^ 32 ->
  free_range mm.(mm_map) addr (addr + page_align len) ->
  exists v mm' e', do_mmap mm file addr len prot MAP_FIXED off e = (0, addr, mm', e') /\ memS e' = memS e /\
    (forall inv : B -> Prop, (forall b p b', inv b -> alloc_vma b = Some (p, b') -> inv b') ->
       (forall b p b', inv b -> alloc_private_obj b = Some (p, b') -> inv b') -> inv e.(base) -> inv e'.(base)) /\ mm_ok mm' /\
    vma_get mm' addr = Some v /\ v.(vstart) = addr /\ v.(vend) = addr + page_align len /\ v.(vflags) = prot /\
    (forall a b, free_range mm.(mm_map) a b -> b <= addr \/ addr + page_align len <= a -> free_range mm'.(mm_map) a b) /\
    (forall u, u ∈ mm.(mm_map) -> exists w, w ∈ mm'.(mm_map) /\ same_area u w).
Proof.
  intros [Hav Hap] Hok H0 Hal Hl Hw Hf. unfold do_mmap, alloc_private. destruct (Hap e.(base)) as (q & b1 & E1 & M1). rewrite E1. cbv iota zeta.
  set (e1 := file_ref _ _). assert (base e1 = b1) as Eb by reflexivity. destruct (Hav b1) as (p & b2 & E2).
  unfold mmap_create_vma. change (has MAP_FIXED MAP_FIXED) with true. cbv iota.
  destruct (page_align_add addr len H0 Hal Hl Hw) as (_ & Hb & Hm).
  destruct (vma_create_fixed_spec mm addr len prot p e1 (MState e1.(privates) e1.(f_count) b2)) as
    [(v & mm1 & -> & Es & Hok1 & Hperm & Hvok & _ & Efl & _ & Hlen & _) | [_ Hno]]; try assumption; [| | contradiction].
  { cbn [alloc_vma mmap_env]. rewrite Eb, E2. reflexivity. }
  assert (v.(vend) = addr + page_align len) as Ee.
  { destruct Hvok as (_ & _ & _ & Ha1 & Ha2). rewrite Es in *. clear - Hal Hb Hm Ha2 Hlen H0. Z.div_mod_to_equations. lia. }
  cbv iota zeta. set (l' := set_area _ _ _). pose proof (set_area_same v.(vid) q mmap_vma_ops mm1.(mm_map)) as Hs.
  change (has MAP_FIXED MAP_SHARED) with false in *. cbv iota in *. fold l' in Hs.
  assert (v ∈ mm1.(mm_map)) as Hv by (rewrite Hperm; left).
  destruct (same_areas_in _ _ _ Hs Hv) as (w & Hw' & W1 & W2 & W3).
  exists w, (set_map mm1 l'), (MState e1.(privates) e1.(f_count) b2).
  split; [rewrite Es; reflexivity|]. split; [unfold memS; cbn [base]; rewrite (x_alloc_vma _ _ _ E2); exact M1|].
  split; [intros inv I1 I2 Hi; exact (I1 _ _ _ (I2 _ _ _ Hi E1) E2)|].
  assert (mm_ok (set_map mm1 l')) as Hok2 by exact (same_areas_ok _ _ Hs Hok1). split; [exact Hok2|].
  split. { apply vma_get_spec; [exact Hok2|]. split; [exact Hw'|]. apply vma_contains_iff. rewrite <- W1, <- W2. destruct Hvok; lia. }
  split; [congruence|]. split; [congruence|]. split; [congruence|]. split.
  - intros a b Hfr Hd. apply (same_areas_free _ _ _ _ Hs). intros u Hu. rewrite Hperm in Hu. apply elem_of_cons in Hu as [-> | Hu]; [lia | exact (Hfr u Hu)].
  - intros u Hu. apply (same_areas_in _ _ _ Hs). rewrite Hperm. right. exact Hu.
Qed.

(** A loadable segment that starts on a page in memory and in the file, whose bytes lie
    in the file and whose pages can be read, with a writable area when it has zeros
    behind the bytes of the file. *)
Definition seg_ok (limit : Z) (F : list Z) (h : elf32_phdr) : Prop :=
  0 <= h.(ph_vaddr) /\ h.(ph_vaddr) mod 4096 = 0 /\ 0 < h.(ph_memsz) /\ 0 <= h.(ph_filesz) <= h.(ph_memsz) /\
  0 <= h.(ph_offset) /\ h.(ph_offset) mod 4096 = 0 /\ h.(ph_offset) + h.(ph_filesz) <= Z.of_nat (length F) /\
  h.(ph_vaddr) + h.(ph_memsz) + 4095 < 2 ^ 32 /\ h.(ph_offset) + h.(ph_memsz) + 4095 <= limit < 2 ^ 32 /\
  (h.(ph_filesz) < h.(ph_memsz) -> has (Z.land h.(ph_flags) 7) VM_WRITE = true).

(** The pages of a segment. *)
Definition seg_end (h : elf32_phdr) : Z := h.(ph_vaddr) + page_align h.(ph_memsz).

Lemma segment_block (m : mem) (F : list Z) (h : elf32_phdr) (l : list Z) (m1 := put_bytes m h.(ph_vaddr) l)
    (m2 := put_bytes m1 (h.(ph_vaddr) + h.(ph_filesz)) (replicate (Z.to_nat (h.(ph_memsz) - h.(ph_filesz))) 0)) :
  0 <= h.(ph_filesz) <= h.(ph_memsz) -> 0 <= h.(ph_offset) -> h.(ph_offset) + h.(ph_filesz) <= Z.of_nat (length F) ->
  h.(ph_memsz) <= Z.of_nat (length l) ->
  (forall i, (i < length l)%nat -> (Z.to_nat h.(ph_offset) + i < length F)%nat -> l !! i = F !! (Z.to_nat h.(ph_offset) + i)%nat) ->
  block_at m2 h.(ph_vaddr) (segment_image F h) /\
  (forall x, x < h.(ph_vaddr) \/ h.(ph_vaddr) + Z.of_nat (length l) <= x -> m2 !! x = m !! x).
Proof.
  intros Hf Ho Hfit Hn Hl. assert (length (take (Z.to_nat h.(ph_filesz)) (drop (Z.to_nat h.(ph_offset)) F)) = Z.to_nat h.(ph_filesz)) as Elen
    by (rewrite length_take, length_drop; lia). split.
  - apply block_app. rewrite Elen, Z2Nat.id by lia. split; [| apply block_put].
    intros i b Hi. pose proof (lookup_lt_Some _ _ _ Hi) as Hlt. rewrite Elen in Hlt.
    unfold m2. rewrite put_bytes_out by lia. apply (block_put m). rewrite Hl by lia.
    apply lookup_take_Some in Hi as [Hi _]. rewrite lookup_drop in Hi. exact Hi.
  - intros x Hx. unfold m2, m1. rewrite !put_bytes_out; [reflexivity | lia | rewrite length_replicate; lia].
Qed.

(** The address space of the current process has all areas of [mm], and [h]'s. *)
Definition seg_mapped (mm : mm_struct) (h : elf32_phdr) : Prop :=
  exists v, v ∈ mm.(mm_map) /\ v.(vstart) = h.(ph_vaddr) /\ v.(vend) = seg_end h /\ v.(vflags) = Z.land h.(ph_flags) 7.

Lemma elf_map_segment_run (inv : B -> Prop) (limit : Z) (s : st) (a : pcb) (file : Z) (F : list Z) (h : elf32_phdr) (c := s.(current)) :
  allocs_ok -> reads_file inv limit file F -> inv (base_of s) ->
  0 <= c -> s.(proctab) !! Z.to_nat c = Some a -> mm_ok a.(mm) -> seg_ok limit F h ->
  free_range a.(mm).(mm_map) h.(ph_vaddr) (seg_end h) ->
  exists s' mm', elf_map_segment file h s = Ok (0, s') /\ inv (base_of s') /\ s'.(current) = c /\
    s'.(proctab) = <[Z.to_nat c := p_mm a mm']> s.(proctab) /\ mm_ok mm' /\ seg_mapped mm' h /\
    block_at (mem_of s') h.(ph_vaddr) (segment_image F h) /\
    (forall x, x < h.(ph_vaddr) \/ seg_end h <= x -> mem_of s' !! x = mem_of s !! x) /\
    (forall x y, free_range a.(mm).(mm_map) x y -> y <= h.(ph_vaddr) \/ seg_end h <= x -> free_range mm'.(mm_map) x y) /\
    (forall u, u ∈ a.(mm).(mm_map) -> exists w, w ∈ mm'.(mm_map) /\ same_area u w).
Proof.
  intros Hal HF Hi Hc Ha Hok (H1 & H2 & H3 & H4 & H5 & Hom & Hfit & H6 & H7 & H8) Hfr. unfold seg_end in *. apply Z.mod_divide in Hom; [|lia].
  destruct (page_align_add _ _ H1 H2 H3 H6) as (_ & Hb & Hm).
  destruct (do_mmap_fixed_run a.(mm) file h.(ph_vaddr) h.(ph_memsz) (Z.land h.(ph_flags) 7) h.(ph_offset) s.(env) Hal Hok H1 H2 H3 H6 Hfr)
    as (v & mm' & e' & Ed & Me & Hinv & Hok' & Hg & Vs & Ve & Vf & Hfr' & Hkeep).
  specialize (Hinv inv (rf_alloc_vma _ _ _ _ HF) (rf_alloc_private _ _ _ _ HF) Hi).
  unfold elf_map_segment. erewrite bind_ok by reflexivity. cbv beta. fold c.
  erewrite bind_ok; [| apply (on_mm_run s c _ a (0, h.(ph_vaddr)) mm' e' Hc Ha); rewrite Ed; reflexivity]. cbv beta iota. set (s1 := set_procs _ _).
  change (negb (0 =? 0)) with false. cbv iota.
  assert (s1.(proctab) !! Z.to_nat c = Some (p_mm a mm')) as Hp1 by (apply list_lookup_insert_eq; eapply lookup_lt_Some, Ha).
  erewrite bind_ok; [| apply (proc_run s1 c _ Hc Hp1)]. cbv beta. change (mm (p_mm a mm')) with mm'. rewrite Hg.
  assert (page_base v.(vstart) = v.(vstart)) as Epb by (rewrite page_base_eq by (rewrite Vs; unfold in_u32; lia); rewrite Vs; lia).
  set (n := pages_of v). assert (4096 * Z.of_nat n = page_align h.(ph_memsz)) as En.
  { unfold n, pages_of. rewrite Epb, Vs, Ve. unfold FRAME_SIZE. lia. }
  rewrite Epb. destruct (map_pages_run inv limit file F v h.(ph_offset) n 0 s1 HF Hinv) as (l & s2 & E2 & [C2 P2] & I2 & M2 & Hll & Hl); try exact Hom; try (rewrite ?Vs; lia).
  replace (v.(vstart) + 4096 * Z.of_nat 0) with v.(vstart) in * by lia. replace (Z.to_nat h.(ph_offset) + 4096 * 0)%nat with (Z.to_nat h.(ph_offset)) in Hl by lia.
  rewrite (bind_ok _ _ _ _ _ E2). cbv beta. change (mem_of s1) with (memS e') in M2. rewrite Me, Vs in M2.
  assert (Z.of_nat (length l) = page_align h.(ph_memsz)) as En' by lia. rewrite <- Hll in Hl.
  destruct (segment_block (memS s.(env)) F h l H4 H5 Hfit ltac:(lia) Hl) as [Hblk Hout]. rewrite En' in Hout.
  set (m2 := put_bytes _ _ (replicate _ _)) in *.
  assert (exists s3, (if h.(ph_filesz) <? h.(ph_memsz) then user_memset v (h.(ph_vaddr) +% h.(ph_filesz)) (h.(ph_memsz) - h.(ph_filesz)) else mret tt) s2 = Ok (tt, s3) /\
    same_procs s2 s3 /\ mem_of s3 = m2 /\ inv (base_of s3)) as (s3 & E3 & [C3 P3] & M3 & I3).
  { destruct (Z.ltb_spec h.(ph_filesz) h.(ph_memsz)).
    - unfold user_memset. rewrite Vf, H8 by lia. rewrite andb_false_r. erewrite bind_ok by reflexivity. cbv beta.
      change (x_mem (base (env s2))) with (mem_of s2). rewrite uN_id by lia.
      pose proof (memset_put (mem_of s2) (h.(ph_vaddr) + h.(ph_filesz)) (Z.to_nat (h.(ph_memsz) - h.(ph_filesz)))) as Es.
      rewrite Z2Nat.id in Es by lia. rewrite Es.
      + exists (put_mem s2 m2). split; [unfold m2; rewrite M2; reflexivity|]. split; [split; reflexivity|]. split; [apply mem_of_put | apply (rf_store _ _ _ _ HF), I2].
      + intros x Hx. rewrite M2, lookup_put_bytes, decide_True by lia. apply lookup_lt_is_Some. lia.
    - exists s2. split; [reflexivity|]. split; [split; reflexivity|]. split; [| exact I2]. rewrite M2. unfold m2. replace (Z.to_nat (_ - _)) with 0%nat by lia. reflexivity. }
  rewrite (bind_ok _ _ _ _ _ E3). cbv beta. exists s3, mm'. split; [reflexivity|]. split; [exact I3|]. split; [rewrite C3, C2; reflexivity|].
  split; [rewrite P3, P2; reflexivity|]. split; [exact Hok'|].
  split. { exists v. apply vma_get_spec in Hg as [Hv _]; [| exact Hok']. auto. }
  rewrite M3. split; [exact Hblk|]. split; [exact Hout|]. split; [exact Hfr' | exact Hkeep].
Qed.

(** The [n] program headers of the file from [pos] on. *)
Fixpoint headers (F : list Z) (n : nat) (phentsize pos : Z) : list elf32_phdr :=
  match n with
  | 0%nat => []
  | Datatypes.S n => phdr_of (take 32 (drop (Z.to_nat pos) F)) :: headers F n phentsize (pos + phentsize)
  end.

Definition loadable (h : elf32_phdr) : bool := h.(ph_type) =? ELF_PHTYPE_LOAD.

Definition apart_segs (h h' : elf32_phdr) : Prop := seg_end h <= h'.(ph_vaddr) \/ seg_end h' <= h.(ph_vaddr).

(** The loadable segments can all be placed in [mm]. *)
Definition placeable (limit : Z) (F : list Z) (mm : mm_struct) (l : list elf32_phdr) : Prop :=
  Forall (seg_ok limit F) l /\ ForallOrdPairs apart_segs l /\ Forall (fun h => free_range mm.(mm_map) h.(ph_vaddr) (seg_end h)) l.

(** The segment is mapped and shows its image. *)
Definition seg_loaded (F : list Z) (mm : mm_struct) (m : mem) (h : elf32_phdr) : Prop :=
  seg_mapped mm h /\ block_at m h.(ph_vaddr) (segment_image F h).

(** [mm'] has the areas of [mm]. *)
Definition keeps (mm mm' : mm_struct) : Prop := forall u, u ∈ mm.(mm_map) -> exists w, w ∈ mm'.(mm_map) /\ same_area u w.

Lemma keeps_trans (m1 m2 m3 : mm_struct) : keeps m1 m2 -> keeps m2 m3 -> keeps m1 m3.
Proof.
  intros H1 H2 u Hu. destruct (H1 u Hu) as (v & Hv & A1 & A2 & A3). destruct (H2 v Hv) as (w & Hw & B1 & B2 & B3).
  exists w. split; [exact Hw|]. unfold same_area. rewrite A1, A2, A3. auto.
Qed.

Lemma length_segment_image (limit : Z) (F : list Z) (h : elf32_phdr) :
  seg_ok limit F h -> Z.of_nat (length (segment_image F h)) = h.(ph_memsz).
Proof.
  intros (_ & _ & _ & H4 & H5 & _ & Hfit & _). unfold segment_image. rewrite length_app, length_take, length_drop, length_replicate. lia.
Qed.

(** Loading further segments leaves a loaded one as it is. *)
Lemma seg_loaded_keep (limit : Z) (F : list Z) (m1 m2 : mm_struct) (b1 b2 : mem) (h : elf32_phdr) :
  seg_ok limit F h -> seg_loaded F m1 b1 h -> keeps m1 m2 -> (forall x, h.(ph_vaddr) <= x < seg_end h -> b2 !! x = b1 !! x) -> seg_loaded F m2 b2 h.
Proof.
  intros Hs [(v & Hv & E1 & E2 & E3) Hb] Hk Hm. pose proof Hs as (H1 & H2 & H3 & _ & _ & _ & _ & H6 & _). split.
  - destruct (Hk v Hv) as (w & Hw & A1 & A2 & A3). exists w. repeat split; congruence.
  - apply (block_agree b1); [exact Hb|]. intros x Hx. rewrite (length_segment_image limit) in Hx by exact Hs. apply Hm.
    unfold seg_end. destruct (page_align_add _ _ H1 H2 H3 H6) as (_ & Hl & _). lia.
Qed.

Lemma read_header_run (inv : B -> Prop) (limit : Z) (s : st) (file pos : Z) (F : list Z) :
  reads_file inv limit file F -> inv (base_of s) -> 0 <= pos -> pos mod 4096 + 32 <= 4096 -> pos + 32 <= Z.of_nat (length F) ->
  exists s', elf_read_program_header file pos s = Ok ((0, phdr_of (take 32 (drop (Z.to_nat pos) F))), s') /\ same_procs s s' /\
    mem_of s' = mem_of s /\ inv (base_of s').
Proof.
  intros HF Hi Hp Hm Hl. unfold elf_read_program_header.
  destruct (read_run inv limit s file sizeof_phdr pos F HF Hi ltac:(unfold sizeof_phdr; lia) Hm ltac:(lia)) as (s' & E & Hs & Hmem & Hi').
  rewrite (bind_ok _ _ _ _ _ E). cbv beta iota. unfold sizeof_phdr in *. replace (Nat.min _ _) with 32%nat by lia.
  exists s'. split; [reflexivity | auto].
Qed.

(** Header [i] of those from [pos] on lies in the file and in one page. *)
Definition header_at (F : list Z) (pos phentsize i : Z) : Prop :=
  pos + i * phentsize + 32 <= Z.of_nat (length F) /\ (pos + i * phentsize) mod 4096 + 32 <= 4096.

Lemma load_segments_run (inv : B -> Prop) (limit file phentsize : Z) (F : list Z) (n : nat) (pos : Z) (s : st) (a : pcb) (c := s.(current))
    (hs := headers F n phentsize pos) (l := List.filter loadable hs) :
  allocs_ok -> reads_file inv limit file F -> inv (base_of s) -> 0 <= c -> s.(proctab) !! Z.to_nat c = Some a -> mm_ok a.(mm) ->
  0 <= pos -> 0 <= phentsize -> Z.of_nat (length F) < 2 ^ 31 -> phentsize < 2 ^ 16 ->
  (forall i, 0 <= i < Z.of_nat n -> header_at F pos phentsize i) ->
  Forall (fun h => elf_program_header_valid h = true) hs -> placeable limit F a.(mm) l ->
  exists s' mm', load_segments n file phentsize pos s = Ok (true, s') /\ s'.(current) = c /\
    s'.(proctab) = <[Z.to_nat c := p_mm a mm']> s.(proctab) /\ mm_ok mm' /\ keeps a.(mm) mm' /\
    Forall (seg_loaded F mm' (mem_of s')) l /\
    (forall x, Forall (fun h => x < h.(ph_vaddr) \/ seg_end h <= x) l -> mem_of s' !! x = mem_of s !! x).
Proof.
  intros Hal HF Hi Hc Ha Hok Hp He HlF He2. subst hs l c. revert pos s a Hi Hc Ha Hok Hp.
  induction n as [| n IH]; intros pos s a Hi Hc Ha Hok Hp Hfit Hv Hpl.
  - exists s, a.(mm). split; [reflexivity|]. split; [reflexivity|]. split.
    { symmetry. apply list_insert_id. rewrite Ha. destruct a; reflexivity. }
    split; [exact Hok|]. split; [intros u Hu; exists u; repeat split; exact Hu|]. split; [constructor | reflexivity].
  - cbn [headers load_segments] in *. pose proof (Hfit 0 ltac:(lia)) as [Hfit0 Hpg]. rewrite Z.mul_0_l, Z.add_0_r in Hfit0, Hpg.
    destruct (read_header_run inv limit s file pos F HF Hi Hp Hpg Hfit0) as (s1 & E1 & [C1 P1] & M1 & I1).
    rewrite (bind_ok _ _ _ _ _ E1). cbv beta iota. change (negb (0 =? 0)) with false. cbv iota.
    set (h := phdr_of _) in *. apply Forall_cons in Hv as [Hv0 Hv]. rewrite Hv0. cbn [negb].
    rewrite (uN_id 32 (pos + phentsize)) by lia. rewrite <- C1 in *. rewrite <- P1 in *. rewrite <- M1.
    assert (forall i, 0 <= i < Z.of_nat n -> header_at F (pos + phentsize) phentsize i) as Hfit'.
    { intros i Hi'. specialize (Hfit (i + 1) ltac:(lia)). unfold header_at in *.
      replace (pos + phentsize + i * phentsize) with (pos + (i + 1) * phentsize) by lia. exact Hfit. }
    cbn [List.filter] in *. change (ph_type h =? ELF_PHTYPE_LOAD) with (loadable h). destruct (loadable h) eqn:El; cbn [negb].
    + destruct Hpl as (Hs & Hd & Hf). apply Forall_cons in Hs as [Hs0 Hs]. apply Forall_cons in Hf as [Hf0 Hf]. inversion Hd as [| ? ? Hd0 Hd']; subst.
      destruct (elf_map_segment_run inv limit s1 a file F h Hal HF I1 Hc Ha Hok Hs0 Hf0) as (s2 & mm1 & E2 & I2 & C2 & P2 & Hok2 & Hm2 & Hb2 & Ho2 & Hf2 & Hk2).
      rewrite (bind_ok _ _ _ _ _ E2). cbv beta. change (negb (0 =? 0)) with false. cbv iota. rewrite <- C2 in *.
      rewrite Forall_forall in Hd0, Hf.
      destruct (IH (pos + phentsize) s2 (p_mm a mm1)) as (s3 & mm2 & E3 & C3 & P3 & Hok3 & Hk3 & Hl3 & Ho3); try assumption; try lia.
      * rewrite P2. apply list_lookup_insert_eq. eapply lookup_lt_Some, Ha.
      * split; [exact Hs|]. split; [exact Hd'|]. apply Forall_forall. intros g Hg. apply Hf2; [exact (Hf g Hg)|]. destruct (Hd0 g Hg); auto.
      * exists s3, mm2. split; [exact E3|]. split; [exact C3|]. split; [rewrite P3, P2, list_insert_insert_eq; reflexivity|]. split; [exact Hok3|].
        split; [exact (keeps_trans _ _ _ Hk2 Hk3)|]. split.
        -- constructor; [| exact Hl3]. apply (seg_loaded_keep limit F mm1 mm2 (mem_of s2)); [exact Hs0 | split; assumption | exact Hk3|].
           intros x Hx. apply Ho3. apply Forall_forall. intros g Hg. destruct (Hd0 g Hg); lia.
        -- intros x Hx. apply Forall_cons in Hx as [Hx0 Hx]. rewrite (Ho3 x Hx). apply Ho2, Hx0.
    + apply (IH (pos + phentsize) s1 a); try assumption. lia.
Qed.

(** C40: loading a program.  The file system gives the bytes [F] of an ELF file, page by
    page (see [reads_file], which asks nothing of reads across a page boundary and
    nothing but some bytes of reads behind the end).  Its header is valid; its program
    headers lie in the file, none across a page boundary, and none is of the kinds
    DYNAMIC, INTERP or SHLIB, for which [load_elf] gives up; the loadable segments start
    on page boundaries in memory and in the file, their bytes lie in the file, they do
    not overlap each other or an area of the process, and one that is larger in memory
    than in the file is writable, since otherwise clearing the rest panics
    ([readonly_bss_panics]).  Then, when descriptors and mapping records can be had,
    [load_elf] returns the entry point of the header; every loadable segment has an
    area with its bounds and protection, and its memory reads as the segment's bytes of
    the file followed by zeros up to the size in memory.  The areas there before are
    kept, the area list stays sorted and disjoint, and no byte outside the pages of the
    segments changes. *)
Theorem load_elf_image (inv : B -> Prop) (limit : Z) (s : st) (a : pcb) (inode file : Z) (F : list Z) (e : mstate B) (c := s.(current))
    (h := hdr_of (take 52 F)) (hs := headers F (Z.to_nat h.(e_phnum)) h.(e_phentsize) h.(e_phoff)) (l := List.filter loadable hs) :
  allocs_ok -> x_open inode s.(env) = (0, file, e) -> memS e = mem_of s -> x_readable file e = true -> reads_file inv limit file F -> inv e.(base) ->
  0 <= c -> s.(proctab) !! Z.to_nat c = Some a -> mm_ok a.(mm) ->
  52 <= Z.of_nat (length F) < 2 ^ 31 -> elf_header_valid h = true ->
  0 <= h.(e_phoff) -> 0 <= h.(e_phentsize) < 2 ^ 16 ->
  (forall i, 0 <= i < h.(e_phnum) -> header_at F h.(e_phoff) h.(e_phentsize) i) ->
  Forall (fun h => elf_program_header_valid h = true) hs -> placeable limit F a.(mm) l ->
  exists s' mm', load_elf inode s = Ok (h.(e_entry), s') /\ s'.(current) = c /\
    s'.(proctab) = <[Z.to_nat c := p_mm a mm']> s.(proctab) /\ mm_ok mm' /\ keeps a.(mm) mm' /\
    Forall (seg_loaded F mm' (mem_of s')) l /\
    (forall x, Forall (fun h => x < h.(ph_vaddr) \/ seg_end h <= x) l -> mem_of s' !! x = mem_of s !! x).
Proof.
  intros Hal Ho Hme Hr HF Hi Hc Ha Hok HlF Hv Hpo Hpe Hfit Hhs Hpl. unfold load_elf.
  erewrite bind_ok; [| unfold on_env; rewrite Ho; reflexivity]. cbv beta iota. change (negb (0 =? 0)) with false. cbv iota.
  erewrite bind_ok by reflexivity. cbv beta. cbn [env set_env]. rewrite Hr. cbn [negb].
  destruct (read_run inv limit (set_env s e) file sizeof_hdr 0 F HF Hi ltac:(unfold sizeof_hdr; lia) ltac:(vm_compute; congruence) ltac:(lia)) as (s1 & E1 & [C1 P1] & M1 & I1).
  rewrite (bind_ok _ _ _ _ _ E1). cbv beta iota. unfold sizeof_hdr in *. change (Z.to_nat 0) with 0%nat. rewrite drop_0.
  replace (Nat.min _ _) with 52%nat by lia. change ((Z.of_nat 52 <? 0) || (Z.of_nat 52 <? 52)) with false. cbv iota zeta. fold h. rewrite Hv. cbn [negb].
  destruct (load_segments_run inv limit file h.(e_phentsize) F (Z.to_nat h.(e_phnum)) h.(e_phoff) s1 a) as (s2 & mm' & E2 & C2 & P2 & H); try assumption; try lia.
  - rewrite C1. exact Hc.
  - rewrite C1, P1. exact Ha.
  - intros i Hi'. apply Hfit. lia.
  - rewrite (bind_ok _ _ _ _ _ E2). cbv beta iota. exists s2, mm'. split; [reflexivity|]. split; [rewrite C2; exact C1|].
    rewrite P2, P1, C1. split; [reflexivity|]. rewrite M1 in H. change (mem_of (set_env s e)) with (memS e) in H. rewrite Hme in H. exact H.
Qed.
End load.

(** ** An instance *)

Fixpoint block_check (m : mem) (a : Z) (l : list Z) : bool :=
  match l with
  | [] => true
  | b :: l => bool_decide (m !! a = Some b) && block_check m (a + 1) l
  end.

Lemma block_check_ok (m : mem) (a : Z) (l : list Z) : block_check m a l = true -> block_at m a l.
Proof.
  revert a. induction l as [| c l IH]; intros a H i b Hi; [discriminate|]. cbn in H. apply andb_true_iff in H as [H1 H2].
  apply bool_decide_eq_true in H1. destruct i as [| i]; simplify_eq/=; [rewrite Z.add_0_r; exact H1|].
  specialize (IH _ H2 _ _ Hi). rewrite <- IH. f_equal. lia.
Qed.

(** Memory alone as the state: descriptors and page tables are not kept, the heap has
    one block at a fixed address. *)
#[local] Instance plain_vma : VmaEnv mem := {|
  alloc_vma s := Some (99, s);
  free_vma _ s := s;
  map_page _ _ s := (0, s);
  copy_page _ _ s := (0, s);
  pm_unmap _ s := (0, s);
  pm_disable_write _ s := (0, s);
  new_pgdir s := (1, s);
  clone_pgdir s := (1, s);
  free_pgdir _ s := s;
  vma_ops _ := None;
|}.

#[local] Instance plain_mmap : MmapEnv mem := {|
  alloc_private_obj s := Some (1, s);
  free_private_obj _ s := s;
  kalloc_frame _ s := (None, s);
  kfree_frame _ s := s;
  kmap_tmp_page _ s := (0, s);
  kunmap_tmp_page _ s := s;
  map_frame _ _ _ s := (0, s);
  Mmap.memset _ _ _ s := s;
  file_read _ _ _ _ s := (0, s);
  file_write _ _ _ _ s := (0, s);
|}.

Definition heap_block : Z := 3489660928.

(** A program of 86 bytes with one segment, 2 bytes longer in memory, with the given
    program header kind and protection. *)
Definition exec_image (kind prot : Z) : list Z :=
  ([127; 69; 76; 70; 1; 1; 1] ++ replicate 9 0) ++ [2; 0; 3; 0] ++ words [1; 134512724; 52; 0; 0] ++
  [52; 0; 32; 0; 1; 0; 0; 0; 0; 0; 0; 0] ++ words [kind; 0; 134512640; 134512640; 86; 88; prot; 4096] ++ [205; 100].

Definition exec_file : list Z := exec_image ELF_PHTYPE_LOAD 7.

Definition exec_with (F : list Z) : ExecEnv mem := {|
  x_mem b := b;
  x_set_mem m _ := m;
  x_kmalloc n b :=
    if bool_decide (Forall (fun x => b !! x = None) (zseq heap_block (Z.to_nat n))) && (n <? 65536)
    then (heap_block, put_bytes b heap_block (replicate (Z.to_nat n) 0)) else (0, b);
  x_kfree _ b := b;
  x_namei _ s := (0, 1, s);
  x_mode _ _ := 32768;
  x_open _ s := (0, 1, s);
  x_readable _ _ := true;
  x_read _ len pos s :=
    let n := Nat.min (Z.to_nat len) (length F - Z.to_nat pos) in
    (Z.of_nat n, take n (drop (Z.to_nat pos) F), s);
|}.

#[local] Instance plain_exec : ExecEnv mem := exec_with exec_file.

#[local] Instance plain_laws : ExecLaws mem.
Proof.
  split; try reflexivity.
  - intros b b' p [= _ ->]. reflexivity.
  - intros n b b' p Hn E Hp. cbn [x_kmalloc plain_exec exec_with x_mem] in *.
    destruct (bool_decide _ && _) eqn:Ec; injection E as <- <-; [|contradiction].
    apply andb_true_iff in Ec as [Ef Es]. apply bool_decide_eq_true in Ef. apply Z.ltb_lt in Es. unfold heap_block, kernel_base in *.
    split; [lia|]. split; [lia|]. split.
    + intros x c Hx. assert (~ (3489660928 <= x < 3489660928 + n)) as Hout.
      { intros Hin. rewrite (proj1 (Forall_forall _ _) Ef x) in Hx by (apply elem_of_zseq; lia). discriminate. }
      split; [exact Hout|]. rewrite put_bytes_out; [exact Hx | rewrite length_replicate; lia].
    + intros x Hx. exists 0. split; [|unfold is_byte; lia]. rewrite lookup_put_bytes, length_replicate, decide_True by lia. apply lookup_replicate_2. lia.
Qed.

(** One argument, whose string lies in an area that is dropped; the descriptions lie on
    the stack. *)
Definition exec_mem : mem :=
  put_bytes (put_bytes (put_bytes ∅ 3221221376 (words [0; 0; 3221221632; 3221221888; 1; 0])) 3221221632 (words [1; 4096]))
    4096 [97; 0].

Definition exec_pcb : pcb :=
  Pcb 0 0 0 (MM 0 [Vma 1 4096 8192 6 0 0; Vma 2 STACK_START STACK_END USTACK_FLAGS 0 0] 0) 7 1 0 PROC_RUNNING [] [] 0 [] 0
    (SigStruct 0 0 0 [] []) [] 0 0.

Definition exec_kst : kst (mstate mem) := Kst [exec_pcb] 0 [] [] 256 (Timers ∅ [] 0) ∅ (MState ∅ ∅ exec_mem).

Lemma exec_word (a w : Z) :
  STACK_START <= a -> a + 4 <= STACK_END -> in_u32 w -> block_check exec_mem a (word_bytes w) = true ->
  word_in (mem_of exec_kst) (kept exec_kst exec_pcb) a w.
Proof.
  intros H1 H2 Hw Hb. apply block_check_ok in Hb. unfold STACK_START, STACK_END, STACK_SIZE, kernel_base in *.
  split; [lia|]. split; [lia|]. split; [exact Hw|]. split; [exact Hb|].
  intros j Hj. split.
  - destruct (lookup_lt_is_Some_2 (word_bytes w) (Z.to_nat j)) as [c Hc]; [change (length (word_bytes w)) with 4%nat; lia|].
    specialize (Hb _ _ Hc). rewrite Z2Nat.id in Hb by lia. exists c. exact Hb.
  - exists (Vma 2 STACK_START STACK_END USTACK_FLAGS 0 0). split; [apply list_elem_of_further, list_elem_of_here|]. split; [reflexivity|].
    apply vma_contains_iff. cbn [vstart vend]. unfold STACK_START, STACK_END, STACK_SIZE, kernel_base. lia.
Qed.

Lemma execve_arguments_witness :
  exists s' v p, carry_args 3221221376 exec_kst = Ok ((0, v.(vstart), v.(vstart) + 8), s') /\
    load32 (mem_of s') v.(vstart) = Ok p /\ block_at (mem_of s') p [97; 0] /\ load32 (mem_of s') (v.(vstart) + 4) = Ok 0.
Proof.
  destruct (execve_arguments exec_kst exec_pcb 3221221376 [(4096, [97])] []) as (s' & v & mm' & Hr & _ & _ & _ & _ & [Hv Hn] & _ & _).
  - cbn. lia.
  - reflexivity.
  - split; [repeat constructor; cbn; unfold STACK_START, STACK_END, STACK_SIZE, kernel_base; lia | repeat constructor].
    unfold before. cbn. unfold STACK_START, STACK_END, STACK_SIZE, kernel_base. lia.
  - intros w Hw. repeat (apply elem_of_cons in Hw as [-> | Hw]; [cbn; unfold STACK_END, kernel_base; lia|]). apply not_elem_of_nil in Hw. destruct Hw.
  - split.
    + exists 3221221632. split; [apply exec_word; vm_compute; congruence || (split; congruence) |].
      intros [| i] q str Hi; [| discriminate]. injection Hi as <- <-. split; apply exec_word; vm_compute; congruence || (split; congruence).
    + exists 3221221888. split; [apply exec_word; vm_compute; congruence || (split; congruence) | intros i q str Hi; discriminate].
    + apply exec_word; vm_compute; congruence || (split; congruence).
    + apply exec_word; vm_compute; congruence || (split; congruence).
  - constructor; [| constructor]. split; [cbn; lia|]. split; [cbn; lia|]. split; [apply block_check_ok; vm_compute; reflexivity | repeat constructor; unfold is_byte; lia].
  - constructor.
  - vm_compute. reflexivity.
  - vm_compute. discriminate.
  - intros b. eexists. reflexivity.
  - exists 8192. split; [unfold user_base; lia|]. split; [vm_compute; discriminate|].
    intros w Hw. repeat (apply elem_of_cons in Hw as [-> | Hw]; [vm_compute; (left; congruence) || (right; congruence)|]). apply not_elem_of_nil in Hw. destruct Hw.
  - destruct (Hv 0%nat 4096 [97] eq_refl) as (p & Hp & _ & _ & Hb). exists s', v, p.
    rewrite Z.mul_0_r, Z.add_0_r in Hp. split; [exact Hr|]. split; [exact Hp|]. split; [exact Hb | exact Hn].
Defined.

Lemma exec_with_reads (F : list Z) (limit : Z) :
  @reads_file mem plain_vma plain_mmap (exec_with F) (fun _ => True) limit 1 F.
Proof.
  split; try auto.
  - intros len pos e n _ _ _ _. eexists. split; [reflexivity | auto].
  - intros len pos e _ Hl _ Hp _. exists [], e. split; [|cbn; auto]. cbn [x_read exec_with].
    replace (length F - Z.to_nat pos)%nat with 0%nat by lia. rewrite Nat.min_0_r. reflexivity.
Qed.

Lemma load_elf_image_witness :
  exists s', load_elf 1 exec_kst = Ok (134512724, s') /\ block_at (mem_of s') 134512640 (exec_file ++ [0; 0]).
Proof.
  destruct (load_elf_image (fun _ => True) 8192 exec_kst exec_pcb 1 1 exec_file exec_kst.(env)) as (s' & mm' & Hr & _ & _ & _ & _ & Hl & _).
  - split; [intros b; eexists _, _; reflexivity | intros b; eexists _, _; split; reflexivity].
  - reflexivity.
  - reflexivity.
  - reflexivity.
  - apply exec_with_reads.
  - exact I.
  - cbn. lia.
  - reflexivity.
  - split; [repeat constructor; cbn; unfold STACK_START, STACK_END, STACK_SIZE, kernel_base; lia | repeat constructor].
    unfold before. cbn. unfold STACK_START, STACK_END, STACK_SIZE, kernel_base. lia.
  - vm_compute. split; congruence.
  - vm_compute. reflexivity.
  - vm_compute. congruence.
  - vm_compute. split; congruence.
  - intros i Hi. change (e_phnum _) with 1 in Hi. replace i with 0 by lia. vm_compute. split; congruence.
  - repeat constructor.
  - split; [| split].
    + constructor; [| constructor]. vm_compute. repeat split; congruence.
    + repeat constructor.
    + constructor; [| constructor]. intros w Hw.
      repeat (apply elem_of_cons in Hw as [-> | Hw]; [vm_compute; (left; congruence) || (right; congruence)|]). apply not_elem_of_nil in Hw. destruct Hw.
  - exists s'. split; [exact Hr|]. apply Forall_cons in Hl as [[_ Hb] _]. exact Hb.
Defined.

(** A segment that is larger in memory than in the file and not writable: clearing the
    rest is a fault in kernel mode. *)
Lemma readonly_bss_panics : @load_elf mem plain_vma plain_mmap (exec_with (exec_image ELF_PHTYPE_LOAD 5)) 1 exec_kst = Panic.
Proof. vm_compute. reflexivity. Qed.

(** A file that asks for an interpreter is given up. *)
Lemma interpreter_refused : @load_elf mem plain_vma plain_mmap (exec_with (exec_image ELF_PHTYPE_INTERP 5)) 1 exec_kst = Ok (0, exec_kst).
Proof. vm_compute. reflexivity. Qed.

(** The arguments described in an area that [mm_exec] drops, which [execve_copy_to_user]
    still reads: the descriptions are gone. *)
Definition low_args : mem :=
  put_bytes (put_bytes (put_bytes ∅ 4096 (words [0; 0; 4352; 4608; 1; 0])) 4352 (words [1; 5120])) 5120 [97; 0].

Lemma arguments_dropped : carry_args 4096 (put_mem exec_kst low_args) = Fault.
Proof. vm_compute. reflexivity. Qed.
