(* ===== verification/Execfs.v ===== *)
(** * Programs on the file systems of modules and of memory

    [load_elf] is proved against files that read as [reads_file] says.  Here: an open
    file of modfs and an open file of ramfs do, in any environment that keeps the state
    of the file system and whose reads are those of the file system. *)

From S2P Require Import Prelude Bitops Abi Addr Vma Mmap Timer Sig Sched Vfs Cstring Ramfs Modfs Exec.

(** The file system's state [fs], apart from user memory and the kernel's records,
    with the read operation [rd] of the file. *)
Section files.

Context {B : Type} `{V : VmaEnv B} `{Mm : MmapEnv B} `{X : ExecEnv B}.

Abbreviation k := (kst (vfs ramfs)).

Context (fs : B -> k) (set_fs : k -> B -> B) (rd : Z -> Z -> Z -> ST k (Z * list Z * Z)).

Record holds_fs : Prop := {
  hf_get s b : fs (set_fs s b) = s;
  hf_mem s b : x_mem (set_fs s b) = x_mem b;
  hf_store m b : fs (x_set_mem m b) = fs b;
  hf_vma b p b' : alloc_vma b = Some (p, b') -> fs b' = fs b;
  hf_private b p b' : alloc_private_obj b = Some (p, b') -> fs b' = fs b;
  hf_read file len pos (e : mstate B) n d p s :
    rd file len pos (fs e.(base)) = Ok ((n, d, p), s) ->
    x_read file len pos e = (n, d, MState e.(privates) e.(Mmap.f_count) (set_fs s e.(base)));
}.

Lemma fs_reads_file (inv : k -> Prop) (limit file : Z) (F : list Z) :
  holds_fs ->
  (forall len pos s, inv s -> 0 <= len -> pos mod 4096 + len <= 4096 -> 0 <= pos <= Z.of_nat (length F) ->
     let n := Nat.min (Z.to_nat len) (length F - Z.to_nat pos) in
     exists p, rd file len pos s = Ok ((Z.of_nat n, take n (drop (Z.to_nat pos) F), p), s)) ->
  (forall len pos s, inv s -> 0 <= len -> pos mod 4096 + len <= 4096 -> Z.of_nat (length F) < pos -> pos + len <= limit ->
     exists d p, rd file len pos s = Ok ((Z.of_nat (length d), d, p), s) /\ Z.of_nat (length d) <= len) ->
  reads_file (fun b => inv (fs b)) limit file F.
Proof.
  intros H Hw Hb. split.
  - intros len pos e n Hi H1 H2 H3. destruct (Hw len pos _ Hi H1 H2 H3) as (p & E).
    eexists. split; [apply (hf_read H _ _ _ _ _ _ _ _ E)|]. unfold memS. cbn [base].
    rewrite (hf_mem H), (hf_get H). auto.
  - intros len pos e Hi H1 H2 H3 H4. destruct (Hb len pos _ Hi H1 H2 H3 H4) as (d & p & E & Hd).
    eexists d, _. split; [apply (hf_read H _ _ _ _ _ _ _ _ E)|]. split; [exact Hd|]. unfold memS. cbn [base].
    rewrite (hf_mem H), (hf_get H). auto.
  - intros m b. rewrite (hf_store H). auto.
  - intros b p b' Hi E. rewrite (hf_vma H _ _ _ E). exact Hi.
  - intros b p b' Hi E. rewrite (hf_private H _ _ _ E). exact Hi.
Qed.

End files.

(** ** A boot module *)

Section modfs.

Context `{E : ModEnv}.

(** The file at [fp] is open on a module with the bytes [D]; the memory behind the
    module, up to [limit] bytes from its start, can be read. *)
Definition module_open (limit fp : Z) (D : list Z) (s : kst (vfs ramfs)) : Prop :=
  exists f i ml, s.(env).(files) !! fp = Some f /\ s.(env).(inodes) !! f.(f_inode) = Some i /\
    mod_list !! i.(i_private) = Some ml /\ i.(i_size) = Z.of_nat (length D) /\
    (forall j b, D !! j = Some b -> mod_mem !! (ml.(mod_start) + Z.of_nat j) = Some b) /\
    (forall j, 0 <= j < limit -> is_Some (mod_mem !! (ml.(mod_start) + j))) /\
    0 <= ml.(mod_start) /\ ml.(mod_start) + Z.of_nat (length D) < 2 ^ 32 /\ ml.(mod_start) + limit < 2 ^ 32 /\
    Z.of_nat (length D) < 2 ^ 31 /\ limit < 2 ^ 31.

Lemma mod_bytes_some (n : nat) : forall addr,
  (forall j, 0 <= j < Z.of_nat n -> is_Some (mod_mem !! (addr + j))) -> 0 <= addr -> addr + Z.of_nat n <= 2 ^ 32 ->
  exists d, mod_bytes n addr = Ok d /\ length d = n.
Proof.
  induction n as [| n IH]; intros addr Hm H0 H1; [exists []; split; reflexivity|]. cbn [mod_bytes].
  destruct (Hm 0 ltac:(lia)) as [b Hb]. rewrite Z.add_0_r in Hb. rewrite Hb.
  destruct n as [| n]; [exists [b]; split; reflexivity|].
  replace (addr +% 1) with (addr + 1) by word_lia.
  destruct (IH (addr + 1)) as (d & -> & Hd); [| lia | lia |].
  - intros j Hj. rewrite <- Z.add_assoc. apply Hm. lia.
  - exists (b :: d). split; [reflexivity | cbn; lia].
Qed.

(** At any position from 0 to [limit], [modfs_read] gives bytes and no error. *)
Lemma modfs_read_any (limit fp len pos : Z) (D : list Z) (s : kst (vfs ramfs)) :
  module_open limit fp D s -> 0 <= len -> Z.of_nat (length D) < pos -> pos + len <= limit ->
  exists d p, modfs_read fp len pos s = Ok ((Z.of_nat (length d), d, p), s) /\ Z.of_nat (length d) <= len.
Proof.
  intros (f & i & ml & Hf & Hi & Hml & Hsz & _ & Hlim & Hs0 & Hs1 & Hs2 & Hs3 & Hs4) Hl Hp Hpl.
  assert (Z.min len (i.(i_size) -% pos) = len) as Hmin by (rewrite Hsz; word_lia).
  unfold modfs_read. erewrite bind_ok; [|unfold fload; rewrite Hf; reflexivity]. cbv beta.
  erewrite bind_ok; [|apply iload_run, Hi]. cbv beta.
  erewrite bind_ok; [|unfold mod_load; rewrite Hml; reflexivity]. cbv beta zeta. rewrite Hmin.
  replace (ml.(mod_start) +% pos) with (ml.(mod_start) + pos) by word_lia.
  destruct (mod_bytes_some (Z.to_nat len) (ml.(mod_start) + pos)) as (d & Ed & Hd); [| lia | lia |].
  - intros j Hj. rewrite <- Z.add_assoc. apply Hlim. lia.
  - erewrite bind_ok by (unfold st_res; rewrite Ed; reflexivity). cbv beta.
    exists d, (pos +% len). split; [|lia]. unfold mret, st_ret. rewrite sN_id by lia. do 4 f_equal. lia.
Qed.

(** An open module satisfies what [load_elf] asks of a file. *)
Lemma modfs_reads_file {B : Type} `{V : VmaEnv B} `{Mm : MmapEnv B} `{X : ExecEnv B} (fs : B -> kst (vfs ramfs))
    (set_fs : kst (vfs ramfs) -> B -> B) (limit fp : Z) (D : list Z) :
  holds_fs fs set_fs modfs_read -> reads_file (fun b => module_open limit fp D (fs b)) limit fp D.
Proof.
  intros H. apply (fs_reads_file fs set_fs modfs_read _ _ _ _ H).
  - intros len pos s (f & i & ml & Hf & Hi & Hml & Hsz & HD & _ & Hs0 & Hs1 & _ & Hs3 & _) Hl _ Hp. cbv zeta.
    pose proof (modfs_read_correct fp len pos f i ml D s Hf Hi Hml HD Hsz Hs0 Hs1 Hs3 Hl Hp) as Er. cbv zeta in Er.
    eexists. rewrite Er, length_take, length_drop.
    replace (take (Nat.min _ _) (drop (Z.to_nat pos) D)) with (take (Z.to_nat len) (drop (Z.to_nat pos) D)); [reflexivity|].
    apply list_eq. intros o. rewrite !lookup_take, !lookup_drop. repeat case_decide; try reflexivity; try lia.
    apply lookup_ge_None_2. lia.
  - intros len pos s Hs Hl _ Hp Hlim. apply (modfs_read_any limit fp len pos D s Hs Hl Hp Hlim).
Qed.

End modfs.

(** ** A file in memory *)

(** The file at [fp] is open on a ramfs file with the bytes [F], in frames of 4096
    bytes. *)
Definition memory_open (fp : Z) (F : list Z) (s : kst (vfs ramfs)) : Prop :=
  exists f i, s.(env).(files) !! fp = Some f /\ s.(env).(inodes) !! f.(f_inode) = Some i /\
    i.(i_size) = Z.of_nat (length F) /\ Z.of_nat (length F) < 2 ^ 31 /\
    forall p, 0 <= p < Z.of_nat (length F) ->
      exists g b, i.(i_list) !! Z.to_nat (p / 4096) = Some g /\ s.(env).(fdata).(frames) !! g = Some b /\
        b !! Z.to_nat (p mod 4096) = F !! Z.to_nat p.

(** Inside a page, [ramfs_read] gives the bytes of the file. *)
Lemma ramfs_read_page (fp len pos : Z) (F : list Z) (s : kst (vfs ramfs)) (n := Nat.min (Z.to_nat len) (length F - Z.to_nat pos)) :
  memory_open fp F s -> 0 <= len -> pos mod 4096 + len <= 4096 -> 0 <= pos ->
  exists p, ramfs_read fp len pos s = Ok ((Z.of_nat n, take n (drop (Z.to_nat pos) F), p), s).
Proof.
  intros (f & i & Hf & Hi & Hsz & Hlt & HF) Hl Hpg Hp. unfold ramfs_read.
  erewrite bind_ok; [|unfold fload; rewrite Hf; reflexivity]. cbv beta.
  erewrite bind_ok; [|apply iload_run, Hi]. cbv beta. rewrite Hsz.
  destruct ((len =? 0) || (Z.of_nat (length F) <=? pos)) eqn:E0.
  { exists pos. replace n with 0%nat by lia. reflexivity. }
  apply orb_false_iff in E0 as [E0 E1]. destruct (HF pos ltac:(lia)) as (g & b & Hg & Hb & _).
  replace (Z.min len (Z.of_nat (length F) - pos)) with (Z.of_nat n) by lia.
  erewrite bind_ok; [|apply (read_loop_run s i.(i_list) g b pos (Z.of_nat n) Hg Hb Hp); lia]. cbv beta. cbn [fst snd].
  eexists. unfold mret, st_ret. rewrite sN_id by lia. do 4 f_equal. rewrite Nat2Z.id.
  apply list_eq. intros o. destruct (decide (o < n)%nat) as [Ho | Ho]; [|rewrite !lookup_take_ge by lia; reflexivity].
  rewrite !lookup_take_lt, !lookup_drop by exact Ho.
  destruct (HF (pos + Z.of_nat o) ltac:(lia)) as (g' & b' & Hg' & Hb' & Ho').
  replace ((pos + Z.of_nat o) / 4096) with (pos / 4096) in Hg' by lia.
  replace ((pos + Z.of_nat o) mod 4096) with (pos mod 4096 + Z.of_nat o) in Ho' by lia.
  rewrite Hg in Hg'. injection Hg' as <-. rewrite Hb in Hb'. injection Hb' as <-.
  rewrite Z2Nat.inj_add, Nat2Z.id in Ho' by lia. rewrite Ho'. f_equal. lia.
Qed.

(** An open ramfs file satisfies what [load_elf] asks of a file. *)
Lemma ramfs_reads_file {B : Type} `{V : VmaEnv B} `{Mm : MmapEnv B} `{X : ExecEnv B} (fs : B -> kst (vfs ramfs))
    (set_fs : kst (vfs ramfs) -> B -> B) (limit fp : Z) (F : list Z) :
  holds_fs fs set_fs ramfs_read -> reads_file (fun b => memory_open fp F (fs b)) limit fp F.
Proof.
  intros H. apply (fs_reads_file fs set_fs ramfs_read _ _ _ _ H).
  - intros len pos s Hs Hl Hpg Hp. apply ramfs_read_page; [exact Hs | lia..].
  - intros len pos s Hs Hl Hpg Hp _. destruct (ramfs_read_page fp len pos F s Hs Hl Hpg ltac:(lia)) as (p & E).
    exists [], p. rewrite E. replace (Nat.min _ _) with 0%nat by lia. split; [reflexivity | cbn; lia].
Qed.
