(* ===== verification/Dispatch.v ===== *)
(** * The table of system calls (dispatch/dispatch.c, include/telos/syscall.h)

    The numbers of the calls, the table indexed by them, and the part of
    [syscall_entry] (kernel/entry.S) that uses it.  An entry of the table is the
    name of its handler; the handlers themselves are the definitions of the same
    names in Process.v, Signal.v, Time.v, Mmap.v, Namei.v, Super.v, Fileops.v,
    Pipe.v and Exec.v, except that [sys_exit] is assembly code that changes to
    another stack and calls [do_exit]. *)

From S2P Require Import Prelude.

Inductive call_name : Type :=
| SYS_YIELD
| SYS_EXIT
| SYS_WAITID
| SYS_GETPID
| SYS_GETPPID
| SYS_SLEEP
| SYS_SIGRETURN
| SYS_KILL
| SYS_SIGQUEUE
| SYS_SIGWAIT
| SYS_SIGSUSPEND
| SYS_SIGACTION
| SYS_SIGMASK
| SYS_OPEN
| SYS_CLOSE
| SYS_READ
| SYS_PREAD
| SYS_WRITE
| SYS_PWRITE
| SYS_LSEEK
| SYS_IOCTL
| SYS_ALARM
| SYS_TIMER_CREATE
| SYS_TIMER_DELETE
| SYS_TIMER_GETTIME
| SYS_TIMER_SETTIME
| SYS_TIME
| SYS_CLOCK_GETRES
| SYS_CLOCK_GETTIME
| SYS_CLOCK_SETTIME
| SYS_SBRK
| SYS_MMAP
| SYS_MUNMAP
| SYS_MOUNT
| SYS_UMOUNT
| SYS_MKDIR
| SYS_READDIR
| SYS_MKNOD
| SYS_RMDIR
| SYS_UNLINK
| SYS_LINK
| SYS_RENAME
| SYS_CHDIR
| SYS_STAT
| SYS_TRUNCATE
| SYS_FCNTL
| SYS_FORK
| SYS_EXECVE
| SYS_FSTAT
| SYS_PIPE.

(** The constants of telos/syscall.h. *)
Definition call_number (c : call_name) : Z :=
  match c with
  | SYS_YIELD => 0
  | SYS_EXIT => 1
  | SYS_WAITID => 2
  | SYS_GETPID => 3
  | SYS_GETPPID => 4
  | SYS_SLEEP => 5
  | SYS_SIGRETURN => 6
  | SYS_KILL => 7
  | SYS_SIGQUEUE => 8
  | SYS_SIGWAIT => 9
  | SYS_SIGSUSPEND => 10
  | SYS_SIGACTION => 11
  | SYS_SIGMASK => 12
  | SYS_OPEN => 13
  | SYS_CLOSE => 14
  | SYS_READ => 15
  | SYS_PREAD => 16
  | SYS_WRITE => 17
  | SYS_PWRITE => 18
  | SYS_LSEEK => 19
  | SYS_IOCTL => 20
  | SYS_ALARM => 21
  | SYS_TIMER_CREATE => 22
  | SYS_TIMER_DELETE => 23
  | SYS_TIMER_GETTIME => 24
  | SYS_TIMER_SETTIME => 25
  | SYS_TIME => 26
  | SYS_CLOCK_GETRES => 27
  | SYS_CLOCK_GETTIME => 28
  | SYS_CLOCK_SETTIME => 29
  | SYS_SBRK => 30
  | SYS_MMAP => 40
  | SYS_MUNMAP => 41
  | SYS_MOUNT => 42
  | SYS_UMOUNT => 43
  | SYS_MKDIR => 44
  | SYS_READDIR => 45
  | SYS_MKNOD => 46
  | SYS_RMDIR => 47
  | SYS_UNLINK => 48
  | SYS_LINK => 49
  | SYS_RENAME => 50
  | SYS_CHDIR => 51
  | SYS_STAT => 52
  | SYS_TRUNCATE => 53
  | SYS_FCNTL => 54
  | SYS_FORK => 55
  | SYS_EXECVE => 56
  | SYS_FSTAT => 57
  | SYS_PIPE => 58
  end.

Definition SYSCALL_MAX : Z := 59.
Definition NR_SYSCALLS : Z := SYSCALL_MAX.

Inductive handler : Type :=
| sys_execve
| sys_fork
| sys_yield
| sys_exit
| sys_waitid
| sys_getpid
| sys_getppid
| sys_sleep
| sig_restore
| sys_kill
| sys_sigqueue
| sys_sigwait
| sys_sigsuspend
| sys_sigaction
| sys_sigprocmask
| sys_open
| sys_close
| sys_read
| sys_pread
| sys_write
| sys_pwrite
| sys_lseek
| sys_readdir
| sys_ioctl
| sys_mknod
| sys_mkdir
| sys_rmdir
| sys_chdir
| sys_link
| sys_unlink
| sys_rename
| sys_mount
| sys_umount
| sys_stat
| sys_fstat
| sys_truncate
| sys_fcntl
| sys_alarm
| sys_timer_create
| sys_timer_delete
| sys_timer_gettime
| sys_timer_settime
| sys_time
| sys_clock_getres
| sys_clock_gettime
| sys_clock_settime
| sys_sbrk
| sys_mmap
| sys_munmap
| sys_pipe.

(** The designated initialisers. *)
Definition systab_entries : list (call_name * handler) :=
  [(SYS_EXECVE, sys_execve);
   (SYS_FORK, sys_fork);
   (SYS_YIELD, sys_yield);
   (SYS_EXIT, sys_exit);
   (SYS_WAITID, sys_waitid);
   (SYS_GETPID, sys_getpid);
   (SYS_GETPPID, sys_getppid);
   (SYS_SLEEP, sys_sleep);
   (SYS_SIGRETURN, sig_restore);
   (SYS_KILL, sys_kill);
   (SYS_SIGQUEUE, sys_sigqueue);
   (SYS_SIGWAIT, sys_sigwait);
   (SYS_SIGSUSPEND, sys_sigsuspend);
   (SYS_SIGACTION, sys_sigaction);
   (SYS_SIGMASK, sys_sigprocmask);
   (SYS_OPEN, sys_open);
   (SYS_CLOSE, sys_close);
   (SYS_READ, sys_read);
   (SYS_PREAD, sys_pread);
   (SYS_WRITE, sys_write);
   (SYS_PWRITE, sys_pwrite);
   (SYS_LSEEK, sys_lseek);
   (SYS_READDIR, sys_readdir);
   (SYS_IOCTL, sys_ioctl);
   (SYS_MKNOD, sys_mknod);
   (SYS_MKDIR, sys_mkdir);
   (SYS_RMDIR, sys_rmdir);
   (SYS_CHDIR, sys_chdir);
   (SYS_LINK, sys_link);
   (SYS_UNLINK, sys_unlink);
   (SYS_RENAME, sys_rename);
   (SYS_MOUNT, sys_mount);
   (SYS_UMOUNT, sys_umount);
   (SYS_STAT, sys_stat);
   (SYS_FSTAT, sys_fstat);
   (SYS_TRUNCATE, sys_truncate);
   (SYS_FCNTL, sys_fcntl);
   (SYS_ALARM, sys_alarm);
   (SYS_TIMER_CREATE, sys_timer_create);
   (SYS_TIMER_DELETE, sys_timer_delete);
   (SYS_TIMER_GETTIME, sys_timer_gettime);
   (SYS_TIMER_SETTIME, sys_timer_settime);
   (SYS_TIME, sys_time);
   (SYS_CLOCK_GETRES, sys_clock_getres);
   (SYS_CLOCK_GETTIME, sys_clock_gettime);
   (SYS_CLOCK_SETTIME, sys_clock_settime);
   (SYS_SBRK, sys_sbrk);
   (SYS_MMAP, sys_mmap);
   (SYS_MUNMAP, sys_munmap);
   (SYS_PIPE, sys_pipe)].

(** Elements without an initialiser are [NULL]. *)
Definition systab : list (option handler) :=
  foldl (fun t e => <[Z.to_nat (call_number e.1) := Some e.2]> t) (replicate (Z.to_nat SYSCALL_MAX) None) systab_entries.

(** What [syscall_entry] does with the number in [eax]: return -1 for a number
    that is too large, compared without sign, or call the handler.  Calling [NULL]
    is a [Fault]. *)
Definition syscall_entry {S : Type} (call : handler -> ST S Z) (eax : Z) : ST S Z :=
  if NR_SYSCALLS <=? eax then mret (-1)
  else
    h ← st_res (aload systab eax);
    match h with
    | Some f => call f
    | None => fault
    end.

#[export] Instance call_name_eq_dec : EqDecision call_name.
Proof. solve_decision. Defined.

#[export] Instance handler_eq_dec : EqDecision handler.
Proof. solve_decision. Defined.

(** No two calls have the same number, and no two numbers the same handler. *)
Lemma systab_entries_distinct :
  NoDup ((fun e => call_number e.1) <$> systab_entries) /\ NoDup (snd <$> systab_entries).
Proof. split; apply (bool_decide_unpack _); vm_compute; exact I. Qed.

(** Every entry is stored under its number. *)
Lemma systab_entry (c : call_name) (h : handler) :
  (c, h) ∈ systab_entries -> systab !! Z.to_nat (call_number c) = Some (Some h).
Proof.
  intros H. apply list_elem_of_lookup in H as [i H].
  do 60 (destruct i as [| i]; [first [discriminate H | injection H as <- <-; reflexivity]|]). discriminate H.
Qed.

(** The numbers 31 to 39 have no handler; all others below [NR_SYSCALLS] have one. *)
Lemma systab_gap (n : Z) :
  0 <= n < NR_SYSCALLS -> (systab !! Z.to_nat n = Some None <-> 31 <= n <= 39).
Proof.
  unfold NR_SYSCALLS, SYSCALL_MAX. intros H. rewrite <- (Z2Nat.id n) at 2 3 by lia. assert (Z.to_nat n < 59)%nat as Hn by lia.
  generalize dependent (Z.to_nat n). clear. intros k Hk.
  do 59 (destruct k as [| k]; [split; [first [discriminate | intros _; lia] | first [reflexivity | lia]]|]). lia.
Qed.

(** A system call with a number that the table defines runs its handler, one with
    a number that is too large returns -1, and one in the gap calls [NULL]. *)
Theorem syscall_entry_correct {S : Type} (call : handler -> ST S Z) (eax : Z) (s : S) :
  in_u32 eax ->
  (forall c h, (c, h) ∈ systab_entries -> call_number c = eax -> syscall_entry call eax s = call h s) /\
  (59 <= eax -> syscall_entry call eax s = Ok (-1, s)) /\
  (31 <= eax <= 39 -> syscall_entry call eax s = Fault).
Proof.
  intros H. unfold syscall_entry, NR_SYSCALLS, SYSCALL_MAX, in_u32 in *. split_and!.
  - intros c h Hin <-. pose proof (systab_entry c h Hin) as Hs.
    assert (call_number c < 59) as Hc by (destruct c; cbn; lia).
    rewrite (proj2 (Z.leb_gt _ _)) by lia. erewrite bind_ok; [|unfold st_res, aload; rewrite (proj2 (Z.ltb_ge _ _)), Hs by lia; reflexivity]. reflexivity.
  - intros Hge. rewrite (proj2 (Z.leb_le _ _)) by lia. reflexivity.
  - intros Hgap. rewrite (proj2 (Z.leb_gt _ _)) by lia. pose proof (proj2 (systab_gap eax ltac:(unfold NR_SYSCALLS, SYSCALL_MAX; lia)) Hgap) as Hs.
    erewrite bind_ok; [|unfold st_res, aload; rewrite (proj2 (Z.ltb_ge _ _)), Hs by lia; reflexivity]. reflexivity.
Qed.
